(* ===== verification/_CoqProject ===== *)
-Q . S2P
Prelude.v
GoOs.v
SftpWire.v
SftpPackets.v
Allocator.v
PacketManager.v
PacketChannels.v
GoPath.v
GoStrconv.v
GoJson.v
RequestServer.v
DataProvider.v
BoltProvider.v
Sql.v
Store.v
SqlProvider.v
FileSystem.v
Sessions.v
FileHandler.v
Expire.v
Server.v
Hdfs.v
Scp.v
Api.v
LegacyServer.v
ClientConn.v
ClientPeer.v
Client.v
ClientIO.v
ClientUpload.v
ClientDownload.v
ClientServer.v
ClientFiles.v
EndToEnd.v
HdfsTransfer.v
HdfsStream.v
HdfsReader.v
HdfsWriter.v
HdfsRpc.v
HdfsMeta.v
MemHandler.v
MemTree.v
ClientGlob.v
GoCrypto.v
HdfsSasl.v
