(* ===== verification/Prelude.v ===== *)
(** * Verification of sshserv

    sshserv is an SSH/SFTP server in Go with virtual users. A client connects
    over SSH, a login callback checks its credentials against a user store, and
    session channels then run the SFTP subsystem, SCP, commands or a shell. The
    parts, in the order in which a byte from the network reaches the disk:

    - serv/server.go accepts connections, logs users in and dispatches channel
      requests (with serv/shell_linux.go and serv/portforwarding.go);
    - sftp/ decodes packets, orders requests and responses over a pool of
      workers, and turns packets into calls of four handlers;
    - serv/filehandler.go implements the handlers: it maps client paths into
      the home directory of the user, checks permissions and quota, and opens
      transfers (serv/transfer.go) registered with the session state of
      serv/sftpd.go;
    - serv/scp.go serves SCP over the same paths, permissions and transfers;
    - dataprovider/ stores users in a key/value store or in an SQL database,
      verifies passwords and public keys and keeps the used quota; cmd/serve.go
      deletes users that have expired;
    - api/ manages users, connections and quota scans over HTTP, and has a
      client of its own.

    ** Files

    The files follow the packages. Each lists in its own header what it models.

    - [Prelude]: integers at their width, bytes, the [result] monad of fallible
      and panicking code, tactics and hints.
    - [GoOs], [GoPath], [GoStrconv], [GoJson]: what the sources use of Go's os,
      path, strings, strconv, fmt, base64 and encoding/json packages (the latter
      on lists of strings), and [cleanPath] of sftp/request-server.go.
    - [SftpWire]: sftp/packet.go (primitives), sftp/attrs.go, stat_posix.go.
    - [SftpPackets]: every packet of sftp/packet.go with its encoder and
      decoder, [makePacket] of packet-typing.go, framing, status translation.
    - [Allocator]: sftp/allocator.go.
    - [PacketManager]: sftp/packet-manager.go as a step relation over all
      interleavings of the receiving loop, the dispatcher, the workers and the
      controller, with queues that never block.
    - [PacketChannels]: the same code goroutine by goroutine, with the bounded
      channels, the wait group and the shutdown; it implements [PacketManager].
    - [RequestServer]: sftp/request.go, request-attrs.go, request-server.go:
      the table of open handles and one [packetWorker] per packet, over the
      class [Handlers] and its contract [HandlersSpec].
    - [DataProvider]: dataprovider/user.go, dataprovider.go and the string
      helpers of utils/utils.go, over the classes [Crypto] (third-party hashing
      and key parsing) and [Provider], with the contract [ProviderOn] of a
      provider with limits on what it stores, and [ProviderSpec] of one without.
    - [BoltProvider]: dataprovider/bolt.go, an instance of both.
    - [Sql]: a reader of the SQL statements the server sends, their meaning on a
      table, and the interface [Database] with its contract [DatabaseSpec].
    - [Store]: the abstract user store, [store_step], and the refinement of it by
      every provider that keeps [ProviderOn].
    - [SqlProvider]: dataprovider/sqlqueries.go, sqlcommon.go, sqlite.go, pgsql.go
      and mysql.go, further instances of [Provider] and [ProviderOn] over any
      database that keeps [DatabaseSpec], within the limits of its columns, and
      [Initialize].
    - [FileSystem]: the operating system as a class with a contract, and the
      in-memory instance [MemFS] the examples run on.
    - [Sessions]: serv/sftpd.go, transfer.go, lister.go: the package variables
      as the record [World].
    - [FileHandler]: serv/filehandler.go, every method of [Connection]; the
      instances [connection_handlers] and [connection_handlers_spec] discharge
      the interface of the request server.
    - [Expire]: cmd/serve.go, [check_user_expire_once].
    - [Server]: serv/server.go, shell_linux.go, portforwarding.go.
    - [Hdfs]: hh/hdfshandler.go, the handlers that replace those of [FileHandler]
      on an HDFS cluster, over the class [HdfsClient] with its contract
      [HdfsSpec]; a second instance of [Handlers] and [HandlersSpec].
    - [Scp]: serv/scp.go, every method of [scpCommand], in a monad with state,
      errors and panics over an interface of the SSH channel.
    - [Api]: api/user.go, quota.go, router.go and the client of api_utils.go.
    - [ClientConn]: sftp/conn.go, the client's end of a connection, over the class
      [Peer] of the other end with its contract [PeerSpec].
    - [ClientPeer]: peers that serve the requests they are sent one at a time, in
      any order.
    - [Client]: sftp/client.go, the methods of [Client] and [File].
    - [ClientIO], [ClientUpload], [ClientDownload]: the pipelined transfers of
      sftp/client.go with the theorems about reads, writes and downloads.
    - [ClientServer], [ClientFiles]: the client connected to the request server,
      for single requests and for the transfer of a whole file.
    - [EndToEnd]: the client, the request server and the file handler together.
    - [LegacyServer]: sftp/server.go with the [respond] methods of packet.go, the
      older server that works on the files of the machine directly.
    - [HdfsTransfer], [HdfsStream]: the protocol between HDFS clients and
      datanodes, hdfs/intrnl/transfer/transfer.go, block_write_stream.go and
      block_read_stream.go, with a reference receiver of packets.
    - [HdfsReader]: block_reader.go, datanode_failover.go and checksum_reader.go,
      and hdfs/file_reader.go over them.
    - [HdfsWriter]: block_writer.go, and hdfs/file_writer.go over it.
    - [HdfsRpc]: hdfs/intrnl/rpc/rpc.go, transport.go and namenode.go, calls to a
      list of namenodes, over an interface of the network with a clock.
    - [HdfsMeta]: the methods of the HDFS client on the namespace (hdfs/mkdir.go,
      perms.go, remove.go, rename.go, stat.go, stat_fs.go, content_summary.go,
      snapshot.go, xattr.go, walk.go, parts of client.go and of
      hadoopconf/hadoopconf.go) over an interface of its calls.
    - [MemHandler]: sftp/request-example.go, handlers in memory, a third instance
      of [Handlers] and [HandlersSpec]; [MemTree]: the invariant of its files.
    - [ClientGlob]: sftp/match.go, patterns and [Glob] of the client.
    - [GoCrypto]: MD5, HMAC, RC4 and hexadecimal text, executable.
    - [HdfsSasl]: hdfs/intrnl/sasl/challenge.go and, of hdfs/intrnl/transfer,
      digest_md5.go, digest_md5_integrity.go, digest_md5_privacy.go, sasl_dialer.go
      and the keys of aes_conn.go: protected connections to datanodes.

    ** What is proved

    - Wire format: encoding and decoding are inverse for requests, frames and
      attributes; no input makes the decoder panic; frames are bounded.
    - Packet manager: under every schedule responses leave in the order of the
      requests, and a CLOSE never overlaps an earlier read or write; with the
      channels at their capacity every schedule terminates and every request is
      answered while the input is open (at the end of the input the last
      responses may be left unsent).
    - Request server: responses carry the id of their request; an OPEN registers
      a fresh handle or leaves the table unchanged; a closed handle is dead;
      READDIR lists every entry once and ends; READ is bounded.
    - Paths: cleaning is idempotent and confines every client path, and the path
      the file handler resolves lies in the home directory or, because the source
      compares strings, in a directory beside it whose name continues that of
      the home directory; the search for an existing parent ends.
    - Users: validation establishes the user invariant, a created user logs in
      with its password, logins succeed only for verified credentials; the bolt
      store keeps its index consistent; expiry removes expired users and no
      others, where the expiry entries are well-formed.
    - Stores: the bolt provider and the three SQL providers refine one abstract
      machine, for every admissible history of calls: within what the store
      can hold, and with updates that name a record by both its name and its id.
      For SQL this goes through the texts of the queries, their placeholders and
      arguments, and the JSON columns.
    - SCP: an upload of a new file stores exactly the announced bytes and accounts
      them where quota is tracked, a download followed by an upload preserves the
      bytes, permissions hold, and announced modes are octal; names have no blanks.
    - SFTP client: whatever the order in which a server answers the requests in
      flight, a read fills the buffer with the bytes of the file, a write stores
      its data or reports the refusal, a download hands on the file once and in
      order; over the request server a command of the client is one call of the
      command handler.
    - End to end: a user who may download gets the bytes of the file on the disk,
      and an upload by a user who may is the file on the disk afterwards, through
      client, wire, request server, file handler and file system.
    - Legacy server: in read-only mode the file system stays as it is, except for
      two requests that are not checked; handles are never reused; the order in
      which SETSTAT reads its attributes is not the order they are sent in.
    - HDFS: permissions hold for all but REMOVE, and an upload is the
      concatenation of its writes in the order of their arrival.
    - HDFS client: a datanode that checks what it is sent takes every packet of a
      block, files are read back completely although datanodes fail (other than
      by a clean close, which is not failed over), and files are stored in blocks
      that are acknowledged and reported; data whose checksum is wrong is handed
      on to the caller. Every call to the namenode is
      executed exactly once although other namenodes of the list refuse
      connections, fail at a write or are standbys, and a walk visits a tree
      completely and in order. Connections to datanodes have the protection
      that is asked for, except that a datanode may have them encipher without
      signing, and carry what is written to them unchanged; the handshake
      reproduces the example of RFC 2831 and a recorded connection.
    - In-memory handlers: the flat map of names stays a tree, renames of whole
      directories included.
    - Globbing: patterns are decided as their grammar says.
    - REST API: credentials are never shown, the life of an account over HTTP,
      updates that keep the credentials, and quota scans.
    - Sessions: permissions are enforced by every method but SETSTAT, uploads
      over quota are refused and finished ones accounted exactly where quota is
      tracked (track_quota 1, or 2 for users with a restriction), bandwidth limits
      hold up to a kilobyte and a millisecond, session limits hold, scans are exclusive, and commands, terminals and
      forwards are started only for users who may.
    - Deviations the model exposes are lemmas or examples too: a rename into a
      sibling home directory, responses dropped at shutdown, counters that do not
      fit their columns, users with malformed expiry entries deleted, quota lost by RMDIR on a file, SETSTAT without a
      permission, a record hijacked by an update, a race on the session limit,
      panics on malformed channel requests, a leaked listener, writes past
      the read-only mode, panics on malformed answers of namenodes and datanodes,
      deletes that are refused and reported as done, forged data handed out after a
      failed check, and renames that take files out of the tree.

    ** Conventions, bounds and fuel

    Go's [error] is the type [error]; a function that may fail returns [result],
    whose third constructor [Panic] is a run-time panic (an index out of range,
    a nil dereference). State is passed explicitly. Order ids are [uint32] and
    the packet manager theorems assume fewer than 2^32 packets on a connection;
    handles are numbered by an [int] and assumed below 2^63. Loops that are not
    structural take fuel and return [None] when it runs out; theorems show that
    it does not: [climb] needs the number of components of the path, READDIR one
    request per hundred entries and one more, the expiry pass one page per
    thirty users and one more, an SCP upload more than the bytes the client still
    sends, a download more than the length of the file; in [Scp] running out of
    fuel is a [Panic]. The transfers of the client take one unit for every answer
    they wait for; their theorems assume fewer than 2^32 requests on a connection,
    handles of at most 256 bytes and, for writes, packets of at most 2^17 bytes,
    so that every frame is accepted. In the HDFS client a flush takes one unit
    per buffered byte, waiting for an ack one per incoming byte, a read of a file
    two rounds (the stream of a block may end once before its buffer is empty),
    a read of a block two per datanode, and a write two per byte; a call to the
    namenode one turn per namenode and one more, a walk the depth of the tree, a
    listing one page per entry and one more. The loops of the glob matcher take one
    unit per byte of the pattern, which is shown to be enough for every pattern.
    [MemFS] follows at most 255 symbolic links, as the Linux implementation of
    EvalSymlinks does.

    ** What is not modelled

    Contexts and locks (each locked function is one step); the text of a long
    directory listing ([runLs]) is an argument. The JSON of a whole user is the
    value it decodes to, which is what was written for texts in UTF-8. That
    [sendPacket] and the request handlers return is assumed where a session is
    shown to make progress. HTTP and command hooks are events. Third-party code
    (bbolt, the SQL databases and drivers, argon2id, bcrypt, pbkdf2,
    x/crypto/ssh, shlex, the HTTP router, protocol buffers) appears as interfaces with the laws
    the code relies on; of the databases these are byte-wise comparison of texts
    (not the default of MySQL) and that values the columns hold are stored, and
    connection pools are left out.

    Of the HDFS client, the login to namenodes with Kerberos (a third-party
    library, which the server does not configure), the AES stream that an
    enciphered connection ends up with, copies to and from local files and the
    command line tool are left out; so are the start of the servers (listeners,
    host keys, pools of database connections), logging, configuration files, the
    copying of terminals, the variants for other operating systems and the command
    line tools under cli/ and cmd/, which only print what the modelled methods
    return. *)
From stdpp Require Import base tactics option list strings gmap pretty.
From Stdlib Require Import ZArith Lia.
From Stdlib Require Strings.Byte.

#[global] Open Scope Z_scope.
#[global] Set Default Goal Selector "!".

(** ** Machine integers

    Go's sized integers are modelled as [Z] together with the wrap-around of
    the width the source declares: [u8], [u32] and [u64] are the conversions
    [uint8(x)], [uint32(x)], [uint64(x)], and [i64] is [int64(x)] (and [int]
    on the 64-bit targets the server is built for). *)
Definition u8 (z : Z) : Z := z mod 2 ^ 8.
Definition u32 (z : Z) : Z := z mod 2 ^ 32.
Definition u64 (z : Z) : Z := z mod 2 ^ 64.
Definition i64 (z : Z) : Z := (z + 2 ^ 63) mod 2 ^ 64 - 2 ^ 63.

Definition is_u32 (z : Z) : Prop := 0 <= z < 2 ^ 32.
Definition is_u64 (z : Z) : Prop := 0 <= z < 2 ^ 64.
Definition is_i64 (z : Z) : Prop := - 2 ^ 63 <= z < 2 ^ 63.

#[global] Instance is_u32_dec z : Decision (is_u32 z).
Proof. unfold is_u32. apply _. Defined.
#[global] Instance is_u64_dec z : Decision (is_u64 z).
Proof. unfold is_u64. apply _. Defined.
#[global] Instance is_i64_dec z : Decision (is_i64 z).
Proof. unfold is_i64. apply _. Defined.

Lemma u32_id z : is_u32 z → u32 z = z.
Proof. intros [? ?]. by apply Z.mod_small. Qed.
Lemma u64_id z : is_u64 z → u64 z = z.
Proof. intros [? ?]. by apply Z.mod_small. Qed.
Lemma i64_id z : is_i64 z → i64 z = z.
Proof. unfold is_i64, i64. intros ?. rewrite Z.mod_small; lia. Qed.
Lemma u32_range z : is_u32 (u32 z).
Proof. apply Z.mod_pos_bound. lia. Qed.
Lemma u64_range z : is_u64 (u64 z).
Proof. apply Z.mod_pos_bound. lia. Qed.
Lemma i64_range z : is_i64 (i64 z).
Proof.
  unfold is_i64, i64. pose proof (Z.mod_pos_bound (z + 2 ^ 63) (2 ^ 64)). lia.
Qed.

Create HintDb goint.
Create Rewrite HintDb goint.
#[export] Hint Resolve u32_range u64_range i64_range : goint.
#[export] Hint Rewrite u32_id u64_id i64_id using (by auto with goint) : goint.

(** ** Bytes and strings

    A Go [[]byte] is a [list byte]; a Go [string], which is also a sequence of
    bytes, is a [string] (eight-bit characters). *)
Abbreviation byte := Corelib.Init.Byte.byte.

Definition byte_of_Z (z : Z) : byte :=
  match Byte.of_N (Z.to_N (u8 z)) with Some b => b | None => Corelib.Init.Byte.x00 end.
Definition Z_of_byte (b : byte) : Z := Z.of_N (Byte.to_N b).

#[global] Instance byte_eq_dec : EqDecision byte := Byte.byte_eq_dec.

Definition bytes_of_string (s : string) : list byte := String.list_byte_of_string s.
Definition string_of_bytes (b : list byte) : string := String.string_of_list_byte b.
(** [len(s)] *)
Definition slen (s : string) : Z := Z.of_nat (String.length s).
(** [len(b)] *)
Definition zlen {A} (l : list A) : Z := Z.of_nat (length l).

Lemma Z_of_byte_range b : 0 <= Z_of_byte b < 256.
Proof. unfold Z_of_byte. pose proof (Byte.to_N_bounded b). lia. Qed.

Lemma Z_of_byte_of_Z z : Z_of_byte (byte_of_Z z) = u8 z.
Proof.
  unfold byte_of_Z, Z_of_byte.
  assert (0 <= u8 z < 256) by (apply Z.mod_pos_bound; lia).
  destruct (Byte.of_N (Z.to_N (u8 z))) as [b|] eqn:E.
  - apply Byte.to_of_N in E. rewrite E. lia.
  - apply Byte.of_N_None_iff in E. lia.
Qed.

Lemma byte_of_Z_of_byte b : byte_of_Z (Z_of_byte b) = b.
Proof.
  unfold byte_of_Z. pose proof (Z_of_byte_range b).
  unfold u8. rewrite Z.mod_small by lia.
  unfold Z_of_byte. by rewrite N2Z.id, Byte.of_to_N.
Qed.

Lemma string_of_bytes_of_string s : string_of_bytes (bytes_of_string s) = s.
Proof. apply String.string_of_list_byte_of_string. Qed.
Lemma bytes_of_string_of_bytes b : bytes_of_string (string_of_bytes b) = b.
Proof. apply String.list_byte_of_string_of_list_byte. Qed.

Lemma string_app_assoc (a b c : string) : a +:+ (b +:+ c) = (a +:+ b) +:+ c.
Proof. induction a as [|x a IH]; simpl; [done|]. exact (f_equal (String x) IH). Qed.
Lemma string_app_nil_r (a : string) : a +:+ EmptyString = a.
Proof. induction a as [|x a IH]; simpl; [done|]. exact (f_equal (String x) IH). Qed.

Lemma length_bytes_of_string s : length (bytes_of_string s) = String.length s.
Proof.
  unfold bytes_of_string, String.list_byte_of_string.
  rewrite length_map. induction s; simpl; congruence.
Qed.
Lemma zlen_bytes_of_string s : zlen (bytes_of_string s) = slen s.
Proof. unfold zlen, slen. by rewrite length_bytes_of_string. Qed.
Lemma length_string_of_bytes b : String.length (string_of_bytes b) = length b.
Proof. by rewrite <- length_bytes_of_string, bytes_of_string_of_bytes. Qed.
Lemma slen_nonneg s : 0 <= slen s.
Proof. unfold slen. lia. Qed.
Lemma zlen_nonneg {A} (l : list A) : 0 <= zlen l.
Proof. unfold zlen. lia. Qed.
Lemma zlen_app {A} (l k : list A) : zlen (l ++ k) = zlen l + zlen k.
Proof. unfold zlen. rewrite length_app. lia. Qed.
Lemma zlen_cons {A} (x : A) l : zlen (x :: l) = 1 + zlen l.
Proof. unfold zlen. simpl. lia. Qed.

Lemma zlen_snoc {A} (x : A) l : zlen (l ++ [x]) = zlen l + 1.
Proof. rewrite zlen_app. unfold zlen. simpl. lia. Qed.

(** ** Errors

    Go's [error] interface: every dynamic error type and sentinel value the
    code returns or compares against has a constructor. [errors.New] and
    [fmt.Errorf] values carry their message. *)
Inductive Errno :=
  | ENOENT | EPERM | EACCES | EEXIST | ENOTDIR | EISDIR | ENOTEMPTY
  | EBADF | ELOOP | EINVAL | EIO.
#[global] Instance Errno_eq_dec : EqDecision Errno.
Proof. solve_decision. Defined.

Inductive error :=
  | EMsg (msg : string)
  | EOF
  | ErrUnexpectedEOF
  | ESyscall (e : Errno)
  | EPathError (path : string) (e : Errno)
  | EFx (code : Z)
  | errShortPacket
  | errLongPacket
  | errUnknownExtendedPacket
  | ValidationError (msg : string)
  | MethodDisabledError (msg : string)
  | RecordNotFoundError (msg : string)
  | ErrClosedPipe
  | errInvalidChecksum
  | ErrInvalidSeqno
  | ErrEndOfBlock
  | EAck (pipelineIndex seqno status : Z)
  | ENamenode (exception message : string).
#[global] Instance error_eq_dec : EqDecision error.
Proof. solve_decision. Defined.

(** [os.IsNotExist] looks through [*PathError] and at raw errno values. *)
Definition os_IsNotExist (err : option error) : bool :=
  match err with
  | Some (ESyscall ENOENT) | Some (EPathError _ ENOENT) => true
  | _ => false
  end.

(** ** Results

    What a Go function that returns [(value, error)] can do: return a value
    with a nil error, return an error, or panic (index out of range, nil
    dereference). *)
Inductive result (A : Type) :=
  | Ok (a : A)
  | Err (e : error)
  | Panic.
Arguments Ok {A} a.
Arguments Err {A} e.
Arguments Panic {A}.

#[global] Instance result_eq_dec `{EqDecision A} : EqDecision (result A).
Proof. solve_decision. Defined.
#[global] Instance result_ret : MRet result := λ _ a, Ok a.
#[global] Instance result_bind : MBind result := λ _ _ f r,
  match r with Ok a => f a | Err e => Err e | Panic => Panic end.

Definition is_ok {A} (r : result A) : bool :=
  match r with Ok _ => true | _ => false end.

Lemma result_bind_ok {A B} (f : A → result B) (r : result A) b :
  r ≫= f = Ok b ↔ ∃ a, r = Ok a ∧ f a = Ok b.
Proof.
  destruct r; simpl; [split; [by eauto|by intros (? & [= <-] & ?)]| |];
    (split; [discriminate|intros (? & ? & ?); discriminate]).
Qed.
Lemma result_bind_no_panic {A B} (f : A → result B) (r : result A) :
  r ≠ Panic → (∀ a, r = Ok a → f a ≠ Panic) → r ≫= f ≠ Panic.
Proof. destruct r; simpl; auto. Qed.

(** Case analysis on the scrutinee of the outermost [match] of the goal. *)
Ltac case_goal :=
  match goal with |- context [match ?x with _ => _ end] => destruct x eqn:? end.
Ltac case_hyp H :=
  match type of H with context [match ?x with _ => _ end] => destruct x eqn:? end.

(** The same on every hypothesis that says what a call returned, until all
    of them are values. *)
Ltac case_results :=
  repeat match goal with
  | H : ?l = _ |- _ => match l with context [match ?x with _ => _ end] => destruct x eqn:?; simplify_eq end
  end.

(** ** Lists *)
Lemma forallb_elem {A} (f : A → bool) l x : forallb f l = true → x ∈ l → f x = true.
Proof. intros H Hx. rewrite forallb_forall in H. by apply H, list_elem_of_In. Qed.

(** ** Maps *)
Lemma alter_present `{Countable K} {A} (m : gmap K A) (f : A → A) i x :
  m !! i = Some x → alter f i m = <[i := f x]> m.
Proof.
  intros Hi. apply map_eq. intros j. destruct (decide (i = j)) as [<-|].
  - by rewrite lookup_alter_eq, Hi, lookup_insert_eq.
  - by rewrite lookup_alter_ne, lookup_insert_ne.
Qed.
Lemma alter_absent `{Countable K} {A} (m : gmap K A) (f : A → A) i :
  m !! i = None → alter f i m = m.
Proof.
  intros Hi. apply map_eq. intros j. destruct (decide (i = j)) as [<-|].
  - by rewrite lookup_alter_eq, Hi.
  - by rewrite lookup_alter_ne.
Qed.
