(* ===== verification/GoOs.v ===== *)
(** * The parts of Go's [os] and [syscall] packages the sources use as data:
    file modes, open flags and [FileInfo] *)
From stdpp Require Import base tactics option list strings.
From Stdlib Require Import ZArith Lia.
From S2P Require Import Prelude.

(** ** [os.FileMode] bits *)
Definition ModeDir : Z := Z.shiftl 1 31.
Definition ModeSymlink : Z := Z.shiftl 1 27.
Definition ModeDevice : Z := Z.shiftl 1 26.
Definition ModeNamedPipe : Z := Z.shiftl 1 25.
Definition ModeSocket : Z := Z.shiftl 1 24.
Definition ModeSetuid : Z := Z.shiftl 1 23.
Definition ModeSetgid : Z := Z.shiftl 1 22.
Definition ModeCharDevice : Z := Z.shiftl 1 21.
Definition ModeSticky : Z := Z.shiftl 1 20.
Definition ModeIrregular : Z := Z.shiftl 1 19.
Definition ModePerm : Z := 0x1ff.
Definition ModeType : Z :=
  fold_right Z.lor 0 [ModeDir; ModeSymlink; ModeNamedPipe; ModeSocket; ModeDevice;
                      ModeCharDevice; ModeIrregular].

(** [mode & bit != 0] *)
Definition has_bits (mode bits : Z) : bool := negb (Z.land mode bits =? 0).
(** [mode.IsDir()], [mode.IsRegular()] *)
Definition mode_IsDir (mode : Z) : bool := has_bits mode ModeDir.
Definition mode_IsRegular (mode : Z) : bool := negb (has_bits mode ModeType).

(** ** Linux [syscall] mode bits *)
Definition S_IFMT : Z := 0xf000.
Definition S_IFSOCK : Z := 0xc000.
Definition S_IFLNK : Z := 0xa000.
Definition S_IFREG : Z := 0x8000.
Definition S_IFBLK : Z := 0x6000.
Definition S_IFDIR : Z := 0x4000.
Definition S_IFCHR : Z := 0x2000.
Definition S_IFIFO : Z := 0x1000.
Definition S_ISUID : Z := 0x800.
Definition S_ISGID : Z := 0x400.
Definition S_ISVTX : Z := 0x200.

(** ** [os.OpenFile] flags (linux) *)
Definition O_RDONLY : Z := 0.
Definition O_WRONLY : Z := 1.
Definition O_RDWR : Z := 2.
Definition O_CREATE : Z := 0x40.
Definition O_EXCL : Z := 0x80.
Definition O_TRUNC : Z := 0x200.
Definition O_APPEND : Z := 0x400.

(** ** [os.FileInfo]

    [fi_ModTime] is the modification time in nanoseconds since the epoch;
    [fi_Sys] holds the owner ids when [Sys()] is a [*syscall.Stat_t]. *)
Record FileInfo := {
  fi_Name : string;
  fi_Size : Z;
  fi_Mode : Z;
  fi_ModTime : Z;
  fi_Sys : option (Z * Z)
}.
#[global] Instance FileInfo_eq_dec : EqDecision FileInfo.
Proof. solve_decision. Defined.

Definition fi_IsDir (fi : FileInfo) : bool := mode_IsDir (fi_Mode fi).
(** [fi.ModTime().Unix()] *)
Definition fi_ModTime_Unix (fi : FileInfo) : Z := fi_ModTime fi / 1000000000.
