(* ===== verification/SftpWire.v ===== *)
(** * The SFTP wire format: sftp/packet.go (primitives), sftp/attrs.go and
    the mode conversions of sftp/stat_posix.go

    Big-endian integers, length-prefixed strings and the ATTRS structure,
    each as an appending marshaller and a consuming unmarshaller. The
    unchecked unmarshallers index the slice directly and so panic on a short
    buffer; the [Safe] variants test the length first. *)
From stdpp Require Import base tactics option list strings.
From Stdlib Require Import ZArith Lia.
From S2P Require Import Prelude GoOs.

(** ** Integers and strings (sftp/packet.go) *)

Definition maxMsgLength : Z := 256 * 1024.

Definition marshalUint32 (b : list byte) (v : Z) : list byte :=
  b ++ [byte_of_Z (Z.shiftr v 24); byte_of_Z (Z.shiftr v 16);
        byte_of_Z (Z.shiftr v 8); byte_of_Z v].

Definition marshalUint64 (b : list byte) (v : Z) : list byte :=
  marshalUint32 (marshalUint32 b (u32 (Z.shiftr v 32))) (u32 v).

Definition marshalString (b : list byte) (v : string) : list byte :=
  marshalUint32 b (u32 (slen v)) ++ bytes_of_string v.

Definition unmarshalUint32 (b : list byte) : result (Z * list byte) :=
  match b with
  | b0 :: b1 :: b2 :: b3 :: rest =>
      Ok (Z.lor (Z.lor (Z.lor (Z_of_byte b3) (Z.shiftl (Z_of_byte b2) 8))
                       (Z.shiftl (Z_of_byte b1) 16))
                (Z.shiftl (Z_of_byte b0) 24), rest)
  | _ => Panic
  end.

Definition unmarshalUint32Safe (b : list byte) : result (Z * list byte) :=
  if zlen b <? 4 then Err errShortPacket else unmarshalUint32 b.

Definition unmarshalUint64 (b : list byte) : result (Z * list byte) :=
  '(h, b) ← unmarshalUint32 b;
  '(l, b) ← unmarshalUint32 b;
  Ok (Z.lor (Z.shiftl h 32) l, b).

Definition unmarshalUint64Safe (b : list byte) : result (Z * list byte) :=
  if zlen b <? 8 then Err errShortPacket else unmarshalUint64 b.

(** [string(b[:n]), b[n:]], which panics when [n > len(b)]. *)
Definition slice_string (n : Z) (b : list byte) : result (string * list byte) :=
  if zlen b <? n then Panic
  else Ok (string_of_bytes (take (Z.to_nat n) b), drop (Z.to_nat n) b).

Definition unmarshalString (b : list byte) : result (string * list byte) :=
  '(n, b) ← unmarshalUint32 b; slice_string n b.

Definition unmarshalStringSafe (b : list byte) : result (string * list byte) :=
  '(n, b) ← unmarshalUint32Safe b;
  if zlen b <? n then Err errShortPacket else slice_string n b.

Record extensionPair := { ep_Name : string; ep_Data : string }.

Definition unmarshalExtensionPair (b : list byte) : result (extensionPair * list byte) :=
  '(name, b) ← unmarshalStringSafe b;
  '(data, b) ← unmarshalStringSafe b;
  Ok ({| ep_Name := name; ep_Data := data |}, b).

#[global] Arguments marshalUint32 : simpl never.
#[global] Arguments marshalUint64 : simpl never.
#[global] Arguments marshalString : simpl never.
#[global] Arguments unmarshalUint32 : simpl never.

(** ** Lemmas on the primitives *)

Lemma lor_shiftl_add a b n : 0 <= n → 0 <= a < 2 ^ n → Z.lor a (Z.shiftl b n) = a + b * 2 ^ n.
Proof.
  intros Hn Ha. rewrite <- Z.shiftl_mul_pow2 by lia.
  rewrite Z.add_nocarry_lxor, <- Z.lxor_lor; [done| |];
    apply Z.bits_inj'; intros i Hi; rewrite Z.land_spec, Z.bits_0;
    (destruct (Z.lt_ge_cases i n);
     [rewrite Z.shiftl_spec_low by lia; apply andb_false_r
     |rewrite <- (Z.mod_small a (2 ^ n)) by lia;
      by rewrite Z.mod_pow2_bits_high by lia]).
Qed.

Lemma unmarshalUint32_cons b0 b1 b2 b3 rest :
  unmarshalUint32 (b0 :: b1 :: b2 :: b3 :: rest)
  = Ok (Z_of_byte b3 + Z_of_byte b2 * 2 ^ 8 + Z_of_byte b1 * 2 ^ 16 + Z_of_byte b0 * 2 ^ 24, rest).
Proof.
  pose proof (Z_of_byte_range b0). pose proof (Z_of_byte_range b1).
  pose proof (Z_of_byte_range b2). pose proof (Z_of_byte_range b3).
  unfold unmarshalUint32.
  by rewrite (lor_shiftl_add (Z_of_byte b3)), (lor_shiftl_add _ _ 16), (lor_shiftl_add _ _ 24) by lia.
Qed.

Lemma unmarshalUint32_marshal v rest : unmarshalUint32 (marshalUint32 [] v ++ rest) = Ok (u32 v, rest).
Proof.
  unfold marshalUint32. rewrite app_nil_l. simpl app. rewrite unmarshalUint32_cons.
  rewrite !Z_of_byte_of_Z, !Z.shiftr_div_pow2 by lia. unfold u8, u32.
  do 2 f_equal.
  change (2 ^ 8) with 256. change (2 ^ 16) with 65536. change (2 ^ 24) with 16777216.
  change (2 ^ 32) with 4294967296.
  Z.to_euclidean_division_equations. lia.
Qed.

Lemma marshalUint32_app b v : marshalUint32 b v = b ++ marshalUint32 [] v.
Proof. done. Qed.
Lemma marshalUint64_app b v : marshalUint64 b v = b ++ marshalUint64 [] v.
Proof.
  unfold marshalUint64. rewrite marshalUint32_app, (marshalUint32_app b).
  by rewrite (marshalUint32_app (marshalUint32 [] _)), app_assoc.
Qed.
Lemma marshalString_app b v : marshalString b v = b ++ marshalString [] v.
Proof. unfold marshalString. by rewrite (marshalUint32_app b), app_assoc. Qed.

Lemma zlen_marshalUint32 v : zlen (marshalUint32 [] v) = 4.
Proof. done. Qed.

Lemma unmarshalUint32Safe_marshal v rest :
  unmarshalUint32Safe (marshalUint32 [] v ++ rest) = Ok (u32 v, rest).
Proof.
  unfold unmarshalUint32Safe. rewrite zlen_app, zlen_marshalUint32.
  pose proof (zlen_nonneg rest).
  destruct (Z.ltb_spec (4 + zlen rest) 4); [lia|]. apply unmarshalUint32_marshal.
Qed.

Lemma u64_split v : is_u64 v → Z.lor (Z.shiftl (u32 (u32 (Z.shiftr v 32))) 32) (u32 (u32 v)) = v.
Proof.
  unfold is_u64. intros Hv. rewrite Z.lor_comm, lor_shiftl_add;
    [|lia|apply u32_range].
  rewrite Z.shiftr_div_pow2 by lia. unfold u32.
  change (2 ^ 32) with 4294967296. change (2 ^ 64) with 18446744073709551616 in Hv.
  Z.to_euclidean_division_equations. lia.
Qed.

Lemma unmarshalUint64Safe_marshal v rest :
  is_u64 v → unmarshalUint64Safe (marshalUint64 [] v ++ rest) = Ok (v, rest).
Proof.
  intros Hv. unfold unmarshalUint64Safe, marshalUint64.
  rewrite (marshalUint32_app (marshalUint32 _ _)), <- app_assoc.
  rewrite !zlen_app, !zlen_marshalUint32. pose proof (zlen_nonneg rest).
  destruct (Z.ltb_spec (4 + (4 + zlen rest)) 8); [lia|].
  unfold unmarshalUint64. rewrite unmarshalUint32_marshal. cbn [mbind result_bind].
  rewrite unmarshalUint32_marshal. cbn [mbind result_bind]. by rewrite u64_split.
Qed.

Lemma slice_string_app s rest :
  slice_string (slen s) (bytes_of_string s ++ rest) = Ok (s, rest).
Proof.
  unfold slice_string. rewrite zlen_app, zlen_bytes_of_string.
  pose proof (zlen_nonneg rest).
  destruct (Z.ltb_spec (slen s + zlen rest) (slen s)); [lia|].
  unfold slen. rewrite Nat2Z.id, <- length_bytes_of_string.
  by rewrite take_app_length, drop_app_length, string_of_bytes_of_string.
Qed.

Lemma unmarshalStringSafe_marshal s rest :
  slen s < 2 ^ 32 → unmarshalStringSafe (marshalString [] s ++ rest) = Ok (s, rest).
Proof.
  intros Hs. unfold unmarshalStringSafe, marshalString.
  rewrite <- app_assoc, unmarshalUint32Safe_marshal. simpl.
  pose proof (slen_nonneg s). rewrite !u32_id; [|done|rewrite u32_id; done].
  rewrite zlen_app, zlen_bytes_of_string. pose proof (zlen_nonneg rest).
  destruct (Z.ltb_spec (slen s + zlen rest) (slen s)); [lia|].
  apply slice_string_app.
Qed.

Lemma unmarshalString_marshal s rest :
  slen s < 2 ^ 32 → unmarshalString (marshalString [] s ++ rest) = Ok (s, rest).
Proof.
  intros Hs. unfold unmarshalString, marshalString. rewrite <- app_assoc, unmarshalUint32_marshal. simpl.
  pose proof (slen_nonneg s). rewrite !u32_id; [|done|rewrite u32_id; done]. apply slice_string_app.
Qed.

Lemma unmarshalUint32Safe_marshal_nil v : unmarshalUint32Safe (marshalUint32 [] v) = Ok (u32 v, []).
Proof. by rewrite <- (app_nil_r (marshalUint32 _ _)), unmarshalUint32Safe_marshal. Qed.
Lemma unmarshalStringSafe_marshal_nil s :
  slen s < 2 ^ 32 → unmarshalStringSafe (marshalString [] s) = Ok (s, []).
Proof. intros. by rewrite <- (app_nil_r (marshalString _ _)), unmarshalStringSafe_marshal. Qed.

Lemma unmarshalUint32_no_panic b : 4 <= zlen b → unmarshalUint32 b ≠ Panic.
Proof.
  unfold zlen. destruct b as [|? [|? [|? [|? ?]]]]; simpl; try lia. done.
Qed.
Lemma unmarshalUint32Safe_no_panic b : unmarshalUint32Safe b ≠ Panic.
Proof.
  unfold unmarshalUint32Safe. destruct (Z.ltb_spec (zlen b) 4); [done|].
  by apply unmarshalUint32_no_panic.
Qed.
Lemma unmarshalUint32_ok b v rest : unmarshalUint32 b = Ok (v, rest) → zlen rest = zlen b - 4 ∧ is_u32 v.
Proof.
  destruct b as [|b0 [|b1 [|b2 [|b3 rest']]]]; try done.
  rewrite unmarshalUint32_cons. intros [= <- <-]. rewrite !zlen_cons. split; [lia|].
  pose proof (Z_of_byte_range b0). pose proof (Z_of_byte_range b1).
  pose proof (Z_of_byte_range b2). pose proof (Z_of_byte_range b3). unfold is_u32. lia.
Qed.
Lemma unmarshalUint64Safe_no_panic b : unmarshalUint64Safe b ≠ Panic.
Proof.
  unfold unmarshalUint64Safe. destruct (Z.ltb_spec (zlen b) 8); [done|].
  unfold unmarshalUint64. apply result_bind_no_panic; [apply unmarshalUint32_no_panic; lia|].
  intros [h b'] Hb. apply unmarshalUint32_ok in Hb as [? ?].
  apply result_bind_no_panic; [apply unmarshalUint32_no_panic; lia|]. by intros [? ?].
Qed.
Lemma slice_string_no_panic n b : n <= zlen b → slice_string n b ≠ Panic.
Proof. unfold slice_string. destruct (Z.ltb_spec (zlen b) n); [lia|done]. Qed.
Lemma unmarshalStringSafe_no_panic b : unmarshalStringSafe b ≠ Panic.
Proof.
  unfold unmarshalStringSafe. apply result_bind_no_panic; [apply unmarshalUint32Safe_no_panic|].
  intros [n b'] _. destruct (Z.ltb_spec (zlen b') n); [done|]. by apply slice_string_no_panic.
Qed.
Lemma unmarshalUint32Safe_ok b v rest :
  unmarshalUint32Safe b = Ok (v, rest) → zlen rest = zlen b - 4 ∧ is_u32 v.
Proof.
  unfold unmarshalUint32Safe. destruct (_ <? _); [done|]. apply unmarshalUint32_ok.
Qed.
Lemma unmarshalStringSafe_ok b s rest :
  unmarshalStringSafe b = Ok (s, rest) → zlen rest <= zlen b - 4 - slen s ∧ slen s < 2 ^ 32.
Proof.
  unfold unmarshalStringSafe. intros ([n b'] & Hn & H)%result_bind_ok.
  apply unmarshalUint32Safe_ok in Hn as [? Hn]. destruct (_ <? _); [done|].
  unfold slice_string in H. destruct (Z.ltb_spec (zlen b') n); [done|]. simplify_eq.
  unfold is_u32 in Hn. unfold slen, zlen in *. rewrite length_string_of_bytes, length_take, length_drop.
  lia.
Qed.

Create HintDb wire.
#[export] Hint Resolve unmarshalUint32Safe_no_panic unmarshalUint64Safe_no_panic
  unmarshalStringSafe_no_panic : wire.

(** ** File attributes (sftp/attrs.go, sftp/attrs_unix.go) *)

Definition sshFileXferAttrSize : Z := 0x00000001.
Definition sshFileXferAttrUIDGID : Z := 0x00000002.
Definition sshFileXferAttrPermissions : Z := 0x00000004.
Definition sshFileXferAttrACmodTime : Z := 0x00000008.
Definition sshFileXferAttrExtented : Z := 0x80000000.

Record StatExtended := { ExtType : string; ExtData : string }.

Record FileStat := {
  fs_Size : Z; fs_Mode : Z; fs_Mtime : Z; fs_Atime : Z;
  fs_UID : Z; fs_GID : Z; fs_Extended : list StatExtended
}.

(** [v, b, _ = unmarshalXSafe(b)]: the error is dropped, and the callee
    returned the zero value and a nil slice with it. *)
Definition lenient {A} (zero : A) (r : result (A * list byte)) : result (A * list byte) :=
  match r with Err _ => Ok (zero, []) | _ => r end.

(** [flags & m == m] *)
Definition flag_set (flags m : Z) : bool := Z.land flags m =? m.

Fixpoint getExtended (count : nat) (b : list byte) : result (list StatExtended * list byte) :=
  match count with
  | O => Ok ([], b)
  | S count =>
      '(typ, b) ← lenient EmptyString (unmarshalStringSafe b);
      '(data, b) ← lenient EmptyString (unmarshalStringSafe b);
      '(ext, b) ← getExtended count b;
      Ok ({| ExtType := typ; ExtData := data |} :: ext, b)
  end.

Definition getFileStat (flags : Z) (b : list byte) : result (FileStat * list byte) :=
  '(size, b) ← (if flag_set flags sshFileXferAttrSize
                then lenient 0 (unmarshalUint64Safe b) else Ok (0, b));
  '(uid, b) ← (if flag_set flags sshFileXferAttrUIDGID
               then lenient 0 (unmarshalUint32Safe b) else Ok (0, b));
  '(gid, b) ← (if flag_set flags sshFileXferAttrUIDGID
               then lenient 0 (unmarshalUint32Safe b) else Ok (0, b));
  '(mode, b) ← (if flag_set flags sshFileXferAttrPermissions
                then lenient 0 (unmarshalUint32Safe b) else Ok (0, b));
  '(atime, mtime, b) ← (if flag_set flags sshFileXferAttrACmodTime
                        then '(atime, b) ← lenient 0 (unmarshalUint32Safe b);
                             '(mtime, b) ← lenient 0 (unmarshalUint32Safe b);
                             Ok (atime, mtime, b)
                        else Ok (0, 0, b));
  '(ext, b) ← (if flag_set flags sshFileXferAttrExtented
               then '(count, b) ← lenient 0 (unmarshalUint32Safe b);
                    getExtended (Z.to_nat count) b
               else Ok ([], b));
  Ok ({| fs_Size := size; fs_Mode := mode; fs_Mtime := mtime; fs_Atime := atime;
         fs_UID := uid; fs_GID := gid; fs_Extended := ext |}, b).

Definition unmarshalAttrs (b : list byte) : result (FileStat * list byte) :=
  '(flags, b) ← unmarshalUint32 b; getFileStat flags b.

(** *** Mode conversions (sftp/stat_posix.go) *)

(** [if mode & bit != 0 { acc |= v }] *)
Definition or_if (c : bool) (v acc : Z) : Z := if c then Z.lor acc v else acc.

Definition toFileMode (mode : Z) : Z :=
  let fm := Z.land mode 0x1ff in
  let t := Z.land mode S_IFMT in
  let fm :=
    if t =? S_IFBLK then Z.lor fm ModeDevice
    else if t =? S_IFCHR then Z.lor fm (Z.lor ModeDevice ModeCharDevice)
    else if t =? S_IFDIR then Z.lor fm ModeDir
    else if t =? S_IFIFO then Z.lor fm ModeNamedPipe
    else if t =? S_IFLNK then Z.lor fm ModeSymlink
    else if t =? S_IFREG then fm
    else if t =? S_IFSOCK then Z.lor fm ModeSocket
    else fm in
  let fm := or_if (has_bits mode S_ISGID) ModeSetgid fm in
  let fm := or_if (has_bits mode S_ISUID) ModeSetuid fm in
  or_if (has_bits mode S_ISVTX) ModeSticky fm.

Definition fromFileMode (mode : Z) : Z :=
  let ret := 0 in
  let ret :=
    if has_bits mode ModeDevice then
      if has_bits mode ModeCharDevice then Z.lor ret S_IFCHR else Z.lor ret S_IFBLK
    else ret in
  let ret := or_if (has_bits mode ModeDir) S_IFDIR ret in
  let ret := or_if (has_bits mode ModeSymlink) S_IFLNK ret in
  let ret := or_if (has_bits mode ModeNamedPipe) S_IFIFO ret in
  let ret := or_if (has_bits mode ModeSetgid) S_ISGID ret in
  let ret := or_if (has_bits mode ModeSetuid) S_ISUID ret in
  let ret := or_if (has_bits mode ModeSticky) S_ISVTX ret in
  let ret := or_if (has_bits mode ModeSocket) S_IFSOCK ret in
  let ret := or_if (Z.land mode ModeType =? 0) S_IFREG ret in
  Z.lor ret (Z.land mode ModePerm).

(** *** Marshalling a [FileInfo] *)

Definition fileStatFromInfoOs (fi : FileInfo) (flags : Z) (st : FileStat) : Z * FileStat :=
  match fi_Sys fi with
  | Some (uid, gid) =>
      (Z.lor flags sshFileXferAttrUIDGID,
       {| fs_Size := fs_Size st; fs_Mode := fs_Mode st; fs_Mtime := fs_Mtime st;
          fs_Atime := fs_Atime st; fs_UID := uid; fs_GID := gid;
          fs_Extended := fs_Extended st |})
  | None => (flags, st)
  end.

Definition fileStatFromInfo (fi : FileInfo) : Z * FileStat :=
  let mtime := fi_ModTime_Unix fi in
  let atime := mtime in
  let flags := Z.lor (Z.lor sshFileXferAttrSize sshFileXferAttrPermissions)
                     sshFileXferAttrACmodTime in
  let st := {| fs_Size := u64 (fi_Size fi); fs_Mode := fromFileMode (fi_Mode fi);
               fs_Mtime := u32 mtime; fs_Atime := u32 atime;
               fs_UID := 0; fs_GID := 0; fs_Extended := [] |} in
  fileStatFromInfoOs fi flags st.

Definition marshalFileInfo (b : list byte) (fi : FileInfo) : list byte :=
  let '(flags, st) := fileStatFromInfo fi in
  let b := marshalUint32 b flags in
  let b := if has_bits flags sshFileXferAttrSize then marshalUint64 b (fs_Size st) else b in
  let b := if has_bits flags sshFileXferAttrUIDGID
           then marshalUint32 (marshalUint32 b (fs_UID st)) (fs_GID st) else b in
  let b := if has_bits flags sshFileXferAttrPermissions
           then marshalUint32 b (fs_Mode st) else b in
  if has_bits flags sshFileXferAttrACmodTime
  then marshalUint32 (marshalUint32 b (fs_Atime st)) (fs_Mtime st) else b.

(** [fileInfoFromStat]: what the client rebuilds from the attributes; the
    raw [FileStat] it keeps as [Sys()] is not a [*syscall.Stat_t]. *)
Definition fileInfoFromStat (st : FileStat) (name : string) : FileInfo :=
  {| fi_Name := name; fi_Size := i64 (fs_Size st); fi_Mode := toFileMode (fs_Mode st);
     fi_ModTime := fs_Mtime st * 1000000000; fi_Sys := None |}.

(** ** Properties of the attributes *)

Lemma lor_range n a b : 0 <= n → 0 <= a < 2 ^ n → 0 <= b < 2 ^ n → 0 <= Z.lor a b < 2 ^ n.
Proof.
  intros Hn Ha Hb. assert (0 <= Z.lor a b) by (apply Z.lor_nonneg; lia). split; [done|].
  destruct (Z.eq_dec (Z.lor a b) 0); [lia|]. apply Z.log2_lt_pow2; [lia|].
  rewrite Z.log2_lor by lia.
  destruct (Z.eq_dec a 0) as [->|], (Z.eq_dec b 0) as [->|]; try done.
  - rewrite Z.max_r by apply Z.log2_nonneg. apply Z.log2_lt_pow2; lia.
  - rewrite Z.max_l by apply Z.log2_nonneg. apply Z.log2_lt_pow2; lia.
  - apply Z.max_lub_lt; apply Z.log2_lt_pow2; lia.
Qed.

Lemma or_if_range n c v acc :
  0 <= n → 0 <= v < 2 ^ n → 0 <= acc < 2 ^ n → 0 <= or_if c v acc < 2 ^ n.
Proof. intros. destruct c; simpl; [by apply lor_range|done]. Qed.

Lemma fromFileMode_u32 mode : is_u32 (fromFileMode mode).
Proof.
  unfold fromFileMode, is_u32. apply lor_range; [lia| |].
  - repeat (apply or_if_range; [lia|by vm_compute|]).
    destruct (has_bits mode ModeDevice), (has_bits mode ModeCharDevice); by vm_compute.
  - change ModePerm with (Z.ones 9). rewrite Z.land_ones by lia.
    pose proof (Z.mod_pos_bound mode (2 ^ 9)). lia.
Qed.

(** The modes a Unix file can have: one file type, nine permission bits and
    the three special bits. *)
Definition unix_types : list Z :=
  [0; ModeDir; ModeSymlink; ModeNamedPipe; ModeSocket; ModeDevice; Z.lor ModeDevice ModeCharDevice].
Definition unix_specials : list Z :=
  u ← [0; ModeSetuid]; g ← [0; ModeSetgid]; s ← [0; ModeSticky]; [Z.lor u (Z.lor g s)].
Definition unix_mode (t p s : Z) : Z := Z.lor t (Z.lor p s).

Definition perm_ok (t s : Z) (p : nat) : bool :=
  let m := unix_mode t (Z.of_nat p) s in toFileMode (fromFileMode m) =? m.
Definition special_ok (t s : Z) : bool := forallb (perm_ok t s) (seq 0 512).
Definition type_ok (t : Z) : bool := forallb (special_ok t) unix_specials.

Lemma all_modes_ok : forallb type_ok unix_types = true.
Proof. vm_compute. reflexivity. Qed.

Lemma mode_roundtrip t p s :
  t ∈ unix_types → s ∈ unix_specials → 0 <= p <= ModePerm →
  toFileMode (fromFileMode (unix_mode t p s)) = unix_mode t p s.
Proof.
  intros Ht Hs Hp.
  pose proof (forallb_elem _ _ _ all_modes_ok Ht : type_ok t = true) as Hst.
  pose proof (forallb_elem _ _ _ Hst Hs : special_ok t s = true) as Hsp.
  assert (Z.to_nat p ∈ seq 0 512) as Hin
    by (apply list_elem_of_In, in_seq; unfold ModePerm in Hp; lia).
  pose proof (forallb_elem _ _ _ Hsp Hin) as H. unfold perm_ok in H.
  rewrite Z2Nat.id in H by lia. by apply Z.eqb_eq.
Qed.

(** The decoder applied to what the encoder wrote gives back the encoder's
    [FileStat] and the bytes that follow. *)
Lemma unmarshalAttrs_marshalFileInfo fi rest :
  (∀ uid gid, fi_Sys fi = Some (uid, gid) → is_u32 uid ∧ is_u32 gid) →
  unmarshalAttrs (marshalFileInfo [] fi ++ rest) = Ok (snd (fileStatFromInfo fi), rest).
Proof.
  intros Hsys. pose proof (fromFileMode_u32 (fi_Mode fi)) as Hmode.
  unfold marshalFileInfo, fileStatFromInfo, fileStatFromInfoOs, unmarshalAttrs.
  destruct (fi_Sys fi) as [[uid gid]|] eqn:E; [destruct (Hsys _ _ eq_refl)|];
    (* the flag word is a constant: normalise the tests on it *)
    change (Z.lor (Z.lor sshFileXferAttrSize sshFileXferAttrPermissions) sshFileXferAttrACmodTime) with 13;
    try change (Z.lor 13 sshFileXferAttrUIDGID) with 15;
    repeat match goal with |- context [has_bits ?a ?b] =>
      let v := eval vm_compute in (has_bits a b) in change (has_bits a b) with v end;
    cbn [fs_Size fs_Mode fs_Mtime fs_Atime fs_UID fs_GID fs_Extended snd];
    repeat match goal with |- context [marshalUint32 ?b ?v] =>
      lazymatch b with [] => fail | _ => rewrite (marshalUint32_app b v) end end;
    repeat match goal with |- context [marshalUint64 ?b ?v] =>
      lazymatch b with [] => fail | _ => rewrite (marshalUint64_app b v) end end;
    rewrite <- !app_assoc, unmarshalUint32_marshal; cbn [mbind result_bind];
    unfold getFileStat;
    repeat match goal with |- context [flag_set ?a ?b] =>
      let v := eval vm_compute in (flag_set a b) in change (flag_set a b) with v end;
    cbv beta iota;
    rewrite unmarshalUint64Safe_marshal by auto with goint; cbn [lenient mbind result_bind];
    repeat (rewrite unmarshalUint32Safe_marshal; cbn [lenient mbind result_bind]);
    autorewrite with goint; rewrite ?(u32_id uid), ?(u32_id gid) by done; done.
Qed.

(** A directory entry survives the wire. For any file a Unix server can
    list (one type, nine permission bits, three special bits, a non-negative
    int64 size, an mtime in the 32-bit epoch, 32-bit owner ids), decoding the
    ATTRS block the server marshals and rebuilding a [FileInfo] as the client
    does gives back the size, the full mode and the modification second, and
    leaves exactly the bytes that followed. *)
Theorem attrs_roundtrip fi rest t p s :
  fi_Mode fi = unix_mode t p s → t ∈ unix_types → s ∈ unix_specials → 0 <= p <= ModePerm →
  0 <= fi_Size fi < 2 ^ 63 → is_u32 (fi_ModTime_Unix fi) →
  (∀ uid gid, fi_Sys fi = Some (uid, gid) → is_u32 uid ∧ is_u32 gid) →
  ∃ st, unmarshalAttrs (marshalFileInfo [] fi ++ rest) = Ok (st, rest)
    ∧ let fi' := fileInfoFromStat st (fi_Name fi) in
      fi_Name fi' = fi_Name fi ∧ fi_Size fi' = fi_Size fi ∧ fi_Mode fi' = fi_Mode fi
      ∧ fi_ModTime_Unix fi' = fi_ModTime_Unix fi
      ∧ (∀ uid gid, fi_Sys fi = Some (uid, gid) → fs_UID st = uid ∧ fs_GID st = gid).
Proof.
  intros Hm Ht Hs Hp Hsz Htm Hsys. eexists. split; [by apply unmarshalAttrs_marshalFileInfo|].
  unfold fileStatFromInfo, fileStatFromInfoOs.
  assert (fi_Size fi = i64 (u64 (fi_Size fi))) as Hsize
    by (rewrite u64_id, i64_id; unfold is_u64, is_i64; lia).
  assert (u32 (fi_ModTime_Unix fi) * 1000000000 / 1000000000 = fi_ModTime_Unix fi) as Htime
    by (rewrite u32_id, Z.div_mul by done; done).
  destruct (fi_Sys fi) as [[uid gid]|]; simpl; unfold fi_ModTime_Unix at 1 3; simpl;
    rewrite Hm, mode_roundtrip by done; repeat split; congruence.
Qed.

Lemma attrs_roundtrip_witness :
  ∃ st, unmarshalAttrs (marshalFileInfo []
          {| fi_Name := "a"; fi_Size := 5; fi_Mode := unix_mode ModeDir 0x1ed ModeSticky;
             fi_ModTime := 1700000000123456789; fi_Sys := Some (1000, 100) |} ++ [Byte.x01])
        = Ok (st, [Byte.x01]) ∧ fs_UID st = 1000.
Proof.
  destruct (attrs_roundtrip
    {| fi_Name := "a"; fi_Size := 5; fi_Mode := unix_mode ModeDir 0x1ed ModeSticky;
       fi_ModTime := 1700000000123456789; fi_Sys := Some (1000, 100) |} [Byte.x01]
    ModeDir 0x1ed ModeSticky) as (st & Hst & _ & _ & _ & _ & Hids).
  - reflexivity.
  - apply list_elem_of_In. simpl. tauto.
  - apply list_elem_of_In. simpl. tauto.
  - by vm_compute.
  - by vm_compute.
  - by vm_compute.
  - intros uid gid [= <- <-]. by vm_compute.
  - exists st. split; [exact Hst|]. exact (proj1 (Hids _ _ eq_refl)).
Defined.
