(* ===== verification/SftpPackets.v ===== *)
(** * SFTP packets: sftp/packet.go, sftp/packet-typing.go, and the packet
    helpers of sftp/server.go, sftp/client.go and sftp/sftp.go

    One constructor per packet struct, one [MarshalBinary] and one
    [UnmarshalBinary] per struct that has them, the framing functions
    [sendPacket]/[recvPacket] and the dispatcher [makePacket]. A failed
    [UnmarshalBinary] leaves the packet filled up to the field that failed,
    with zero values after it, and returns the error beside it. *)
From stdpp Require Import base tactics option list strings.
From Stdlib Require Import ZArith Lia.
From S2P Require Import Prelude GoOs SftpWire.

(** ** Packet types and status codes (sftp/sftp.go) *)
Definition sshFxpInit : Z := 1.
Definition sshFxpVersion : Z := 2.
Definition sshFxpOpen : Z := 3.
Definition sshFxpClose : Z := 4.
Definition sshFxpRead : Z := 5.
Definition sshFxpWrite : Z := 6.
Definition sshFxpLstat : Z := 7.
Definition sshFxpFstat : Z := 8.
Definition sshFxpSetstat : Z := 9.
Definition sshFxpFsetstat : Z := 10.
Definition sshFxpOpendir : Z := 11.
Definition sshFxpReaddir : Z := 12.
Definition sshFxpRemove : Z := 13.
Definition sshFxpMkdir : Z := 14.
Definition sshFxpRmdir : Z := 15.
Definition sshFxpRealpath : Z := 16.
Definition sshFxpStat : Z := 17.
Definition sshFxpRename : Z := 18.
Definition sshFxpReadlink : Z := 19.
Definition sshFxpSymlink : Z := 20.
Definition sshFxpStatus : Z := 101.
Definition sshFxpHandle : Z := 102.
Definition sshFxpData : Z := 103.
Definition sshFxpName : Z := 104.
Definition sshFxpAttrs : Z := 105.
Definition sshFxpExtended : Z := 200.
Definition sshFxpExtendedReply : Z := 201.

Definition sshFxOk : Z := 0.
Definition sshFxEOF : Z := 1.
Definition sshFxNoSuchFile : Z := 2.
Definition sshFxPermissionDenied : Z := 3.
Definition sshFxFailure : Z := 4.
Definition sshFxOPUnsupported : Z := 8.

(** ** The reflective marshaller

    The dynamic types [marshal] accepts; any other type makes it panic. *)
Inductive mval :=
  | VNil
  | VUint8 (v : Z)
  | VUint32 (v : Z)
  | VUint64 (v : Z)
  | VString (v : string)
  | VFileInfo (v : FileInfo)
  | VStruct (fields : list mval)
  | VSlice (elems : list mval).

Fixpoint marshal (b : list byte) (v : mval) : list byte :=
  match v with
  | VNil => b
  | VUint8 v => b ++ [byte_of_Z v]
  | VUint32 v => marshalUint32 b v
  | VUint64 v => marshalUint64 b v
  | VString v => marshalString b v
  | VFileInfo v => marshalFileInfo b v
  | VStruct l | VSlice l =>
      (fix go (b : list byte) (l : list mval) : list byte :=
         match l with [] => b | x :: l => go (marshal b x) l end) b l
  end.

(** A [[]byte] as [marshal] sees it. *)
Definition VBytes (d : list byte) : mval := VSlice (map (λ x, VUint8 (Z_of_byte x)) d).

(** ** Request packets *)
Inductive specificPacket :=
  | sshFxpExtendedPacketStatVFS (ID : Z) (ExtendedRequest Path : string)
  | sshFxpExtendedPacketPosixRename (ID : Z) (ExtendedRequest Oldpath Newpath : string)
  | sshFxpExtendedPacketHardlink (ID : Z) (ExtendedRequest Oldpath Newpath : string).

Inductive requestPacket :=
  | sshFxInitPacket (Version : Z) (Extensions : list extensionPair)
  | sshFxpLstatPacket (ID : Z) (Path : string)
  | sshFxpOpenPacket (ID : Z) (Path : string) (Pflags Flags : Z)
  | sshFxpClosePacket (ID : Z) (Handle : string)
  | sshFxpReadPacket (ID Len Offset : Z) (Handle : string)
  | sshFxpWritePacket (ID Length Offset : Z) (Handle : string) (Data : list byte)
  | sshFxpFstatPacket (ID : Z) (Handle : string)
  | sshFxpSetstatPacket (ID Flags : Z) (Path : string) (Attrs : list byte)
  | sshFxpFsetstatPacket (ID Flags : Z) (Handle : string) (Attrs : list byte)
  | sshFxpOpendirPacket (ID : Z) (Path : string)
  | sshFxpReaddirPacket (ID : Z) (Handle : string)
  | sshFxpRemovePacket (ID : Z) (Filename : string)
  | sshFxpMkdirPacket (ID Flags : Z) (Path : string)
  | sshFxpRmdirPacket (ID : Z) (Path : string)
  | sshFxpRealpathPacket (ID : Z) (Path : string)
  | sshFxpStatPacket (ID : Z) (Path : string)
  | sshFxpRenamePacket (ID : Z) (Oldpath Newpath : string)
  | sshFxpReadlinkPacket (ID : Z) (Path : string)
  | sshFxpSymlinkPacket (ID : Z) (Targetpath Linkpath : string)
  | sshFxpExtendedPacket (ID : Z) (ExtendedRequest : string) (Specific : option specificPacket).

Definition specific_id (p : specificPacket) : Z :=
  match p with
  | sshFxpExtendedPacketStatVFS i _ _ | sshFxpExtendedPacketPosixRename i _ _ _
  | sshFxpExtendedPacketHardlink i _ _ _ => i
  end.

(** [id()] of every request packet; INIT has no id and answers 0. *)
Definition request_id (p : requestPacket) : Z :=
  match p with
  | sshFxInitPacket _ _ => 0
  | sshFxpLstatPacket i _ | sshFxpClosePacket i _ | sshFxpFstatPacket i _
  | sshFxpOpendirPacket i _ | sshFxpReaddirPacket i _ | sshFxpRemovePacket i _
  | sshFxpRmdirPacket i _ | sshFxpRealpathPacket i _ | sshFxpStatPacket i _
  | sshFxpReadlinkPacket i _ => i
  | sshFxpOpenPacket i _ _ _ | sshFxpReadPacket i _ _ _ | sshFxpWritePacket i _ _ _ _
  | sshFxpSetstatPacket i _ _ _ | sshFxpFsetstatPacket i _ _ _ | sshFxpMkdirPacket i _ _
  | sshFxpRenamePacket i _ _ | sshFxpSymlinkPacket i _ _ | sshFxpExtendedPacket i _ _ => i
  end.

(** *** Marshalling requests (the client side) *)

Fixpoint marshalExtensions (b : list byte) (exts : list extensionPair) : list byte :=
  match exts with
  | [] => b
  | e :: exts => marshalExtensions (marshalString (marshalString b (ep_Name e)) (ep_Data e)) exts
  end.

Definition sshFxInitPacket_MarshalBinary (Version : Z) (Extensions : list extensionPair) : list byte :=
  marshalExtensions (marshalUint32 [byte_of_Z sshFxpInit] Version) Extensions.

Definition marshalIDString (packetType id : Z) (str : string) : list byte :=
  marshalString (marshalUint32 [byte_of_Z packetType] id) str.

Definition sshFxpReaddirPacket_MarshalBinary (ID : Z) (Handle : string) : list byte :=
  marshalIDString sshFxpReaddir ID Handle.
Definition sshFxpOpendirPacket_MarshalBinary (ID : Z) (Path : string) : list byte :=
  marshalIDString sshFxpOpendir ID Path.
Definition sshFxpLstatPacket_MarshalBinary (ID : Z) (Path : string) : list byte :=
  marshalIDString sshFxpLstat ID Path.
Definition sshFxpStatPacket_MarshalBinary (ID : Z) (Path : string) : list byte :=
  marshalIDString sshFxpStat ID Path.
Definition sshFxpFstatPacket_MarshalBinary (ID : Z) (Handle : string) : list byte :=
  marshalIDString sshFxpFstat ID Handle.
Definition sshFxpClosePacket_MarshalBinary (ID : Z) (Handle : string) : list byte :=
  marshalIDString sshFxpClose ID Handle.
Definition sshFxpRemovePacket_MarshalBinary (ID : Z) (Filename : string) : list byte :=
  marshalIDString sshFxpRemove ID Filename.
Definition sshFxpRmdirPacket_MarshalBinary (ID : Z) (Path : string) : list byte :=
  marshalIDString sshFxpRmdir ID Path.
Definition sshFxpReadlinkPacket_MarshalBinary (ID : Z) (Path : string) : list byte :=
  marshalIDString sshFxpReadlink ID Path.
Definition sshFxpRealpathPacket_MarshalBinary (ID : Z) (Path : string) : list byte :=
  marshalIDString sshFxpRealpath ID Path.

Definition sshFxpSymlinkPacket_MarshalBinary (ID : Z) (Targetpath Linkpath : string) : list byte :=
  let b := [byte_of_Z sshFxpSymlink] in
  let b := marshalUint32 b ID in
  let b := marshalString b Targetpath in
  marshalString b Linkpath.

Definition sshFxpHardlinkPacket_MarshalBinary (ID : Z) (Oldpath Newpath : string) : list byte :=
  let b := [byte_of_Z sshFxpExtended] in
  let b := marshalUint32 b ID in
  let b := marshalString b "hardlink@openssh.com" in
  let b := marshalString b Oldpath in
  marshalString b Newpath.

Definition sshFxpOpenPacket_MarshalBinary (ID : Z) (Path : string) (Pflags Flags : Z) : list byte :=
  let b := [byte_of_Z sshFxpOpen] in
  let b := marshalUint32 b ID in
  let b := marshalString b Path in
  let b := marshalUint32 b Pflags in
  marshalUint32 b Flags.

Definition sshFxpReadPacket_MarshalBinary (ID Len Offset : Z) (Handle : string) : list byte :=
  let b := [byte_of_Z sshFxpRead] in
  let b := marshalUint32 b ID in
  let b := marshalString b Handle in
  let b := marshalUint64 b Offset in
  marshalUint32 b Len.

Definition sshFxpRenamePacket_MarshalBinary (ID : Z) (Oldpath Newpath : string) : list byte :=
  let b := [byte_of_Z sshFxpRename] in
  let b := marshalUint32 b ID in
  let b := marshalString b Oldpath in
  marshalString b Newpath.

Definition sshFxpPosixRenamePacket_MarshalBinary (ID : Z) (Oldpath Newpath : string) : list byte :=
  let b := [byte_of_Z sshFxpExtended] in
  let b := marshalUint32 b ID in
  let b := marshalString b "posix-rename@openssh.com" in
  let b := marshalString b Oldpath in
  marshalString b Newpath.

Definition sshFxpWritePacket_MarshalBinary
    (ID Length Offset : Z) (Handle : string) (Data : list byte) : list byte :=
  let b := [byte_of_Z sshFxpWrite] in
  let b := marshalUint32 b ID in
  let b := marshalString b Handle in
  let b := marshalUint64 b Offset in
  let b := marshalUint32 b Length in
  b ++ Data.

Definition sshFxpMkdirPacket_MarshalBinary (ID Flags : Z) (Path : string) : list byte :=
  let b := [byte_of_Z sshFxpMkdir] in
  let b := marshalUint32 b ID in
  let b := marshalString b Path in
  marshalUint32 b Flags.

Definition sshFxpSetstatPacket_MarshalBinary (ID Flags : Z) (Path : string) (Attrs : mval) : list byte :=
  let b := [byte_of_Z sshFxpSetstat] in
  let b := marshalUint32 b ID in
  let b := marshalString b Path in
  let b := marshalUint32 b Flags in
  marshal b Attrs.

Definition sshFxpFsetstatPacket_MarshalBinary (ID Flags : Z) (Handle : string) (Attrs : mval) : list byte :=
  let b := [byte_of_Z sshFxpFsetstat] in
  let b := marshalUint32 b ID in
  let b := marshalString b Handle in
  let b := marshalUint32 b Flags in
  marshal b Attrs.

Definition sshFxpStatvfsPacket_MarshalBinary (ID : Z) (Path : string) : list byte :=
  let b := [byte_of_Z sshFxpExtended] in
  let b := marshalUint32 b ID in
  let b := marshalString b "statvfs@openssh.com" in
  marshalString b Path.

Definition sshFxpFsyncPacket_MarshalBinary (ID : Z) (Handle : string) : list byte :=
  let b := [byte_of_Z sshFxpExtended] in
  let b := marshalUint32 b ID in
  let b := marshalString b "fsync@openssh.com" in
  marshalString b Handle.

(** *** Unmarshalling requests (the server side)

    [try x, b := c else p; k] is the source's
    [if x, b, err = c; err != nil { return err }]: on an error the packet as
    filled so far, [p], is what the caller is left with. *)
Declare Scope packet_scope.
#[local] Open Scope packet_scope.
Notation "'try' x , b := c 'else' p ; k" :=
  (match c with
   | Ok (x, b) => k
   | Err e => Ok (p, Some e)
   | Panic => Panic
   end) (at level 200, x name, b name, c at level 100, p at level 100, k at level 200)
  : packet_scope.

Definition unmarshalled (A : Type) : Type := result (A * option error).

Fixpoint unmarshalExtensions (fuel : nat) (Version : Z) (exts : list extensionPair)
    (b : list byte) : unmarshalled requestPacket :=
  match fuel with
  | O => Ok (sshFxInitPacket Version exts, None)
  | S fuel =>
      if zlen b <=? 0 then Ok (sshFxInitPacket Version exts, None)
      else
        try ep, b := unmarshalExtensionPair b else sshFxInitPacket Version exts;
        unmarshalExtensions fuel Version (exts ++ [ep]) b
  end.

Definition sshFxInitPacket_UnmarshalBinary (b : list byte) : unmarshalled requestPacket :=
  try version, b := unmarshalUint32Safe b else sshFxInitPacket 0 [];
  unmarshalExtensions (length b) version [] b.

Definition unmarshalIDString {A} (mk : Z → string → A) (b : list byte) : unmarshalled A :=
  try id, b := unmarshalUint32Safe b else mk 0 EmptyString;
  try str, _b := unmarshalStringSafe b else mk id EmptyString;
  Ok (mk id str, None).

Definition sshFxpReaddirPacket_UnmarshalBinary := unmarshalIDString sshFxpReaddirPacket.
Definition sshFxpOpendirPacket_UnmarshalBinary := unmarshalIDString sshFxpOpendirPacket.
Definition sshFxpLstatPacket_UnmarshalBinary := unmarshalIDString sshFxpLstatPacket.
Definition sshFxpStatPacket_UnmarshalBinary := unmarshalIDString sshFxpStatPacket.
Definition sshFxpFstatPacket_UnmarshalBinary := unmarshalIDString sshFxpFstatPacket.
Definition sshFxpClosePacket_UnmarshalBinary := unmarshalIDString sshFxpClosePacket.
Definition sshFxpRemovePacket_UnmarshalBinary := unmarshalIDString sshFxpRemovePacket.
Definition sshFxpRmdirPacket_UnmarshalBinary := unmarshalIDString sshFxpRmdirPacket.
Definition sshFxpReadlinkPacket_UnmarshalBinary := unmarshalIDString sshFxpReadlinkPacket.
Definition sshFxpRealpathPacket_UnmarshalBinary := unmarshalIDString sshFxpRealpathPacket.

Definition sshFxpSymlinkPacket_UnmarshalBinary (b : list byte) : unmarshalled requestPacket :=
  try id, b := unmarshalUint32Safe b else sshFxpSymlinkPacket 0 EmptyString EmptyString;
  try target, b := unmarshalStringSafe b else sshFxpSymlinkPacket id EmptyString EmptyString;
  try link, _b := unmarshalStringSafe b else sshFxpSymlinkPacket id target EmptyString;
  Ok (sshFxpSymlinkPacket id target link, None).

Definition sshFxpOpenPacket_UnmarshalBinary (b : list byte) : unmarshalled requestPacket :=
  try id, b := unmarshalUint32Safe b else sshFxpOpenPacket 0 EmptyString 0 0;
  try path, b := unmarshalStringSafe b else sshFxpOpenPacket id EmptyString 0 0;
  try pflags, b := unmarshalUint32Safe b else sshFxpOpenPacket id path 0 0;
  try flags, _b := unmarshalUint32Safe b else sshFxpOpenPacket id path pflags 0;
  Ok (sshFxpOpenPacket id path pflags flags, None).

Definition sshFxpReadPacket_UnmarshalBinary (b : list byte) : unmarshalled requestPacket :=
  try id, b := unmarshalUint32Safe b else sshFxpReadPacket 0 0 0 EmptyString;
  try handle, b := unmarshalStringSafe b else sshFxpReadPacket id 0 0 EmptyString;
  try offset, b := unmarshalUint64Safe b else sshFxpReadPacket id 0 0 handle;
  try len, _b := unmarshalUint32Safe b else sshFxpReadPacket id 0 offset handle;
  Ok (sshFxpReadPacket id len offset handle, None).

Definition sshFxpRenamePacket_UnmarshalBinary (b : list byte) : unmarshalled requestPacket :=
  try id, b := unmarshalUint32Safe b else sshFxpRenamePacket 0 EmptyString EmptyString;
  try old, b := unmarshalStringSafe b else sshFxpRenamePacket id EmptyString EmptyString;
  try new, _b := unmarshalStringSafe b else sshFxpRenamePacket id old EmptyString;
  Ok (sshFxpRenamePacket id old new, None).

Definition sshFxpWritePacket_UnmarshalBinary (b : list byte) : unmarshalled requestPacket :=
  try id, b := unmarshalUint32Safe b else sshFxpWritePacket 0 0 0 EmptyString [];
  try handle, b := unmarshalStringSafe b else sshFxpWritePacket id 0 0 EmptyString [];
  try offset, b := unmarshalUint64Safe b else sshFxpWritePacket id 0 0 handle [];
  try len, b := unmarshalUint32Safe b else sshFxpWritePacket id 0 offset handle [];
  if u32 (zlen b) <? len then Ok (sshFxpWritePacket id len offset handle [], Some errShortPacket)
  else if zlen b <? len then Panic
  else Ok (sshFxpWritePacket id len offset handle (take (Z.to_nat len) b), None).

Definition sshFxpMkdirPacket_UnmarshalBinary (b : list byte) : unmarshalled requestPacket :=
  try id, b := unmarshalUint32Safe b else sshFxpMkdirPacket 0 0 EmptyString;
  try path, b := unmarshalStringSafe b else sshFxpMkdirPacket id 0 EmptyString;
  try flags, _b := unmarshalUint32Safe b else sshFxpMkdirPacket id 0 path;
  Ok (sshFxpMkdirPacket id flags path, None).

Definition sshFxpSetstatPacket_UnmarshalBinary (b : list byte) : unmarshalled requestPacket :=
  try id, b := unmarshalUint32Safe b else sshFxpSetstatPacket 0 0 EmptyString [];
  try path, b := unmarshalStringSafe b else sshFxpSetstatPacket id 0 EmptyString [];
  try flags, b := unmarshalUint32Safe b else sshFxpSetstatPacket id 0 path [];
  Ok (sshFxpSetstatPacket id flags path b, None).

Definition sshFxpFsetstatPacket_UnmarshalBinary (b : list byte) : unmarshalled requestPacket :=
  try id, b := unmarshalUint32Safe b else sshFxpFsetstatPacket 0 0 EmptyString [];
  try handle, b := unmarshalStringSafe b else sshFxpFsetstatPacket id 0 EmptyString [];
  try flags, b := unmarshalUint32Safe b else sshFxpFsetstatPacket id 0 handle [];
  Ok (sshFxpFsetstatPacket id flags handle b, None).

Definition StatVFS_UnmarshalBinary (b : list byte) : unmarshalled specificPacket :=
  try id, b := unmarshalUint32Safe b else sshFxpExtendedPacketStatVFS 0 EmptyString EmptyString;
  try ext, b := unmarshalStringSafe b else sshFxpExtendedPacketStatVFS id EmptyString EmptyString;
  try path, _b := unmarshalStringSafe b else sshFxpExtendedPacketStatVFS id ext EmptyString;
  Ok (sshFxpExtendedPacketStatVFS id ext path, None).

(** The two-path extended packets share their decoder's text. *)
Definition twoPath_UnmarshalBinary (mk : Z → string → string → string → specificPacket)
    (b : list byte) : unmarshalled specificPacket :=
  try id, b := unmarshalUint32Safe b else mk 0 EmptyString EmptyString EmptyString;
  try ext, b := unmarshalStringSafe b else mk id EmptyString EmptyString EmptyString;
  try old, b := unmarshalStringSafe b else mk id ext EmptyString EmptyString;
  try new, _b := unmarshalStringSafe b else mk id ext old EmptyString;
  Ok (mk id ext old new, None).

Definition PosixRename_UnmarshalBinary := twoPath_UnmarshalBinary sshFxpExtendedPacketPosixRename.
Definition Hardlink_UnmarshalBinary := twoPath_UnmarshalBinary sshFxpExtendedPacketHardlink.

Definition sshFxpExtendedPacket_UnmarshalBinary (bOrig : list byte) : unmarshalled requestPacket :=
  try id, b := unmarshalUint32Safe bOrig else sshFxpExtendedPacket 0 EmptyString None;
  try ext, _b := unmarshalStringSafe b else sshFxpExtendedPacket id EmptyString None;
  let specific (u : unmarshalled specificPacket) : unmarshalled requestPacket :=
    '(s, err) ← u; Ok (sshFxpExtendedPacket id ext (Some s), err) in
  if decide (ext = "statvfs@openssh.com") then specific (StatVFS_UnmarshalBinary bOrig)
  else if decide (ext = "posix-rename@openssh.com") then specific (PosixRename_UnmarshalBinary bOrig)
  else if decide (ext = "hardlink@openssh.com") then specific (Hardlink_UnmarshalBinary bOrig)
  else Ok (sshFxpExtendedPacket id ext None, Some errUnknownExtendedPacket).

(** [makePacket] (sftp/packet-typing.go): [Err] is the unhandled-type case,
    where there is no packet at all. *)
Definition makePacket (pktType : Z) (b : list byte) : unmarshalled requestPacket :=
  if pktType =? sshFxpInit then sshFxInitPacket_UnmarshalBinary b
  else if pktType =? sshFxpLstat then sshFxpLstatPacket_UnmarshalBinary b
  else if pktType =? sshFxpOpen then sshFxpOpenPacket_UnmarshalBinary b
  else if pktType =? sshFxpClose then sshFxpClosePacket_UnmarshalBinary b
  else if pktType =? sshFxpRead then sshFxpReadPacket_UnmarshalBinary b
  else if pktType =? sshFxpWrite then sshFxpWritePacket_UnmarshalBinary b
  else if pktType =? sshFxpFstat then sshFxpFstatPacket_UnmarshalBinary b
  else if pktType =? sshFxpSetstat then sshFxpSetstatPacket_UnmarshalBinary b
  else if pktType =? sshFxpFsetstat then sshFxpFsetstatPacket_UnmarshalBinary b
  else if pktType =? sshFxpOpendir then sshFxpOpendirPacket_UnmarshalBinary b
  else if pktType =? sshFxpReaddir then sshFxpReaddirPacket_UnmarshalBinary b
  else if pktType =? sshFxpRemove then sshFxpRemovePacket_UnmarshalBinary b
  else if pktType =? sshFxpMkdir then sshFxpMkdirPacket_UnmarshalBinary b
  else if pktType =? sshFxpRmdir then sshFxpRmdirPacket_UnmarshalBinary b
  else if pktType =? sshFxpRealpath then sshFxpRealpathPacket_UnmarshalBinary b
  else if pktType =? sshFxpStat then sshFxpStatPacket_UnmarshalBinary b
  else if pktType =? sshFxpRename then sshFxpRenamePacket_UnmarshalBinary b
  else if pktType =? sshFxpReadlink then sshFxpReadlinkPacket_UnmarshalBinary b
  else if pktType =? sshFxpSymlink then sshFxpSymlinkPacket_UnmarshalBinary b
  else if pktType =? sshFxpExtended then sshFxpExtendedPacket_UnmarshalBinary b
  else Err (EMsg "unhandled packet type").

(** ** Framing: [sendPacket] and [recvPacket] *)

Definition sendPacket (bb : list byte) : list byte := marshalUint32 [] (u32 (zlen bb)) ++ bb.

(** [io.ReadFull(r, buf)] with [len(buf) = n > 0] on a stream that ends after
    the given bytes. *)
Definition io_ReadFull (r : list byte) (n : Z) : result (list byte * list byte) :=
  if zlen r =? 0 then Err EOF
  else if zlen r <? n then Err ErrUnexpectedEOF
  else Ok (take (Z.to_nat n) r, drop (Z.to_nat n) r).

(** With an allocator the packet is read into a page of [maxMsgLength] bytes,
    without one into a slice of exactly [length] bytes; slicing the buffer
    beyond its size panics. *)
Definition recvPacket (r : list byte) (alloc : bool) : result (Z * list byte * list byte) :=
  '(hdr, r) ← io_ReadFull r 4;
  '(length, _) ← unmarshalUint32 hdr;
  if maxMsgLength <? length then Err errLongPacket
  else if length =? 0 then Err errShortPacket
  else
    let bufLen := if alloc then maxMsgLength else length in
    if bufLen <? length then Panic
    else
      '(b, r) ← io_ReadFull r length;
      match b with
      | b0 :: body => Ok (Z_of_byte b0, body, r)
      | [] => Panic
      end.

(** ** Response packets *)
Record sshFxpNameAttr := { na_Name : string; na_LongName : string; na_Attrs : list mval }.
Record StatusError := { se_Code : Z; se_msg : string; se_lang : string }.
Record StatVFS := {
  sv_ID : Z; sv_Bsize : Z; sv_Frsize : Z; sv_Blocks : Z; sv_Bfree : Z; sv_Bavail : Z;
  sv_Files : Z; sv_Ffree : Z; sv_Favail : Z; sv_Fsid : Z; sv_Flag : Z; sv_Namemax : Z
}.

Inductive responsePacket :=
  | sshFxVersionPacket (Version : Z) (Extensions : list extensionPair)
  | sshFxpStatusPacket (ID : Z) (StatusError : StatusError)
  | sshFxpHandlePacket (ID : Z) (Handle : string)
  | sshFxpDataPacket (ID Length : Z) (Data : list byte)
  | sshFxpNamePacket (ID : Z) (NameAttrs : list sshFxpNameAttr)
  | sshFxpStatResponse (ID : Z) (info : FileInfo)
  | StatVFSPacket (p : StatVFS).

Definition response_id (p : responsePacket) : Z :=
  match p with
  | sshFxVersionPacket _ _ => 0
  | sshFxpStatusPacket i _ | sshFxpHandlePacket i _ | sshFxpDataPacket i _ _
  | sshFxpNamePacket i _ | sshFxpStatResponse i _ => i
  | StatVFSPacket p => sv_ID p
  end.

Definition sshFxVersionPacket_MarshalBinary (Version : Z) (Extensions : list extensionPair) : list byte :=
  marshalExtensions (marshalUint32 [byte_of_Z sshFxpVersion] Version) Extensions.

Definition sshFxpNameAttr_MarshalBinary (p : sshFxpNameAttr) : list byte :=
  let b := marshalString [] (na_Name p) in
  let b := marshalString b (na_LongName p) in
  fold_left marshal (na_Attrs p) b.

Definition sshFxpNamePacket_MarshalBinary (ID : Z) (NameAttrs : list sshFxpNameAttr) : list byte :=
  let b := [byte_of_Z sshFxpName] in
  let b := marshalUint32 b ID in
  let b := marshalUint32 b (u32 (zlen NameAttrs)) in
  fold_left (λ b na, b ++ sshFxpNameAttr_MarshalBinary na) NameAttrs b.

Definition sshFxpHandlePacket_MarshalBinary (ID : Z) (Handle : string) : list byte :=
  marshalString (marshalUint32 [byte_of_Z sshFxpHandle] ID) Handle.

Definition marshalStatus (b : list byte) (err : StatusError) : list byte :=
  let b := marshalUint32 b (se_Code err) in
  let b := marshalString b (se_msg err) in
  marshalString b (se_lang err).

Definition sshFxpStatusPacket_MarshalBinary (ID : Z) (err : StatusError) : list byte :=
  marshalStatus (marshalUint32 [byte_of_Z sshFxpStatus] ID) err.

(** The data packet is built in place: nine bytes are appended to the data,
    the first [Length] bytes are moved up by nine, and the header is written
    over the front. Slicing [Data[:Length]] past its length is a panic (spare
    capacity is not modelled; the server always passes [Length = len(Data)]). *)
Definition copy_at {A} (off : nat) (src dst : list A) : list A :=
  take off dst ++ take (length dst - off) src ++ drop (off + length src) dst.

Definition sshFxpDataPacket_MarshalBinary (ID Length : Z) (Data : list byte) : result (list byte) :=
  if zlen Data <? Length then Panic
  else
    let b := Data ++ replicate 9 (byte_of_Z 0) in
    let b := copy_at 9 (take (Z.to_nat Length) Data) b in
    let b := copy_at 0 [byte_of_Z sshFxpData] b in
    let b := copy_at 1 (marshalUint32 [] ID) b in
    Ok (copy_at 5 (marshalUint32 [] Length) b).

Definition sshFxpStatResponse_MarshalBinary (ID : Z) (info : FileInfo) : list byte :=
  marshalFileInfo (marshalUint32 [byte_of_Z sshFxpAttrs] ID) info.

Definition StatVFS_MarshalBinary (p : StatVFS) : list byte :=
  fold_left marshalUint64
    [sv_Bsize p; sv_Frsize p; sv_Blocks p; sv_Bfree p; sv_Bavail p; sv_Files p;
     sv_Ffree p; sv_Favail p; sv_Fsid p; sv_Flag p; sv_Namemax p]
    (marshalUint32 [byte_of_Z sshFxpExtendedReply] (sv_ID p)).

(** [TotalSpace] and [FreeSpace] wrap at 64 bits. *)
Definition TotalSpace (p : StatVFS) : Z := u64 (sv_Frsize p * sv_Blocks p).
Definition FreeSpace (p : StatVFS) : Z := u64 (sv_Frsize p * sv_Bfree p).

Definition response_MarshalBinary (p : responsePacket) : result (list byte) :=
  match p with
  | sshFxVersionPacket v e => Ok (sshFxVersionPacket_MarshalBinary v e)
  | sshFxpStatusPacket i e => Ok (sshFxpStatusPacket_MarshalBinary i e)
  | sshFxpHandlePacket i h => Ok (sshFxpHandlePacket_MarshalBinary i h)
  | sshFxpDataPacket i l d => sshFxpDataPacket_MarshalBinary i l d
  | sshFxpNamePacket i n => Ok (sshFxpNamePacket_MarshalBinary i n)
  | sshFxpStatResponse i fi => Ok (sshFxpStatResponse_MarshalBinary i fi)
  | StatVFSPacket p => Ok (StatVFS_MarshalBinary p)
  end.

(** [sshFxpDataPacket.UnmarshalBinary], which the client uses. *)
Definition sshFxpDataPacket_UnmarshalBinary (b : list byte) : unmarshalled responsePacket :=
  try id, b := unmarshalUint32Safe b else sshFxpDataPacket 0 0 [];
  try len, b := unmarshalUint32Safe b else sshFxpDataPacket id 0 [];
  if u32 (zlen b) <? len then Ok (sshFxpDataPacket id len [], Some errShortPacket)
  else if zlen b <? len then Panic
  else Ok (sshFxpDataPacket id len (take (Z.to_nat len) b), None).

(** [unmarshalStatus] (sftp/client.go): the id must match, the two strings
    may be missing. *)
Definition unmarshalStatus (id : Z) (data : list byte) : result (StatusError + Z) :=
  '(sid, data) ← unmarshalUint32 data;
  if negb (sid =? id) then Ok (inr sid)
  else
    '(code, data) ← unmarshalUint32 data;
    '(msg, data) ← lenient EmptyString (unmarshalStringSafe data);
    '(lang, _) ← lenient EmptyString (unmarshalStringSafe data);
    Ok (inl {| se_Code := code; se_msg := msg; se_lang := lang |}).

(** ** Turning an error into a status packet (sftp/server.go) *)

(** [translateErrno] and [translateSyscallError] (sftp/stat_posix.go) *)
Definition translateErrno (e : Errno) : Z :=
  match e with
  | ENOENT => sshFxNoSuchFile
  | EPERM => sshFxPermissionDenied
  | _ => sshFxFailure
  end.

Definition translateSyscallError (err : error) : option Z :=
  match err with
  | ESyscall e => Some (translateErrno e)
  | EPathError _ e => Some (translateErrno e)
  | _ => None
  end.

Definition wrapPathError (filepath : string) (err : error) : error :=
  match err with ESyscall e => EPathError filepath e | _ => err end.

(** [fxerr.Error()] (sftp/request-errors.go) *)
Definition fxerr_Error (code : Z) : string :=
  if code =? 0 then "OK" else if code =? 1 then "EOF" else if code =? 2 then "No Such File"
  else if code =? 3 then "Permission Denied" else if code =? 5 then "Bad Message"
  else if code =? 6 then "No Connection" else if code =? 7 then "Connection Lost"
  else if code =? 8 then "Operation Unsupported" else "Failure".

Section status.
(** The text of the errors that are not [fxerr] values is produced by the
    Go runtime and by third-party packages. *)
Context (errText : error → string).

Definition error_Error (e : error) : string :=
  match e with EFx c => fxerr_Error c | _ => errText e end.

Definition statusFromError (id : Z) (err : option error) : responsePacket :=
  match err with
  | None => sshFxpStatusPacket id {| se_Code := sshFxOk; se_msg := EmptyString; se_lang := EmptyString |}
  | Some e =>
      let code :=
        if os_IsNotExist (Some e) then sshFxNoSuchFile
        else match translateSyscallError e with
             | Some code => code
             | None =>
                 match e with
                 | EFx c => u32 c
                 | EOF => sshFxEOF
                 | _ => sshFxFailure
                 end
             end in
      sshFxpStatusPacket id {| se_Code := code; se_msg := error_Error e; se_lang := EmptyString |}
  end.
End status.

Definition clamp (v max : Z) : Z := if max <? v then max else v.

(** ** The decoders never panic *)

Lemma unmarshalExtensionPair_no_panic b : unmarshalExtensionPair b ≠ Panic.
Proof.
  unfold unmarshalExtensionPair. apply result_bind_no_panic; [auto with wire|].
  intros [? ?] _. apply result_bind_no_panic; [auto with wire|]. by intros [? ?].
Qed.
#[export] Hint Resolve unmarshalExtensionPair_no_panic : wire.

(** Walks the [try] steps of a decoder: each step's source cannot panic. *)
Ltac decoder_steps :=
  repeat match goal with
  | |- match ?c with Ok _ => _ | Err _ => _ | Panic => _ end ≠ Panic =>
      let H := fresh in assert (c ≠ Panic) as H by auto with wire;
      destruct c as [[? ?]|?|]; [| |by destruct H]; clear H
  end; try done.

Lemma unmarshalExtensions_no_panic fuel v exts b : unmarshalExtensions fuel v exts b ≠ Panic.
Proof.
  revert exts b. induction fuel as [|fuel IH]; intros exts b; simpl; [done|].
  destruct (zlen b <=? 0); [done|]. decoder_steps.
Qed.

Lemma unmarshalIDString_no_panic {A} (mk : Z → string → A) b : unmarshalIDString mk b ≠ Panic.
Proof. unfold unmarshalIDString. decoder_steps. Qed.

Lemma twoPath_no_panic mk b : twoPath_UnmarshalBinary mk b ≠ Panic.
Proof. unfold twoPath_UnmarshalBinary. decoder_steps. Qed.

Lemma StatVFS_no_panic b : StatVFS_UnmarshalBinary b ≠ Panic.
Proof. unfold StatVFS_UnmarshalBinary. decoder_steps. Qed.
#[export] Hint Resolve unmarshalExtensions_no_panic (@unmarshalIDString_no_panic)
  twoPath_no_panic StatVFS_no_panic : wire.

Lemma extended_no_panic b : sshFxpExtendedPacket_UnmarshalBinary b ≠ Panic.
Proof.
  unfold sshFxpExtendedPacket_UnmarshalBinary, PosixRename_UnmarshalBinary, Hardlink_UnmarshalBinary.
  decoder_steps. cbv zeta.
  repeat (case_decide; [apply result_bind_no_panic; [auto with wire|by intros [? ?]]|]). done.
Qed.

(** [uint32(len(b)) >= n] rules out slicing past the end of [b]. *)
Lemma u32_len_guard {A} (b : list A) n : (u32 (zlen b) <? n) = false → (zlen b <? n) = false.
Proof.
  pose proof (zlen_nonneg b). unfold u32. intros H1%Z.ltb_ge. apply Z.ltb_ge.
  pose proof (Z.mod_le (zlen b) (2 ^ 32)). lia.
Qed.

Lemma write_no_panic b : sshFxpWritePacket_UnmarshalBinary b ≠ Panic.
Proof.
  unfold sshFxpWritePacket_UnmarshalBinary. decoder_steps.
  destruct (u32 _ <? _) eqn:E; [done|]. by rewrite (u32_len_guard _ _ E).
Qed.

(** C27: no packet a client can send makes the server's packet decoder panic:
    for every type byte and every payload, [makePacket] returns a packet or
    an error. *)
Theorem makePacket_no_panic pktType b : makePacket pktType b ≠ Panic.
Proof.
  unfold makePacket.
  repeat (case_match; [first
    [ apply unmarshalIDString_no_panic | apply extended_no_panic | apply write_no_panic
    | unfold sshFxInitPacket_UnmarshalBinary; decoder_steps; apply unmarshalExtensions_no_panic
    | match goal with |- ?f b ≠ Panic => unfold f; decoder_steps end ]|]).
  done.
Qed.

(** ** Framing *)

Lemma io_ReadFull_app a r : a ≠ [] → io_ReadFull (a ++ r) (zlen a) = Ok (a, r).
Proof.
  intros Ha. unfold io_ReadFull. rewrite zlen_app. pose proof (zlen_nonneg r).
  assert (0 < zlen a) by (unfold zlen; destruct a; [done|simpl; lia]).
  destruct (Z.eqb_spec (zlen a + zlen r) 0); [lia|].
  destruct (Z.ltb_spec (zlen a + zlen r) (zlen a)); [lia|].
  unfold zlen. by rewrite Nat2Z.id, take_app_length, drop_app_length.
Qed.

Lemma io_ReadFull_ok r n a r' : 0 < n → io_ReadFull r n = Ok (a, r') → r = a ++ r' ∧ zlen a = n.
Proof.
  unfold io_ReadFull. intros Hn. destruct (_ =? _); [done|].
  destruct (Z.ltb_spec (zlen r) n); [done|]. intros [= <- <-]. split; [by rewrite take_drop|].
  unfold zlen in *. rewrite length_take. lia.
Qed.

Lemma io_ReadFull_no_panic r n : io_ReadFull r n ≠ Panic.
Proof. unfold io_ReadFull. by repeat case_match. Qed.

Lemma recvPacket_sendPacket t body rest alloc :
  1 + zlen body <= maxMsgLength →
  recvPacket (sendPacket (byte_of_Z t :: body) ++ rest) alloc = Ok (u8 t, body, rest).
Proof.
  intros Hlen. pose proof (zlen_nonneg body) as Hb.
  unfold recvPacket, sendPacket. rewrite <- app_assoc.
  change 4 with (zlen (marshalUint32 [] (u32 (zlen (byte_of_Z t :: body))))).
  rewrite io_ReadFull_app by done. cbn [mbind result_bind].
  rewrite <- (app_nil_r (marshalUint32 _ _)), unmarshalUint32_marshal. cbn [mbind result_bind].
  rewrite zlen_cons. unfold maxMsgLength in *.
  rewrite !(u32_id (1 + zlen body)) by (unfold is_u32; lia).
  destruct (Z.ltb_spec (256 * 1024) (1 + zlen body)); [lia|].
  destruct (Z.eqb_spec (1 + zlen body) 0); [lia|].
  destruct (Z.ltb_spec (if alloc then 256 * 1024 else 1 + zlen body) (1 + zlen body));
    [destruct alloc; lia|].
  rewrite <- zlen_cons with (x := byte_of_Z t). rewrite io_ReadFull_app by done.
  cbn [mbind result_bind]. by rewrite Z_of_byte_of_Z.
Qed.

(** Whatever the peer sends, receiving a frame never panics, with or
    without the page allocator (the length check keeps the slice inside the
    page), and an accepted frame is bounded and consumed exactly: the stream
    was a four-byte header, the type byte, the body and the rest, and type
    plus body are at most [maxMsgLength] bytes. *)
Theorem recvPacket_safe r alloc :
  recvPacket r alloc ≠ Panic
  ∧ ∀ t body r', recvPacket r alloc = Ok (t, body, r') →
      ∃ hdr, r = hdr ++ byte_of_Z t :: body ++ r' ∧ zlen hdr = 4
             ∧ 1 <= 1 + zlen body <= maxMsgLength.
Proof.
  unfold recvPacket.
  destruct (io_ReadFull r 4) as [[hdr r1]|e|] eqn:Hh; [|done|by destruct (io_ReadFull_no_panic r 4)].
  apply io_ReadFull_ok in Hh as [-> Hhdr]; [|lia]. cbn [mbind result_bind].
  destruct (unmarshalUint32 hdr) as [[len ?]|e|] eqn:Hu;
    [|done|by destruct (unmarshalUint32_no_panic hdr ltac:(lia))].
  apply unmarshalUint32_ok in Hu as [_ [? ?]]. cbn [mbind result_bind].
  destruct (Z.ltb_spec maxMsgLength len); [done|]. destruct (Z.eqb_spec len 0); [done|].
  destruct (Z.ltb_spec (if alloc then maxMsgLength else len) len); [destruct alloc; lia|].
  destruct (io_ReadFull r1 len) as [[b r2]|e|] eqn:Hb;
    [|done|by destruct (io_ReadFull_no_panic r1 len)].
  apply io_ReadFull_ok in Hb as [-> Hlen]; [|lia]. cbn [mbind result_bind].
  destruct b as [|b0 body]; [unfold zlen in Hlen; simpl in Hlen; lia|].
  split; [done|]. intros t body' r' [= <- <- <-]. exists hdr.
  rewrite byte_of_Z_of_byte. rewrite zlen_cons in Hlen. pose proof (zlen_nonneg body).
  split; [by rewrite <- app_comm_cons|]. lia.
Qed.

(** ** Requests round trip *)

(** The type byte and the client-side encoding of each request. *)
Definition request_type (p : requestPacket) : Z :=
  match p with
  | sshFxInitPacket _ _ => sshFxpInit | sshFxpLstatPacket _ _ => sshFxpLstat
  | sshFxpOpenPacket _ _ _ _ => sshFxpOpen | sshFxpClosePacket _ _ => sshFxpClose
  | sshFxpReadPacket _ _ _ _ => sshFxpRead | sshFxpWritePacket _ _ _ _ _ => sshFxpWrite
  | sshFxpFstatPacket _ _ => sshFxpFstat | sshFxpSetstatPacket _ _ _ _ => sshFxpSetstat
  | sshFxpFsetstatPacket _ _ _ _ => sshFxpFsetstat | sshFxpOpendirPacket _ _ => sshFxpOpendir
  | sshFxpReaddirPacket _ _ => sshFxpReaddir | sshFxpRemovePacket _ _ => sshFxpRemove
  | sshFxpMkdirPacket _ _ _ => sshFxpMkdir | sshFxpRmdirPacket _ _ => sshFxpRmdir
  | sshFxpRealpathPacket _ _ => sshFxpRealpath | sshFxpStatPacket _ _ => sshFxpStat
  | sshFxpRenamePacket _ _ _ => sshFxpRename | sshFxpReadlinkPacket _ _ => sshFxpReadlink
  | sshFxpSymlinkPacket _ _ _ => sshFxpSymlink | sshFxpExtendedPacket _ _ _ => sshFxpExtended
  end.

Definition request_MarshalBinary (p : requestPacket) : list byte :=
  match p with
  | sshFxInitPacket v e => sshFxInitPacket_MarshalBinary v e
  | sshFxpLstatPacket i s => sshFxpLstatPacket_MarshalBinary i s
  | sshFxpOpenPacket i s pf f => sshFxpOpenPacket_MarshalBinary i s pf f
  | sshFxpClosePacket i s => sshFxpClosePacket_MarshalBinary i s
  | sshFxpReadPacket i l o h => sshFxpReadPacket_MarshalBinary i l o h
  | sshFxpWritePacket i l o h d => sshFxpWritePacket_MarshalBinary i l o h d
  | sshFxpFstatPacket i s => sshFxpFstatPacket_MarshalBinary i s
  | sshFxpSetstatPacket i f s a => sshFxpSetstatPacket_MarshalBinary i f s (VBytes a)
  | sshFxpFsetstatPacket i f s a => sshFxpFsetstatPacket_MarshalBinary i f s (VBytes a)
  | sshFxpOpendirPacket i s => sshFxpOpendirPacket_MarshalBinary i s
  | sshFxpReaddirPacket i s => sshFxpReaddirPacket_MarshalBinary i s
  | sshFxpRemovePacket i s => sshFxpRemovePacket_MarshalBinary i s
  | sshFxpMkdirPacket i f s => sshFxpMkdirPacket_MarshalBinary i f s
  | sshFxpRmdirPacket i s => sshFxpRmdirPacket_MarshalBinary i s
  | sshFxpRealpathPacket i s => sshFxpRealpathPacket_MarshalBinary i s
  | sshFxpStatPacket i s => sshFxpStatPacket_MarshalBinary i s
  | sshFxpRenamePacket i o n => sshFxpRenamePacket_MarshalBinary i o n
  | sshFxpReadlinkPacket i s => sshFxpReadlinkPacket_MarshalBinary i s
  | sshFxpSymlinkPacket i t l => sshFxpSymlinkPacket_MarshalBinary i t l
  | sshFxpExtendedPacket i _ (Some (sshFxpExtendedPacketStatVFS _ _ s)) =>
      sshFxpStatvfsPacket_MarshalBinary i s
  | sshFxpExtendedPacket i _ (Some (sshFxpExtendedPacketPosixRename _ _ o n)) =>
      sshFxpPosixRenamePacket_MarshalBinary i o n
  | sshFxpExtendedPacket i _ (Some (sshFxpExtendedPacketHardlink _ _ o n)) =>
      sshFxpHardlinkPacket_MarshalBinary i o n
  | sshFxpExtendedPacket i s None => sshFxpFsyncPacket_MarshalBinary i s
  end.

(** Field values a Go client can put in the structs: integers of the field's
    width, a WRITE whose [Length] is the length of its data, and an extended
    request as one of the client's three supported extended structs. *)
Definition wf_request (p : requestPacket) : Prop :=
  match p with
  | sshFxInitPacket v _ => is_u32 v
  | sshFxpOpenPacket i _ pf f => is_u32 i ∧ is_u32 pf ∧ is_u32 f
  | sshFxpReadPacket i l o _ => is_u32 i ∧ is_u32 l ∧ is_u64 o
  | sshFxpWritePacket i l o _ d => is_u32 i ∧ is_u64 o ∧ l = zlen d
  | sshFxpSetstatPacket i f _ _ | sshFxpFsetstatPacket i f _ _ | sshFxpMkdirPacket i f _ =>
      is_u32 i ∧ is_u32 f
  | sshFxpExtendedPacket i ext (Some s) =>
      is_u32 i ∧ match s with
      | sshFxpExtendedPacketStatVFS i' ext' _ => i' = i ∧ ext' = ext ∧ ext = "statvfs@openssh.com"
      | sshFxpExtendedPacketPosixRename i' ext' _ _ =>
          i' = i ∧ ext' = ext ∧ ext = "posix-rename@openssh.com"
      | sshFxpExtendedPacketHardlink i' ext' _ _ =>
          i' = i ∧ ext' = ext ∧ ext = "hardlink@openssh.com"
      end
  | sshFxpExtendedPacket _ _ None => False
  | p => is_u32 (request_id p)
  end.

Lemma marshal_VBytes b d : marshal b (VBytes d) = b ++ d.
Proof.
  unfold VBytes. simpl. revert b. induction d as [|x d IH]; intros b; simpl; [by rewrite app_nil_r|].
  by rewrite IH, byte_of_Z_of_byte, <- app_assoc.
Qed.
Lemma marshalExtensions_app b e : marshalExtensions b e = b ++ marshalExtensions [] e.
Proof.
  revert b. induction e as [|x e IH]; intros b; simpl; [by rewrite app_nil_r|].
  rewrite IH, (IH (marshalString _ _)), marshalString_app, (marshalString_app b).
  by rewrite (marshalString_app (marshalString [] _)), !app_assoc.
Qed.
Lemma zlen_marshalString s : zlen (marshalString [] s) = 4 + slen s.
Proof. unfold marshalString. by rewrite zlen_app, zlen_marshalUint32, zlen_bytes_of_string. Qed.
Lemma zlen_marshalUint64 v : zlen (marshalUint64 [] v) = 8.
Proof. done. Qed.

(** Right-nests a marshalled buffer into the concatenation of its fields. *)
Ltac wire_norm :=
  repeat first
    [ rewrite marshal_VBytes
    | match goal with |- context [marshalExtensions ?b ?e] =>
        lazymatch b with [] => fail | _ => rewrite (marshalExtensions_app b e) end end
    | match goal with |- context [marshalUint32 ?b ?v] =>
        lazymatch b with [] => fail | _ => rewrite (marshalUint32_app b v) end end
    | match goal with |- context [marshalUint64 ?b ?v] =>
        lazymatch b with [] => fail | _ => rewrite (marshalUint64_app b v) end end
    | match goal with |- context [marshalString ?b ?v] =>
        lazymatch b with [] => fail | _ => rewrite (marshalString_app b v) end end ];
  rewrite <- ?app_assoc.

Lemma unmarshalExtensions_marshal v e acc fuel :
  (length e <= fuel)%nat → zlen (marshalExtensions [] e) < 2 ^ 32 →
  unmarshalExtensions fuel v acc (marshalExtensions [] e) = Ok (sshFxInitPacket v (acc ++ e), None).
Proof.
  revert acc fuel. induction e as [|[n d] e IH]; intros acc fuel Hfuel Hlen;
    (destruct fuel as [|fuel]; [try (simpl in Hfuel; lia); by rewrite app_nil_r|]).
  { simpl. by rewrite app_nil_r. }
  simpl in Hfuel, Hlen |- *. revert Hlen. wire_norm. intros Hlen.
  rewrite !zlen_app, !zlen_marshalString in *.
  pose proof (zlen_nonneg (marshalExtensions [] e)). pose proof (slen_nonneg n). pose proof (slen_nonneg d).
  destruct (Z.leb_spec (4 + slen n + (4 + slen d + zlen (marshalExtensions [] e))) 0); [lia|].
  unfold unmarshalExtensionPair.
  rewrite unmarshalStringSafe_marshal by lia. cbn [mbind result_bind].
  rewrite unmarshalStringSafe_marshal by lia. cbn [mbind result_bind].
  rewrite IH by lia. by rewrite <- app_assoc.
Qed.

Lemma length_marshalExtensions e : (length e <= length (marshalExtensions [] e))%nat.
Proof.
  induction e as [|[n d] e IH]; simpl; [done|]. wire_norm. rewrite !length_app.
  pose proof (zlen_marshalString n). pose proof (slen_nonneg n). unfold zlen in *. lia.
Qed.

Lemma init_roundtrip v e :
  is_u32 v → zlen (marshalExtensions [] e) < 2 ^ 32 →
  sshFxInitPacket_UnmarshalBinary (marshalUint32 [] v ++ marshalExtensions [] e)
  = Ok (sshFxInitPacket v e, None).
Proof.
  intros Hv He. unfold sshFxInitPacket_UnmarshalBinary.
  rewrite unmarshalUint32Safe_marshal, u32_id by done.
  by rewrite unmarshalExtensions_marshal by (done || apply length_marshalExtensions).
Qed.

Lemma take_zlen {A} (d : list A) : take (Z.to_nat (zlen d)) d = d.
Proof. unfold zlen. by rewrite Nat2Z.id, firstn_all. Qed.

Ltac head_of t := lazymatch t with ?f _ => head_of f | _ => t end.

(** Selects the branch of [makePacket] for a constant packet type. *)
Ltac pick_decoder :=
  unfold makePacket;
  repeat match goal with |- context [?a =? ?b] =>
    let v := eval vm_compute in (a =? b) in change (a =? b) with v end;
  cbv iota.

(** Runs a decoder on the normalised concatenation. *)
Ltac wire_decode :=
  repeat first
    [ rewrite unmarshalUint32Safe_marshal
    | rewrite unmarshalUint32Safe_marshal_nil
    | rewrite unmarshalStringSafe_marshal by (lia || by vm_compute)
    | rewrite unmarshalStringSafe_marshal_nil by lia
    | rewrite unmarshalUint64Safe_marshal by done
    | progress cbn [mbind result_bind] ];
  autorewrite with goint; rewrite ?u32_id by done.

Lemma request_roundtrip p :
  wf_request p → zlen (request_MarshalBinary p) < 2 ^ 32 →
  ∃ body, request_MarshalBinary p = byte_of_Z (request_type p) :: body
          ∧ makePacket (request_type p) body = Ok (p, None).
Proof.
  intros Hwf. destruct p; simpl in Hwf; destruct_and?;
    try (match goal with s : option specificPacket |- _ => destruct s as [[]|] end; destruct_and?; subst);
    try done; unfold request_MarshalBinary, request_type;
    match goal with |- zlen ?m < _ → _ => let f := head_of m in unfold f end;
    unfold marshalIDString; wire_norm; cbn [app];
    rewrite zlen_cons, ?zlen_app, ?zlen_marshalUint32, ?zlen_marshalUint64, ?zlen_marshalString; intros Hlen;
    (eexists; split; [reflexivity|]).
  all: repeat match goal with Hl : context [slen ?s] |- _ =>
         lazymatch goal with H : 0 <= slen s |- _ => fail | _ => pose proof (slen_nonneg s) end end.
  all: repeat match goal with d : list _ |- _ =>
         lazymatch goal with H : 0 <= zlen d |- _ => fail | _ => pose proof (zlen_nonneg d) end end.
  all: pick_decoder.
  (* INIT loops over its extensions, WRITE slices its payload; the rest are
     straight-line decoders *)
  all: lazymatch goal with
    | |- sshFxInitPacket_UnmarshalBinary _ = _ => apply init_roundtrip; [done|lia]
    | |- sshFxpWritePacket_UnmarshalBinary _ = _ =>
        unfold sshFxpWritePacket_UnmarshalBinary; wire_decode; subst; rewrite !u32_id by (unfold is_u32; lia);
        by rewrite Z.ltb_irrefl, take_zlen, u32_id
    | |- sshFxpExtendedPacket_UnmarshalBinary _ = _ =>
        unfold sshFxpExtendedPacket_UnmarshalBinary, PosixRename_UnmarshalBinary,
          Hardlink_UnmarshalBinary, StatVFS_UnmarshalBinary, twoPath_UnmarshalBinary;
        wire_decode; cbv zeta; repeat (case_decide; try done); wire_decode; done
    | |- ?f _ = _ => unfold f, unmarshalIDString; wire_decode; done
    end.
Qed.

(** C29: what a client sends is what the server decodes. A request packet
    whose frame fits in [maxMsgLength], written by the client's
    [MarshalBinary] and [sendPacket] and followed by arbitrary bytes, is
    received by [recvPacket] as its type byte and body with exactly those
    bytes left, and [makePacket] rebuilds the same packet without error. *)
Theorem request_wire_roundtrip p rest alloc :
  wf_request p → zlen (request_MarshalBinary p) <= maxMsgLength →
  ∃ body, recvPacket (sendPacket (request_MarshalBinary p) ++ rest) alloc
          = Ok (request_type p, body, rest)
          ∧ makePacket (request_type p) body = Ok (p, None).
Proof.
  intros Hwf Hlen. unfold maxMsgLength in Hlen.
  destruct (request_roundtrip p Hwf) as (body & Hm & Hd); [lia|].
  exists body. split; [|done]. rewrite Hm, zlen_cons in *.
  rewrite recvPacket_sendPacket by (unfold maxMsgLength; lia).
  by destruct p.
Qed.

Lemma request_wire_roundtrip_witness :
  ∃ body, recvPacket (sendPacket (request_MarshalBinary
            (sshFxpWritePacket 7 3 4294967296 "12" [Byte.x61; Byte.x62; Byte.x63])) ++ [Byte.x00]) true
          = Ok (6, body, [Byte.x00])
        ∧ makePacket 6 body = Ok (sshFxpWritePacket 7 3 4294967296 "12" [Byte.x61; Byte.x62; Byte.x63], None).
Proof.
  apply (request_wire_roundtrip
    (sshFxpWritePacket 7 3 4294967296 "12" [Byte.x61; Byte.x62; Byte.x63]) [Byte.x00] true).
  - repeat split; by vm_compute.
  - by vm_compute.
Defined.

(** ** Data packets *)

Lemma copy_at_exact {A} (pre src old suf : list A) :
  length old = length src → copy_at (length pre) src (pre ++ old ++ suf) = pre ++ src ++ suf.
Proof.
  intros Hl. unfold copy_at. rewrite !length_app, take_app_length. f_equal.
  rewrite take_ge by lia. f_equal. rewrite <- Hl.
  by rewrite <- length_app, app_assoc, drop_app_length.
Qed.

(** The in-place construction of a DATA packet (append nine bytes, move
    the payload up, overwrite the front) produces the packet written in
    order: type byte, id, length, payload. *)
Theorem data_packet_layout ID Data :
  sshFxpDataPacket_MarshalBinary ID (zlen Data) Data
  = Ok (byte_of_Z sshFxpData :: marshalUint32 [] ID ++ marshalUint32 [] (zlen Data) ++ Data).
Proof.
  unfold sshFxpDataPacket_MarshalBinary. rewrite Z.ltb_irrefl, take_zlen.
  (* any nine leading bytes will do once the payload sits behind them *)
  assert (∃ hdr, length hdr = 9%nat ∧
    copy_at 9 Data (Data ++ replicate 9 (byte_of_Z 0)) = hdr ++ Data) as (hdr & Hhdr & ->).
  { exists (take 9 (Data ++ replicate 9 (byte_of_Z 0))).
    assert (length (Data ++ replicate 9 (byte_of_Z 0)) = (length Data + 9)%nat) as Hl
      by (by rewrite length_app, length_replicate).
    split; [rewrite length_take; lia|]. unfold copy_at. rewrite Hl.
    rewrite (take_ge Data) by lia. rewrite (drop_ge (Data ++ _)) by lia. by rewrite app_nil_r. }
  destruct hdr as [|h0 [|h1 [|h2 [|h3 [|h4 [|h5 [|h6 [|h7 [|h8 [|]]]]]]]]]]; try discriminate Hhdr.
  f_equal. etrans; [|apply (copy_at_exact (byte_of_Z sshFxpData :: marshalUint32 [] ID)
                       (marshalUint32 [] (zlen Data)) [h5; h6; h7; h8] Data eq_refl)].
  reflexivity.
Qed.
