(* ===== verification/Allocator.v ===== *)
(** * The page allocator: sftp/allocator.go

    Pages are slices of [maxMsgLength] bytes that are recycled between
    requests. What matters is which slice is handed to whom, so a page is its
    identity (the pointer to its backing array) and [fresh] is the next
    pointer [make] returns. [used] maps the order id of a request to the pages
    it holds. *)
From stdpp Require Import base tactics option list strings gmap sorting.
From Stdlib Require Import ZArith Lia.
From S2P Require Import Prelude.

Definition page := nat.

Record allocator := {
  available : list page;
  used : gmap Z (list page);
  fresh : page
}.

Definition newAllocator (fresh0 : page) : allocator :=
  {| available := []; used := ∅; fresh := fresh0 |}.

(** [a.used[id]]: the zero value, a nil slice, for a missing key. *)
Definition pages_of (a : allocator) (id : Z) : list page := default [] (used a !! id).

Definition GetPage (a : allocator) (requestOrderID : Z) : page * allocator :=
  let '(result, avail, fresh') :=
    match last (available a) with
    | Some p => (p, take (length (available a) - 1) (available a), fresh a)
    | None => (fresh a, available a, S (fresh a))
    end in
  (result,
   {| available := avail;
      used := <[requestOrderID := pages_of a requestOrderID ++ [result]]> (used a);
      fresh := fresh' |}).

Definition ReleasePages (a : allocator) (requestOrderID : Z) : allocator :=
  let pages := pages_of a requestOrderID in
  {| available := if 0 <? zlen pages then available a ++ pages else available a;
     used := delete requestOrderID (used a);
     fresh := fresh a |}.

Definition Free (a : allocator) : allocator :=
  {| available := []; used := ∅; fresh := fresh a |}.

Definition countUsedPages (a : allocator) : Z :=
  map_fold (λ _ p num, num + zlen p) 0 (used a).
Definition countAvailablePages (a : allocator) : Z := zlen (available a).
Definition isRequestOrderIDUsed (a : allocator) (requestOrderID : Z) : bool :=
  bool_decide (is_Some (used a !! requestOrderID)).

(** ** Invariant: every page is in exactly one place *)

(** The pages held by requests. *)
Definition used_pages (m : gmap Z (list page)) : list page := mjoin (snd <$> map_to_list m).

Record alloc_ok (a : allocator) : Prop := {
  alloc_nodup : NoDup (available a ++ used_pages (used a));
  alloc_bound : ∀ p, p ∈ available a ++ used_pages (used a) → (p < fresh a)%nat
}.

Lemma used_pages_insert m i l : m !! i = None → used_pages (<[i:=l]> m) ≡ₚ l ++ used_pages m.
Proof. intros Hi. unfold used_pages. by rewrite map_to_list_insert by done. Qed.

Lemma used_pages_delete m i : default [] (m !! i) ++ used_pages (delete i m) ≡ₚ used_pages m.
Proof.
  destruct (m !! i) as [l|] eqn:Hi; simpl.
  - rewrite <- used_pages_insert by apply lookup_delete_eq.
    by rewrite insert_delete_eq, insert_id.
  - by rewrite delete_id.
Qed.

Lemma used_pages_replace m i l :
  used_pages (<[i:=l]> m) ≡ₚ l ++ used_pages (delete i m).
Proof. by rewrite <- insert_delete_eq, used_pages_insert by apply lookup_delete_eq. Qed.

Lemma elem_of_used_pages m p : p ∈ used_pages m ↔ ∃ i l, m !! i = Some l ∧ p ∈ l.
Proof.
  unfold used_pages. rewrite list_elem_of_join. setoid_rewrite list_elem_of_fmap.
  split.
  - intros (l & Hp & [i l'] & -> & Hin). exists i, l'. by rewrite <- elem_of_map_to_list.
  - intros (i & l & Hi & Hp). exists l. split; [done|]. exists (i, l).
    by rewrite elem_of_map_to_list.
Qed.

(** Both operations only move pages around, or add the fresh one. *)
Lemma last_take {A} (l : list A) x : last l = Some x → take (length l - 1) l ++ [x] = l.
Proof.
  intros (l' & ->)%last_Some. rewrite length_app. simpl.
  by rewrite Nat.add_sub, take_app_length.
Qed.

Lemma GetPage_perm a id p a' :
  GetPage a id = (p, a') →
  available a' ++ used_pages (used a') ≡ₚ
    (if decide (available a = []) then [p] else []) ++ available a ++ used_pages (used a)
  ∧ p ∈ pages_of a' id
  ∧ (if decide (available a = []) then p = fresh a ∧ fresh a' = S (fresh a)
     else p ∈ available a ∧ fresh a' = fresh a).
Proof.
  unfold GetPage. destruct (last (available a)) as [q|] eqn:Hl; intros [= <- <-];
    cbn [available used fresh]; (split_and!;
      [|unfold pages_of at 1; simpl; rewrite lookup_insert_eq; simpl; set_solver|]).
  - rewrite decide_False by (intros E; by rewrite E in Hl).
    rewrite used_pages_replace. rewrite <- (used_pages_delete (used a) id).
    rewrite <- (last_take _ _ Hl) at 3. fold (pages_of a id). solve_Permutation.
  - rewrite decide_False by (intros E; by rewrite E in Hl).
    split; [|done]. apply last_Some_elem_of in Hl. done.
  - apply last_None in Hl. rewrite decide_True by done. rewrite Hl.
    rewrite used_pages_replace. rewrite <- (used_pages_delete (used a) id).
    fold (pages_of a id). solve_Permutation.
  - apply last_None in Hl. by rewrite decide_True.
Qed.

Lemma GetPage_ok a id p a' : alloc_ok a → GetPage a id = (p, a') → alloc_ok a'.
Proof.
  intros [Hnd Hb] HG. destruct (GetPage_perm _ _ _ _ HG) as (Hp & _ & Hif).
  case_decide as Hav; destruct Hif as [Hin Hfr].
  - subst p. split; [|intros q; rewrite Hp, Hfr; intros [->%list_elem_of_singleton|Hq%Hb]%elem_of_app; lia].
    rewrite Hp. apply NoDup_cons. split; [|done]. intros Hq%Hb. lia.
  - rewrite app_nil_l in Hp. split; [by rewrite Hp|]. intros q. rewrite Hp, Hfr. apply Hb.
Qed.

Lemma ReleasePages_perm a id :
  available (ReleasePages a id) ++ used_pages (used (ReleasePages a id))
  ≡ₚ available a ++ used_pages (used a).
Proof.
  unfold ReleasePages. cbn [available used].
  rewrite <- (used_pages_delete (used a) id). fold (pages_of a id).
  destruct (Z.ltb_spec 0 (zlen (pages_of a id))) as [|Hz]; [by rewrite <- app_assoc|].
  destruct (pages_of a id) as [|x l]; [done|]. unfold zlen in Hz. simpl in Hz. lia.
Qed.

Lemma ReleasePages_ok a id : alloc_ok a → alloc_ok (ReleasePages a id).
Proof.
  intros [Hnd Hb]. split; [by rewrite ReleasePages_perm|].
  intros p. rewrite ReleasePages_perm. apply Hb.
Qed.

Lemma Free_ok a : alloc_ok (Free a).
Proof. split; [constructor|]. intros p Hp. by apply not_elem_of_nil in Hp. Qed.

Lemma newAllocator_ok n : alloc_ok (newAllocator n).
Proof. split; [constructor|]. intros p Hp. by apply not_elem_of_nil in Hp. Qed.

(** What a server does with its allocator: any sequence of these. *)
Inductive alloc_op := OpGet (id : Z) | OpRelease (id : Z) | OpFree.
Definition alloc_step (a : allocator) (o : alloc_op) : allocator :=
  match o with
  | OpGet id => snd (GetPage a id)
  | OpRelease id => ReleasePages a id
  | OpFree => Free a
  end.
Definition alloc_run (a : allocator) (ops : list alloc_op) : allocator := fold_left alloc_step ops a.

Lemma alloc_run_ok ops a : alloc_ok a → alloc_ok (alloc_run a ops).
Proof.
  revert a. induction ops as [|o ops IH]; intros a Ha; [done|]. simpl. apply IH.
  destruct o as [id|id|]; simpl; [|by apply ReleasePages_ok|apply Free_ok].
  destruct (GetPage a id) eqn:E. by eapply GetPage_ok.
Qed.

Lemma nodup_disjoint_pages m i j li lj p :
  NoDup (used_pages m) → m !! i = Some li → m !! j = Some lj → p ∈ li → p ∈ lj → i = j.
Proof.
  intros Hnd Hi Hj Hpi Hpj. destruct (decide (i = j)) as [|Hne]; [done|exfalso].
  rewrite <- (used_pages_delete m i), Hi in Hnd. simpl in Hnd.
  apply NoDup_app in Hnd as (_ & Hdis & _). apply (Hdis p Hpi), elem_of_used_pages.
  exists j, lj. by rewrite lookup_delete_ne.
Qed.

(** C38: buffers are never shared between requests. After any sequence of
    [GetPage], [ReleasePages] and [Free] calls, the page the next [GetPage]
    hands out is held by no request at that moment, afterwards it belongs to
    the requesting order id alone and is no longer in the free list, no two
    order ids hold a common page, and no page held is in the free list. *)
Theorem GetPage_exclusive n ops id p a' :
  GetPage (alloc_run (newAllocator n) ops) id = (p, a') →
  p ∉ used_pages (used (alloc_run (newAllocator n) ops))
  ∧ p ∈ pages_of a' id
  ∧ p ∉ available a'
  ∧ (∀ i q, q ∈ pages_of a' i → q ∉ available a')
  ∧ (∀ i j q, q ∈ pages_of a' i → q ∈ pages_of a' j → i = j).
Proof.
  intros HG. pose proof (alloc_run_ok ops _ (newAllocator_ok n)) as Hok.
  set (a := alloc_run _ _) in *. destruct (GetPage_perm _ _ _ _ HG) as (_ & Hin & Hif).
  assert (Hfree : ∀ i q, q ∈ pages_of a' i → q ∉ available a').
  { intros i q Hq Ha. pose proof (GetPage_ok _ _ _ _ Hok HG) as [Hnd _].
    apply NoDup_app in Hnd as (_ & Hdis & _). apply (Hdis q Ha), elem_of_used_pages.
    unfold pages_of in Hq. destruct (used a' !! i) as [l|] eqn:Ei; [by exists i, l|by apply not_elem_of_nil in Hq]. }
  split_and!; [|done|by apply (Hfree id)|done|].
  - destruct Hok as [Hnd Hb]. apply NoDup_app in Hnd as (_ & Hdis & _).
    case_decide; destruct Hif as [Hp _]; [|by apply Hdis].
    subst p. intros Hq. assert (fresh a < fresh a)%nat; [|lia].
    apply Hb, elem_of_app. by right.
  - pose proof (GetPage_ok _ _ _ _ Hok HG) as [Hnd _].
    apply NoDup_app in Hnd as (_ & _ & Hnd). intros i j q Hi Hj. unfold pages_of in Hi, Hj.
    destruct (used a' !! i) eqn:Ei, (used a' !! j) eqn:Ej; simpl in *;
      try (by apply not_elem_of_nil in Hi); try (by apply not_elem_of_nil in Hj).
    by eapply nodup_disjoint_pages.
Qed.

Lemma GetPage_exclusive_witness :
  0%nat ∉ used_pages (used (alloc_run (newAllocator 0%nat) [OpGet 1; OpGet 2; OpRelease 1])).
Proof.
  apply (proj1 (GetPage_exclusive 0%nat [OpGet 1; OpGet 2; OpRelease 1] 3 0%nat
    (snd (GetPage (alloc_run (newAllocator 0%nat) [OpGet 1; OpGet 2; OpRelease 1]) 3)) eq_refl)).
Defined.
