(* ===== verification/PacketManager.v ===== *)
(** * The packet manager: sftp/packet-manager.go

    Requests are numbered on arrival, served by a pool of concurrent
    read/write workers and one sequential command worker, and the controller
    sends the responses back in arrival order. Goroutines and channels are
    modelled as a step relation: one constructor per thing some goroutine can
    do next, in any interleaving. Channels are queues here, which only adds
    behaviours and so suits the safety properties of this file; PacketChannels
    has them at their capacity, shows that it implements this manager, and
    proves that no session gets stuck. *)
From stdpp Require Import base tactics option list list_numbers strings gmap sorting relations.
From Stdlib Require Import ZArith Lia.
From S2P Require Import Prelude GoOs SftpWire SftpPackets Allocator.

Abbreviation orderedRequest := (Z * requestPacket)%type.
Abbreviation orderedResponse := (Z * responsePacket)%type.

(** [sent] records what [sender.sendPacket] was given, in order; [cmdChan]
    holds the command being served and, behind it, the one the dispatcher is
    blocked on (the channel is unbuffered). *)
Record packetManager := {
  packetCount : Z;
  pktChan : list orderedRequest;
  requests : list orderedRequest;
  responses : list orderedResponse;
  rwChan : list orderedRequest;
  cmdChan : list orderedRequest;
  working : Z;
  incoming : list orderedRequest;
  outgoing : list orderedResponse;
  sent : list orderedResponse;
  alloc : option allocator
}.

Definition newPktMgr (al : option allocator) : packetManager :=
  {| packetCount := 0; pktChan := []; requests := []; responses := []; rwChan := []; cmdChan := [];
     working := 0; incoming := []; outgoing := []; sent := []; alloc := al |}.

(** ** Packet ordering *)
Definition newOrderID (s : packetManager) : Z := u32 (packetCount s + 1).
Definition getNextOrderID (s : packetManager) : Z := u32 (packetCount s + 1).

(** [newOrderedRequest], with the send on [pktChan] of [serveLoop]. *)
Definition newOrderedRequest (s : packetManager) (p : requestPacket) : packetManager :=
  {| packetCount := newOrderID s; pktChan := pktChan s ++ [(newOrderID s, p)];
     requests := requests s; responses := responses s; rwChan := rwChan s; cmdChan := cmdChan s;
     working := working s; incoming := incoming s; outgoing := outgoing s; sent := sent s;
     alloc := alloc s |}.

(** [orderedPackets.Sort]: ascending order ids. *)
Fixpoint insertOrdered {A} (x : Z * A) (l : list (Z * A)) : list (Z * A) :=
  match l with
  | [] => [x]
  | y :: l' => if fst x <? fst y then x :: l else y :: insertOrdered x l'
  end.
Fixpoint Sort {A} (l : list (Z * A)) : list (Z * A) :=
  match l with [] => [] | x :: l => insertOrdered x (Sort l) end.

(** ** Dispatching to the workers ([workerChan]) *)
Definition is_rw (p : requestPacket) : bool :=
  match p with sshFxpReadPacket _ _ _ _ | sshFxpWritePacket _ _ _ _ _ => true | _ => false end.
Definition is_close (p : requestPacket) : bool :=
  match p with sshFxpClosePacket _ _ => true | _ => false end.

(** One iteration of the dispatching loop; [None] while it is blocked: on an
    empty [pktChan], on the unbuffered [cmdChan], or, before a CLOSE, on
    [working.Wait()]. *)
Definition dispatch (s : packetManager) : option packetManager :=
  match pktChan s with
  | [] => None
  | (oid, p) :: rest =>
      if 2 <=? zlen (cmdChan s) then None
      else if is_rw p then
        Some {| packetCount := packetCount s; pktChan := rest;
                requests := requests s ++ [(oid, p)]; responses := responses s;
                rwChan := rwChan s ++ [(oid, p)]; cmdChan := cmdChan s;
                working := working s + 1; incoming := incoming s; outgoing := outgoing s;
                sent := sent s; alloc := alloc s |}
      else if is_close p && negb (working s =? 0) then None
      else
        Some {| packetCount := packetCount s; pktChan := rest;
                requests := requests s ++ [(oid, p)]; responses := responses s;
                rwChan := rwChan s; cmdChan := cmdChan s ++ [(oid, p)];
                working := working s + 1; incoming := incoming s; outgoing := outgoing s;
                sent := sent s; alloc := alloc s |}
  end.

(** [readyPacket(newOrderedResponse(r, oid))], with what is left on the two
    worker channels. *)
Definition readyPacket (s : packetManager) (rw cmd : list orderedRequest) (oid : Z)
    (r : responsePacket) : packetManager :=
  {| packetCount := packetCount s; pktChan := pktChan s; requests := requests s;
     responses := responses s ++ [(oid, r)]; rwChan := rw; cmdChan := cmd;
     working := working s - 1; incoming := incoming s; outgoing := outgoing s; sent := sent s;
     alloc := alloc s |}.

(** ** The controller *)
Fixpoint sendLoop (inc : list orderedRequest) (out : list orderedResponse) (al : option allocator)
  : list orderedRequest * list orderedResponse * list orderedResponse * option allocator :=
  match inc, out with
  | i :: inc', o :: out' =>
      if fst i =? fst o then
        let '(inc'', out'', snt, al'') :=
          sendLoop inc' out' ((λ a, ReleasePages a (fst i)) <$> al) in
        (inc'', out'', o :: snt, al'')
      else (inc, out, [], al)
  | _, _ => (inc, out, [], al)
  end.

Definition maybeSendPackets (s : packetManager) : packetManager :=
  let '(inc, out, snt, al) := sendLoop (incoming s) (outgoing s) (alloc s) in
  {| packetCount := packetCount s; pktChan := pktChan s; requests := requests s;
     responses := responses s; rwChan := rwChan s; cmdChan := cmdChan s; working := working s;
     incoming := inc; outgoing := out; sent := sent s ++ snt; alloc := al |}.

(** The two receiving cases of [controller]'s select. *)
Definition controller_request (s : packetManager) : option packetManager :=
  match requests s with
  | [] => None
  | pkt :: rest => Some (maybeSendPackets
      {| packetCount := packetCount s; pktChan := pktChan s; requests := rest;
         responses := responses s; rwChan := rwChan s; cmdChan := cmdChan s; working := working s;
         incoming := Sort (incoming s ++ [pkt]); outgoing := outgoing s; sent := sent s;
         alloc := alloc s |})
  end.
Definition controller_response (s : packetManager) : option packetManager :=
  match responses s with
  | [] => None
  | pkt :: rest => Some (maybeSendPackets
      {| packetCount := packetCount s; pktChan := pktChan s; requests := requests s;
         responses := rest; rwChan := rwChan s; cmdChan := cmdChan s; working := working s;
         incoming := incoming s; outgoing := Sort (outgoing s ++ [pkt]); sent := sent s;
         alloc := alloc s |})
  end.

(** ** Steps *)

(** What the goroutines do without new input from the client. *)
Inductive serve_step (s : packetManager) : packetManager → Prop :=
  | step_dispatch s' : dispatch s = Some s' → serve_step s s'
  | step_rw_worker l1 oid p l2 r :
      rwChan s = l1 ++ (oid, p) :: l2 → serve_step s (readyPacket s (l1 ++ l2) (cmdChan s) oid r)
  | step_cmd_worker oid p l r :
      cmdChan s = (oid, p) :: l → serve_step s (readyPacket s (rwChan s) l oid r)
  | step_request s' : controller_request s = Some s' → serve_step s s'
  | step_response s' : controller_response s = Some s' → serve_step s s'.

(** A packet arrives; a session is taken to have fewer than 2^32 of them, as
    the order ids are 32-bit. *)
Inductive pm_step (s : packetManager) : packetManager → Prop :=
  | step_recv p : packetCount s + 1 < 2 ^ 32 → pm_step s (newOrderedRequest s p)
  | step_serve s' : serve_step s s' → pm_step s s'.

Definition reachable (al : option allocator) (s : packetManager) : Prop := rtc pm_step (newPktMgr al) s.

Definition quiescent (s : packetManager) : Prop :=
  pktChan s = [] ∧ requests s = [] ∧ responses s = [] ∧ rwChan s = [] ∧ cmdChan s = [].

(** ** Sorting *)
Definition keys_sorted {A} (l : list (Z * A)) : Prop := StronglySorted Z.lt l.*1.

Lemma insertOrdered_perm {A} (x : Z * A) l : insertOrdered x l ≡ₚ x :: l.
Proof.
  induction l as [|y l IH]; simpl; [done|]. case_match; [done|].
  rewrite IH. by constructor.
Qed.
Lemma Sort_perm {A} (l : list (Z * A)) : Sort l ≡ₚ l.
Proof. induction l as [|x l IH]; simpl; [done|]. by rewrite insertOrdered_perm, IH. Qed.

Lemma insertOrdered_sorted {A} (x : Z * A) l :
  keys_sorted l → x.1 ∉ l.*1 → keys_sorted (insertOrdered x l).
Proof.
  unfold keys_sorted. induction l as [|y l IH]; simpl; intros Hs Hx.
  { repeat constructor. }
  apply StronglySorted_inv in Hs as [Hs Hy].
  apply not_elem_of_cons in Hx as [Hne Hx].
  destruct (Z.ltb_spec (fst x) (fst y)); simpl.
  - constructor; [by constructor|]. constructor; [done|].
    eapply Forall_impl; [exact Hy|]. intros; simpl in *; lia.
  - constructor; [by apply IH|]. rewrite (insertOrdered_perm x l). simpl.
    constructor; [lia|done].
Qed.

(** Sorting a queue to which a fresh id was appended. *)
Lemma Sort_sorted {A} (l : list (Z * A)) : NoDup l.*1 → keys_sorted (Sort l).
Proof.
  induction l as [|x l IH]; simpl; intros Hnd; [constructor|].
  apply NoDup_cons in Hnd as [Hx Hnd]. apply insertOrdered_sorted; [by apply IH|].
  by rewrite (Sort_perm l).
Qed.

Lemma Sort_id {A} (l : list (Z * A)) : keys_sorted l → Sort l = l.
Proof.
  unfold keys_sorted. induction l as [|x l IH]; simpl; intros Hs; [done|].
  apply StronglySorted_inv in Hs as [Hs Hx]. rewrite IH by done.
  destruct l as [|y l]; [done|]. simpl in *. inv Hx. by rewrite (proj2 (Z.ltb_lt _ _)).
Qed.

#[local] Instance Zlt_antisymm : AntiSymm (=) Z.lt.
Proof. intros x y ??. lia. Qed.

Lemma seqZ_sorted m n : StronglySorted Z.lt (seqZ m n).
Proof.
  destruct (decide (0 <= n)); [|rewrite seqZ_nil by lia; constructor].
  revert m. pattern n. apply natlike_ind; [intros ?; rewrite seqZ_nil by lia; constructor| |done].
  intros k Hk IH m. rewrite seqZ_cons by lia. replace (Z.pred (Z.succ k)) with k by lia.
  constructor; [apply IH|]. apply Forall_forall. intros z ?%elem_of_seqZ. lia.
Qed.

Lemma StronglySorted_app_l {A} (R : A → A → Prop) l k :
  StronglySorted R (l ++ k) → StronglySorted R l.
Proof.
  induction l as [|x l IH]; simpl; intros H; [constructor|].
  apply StronglySorted_inv in H as [H [Hx _]%Forall_app]. constructor; auto.
Qed.
Lemma StronglySorted_app_r {A} (R : A → A → Prop) l k :
  StronglySorted R (l ++ k) → StronglySorted R k.
Proof. induction l; simpl; intros H; [done|inv H; auto]. Qed.

(** ** The sending loop *)
Lemma sendLoop_spec inc out al :
  let '(inc', out', snt, al') := sendLoop inc out al in
  inc.*1 = snt.*1 ++ inc'.*1 ∧ out = snt ++ out' ∧
  (∀ i o, head inc'.*1 = Some i → head out'.*1 = Some o → i ≠ o).
Proof.
  revert out al. induction inc as [|[i p] inc IH]; intros out al; simpl; [done|].
  destruct out as [|[o r] out]; simpl; [done|].
  destruct (Z.eqb_spec i o) as [->|Hne]; simpl.
  - specialize (IH out ((λ a, ReleasePages a o) <$> al)).
    destruct (sendLoop inc out _) as [[[inc' out'] snt] al'].
    destruct IH as (E1 & E2 & ?). split_and!; [csimpl; by rewrite <- E1|by rewrite E2|done].
  - split_and!; [done|done|]. intros ??; simpl; congruence.
Qed.

(** ** The invariant *)
Record pm_inv (s : packetManager) : Prop := {
  inv_count : is_u32 (packetCount s);
  inv_order : (sent s).*1 ++ (incoming s).*1 ++ (requests s).*1 ++ (pktChan s).*1
    = seqZ 1 (packetCount s);
  inv_flight : (rwChan s).*1 ++ (cmdChan s).*1 ++ (responses s).*1 ++ (outgoing s).*1
    ≡ₚ (incoming s).*1 ++ (requests s).*1;
  inv_outgoing : keys_sorted (outgoing s);
  inv_heads : ∀ i o, head (incoming s).*1 = Some i → head (outgoing s).*1 = Some o → i ≠ o;
  inv_working : working s = zlen (rwChan s) + zlen (cmdChan s);
  inv_close : ∀ c q, c ∈ cmdChan s → is_close c.2 = true → q ∈ rwChan s → c.1 < q.1
}.

(** What [maybeSendPackets] establishes, given the rest of the invariant. *)
Lemma maybeSendPackets_inv s :
  is_u32 (packetCount s) →
  (sent s).*1 ++ (incoming s).*1 ++ (requests s).*1 ++ (pktChan s).*1 = seqZ 1 (packetCount s) →
  (rwChan s).*1 ++ (cmdChan s).*1 ++ (responses s).*1 ++ (outgoing s).*1
    ≡ₚ (incoming s).*1 ++ (requests s).*1 →
  keys_sorted (outgoing s) →
  working s = zlen (rwChan s) + zlen (cmdChan s) →
  (∀ c q, c ∈ cmdChan s → is_close c.2 = true → q ∈ rwChan s → c.1 < q.1) →
  pm_inv (maybeSendPackets s).
Proof.
  intros Hc Ho Hf Hs Hw Hcl. unfold maybeSendPackets.
  pose proof (sendLoop_spec (incoming s) (outgoing s) (alloc s)) as H.
  destruct (sendLoop _ _ _) as [[[inc out] snt] al].
  destruct H as (Hinc & Hout & Hne).
  split; simpl; try done.
  - rewrite fmap_app, <- app_assoc, (app_assoc (snt.*1)), <- Hinc. done.
  - rewrite Hinc, Hout, fmap_app in Hf. revert Hf.
    generalize (rwChan s).*1 (cmdChan s).*1 (responses s).*1 (requests s).*1.
    intros l1 l2 l3 l4 Hf. apply (Permutation_app_inv_l (snt.*1)).
    transitivity (l1 ++ l2 ++ l3 ++ snt.*1 ++ out.*1); [solve_Permutation|].
    by rewrite Hf, <- app_assoc.
  - rewrite Hout in Hs. unfold keys_sorted in *. rewrite fmap_app in Hs.
    by eapply StronglySorted_app_r.
Qed.

Lemma newOrderedRequest_inv s p :
  packetCount s + 1 < 2 ^ 32 → pm_inv s → pm_inv (newOrderedRequest s p).
Proof.
  intros Hlt [Hc Ho Hf Hs Hh Hw Hcl].
  assert (Hid : newOrderID s = packetCount s + 1).
  { unfold newOrderID. destruct Hc. apply u32_id. split; lia. }
  split; simpl; try done.
  - rewrite Hid. destruct Hc; split; lia.
  - rewrite Hid, fmap_app. destruct Hc. rewrite seqZ_app by lia.
    rewrite <- Ho, !app_assoc. f_equal. rewrite seqZ_cons, seqZ_nil by lia. simpl. f_equal. lia.
Qed.

Lemma in_flight_bound s q : pm_inv s → q ∈ cmdChan s ++ rwChan s →
  ∀ oid p, head (pktChan s) = Some (oid, p) → q.1 < oid.
Proof.
  intros [Hc Ho Hf Hs Hh Hw Hcl] Hq oid p Hhd.
  destruct (pktChan s) as [|[oid' p'] rest]; simplify_eq/=.
  assert (Hin : q.1 ∈ (incoming s).*1 ++ (requests s).*1).
  { rewrite <- Hf. apply elem_of_app in Hq as [Hq|Hq]; apply (list_elem_of_fmap_2 fst) in Hq; set_solver. }
  pose proof (seqZ_sorted 1 (packetCount s)) as Hsrt. rewrite <- Ho in Hsrt.
  apply StronglySorted_app_r in Hsrt. rewrite app_assoc in Hsrt.
  revert Hin Hsrt. generalize ((incoming s).*1 ++ (requests s).*1). intros l.
  induction l as [|z l IH]; simpl; [set_solver|].
  intros [->|Hin]%elem_of_cons [Hs' Hall]%StronglySorted_inv; [|by apply IH].
  rewrite Forall_forall in Hall. apply Hall. set_solver.
Qed.

Lemma dispatch_inv s s' : dispatch s = Some s' → pm_inv s → pm_inv s'.
Proof.
  intros Hd Hinv. pose proof (in_flight_bound s) as Hb. destruct (Hinv) as [Hc Ho Hf Hs Hh Hw Hcl].
  unfold dispatch in Hd. destruct (pktChan s) as [|[oid p] rest] eqn:Hp; [done|].
  assert (Hlt : ∀ q, q ∈ cmdChan s ++ rwChan s → q.1 < oid) by (intros q Hq; by eapply Hb).
  case_match; [done|]. destruct (is_rw p) eqn:Hrw.
  - simplify_eq. split; simpl; try done.
    + rewrite fmap_app, <- Ho. simpl. by rewrite <- app_assoc.
    + rewrite !fmap_app, (app_assoc (incoming s).*1), <- Hf. csimpl. solve_Permutation.
    + rewrite zlen_snoc. lia.
    + intros c q Hcin Hcc [Hq|Hq%list_elem_of_singleton]%elem_of_app; [by apply Hcl|].
      subst. apply Hlt. set_solver.
  - destruct (is_close p && negb (working s =? 0)) eqn:Hcw; [done|]. simplify_eq.
    split; simpl; try done.
    + rewrite fmap_app, <- Ho. simpl. by rewrite <- app_assoc.
    + rewrite !fmap_app, (app_assoc (incoming s).*1), <- Hf. csimpl. solve_Permutation.
    + rewrite zlen_snoc. lia.
    + intros c q [Hcin|Hcin%list_elem_of_singleton]%elem_of_app Hcc Hq; [by apply Hcl|].
      subst. simpl in Hcc. rewrite Hcc in Hcw. simpl in Hcw.
      destruct (rwChan s); [set_solver|]. rewrite zlen_cons in Hw.
      pose proof (zlen_nonneg l). pose proof (zlen_nonneg (cmdChan s)). lia.
Qed.

Lemma readyPacket_inv s rw cmd oid r :
  pm_inv s →
  (∃ l1 p l2, rwChan s = l1 ++ (oid, p) :: l2 ∧ rw = l1 ++ l2 ∧ cmd = cmdChan s) ∨
  (∃ p, cmdChan s = (oid, p) :: cmd ∧ rw = rwChan s) →
  pm_inv (readyPacket s rw cmd oid r).
Proof.
  intros [Hc Ho Hf Hs Hh Hw Hcl] [(l1 & p & l2 & Hrw & -> & ->)|(p & Hcmd & ->)];
    split; simpl; try done.
  - rewrite <- Hf, Hrw, !fmap_app. csimpl. solve_Permutation.
  - rewrite Hw, Hrw, !zlen_app, zlen_cons. lia.
  - intros c q ??. rewrite Hrw in Hcl. intros ?. apply Hcl; set_solver.
  - rewrite <- Hf, Hcmd, !fmap_app. csimpl. solve_Permutation.
  - rewrite Hw, Hcmd, zlen_cons. lia.
  - intros c q ??. rewrite Hcmd in Hcl. apply Hcl; set_solver.
Qed.

Lemma controller_request_inv s s' : controller_request s = Some s' → pm_inv s → pm_inv s'.
Proof.
  intros Hd [Hc Ho Hf Hs Hh Hw Hcl]. unfold controller_request in Hd.
  destruct (requests s) as [|pkt rest] eqn:Hr; [done|]. simplify_eq.
  assert (Hsort : Sort (incoming s ++ [pkt]) = incoming s ++ [pkt]).
  { apply Sort_id. unfold keys_sorted. rewrite fmap_app. simpl.
    pose proof (seqZ_sorted 1 (packetCount s)) as Hsrt. rewrite <- Ho in Hsrt.
    apply StronglySorted_app_r in Hsrt. simpl in Hsrt. rewrite cons_middle, !app_assoc in Hsrt.
    by do 2 apply StronglySorted_app_l in Hsrt. }
  apply maybeSendPackets_inv; simpl; try done.
  - rewrite Hsort, fmap_app, <- Ho. by rewrite <- !app_assoc.
  - by rewrite Hf, Hsort, fmap_app, <- app_assoc.
Qed.

Lemma controller_response_inv s s' : controller_response s = Some s' → pm_inv s → pm_inv s'.
Proof.
  intros Hd [Hc Ho Hf Hs Hh Hw Hcl]. unfold controller_response in Hd.
  destruct (responses s) as [|pkt rest] eqn:Hr; [done|]. simplify_eq.
  assert (Hnd : NoDup (outgoing s ++ [pkt]).*1).
  { assert (Hall : NoDup ((incoming s).*1 ++ (requests s).*1)).
    { pose proof (NoDup_seqZ 1 (packetCount s)) as Hn. rewrite <- Ho in Hn.
      apply NoDup_app in Hn as (_ & _ & Hn). rewrite app_assoc in Hn.
      by apply NoDup_app in Hn as [Hn _]. }
    rewrite <- Hf in Hall. do 2 apply NoDup_app in Hall as (_ & _ & Hall).
    rewrite fmap_cons in Hall. apply NoDup_app in Hall as (H1 & H2 & H3).
    apply NoDup_cons in H1 as [H1 _].
    rewrite fmap_app. apply NoDup_app. split_and!; [done| |apply NoDup_singleton].
    intros x Hx ->%list_elem_of_singleton. eapply H2; [by left|done]. }
  apply maybeSendPackets_inv; simpl; try done.
  - rewrite <- Hf, (Sort_perm (outgoing s ++ [pkt])), fmap_app. csimpl. solve_Permutation.
  - by apply Sort_sorted.
Qed.

Lemma serve_step_inv s s' : serve_step s s' → pm_inv s → pm_inv s'.
Proof.
  intros [] ?; eauto using dispatch_inv, controller_request_inv, controller_response_inv.
  - apply readyPacket_inv; [done|]. left. eauto 10.
  - apply readyPacket_inv; [done|]. right. eauto.
Qed.

Lemma newPktMgr_inv al : pm_inv (newPktMgr al).
Proof. split; simpl; try done; try set_solver; constructor. Qed.

Lemma reachable_inv al s : reachable al s → pm_inv s.
Proof.
  unfold reachable. intros Hr. pattern s. revert s Hr.
  apply (rtc_ind_r (λ s, pm_inv s)); [apply newPktMgr_inv|].
  intros s s' _ [p Hlt|s'' Hst] IH; [by apply newOrderedRequest_inv|by eapply serve_step_inv].
Qed.

Lemma quiescent_all_sent s : pm_inv s → quiescent s →
  (sent s).*1 = seqZ 1 (packetCount s) ∧ incoming s = [] ∧ outgoing s = [] ∧ working s = 0.
Proof.
  intros [Hc Ho Hf Hs Hh Hw _] (Hp & Hq & Hr & Hrw & Hcmd).
  rewrite Hp, Hq in Ho. rewrite Hq, Hr, Hrw, Hcmd in *. simpl in *. rewrite !app_nil_r in *.
  assert (Hsi : StronglySorted Z.lt (incoming s).*1).
  { pose proof (seqZ_sorted 1 (packetCount s)) as Hx. rewrite <- Ho in Hx.
    by apply StronglySorted_app_r in Hx. }
  assert (Heq : (outgoing s).*1 = (incoming s).*1).
  { apply (StronglySorted_unique Z.lt); done. }
  destruct (incoming s) as [|i inc], (outgoing s) as [|o out]; try done.
  - simpl in *. by rewrite app_nil_r in Ho.
  - exfalso. simpl in *. simplify_eq. by eapply Hh.
Qed.

Lemma inv_sent_order s : pm_inv s → (sent s).*1 = seqZ 1 (zlen (sent s)).
Proof.
  intros Hr. pose proof (inv_order s Hr) as Ho. pose proof (inv_count s Hr) as Hc.
  assert (Hl : zlen (sent s) <= packetCount s).
  { apply (f_equal length) in Ho. rewrite length_app, length_fmap, length_seqZ in Ho.
    unfold zlen. destruct Hc. lia. }
  pose proof (zlen_nonneg (sent s)).
  replace (packetCount s) with (zlen (sent s) + (packetCount s - zlen (sent s))) in Ho by lia.
  rewrite seqZ_app in Ho by lia. apply app_inj_1 in Ho as [Ho _]; [done|].
  rewrite length_fmap, length_seqZ. unfold zlen. lia.
Qed.

(** ** Theorems *)

(** C20: In every state the packet manager can reach, under every interleaving
    of the reader, the dispatcher, the workers and the controller, the
    responses handed to [sendPacket] answer the requests 1, 2, ..., n: none is
    skipped, repeated or sent out of arrival order, whatever order the workers
    finished in. *)
Theorem responses_in_request_order al s :
  reachable al s → (sent s).*1 = seqZ 1 (zlen (sent s)).
Proof. intros Hr%reachable_inv. by apply inv_sent_order. Qed.

(** C30: A CLOSE is only served once the reads and writes that arrived before
    it have been answered: any read or write in progress while a CLOSE is on
    the command channel arrived after it. *)
Theorem close_waits_for_reads_and_writes al s c q :
  reachable al s → c ∈ cmdChan s → is_close c.2 = true → q ∈ rwChan s → c.1 < q.1.
Proof. intros Hr%reachable_inv. by apply inv_close. Qed.

(** ** Witnesses *)

(** A write (1) and a close (2) arrive; the close is dispatched only after the
    write was answered, then a read (3) starts while the close is served. *)
Definition demo_write : requestPacket := sshFxpWritePacket 11 1 0 "1" [Corelib.Init.Byte.x61].
Definition demo_close : requestPacket := sshFxpClosePacket 12 "1".
Definition demo_read : requestPacket := sshFxpReadPacket 13 1 0 "2".
Definition demo_response : responsePacket := sshFxpHandlePacket 11 "".

Definition demo_state : packetManager :=
  let s0 := newOrderedRequest (newOrderedRequest (newPktMgr None) demo_write) demo_close in
  let s1 := default s0 (dispatch s0) in
  let s2 := readyPacket s1 [] (cmdChan s1) 1 demo_response in
  let s3 := default s2 (dispatch s2) in
  let s4 := newOrderedRequest s3 demo_read in
  default s4 (dispatch s4).

Lemma demo_reachable : reachable None demo_state.
Proof.
  eapply rtc_l; [apply (step_recv _ demo_write); vm_compute; reflexivity|].
  eapply rtc_l; [apply (step_recv _ demo_close); vm_compute; reflexivity|].
  eapply rtc_l; [apply step_serve, step_dispatch; vm_compute; reflexivity|].
  eapply rtc_l; [apply step_serve, (step_rw_worker _ [] 1 demo_write [] demo_response); reflexivity|].
  eapply rtc_l; [apply step_serve, step_dispatch; vm_compute; reflexivity|].
  eapply rtc_l; [apply (step_recv _ demo_read); vm_compute; reflexivity|].
  eapply rtc_l; [apply step_serve, step_dispatch; vm_compute; reflexivity|].
  apply rtc_refl.
Qed.

Lemma responses_in_request_order_witness : (sent demo_state).*1 = seqZ 1 (zlen (sent demo_state)).
Proof. exact (responses_in_request_order None demo_state demo_reachable). Defined.

Lemma close_waits_for_reads_and_writes_witness :
  cmdChan demo_state = [(2, demo_close)] ∧ rwChan demo_state = [(3, demo_read)] ∧ 2 < 3.
Proof.
  split_and!; [reflexivity|reflexivity|].
  apply (close_waits_for_reads_and_writes None demo_state (2, demo_close) (3, demo_read));
    [exact demo_reachable|by left|reflexivity|by left].
Defined.
