(* ===== verification/PacketChannels.v ===== *)
(** * The goroutines of the packet manager: sftp/packet-manager.go,
    sftp/request-server.go ([serveLoop], [packetWorker])

    PacketManager describes the manager by its queues. Here the same code is
    modelled goroutine by goroutine, with what each of them is blocked on: the
    bounded channels [pktChan], [rwChan], [requests] and [responses]
    ([SftpServerWorkerCount] places each), the unbuffered [cmdChan], the wait
    group with [Add] before and [Done] after the send, and the shutdown that
    follows the end of the input. The theorems relate it to PacketManager by a
    simulation and show that nothing is ever stuck. [sendPacket] is taken to
    return: a client that stops reading blocks the controller for good. *)
From stdpp Require Import base tactics option list list_numbers strings gmap sorting relations.
From Stdlib Require Import ZArith Lia.
From S2P Require Import Prelude GoOs SftpWire SftpPackets Allocator PacketManager.

Definition SftpServerWorkerCount : nat := 8.

(** [serveLoop]: waiting for a packet, at [pktChan <- pkt], or returned. *)
Inductive reader :=
  | RRecv
  | RSend (q : orderedRequest)
  | RClosed.

(** The dispatching goroutine of [workerChan]: at the head of its loop; with a
    packet, at [working.Wait()] when it is a CLOSE; after [working.Add(1)], at
    [s.requests <- pkt]; at [rwChan <- pkt] or [cmdChan <- pkt]; after the
    loop, in [close], at [working.Wait()]; returned. *)
Inductive dispatcher :=
  | DIdle
  | DRecv (q : orderedRequest)
  | DReg (q : orderedRequest)
  | DSend (q : orderedRequest)
  | DClose
  | DDone.

(** [packetWorker]: at the head of its loop; serving; at [s.responses <- pkt];
    at [working.Done()]; returned. *)
Inductive worker :=
  | WIdle
  | WBusy (q : orderedRequest)
  | WReady (q : orderedRequest) (r : responsePacket)
  | WSent
  | WExit.

(** The whole session: the goroutines, the contents of the channels, the wait
    group, whether the controller still runs, and its three lists. *)
Record session := MkSession {
  ss_count : Z;
  ss_reader : reader;
  ss_pkt : list orderedRequest;
  ss_disp : dispatcher;
  ss_requests : list orderedRequest;
  ss_responses : list orderedResponse;
  ss_rw : list orderedRequest;
  ss_workers : list worker;
  ss_cmd : worker;
  ss_working : Z;
  ss_running : bool;
  ss_incoming : list orderedRequest;
  ss_outgoing : list orderedResponse;
  ss_sent : list orderedResponse;
  ss_alloc : option allocator
}.

Definition newSession (al : option allocator) : session :=
  MkSession 0 RRecv [] DIdle [] [] [] (replicate SftpServerWorkerCount WIdle) WIdle 0 true [] [] [] al.

(** A buffered channel takes another element. *)
Definition room {A} (l : list A) : Prop := (length l < SftpServerWorkerCount)%nat.

(** [rwChan] and [cmdChan] are closed once the dispatcher left its loop, and
    [fini] once it returned. *)
Definition chans_closed (d : dispatcher) : bool := match d with DClose | DDone => true | _ => false end.
Definition fini_closed (d : dispatcher) : bool := match d with DDone => true | _ => false end.

(** ** What the goroutines do without further input *)
Inductive go_step : session → session → Prop :=
  (* serveLoop: pktChan <- rs.pktMgr.newOrderedRequest(pkt) *)
  | go_reader_send n q pk d rq rs rw ws cw wg ct inc out snt al :
      room pk →
      go_step (MkSession n (RSend q) pk d rq rs rw ws cw wg ct inc out snt al)
              (MkSession n RRecv (pk ++ [q]) d rq rs rw ws cw wg ct inc out snt al)
  (* for pkt := range pktChan *)
  | go_disp_recv n rd q pk rq rs rw ws cw wg ct inc out snt al :
      go_step (MkSession n rd (q :: pk) DIdle rq rs rw ws cw wg ct inc out snt al)
              (MkSession n rd pk (DRecv q) rq rs rw ws cw wg ct inc out snt al)
  (* a CLOSE waits for the wait group; then working.Add(1) *)
  | go_disp_add n rd pk q rq rs rw ws cw wg ct inc out snt al :
      (is_close q.2 = true → wg = 0) →
      go_step (MkSession n rd pk (DRecv q) rq rs rw ws cw wg ct inc out snt al)
              (MkSession n rd pk (DReg q) rq rs rw ws cw (wg + 1) ct inc out snt al)
  (* s.requests <- pkt *)
  | go_disp_register n rd pk q rq rs rw ws cw wg ct inc out snt al :
      room rq →
      go_step (MkSession n rd pk (DReg q) rq rs rw ws cw wg ct inc out snt al)
              (MkSession n rd pk (DSend q) (rq ++ [q]) rs rw ws cw wg ct inc out snt al)
  (* rwChan <- pkt *)
  | go_disp_rw n rd pk q rq rs rw ws cw wg ct inc out snt al :
      is_rw q.2 = true → room rw →
      go_step (MkSession n rd pk (DSend q) rq rs rw ws cw wg ct inc out snt al)
              (MkSession n rd pk DIdle rq rs (rw ++ [q]) ws cw wg ct inc out snt al)
  (* cmdChan <- pkt, unbuffered: the command worker receives it *)
  | go_disp_cmd n rd pk q rq rs rw ws wg ct inc out snt al :
      is_rw q.2 = false →
      go_step (MkSession n rd pk (DSend q) rq rs rw ws WIdle wg ct inc out snt al)
              (MkSession n rd pk DIdle rq rs rw ws (WBusy q) wg ct inc out snt al)
  (* pktChan is closed and drained: close(rwChan); close(cmdChan) *)
  | go_disp_end n rq rs rw ws cw wg ct inc out snt al :
      go_step (MkSession n RClosed [] DIdle rq rs rw ws cw wg ct inc out snt al)
              (MkSession n RClosed [] DClose rq rs rw ws cw wg ct inc out snt al)
  (* s.working.Wait(); close(s.fini) *)
  | go_disp_fini n rd pk rq rs rw ws cw ct inc out snt al :
      go_step (MkSession n rd pk DClose rq rs rw ws cw 0 ct inc out snt al)
              (MkSession n rd pk DDone rq rs rw ws cw 0 ct inc out snt al)
  (* one of the read/write workers *)
  | go_rw_recv n rd pk d rq rs q rw l1 l2 cw wg ct inc out snt al :
      go_step (MkSession n rd pk d rq rs (q :: rw) (l1 ++ WIdle :: l2) cw wg ct inc out snt al)
              (MkSession n rd pk d rq rs rw (l1 ++ WBusy q :: l2) cw wg ct inc out snt al)
  | go_rw_serve n rd pk d rq rs rw l1 q r l2 cw wg ct inc out snt al :
      go_step (MkSession n rd pk d rq rs rw (l1 ++ WBusy q :: l2) cw wg ct inc out snt al)
              (MkSession n rd pk d rq rs rw (l1 ++ WReady q r :: l2) cw wg ct inc out snt al)
  | go_rw_ready n rd pk d rq rs rw l1 q r l2 cw wg ct inc out snt al :
      room rs →
      go_step (MkSession n rd pk d rq rs rw (l1 ++ WReady q r :: l2) cw wg ct inc out snt al)
              (MkSession n rd pk d rq (rs ++ [(q.1, r)]) rw (l1 ++ WSent :: l2) cw wg ct inc out snt al)
  | go_rw_done n rd pk d rq rs rw l1 l2 cw wg ct inc out snt al :
      go_step (MkSession n rd pk d rq rs rw (l1 ++ WSent :: l2) cw wg ct inc out snt al)
              (MkSession n rd pk d rq rs rw (l1 ++ WIdle :: l2) cw (wg - 1) ct inc out snt al)
  | go_rw_exit n rd pk d rq rs l1 l2 cw wg ct inc out snt al :
      chans_closed d = true →
      go_step (MkSession n rd pk d rq rs [] (l1 ++ WIdle :: l2) cw wg ct inc out snt al)
              (MkSession n rd pk d rq rs [] (l1 ++ WExit :: l2) cw wg ct inc out snt al)
  (* the command worker *)
  | go_cmd_serve n rd pk d rq rs rw ws q r wg ct inc out snt al :
      go_step (MkSession n rd pk d rq rs rw ws (WBusy q) wg ct inc out snt al)
              (MkSession n rd pk d rq rs rw ws (WReady q r) wg ct inc out snt al)
  | go_cmd_ready n rd pk d rq rs rw ws q r wg ct inc out snt al :
      room rs →
      go_step (MkSession n rd pk d rq rs rw ws (WReady q r) wg ct inc out snt al)
              (MkSession n rd pk d rq (rs ++ [(q.1, r)]) rw ws WSent wg ct inc out snt al)
  | go_cmd_done n rd pk d rq rs rw ws wg ct inc out snt al :
      go_step (MkSession n rd pk d rq rs rw ws WSent wg ct inc out snt al)
              (MkSession n rd pk d rq rs rw ws WIdle (wg - 1) ct inc out snt al)
  | go_cmd_exit n rd pk d rq rs rw ws wg ct inc out snt al :
      chans_closed d = true →
      go_step (MkSession n rd pk d rq rs rw ws WIdle wg ct inc out snt al)
              (MkSession n rd pk d rq rs rw ws WExit wg ct inc out snt al)
  (* the controller: case pkt := <-s.requests, <-s.responses, <-s.fini *)
  | go_ctl_request n rd pk d q rq rs rw ws cw wg inc out snt al inc' out' new al' :
      sendLoop (Sort (inc ++ [q])) out al = (inc', out', new, al') →
      go_step (MkSession n rd pk d (q :: rq) rs rw ws cw wg true inc out snt al)
              (MkSession n rd pk d rq rs rw ws cw wg true inc' out' (snt ++ new) al')
  | go_ctl_response n rd pk d rq r rs rw ws cw wg inc out snt al inc' out' new al' :
      sendLoop inc (Sort (out ++ [r])) al = (inc', out', new, al') →
      go_step (MkSession n rd pk d rq (r :: rs) rw ws cw wg true inc out snt al)
              (MkSession n rd pk d rq rs rw ws cw wg true inc' out' (snt ++ new) al')
  | go_ctl_exit n rd pk d rq rs rw ws cw wg inc out snt al :
      fini_closed d = true →
      go_step (MkSession n rd pk d rq rs rw ws cw wg true inc out snt al)
              (MkSession n rd pk d rq rs rw ws cw wg false inc out snt al).

(** The input: [recvPacket] returns a packet, which gets the next order id, or
    an error, on which [serveLoop] returns and closes [pktChan]. *)
Inductive session_step : session → session → Prop :=
  | ss_recv n p pk d rq rs rw ws cw wg ct inc out snt al :
      n + 1 < 2 ^ 32 →
      session_step (MkSession n RRecv pk d rq rs rw ws cw wg ct inc out snt al)
                   (MkSession (u32 (n + 1)) (RSend (u32 (n + 1), p)) pk d rq rs rw ws cw wg ct inc out snt al)
  | ss_eof n pk d rq rs rw ws cw wg ct inc out snt al :
      session_step (MkSession n RRecv pk d rq rs rw ws cw wg ct inc out snt al)
                   (MkSession n RClosed pk d rq rs rw ws cw wg ct inc out snt al)
  | ss_go s s' : go_step s s' → session_step s s'.

Definition session_reachable (al : option allocator) (s : session) : Prop :=
  rtc session_step (newSession al) s.

(** ** The simulation *)

(** The request a worker holds until its response is on [responses]. *)
Definition holds (w : worker) : list orderedRequest :=
  match w with WBusy q | WReady q _ => [q] | _ => [] end.
Definition sending (w : worker) : Z := match w with WSent => 1 | _ => 0 end.
Definition held (ws : list worker) : list orderedRequest := mbind holds ws.
Definition sendings (ws : list worker) : Z := foldr (λ w n, sending w + n) 0 ws.

Definition pending_reader (r : reader) : list orderedRequest := match r with RSend q => [q] | _ => [] end.
Definition pending_disp (d : dispatcher) : list orderedRequest :=
  match d with DRecv q | DReg q => [q] | _ => [] end.
Definition handing (rw : bool) (d : dispatcher) : list orderedRequest :=
  match d with DSend q => if Bool.eqb (is_rw q.2) rw then [q] else [] | _ => [] end.
Definition added (d : dispatcher) : Z := match d with DReg _ => 1 | _ => 0 end.

(** The manager a session implements: a packet is dispatched when it is on
    [requests], and answered when its response is on [responses]. *)
Record implements (c : session) (s : packetManager) : Prop := {
  im_count : packetCount s = ss_count c;
  im_pkt : pktChan s = pending_disp (ss_disp c) ++ ss_pkt c ++ pending_reader (ss_reader c);
  im_requests : requests s = ss_requests c;
  im_responses : responses s = ss_responses c;
  im_rw : rwChan s ≡ₚ held (ss_workers c) ++ ss_rw c ++ handing true (ss_disp c);
  im_cmd : cmdChan s = holds (ss_cmd c) ++ handing false (ss_disp c);
  im_incoming : incoming s = ss_incoming c;
  im_outgoing : outgoing s = ss_outgoing c;
  im_sent : sent s = ss_sent c;
  im_alloc : alloc s = ss_alloc c
}.

Definition alive (w : worker) : Prop := w ≠ WExit.

(** What else holds of the goroutines. *)
Record session_inv (c : session) (s : packetManager) : Prop := {
  si_implements : implements c s;
  si_working : ss_working c
    = working s + sendings (ss_workers c) + sending (ss_cmd c) + added (ss_disp c);
  si_close : ∀ q, ss_disp c = DReg q → is_close q.2 = true → working s = 0;
  si_closed : chans_closed (ss_disp c) = true → ss_reader c = RClosed ∧ ss_pkt c = [];
  si_exit : chans_closed (ss_disp c) = false → alive (ss_cmd c) ∧ Forall alive (ss_workers c);
  si_rw_exit : ss_rw c ≠ [] → Forall alive (ss_workers c);
  si_fini : ss_running c = false → fini_closed (ss_disp c) = true;
  si_drained : fini_closed (ss_disp c) = true → working s = 0;
  si_workers : length (ss_workers c) = SftpServerWorkerCount;
  si_room : (length (ss_pkt c) <= SftpServerWorkerCount ∧ length (ss_requests c) <= SftpServerWorkerCount
    ∧ length (ss_responses c) <= SftpServerWorkerCount ∧ length (ss_rw c) <= SftpServerWorkerCount)%nat
}.

Lemma held_middle l1 w l2 : held (l1 ++ w :: l2) ≡ₚ holds w ++ held (l1 ++ l2).
Proof. unfold held. rewrite !bind_app, bind_cons. solve_Permutation. Qed.

Lemma sendings_middle l1 w l2 : sendings (l1 ++ w :: l2) = sending w + sendings (l1 ++ l2).
Proof. induction l1 as [|x l1 IH]; simpl; [done|]. unfold sendings in IH |- *. simpl. rewrite IH. lia. Qed.

Lemma sendings_nonneg ws : 0 <= sendings ws.
Proof. induction ws as [|w ws IH]; [done|]. unfold sendings in *. simpl. destruct w; simpl; lia. Qed.

Lemma alive_middle l1 w l2 : Forall alive (l1 ++ w :: l2) ↔ alive w ∧ Forall alive (l1 ++ l2).
Proof. rewrite !Forall_app, Forall_cons. tauto. Qed.

(** Closes what a step that the manager does not notice leaves of the
    simulation. *)
Ltac quiet_step :=
  eexists; split; [apply rtc_refl|]; split; [split|..]; simpl in *;
  rewrite ?held_middle, ?sendings_middle, ?length_app, ?alive_middle in *; simpl in *;
  rewrite ?app_nil_r, <- ?app_assoc in *; try done; try lia; try (by intuition (congruence || eauto)).

Lemma sending_nonneg w : 0 <= sending w.
Proof. by destruct w. Qed.

Lemma working_nonneg s : pm_inv s → 0 <= working s.
Proof. intros [_ _ _ _ _ -> _]. pose proof (zlen_nonneg (rwChan s)). pose proof (zlen_nonneg (cmdChan s)). lia. Qed.

Lemma dispatch_register s q rest :
  pktChan s = q :: rest → (length (cmdChan s) <= 1)%nat → (is_close q.2 = true → working s = 0) →
  ∃ s', dispatch s = Some s' ∧ packetCount s' = packetCount s ∧ pktChan s' = rest
    ∧ requests s' = requests s ++ [q] ∧ responses s' = responses s
    ∧ rwChan s' = rwChan s ++ (if is_rw q.2 then [q] else [])
    ∧ cmdChan s' = cmdChan s ++ (if is_rw q.2 then [] else [q])
    ∧ working s' = working s + 1 ∧ incoming s' = incoming s ∧ outgoing s' = outgoing s
    ∧ sent s' = sent s ∧ alloc s' = alloc s.
Proof.
  intros Hp Hc Hcl. destruct q as [oid p]. unfold dispatch. rewrite Hp. simpl in *.
  destruct (Z.leb_spec 2 (zlen (cmdChan s))) as [Hle|_]; [unfold zlen in Hle; lia|].
  destruct (is_rw p); [eexists; split; [done|]; simpl; by rewrite app_nil_r|].
  destruct (is_close p); simpl; [rewrite Hcl by done; simpl|];
    (eexists; split; [done|]; simpl; by rewrite app_nil_r).
Qed.

(** A worker's [s.responses <- pkt] is the manager's [readyPacket]. *)
Lemma rw_ready_simulated s q l r :
  pm_inv s → rwChan s ≡ₚ q :: l →
  ∃ rw, serve_step s (readyPacket s rw (cmdChan s) q.1 r) ∧ rw ≡ₚ l ∧ 0 < working s.
Proof.
  intros Hpm Hrw. assert (q ∈ rwChan s) as (l1 & l2 & E)%list_elem_of_split by (rewrite Hrw; by left).
  exists (l1 ++ l2). destruct q as [oid p]. split_and!; [by eapply step_rw_worker| |].
  - apply (Permutation_cons_inv (a := (oid, p))). by rewrite <- Hrw, E, Permutation_middle.
  - rewrite (inv_working s Hpm), E, !zlen_app, zlen_cons. unfold zlen. lia.
Qed.

Lemma cmd_ready_simulated s q l r :
  pm_inv s → cmdChan s = q :: l →
  serve_step s (readyPacket s (rwChan s) l q.1 r) ∧ 0 < working s.
Proof.
  intros Hpm Hcmd. destruct q as [oid p]. split; [by eapply step_cmd_worker|].
  rewrite (inv_working s Hpm), Hcmd, zlen_cons. unfold zlen. lia.
Qed.

Lemma ctl_step_simulated s s0 inc out new al' :
  sendLoop (incoming s0) (outgoing s0) (alloc s0) = (inc, out, new, al') →
  controller_request s = Some (maybeSendPackets s0) ∨ controller_response s = Some (maybeSendPackets s0) →
  ∃ s', serve_step s s' ∧ incoming s' = inc ∧ outgoing s' = out ∧ sent s' = sent s0 ++ new ∧ alloc s' = al'
    ∧ packetCount s' = packetCount s0 ∧ pktChan s' = pktChan s0 ∧ requests s' = requests s0
    ∧ responses s' = responses s0 ∧ rwChan s' = rwChan s0 ∧ cmdChan s' = cmdChan s0
    ∧ working s' = working s0.
Proof.
  intros E H. exists (maybeSendPackets s0).
  split; [by destruct H; eauto using serve_step|]. unfold maybeSendPackets. by rewrite E.
Qed.

Lemma go_step_simulated c c' s :
  pm_inv s → session_inv c s → go_step c c' → ∃ s', rtc serve_step s s' ∧ session_inv c' s'.
Proof.
  intros Hpm [[Hn Hpk Hrq Hrs Hrw Hcmd Hinc Hout Hsnt Hal] Hw Hcl Hclosed Hexit Hrwx Hfini Hdr Hlen Hroom] Hst.
  pose proof (working_nonneg s Hpm) as Hw0. pose proof (sendings_nonneg (ss_workers c)) as Hs0.
  pose proof (sending_nonneg (ss_cmd c)) as Hs1.
  destruct Hst; simpl in *; unfold room in *; try (solve [quiet_step]).
  - quiet_step. intros q0 [= <-] Hc. specialize (H Hc). lia.
  - destruct (dispatch_register s q (pk ++ pending_reader rd)) as
      (s' & Hd & E1 & E2 & E3 & E4 & E5 & E6 & E7 & E8 & E9 & E10 & E11);
      [done|rewrite Hcmd; destruct cw; simpl; lia|eauto|].
    exists s'. split; [by apply rtc_once, step_dispatch|].
    split; [split|..]; simpl; try congruence; try done; rewrite ?length_app; simpl; try lia.
    + rewrite E5, Hrw, app_nil_r, <- !app_assoc. by destruct (is_rw q.2).
    + rewrite E6, Hcmd, app_nil_r. by destruct (is_rw q.2).
  - rewrite H in Hrw, Hcmd. simpl in *. quiet_step.
  - rewrite H in Hrw, Hcmd. simpl in *. quiet_step.
  - quiet_step. rewrite Hrw. solve_Permutation.
  - rewrite held_middle in Hrw. destruct (rw_ready_simulated s q _ r Hpm Hrw) as (rw' & Hst & Hp & Hpos).
    eexists. split; [by apply rtc_once|].
    split; [split|..]; simpl; rewrite ?length_app, ?sendings_middle, ?held_middle, ?alive_middle in *;
      simpl in *; try done; try lia; try (by intuition (congruence || eauto)).
    all: naive_solver lia.
  - destruct (cmd_ready_simulated s q _ r Hpm Hcmd) as (Hst & Hpos).
    eexists. split; [by apply rtc_once|].
    split; [split|..]; simpl; rewrite ?length_app in *;
      simpl in *; try done; try lia; try (by intuition (congruence || eauto)).
    all: naive_solver lia.
  - subst. edestruct (ctl_step_simulated s) as (s' & Hst & E1 & E2 & E3 & E4 & E5 & E6 & E7 & E8 & E9 & E10 & E11);
      [|left; unfold controller_request; rewrite Hrq; reflexivity|]; [exact H|].
    simpl in *. exists s'. split; [by apply rtc_once|].
    split; [split|..]; simpl; rewrite ?E1, ?E2, ?E3, ?E4, ?E5, ?E6, ?E7, ?E8, ?E9, ?E10, ?E11; try done; lia.
  - subst. edestruct (ctl_step_simulated s) as (s' & Hst & E1 & E2 & E3 & E4 & E5 & E6 & E7 & E8 & E9 & E10 & E11);
      [|right; unfold controller_response; rewrite Hrs; reflexivity|]; [exact H|].
    simpl in *. exists s'. split; [by apply rtc_once|].
    split; [split|..]; simpl; rewrite ?E1, ?E2, ?E3, ?E4, ?E5, ?E6, ?E7, ?E8, ?E9, ?E10, ?E11; try done; lia.
Qed.

Lemma session_step_simulated c c' s :
  pm_inv s → session_inv c s → session_step c c' → ∃ s', rtc pm_step s s' ∧ session_inv c' s'.
Proof.
  intros Hpm Hsi Hst. destruct Hst as [n p|n|c c' Hgo].
  - destruct Hsi as [[] ? ? ? ? ? ? ? ? ?]. simpl in *. subst.
    exists (newOrderedRequest s p). split; [by apply rtc_once, step_recv|].
    split; [split|..]; simpl in *; try done.
    + unfold newOrderID. by rewrite im_pkt0, app_nil_r, <- app_assoc.
    + intros Hc. by destruct (si_closed0 Hc).
  - destruct Hsi as [[] ? ? ? ? ? ? ? ? ?]. simpl in *.
    exists s. split; [apply rtc_refl|]. split; [by split|..]; simpl; try done.
    intros Hc. by destruct (si_closed0 Hc).
  - destruct (go_step_simulated c c' s Hpm Hsi Hgo) as (s' & Hr & ?). exists s'. split; [|done].
    clear -Hr. induction Hr; [apply rtc_refl|eapply rtc_l; [by apply step_serve|done]].
Qed.

Lemma pm_step_inv s s' : pm_step s s' → pm_inv s → pm_inv s'.
Proof. intros [p Hlt|s'' Hst] ?; [by apply newOrderedRequest_inv|by eapply serve_step_inv]. Qed.

Lemma pm_steps_inv s s' : rtc pm_step s s' → pm_inv s → pm_inv s'.
Proof. induction 1; eauto using pm_step_inv. Qed.

Lemma session_reachable_inv al c :
  session_reachable al c → ∃ s, reachable al s ∧ session_inv c s.
Proof.
  unfold session_reachable. intros Hr. pattern c. revert c Hr. apply rtc_ind_r.
  - exists (newPktMgr al). split; [apply rtc_refl|].
    split; [by split|..]; simpl; try done; try lia.
    all: intros; repeat constructor; done.
  - intros c c' _ Hst (s & Hs & Hsi).
    destruct (session_step_simulated c c' s) as (s' & Hr & ?); [by eapply reachable_inv|done..|].
    exists s'. split; [|done]. unfold reachable in *. by transitivity s.
Qed.

Lemma go_steps_simulated c c' s :
  rtc go_step c c' → pm_inv s → session_inv c s → ∃ s', rtc serve_step s s' ∧ pm_inv s' ∧ session_inv c' s'.
Proof.
  intros Hr. revert s. induction Hr as [c|c c1 c' Hst _ IH]; intros s Hpm Hsi; [eauto using rtc_refl|].
  destruct (go_step_simulated c c1 s) as (s1 & Hr1 & Hsi1); [done..|].
  destruct (IH s1) as (s' & ? & ? & ?); [|done|].
  - clear -Hpm Hr1. induction Hr1; eauto using serve_step_inv.
  - exists s'. split; [by transitivity s1|done].
Qed.

(** ** Every schedule ends *)
Definition worker_work (w : worker) : nat :=
  match w with WIdle => 1 | WBusy _ => 6 | WReady _ _ => 5 | WSent => 3 | WExit => 0 end.
Definition disp_work (d : dispatcher) : nat :=
  match d with DIdle => 2 | DRecv _ => 12 | DReg _ => 11 | DSend _ => 9 | DClose => 1 | DDone => 0 end.
Definition workers_work (ws : list worker) : nat := foldr (λ w n, (worker_work w + n)%nat) 0%nat ws.

Definition session_work (c : session) : nat :=
  12 * length (pending_reader (ss_reader c)) + 11 * length (ss_pkt c) + disp_work (ss_disp c)
  + length (ss_requests c) + length (ss_responses c) + 6 * length (ss_rw c)
  + workers_work (ss_workers c) + worker_work (ss_cmd c) + (if ss_running c then 1 else 0).

Lemma workers_work_middle l1 w l2 : workers_work (l1 ++ w :: l2) = (worker_work w + workers_work (l1 ++ l2))%nat.
Proof. unfold workers_work. induction l1 as [|x l1 IH]; simpl; [done|]. rewrite IH. lia. Qed.

Lemma go_step_work c c' : go_step c c' → (session_work c' < session_work c)%nat.
Proof.
  intros Hst. unfold session_work. destruct Hst; simpl;
    rewrite ?length_app, ?workers_work_middle; simpl; lia.
Qed.

Lemma go_step_sn c : sn go_step c.
Proof.
  apply (wf_projected lt session_work); [|apply lt_wf]. intros c1 c2 Hst. by apply go_step_work.
Qed.

(** ** Nothing is stuck before its work is done *)
Definition resting (w : worker) : Prop := w = WIdle ∨ w = WExit.

Lemma nf_workers c :
  nf go_step c → (room (ss_responses c) ∨ held (ss_workers c) = [] ∧ holds (ss_cmd c) = []) →
  resting (ss_cmd c) ∧ Forall resting (ss_workers c).
Proof.
  intros Hnf Hr. destruct c as [n rd pk d rq rs rw ws cw wg ct inc out snt al]. simpl in *. split.
  - destruct cw as [|q|q r| |]; [by left| | | |by right]; exfalso; apply Hnf.
    + eexists. by apply (go_cmd_serve _ _ _ _ _ _ _ _ _ (sshFxpHandlePacket 0 "")).
    + destruct Hr as [Hr|[_ ?]]; [|done]. eexists. by apply go_cmd_ready.
    + eexists. by apply go_cmd_done.
  - apply Forall_forall. intros w (l1 & l2 & ->)%list_elem_of_split.
    destruct w as [|q|q r| |]; [by left| | | |by right]; exfalso; apply Hnf.
    + eexists. by apply (go_rw_serve _ _ _ _ _ _ _ _ _ (sshFxpHandlePacket 0 "")).
    + destruct Hr as [Hr|[Hh ?]]; [eexists; by apply go_rw_ready|].
      exfalso. pose proof (held_middle l1 (WReady q r) l2) as Hp. rewrite Hh in Hp.
      by apply Permutation_nil_l in Hp.
    + eexists. by apply go_rw_done.
Qed.

Lemma resting_held ws : Forall resting ws → held ws = [] ∧ sendings ws = 0.
Proof. induction 1 as [|w ws [->| ->] _ IH]; [done|exact IH..]. Qed.

(** With the controller running, nothing can move only when the channels to
    and from the workers are empty and the workers are idle. *)
Lemma nf_channels c s :
  session_inv c s → nf go_step c → ss_running c = true →
  ss_requests c = [] ∧ ss_responses c = [] ∧ ss_rw c = [] ∧ resting (ss_cmd c) ∧ Forall resting (ss_workers c).
Proof.
  intros [_ _ _ _ _ Hrwx _ _ Hlen _] Hnf Hrun. pose proof (nf_workers c Hnf) as Hrest.
  destruct c as [n rd pk d rq rs rw ws cw wg ct inc out snt al]. simpl in *. subst ct.
  assert (rq = []) as ->.
  { destruct rq as [|q l]; [done|]. exfalso. apply Hnf.
    destruct (sendLoop (Sort (inc ++ [q])) out al) as [[[??]?]?] eqn:E. eexists. by eapply go_ctl_request. }
  assert (rs = []) as ->.
  { destruct rs as [|q l]; [done|]. exfalso. apply Hnf.
    destruct (sendLoop inc (Sort (out ++ [q])) al) as [[[??]?]?] eqn:E. eexists. by eapply go_ctl_response. }
  destruct Hrest as [Hcw Hrest]; [left; unfold room; simpl; unfold SftpServerWorkerCount; lia|].
  split_and!; try done. destruct rw as [|q rw]; [done|]. specialize (Hrwx ltac:(done)).
  destruct ws as [|w ws]; [done|]. apply Forall_cons in Hrest as [[->| ->] _].
  - exfalso. apply Hnf. eexists. by apply (go_rw_recv _ _ _ _ _ _ _ _ []).
  - apply Forall_cons in Hrwx as [Hx _]. by destruct Hx.
Qed.

(** Then the dispatcher and the reader wait for the next packet, and
    everything received is answered. *)
Lemma nf_running c s :
  pm_inv s → session_inv c s → nf go_step c → ss_running c = true →
  quiescent s ∧ ss_reader c = RRecv ∧ ss_working c = 0.
Proof.
  intros Hpm Hsi Hnf Hrun. destruct (nf_channels c s Hsi Hnf Hrun) as (Eq & Er & Ew & Hcw & Hws).
  destruct (resting_held _ Hws) as [Hheld Hsend]. pose proof (inv_working s Hpm) as Hwk.
  destruct Hsi as [[Hn Hpk Hrq Hrs Hrw Hcmd _ _ _ _] Hw _ _ Hexit _ _ _ _ _].
  destruct c as [n rd pk d rq rs rw ws cw wg ct inc out snt al]. simpl in *. rewrite Eq, Er in *. subst rw ct.
  rewrite Hheld, Hsend in *.
  assert (holds cw = [] ∧ sending cw = 0) as [Hh Hs] by (destruct Hcw as [->| ->]; done).
  rewrite Hh, Hs, Hcmd in *. simpl in *.
  assert (Hroom : ∀ A, room (A := A) []) by (intros; unfold room, SftpServerWorkerCount; simpl; lia).
  destruct d as [|q|q|q| |]; simpl in *; [|exfalso; apply Hnf..].
  - apply Permutation_nil_r in Hrw. rewrite Hwk, Hrw in Hw.
    destruct pk as [|q pk]; [|exfalso; apply Hnf; eexists; by apply go_disp_recv].
    destruct rd as [|q|]; [by split_and!|exfalso; apply Hnf; eexists; by apply go_reader_send|].
    exfalso. apply Hnf. eexists. by apply go_disp_end.
  - eexists. apply go_disp_add. intros _. apply Permutation_nil_r in Hrw. by rewrite Hwk, Hrw in Hw.
  - eexists. by apply go_disp_register.
  - destruct (is_rw q.2) eqn:E; [eexists; by apply go_disp_rw|].
    destruct (Hexit eq_refl) as [Ha _]. destruct Hcw as [->| ->]; [|by destruct Ha].
    eexists. by apply go_disp_cmd.
  - apply Permutation_nil_r in Hrw. rewrite Hwk, Hrw in Hw. simpl in Hw. subst wg. eexists. by apply go_disp_fini.
  - eexists. by apply go_ctl_exit.
Qed.

(** Once the controller has returned, nothing can move only when every
    goroutine has returned and no request is left unserved. *)
Lemma nf_stopped c s :
  pm_inv s → session_inv c s → nf go_step c → ss_running c = false →
  ss_reader c = RClosed ∧ ss_disp c = DDone ∧ Forall (λ w, w = WExit) (ss_cmd c :: ss_workers c)
  ∧ ss_working c = 0 ∧ pktChan s = [] ∧ rwChan s = [] ∧ cmdChan s = [].
Proof.
  intros Hpm [[Hn Hpk Hrq Hrs Hrw Hcmd _ _ _ _] Hw _ Hclosed _ _ Hfini Hdr _ _] Hnf Hrun.
  pose proof (nf_workers c Hnf) as Hrest. pose proof (inv_working s Hpm) as Hwk.
  destruct c as [n rd pk d rq rs rw ws cw wg ct inc out snt al]. simpl in *.
  specialize (Hfini Hrun). destruct d; try done. simpl in *.
  destruct Hclosed as [-> ->]; [done|]. rewrite (Hdr eq_refl) in Hwk, Hw.
  assert (rwChan s = [] ∧ cmdChan s = []) as [Er Ec].
  { destruct (rwChan s), (cmdChan s); try done; exfalso; unfold zlen in Hwk; simpl in Hwk; lia. }
  rewrite Er in Hrw. rewrite Ec in Hcmd. apply Permutation_nil_l in Hrw.
  rewrite app_nil_r in Hrw, Hcmd. symmetry in Hrw. apply app_nil in Hrw as [Hheld ->].
  destruct Hrest as [Hcw Hrest]; [by right|]. destruct (resting_held ws Hrest) as [_ Hsend].
  rewrite Hsend in Hw. split_and!; try done; [|by destruct Hcw as [->| ->]].
  constructor.
  - destruct Hcw as [->| ->]; [|done]. exfalso. apply Hnf. eexists. by apply go_cmd_exit.
  - apply Forall_forall. intros w Hin. pose proof (proj1 (Forall_forall _ _) Hrest w Hin) as [->| ->]; [|done].
    apply list_elem_of_split in Hin as (l1 & l2 & ->). exfalso. apply Hnf. eexists. by apply go_rw_exit.
Qed.

Lemma go_step_keeps c c' :
  go_step c c' → (ss_reader c' = RClosed ↔ ss_reader c = RClosed) ∧ ss_count c' = ss_count c.
Proof. by intros []. Qed.

Lemma go_steps_keep c c' :
  rtc go_step c c' → (ss_reader c' = RClosed ↔ ss_reader c = RClosed) ∧ ss_count c' = ss_count c.
Proof. induction 1 as [|c c1 c' [H1 H2]%go_step_keeps _ [IH1 IH2]]; [done|]. rewrite IH1, IH2. done. Qed.

(** ** Theorems *)

(** C40: The goroutines implement the manager. Whatever the scheduler does with
    the reader, the dispatcher, the eight read/write workers, the command
    worker and the controller, over bounded channels and with the wait group
    counted where the code counts it, the session is at every moment a state
    of PacketManager: the same responses have been sent, and no channel holds
    more than its capacity. *)
Theorem session_implements_manager al c :
  session_reachable al c →
  ∃ s, reachable al s ∧ implements c s
    ∧ (length (ss_pkt c) <= SftpServerWorkerCount ∧ length (ss_requests c) <= SftpServerWorkerCount
       ∧ length (ss_responses c) <= SftpServerWorkerCount ∧ length (ss_rw c) <= SftpServerWorkerCount)%nat.
Proof. intros (s & Hs & Hsi)%session_reachable_inv. exists s. split_and!; try done; apply Hsi. Qed.

(** C24: Every received request is answered, with the channels at their
    capacity and the wait group as in the code. From any reachable state every
    schedule of the goroutines ends unless more input arrives. If the input is
    still open, then when none of them can move all received requests have
    been answered, in order, nothing is queued and the wait group is back at
    zero: no deadlock and no lost response. If the input has ended, every
    goroutine has returned, and each request has been served and has exactly
    one response; the controller may have returned before sending the last of
    them, but what was sent answers the requests 1, 2, ..., n. [sendPacket] and
    the request handlers are taken to return, and the order ids not to wrap
    around: fewer than 2^32 packets have arrived. *)
Theorem session_requests_answered al c :
  session_reachable al c →
  sn go_step c ∧
  ∀ c', rtc go_step c c' → nf go_step c' →
    (ss_reader c ≠ RClosed →
       (ss_sent c').*1 = seqZ 1 (ss_count c) ∧ ss_incoming c' = [] ∧ ss_outgoing c' = []
       ∧ ss_working c' = 0 ∧ ss_reader c' = RRecv) ∧
    (ss_reader c = RClosed →
       ss_disp c' = DDone ∧ Forall (λ w, w = WExit) (ss_cmd c' :: ss_workers c') ∧ ss_running c' = false
       ∧ ss_working c' = 0
       ∧ (ss_sent c').*1 ++ (ss_responses c').*1 ++ (ss_outgoing c').*1 ≡ₚ seqZ 1 (ss_count c)
       ∧ ∃ m, (ss_sent c').*1 = seqZ 1 m).
Proof.
  intros (s & Hs & Hsi)%session_reachable_inv. split; [apply go_step_sn|]. intros c' Hst Hnf.
  destruct (go_steps_keep c c' Hst) as [Hrd <-].
  destruct (go_steps_simulated c c' s Hst) as (s' & Hst' & Hpm & Hsi'); [by eapply reachable_inv|done|].
  destruct (si_implements c' s' Hsi') as [Hn Hpk Hrq Hrs Hrw Hcmd Hinc Hout Hsnt Hal].
  rewrite <- Hrs, <- Hn, <- Hinc, <- Hout, <- Hsnt, <- Hrd. destruct (ss_running c') eqn:Hrun.
  - destruct (nf_running c' s' Hpm Hsi' Hnf Hrun) as (Hq & Hr & Hw). rewrite Hr. split; [|done].
    intros _. destruct (quiescent_all_sent s' Hpm Hq) as (? & ? & ? & _). by split_and!.
  - destruct (nf_stopped c' s' Hpm Hsi' Hnf Hrun) as (Hr & Hd & Hx & Hw & E1 & E2 & E3).
    rewrite Hr. split; [done|]. intros _. split_and!; try done.
    + pose proof (inv_flight s' Hpm) as Hf. pose proof (inv_order s' Hpm) as Ho.
      rewrite E2, E3 in Hf. simpl in Hf. rewrite E1, app_nil_r in Ho. by rewrite Hf, Ho.
    + exists (zlen (sent s')). apply inv_sent_order; done.
Qed.

(** ** Witnesses *)
(** A write has reached [pktChan] and the CLOSE behind it is being sent. *)
Definition demo_session : session :=
  MkSession 2 (RSend (2, demo_close)) [(1, demo_write)] DIdle [] [] [] (replicate 8 WIdle) WIdle 0 true
    [] [] [] None.

Lemma demo_session_reachable : session_reachable None demo_session.
Proof.
  unfold session_reachable, newSession.
  eapply rtc_l; [apply (ss_recv _ demo_write); lia|].
  eapply rtc_l; [apply ss_go, go_reader_send; unfold room, SftpServerWorkerCount; simpl; lia|].
  eapply rtc_l; [apply (ss_recv _ demo_close); vm_compute; reflexivity|]. apply rtc_refl.
Qed.

(** Both are answered, and all goroutines wait. *)
Definition demo_answered : session :=
  MkSession 2 RRecv [] DIdle [] [] [] (replicate 8 WIdle) WIdle 0 true [] []
    [(1, demo_response); (2, demo_response)] None.

Ltac channel := unfold room, SftpServerWorkerCount; simpl; lia.

Lemma demo_session_runs : rtc go_step demo_session demo_answered.
Proof.
  unfold demo_session, demo_answered, replicate.
  eapply rtc_l; [apply go_reader_send; channel|].
  eapply rtc_l; [apply go_disp_recv|].
  eapply rtc_l; [apply go_disp_add; done|].
  eapply rtc_l; [apply go_disp_register; channel|].
  eapply rtc_l; [apply go_disp_rw; [done|channel]|].
  eapply rtc_l; [by apply go_ctl_request|].
  eapply rtc_l; [apply (go_rw_recv _ _ _ _ _ _ _ _ [])|].
  eapply rtc_l; [apply (go_rw_serve _ _ _ _ _ _ _ [] _ demo_response)|].
  eapply rtc_l; [apply (go_rw_ready _ _ _ _ _ _ _ []); channel|].
  eapply rtc_l; [by apply go_ctl_response|].
  eapply rtc_l; [apply (go_rw_done _ _ _ _ _ _ _ [])|].
  eapply rtc_l; [apply go_disp_recv|].
  eapply rtc_l; [apply go_disp_add; done|].
  eapply rtc_l; [apply go_disp_register; channel|].
  eapply rtc_l; [apply go_disp_cmd; done|].
  eapply rtc_l; [by apply go_ctl_request|].
  eapply rtc_l; [apply (go_cmd_serve _ _ _ _ _ _ _ _ _ demo_response)|].
  eapply rtc_l; [apply go_cmd_ready; channel|].
  eapply rtc_l; [by apply go_ctl_response|].
  eapply rtc_l; [apply go_cmd_done|]. apply rtc_refl.
Qed.

Lemma demo_answered_nf : nf go_step demo_answered.
Proof.
  assert (∀ l1 w l2, replicate 8 WIdle = l1 ++ w :: l2 → w = WIdle) as Hw.
  { intros l1 w l2 E. assert (w ∈ replicate 8 WIdle) as [? _]%elem_of_replicate by (rewrite E; set_solver). done. }
  intros [c Hst]. unfold demo_answered in Hst. inversion Hst; simplify_eq/=;
    match goal with E : _ = _ ++ _ :: _ |- _ => by apply Hw in E | E : _ ++ _ :: _ = _ |- _ => symmetry in E; by apply Hw in E end.
Qed.

Lemma session_requests_answered_witness :
  sn go_step demo_session ∧ (ss_sent demo_answered).*1 = seqZ 1 2 ∧ ss_working demo_answered = 0.
Proof.
  destruct (session_requests_answered None demo_session demo_session_reachable) as [Hsn H].
  destruct (H demo_answered demo_session_runs demo_answered_nf) as [Ho _].
  destruct Ho as (Hs & _ & _ & Hw & _); [discriminate|]. exact (conj Hsn (conj Hs Hw)).
Defined.

Lemma session_implements_manager_witness : ∃ s, reachable None s ∧ implements demo_session s.
Proof.
  destruct (session_implements_manager None demo_session demo_session_reachable) as (s & Hs & Hi & _).
  exact (ex_intro _ s (conj Hs Hi)).
Defined.

(** The wait group does not cover the controller: [close] returns as soon as
    the last response is on the channel, so a controller that is slow to
    receive it may find [fini] closed first and drop it. *)
Example shutdown_drops_response : ∃ c,
  session_reachable None c ∧ ss_count c = 1 ∧ ss_running c = false ∧ ss_sent c = []
  ∧ ss_responses c = [(1, demo_response)].
Proof.
  eexists. split.
  { unfold session_reachable, newSession.
    eapply rtc_l; [apply (ss_recv _ demo_close); lia|].
    eapply rtc_l; [apply ss_go, go_reader_send; channel|].
    eapply rtc_l; [apply ss_eof|].
    eapply rtc_l; [apply ss_go, go_disp_recv|].
    eapply rtc_l; [apply ss_go, go_disp_add; done|].
    eapply rtc_l; [apply ss_go, go_disp_register; channel|].
    eapply rtc_l; [apply ss_go, go_disp_cmd; done|].
    eapply rtc_l; [apply ss_go, (go_cmd_serve _ _ _ _ _ _ _ _ _ demo_response)|].
    eapply rtc_l; [apply ss_go, go_cmd_ready; channel|].
    eapply rtc_l; [apply ss_go, go_cmd_done|].
    eapply rtc_l; [apply ss_go, go_disp_end|].
    eapply rtc_l; [apply ss_go, go_disp_fini|].
    eapply rtc_l; [apply ss_go, go_ctl_exit; done|]. apply rtc_refl. }
  done.
Qed.
