(* ===== verification/GoPath.v ===== *)
(** * Slash-separated paths: Go's [path], [path/filepath] (Unix) and the parts
    of [strings] the server uses on them, and [cleanPath] of
    sftp/request-server.go.

    [Clean] is modelled by its documented rules on the list of components
    between slashes; the Go implementation does the same in one pass over the
    bytes. *)
From Stdlib Require Import Ascii.
From stdpp Require Import base tactics option list strings.
From Stdlib Require Import ZArith Lia.
From S2P Require Import Prelude.

Definition slash : Ascii.ascii := "/"%char.

(** ** package strings *)
Fixpoint strings_Split (s : string) (sep : Ascii.ascii) : list string :=
  match s with
  | EmptyString => [EmptyString]
  | String c s' =>
      if decide (c = sep) then EmptyString :: strings_Split s' sep
      else match strings_Split s' sep with
           | [] => [String c EmptyString]
           | h :: t => String c h :: t
           end
  end.

Fixpoint strings_Join (l : list string) (sep : Ascii.ascii) : string :=
  match l with
  | [] => EmptyString
  | [s] => s
  | s :: l => s +:+ String sep (strings_Join l sep)
  end.

Definition strings_HasPrefix (s pre : string) : bool := String.prefix pre s.
(** [strings.Index(s, sub) >= 0] *)
Fixpoint strings_Contains (s sub : string) : bool :=
  strings_HasPrefix s sub ||
  match s with EmptyString => false | String _ s => strings_Contains s sub end.

Fixpoint strings_HasSuffixChar (s : string) (c : Ascii.ascii) : bool :=
  match s with
  | EmptyString => false
  | String c' EmptyString => bool_decide (c' = c)
  | String _ s' => strings_HasSuffixChar s' c
  end.

(** [strings.Index(s, c)] for a one-character needle; -1 if absent. *)
Fixpoint strings_IndexChar (s : string) (c : Ascii.ascii) : Z :=
  match s with
  | EmptyString => -1
  | String c' s' =>
      if decide (c' = c) then 0
      else let i := strings_IndexChar s' c in if i <? 0 then -1 else i + 1
  end.

(** ** package path/filepath *)
Definition IsAbs (p : string) : bool :=
  match p with String c _ => bool_decide (c = slash) | EmptyString => false end.

(** One component of the path, with the components kept so far in reverse. *)
Definition clean_step (rooted : bool) (out : list string) (c : string) : list string :=
  if bool_decide (c = EmptyString) || bool_decide (c = "."%string) then out
  else if bool_decide (c = ".."%string) then
    match out with
    | [] => if rooted then [] else [".."%string]
    | top :: rest => if bool_decide (top = ".."%string) then ".."%string :: out else rest
    end
  else c :: out.

Definition clean_comps (rooted : bool) (l : list string) : list string :=
  rev (foldl (clean_step rooted) [] l).

Definition Clean (p : string) : string :=
  let s := strings_Join (clean_comps (IsAbs p) (strings_Split p slash)) slash in
  if IsAbs p then String slash s
  else if bool_decide (s = EmptyString) then "."%string else s.

Definition Join (elems : list string) : string :=
  match filter (λ e, e ≠ EmptyString) elems with
  | [] => EmptyString
  | l => Clean (strings_Join l slash)
  end.

(** Everything before the last slash, and what follows it. *)
Definition split_last (p : string) : option string * string :=
  match rev (strings_Split p slash) with
  | [] => (None, p)
  | [s] => (None, s)
  | s :: l => (Some (strings_Join (rev l) slash), s)
  end.

Definition Dir (p : string) : string :=
  match split_last p with
  | (None, _) => Clean EmptyString
  | (Some d, _) => Clean (d +:+ String slash EmptyString)
  end.

(** The last component, trailing slashes removed. *)
Definition Base (p : string) : string :=
  if bool_decide (p = EmptyString) then "."%string
  else match rev (filter (λ c, c ≠ EmptyString) (strings_Split p slash)) with
       | [] => String slash EmptyString
       | s :: _ => s
       end.

(** [filepath.Rel] for clean arguments: the common prefix is dropped, and each
    component left of the base becomes a "..". *)
Fixpoint rel_comps (b t : list string) : option (list string) :=
  match b, t with
  | x :: b', y :: t' => if bool_decide (x = y) then rel_comps b' t'
                        else if bool_decide (".."%string ∈ b) then None
                        else Some (map (λ _, ".."%string) b ++ t)
  | _, _ => if bool_decide (".."%string ∈ b) then None
            else Some (map (λ _, ".."%string) b ++ t)
  end.
(** The components of a clean path: none for "/" and ".". *)
Definition path_comps (p : string) : list string :=
  filter (λ c, c ≠ EmptyString ∧ c ≠ "."%string) (strings_Split p slash).
Definition Rel (basepath targpath : string) : result string :=
  let base := Clean basepath in
  let targ := Clean targpath in
  if bool_decide (base = targ) then Ok "."%string
  else if negb (Bool.eqb (IsAbs base) (IsAbs targ)) then
    Err (EMsg ("Rel: can't make " +:+ targpath +:+ " relative to " +:+ basepath))
  else match rel_comps (path_comps base) (path_comps targ) with
       | None => Err (EMsg ("Rel: can't make " +:+ targpath +:+ " relative to " +:+ basepath))
       | Some l => Ok (strings_Join l slash)
       end.

(** ** sftp/request-server.go: cleanPath *)
Definition cleanPath (p : string) : string :=
  Clean (if IsAbs p then p else String slash p).

(** ** Splitting and joining *)
Fixpoint no_char (c : Ascii.ascii) (s : string) : Prop :=
  match s with EmptyString => True | String c' s' => c' ≠ c ∧ no_char c s' end.

Lemma strings_Split_nonempty s sep : strings_Split s sep ≠ [].
Proof. destruct s as [|c s]; simpl; [done|]. repeat case_match; done. Qed.

Lemma strings_Split_no_char s sep : Forall (no_char sep) (strings_Split s sep).
Proof.
  induction s as [|c s IH]; simpl; [by repeat constructor|].
  case_decide; [by constructor|]. destruct (strings_Split s sep) as [|h t].
  - by repeat constructor.
  - inv IH. by constructor.
Qed.

Lemma strings_Split_single s sep : no_char sep s → strings_Split s sep = [s].
Proof.
  induction s as [|c s IH]; simpl; [done|]. intros [Hc Hs].
  rewrite decide_False by done. by rewrite IH.
Qed.

Lemma strings_Split_app_sep a b sep :
  no_char sep a → strings_Split (a +:+ String sep b) sep = a :: strings_Split b sep.
Proof.
  induction a as [|c a IH]; simpl; [by rewrite decide_True by done|].
  intros [Hc Ha]. rewrite decide_False by done. by rewrite IH.
Qed.

Lemma strings_Split_Join l sep :
  l ≠ [] → Forall (no_char sep) l → strings_Split (strings_Join l sep) sep = l.
Proof.
  intros Hl Hf. induction Hf as [|s l Hs Hf IH]; [done|]. destruct l as [|s' l].
  - simpl. by apply strings_Split_single.
  - change (strings_Join (s :: s' :: l) sep) with (s +:+ String sep (strings_Join (s' :: l) sep)).
    rewrite strings_Split_app_sep by done. by rewrite IH.
Qed.

(** ** Normal components: what is left of a cleaned absolute path *)
Definition normal (c : string) : Prop :=
  c ≠ EmptyString ∧ c ≠ "."%string ∧ c ≠ ".."%string ∧ no_char slash c.

(** The absolute path with the given components. *)
Definition abs_path (l : list string) : string := String slash (strings_Join l slash).

Lemma clean_step_normal r out c :
  no_char slash c → Forall normal out → r = true → Forall normal (clean_step r out c).
Proof.
  intros Hc Hout ->. unfold clean_step. repeat case_bool_decide; simpl; try done.
  - destruct Hout; [done|]. case_bool_decide; [|done]. destruct H2 as (_ & _ & ? & _). done.
  - constructor; [|done]. done.
Qed.

Lemma foldl_clean_normal l out :
  Forall (no_char slash) l → Forall normal out → Forall normal (foldl (clean_step true) out l).
Proof.
  revert out. induction l as [|c l IH]; intros out Hl Hout; simpl; [done|].
  inv Hl. apply IH; [done|]. by apply clean_step_normal.
Qed.

Lemma clean_comps_normal l : Forall (no_char slash) l → Forall normal (clean_comps true l).
Proof. intros Hl. unfold clean_comps. apply Forall_rev. by apply foldl_clean_normal. Qed.

Lemma clean_step_push r out c : normal c → clean_step r out c = c :: out.
Proof. intros (? & ? & ? & ?). unfold clean_step. by rewrite !bool_decide_false. Qed.

Lemma foldl_clean_id r l out : Forall normal l → foldl (clean_step r) out l = rev l ++ out.
Proof.
  intros Hl. revert out. induction Hl as [|c l Hc _ IH]; intros out; simpl; [done|].
  rewrite IH, clean_step_push by done. by rewrite <- app_assoc.
Qed.

Lemma clean_comps_app r l k :
  Forall normal l → clean_comps r (l ++ k) = rev (foldl (clean_step r) (rev l) k).
Proof. intros Hl. unfold clean_comps. by rewrite foldl_app, (foldl_clean_id r l []), app_nil_r. Qed.

Lemma clean_comps_id r l : Forall normal l → clean_comps r l = l.
Proof.
  intros Hl. rewrite <- (app_nil_r l) at 1. rewrite clean_comps_app by done. simpl. apply rev_involutive.
Qed.

Lemma normal_no_slash l : Forall normal l → Forall (no_char slash) l.
Proof. intros Hl. eapply Forall_impl; [exact Hl|]. by intros c (_ & _ & _ & ?). Qed.

Lemma Split_abs_path l :
  Forall normal l → clean_comps true (strings_Split (abs_path l) slash) = l.
Proof.
  intros Hl. unfold abs_path. simpl. unfold clean_comps. simpl.
  destruct l as [|c l]; [done|]. rewrite strings_Split_Join by (done || by apply normal_no_slash).
  fold (clean_comps true (c :: l)). by apply clean_comps_id.
Qed.

Lemma Clean_abs p : IsAbs p = true →
  Clean p = abs_path (clean_comps true (strings_Split p slash)).
Proof. intros Hp. unfold Clean. by rewrite Hp. Qed.

Lemma Clean_abs_path l : Forall normal l → Clean (abs_path l) = abs_path l.
Proof. intros Hl. rewrite Clean_abs by done. by rewrite Split_abs_path. Qed.

Lemma Clean_abs_normal p : IsAbs p = true → ∃ l, Forall normal l ∧ Clean p = abs_path l.
Proof.
  intros Hp. exists (clean_comps true (strings_Split p slash)).
  split; [apply clean_comps_normal, strings_Split_no_char|by apply Clean_abs].
Qed.

Lemma cleanPath_normal p : ∃ l, Forall normal l ∧ cleanPath p = abs_path l.
Proof. unfold cleanPath. apply Clean_abs_normal. by destruct (IsAbs p) eqn:E. Qed.

(** ** Joining below a clean absolute directory *)
Lemma strings_Split_app a b sep :
  strings_Split (a +:+ String sep b) sep = strings_Split a sep ++ strings_Split b sep.
Proof.
  induction a as [|c a IH]; simpl; [by rewrite decide_True by done|].
  case_decide; [by rewrite IH|]. rewrite IH.
  destruct (strings_Split a sep) eqn:E; [by destruct (strings_Split_nonempty a sep)|done].
Qed.

Lemma foldl_clean_abs_path h out :
  Forall normal h → foldl (clean_step true) out (strings_Split (abs_path h) slash) = rev h ++ out.
Proof.
  intros Hh. unfold abs_path. simpl. destruct h as [|c h]; [done|].
  rewrite strings_Split_Join by (done || by apply normal_no_slash). by apply foldl_clean_id.
Qed.

Lemma Join_home h p :
  Forall normal h →
  Join [abs_path h; p] = abs_path (rev (foldl (clean_step true) (rev h) (strings_Split p slash))).
Proof.
  intros Hh. unfold Join. rewrite filter_cons_True by done.
  destruct (decide (p = EmptyString)) as [->|Hp].
  - rewrite filter_cons_False by (intros ?; done). simpl filter. simpl strings_Join.
    change (foldl (clean_step true) (rev h) (strings_Split EmptyString slash)) with (rev h).
    by rewrite Clean_abs_path, rev_involutive.
  - rewrite filter_cons_True, filter_nil by done.
    change (strings_Join (abs_path h :: [p]) slash) with (abs_path h +:+ String slash p).
    rewrite Clean_abs by done. unfold clean_comps.
    rewrite strings_Split_app, foldl_app, foldl_clean_abs_path, app_nil_r by done. done.
Qed.

Lemma Join_home_clean h l :
  Forall normal h → Forall normal l → Join [abs_path h; abs_path l] = abs_path (h ++ l).
Proof.
  intros Hh Hl. rewrite Join_home by done. rewrite foldl_clean_abs_path by done.
  by rewrite <- rev_app_distr, rev_involutive.
Qed.

Lemma Join_home_comp h c :
  Forall normal h → normal c → Join [abs_path h; c] = abs_path (h ++ [c]).
Proof.
  intros Hh Hc. rewrite Join_home, strings_Split_single by (done || by apply Hc). simpl.
  rewrite clean_step_push by done. simpl. by rewrite rev_involutive.
Qed.

Lemma strings_Join_snoc l c : l ≠ [] →
  strings_Join (l ++ [c]) slash = strings_Join l slash +:+ String slash c.
Proof.
  induction l as [|x l IH]; [done|]. intros _. destruct l as [|y l]; [done|].
  change ((x :: y :: l) ++ [c]) with (x :: (y :: l) ++ [c]).
  change (strings_Join (x :: (y :: l) ++ [c]) slash)
    with (x +:+ String slash (strings_Join ((y :: l) ++ [c]) slash)).
  rewrite IH by done.
  change (strings_Join (x :: y :: l) slash) with (x +:+ String slash (strings_Join (y :: l) slash)).
  by rewrite <- string_app_assoc.
Qed.

Lemma strings_Split_abs_snoc l c :
  Forall normal l → normal c →
  strings_Split (abs_path (l ++ [c])) slash = EmptyString :: l ++ [c].
Proof.
  intros Hl Hc. unfold abs_path. simpl.
  rewrite strings_Split_Join; [done|by destruct l|].
  apply normal_no_slash, Forall_app. by repeat constructor; try apply Hc.
Qed.

Lemma Dir_abs_path l c :
  Forall normal l → normal c → Dir (abs_path (l ++ [c])) = abs_path l.
Proof.
  intros Hl Hc. unfold Dir, split_last. rewrite strings_Split_abs_snoc by done.
  rewrite app_comm_cons, rev_app_distr. simpl rev at 1. simpl.
  destruct (rev l ++ [EmptyString]) as [|x k] eqn:E; [by destruct (rev l)|].
  rewrite <- E, rev_app_distr, rev_involutive. simpl.
  destruct l as [|y l]; [done|].
  change ((EmptyString +:+ String slash (strings_Join (y :: l) slash)) +:+ String slash EmptyString)
    with (abs_path (y :: l) +:+ String slash EmptyString).
  rewrite Clean_abs by done. unfold clean_comps.
  rewrite strings_Split_app, foldl_app, foldl_clean_abs_path, app_nil_r by done.
  change (strings_Split EmptyString slash) with [EmptyString]. cbn [foldl].
  change (clean_step true (rev (y :: l)) EmptyString) with (rev (y :: l)).
  by rewrite rev_involutive.
Qed.

Lemma Dir_root : Dir (abs_path []) = abs_path [].
Proof. reflexivity. Qed.

Lemma Base_abs_path l c :
  Forall normal l → normal c → Base (abs_path (l ++ [c])) = c.
Proof.
  intros Hl Hc. unfold Base. rewrite bool_decide_false by done.
  rewrite strings_Split_abs_snoc, filter_cons_False, filter_app by (done || naive_solver).
  rewrite filter_cons_True by apply Hc. by rewrite rev_app_distr.
Qed.

(** ** Containment below a directory *)
Lemma prefix_app (a b : string) : String.prefix a (a +:+ b) = true.
Proof. induction a as [|x a IH]; simpl; [by destruct b|]. by destruct (ascii_dec x x). Qed.

Lemma prefix_rest pre s : String.prefix pre s = true → s = pre +:+ String.substring (String.length pre) (String.length s - String.length pre) s.
Proof.
  revert s. induction pre as [|c pre IH]; intros s Hp; simpl.
  - rewrite Nat.sub_0_r. clear Hp. change (s = String.substring 0 (String.length s) s).
    induction s as [|x s IHs]; [done|]. cbn [String.length String.substring]. by f_equal.
  - destruct s as [|x s]; [done|]. simpl in Hp. destruct (Ascii.ascii_dec c x) as [->|]; [|done].
    change (String x s = String x (pre +:+ String.substring (String.length pre) (String.length s - String.length pre) s)). f_equal. by apply IH.
Qed.
Lemma prefix_substring pre s : String.substring (String.length pre) (String.length (pre +:+ s) - String.length pre) (pre +:+ s) = s.
Proof.
  pose proof (prefix_rest pre (pre +:+ s) (prefix_app pre s)) as E. apply (inj (String.append pre)). by rewrite <- E.
Qed.

Lemma abs_path_app h l : h ≠ [] → l ≠ [] → abs_path (h ++ l) = abs_path h +:+ abs_path l.
Proof.
  intros Hh Hl. unfold abs_path.
  induction h as [|x h IH]; [done|]. destruct h as [|y h].
  - destruct l; [done|]. done.
  - change (strings_Join ((x :: y :: h) ++ l) slash)
      with (x +:+ String slash (strings_Join ((y :: h) ++ l) slash)).
    rewrite IH by done.
    exact (f_equal (String slash) (string_app_assoc x (String slash (strings_Join (y :: h) slash)) _)).
Qed.

Lemma abs_path_prefix h l : strings_HasPrefix (abs_path (h ++ l)) (abs_path h) = true.
Proof.
  unfold strings_HasPrefix. destruct h as [|x h]; [exact (prefix_app (String slash EmptyString) (strings_Join l slash))|].
  destruct l as [|y l]; [rewrite app_nil_r|].
  - pattern (abs_path (x :: h)) at 2. rewrite <- (string_app_nil_r (abs_path (x :: h))).
    apply prefix_app.
  - rewrite abs_path_app by done. apply prefix_app.
Qed.

(** What a comparison of path strings says about their components: a path that
    starts with the text of a directory is inside the directory, or inside
    something beside it whose name continues the directory's. *)
Definition in_dir (h l : list string) : Prop := ∃ rest, l = h ++ rest.
Definition beside_dir (h l : list string) : Prop :=
  ∃ h0 x s rest, h = h0 ++ [x] ∧ s ≠ EmptyString ∧ l = h0 ++ (x +:+ s) :: rest.

Lemma no_char_app sep a b : no_char sep (a +:+ b) ↔ no_char sep a ∧ no_char sep b.
Proof.
  induction a as [|c a IH]; [simpl; naive_solver|].
  change (c ≠ sep ∧ no_char sep (a +:+ b) ↔ (c ≠ sep ∧ no_char sep a) ∧ no_char sep b). rewrite IH. tauto.
Qed.

Lemma no_char_prefix sep x y rest t :
  no_char sep x → no_char sep y → rest = EmptyString ∨ (∃ r, rest = String sep r) →
  y +:+ rest = x +:+ t → ∃ s, y = x +:+ s ∧ t = s +:+ rest.
Proof.
  revert y. induction x as [|c x IH]; intros y Hx Hy Hr E; [by exists y|].
  destruct Hx as [Hc Hx]. destruct y as [|c' y].
  - exfalso. destruct Hr as [->|(r & ->)]; [done|]. by injection E as -> _.
  - destruct Hy as [_ Hy]. injection E as <- E. destruct (IH y Hx Hy Hr E) as (s & -> & ->). by exists s.
Qed.

Lemma Join_prefix h l t :
  h ≠ [] → Forall normal h → Forall normal l → strings_Join l slash = strings_Join h slash +:+ t →
  in_dir h l ∨ beside_dir h l.
Proof.
  revert l t. induction h as [|x h IH]; intros l t Hne Hh Hl E; [done|]. clear Hne.
  apply Forall_cons in Hh as [(Hx0 & _ & _ & Hx) Hh].
  destruct l as [|y l]; [by destruct x, h|]. apply Forall_cons in Hl as [(_ & _ & _ & Hy) Hl].
  set (tail l := match l with [] => EmptyString | _ => String slash (strings_Join l slash) end).
  assert (∀ z k, strings_Join (z :: k) slash = z +:+ tail k) as HJ.
  { intros z [|? ?]; [symmetry; apply string_app_nil_r|done]. }
  assert (∀ k, tail k = EmptyString ∨ ∃ r, tail k = String slash r) as Ht by (intros [|? ?]; simpl; eauto).
  rewrite !HJ, <- string_app_assoc in E.
  destruct (no_char_prefix slash x y (tail l) _ Hx Hy (Ht l) E) as (s & -> & E').
  destruct s as [|c s].
  - rewrite string_app_nil_r in *. destruct h as [|x' h]; [left; by exists l|].
    destruct l as [|y' l]; [done|]. injection E' as E'. symmetry in E'.
    destruct (IH (y' :: l) t) as [(rest & ->)|(h0 & z & s & rest & Eh & Hs & ->)]; [done..|left; by exists rest|].
    right. exists (x :: h0), z, s, rest. by rewrite Eh.
  - destruct h as [|x' h]; [|exfalso].
    + right. exists [], x, (String c s), l. done.
    + injection E' as <- _. apply no_char_app in Hy as [_ [Hs _]]. by destruct Hs.
Qed.

Lemma HasPrefix_components h l :
  Forall normal h → Forall normal l → strings_HasPrefix (abs_path l) (abs_path h) = true →
  in_dir h l ∨ beside_dir h l.
Proof.
  intros Hh Hl E%prefix_rest. destruct h as [|x h]; [left; by exists l|].
  unfold abs_path in E at 1. revert E. generalize (String.substring (String.length (abs_path (x :: h)))
    (String.length (abs_path l) - String.length (abs_path (x :: h))) (abs_path l)). intros t E.
  apply (Join_prefix (x :: h) l t); try done. unfold abs_path in E. cbn [String.append] in E. by injection E.
Qed.

(** ** General idempotence of [Clean] *)

(** A reversed, cleaned relative path: normal components on top of ".."s. *)
Definition rel_shape (out : list string) : Prop :=
  ∃ l n, Forall normal l ∧ out = l ++ replicate n ".."%string.

Lemma clean_step_rel out c :
  no_char slash c → rel_shape out → rel_shape (clean_step false out c).
Proof.
  intros Hc (l & n & Hl & ->). unfold clean_step. repeat case_bool_decide; simpl; try by exists l, n.
  - destruct l as [|x l]; simpl.
    + destruct n as [|n]; simpl; [by exists [], 1%nat|].
      by exists [], (S (S n)).
    + inv Hl. rewrite bool_decide_false by apply H4. by exists l, n.
  - exists (c :: l), n. split; [|done]. by constructor.
Qed.

Lemma foldl_clean_rel l out :
  Forall (no_char slash) l → rel_shape out → rel_shape (foldl (clean_step false) out l).
Proof.
  revert out. induction l as [|c l IH]; intros out Hl Hout; simpl; [done|].
  inv Hl. apply IH; [done|]. by apply clean_step_rel.
Qed.

Lemma rev_replicate {A} n (x : A) : rev (replicate n x) = replicate n x.
Proof. rewrite rev_alt. apply reverse_replicate. Qed.

Lemma foldl_clean_rel_id l n :
  Forall normal l →
  foldl (clean_step false) [] (replicate n ".."%string ++ l) = rev l ++ replicate n ".."%string.
Proof.
  intros Hl. rewrite foldl_app, foldl_clean_id by done. f_equal.
  induction n as [|n IH]; [done|]. rewrite replicate_S_end at 1. rewrite foldl_app, IH. simpl.
  destruct n as [|n]; [done|]. done.
Qed.

Lemma IsAbs_Join_normal l n : Forall normal l → IsAbs (strings_Join (replicate n ".."%string ++ l) slash) = false.
Proof.
  intros Hl. destruct n as [|n].
  - simpl. destruct Hl as [|c l Hc _]; [done|]. destruct c as [|a c]; [by destruct Hc|].
    destruct Hc as (_ & _ & _ & Ha & _).
    destruct l; simpl; by rewrite bool_decide_false.
  - simpl. by destruct (replicate n ".."%string ++ l).
Qed.

Lemma Clean_rel_idem l n :
  Forall normal l → replicate n ".."%string ++ l ≠ [] →
  Clean (strings_Join (replicate n ".."%string ++ l) slash) = strings_Join (replicate n ".."%string ++ l) slash.
Proof.
  intros Hl Hne. unfold Clean. rewrite IsAbs_Join_normal by done.
  assert (Hns : Forall (no_char slash) (replicate n ".."%string ++ l)).
  { apply Forall_app. split; [by apply Forall_replicate|by apply normal_no_slash]. }
  rewrite strings_Split_Join by done. unfold clean_comps. rewrite foldl_clean_rel_id by done.
  rewrite rev_app_distr, rev_involutive, rev_replicate.
  rewrite bool_decide_false; [done|]. intros He.
  apply (f_equal (λ s, strings_Split s slash)) in He. rewrite strings_Split_Join in He by done.
  destruct n as [|n]; simpl in *.
  - rewrite He, Forall_singleton in Hl. by destruct Hl as [Hl _].
  - done.
Qed.

(** [Clean] is idempotent: cleaning a cleaned path, absolute or relative,
    changes nothing. *)
Theorem Clean_idempotent p : Clean (Clean p) = Clean p.
Proof.
  destruct (IsAbs p) eqn:Hp.
  - destruct (Clean_abs_normal p Hp) as (l & Hl & ->). by apply Clean_abs_path.
  - unfold Clean at 2 3. rewrite Hp. case_bool_decide as He; [done|].
    destruct (foldl_clean_rel (strings_Split p slash) [] (strings_Split_no_char p slash))
      as (l & n & Hl & Hout); [by exists [], 0%nat|].
    unfold clean_comps in *. rewrite Hout in *.
    rewrite rev_app_distr, rev_replicate in *.
    apply Clean_rel_idem; [by apply Forall_rev|]. intros Hn. by rewrite Hn in He.
Qed.

(** The path a client names is normalised before any handler sees it:
    whatever bytes the client sends, [cleanPath] yields an absolute path whose
    components are non-empty and neither "." nor "..", so joining it to a home
    directory appends those components and cannot climb out of it. *)
Theorem cleanPath_confined raw h :
  Forall normal h →
  ∃ l, Forall normal l ∧ cleanPath raw = abs_path l
    ∧ Join [abs_path h; cleanPath raw] = abs_path (h ++ l)
    ∧ strings_HasPrefix (Join [abs_path h; cleanPath raw]) (abs_path h) = true.
Proof.
  intros Hh. destruct (cleanPath_normal raw) as (l & Hl & E). exists l.
  rewrite E, Join_home_clean by done. split_and!; auto using abs_path_prefix.
Qed.

Lemma cleanPath_confined_witness :
  Join ["/home/user"; cleanPath "../../etc/./passwd"]%string = "/home/user/etc/passwd"%string
  ∧ ∃ l, Forall normal l ∧ cleanPath "../../etc/./passwd" = abs_path l
    ∧ Join [abs_path ["home"; "user"]; cleanPath "../../etc/./passwd"]%string
      = abs_path (["home"; "user"]%string ++ l)
    ∧ strings_HasPrefix (Join [abs_path ["home"; "user"]; cleanPath "../../etc/./passwd"]%string)
        (abs_path ["home"; "user"]%string) = true.
Proof.
  split; [reflexivity|]. apply cleanPath_confined.
  repeat constructor; discriminate.
Defined.
