(* ===== verification/GoStrconv.v ===== *)
(** * Number and byte formatting from Go's [strconv], [fmt] and
    [encoding/base64], as the server uses them *)
From Stdlib Require Import Ascii.
From stdpp Require Import base tactics option list strings numbers pretty.
From Stdlib Require Import ZArith Lia.
From S2P Require Import Prelude.

(** ** Decimal integers *)

(** [strconv.Itoa], and [%d] of [fmt]. *)
Definition Itoa (n : Z) : string := pretty n.

Definition digit_of (c : ascii) : option Z :=
  let n := Z.of_N (N_of_ascii c) in
  if (48 <=? n) && (n <=? 57) then Some (n - 48) else None.

(** All of the string is digits. *)
Fixpoint parse_digits (s : string) (acc : Z) : option Z :=
  match s with
  | EmptyString => Some acc
  | String c s => d ← digit_of c; parse_digits s (10 * acc + d)
  end.

(** [strconv.ParseInt(s, 10, 64)] and [strconv.Atoi]: an optional sign, at
    least one digit, nothing else, and within the range of [int64]. *)
Definition ParseInt (s : string) : result Z :=
  let invalid := Err (EMsg ("strconv: parsing " +:+ s +:+ ": invalid syntax")) in
  let range := Err (EMsg ("strconv: parsing " +:+ s +:+ ": value out of range")) in
  let '(neg, body) :=
    match s with
    | String "-" b => (true, b)
    | String "+" b => (false, b)
    | _ => (false, s)
    end in
  match body with
  | EmptyString => invalid
  | _ =>
      match parse_digits body 0 with
      | None => invalid
      | Some n => let v := if (neg : bool) then - n else n in if decide (is_i64 v) then Ok v else range
      end
  end.
Definition Atoi : string → result Z := ParseInt.

(** The longest prefix of digits. *)
Fixpoint take_digits (s : string) : string :=
  match s with
  | EmptyString => EmptyString
  | String c s' => match digit_of c with Some _ => String c (take_digits s') | None => EmptyString end
  end.
Fixpoint skip_blanks (s : string) : string :=
  match s with
  | String " " s' | String "009" s' => skip_blanks s'
  | _ => s
  end.
(** [fmt.Sscanf(s, "%d", &x)]: blanks, an optional sign and digits; what
    follows is ignored. [None] leaves the variable unchanged. *)
Definition Sscanf_d (s : string) : option Z :=
  let s := skip_blanks s in
  let '(neg, body) :=
    match s with
    | String "-" b => (true, b)
    | String "+" b => (false, b)
    | _ => (false, s)
    end in
  match take_digits body with
  | EmptyString => None
  | ds =>
      n ← parse_digits ds 0;
      let v := if (neg : bool) then - n else n in if decide (is_i64 v) then Some v else None
  end.

(** ** base64.StdEncoding *)
Definition base64_alphabet : list ascii :=
  String.list_ascii_of_string "ABCDEFGHIJKLMNOPQRSTUVWXYZabcdefghijklmnopqrstuvwxyz0123456789+/".
Definition base64_char (n : Z) : ascii := default "="%char (base64_alphabet !! Z.to_nat n).
Fixpoint base64_Encode (b : list byte) : string :=
  match b with
  | [] => EmptyString
  | [x] =>
      let n := Z.shiftl (Z_of_byte x) 16 in
      String (base64_char (Z.shiftr n 18)) (String (base64_char (Z.land (Z.shiftr n 12) 63)) "==")
  | [x; y] =>
      let n := Z.lor (Z.shiftl (Z_of_byte x) 16) (Z.shiftl (Z_of_byte y) 8) in
      String (base64_char (Z.shiftr n 18)) (String (base64_char (Z.land (Z.shiftr n 12) 63))
        (String (base64_char (Z.land (Z.shiftr n 6) 63)) "="))
  | x :: y :: z :: b =>
      let n := Z.lor (Z.shiftl (Z_of_byte x) 16) (Z.lor (Z.shiftl (Z_of_byte y) 8) (Z_of_byte z)) in
      String (base64_char (Z.shiftr n 18)) (String (base64_char (Z.land (Z.shiftr n 12) 63))
        (String (base64_char (Z.land (Z.shiftr n 6) 63)) (String (base64_char (Z.land n 63))
          (base64_Encode b))))
  end.

Example base64_hello : base64_Encode (bytes_of_string "hello") = "aGVsbG8="%string.
Proof. reflexivity. Qed.

(** ** Printing and parsing *)
Lemma digit_of_char (x : N) : (x < 10)%N → digit_of (pretty_N_char x) = Some (Z.of_N x).
Proof.
  intros Hx. assert (x = 0 ∨ x = 1 ∨ x = 2 ∨ x = 3 ∨ x = 4 ∨ x = 5 ∨ x = 6 ∨ x = 7 ∨ x = 8 ∨ x = 9)%N
    as H by lia. by repeat destruct H as [->|H]; subst.
Qed.

Lemma parse_digits_pretty (x : N) s : parse_digits (pretty_N_go x s) 0 = parse_digits s (Z.of_N x).
Proof.
  revert s. induction (N.lt_wf_0 x) as [x _ IH]; intros s.
  destruct (decide (x = 0)%N) as [->|Hx]; [done|].
  rewrite pretty_N_go_step, IH by (lia || apply N.div_lt; lia). simpl.
  rewrite digit_of_char by (apply N.mod_lt; lia). simpl. f_equal.
  pose proof (N.div_mod x 10). lia.
Qed.

Lemma parse_digits_Itoa n : 0 <= n → parse_digits (Itoa n) 0 = Some n.
Proof.
  intros Hn. unfold Itoa. destruct n as [|p|p]; [done| |lia].
  change (pretty (Z.pos p)) with (pretty (N.pos p)). unfold pretty, pretty_N.
  rewrite decide_False by done. by rewrite parse_digits_pretty.
Qed.

Lemma digit_of_blank : digit_of " " = None ∧ digit_of "009" = None ∧ digit_of "-" = None ∧ digit_of "+" = None.
Proof. done. Qed.

(** A string of digits is scanned as it is. *)
Lemma take_digits_all s acc n : parse_digits s acc = Some n → take_digits s = s.
Proof.
  revert acc. induction s as [|c s IH]; intros acc; [done|]. cbn [parse_digits take_digits].
  destruct (digit_of c); [|done]. intros E. cbn in E. by rewrite (IH _ E).
Qed.

Lemma Itoa_head n : 0 <= n → ∃ c s d, Itoa n = String c s ∧ digit_of c = Some d.
Proof.
  intros Hn. pose proof (parse_digits_Itoa n Hn) as Hp. destruct (Itoa n) as [|c s] eqn:E.
  - exfalso. assert (Itoa n ≠ EmptyString) as Hne; [|done]. unfold Itoa.
    destruct n as [|p|p]; [done| |lia]. change (pretty (Z.pos p)) with (pretty (N.pos p)).
    unfold pretty, pretty_N. rewrite decide_False by done. intros He.
    pose proof (parse_digits_pretty (N.pos p) EmptyString) as H. rewrite He in H. discriminate.
  - simpl in Hp. destruct (digit_of c) as [d|] eqn:Hd; [|done]. by exists c, s, d.
Qed.

Lemma Sscanf_Itoa n : 0 <= n < 2 ^ 63 → Sscanf_d (Itoa n) = Some n.
Proof.
  intros Hn. destruct (Itoa_head n) as (c & s & d & E & Hd); [lia|].
  pose proof (parse_digits_Itoa n ltac:(lia)) as Hp. pose proof (take_digits_all _ _ _ Hp) as Ht.
  unfold Sscanf_d.
  assert (skip_blanks (Itoa n) = Itoa n) as ->.
  { rewrite E. destruct c as [[] [] [] [] [] [] [] []]; done. }
  assert (∀ (A : Type) (f : bool → string → A),
    (let '(neg, body) := match Itoa n with
       | String "-" b => (true, b) | String "+" b => (false, b) | _ => (false, Itoa n) end in f neg body)
    = f false (Itoa n)) as Hs.
  { intros A f. rewrite E. destruct c as [[] [] [] [] [] [] [] []]; done. }
  rewrite Hs, Ht. rewrite E in Hp |- *. rewrite Hp. simpl.
  by rewrite decide_True by (split; lia).
Qed.

(** Printing and parsing a length or a time is the identity. *)
Lemma ParseInt_Itoa n : 0 <= n < 2 ^ 63 → ParseInt (Itoa n) = Ok n.
Proof.
  intros Hn. destruct (Itoa_head n) as (c & s & d & E & Hd); [lia|].
  pose proof (parse_digits_Itoa n ltac:(lia)) as Hp. unfold ParseInt.
  rewrite E in Hp |- *. assert (∀ (A : Type) (f : bool → string → A),
    (let '(neg, body) := match String c s with
       | String "-" b => (true, b) | String "+" b => (false, b) | _ => (false, String c s) end in f neg body)
    = f false (String c s)) as Hs.
  { intros A f. destruct c as [[] [] [] [] [] [] [] []]; done. }
  rewrite Hs, Hp. by rewrite decide_True by (split; lia).
Qed.

(** The decimal digits contain no blank and no newline. *)
Lemma parse_digits_chars s acc n x : parse_digits s acc = Some n →
  x ∈ String.list_ascii_of_string s → is_Some (digit_of x).
Proof.
  revert acc. induction s as [|c s IH]; intros acc E Hx; simpl in *; [by apply not_elem_of_nil in Hx|].
  destruct (digit_of c) as [d|] eqn:Hd; [|done]. simpl in E.
  apply elem_of_cons in Hx as [->|Hx]; [by eexists|]. by eapply IH.
Qed.

(** At most [k] digits for a number below [10 ^ k]. *)
Lemma pretty_N_go_length (k : nat) (x : N) s : (x < 10 ^ N.of_nat k)%N →
  (String.length (pretty_N_go x s) <= k + String.length s)%nat.
Proof.
  revert x s. induction k as [|k IH]; intros x s Hx.
  - assert (x = 0)%N as -> by (simpl in Hx; lia). rewrite pretty_N_go_0. lia.
  - destruct (decide (0 < x)%N) as [Hp|Hz].
    + rewrite pretty_N_go_step by done. pose proof (IH (x `div` 10)%N (String (pretty_N_char (x `mod` 10)) s)) as Hd.
      simpl in Hd |- *. etransitivity; [apply Hd|lia]. apply N.Div0.div_lt_upper_bound.
      replace (N.of_nat (S k)) with (N.succ (N.of_nat k)) in Hx by lia. by rewrite N.pow_succ_r' in Hx.
    + assert (x = 0)%N as -> by lia. rewrite pretty_N_go_0. lia.
Qed.
Lemma slen_Itoa n : 0 <= n < 2 ^ 63 → slen (Itoa n) <= 19.
Proof.
  intros [Hn Hlt]. unfold Itoa. destruct n as [|p|p]; [done| |lia].
  change (pretty (Z.pos p)) with (pretty (N.pos p)). unfold pretty, pretty_N. rewrite decide_False by done.
  pose proof (pretty_N_go_length 19 (N.pos p) "") as Hl. unfold slen. simpl in Hl.
  assert (N.pos p < 10 ^ N.of_nat 19)%N as Hp by (change (10 ^ N.of_nat 19)%N with 10000000000000000000%N; lia).
  specialize (Hl Hp). lia.
Qed.
