(* ===== verification/GoJson.v ===== *)
(** * Go's encoding/json on lists of strings

    What [GetPermissionsAsJSON] and [GetPublicKeysAsJSON] of dataprovider/user.go
    and [getUserFromDbRow] of dataprovider/sqlcommon.go use of the package: a
    list of strings as JSON text and back. Text is a list of byte values. The
    encoder escapes what the package escapes and replaces what is not UTF-8; the
    decoder accepts the whole syntax of arrays of strings and nulls, and [None]
    is any error. A nil and an empty slice are both [[]]. *)
From Stdlib Require Import Ascii.
From stdpp Require Import base tactics option list strings.
From Stdlib Require Import ZArith Lia.
From S2P Require Import Prelude GoStrconv.

Definition codes (s : string) : list Z := map Z_of_byte (bytes_of_string s).
Definition of_codes (l : list Z) : string := string_of_bytes (map byte_of_Z l).

Lemma of_codes_codes s : of_codes (codes s) = s.
Proof.
  unfold of_codes, codes. rewrite map_map, (map_ext _ id) by apply byte_of_Z_of_byte.
  by rewrite map_id, string_of_bytes_of_string.
Qed.
Lemma codes_of_codes l : Forall (λ b, 0 <= b < 256) l → codes (of_codes l) = l.
Proof.
  intros Hl. unfold of_codes, codes. rewrite bytes_of_string_of_bytes, map_map.
  induction Hl as [|b l Hb _ IH]; [done|]. simpl. rewrite IH, Z_of_byte_of_Z. f_equal.
  by apply Z.mod_small.
Qed.

(** ** UTF-8 *)
Definition in_range (lo hi b : Z) : bool := (lo <=? b) && (b <=? hi).
Definition cont (b : Z) : bool := in_range 0x80 0xbf b.

(** The size of the well-formed character a text starts with, 0 when there is
    none ([utf8.DecodeRune] answers [RuneError] of size 1). *)
Definition rune_size (l : list Z) : nat :=
  match l with
  | [] => O
  | b :: l =>
      if in_range 0 0x7f b then 1%nat
      else if in_range 0xc2 0xdf b then
        match l with b1 :: _ => if cont b1 then 2%nat else O | _ => O end
      else if in_range 0xe0 0xef b then
        match l with
        | b1 :: b2 :: _ =>
            let lo := if b =? 0xe0 then 0xa0 else 0x80 in
            let hi := if b =? 0xed then 0x9f else 0xbf in
            if in_range lo hi b1 && cont b2 then 3%nat else O
        | _ => O
        end
      else if in_range 0xf0 0xf4 b then
        match l with
        | b1 :: b2 :: b3 :: _ =>
            let lo := if b =? 0xf0 then 0x90 else 0x80 in
            let hi := if b =? 0xf4 then 0x8f else 0xbf in
            if in_range lo hi b1 && cont b2 && cont b3 then 4%nat else O
        | _ => O
        end
      else O
  end.

(** [n] bytes of a character have still to follow. *)
Fixpoint valid_from (n : nat) (l : list Z) : bool :=
  match l with
  | [] => (n =? 0)%nat
  | b :: l' =>
      match n with
      | S n => valid_from n l'
      | O => match rune_size l with O => false | S k => valid_from k l' end
      end
  end.
Definition valid_utf8 (s : string) : Prop := valid_from 0 (codes s) = true.
#[global] Instance valid_utf8_dec s : Decision (valid_utf8 s).
Proof. unfold valid_utf8. apply _. Defined.

(** [utf8.EncodeRune] *)
Definition encode_rune (r : Z) : list Z :=
  if r <? 0x80 then [r]
  else if r <? 0x800 then [0xc0 + r / 64; 0x80 + r mod 64]
  else if in_range 0xd800 0xdfff r || (0x10ffff <? r) then [0xef; 0xbf; 0xbd]
  else if r <? 0x10000 then [0xe0 + r / 4096; 0x80 + r / 64 mod 64; 0x80 + r mod 64]
  else [0xf0 + r / 262144; 0x80 + r / 4096 mod 64; 0x80 + r / 64 mod 64; 0x80 + r mod 64].

(** ASCII texts are UTF-8. *)
Definition ascii_text (s : string) : Prop := Forall (λ b, b < 128) (codes s).
Lemma codes_app a b : codes (a +:+ b) = codes a ++ codes b.
Proof. induction a as [|x a IH]; [done|]. exact (f_equal (cons (Z_of_byte (byte_of_ascii x))) IH). Qed.
Lemma ascii_valid s : ascii_text s → valid_utf8 s.
Proof.
  unfold ascii_text, valid_utf8. intros Hs. assert (Hc : Forall (λ b, 0 <= b) (codes s)).
  { apply Forall_forall. intros b (x & -> & _)%list_elem_of_fmap. apply Z_of_byte_range. }
  induction Hs as [|b l Hb _ IH]; [done|]. apply Forall_cons in Hc as [Hb0 Hc]. cbn [valid_from].
  unfold rune_size, in_range. rewrite !(proj2 (Z.leb_le _ _)) by lia. by apply IH.
Qed.
Lemma ascii_Itoa n : ascii_text (Itoa n).
Proof.
  assert (Hd : ∀ s, (∀ x, x ∈ String.list_ascii_of_string s → is_Some (digit_of x)) → ascii_text s).
  { intros s Hs. induction s as [|x s IH]; [constructor|]. constructor; [|apply IH; intros y Hy; apply Hs; by right].
    destruct (Hs x) as [d Hx]; [by left|]. by destruct x as [[] [] [] [] [] [] [] []]. }
  assert (Hn : ∀ n, 0 <= n → ascii_text (Itoa n)).
  { intros m Hm. apply Hd. intros x. by apply (parse_digits_chars _ 0 m), parse_digits_Itoa. }
  destruct n as [|p|p]; [by apply Hn..|]. change (Itoa (Z.neg p)) with ("-" +:+ Itoa (Z.pos p)).
  unfold ascii_text. rewrite codes_app. apply Forall_app_2; [by repeat constructor|by apply Hn].
Qed.

(** ** Encoding *)
Definition hex_digit (d : Z) : Z := if d <? 10 then 48 + d else 87 + d.

(** The bytes below 128 that are escaped: controls, the quote, the backslash,
    and the three HTML characters. *)
Definition escape (b : Z) : list Z :=
  if (b =? 34) || (b =? 92) then [92; b]
  else if b =? 10 then [92; 110]
  else if b =? 13 then [92; 114]
  else if b =? 9 then [92; 116]
  else if (b <? 32) || (b =? 38) || (b =? 60) || (b =? 62) then
    [92; 117; 48; 48; hex_digit (b / 16); hex_digit (b mod 16)]
  else [b].

(** [encodeState.string]; the first [n] bytes finish a character. *)
Fixpoint quote_from (n : nat) (l : list Z) : list Z :=
  match l with
  | [] => []
  | b :: l' =>
      match n with
      | S n => b :: quote_from n l'
      | O =>
          if b <? 0x80 then escape b ++ quote_from 0 l'
          else match rune_size l with
          | O => [92; 117; 102; 102; 102; 100] ++ quote_from 0 l'
          | S k =>
              match l' with
              | b1 :: b2 :: l'' =>
                  if (b =? 0xe2) && (b1 =? 0x80) && in_range 0xa8 0xa9 b2
                  then [92; 117; 50; 48; 50; hex_digit (b2 - 0xa0)] ++ quote_from 0 l''
                  else b :: quote_from k l'
              | _ => b :: quote_from k l'
              end
          end
      end
  end.
Definition quote (s : string) : list Z := [34] ++ quote_from 0 (codes s) ++ [34].

Fixpoint elements_text (l : list string) : list Z :=
  match l with
  | [] => []
  | [s] => quote s
  | s :: l => quote s ++ [44] ++ elements_text l
  end.
(** [json.Marshal] of a slice of strings *)
Definition json_Marshal (l : list string) : string := of_codes ([91] ++ elements_text l ++ [93]).

(** ** Decoding *)
Definition hex_value (b : Z) : option Z :=
  if in_range 48 57 b then Some (b - 48)
  else if in_range 97 102 b then Some (b - 87)
  else if in_range 65 70 b then Some (b - 55)
  else None.
Definition hex4 (a b c d : Z) : option Z :=
  a ← hex_value a; b ← hex_value b; c ← hex_value c; d ← hex_value d;
  Some (((a * 16 + b) * 16 + c) * 16 + d).
Definition simple_escape (b : Z) : option Z :=
  if (b =? 34) || (b =? 92) || (b =? 47) then Some b
  else if b =? 98 then Some 8 else if b =? 102 then Some 12 else if b =? 110 then Some 10
  else if b =? 114 then Some 13 else if b =? 116 then Some 9 else None.
Definition prepend (p : list Z) (r : option (list Z * list Z)) : option (list Z * list Z) :=
  match r with Some (s, rest) => Some (p ++ s, rest) | None => None end.

(** The text after an opening quote: the string, and what follows the closing
    quote. A surrogate joins with the one that follows it, when that is one
    half of a pair, and is replaced otherwise. *)
Fixpoint unquote_from (n : nat) (l : list Z) : option (list Z * list Z) :=
  match l with
  | [] => None
  | b :: l' =>
      match n with
      | S n => prepend [b] (unquote_from n l')
      | O =>
          if b =? 34 then Some ([], l')
          else if b =? 92 then
            match l' with
            | 117 :: h1 :: h2 :: h3 :: h4 :: l1 =>
                match hex4 h1 h2 h3 h4 with
                | None => None
                | Some r =>
                    if in_range 0xd800 0xdbff r then
                      match l1 with
                      | 92 :: 117 :: k1 :: k2 :: k3 :: k4 :: l2 =>
                          match hex4 k1 k2 k3 k4 with
                          | Some r2 =>
                              if in_range 0xdc00 0xdfff r2
                              then prepend (encode_rune ((r - 0xd800) * 1024 + (r2 - 0xdc00) + 0x10000))
                                     (unquote_from 0 l2)
                              else prepend (encode_rune r) (unquote_from 0 l1)
                          | None => None
                          end
                      | _ => prepend (encode_rune r) (unquote_from 0 l1)
                      end
                    else prepend (encode_rune r) (unquote_from 0 l1)
                end
            | e :: l1 =>
                match simple_escape e with
                | Some c => prepend [c] (unquote_from 0 l1)
                | None => None
                end
            | [] => None
            end
          else if b <? 32 then None
          else if b <? 0x80 then prepend [b] (unquote_from 0 l')
          else match rune_size l with
          | O => prepend [0xef; 0xbf; 0xbd] (unquote_from 0 l')
          | S k => prepend [b] (unquote_from k l')
          end
      end
  end.

Fixpoint skip_space (l : list Z) : list Z :=
  match l with
  | b :: l' => if (b =? 32) || (b =? 9) || (b =? 10) || (b =? 13) then skip_space l' else l
  | [] => []
  end.

(** An element is a string, or a null, which leaves the empty string. *)
Definition element (l : list Z) : option (string * list Z) :=
  match skip_space l with
  | 34 :: l => match unquote_from 0 l with Some (s, rest) => Some (of_codes s, rest) | None => None end
  | 110 :: 117 :: 108 :: 108 :: l => Some (EmptyString, l)
  | _ => None
  end.

(** The elements that are left, with at least one of them; [fuel] bounds their
    number. *)
Fixpoint array_from (fuel : nat) (l : list Z) : option (list string * list Z) :=
  match fuel with
  | O => None
  | S fuel =>
      '(s, rest) ← element l;
      match skip_space rest with
      | 44 :: rest => '(ss, rest) ← array_from fuel rest; Some (s :: ss, rest)
      | 93 :: rest => Some ([s], rest)
      | _ => None
      end
  end.

(** [json.Unmarshal] into a slice of strings *)
Definition json_Unmarshal (text : string) : option (list string) :=
  let l := codes text in
  '(ss, rest) ←
    match skip_space l with
    | 110 :: 117 :: 108 :: 108 :: l => Some ([], l)
    | 91 :: l => match skip_space l with 93 :: l => Some ([], l) | _ => array_from (length l) l end
    | _ => None
    end;
  match skip_space rest with [] => Some ss | _ => None end.

(** ** Decoding undoes encoding *)
Ltac rune_cases :=
  repeat match goal with
  | H : context [match ?l with [] => _ | _ :: _ => _ end] |- _ => is_var l; destruct l
  | H : context [if ?b then _ else _] |- _ => destruct b eqn:?
  end.

Lemma rune_size_prefix l k t : rune_size l = S k →
  (k < length l)%nat ∧ rune_size (take (S k) l ++ t) = S k.
Proof.
  intros E. assert (E' := E). destruct l as [|b l]; [done|]. unfold rune_size in E. rune_cases; try done;
    injection E as <-; (split; [simpl; lia|]); rewrite <- E' at 2; simpl; try rewrite take_0; unfold rune_size;
    repeat match goal with H : ?b = true |- context [?b] => rewrite H end;
    repeat match goal with H : ?b = false |- context [?b] => rewrite H end; done.
Qed.

Lemma rune_size_ascii b l : 0 <= b < 128 → rune_size (b :: l) = 1%nat.
Proof. intros Hb. unfold rune_size, in_range. by rewrite !(proj2 (Z.leb_le _ _)) by lia. Qed.

Lemma valid_from_drop n l : valid_from n l = true → (n <= length l)%nat ∧ valid_from 0 (drop n l) = true.
Proof.
  revert n. induction l as [|b l IH]; intros [|n] E; try done; [split; [lia|done]|].
  destruct (IH n E). split; [simpl; lia|done].
Qed.

Lemma quote_from_drop n l : (n <= length l)%nat → quote_from n l = take n l ++ quote_from 0 (drop n l).
Proof.
  revert n. induction l as [|b l IH]; intros [|n] Hn; try done. cbn [quote_from take drop].
  rewrite IH by (simpl in Hn; lia). done.
Qed.

Lemma prepend_app p q r : prepend p (prepend q r) = prepend (p ++ q) r.
Proof. destruct r as [[s rest]|]; simpl; [by rewrite app_assoc|done]. Qed.

Lemma unquote_from_copy p t : unquote_from (length p) (p ++ t) = prepend p (unquote_from 0 t).
Proof.
  induction p as [|b p IH]; simpl; [by destruct (unquote_from 0 t) as [[]|]|]. by rewrite IH, prepend_app.
Qed.

Lemma unquote_escape b t : 0 <= b < 128 → unquote_from 0 (escape b ++ t) = prepend [b] (unquote_from 0 t).
Proof.
  intros Hb. assert (Hin : b ∈ seqZ 0 128) by (apply elem_of_seqZ; lia). clear Hb. vm_compute in Hin.
  repeat (apply elem_of_cons in Hin as [->|Hin]; [reflexivity|]). by apply not_elem_of_nil in Hin.
Qed.

Lemma unquote_separator b t : 0xa8 <= b <= 0xa9 →
  unquote_from 0 ([92; 117; 50; 48; 50; hex_digit (b - 0xa0)] ++ t) = prepend [0xe2; 0x80; b] (unquote_from 0 t).
Proof. intros Hb. assert (b = 0xa8 ∨ b = 0xa9) as [-> | ->] by lia; reflexivity. Qed.

Lemma unquote_rune b l k t : 0x80 <= b → rune_size (b :: l) = S k →
  unquote_from 0 (b :: take k l ++ t) = prepend (b :: take k l) (unquote_from 0 t).
Proof.
  intros Hb Hr. destruct (rune_size_prefix _ _ t Hr) as [Hlen Hp]. simpl in Hlen.
  change (take (S k) (b :: l) ++ t) with (b :: take k l ++ t) in Hp.
  cbn [unquote_from]. rewrite (proj2 (Z.eqb_neq b 34)), (proj2 (Z.eqb_neq b 92)) by lia.
  rewrite (proj2 (Z.ltb_ge b 32)), (proj2 (Z.ltb_ge b 0x80)) by lia. rewrite Hp.
  replace k with (length (take k l)) at 1 by (rewrite length_take; lia).
  by rewrite unquote_from_copy, prepend_app.
Qed.

Lemma quote_from_rune b l k : 0x80 <= b → rune_size (b :: l) = S k →
  quote_from 0 (b :: l) = b :: take k l ++ quote_from 0 (drop k l) ∨
  ∃ b2 l2, 0xa8 <= b2 <= 0xa9 ∧ b = 0xe2 ∧ l = 0x80 :: b2 :: l2 ∧ k = 2%nat ∧
    quote_from 0 (b :: l) = [92; 117; 50; 48; 50; hex_digit (b2 - 0xa0)] ++ quote_from 0 l2.
Proof.
  intros Hb Hr. destruct (rune_size_prefix _ _ [] Hr) as [Hlen _]. simpl in Hlen.
  assert (Hcopy : b :: quote_from k l = b :: take k l ++ quote_from 0 (drop k l)) by (rewrite quote_from_drop by lia; done).
  cbn [quote_from]. rewrite (proj2 (Z.ltb_ge b 0x80)), Hr by lia.
  destruct l as [|b1 [|b2 l2]]; [by left..|].
  destruct ((b =? 0xe2) && (b1 =? 0x80) && in_range 0xa8 0xa9 b2) eqn:Es; [right|by left].
  apply andb_true_iff in Es as [[->%Z.eqb_eq ->%Z.eqb_eq]%andb_true_iff Hs].
  apply andb_true_iff in Hs as [Hlo%Z.leb_le Hhi%Z.leb_le].
  exists b2, l2. split_and!; [lia..|done|done| |done].
  unfold rune_size in Hr. simpl in Hr. destruct (cont b2); [by injection Hr|done].
Qed.

Lemma unquote_quote l rest : Forall (λ b, 0 <= b < 256) l → valid_from 0 l = true →
  unquote_from 0 (quote_from 0 l ++ 34 :: rest) = Some (l, rest).
Proof.
  remember (length l) as n eqn:Hn. revert l Hn.
  induction n as [n IH] using lt_wf_ind. intros l -> Hl Hv. destruct l as [|b l]; [done|].
  apply Forall_cons in Hl as [Hb Hl].
  destruct (rune_size (b :: l)) as [|k] eqn:Hr; [cbn [valid_from] in Hv; by rewrite Hr in Hv|].
  assert (Hv' : valid_from k l = true) by (cbn [valid_from] in Hv; by rewrite Hr in Hv).
  destruct (Z.ltb_spec b 0x80) as [Hlt|Hge].
  - rewrite rune_size_ascii in Hr by lia. injection Hr as <-.
    cbn [quote_from]. rewrite (proj2 (Z.ltb_lt b 0x80)), <- app_assoc, unquote_escape by lia.
    rewrite (IH (length l)) by (done || simpl; lia). done.
  - destruct (valid_from_drop _ _ Hv') as [Hlen Hd].
    destruct (quote_from_rune b l k Hge Hr) as [->|(b2 & l2 & Hb2 & -> & -> & -> & ->)].
    + rewrite <- app_comm_cons, <- app_assoc, (unquote_rune b l k) by done.
      rewrite (IH (length (drop k l))) by (rewrite ?length_drop; simpl; (lia || done || by apply Forall_drop)).
      simpl. by rewrite take_drop.
    + rewrite <- app_assoc, unquote_separator by done.
      rewrite (IH (length l2)); [done|simpl; lia|done|by do 2 apply Forall_cons in Hl as [_ Hl]|done].
Qed.

Lemma codes_bytes s : Forall (λ b, 0 <= b < 256) (codes s).
Proof. apply Forall_forall. intros b (x & -> & _)%list_elem_of_fmap. apply Z_of_byte_range. Qed.

Lemma element_quote s rest : valid_utf8 s → element (quote s ++ rest) = Some (s, rest).
Proof.
  intros Hs. unfold element, quote. simpl. rewrite <- app_assoc. simpl.
  rewrite unquote_quote by (done || apply codes_bytes). by rewrite of_codes_codes.
Qed.

Lemma quote_length s : (2 <= length (quote s))%nat.
Proof. unfold quote. rewrite !length_app. simpl. lia. Qed.

Lemma array_elements fuel l rest : l ≠ [] → Forall valid_utf8 l → (length (elements_text l) <= fuel)%nat →
  array_from fuel (elements_text l ++ 93 :: rest) = Some (l, rest).
Proof.
  revert fuel. induction l as [|s l IH]; intros fuel Hne Hl Hf; [done|]. apply Forall_cons in Hl as [Hs Hl].
  pose proof (quote_length s). destruct l as [|s' l].
  - simpl in Hf. destruct fuel as [|fuel]; [lia|]. cbn [array_from elements_text]. by rewrite element_quote.
  - change (elements_text (s :: s' :: l)) with (quote s ++ [44] ++ elements_text (s' :: l)) in *.
    rewrite !length_app in Hf. destruct fuel as [|fuel]; [lia|]. cbn [array_from].
    rewrite <- !app_assoc, element_quote by done. cbn [mbind option_bind app skip_space].
    simpl. rewrite IH; [done|done|done|change (length [44]) with 1%nat in Hf; lia].
Qed.

Lemma quote_from_bytes n l : Forall (λ b, 0 <= b < 256) l → Forall (λ b, 0 <= b < 256) (quote_from n l).
Proof.
  assert (Hhex : ∀ d, 0 <= d < 16 → 0 <= hex_digit d < 256) by (intros d; unfold hex_digit; case_match; lia).
  remember (length l) as m eqn:Hm. revert n l Hm. induction m as [m IH] using lt_wf_ind.
  intros n l -> Hl. destruct l as [|b l]; [done|]. apply Forall_cons in Hl as [Hb Hl].
  assert (IHl : ∀ n, Forall (λ b, 0 <= b < 256) (quote_from n l)) by (intros; eapply IH; [|done|done]; simpl; lia).
  destruct n as [|n]; cbn [quote_from]; [|by constructor].
  destruct (Z.ltb_spec b 0x80).
  - apply Forall_app. split; [|done]. unfold escape. repeat case_match; repeat constructor; try lia;
      apply Hhex; Z.to_euclidean_division_equations; lia.
  - destruct (rune_size (b :: l)); [apply Forall_app; split; [|done]; repeat constructor; lia|].
    destruct l as [|b1 [|b2 l2]]; try (by constructor).
    destruct ((b =? 0xe2) && (b1 =? 0x80) && in_range 0xa8 0xa9 b2) eqn:E; [|by constructor].
    apply andb_true_iff in E as [_ [Hlo%Z.leb_le Hhi%Z.leb_le]%andb_true_iff].
    apply Forall_app. split; [repeat constructor; try lia; apply Hhex; lia|].
    do 2 apply Forall_cons in Hl as [_ Hl]. eapply IH; [|done|done]. simpl. lia.
Qed.

Lemma elements_text_bytes l : Forall (λ b, 0 <= b < 256) (elements_text l).
Proof.
  assert (Hq : ∀ s, Forall (λ b, 0 <= b < 256) (quote s)).
  { intros s. unfold quote. repeat apply Forall_app_2; [..|by repeat constructor].
    - by repeat constructor.
    - apply quote_from_bytes, codes_bytes. }
  induction l as [|s [|s' l] IH]; [constructor|apply Hq|].
  change (elements_text (s :: s' :: l)) with (quote s ++ [44] ++ elements_text (s' :: l)).
  apply Forall_app_2; [apply Hq|]. by apply Forall_cons.
Qed.

(** A list of UTF-8 strings survives its JSON text. *)
Lemma json_roundtrip l : Forall valid_utf8 l → json_Unmarshal (json_Marshal l) = Some l.
Proof.
  intros Hl. unfold json_Unmarshal, json_Marshal.
  rewrite codes_of_codes by (repeat apply Forall_app_2; [by repeat constructor|apply elements_text_bytes|by repeat constructor]).
  destruct l as [|s l]; [done|]. simpl app. cbn [skip_space]. simpl.
  assert (Hq : skip_space (elements_text (s :: l) ++ [93]) = elements_text (s :: l) ++ [93]
    ∧ ∃ t, elements_text (s :: l) ++ [93] = 34 :: t) by (destruct l; split; simpl; eauto).
  destruct Hq as [Hs [t Ht]]. change (match l with [] => quote s | _ :: _ => _ end) with (elements_text (s :: l)).
  rewrite Hs, Ht. rewrite <- Ht, array_elements; [done|done|done|]. rewrite length_app. lia.
Qed.

Definition nl_char : Ascii.ascii := "010".
Definition quote_char : Ascii.ascii := "034".
Definition quoted (s : string) : string := String quote_char (s +:+ String quote_char EmptyString).
Example json_escapes :
  json_Marshal ["a<b"; String nl_char "é"] = "[" +:+ quoted "a\u003cb" +:+ "," +:+ quoted "\né" +:+ "]".
Proof. vm_compute. reflexivity. Qed.
Example json_surrogates :
  json_Unmarshal (" [ null , " +:+ quoted "\ud83d\ude00" +:+ " ] ") = Some [EmptyString; "😀"%string].
Proof. vm_compute. reflexivity. Qed.
