(* ===== verification/RequestServer.v ===== *)
(** * The request server: sftp/request.go, request-attrs.go, request-server.go

    Each decoded packet becomes a [Request] that is dispatched to the four
    handlers ([FileGet], [FilePut], [FileCmd], [FileList]); open files and
    directories are kept in [openRequests] under a handle.

    The handlers are an interface ([Handlers] below) over a world [W] they
    update: the server's own handlers live in another package and are an
    instance of it. Objects returned by the handlers ([io.ReaderAt],
    [io.WriterAt]) are references of type [obj], directory listers are values
    of type [lister]. A pointer to a [Request] that is both in [openRequests]
    and in use is modelled by storing the updated request back. One packet is
    served at a time; contexts and locks carry no data and are left out. *)
From stdpp Require Import base tactics option list strings gmap pretty.
From Stdlib Require Import ZArith Lia.
From S2P Require Import Prelude GoOs SftpWire SftpPackets Allocator GoPath GoStrconv.

Definition MaxFilelist : Z := 100.
Definition maxTxPacket : Z := Z.shiftl 1 15.
Definition sftpProtocolVersion : Z := 3.

(** ** The announced extensions (sftp.go) *)
Definition supportedSFTPExtensions : list extensionPair :=
  [{| ep_Name := "hardlink@openssh.com"; ep_Data := "1" |};
   {| ep_Name := "posix-rename@openssh.com"; ep_Data := "1" |}].

Definition getSupportedExtensionByName (name : string) : result extensionPair :=
  match list_find (λ e, ep_Name e = name) supportedSFTPExtensions with
  | Some (_, e) => Ok e
  | None => Err (EMsg ("Unsupported extension: " +:+ name))
  end.

(** The new value of [sftpExtensions], or the error that leaves it unchanged. *)
Fixpoint SetSFTPExtensions (extensions : list string) : result (list extensionPair) :=
  match extensions with
  | [] => Ok []
  | e :: es => x ← getSupportedExtensionByName e; xs ← SetSFTPExtensions es; Ok (x :: xs)
  end.

(** ** Requests *)
Record Request {obj lister : Type} := mkRequest {
  Method : string;
  Filepath : string;
  Flags : Z;
  Attrs : list byte;
  Target : string;
  handle : string;
  writerAt : option obj;
  readerAt : option obj;
  writerReaderAt : option obj;
  listerAt : option lister;
  lsoffset : Z
}.
Arguments Request : clear implicits.

(** ** request-attrs.go *)
Record FileOpenFlags := { Read : bool; Write : bool; Append : bool; Creat : bool; Trunc : bool; Excl : bool }.
Definition newFileOpenFlags (flags : Z) : FileOpenFlags :=
  {| Read := has_bits flags 0x1; Write := has_bits flags 0x2; Append := has_bits flags 0x4;
     Creat := has_bits flags 0x8; Trunc := has_bits flags 0x10; Excl := has_bits flags 0x20 |}.
Record FileAttrFlags := { af_Size : bool; af_UidGid : bool; af_Permissions : bool; af_Acmodtime : bool }.
Definition newFileAttrFlags (flags : Z) : FileAttrFlags :=
  {| af_Size := has_bits flags sshFileXferAttrSize; af_UidGid := has_bits flags sshFileXferAttrUIDGID;
     af_Permissions := has_bits flags sshFileXferAttrPermissions;
     af_Acmodtime := has_bits flags sshFileXferAttrACmodTime |}.

Section requests.
Context {obj lister : Type}.
Implicit Types r : Request obj lister.

Definition Pflags r : FileOpenFlags := newFileOpenFlags (Flags r).
Definition AttrFlags r : FileAttrFlags := newFileAttrFlags (Flags r).
Definition Attributes r : result FileStat :=
  '(fs, _) ← getFileStat (Flags r) (Attrs r); Ok fs.

Definition NewRequest (method path : string) : Request obj lister :=
  mkRequest _ _ method (cleanPath path) 0 [] EmptyString EmptyString None None None None 0.

Definition set_Method r m := mkRequest obj lister m (Filepath r) (Flags r) (Attrs r) (Target r)
  (handle r) (writerAt r) (readerAt r) (writerReaderAt r) (listerAt r) (lsoffset r).
Definition set_Flags r f := mkRequest obj lister (Method r) (Filepath r) f (Attrs r) (Target r)
  (handle r) (writerAt r) (readerAt r) (writerReaderAt r) (listerAt r) (lsoffset r).
Definition set_Attrs r a := mkRequest obj lister (Method r) (Filepath r) (Flags r) a (Target r)
  (handle r) (writerAt r) (readerAt r) (writerReaderAt r) (listerAt r) (lsoffset r).
Definition set_Target r t := mkRequest obj lister (Method r) (Filepath r) (Flags r) (Attrs r) t
  (handle r) (writerAt r) (readerAt r) (writerReaderAt r) (listerAt r) (lsoffset r).
Definition set_handle r h := mkRequest obj lister (Method r) (Filepath r) (Flags r) (Attrs r)
  (Target r) h (writerAt r) (readerAt r) (writerReaderAt r) (listerAt r) (lsoffset r).
Definition set_writerAt r o := mkRequest obj lister (Method r) (Filepath r) (Flags r) (Attrs r)
  (Target r) (handle r) o (readerAt r) (writerReaderAt r) (listerAt r) (lsoffset r).
Definition set_readerAt r o := mkRequest obj lister (Method r) (Filepath r) (Flags r) (Attrs r)
  (Target r) (handle r) (writerAt r) o (writerReaderAt r) (listerAt r) (lsoffset r).
Definition set_writerReaderAt r o := mkRequest obj lister (Method r) (Filepath r) (Flags r)
  (Attrs r) (Target r) (handle r) (writerAt r) (readerAt r) o (listerAt r) (lsoffset r).
Definition setListerState r o := mkRequest obj lister (Method r) (Filepath r) (Flags r) (Attrs r)
  (Target r) (handle r) (writerAt r) (readerAt r) (writerReaderAt r) o (lsoffset r).
Definition lsInc r n := mkRequest obj lister (Method r) (Filepath r) (Flags r) (Attrs r) (Target r)
  (handle r) (writerAt r) (readerAt r) (writerReaderAt r) (listerAt r) (i64 (lsoffset r + n)).

End requests.

(** ** The packet a worker serves

    [packetWorker] replaces an extended packet by its specific packet. *)
Inductive served :=
  | plain (p : requestPacket)
  | specific (p : specificPacket).

Definition served_packet (p : requestPacket) : served :=
  match p with
  | sshFxpExtendedPacket _ _ (Some sp) => specific sp
  | _ => plain p
  end.
Definition served_id (p : served) : Z :=
  match p with plain p => request_id p | specific p => specific_id p end.

(** [getPath()] and [getHandle()] of the packets that have them
    (packet-typing.go). *)
Definition getPath (p : served) : option string :=
  match p with
  | plain (sshFxpLstatPacket _ s) | plain (sshFxpStatPacket _ s) | plain (sshFxpRmdirPacket _ s)
  | plain (sshFxpReadlinkPacket _ s) | plain (sshFxpRealpathPacket _ s)
  | plain (sshFxpMkdirPacket _ _ s) | plain (sshFxpSetstatPacket _ _ s _)
  | plain (sshFxpRemovePacket _ s) | plain (sshFxpRenamePacket _ s _)
  | plain (sshFxpSymlinkPacket _ s _) | plain (sshFxpOpendirPacket _ s)
  | plain (sshFxpOpenPacket _ s _ _) => Some s
  | specific (sshFxpExtendedPacketPosixRename _ _ s _)
  | specific (sshFxpExtendedPacketHardlink _ _ s _) => Some s
  | _ => None
  end.
Definition getHandle (p : served) : option string :=
  match p with
  | plain (sshFxpFstatPacket _ h) | plain (sshFxpFsetstatPacket _ _ h _)
  | plain (sshFxpReadPacket _ _ _ h) | plain (sshFxpWritePacket _ _ _ h _)
  | plain (sshFxpReaddirPacket _ h) | plain (sshFxpClosePacket _ h) => Some h
  | _ => None
  end.

Definition requestMethod (p : served) : string :=
  match p with
  | plain (sshFxpSetstatPacket _ _ _ _) | plain (sshFxpFsetstatPacket _ _ _ _) => "Setstat"
  | plain (sshFxpRenamePacket _ _ _) => "Rename"
  | plain (sshFxpSymlinkPacket _ _ _) => "Symlink"
  | plain (sshFxpRemovePacket _ _) => "Remove"
  | plain (sshFxpStatPacket _ _) | plain (sshFxpFstatPacket _ _) => "Stat"
  | plain (sshFxpLstatPacket _ _) => "Lstat"
  | plain (sshFxpRmdirPacket _ _) => "Rmdir"
  | plain (sshFxpReadlinkPacket _ _) => "Readlink"
  | plain (sshFxpMkdirPacket _ _ _) => "Mkdir"
  | specific (sshFxpExtendedPacketHardlink _ _ _ _) => "Link"
  | _ => EmptyString
  end.

Definition requestFromPacket {obj lister} (pkt : served) (path : string) : Request obj lister :=
  let request := NewRequest (requestMethod pkt) path in
  match pkt with
  | plain (sshFxpOpenPacket _ _ pflags _) => set_Flags request pflags
  | plain (sshFxpSetstatPacket _ flags _ attrs) => set_Attrs (set_Flags request flags) attrs
  | plain (sshFxpRenamePacket _ _ newpath) => set_Target request (cleanPath newpath)
  | plain (sshFxpSymlinkPacket _ _ linkpath) => set_Target request (cleanPath linkpath)
  | specific (sshFxpExtendedPacketHardlink _ _ _ newpath) => set_Target request (cleanPath newpath)
  | _ => request
  end.

(** ** The handler interfaces (request-interfaces.go)

    [OpenFile], [PosixRename] and [Lstat] belong to optional interfaces; [None]
    when the handler does not implement them. [obj_Close] answers [None] when
    the object is not an [io.Closer]. [ListAt ls n off] lists at most [n]
    entries from [off]. *)
Class Handlers (W obj lister : Type) := {
  Fileread : Request obj lister → W → result obj * W;
  Filewrite : Request obj lister → W → result obj * W;
  OpenFile : option (Request obj lister → W → result obj * W);
  Filecmd : Request obj lister → W → option error * W;
  PosixRename : option (Request obj lister → W → option error * W);
  Filelist : Request obj lister → W → result lister * W;
  Lstat : option (Request obj lister → W → result lister * W);
  ReadAt : obj → Z → Z → W → (list byte * option error) * W;
  WriteAt : obj → list byte → Z → W → (Z * option error) * W;
  obj_Close : obj → W → option (option error) * W;
  TransferError : obj → error → W → W;
  ListAt : lister → Z → Z → list FileInfo * option error
}.

Record RequestServer {obj lister : Type} := mkRS {
  openRequests : gmap string (Request obj lister);
  handleCount : Z;
  rs_alloc : option allocator
}.
Arguments RequestServer : clear implicits.
Arguments mkRS {obj lister} _ _ _.

Section server.
Context {W obj lister : Type} `{H : Handlers W obj lister}.
(** Error texts (as for [statusFromError]) and the long-name format of
    directory entries ([runLs], which formats owners and local dates). *)
Context (errText : error → string) (runLs : string → FileInfo → string).
(** The extensions the server announces, see [SetSFTPExtensions]. *)
Context (sftpExtensions : list extensionPair).
Implicit Types (r : Request obj lister) (rs : RequestServer obj lister) (w : W) (p : served).

Abbreviation status p err := (statusFromError errText (served_id p) err).

(** ** Open handles *)
Definition nextRequest r rs : string * Request obj lister * RequestServer obj lister :=
  let n := i64 (handleCount rs + 1) in
  let h := Itoa n in
  let r := set_handle r h in
  (h, r, mkRS (<[h := r]> (openRequests rs)) n (rs_alloc rs)).

Definition getRequest (h : string) rs : option (Request obj lister) := openRequests rs !! h.

(** Store back a request that was updated through its pointer. *)
Definition storeRequest (h : string) r rs : RequestServer obj lister :=
  mkRS (<[h := r]> (openRequests rs)) (handleCount rs) (rs_alloc rs).

(** [Request.close]: the error of the first object that is an [io.Closer]
    and reports one. (The request is dead afterwards, so its fields are not
    updated.) *)
Definition close_obj (o : option obj) (err : option error) (w : W) : option error * W :=
  match o with
  | None => (err, w)
  | Some o =>
      let '(res, w) := obj_Close o w in
      match res with
      | None => (err, w)
      | Some err2 => (match err with None => err2 | Some _ => err end, w)
      end
  end.
Definition request_close r (w : W) : option error * W :=
  let '(err, w) := close_obj (writerAt r) None w in
  let '(err, w) := close_obj (writerReaderAt r) err w in
  close_obj (readerAt r) err w.

Definition transferError r (err : option error) (w : W) : W :=
  match err with
  | None => w
  | Some e =>
      let notify o w := match o with Some o => TransferError o e w | None => w end in
      notify (readerAt r) (notify (writerReaderAt r) (notify (writerAt r) w))
  end.

Definition closeRequest (h : string) rs (w : W) : option error * RequestServer obj lister * W :=
  match openRequests rs !! h with
  | Some r =>
      let rs := mkRS (delete h (openRequests rs)) (handleCount rs) (rs_alloc rs) in
      let '(err, w) := request_close r w in (err, rs, w)
  | None => (Some (ESyscall EBADF), rs, w)
  end.

(** ** Opening *)
Definition open r p (w : W) : result responsePacket * Request obj lister * W :=
  let flags := Pflags r in
  let finish set (res : result obj * W) r :=
    let '(res, w) := res in
    match res with
    | Err e => (Ok (status p (Some e)), r, w)
    | Panic => (Panic, r, w)
    | Ok o => (Ok (sshFxpHandlePacket (served_id p) (handle r)), set r (Some o), w)
    end in
  if Write flags || Append flags || Creat flags || Trunc flags then
    match (if Read flags then OpenFile else None) with
    | Some f => let r := set_Method r "Open" in finish set_writerReaderAt (f r w) r
    | None => let r := set_Method r "Put" in finish set_writerAt (Filewrite r w) r
    end
  else if Read flags then
    let r := set_Method r "Get" in finish set_readerAt (Fileread r w) r
  else (Ok (status p (Some (EMsg "bad file flags"))), r, w).

Definition opendir r p (w : W) : result responsePacket * Request obj lister * W :=
  let r := set_Method r "List" in
  let '(la, w) := Filelist r w in
  match la with
  | Err e => (Ok (status p (Some (wrapPathError (Filepath r) e))), r, w)
  | Panic => (Panic, r, w)
  | Ok la => (Ok (sshFxpHandlePacket (served_id p) (handle r)), setListerState r (Some la), w)
  end.

(** ** Serving a request *)

(** [packetData]: the buffer (for a read, [getDataSlice]: a page of the
    allocator cut to length, or a fresh slice) and the offset. *)
Definition packetData p (al : option allocator) (orderID : Z)
  : list byte * Z * option allocator :=
  match p with
  | plain (sshFxpReadPacket _ len offset _) =>
      (replicate (Z.to_nat (clamp len maxTxPacket)) (byte_of_Z 0), i64 offset,
       (λ a, snd (GetPage a orderID)) <$> al)
  | plain (sshFxpWritePacket _ _ offset _ data) => (data, i64 offset, al)
  | _ => ([], 0, al)
  end.

Definition read_response p (res : list byte * option error) : responsePacket :=
  let '(data, err) := res in
  match err with
  | Some e =>
      if negb (bool_decide (e = EOF)) || (zlen data =? 0) then status p (Some e)
      else sshFxpDataPacket (served_id p) (u32 (zlen data)) data
  | None => sshFxpDataPacket (served_id p) (u32 (zlen data)) data
  end.

Definition fileget r p al orderID (w : W) : responsePacket * option allocator * W :=
  match readerAt r with
  | None => (status p (Some (EMsg "unexpected read packet")), al, w)
  | Some reader =>
      let '(data, offset, al) := packetData p al orderID in
      let '(res, w) := ReadAt reader (zlen data) offset w in
      (read_response p res, al, w)
  end.

Definition fileput r p al orderID (w : W) : responsePacket * option allocator * W :=
  match writerAt r with
  | None => (status p (Some (EMsg "unexpected write packet")), al, w)
  | Some writer =>
      let '(data, offset, al) := packetData p al orderID in
      let '((_, err), w) := WriteAt writer data offset w in
      (status p err, al, w)
  end.

Definition fileputget r p al orderID (w : W) : responsePacket * option allocator * W :=
  match writerReaderAt r with
  | None => (status p (Some (EMsg "unexpected write and read packet")), al, w)
  | Some o =>
      match p with
      | plain (sshFxpReadPacket _ _ _ _) =>
          let '(data, offset, al) := packetData p al orderID in
          let '(res, w) := ReadAt o (zlen data) offset w in
          (read_response p res, al, w)
      | plain (sshFxpWritePacket _ _ _ _ _) =>
          let '(data, offset, al) := packetData p al orderID in
          let '((_, err), w) := WriteAt o data offset w in
          (status p err, al, w)
      | _ => (status p (Some (EMsg "unexpected packet type for read or write")), al, w)
      end
  end.

Definition filecmd r p (w : W) : responsePacket * Request obj lister * W :=
  let r := match p with
           | plain (sshFxpFsetstatPacket _ flags _ attrs) => set_Attrs (set_Flags r flags) attrs
           | _ => r
           end in
  if bool_decide (Method r = "PosixRename"%string) then
    match PosixRename with
    | Some f => let '(err, w) := f r w in (status p err, r, w)
    | None =>
        let r := set_Method r "Rename" in
        let '(err, w) := Filecmd r w in (status p err, r, w)
    end
  else let '(err, w) := Filecmd r w in (status p err, r, w).

Definition filelist r p : responsePacket * Request obj lister :=
  match listerAt r with
  | None => (status p (Some (EMsg "unexpected dir packet")), r)
  | Some ls =>
      let '(finfo, err) := ListAt ls MaxFilelist (lsoffset r) in
      let r := lsInc r (zlen finfo) in
      if bool_decide (Method r = "List"%string) then
        match err with
        | Some e =>
            if negb (bool_decide (e = EOF)) || (zlen finfo =? 0) then (status p (Some e), r)
            else (sshFxpNamePacket (served_id p)
                    (map (λ fi, {| na_Name := fi_Name fi; na_LongName := runLs (Base (Filepath r)) fi;
                                   na_Attrs := [VFileInfo fi] |}) finfo), r)
        | None => (sshFxpNamePacket (served_id p)
                    (map (λ fi, {| na_Name := fi_Name fi; na_LongName := runLs (Base (Filepath r)) fi;
                                   na_Attrs := [VFileInfo fi] |}) finfo), r)
        end
      else (status p (Some (EMsg ("unexpected method: " +:+ Method r))), r)
  end.

(** [emptyFileStat]: one zero [uint32]. *)
Definition emptyFileStat : list mval := [VUint32 0].

Definition filestat r p (w : W) : result responsePacket * Request obj lister * W :=
  let '(ls, r, w) :=
    if bool_decide (Method r = "Lstat"%string) then
      match Lstat with
      | Some f => let '(ls, w) := f r w in (ls, r, w)
      | None => let r := set_Method r "Stat" in let '(ls, w) := Filelist r w in (ls, r, w)
      end
    else let '(ls, w) := Filelist r w in (ls, r, w) in
  match ls with
  | Panic => (Panic, r, w)
  | Err e => (Ok (status p (Some e)), r, w)
  | Ok ls =>
      let '(finfo, err) := ListAt ls 1 0 in
      let failed := match err with
                    | Some e => if bool_decide (e = EOF) then None else Some e
                    | None => None
                    end in
      let m := Method r in
      if bool_decide (m = "Stat"%string) || bool_decide (m = "Lstat"%string) then
        match failed, finfo with
        | Some e, _ => (Ok (status p (Some e)), r, w)
        | None, [] => (Ok (status p (Some (EPathError (Filepath r) ENOENT))), r, w)
        | None, fi :: _ => (Ok (sshFxpStatResponse (served_id p) fi), r, w)
        end
      else if bool_decide (m = "Readlink"%string) then
        match failed, finfo with
        | Some e, _ => (Ok (status p (Some e)), r, w)
        | None, [] => (Ok (status p (Some (EPathError (Filepath r) ENOENT))), r, w)
        | None, fi :: _ =>
            (Ok (sshFxpNamePacket (served_id p)
                   [{| na_Name := fi_Name fi; na_LongName := fi_Name fi; na_Attrs := emptyFileStat |}]),
             r, w)
        end
      else (Ok (status p (Some (EMsg ("unexpected method: " +:+ m)))), r, w)
  end.

Definition is_cmd_method (m : string) : bool :=
  bool_decide (m ∈ ["Setstat"; "Rename"; "Rmdir"; "Mkdir"; "Link"; "Symlink"; "Remove"; "PosixRename"]%string).
Definition is_stat_method (m : string) : bool :=
  bool_decide (m ∈ ["Stat"; "Lstat"; "Readlink"]%string).

Definition call r p al orderID (w : W)
  : result responsePacket * Request obj lister * option allocator * W :=
  let m := Method r in
  if bool_decide (m = "Get"%string) then
    let '(x, al, w) := fileget r p al orderID w in (Ok x, r, al, w)
  else if bool_decide (m = "Put"%string) then
    let '(x, al, w) := fileput r p al orderID w in (Ok x, r, al, w)
  else if bool_decide (m = "Open"%string) then
    let '(x, al, w) := fileputget r p al orderID w in (Ok x, r, al, w)
  else if is_cmd_method m then
    let '(x, r, w) := filecmd r p w in (Ok x, r, al, w)
  else if bool_decide (m = "List"%string) then
    let '(x, r) := filelist r p in (Ok x, r, al, w)
  else if is_stat_method m then
    let '(x, r, w) := filestat r p w in (x, r, al, w)
  else (Ok (status p (Some (EMsg ("unexpected method: " +:+ m)))), r, al, w).

(** [cleanPacketPath] *)
Definition cleanPacketPath (id : Z) (path : string) : responsePacket :=
  let path := cleanPath path in
  sshFxpNamePacket id [{| na_Name := path; na_LongName := path; na_Attrs := emptyFileStat |}].

(** ** [packetWorker]: one packet *)
Definition is_handle_response (x : result responsePacket) : bool :=
  match x with Ok (sshFxpHandlePacket _ _) => true | _ => false end.

(** The OPEN and OPENDIR cases: the handle is registered first and removed
    again unless the response is a handle packet. *)
Definition open_with (f : Request obj lister → served → W → result responsePacket * Request obj lister * W)
    p (path : string) rs (w : W) : result responsePacket * RequestServer obj lister * W :=
  let '(h, r, rs) := nextRequest (requestFromPacket p path) rs in
  let '(x, r, w) := f r p w in
  let rs := storeRequest h r rs in
  match x with
  | Panic => (Panic, rs, w)
  | _ =>
      if is_handle_response x then (x, rs, w)
      else let '(_, rs, w) := closeRequest h rs w in (x, rs, w)
  end.

(** A request of its own, which only lives for this call. *)
Definition call_fresh r p orderID rs (w : W)
  : result responsePacket * Request obj lister * RequestServer obj lister * W :=
  let '(x, r, al, w) := call r p (rs_alloc rs) orderID w in
  (x, r, mkRS (openRequests rs) (handleCount rs) al, w).

Definition ebadf p : result responsePacket := Ok (status p (Some (ESyscall EBADF))).

Definition serve_packet p orderID rs (w : W)
  : result responsePacket * RequestServer obj lister * W :=
  match p with
  | plain (sshFxInitPacket _ _) =>
      (Ok (sshFxVersionPacket sftpProtocolVersion sftpExtensions), rs, w)
  | plain (sshFxpClosePacket _ h) =>
      let '(err, rs, w) := closeRequest h rs w in (Ok (status p err), rs, w)
  | plain (sshFxpRealpathPacket id path) => (Ok (cleanPacketPath id path), rs, w)
  | plain (sshFxpOpendirPacket _ path) => open_with opendir p path rs w
  | plain (sshFxpOpenPacket _ path _ _) => open_with open p path rs w
  | plain (sshFxpFstatPacket _ h) =>
      match getRequest h rs with
      | None => (ebadf p, rs, w)
      | Some r =>
          let '(x, _, rs, w) := call_fresh (NewRequest "Stat" (Filepath r)) p orderID rs w in (x, rs, w)
      end
  | plain (sshFxpFsetstatPacket _ _ h _) =>
      match getRequest h rs with
      | None => (ebadf p, rs, w)
      | Some r =>
          let '(x, _, rs, w) := call_fresh (NewRequest "Setstat" (Filepath r)) p orderID rs w in (x, rs, w)
      end
  | specific (sshFxpExtendedPacketPosixRename _ _ oldpath newpath) =>
      let '(x, _, rs, w) :=
        call_fresh (set_Target (NewRequest "PosixRename" oldpath) newpath) p orderID rs w in (x, rs, w)
  | _ =>
      match getHandle p with
      | Some h =>
          match getRequest h rs with
          | None => (ebadf p, rs, w)
          | Some r =>
              let '(x, r, rs, w) := call_fresh r p orderID rs w in (x, storeRequest h r rs, w)
          end
      | None =>
          match getPath p with
          | Some path =>
              let '(x, r, rs, w) := call_fresh (requestFromPacket p path) p orderID rs w in
              let '(_, w) := request_close r w in (x, rs, w)
          | None => (Ok (status p (Some (EFx sshFxOPUnsupported))), rs, w)
          end
      end
  end.

Definition packetWorker (pkt : requestPacket) orderID rs (w : W)
  : result responsePacket * RequestServer obj lister * W :=
  serve_packet (served_packet pkt) orderID rs w.

(** The end of [Serve]: every request still open is told about the error and
    closed (in Go's unspecified map order). *)
Definition Serve_cleanup (err : option error) rs (w : W) : option error * RequestServer obj lister * W :=
  let '(err, w) :=
    foldl (λ '(err, w) (r : Request obj lister),
             let err := match err with Some EOF => Some ErrUnexpectedEOF | _ => err end in
             let w := transferError r err w in
             let '(_, w) := request_close r w in (err, w))
          (err, w) (map_to_list (openRequests rs)).*2 in
  (err, mkRS ∅ (handleCount rs) (Free <$> rs_alloc rs), w).

(** A session: packets served one after the other, with their order ids;
    [None] if a handler panicked. *)
Fixpoint serve_all (pkts : list (Z * requestPacket)) rs (w : W)
  : option (list responsePacket * RequestServer obj lister * W) :=
  match pkts with
  | [] => Some ([], rs, w)
  | (oid, pkt) :: pkts =>
      match packetWorker pkt oid rs w with
      | (Ok x, rs, w) =>
          '(xs, rs, w) ← serve_all pkts rs w; Some (x :: xs, rs, w)
      | _ => None
      end
  end.

(** ** Response ids *)
Lemma status_id p err : response_id (status p err) = served_id p.
Proof. by destruct err. Qed.
Lemma read_response_id p res : response_id (read_response p res) = served_id p.
Proof. destruct res as [data [e|]]; simpl; [|done]. by case_match. Qed.

Definition answers p (x : result responsePacket) : Prop :=
  ∀ y, x = Ok y → response_id y = served_id p.
Lemma answers_ok p y : response_id y = served_id p → answers p (Ok y).
Proof. by intros ? ? [= <-]. Qed.
Lemma answers_panic p : answers p Panic.
Proof. done. Qed.
Hint Resolve status_id read_response_id answers_ok answers_panic : core.

Lemma open_answers r p w x r' w' : open r p w = (x, r', w') → answers p x.
Proof. unfold open. intros E. repeat case_hyp E; simplify_eq; auto. Qed.
Lemma opendir_answers r p w x r' w' : opendir r p w = (x, r', w') → answers p x.
Proof. unfold opendir. intros E. repeat case_hyp E; simplify_eq; auto. Qed.

Lemma fileget_id r p al o w x al' w' : fileget r p al o w = (x, al', w') → response_id x = served_id p.
Proof. unfold fileget. intros E. repeat case_hyp E; simplify_eq; auto. Qed.
Lemma fileput_id r p al o w x al' w' : fileput r p al o w = (x, al', w') → response_id x = served_id p.
Proof. unfold fileput. intros E. repeat case_hyp E; simplify_eq; auto. Qed.
Lemma fileputget_id r p al o w x al' w' :
  fileputget r p al o w = (x, al', w') → response_id x = served_id p.
Proof.
  unfold fileputget. intros E. destruct (writerReaderAt r); [|by simplify_eq].
  destruct p as [[]|]; repeat case_hyp E; simplify_eq; auto.
Qed.
Lemma filecmd_id r p w x r' w' : filecmd r p w = (x, r', w') → response_id x = served_id p.
Proof.
  unfold filecmd. intros E. cbv zeta in E.
  destruct (bool_decide _); [destruct PosixRename as [f|]|].
  - destruct (f _ w) as [err w1]. by simplify_eq.
  - destruct (Filecmd _ w) as [err w1]. by simplify_eq.
  - destruct (Filecmd _ w) as [err w1]. by simplify_eq.
Qed.
Lemma filelist_id r p x r' : filelist r p = (x, r') → response_id x = served_id p.
Proof. unfold filelist. intros E. repeat case_hyp E; simplify_eq; auto. Qed.
Lemma filestat_answers r p w x r' w' : filestat r p w = (x, r', w') → answers p x.
Proof. unfold filestat. intros E. repeat case_hyp E; simplify_eq; auto. Qed.

Lemma call_answers r p al o w x r' al' w' : call r p al o w = (x, r', al', w') → answers p x.
Proof.
  unfold call. intros E. repeat case_bool_decide.
  - destruct (fileget _ _ _ _ _) as [[? ?] ?] eqn:E1. simplify_eq. eauto using fileget_id.
  - destruct (fileput _ _ _ _ _) as [[? ?] ?] eqn:E1. simplify_eq. eauto using fileput_id.
  - destruct (fileputget _ _ _ _ _) as [[? ?] ?] eqn:E1. simplify_eq. eauto using fileputget_id.
  - destruct (is_cmd_method _);
      [destruct (filecmd _ _ _) as [[? ?] ?] eqn:E1; simplify_eq; eauto using filecmd_id|].
    destruct (filelist _ _) as [? ?] eqn:E1. simplify_eq. eauto using filelist_id.
  - destruct (is_cmd_method _);
      [destruct (filecmd _ _ _) as [[? ?] ?] eqn:E1; simplify_eq; eauto using filecmd_id|].
    destruct (is_stat_method _); [|by simplify_eq; auto].
    destruct (filestat _ _ _) as [[? ?] ?] eqn:E1. simplify_eq. eauto using filestat_answers.
Qed.

Lemma call_fresh_answers r p o rs w x r' rs' w' :
  call_fresh r p o rs w = (x, r', rs', w') → answers p x.
Proof.
  unfold call_fresh. destruct (call _ _ _ _ _) as [[[? ?] ?] ?] eqn:E. intros ?. simplify_eq.
  by eapply call_answers.
Qed.

Lemma open_with_answers f p path rs w x rs' w' :
  (∀ r w x r' w', f r p w = (x, r', w') → answers p x) →
  open_with f p path rs w = (x, rs', w') → answers p x.
Proof.
  intros Hf. unfold open_with. destruct (nextRequest _ _) as [[h r] rs1].
  destruct (f r p w) as [[x1 r1] w1] eqn:E. apply Hf in E. intros E1.
  repeat (case_hyp E1; simplify_eq; eauto).
Qed.

(** Every response carries the id of the request it answers, whichever
    branch of the dispatch, success or error, produced it. *)
Theorem response_matches_request pkt oid rs w x rs' w' :
  packetWorker pkt oid rs w = (Ok x, rs', w') → response_id x = served_id (served_packet pkt).
Proof.
  unfold packetWorker. generalize (served_packet pkt). intros p E.
  enough (answers p (Ok x)) as Ha by by apply Ha.
  unfold serve_packet, ebadf in E.
  destruct p as [[]|[]]; cbn [getHandle getPath] in E;
    try (eapply open_with_answers; [|exact E]; eauto using open_answers, opendir_answers; fail);
    repeat (case_hyp E; simplify_eq; eauto using call_fresh_answers).
  all: simplify_eq; apply answers_ok; try done.
  match goal with |- response_id (statusFromError _ _ ?e) = _ => by destruct e end.
Qed.

(** ** The table of open handles *)
Record rs_inv rs : Prop := {
  rs_count : 0 <= handleCount rs;
  rs_keys : ∀ h r, openRequests rs !! h = Some r →
    handle r = h ∧ ∃ k, 1 <= k <= handleCount rs ∧ h = Itoa k
}.

Lemma fresh_handle rs : rs_inv rs → openRequests rs !! Itoa (handleCount rs + 1) = None.
Proof.
  intros [Hc Hk]. destruct (openRequests rs !! _) as [r|] eqn:E; [|done].
  apply Hk in E as [_ (k & ? & E)]. apply (inj pretty) in E. lia.
Qed.

Lemma filecmd_handle r p w x r' w' : filecmd r p w = (x, r', w') → handle r' = handle r.
Proof.
  unfold filecmd. intros E. cbv zeta in E.
  destruct p as [[]|]; repeat case_hyp E; by simplify_eq.
Qed.
Lemma filelist_handle r p x r' : filelist r p = (x, r') → handle r' = handle r.
Proof. unfold filelist. intros E. repeat case_hyp E; by simplify_eq. Qed.
Lemma filestat_handle r p w x r' w' : filestat r p w = (x, r', w') → handle r' = handle r.
Proof. unfold filestat. intros E. case_results; done. Qed.

Lemma call_handle r p al o w x r' al' w' : call r p al o w = (x, r', al', w') → handle r' = handle r.
Proof.
  unfold call. intros E.
  repeat (case_hyp E; simplify_eq; eauto using filecmd_handle, filelist_handle, filestat_handle).
Qed.

(** What serving a packet does to the table: the count grows by at most one,
    and a new key can only be the new handle. *)
Definition table_step rs rs' : Prop :=
  handleCount rs <= handleCount rs' <= handleCount rs + 1 ∧
  ∀ h r', openRequests rs' !! h = Some r' → handle r' = h ∧
    (is_Some (openRequests rs !! h) ∨
     handleCount rs' = handleCount rs + 1 ∧ h = Itoa (handleCount rs + 1)).

Lemma table_step_refl rs rs' :
  rs_inv rs → openRequests rs' = openRequests rs → handleCount rs' = handleCount rs → table_step rs rs'.
Proof.
  intros [Hc Hk] E1 E2. split; [lia|]. rewrite E1. intros h r' Hr.
  split; [by eapply Hk|left; by eexists].
Qed.

Lemma table_step_inv rs rs' : rs_inv rs → table_step rs rs' → rs_inv rs'.
Proof.
  intros [Hc Hk] [Hle Hs]. split; [lia|]. intros h r' Hr.
  apply Hs in Hr as [? [[r Hr]|[? ->]]]; split; try done.
  - apply Hk in Hr as [_ (k & ? & ?)]. exists k. split; [lia|done].
  - exists (handleCount rs + 1). split; [lia|done].
Qed.

Lemma closeRequest_spec h rs w err rs' w' :
  closeRequest h rs w = (err, rs', w') →
  openRequests rs' = delete h (openRequests rs) ∧ handleCount rs' = handleCount rs.
Proof.
  unfold closeRequest. destruct (openRequests rs !! h) eqn:E.
  - destruct (request_close _ _). intros ?. by simplify_eq.
  - intros ?. simplify_eq. by rewrite delete_id.
Qed.

(** Opening: either the new handle is returned and stored, or the table is
    unchanged. *)
Lemma open_with_spec f p path rs w x rs' w' :
  (∀ r w x r' w', f r p w = (x, r', w') → handle r' = handle r ∧
     (is_handle_response x = true → x = Ok (sshFxpHandlePacket (served_id p) (handle r)))) →
  rs_inv rs → handleCount rs + 1 < 2 ^ 63 →
  open_with f p path rs w = (x, rs', w') → x ≠ Panic →
  handleCount rs' = handleCount rs + 1 ∧
  if is_handle_response x then
    x = Ok (sshFxpHandlePacket (served_id p) (Itoa (handleCount rs + 1))) ∧
    ∃ r, handle r = Itoa (handleCount rs + 1) ∧
         openRequests rs' = <[Itoa (handleCount rs + 1) := r]> (openRequests rs) ∧
         f (set_handle (requestFromPacket p path) (Itoa (handleCount rs + 1))) p w = (x, r, w')
  else openRequests rs' = openRequests rs.
Proof.
  intros Hf Hinv Hlt. pose proof (fresh_handle rs Hinv) as Hfresh. destruct (Hinv) as [Hc _].
  unfold open_with, nextRequest. rewrite i64_id by (split; lia).
  destruct (f _ p w) as [[x1 r1] w1] eqn:E. pose proof E as E0. apply Hf in E as [Hh Hx]. simpl in Hh.
  intros E1 Hnp. unfold storeRequest in E1. simpl in E1. rewrite insert_insert_eq in E1.
  destruct (is_handle_response x1) eqn:Hx1.
  - rewrite (Hx eq_refl) in E1, E0 |- *. simplify_eq. simpl. split; [done|]. split; [done|]. by exists r1.
  - assert (x1 = x ∧ handleCount rs' = handleCount rs + 1 ∧ openRequests rs' = openRequests rs)
      as (-> & ? & ?); [|by rewrite Hx1].
    destruct x1 as [y|e|]; [| |by simplify_eq]; rewrite ?Hx1 in E1.
    all: destruct (closeRequest _ _ _) as [[err rs2] w2] eqn:Ec; apply closeRequest_spec in Ec as [Eo Ecnt].
    all: simpl in *; simplify_eq; split_and!; [done|congruence|].
    all: rewrite Eo, delete_insert_id; done.
Qed.

Lemma open_spec r p w x r' w' : open r p w = (x, r', w') → handle r' = handle r ∧
  (is_handle_response x = true → x = Ok (sshFxpHandlePacket (served_id p) (handle r))).
Proof. unfold open. intros E. repeat case_hyp E; simplify_eq; by split; simpl. Qed.
Lemma opendir_spec r p w x r' w' : opendir r p w = (x, r', w') → handle r' = handle r ∧
  (is_handle_response x = true → x = Ok (sshFxpHandlePacket (served_id p) (handle r))).
Proof. unfold opendir. intros E. repeat case_hyp E; simplify_eq; by split; simpl. Qed.

Lemma call_fresh_table r p o rs w x r' rs' w' :
  call_fresh r p o rs w = (x, r', rs', w') →
  openRequests rs' = openRequests rs ∧ handleCount rs' = handleCount rs ∧ handle r' = handle r.
Proof.
  unfold call_fresh. destruct (call _ _ _ _ _) as [[[? ?] ?] ?] eqn:E. intros ?. simplify_eq.
  apply call_handle in E. done.
Qed.

Lemma open_with_table f p path rs w x rs' w' :
  (∀ r w x r' w', f r p w = (x, r', w') → handle r' = handle r ∧
     (is_handle_response x = true → x = Ok (sshFxpHandlePacket (served_id p) (handle r)))) →
  rs_inv rs → handleCount rs + 1 < 2 ^ 63 →
  open_with f p path rs w = (x, rs', w') → x ≠ Panic → table_step rs rs'.
Proof.
  intros Hf Hinv Hlt E Hx. destruct (open_with_spec _ _ _ _ _ _ _ _ Hf Hinv Hlt E Hx) as [Hc Ho].
  split; [lia|]. intros h r' Hr. destruct (is_handle_response x).
  - destruct Ho as (_ & r & Hh & Ho & _). rewrite Ho in Hr.
    apply lookup_insert_Some in Hr as [[<- <-]|[_ Hr]]; [by auto|].
    split; [by eapply (rs_keys rs Hinv)|left; by eexists].
  - rewrite Ho in Hr. split; [by eapply (rs_keys rs Hinv)|left; by eexists].
Qed.

Lemma packetWorker_table pkt oid rs w x rs' w' :
  rs_inv rs → handleCount rs + 1 < 2 ^ 63 →
  packetWorker pkt oid rs w = (x, rs', w') → x ≠ Panic → table_step rs rs'.
Proof.
  intros Hinv Hlt E Hx. unfold packetWorker in E. revert E. generalize (served_packet pkt).
  intros p E. unfold serve_packet, ebadf in E.
  destruct p as [[]|[]]; cbn [getHandle getPath] in E;
    try (eapply open_with_table; [|exact Hinv|exact Hlt|exact E|done];
         eauto using open_spec, opendir_spec; fail);
    case_results; simplify_eq; try (by apply table_step_refl);
    repeat match goal with
    | Hc : call_fresh _ _ _ _ _ = _ |- _ => apply call_fresh_table in Hc as (Ho & Hn & Hh)
    | Hc : closeRequest _ _ _ = _ |- _ => apply closeRequest_spec in Hc as (Ho & Hn)
    end;
    try (by apply table_step_refl).
  all: split; [simpl; lia|]; intros h' r' Hr; simpl in Hr; rewrite Ho in Hr.
  1: apply lookup_delete_Some in Hr as [_ Hr]; split; [by eapply (rs_keys rs Hinv)|left; by eexists].
  all: apply lookup_insert_Some in Hr as [[<- <-]|[_ Hr]];
    [|split; [by eapply (rs_keys rs Hinv)|left; by eexists]].
  all: unfold getRequest in *; rewrite Hh;
    split; [by eapply (rs_keys rs Hinv)|left; by eexists].
Qed.

Lemma serve_all_table pkts rs w xs rs' w' :
  rs_inv rs → handleCount rs + zlen pkts < 2 ^ 63 →
  serve_all pkts rs w = Some (xs, rs', w') →
  rs_inv rs' ∧ handleCount rs <= handleCount rs' ∧
  ∀ k, 1 <= k <= handleCount rs → openRequests rs !! Itoa k = None → openRequests rs' !! Itoa k = None.
Proof.
  revert rs w xs. induction pkts as [|[oid pkt] pkts IH]; intros rs w xs Hinv Hlt E; simpl in E.
  { simplify_eq. auto with lia. }
  rewrite zlen_cons in Hlt. pose proof (zlen_nonneg pkts).
  destruct (packetWorker pkt oid rs w) as [[x rs1] w1] eqn:Ew. destruct x as [x|e|]; [|done|done].
  apply packetWorker_table in Ew; [|done|lia|done].
  apply bind_Some in E as [[[xs1 rs2] w2] [E1 E2]]. simplify_eq.
  pose proof (table_step_inv _ _ Hinv Ew) as Hinv1. destruct Ew as [Hc Hs].
  destruct (IH rs1 w1 xs1) as (? & ? & Hd); [done|lia|done|].
  split_and!; [done|lia|]. intros k Hk Hn. apply Hd; [lia|].
  destruct (openRequests rs1 !! Itoa k) as [r|] eqn:Er; [|done].
  apply Hs in Er as [_ [[? ?]|[_ E]]]; [congruence|]. apply (inj pretty) in E. lia.
Qed.

(** A packet on a handle that is not open. *)
Lemma packetWorker_ebadf pkt oid rs w h :
  getHandle (served_packet pkt) = Some h → openRequests rs !! h = None →
  packetWorker pkt oid rs w = (ebadf (served_packet pkt), rs, w).
Proof.
  intros Hh Hn. unfold packetWorker. destruct (served_packet pkt) as [[]|]; simplify_eq/=;
    unfold closeRequest, getRequest; by rewrite Hn.
Qed.

(** A request as an OPEN or OPENDIR packet asks for it. *)
Definition asked (method path : string) (pflags : Z) (h : string) : Request obj lister :=
  mkRequest _ _ method (cleanPath path) pflags [] EmptyString h None None None None 0.

(** What is registered for an OPEN or OPENDIR packet: the handler that its
    flags select was called once, with the path and the flags of the packet,
    and the request holds the object that this handler returned. *)
Inductive registered (w w' : W) (h : string) : requestPacket → Request obj lister → Prop :=
  | registered_get id path pflags flags o :
      let fl := newFileOpenFlags pflags in
      Write fl || Append fl || Creat fl || Trunc fl = false → Read fl = true →
      Fileread (asked "Get" path pflags h) w = (Ok o, w') →
      registered w w' h (sshFxpOpenPacket id path pflags flags) (set_readerAt (asked "Get" path pflags h) (Some o))
  | registered_put id path pflags flags o :
      let fl := newFileOpenFlags pflags in
      Write fl || Append fl || Creat fl || Trunc fl = true → Read fl = false ∨ OpenFile = None →
      Filewrite (asked "Put" path pflags h) w = (Ok o, w') →
      registered w w' h (sshFxpOpenPacket id path pflags flags) (set_writerAt (asked "Put" path pflags h) (Some o))
  | registered_open id path pflags flags f o :
      let fl := newFileOpenFlags pflags in
      Write fl || Append fl || Creat fl || Trunc fl = true → Read fl = true → OpenFile = Some f →
      f (asked "Open" path pflags h) w = (Ok o, w') →
      registered w w' h (sshFxpOpenPacket id path pflags flags) (set_writerReaderAt (asked "Open" path pflags h) (Some o))
  | registered_list id path la :
      Filelist (asked "List" path 0 h) w = (Ok la, w') →
      registered w w' h (sshFxpOpendirPacket id path) (setListerState (asked "List" path 0 h) (Some la)).

Lemma open_registered id path pflags flags h w x r w' :
  let p := plain (sshFxpOpenPacket id path pflags flags) in
  open (set_handle (requestFromPacket p path) h) p w = (x, r, w') → is_handle_response x = true →
  registered w w' h (sshFxpOpenPacket id path pflags flags) r.
Proof.
  intros p. unfold open. change (Pflags (set_handle (requestFromPacket p path) h)) with (newFileOpenFlags pflags).
  destruct (Write _ || _ || _ || _) eqn:Hw; [|destruct (Read (newFileOpenFlags pflags)) eqn:Hr; [|by intros [= <- _ _]]].
  - destruct (if Read (newFileOpenFlags pflags) then OpenFile else None) as [f|] eqn:Ef.
    + destruct (Read (newFileOpenFlags pflags)) eqn:Hr; [|done].
      destruct (f _ w) as [[o| |] w1] eqn:Eo; intros [= <- <- <-] Hx; try done. by eapply registered_open.
    + destruct (Filewrite _ w) as [[o| |] w1] eqn:Eo; intros [= <- <- <-] Hx; try done.
      eapply registered_put; [done| |done]. destruct (Read (newFileOpenFlags pflags)); [by right|by left].
  - destruct (Fileread _ w) as [[o| |] w1] eqn:Eo; intros [= <- <- <-] Hx; try done. by eapply registered_get.
Qed.

Lemma opendir_registered id path h w x r w' :
  let p := plain (sshFxpOpendirPacket id path) in
  opendir (set_handle (requestFromPacket p path) h) p w = (x, r, w') → is_handle_response x = true →
  registered w w' h (sshFxpOpendirPacket id path) r.
Proof.
  intros p. unfold opendir. destruct (Filelist _ w) as [[la| |] w1] eqn:Ela; intros [= <- <- <-] Hx; try done.
  by eapply registered_list.
Qed.

(** C23: An OPEN or OPENDIR packet either is answered with a handle that was
    not in use, under which exactly this request is registered: the one with
    the cleaned path and the flags of the packet, holding the object that the
    handler its flags select returned for it. Or it is answered with an error
    and the table of open handles is what it was: a failed open leaves no
    handle behind. Handle numbers are below 2^63. *)
Theorem open_registers_or_rolls_back pkt oid rs w x rs' w' :
  rs_inv rs → handleCount rs + 1 < 2 ^ 63 →
  (∃ id path pflags flags, pkt = sshFxpOpenPacket id path pflags flags)
    ∨ (∃ id path, pkt = sshFxpOpendirPacket id path) →
  packetWorker pkt oid rs w = (Ok x, rs', w') →
  let h := Itoa (handleCount rs + 1) in
  (x = sshFxpHandlePacket (request_id pkt) h ∧ openRequests rs !! h = None
     ∧ ∃ r, registered w w' h pkt r ∧ handle r = h ∧ openRequests rs' = <[h := r]> (openRequests rs))
  ∨ ((∀ i h', x ≠ sshFxpHandlePacket i h') ∧ openRequests rs' = openRequests rs).
Proof.
  intros Hinv Hlt Hp E h.
  assert (∃ f path, open_with f (plain pkt) path rs w = (Ok x, rs', w') ∧
    (∀ r w x r' w', f r (plain pkt) w = (x, r', w') → handle r' = handle r ∧
     (is_handle_response x = true → x = Ok (sshFxpHandlePacket (request_id pkt) (handle r)))) ∧
    (∀ x r, f (set_handle (requestFromPacket (plain pkt) path) h) (plain pkt) w = (x, r, w') →
      is_handle_response x = true → registered w w' h pkt r))
    as (f & path & Eo & Hf & Hreg).
  { destruct Hp as [(id & path & pf & fl & ->)|(id & path & ->)]; eexists _, path; (split; [exact E|]);
      (split; intros); [by eapply (open_spec _ (plain (sshFxpOpenPacket _ _ _ _)))|by eapply open_registered
      |by eapply (opendir_spec _ (plain (sshFxpOpendirPacket _ _)))|by eapply opendir_registered]. }
  destruct (open_with_spec f (plain pkt) path rs w (Ok x) rs' w') as [_ Ho]; [done..|].
  destruct (is_handle_response (Ok x)) eqn:Ex.
  - left. destruct Ho as ([= ->] & r & Hr & Ho & Ef). split_and!; [done|by apply fresh_handle|exists r; eauto].
  - right. split; [|done]. by intros i h' ->.
Qed.

(** C26: After a CLOSE was served, its handle stays invalid for the rest of
    the session: whatever packets follow, every packet that names the handle
    is answered with EBADF and reaches no handler, since handles are never
    reused. *)
Theorem closed_handle_stays_dead id k oid rs w x rs1 w1 pkts xs rs2 w2 pkt oid' :
  rs_inv rs → handleCount rs + zlen pkts < 2 ^ 63 → 1 <= k <= handleCount rs →
  packetWorker (sshFxpClosePacket id (Itoa k)) oid rs w = (Ok x, rs1, w1) →
  serve_all pkts rs1 w1 = Some (xs, rs2, w2) →
  getHandle (served_packet pkt) = Some (Itoa k) →
  packetWorker pkt oid' rs2 w2
  = (Ok (statusFromError errText (served_id (served_packet pkt)) (Some (ESyscall EBADF))), rs2, w2).
Proof.
  intros Hinv Hlt Hk Hclose Hall Hpkt. eapply packetWorker_ebadf; [exact Hpkt|].
  unfold packetWorker, serve_packet in Hclose. simpl in Hclose.
  destruct (closeRequest _ _ _) as [[err rs1'] w1'] eqn:Ec. simplify_eq.
  apply closeRequest_spec in Ec as [Ho Hn].
  assert (Hinv1 : rs_inv rs1).
  { split; [rewrite Hn; apply Hinv|]. rewrite Ho, Hn. intros h r [_ Hr]%lookup_delete_Some.
    by apply Hinv. }
  destruct (serve_all_table pkts rs1 w1 xs rs2 w2) as (_ & _ & Hd); [done|lia|done|].
  apply Hd; [lia|]. by rewrite Ho, lookup_delete_eq.
Qed.

End server.

(** ** What the server relies on in its handlers

    A reader fills at most the buffer it is given, and a lister behaves like
    [listerAt] of serv/lister.go: it copies the entries from the offset on and
    reports [io.EOF] when it could not fill the buffer. *)
Class HandlersSpec (W obj lister : Type) `{Handlers W obj lister} := {
  ReadAt_bound o n off w data err w' :
    0 <= n → ReadAt o n off w = ((data, err), w') → zlen data <= n;
  entries : lister → list FileInfo;
  ListAt_spec ls n off :
    0 < n → 0 <= off →
    ListAt ls n off =
      let l := take (Z.to_nat n) (drop (Z.to_nat off) (entries ls)) in
      (l, if zlen l <? n then Some EOF else None)
}.

Section spec.
Context {W obj lister : Type} `{HS : HandlersSpec W obj lister}.
Context (errText : error → string) (runLs : string → FileInfo → string)
        (sftpExtensions : list extensionPair).
Implicit Types (r : Request obj lister) (rs : RequestServer obj lister) (w : W).

Abbreviation worker := (packetWorker errText runLs sftpExtensions).

(** A READDIR loop like the one of [Client.ReadDir] (sftp/client.go) against this
    server: ask until the server answers with an EOF status. *)
Fixpoint readdir_until_eof (fuel : nat) (id : Z) (h : string) rs w : option (list string * RequestServer obj lister * W) :=
  match fuel with
  | O => None
  | S fuel =>
      match worker (sshFxpReaddirPacket id h) 0 rs w with
      | (Ok (sshFxpNamePacket _ l), rs, w) =>
          '(names, rs, w) ← readdir_until_eof fuel id h rs w; Some (map na_Name l ++ names, rs, w)
      | (Ok (sshFxpStatusPacket _ e), rs, w) =>
          if se_Code e =? sshFxEOF then Some ([], rs, w) else None
      | _ => None
      end
  end.

Lemma call_list r p al o w : Method r = "List"%string →
  call errText runLs r p al o w = let '(x, r) := filelist errText runLs r p in (Ok x, r, al, w).
Proof. intros Hm. unfold call. rewrite Hm. reflexivity. Qed.

(** An entry as it is listed. *)
Definition listed (dir : string) (fi : FileInfo) : sshFxpNameAttr :=
  {| na_Name := fi_Name fi; na_LongName := runLs (Base dir) fi; na_Attrs := [VFileInfo fi] |}.

Lemma worker_readdir id h rs w r ls :
  openRequests rs !! h = Some r → Method r = "List"%string → listerAt r = Some ls →
  0 <= lsoffset r →
  let l := take (Z.to_nat MaxFilelist) (drop (Z.to_nat (lsoffset r)) (entries ls)) in
  ∃ x, worker (sshFxpReaddirPacket id h) 0 rs w
       = (Ok x, storeRequest h (lsInc r (zlen l)) rs, w) ∧
  if zlen l =? 0 then ∃ e, x = sshFxpStatusPacket id e ∧ se_Code e = sshFxEOF
  else x = sshFxpNamePacket id (map (listed (Filepath r)) l).
Proof.
  intros Hr Hm Hl Hoff l. unfold packetWorker, serve_packet, getRequest. simpl. rewrite Hr.
  unfold call_fresh. rewrite call_list by done. unfold filelist.
  rewrite Hl, ListAt_spec by (done || unfold MaxFilelist; lia). cbv beta iota zeta. fold l.
  rewrite (bool_decide_true (Method (lsInc r (zlen l)) = "List"%string)) by done.
  destruct (zlen l <? MaxFilelist) eqn:Hlt.
  - rewrite (bool_decide_true (EOF = EOF)) by done. simpl.
    destruct (zlen l =? 0) eqn:Hz; (eexists; split; [reflexivity|]).
    + by eexists.
    + done.
  - apply Z.ltb_ge in Hlt. unfold MaxFilelist in Hlt. destruct (Z.eqb_spec (zlen l) 0); [lia|].
    eexists; split; [reflexivity|]. done.
Qed.

Lemma readdir_from id h ls fuel rs w r :
  openRequests rs !! h = Some r → Method r = "List"%string → listerAt r = Some ls →
  0 <= lsoffset r <= zlen (entries ls) → zlen (entries ls) < 2 ^ 63 →
  zlen (entries ls) - lsoffset r + 100 <= 100 * Z.of_nat fuel →
  ∃ rs', readdir_until_eof fuel id h rs w
    = Some (map fi_Name (drop (Z.to_nat (lsoffset r)) (entries ls)), rs', w).
Proof.
  revert rs w r. induction fuel as [|fuel IH]; intros rs w r Hr Hm Hl Hoff Hmax Hfuel; [lia|].
  destruct (worker_readdir id h rs w r ls) as (x & E & Hx); [done..|lia|]. cbn [readdir_until_eof].
  set (l := take _ _) in *. rewrite E.
  assert (Hll : zlen l = Z.min 100 (zlen (entries ls) - lsoffset r)).
  { unfold l, zlen in *. rewrite length_take, length_drop. unfold MaxFilelist. lia. }
  destruct (Z.eqb_spec (zlen l) 0) as [Hz|Hz].
  - destruct Hx as (e & -> & ->). simpl. eexists.
    rewrite (drop_ge (entries ls)); [done|]. unfold zlen in *. lia.
  - subst x.
    assert (Hoff' : i64 (lsoffset r + zlen l) = lsoffset r + zlen l).
    { apply i64_id. unfold is_i64. lia. }
    destruct (IH (storeRequest h (lsInc r (zlen l)) rs) w (lsInc r (zlen l))) as [rs' E'];
      [apply lookup_insert_eq|done|done|cbn [lsInc lsoffset]; rewrite Hoff'; lia|done
      |cbn [lsInc lsoffset]; rewrite Hoff'; lia|].
    cbn [lsInc lsoffset] in E'.
    rewrite E'. simpl. exists rs'. rewrite map_map, Hoff'. change (λ x, na_Name (listed (Filepath r) x)) with fi_Name. rewrite <- map_app.
    enough (l ++ drop (Z.to_nat (lsoffset r + zlen l)) (entries ls)
            = drop (Z.to_nat (lsoffset r)) (entries ls)) as -> by done.
    replace (Z.to_nat (lsoffset r + zlen l)) with (Z.to_nat (lsoffset r) + length l)%nat
      by (unfold zlen in *; lia).
    rewrite <- drop_drop. unfold l at 1.
    replace (length l) with (Z.to_nat (Z.min 100 (zlen (entries ls) - lsoffset r)))
      by (rewrite <- Hll; unfold zlen; lia).
    destruct (decide (zlen (entries ls) - lsoffset r <= 100)).
    + rewrite Z.min_r by lia. rewrite !take_ge, (drop_ge (drop _ _)), app_nil_r; [done|..];
        rewrite length_drop; unfold zlen, MaxFilelist in *; lia.
    + rewrite Z.min_l by lia. apply take_drop.
Qed.

(** C32: Listing a directory is complete: on an open directory handle, asking
    READDIR until EOF terminates after at most one request per hundred entries
    plus one, yields the name of every entry exactly once and in order, and
    touches no handler state. *)
Theorem readdir_complete id h ls rs w r :
  openRequests rs !! h = Some r → Method r = "List"%string → listerAt r = Some ls →
  lsoffset r = 0 → zlen (entries ls) < 2 ^ 63 →
  ∃ rs', readdir_until_eof (S (S (length (entries ls) / 100))) id h rs w
         = Some (map fi_Name (entries ls), rs', w).
Proof.
  intros Hr Hm Hl Hoff Hmax.
  destruct (readdir_from id h ls (S (S (length (entries ls) / 100))) rs w r) as [rs' E]; try done.
  - rewrite Hoff. pose proof (zlen_nonneg (entries ls)). lia.
  - rewrite Hoff. unfold zlen. pose proof (Nat.div_mod_eq (length (entries ls)) 100).
    pose proof (Nat.mod_upper_bound (length (entries ls)) 100). lia.
  - exists rs'. by rewrite E, Hoff.
Qed.

(** A READ is never answered with more data than the client asked for, nor
    with more than [maxTxPacket] bytes, and the length field of the answer is
    the length of its data. *)
Theorem read_response_bounded id len off h oid rs w i l d rs' w' :
  0 <= len →
  worker (sshFxpReadPacket id len off h) oid rs w = (Ok (sshFxpDataPacket i l d), rs', w') →
  l = zlen d ∧ zlen d <= len ∧ zlen d <= maxTxPacket.
Proof.
  intros Hlen E. unfold packetWorker, serve_packet, ebadf in E. simpl in E.
  destruct (getRequest h rs) as [r|]; [|by simplify_eq].
  destruct (call_fresh _ _ _ _ _ _ _) as [[[x r1] rs1] w1] eqn:Ec. simplify_eq.
  unfold call_fresh in Ec. destruct (call _ _ _ _ _ _ _) as [[[x1 r2] al] w2] eqn:E. simplify_eq.
  set (n := clamp len maxTxPacket) in *.
  assert (Hn : 0 <= n <= len ∧ n <= maxTxPacket).
  { unfold n, clamp. change maxTxPacket with 32768. destruct (Z.ltb_spec 32768 len); lia. }
  assert (Hbuf : zlen (replicate (Z.to_nat n) (byte_of_Z 0)) = n).
  { unfold zlen. rewrite length_replicate. lia. }
  assert (Hread : ∀ o w w' res,
    ReadAt o (zlen (replicate (Z.to_nat n) (byte_of_Z 0))) (i64 off) w = (res, w') →
    read_response errText (plain (sshFxpReadPacket id len off h)) res = sshFxpDataPacket i l d →
    l = zlen d ∧ zlen d <= n).
  { intros o w3 w3' [data err] Hra Hrr. rewrite Hbuf in Hra. apply ReadAt_bound in Hra; [|lia].
    assert (u32 (zlen data) = zlen data) as Hu.
    { apply u32_id. change maxTxPacket with 32768 in Hn. pose proof (zlen_nonneg data). split; lia. }
    destruct err as [e|]; simpl in Hrr; [case_match|]; simplify_eq; lia. }
  enough (l = zlen d ∧ zlen d <= n) by lia.
  unfold call, fileget, fileput, fileputget, filecmd, filelist, filestat in E.
  cbn [packetData] in E. fold n in E.
  case_results; eauto.
  all: match goal with E : statusFromError _ _ ?e = sshFxpDataPacket _ _ _ |- _ => by destruct e end.
Qed.
End spec.

(** ** Witnesses

    A small handler set: one readable file, one listable directory, and a
    world that counts the closed objects. *)
Module Demo.
Definition content : list byte := bytes_of_string "hello".
Definition entry (n : string) : FileInfo :=
  {| fi_Name := n; fi_Size := 5; fi_Mode := 0x1a4; fi_ModTime := 0; fi_Sys := None |}.

#[global] Instance handlers : Handlers nat unit (list FileInfo) := {
  Fileread r w := (if decide (Filepath r = "/f"%string) then Ok tt else Err (EFx sshFxNoSuchFile), w);
  Filewrite _ w := (Err (EFx sshFxPermissionDenied), w);
  OpenFile := None;
  Filecmd _ w := (Some (EFx sshFxOPUnsupported), w);
  PosixRename := None;
  Filelist _ w := (Ok [entry "f"%string; entry "g"%string], w);
  Lstat := None;
  ReadAt _ n off w :=
    let l := take (Z.to_nat n) (drop (Z.to_nat off) content) in
    ((l, if zlen l <? n then Some EOF else None), w);
  WriteAt _ _ _ w := ((0, Some (EMsg "read only")), w);
  obj_Close _ w := (Some None, S w);
  TransferError _ _ w := w;
  ListAt ls n off :=
    let l := take (Z.to_nat n) (drop (Z.to_nat off) ls) in
    (l, if zlen l <? n then Some EOF else None)
}.

#[global] Instance handlers_spec : HandlersSpec nat unit (list FileInfo).
Proof.
  refine {| entries := λ ls : list FileInfo, ls |}; [|done].
  intros o n off w data err w' Hn [= <- _ _]. unfold zlen. rewrite length_take. lia.
Defined.

Definition errText (_ : error) : string := "error".
Definition ls (_ : string) (fi : FileInfo) : string := fi_Name fi.
Definition rs0 : RequestServer unit (list FileInfo) := mkRS ∅ 0 None.
Definition served_one (p : requestPacket) (s : result responsePacket * RequestServer unit (list FileInfo) * nat) :=
  packetWorker errText ls supportedSFTPExtensions p 1 (snd (fst s)) (snd s).
(** One open file (handle 1) and one open directory (handle 2). *)
Definition opened :=
  served_one (sshFxpOpendirPacket 8 "/") (served_one (sshFxpOpenPacket 7 "f" 1 0) (Panic, rs0, O)).
Definition rs1 : RequestServer unit (list FileInfo) := snd (fst opened).

Lemma rs0_inv : rs_inv rs0.
Proof. by split. Qed.
Lemma served_one_inv p s :
  rs_inv (snd (fst s)) → handleCount (snd (fst s)) + 1 < 2 ^ 63 →
  fst (fst (served_one p s)) ≠ Panic → rs_inv (snd (fst (served_one p s))).
Proof.
  unfold served_one. intros Hi Hc Hp.
  destruct (packetWorker _ _ _ _ _ _ _) as [[x rs'] w'] eqn:E.
  eapply table_step_inv; [exact Hi|]. by eapply packetWorker_table.
Qed.
Lemma rs1_inv : rs_inv rs1.
Proof.
  unfold rs1, opened. repeat apply served_one_inv; try (vm_compute; done).
Qed.
End Demo.

Lemma response_matches_request_witness :
  ∃ x rs' w', packetWorker Demo.errText Demo.ls [] (sshFxpOpenPacket 7 "f" 1 0) 1 Demo.rs0 O = (Ok x, rs', w')
    ∧ response_id x = 7.
Proof.
  eexists _, _, _. split; [vm_compute; reflexivity|].
  eapply (response_matches_request Demo.errText Demo.ls [] (sshFxpOpenPacket 7 "f" 1 0) 1 Demo.rs0 O).
  vm_compute. reflexivity.
Defined.

Lemma open_registers_or_rolls_back_witness :
  let '(x, rs', w') := packetWorker Demo.errText Demo.ls [] (sshFxpOpenPacket 7 "f" 1 0) 1 Demo.rs1 O in
  x = Ok (sshFxpHandlePacket 7 "3")
  ∧ ∃ r, registered O w' "3" (sshFxpOpenPacket 7 "f" 1 0) r ∧ openRequests rs' = <["3"%string := r]> (openRequests Demo.rs1).
Proof.
  destruct (packetWorker Demo.errText Demo.ls [] (sshFxpOpenPacket 7 "f" 1 0) 1 Demo.rs1 O) as [[x rs'] w'] eqn:E.
  assert (x = Ok (sshFxpHandlePacket 7 "3")) as -> by (vm_compute in E; by injection E as <- _ _).
  split; [reflexivity|].
  destruct (open_registers_or_rolls_back Demo.errText Demo.ls [] (sshFxpOpenPacket 7 "f" 1 0) 1 Demo.rs1 O
    _ _ _ Demo.rs1_inv eq_refl (or_introl (ex_intro _ 7 (ex_intro _ "f"%string (ex_intro _ 1 (ex_intro _ 0 eq_refl))))) E)
    as [(_ & _ & r & Hr & _ & Ho)|[Hn _]].
  - exists r. split; [exact Hr|exact Ho].
  - by destruct (Hn 7 "3"%string).
Defined.

(** Close handle 1, open another file, then read from handle 1. *)
Lemma closed_handle_stays_dead_witness :
  ∃ x rs1 w1 xs rs2 w2,
    packetWorker Demo.errText Demo.ls [] (sshFxpClosePacket 9 "1") 2 Demo.rs1 O = (Ok x, rs1, w1)
    ∧ serve_all Demo.errText Demo.ls [] [(3, sshFxpOpenPacket 10 "f" 1 0)] rs1 w1 = Some (xs, rs2, w2)
    ∧ packetWorker Demo.errText Demo.ls [] (sshFxpReadPacket 11 5 0 "1") 4 rs2 w2
      = (Ok (statusFromError Demo.errText 11 (Some (ESyscall EBADF))), rs2, w2).
Proof.
  eexists _, _, _, _, _, _. split; [vm_compute; reflexivity|].
  split; [vm_compute; reflexivity|].
  eapply (closed_handle_stays_dead Demo.errText Demo.ls [] 9 1 2 Demo.rs1 O _ _ _
            [(3, sshFxpOpenPacket 10 "f" 1 0)]).
  - apply Demo.rs1_inv.
  - vm_compute. reflexivity.
  - vm_compute. split; discriminate.
  - vm_compute. reflexivity.
  - vm_compute. reflexivity.
  - reflexivity.
Defined.

Lemma readdir_complete_witness :
  ∃ r rs', openRequests Demo.rs1 !! "2"%string = Some r ∧
    readdir_until_eof Demo.errText Demo.ls [] 2 5 "2" Demo.rs1 O = Some (["f"; "g"]%string, rs', O).
Proof.
  destruct (openRequests Demo.rs1 !! "2"%string) as [r|] eqn:Hr; [|by vm_compute in Hr].
  destruct (readdir_complete Demo.errText Demo.ls [] 5 "2"
    [Demo.entry "f"%string; Demo.entry "g"%string] Demo.rs1 O r) as [rs' E];
    [exact Hr|vm_compute in Hr; injection Hr as <-; reflexivity
    |vm_compute in Hr; injection Hr as <-; reflexivity
    |vm_compute in Hr; injection Hr as <-; reflexivity|vm_compute; reflexivity|].
  exists r, rs'. split; [reflexivity|exact E].
Defined.

Lemma read_response_bounded_witness :
  ∃ d rs' w', packetWorker Demo.errText Demo.ls [] (sshFxpReadPacket 11 3 1 "1") 4 Demo.rs1 O
    = (Ok (sshFxpDataPacket 11 3 d), rs', w') ∧ 3 = zlen d ∧ zlen d <= 3 ∧ zlen d <= maxTxPacket.
Proof.
  eexists _, _, _. split; [vm_compute; reflexivity|].
  eapply (read_response_bounded Demo.errText Demo.ls [] 11 3 1 "1" 4 Demo.rs1 O);
    [lia|vm_compute; reflexivity].
Defined.
