(* ===== verification/DataProvider.v ===== *)
(** * Users and the data provider front end: utils/utils.go (string helpers),
    dataprovider/user.go and dataprovider/dataprovider.go

    Password hashing and SSH key parsing are third-party packages and appear
    as the fields of [Crypto]; the storage back end is the Go interface
    [Provider], a class over the type of its state. *)
From Stdlib Require Import Ascii.
From stdpp Require Import base tactics option list strings gmap pretty.
From Stdlib Require Import ZArith Lia.
From S2P Require Import Prelude GoPath GoStrconv GoJson.

(** ** utils *)
Definition IsStringInSlice (obj : string) (l : list string) : bool :=
  existsb (λ v, bool_decide (v = obj)) l.
Definition IsStringPrefixInSlice (obj : string) (l : list string) : bool :=
  existsb (λ v, strings_HasPrefix obj v) l.
#[global] Arguments IsStringInSlice : simpl never.
#[global] Arguments IsStringPrefixInSlice : simpl never.
Definition GetTimeAsMsSinceEpoch (t : Z) : Z := Z.quot t 1000000.

(** ** Users *)
Definition PermAny : string := "*".
Definition PermListItems : string := "list".
Definition PermDownload : string := "download".
Definition PermUpload : string := "upload".
Definition PermDelete : string := "delete".
Definition PermRename : string := "rename".
Definition PermCreateDirs : string := "create_dirs".
Definition PermCreateSymlinks : string := "create_symlinks".
Definition PermShell : string := "shell".
Definition PermTCPForward : string := "tcpforward".

Record User := mkUser {
  ID : Z;
  Username : string;
  Password : string;
  PublicKeys : list string;
  HomeDir : string;
  UID : Z;
  GID : Z;
  MaxSessions : Z;
  QuotaSize : Z;
  QuotaFiles : Z;
  Permissions : list string;
  UsedQuotaSize : Z;
  UsedQuotaFiles : Z;
  LastQuotaUpdate : Z;
  UploadBandwidth : Z;
  DownloadBandwidth : Z
}.
#[global] Instance User_eq_dec : EqDecision User.
Proof. solve_decision. Defined.

Definition set_ID (u : User) (i : Z) : User :=
  mkUser i (Username u) (Password u) (PublicKeys u) (HomeDir u) (UID u) (GID u) (MaxSessions u)
    (QuotaSize u) (QuotaFiles u) (Permissions u) (UsedQuotaSize u) (UsedQuotaFiles u)
    (LastQuotaUpdate u) (UploadBandwidth u) (DownloadBandwidth u).
Definition set_Password (u : User) (p : string) : User :=
  mkUser (ID u) (Username u) p (PublicKeys u) (HomeDir u) (UID u) (GID u) (MaxSessions u)
    (QuotaSize u) (QuotaFiles u) (Permissions u) (UsedQuotaSize u) (UsedQuotaFiles u)
    (LastQuotaUpdate u) (UploadBandwidth u) (DownloadBandwidth u).
Definition set_PublicKeys (u : User) (k : list string) : User :=
  mkUser (ID u) (Username u) (Password u) k (HomeDir u) (UID u) (GID u) (MaxSessions u)
    (QuotaSize u) (QuotaFiles u) (Permissions u) (UsedQuotaSize u) (UsedQuotaFiles u)
    (LastQuotaUpdate u) (UploadBandwidth u) (DownloadBandwidth u).
Definition set_Permissions (u : User) (p : list string) : User :=
  mkUser (ID u) (Username u) (Password u) (PublicKeys u) (HomeDir u) (UID u) (GID u) (MaxSessions u)
    (QuotaSize u) (QuotaFiles u) p (UsedQuotaSize u) (UsedQuotaFiles u)
    (LastQuotaUpdate u) (UploadBandwidth u) (DownloadBandwidth u).
Definition set_UsedQuota (u : User) (size files upd : Z) : User :=
  mkUser (ID u) (Username u) (Password u) (PublicKeys u) (HomeDir u) (UID u) (GID u) (MaxSessions u)
    (QuotaSize u) (QuotaFiles u) (Permissions u) size files upd (UploadBandwidth u)
    (DownloadBandwidth u).

Definition HasPerm (u : User) (permission : string) : bool :=
  if IsStringInSlice PermAny (Permissions u) then true
  else IsStringInSlice permission (Permissions u).

Definition GetUID (u : User) : Z := if (UID u <=? 0) || (65535 <? UID u) then -1 else UID u.
Definition GetGID (u : User) : Z := if (GID u <=? 0) || (65535 <? GID u) then -1 else GID u.
Definition GetHomeDir (u : User) : string := Clean (HomeDir u).
Definition HasQuotaRestrictions (u : User) : bool := (0 <? QuotaFiles u) || (0 <? QuotaSize u).
Definition GetRelativePath (u : User) (path : string) : string :=
  match Rel (GetHomeDir u) path with
  | Ok rel => "/" +:+ rel
  | _ => EmptyString
  end.
(** [user.Password = ""; user.PublicKeys = []string{}] *)
Definition getUserNoCredentials (u : User) : User := set_PublicKeys (set_Password u EmptyString) [].

(** ** Third-party cryptography

    [ParseAuthorizedKey] yields the wire form ([Marshal()]) of the key;
    [pbkdf2_Key password salt iterations keyLen hash]. *)
Inductive hashFunc := sha1_New | sha256_New | sha512_New.
Class Crypto := {
  argon2id_CreateHash : string → result string;
  argon2id_ComparePasswordAndHash : string → string → result bool;
  bcrypt_CompareHashAndPassword : string → string → option error;
  pbkdf2_Key : list byte → list byte → Z → Z → hashFunc → list byte;
  ParseAuthorizedKey : string → result string
}.

Definition argonPwdPrefix : string := "$argon2id$".
Definition bcryptPwdPrefix : string := "$2a$".
Definition pbkdf2SHA1Prefix : string := "$pbkdf2-sha1$".
Definition pbkdf2SHA256Prefix : string := "$pbkdf2-sha256$".
Definition pbkdf2SHA512Prefix : string := "$pbkdf2-sha512$".
Definition validPerms : list string :=
  [PermAny; PermListItems; PermDownload; PermUpload; PermDelete; PermRename; PermCreateDirs;
   PermCreateSymlinks; "shell"; "_expire:"]%string.
Definition hashPwdPrefixes : list string :=
  [argonPwdPrefix; bcryptPwdPrefix; pbkdf2SHA1Prefix; pbkdf2SHA256Prefix; pbkdf2SHA512Prefix].
Definition pbkdfPwdPrefixes : list string := [pbkdf2SHA1Prefix; pbkdf2SHA256Prefix; pbkdf2SHA512Prefix].

Section credentials.
Context `{Crypto}.

(** The permission a "name:value" entry stands for. *)
Definition perm_name (p : string) : string :=
  let px := strings_IndexChar p ":" in
  if 0 <? px then String.substring 0 (Z.to_nat (px + 1)) p else p.

Fixpoint checkPermissions (l : list string) : option error :=
  match l with
  | [] => None
  | p :: l =>
      if IsStringInSlice (perm_name p) validPerms then checkPermissions l
      else Some (ValidationError ("Invalid permission: " +:+ perm_name p))
  end.

Fixpoint checkPublicKeys (i : Z) (l : list string) : option error :=
  match l with
  | [] => None
  | k :: l =>
      match ParseAuthorizedKey k with
      | Ok _ => checkPublicKeys (i + 1) l
      | _ => Some (ValidationError ("Could not parse key nr. " +:+ Itoa i))
      end
  end.

(** The user is passed by pointer: the result is the updated user. *)
Definition validateUser (user : User) : result User :=
  if bool_decide (Username user = EmptyString) || bool_decide (HomeDir user = EmptyString) then
    Err (ValidationError "Mandatory parameters missing")
  else if bool_decide (Password user = EmptyString) && bool_decide (PublicKeys user = []) then
    Err (ValidationError "Please set password or at least a public_key")
  else if bool_decide (Permissions user = []) then
    Err (ValidationError "Please grant some permissions to this user")
  else if negb (IsAbs (HomeDir user)) then
    Err (ValidationError ("home_dir must be an absolute path, actual value: [" +:+ HomeDir user +:+ "]--"))
  else match checkPermissions (Permissions user) with
  | Some e => Err e
  | None =>
      user ← (if negb (bool_decide (Password user = EmptyString))
                 && negb (IsStringPrefixInSlice (Password user) hashPwdPrefixes)
              then pwd ← argon2id_CreateHash (Password user); Ok (set_Password user pwd)
              else Ok user);
      match checkPublicKeys 0 (PublicKeys user) with
      | Some e => Err e
      | None => Ok user
      end
  end.

Definition comparePbkdf2PasswordAndHash (password hashedPassword : string) : result bool :=
  match strings_Split hashedPassword "$" with
  | [_; v1; v2; salt; expected] =>
      let finish size f :=
        iterations ← Atoi v2;
        let df := pbkdf2_Key (bytes_of_string password) (bytes_of_string salt) iterations size f in
        Ok (bool_decide (base64_Encode df = expected)) in
      if strings_HasPrefix hashedPassword pbkdf2SHA256Prefix then finish 32 sha256_New
      else if strings_HasPrefix hashedPassword pbkdf2SHA512Prefix then finish 64 sha512_New
      else if strings_HasPrefix hashedPassword pbkdf2SHA1Prefix then finish 20 sha1_New
      else Err (EMsg ("pbkdf2: invalid or unsupported hash format " +:+ v1))
  | _ => Err (EMsg "pbkdf2: hash is not in the correct format")
  end.

Definition checkUserAndPass (user : User) (password : string) : result User :=
  if bool_decide (Password user = EmptyString) then Err (EMsg "Credentials cannot be null or empty")
  else
    is_match ←
      (if strings_HasPrefix (Password user) argonPwdPrefix then
         argon2id_ComparePasswordAndHash password (Password user)
       else if strings_HasPrefix (Password user) bcryptPwdPrefix then
         match bcrypt_CompareHashAndPassword (Password user) password with
         | Some e => Err e
         | None => Ok true
         end
       else if IsStringPrefixInSlice (Password user) pbkdfPwdPrefixes then
         comparePbkdf2PasswordAndHash password (Password user)
       else Ok false);
    if (is_match : bool) then Ok user else Err (EMsg "Invalid credentials").

(** The keys are tried in order; a stored key that does not parse ends the
    search with its error. *)
Fixpoint findPubKey (keys : list string) (pubKey : string) : result unit :=
  match keys with
  | [] => Err (EMsg "Invalid credentials")
  | k :: keys =>
      stored ← ParseAuthorizedKey k;
      if bool_decide (stored = pubKey) then Ok tt else findPubKey keys pubKey
  end.
Definition checkUserAndPubKey (user : User) (pubKey : string) : result User :=
  _ ← findPubKey (PublicKeys user) pubKey; Ok user.

End credentials.

(** ** The provider interface *)
Class Provider (S : Type) := {
  validateUserAndPass : string → string → S → result User;
  validateUserAndPubKey : string → string → S → result User;
  updateQuota : Z → string → Z → Z → bool → S → option error * S;
  getUsedQuota : string → S → result (Z * Z);
  userExists : string → S → result User;
  addUser : User → S → option error * S;
  updateUser : User → S → option error * S;
  deleteUser : User → S → option error * S;
  getUsers : Z → Z → string → string → S → list User * option error;
  getUserByID : Z → S → result User
}.

(** The new quota counters of a user. *)
Definition quota_updated (now filesAdd sizeAdd : Z) (reset : bool) (u : User) : User :=
  if reset then set_UsedQuota u sizeAdd filesAdd (GetTimeAsMsSinceEpoch now)
  else set_UsedQuota u (i64 (UsedQuotaSize u + sizeAdd)) (i64 (UsedQuotaFiles u + filesAdd))
         (GetTimeAsMsSinceEpoch now).

(** What a provider keeps of a user that is given to it: everything but the id,
    which it chooses, and the counters, which it may keep itself. *)
Definition account (u : User) : User := set_UsedQuota (set_ID u 0) 0 0 0.
(** Users whose lists of texts survive being stored as JSON. *)
Definition storable (u : User) : Prop := Forall valid_utf8 (Permissions u) ∧ Forall valid_utf8 (PublicKeys u).
#[global] Instance storable_dec u : Decision (storable u).
Proof. unfold storable. apply _. Defined.
(** The counters after an update are still 64-bit integers. *)
Definition quota_fits (filesAdd sizeAdd : Z) (reset : bool) (u : option User) : Prop :=
  ∀ v, u = Some v → reset = false → is_i64 (UsedQuotaSize v + sizeAdd) ∧ is_i64 (UsedQuotaFiles v + filesAdd).

(** The orders the callers of [GetUsers] ask for. *)
Definition is_order (order : string) : Prop := order ∈ ["ASC"; "DESC"; EmptyString]%string.

(** What a provider can be asked for and given: ids, users, and changes of the
    counters of a user (the clock, files, bytes, and whether to set or to add). *)
Record Limits := mkLimits {
  id_fits : Z → Prop;
  user_fits : User → Prop;
  change_fits : Z → Z → Z → bool → option User → Prop
}.
(** A provider that keeps all that a [User] can hold. *)
Definition unlimited : Limits := mkLimits is_i64 storable (λ _, quota_fits).

(** What the rest of the server relies on in a provider: within its limits it
    is a map from names to users with unique ids, [contents], as long as its
    invariant [pinv] holds; [room] says that a new id is still available. *)
Class ProviderOn (L : Limits) (S : Type) `{Crypto, Provider S} := {
  pinv : S → Prop;
  room : S → Prop;
  contents : S → gmap string User;
  contents_name s n u : pinv s → contents s !! n = Some u → Username u = n;
  contents_ids s n n' u u' :
    pinv s → contents s !! n = Some u → contents s !! n' = Some u' → ID u = ID u' → n = n';
  contents_id s n u : pinv s → contents s !! n = Some u → 1 <= ID u < 2 ^ 63;
  validateUserAndPass_spec s n pw : pinv s →
    match contents s !! n with
    | Some u => if bool_decide (pw = EmptyString) then ∃ e, validateUserAndPass n pw s = Err e
                else validateUserAndPass n pw s = checkUserAndPass u pw
    | None => ∃ e, validateUserAndPass n pw s = Err e
    end;
  validateUserAndPubKey_spec s n key : pinv s →
    match contents s !! n with
    | Some u => if bool_decide (key = EmptyString) then ∃ e, validateUserAndPubKey n key s = Err e
                else validateUserAndPubKey n key s = checkUserAndPubKey u key
    | None => ∃ e, validateUserAndPubKey n key s = Err e
    end;
  userExists_spec s n : pinv s →
    match contents s !! n with
    | Some u => userExists n s = Ok u
    | None => ∃ m, userExists n s = Err (RecordNotFoundError m)
    end;
  getUserByID_on s id : pinv s → id_fits L id →
    (∃ u, getUserByID id s = Ok u ∧ ID u = id ∧ contents s !! Username u = Some u)
    ∨ (∃ m, getUserByID id s = Err (RecordNotFoundError m))
      ∧ ∀ n u, contents s !! n = Some u → ID u ≠ id;
  getUsedQuota_spec s n : pinv s →
    match contents s !! n with
    | Some u => getUsedQuota n s = Ok (UsedQuotaFiles u, UsedQuotaSize u)
    | None => ∃ e, getUsedQuota n s = Err e
    end;
  updateQuota_on s now n files size reset : pinv s → change_fits L now files size reset (contents s !! n) →
    ∃ err s', updateQuota now n files size reset s = (err, s') ∧ pinv s'
      ∧ contents s' = alter (quota_updated now files size reset) n (contents s)
      ∧ (is_Some (contents s !! n) → err = None);
  addUser_on s u u' : pinv s → room s → validateUser u = Ok u' → user_fits L u' →
    contents s !! Username u' = None →
    ∃ v s', addUser u s = (None, s') ∧ pinv s'
      ∧ contents s' = <[Username u' := v]> (contents s) ∧ account v = account u'
      ∧ (∀ n w, contents s !! n = Some w → ID w ≠ ID v);
  addUser_refused s u : pinv s → room s →
    (∀ u', validateUser u = Ok u' → user_fits L u' ∧ is_Some (contents s !! Username u')) →
    ∃ err s', addUser u s = (Some err, s') ∧ pinv s' ∧ contents s' = contents s;
  updateUser_on s u u' old : pinv s → validateUser u = Ok u' → user_fits L u' → id_fits L (ID u') →
    contents s !! Username u' = Some old → ID u' = ID old →
    ∃ v s', updateUser u s = (None, s') ∧ pinv s' ∧ contents s' = <[Username u' := v]> (contents s)
      ∧ account v = account u' ∧ ID v = ID u';
  updateUser_refused s u : pinv s →
    (∀ u', validateUser u = Ok u' → user_fits L u' ∧ contents s !! Username u' = None ∧ id_fits L (ID u')
       ∧ ∀ n v, contents s !! n = Some v → ID v ≠ ID u') →
    ∃ err s', updateUser u s = (err, s') ∧ pinv s' ∧ contents s' = contents s;
  deleteUser_on s u v : pinv s → id_fits L (ID u) → contents s !! Username v = Some v → ID u = ID v →
    ∃ s', deleteUser u s = (None, s') ∧ pinv s' ∧ contents s' = delete (Username v) (contents s);
  deleteUser_absent_on s u : pinv s → id_fits L (ID u) → (∀ n v, contents s !! n = Some v → ID v ≠ ID u) →
    ∃ err s', deleteUser u s = (err, s') ∧ pinv s' ∧ contents s' = contents s;
  enumeration : string → S → list User;
  enumeration_spec s order : pinv s → enumeration order s ≡ₚ (map_to_list (contents s)).*2;
  getUsers_spec s limit offset order : pinv s → is_order order →
    0 < limit → 0 <= offset →
    getUsers limit offset order EmptyString s =
      (map getUserNoCredentials
         (take (Z.to_nat limit) (drop (Z.to_nat offset) (enumeration order s))), None);
  getUsers_named s limit order n : pinv s → is_order order →
    0 < limit → n ≠ EmptyString →
    getUsers limit 0 order n s = (map getUserNoCredentials (option_list (contents s !! n)), None);
  getUsers_hidden s limit offset order n :
    Forall (λ u, ∃ v, u = getUserNoCredentials v) (getUsers limit offset order n s).1
}.

(** The providers the server is verified with. *)
Class ProviderSpec (S : Type) `{Crypto, Provider S} := #[global] spec_on :: ProviderOn unlimited S.

Section provider_facts.
Context {S : Type} `{ProviderSpec S}.

Lemma contents_i64 (s : S) n u : pinv s → contents s !! n = Some u → is_i64 (ID u).
Proof. intros Hs Hu. pose proof (contents_id s n u Hs Hu). split; lia. Qed.

(** The laws of a provider without limits. *)
Lemma getUserByID_spec (s : S) id : pinv s → is_i64 id →
  (∃ u, getUserByID id s = Ok u ∧ ID u = id ∧ contents s !! Username u = Some u)
  ∨ (∃ m, getUserByID id s = Err (RecordNotFoundError m)) ∧ ∀ n u, contents s !! n = Some u → ID u ≠ id.
Proof. exact (getUserByID_on s id). Qed.
Lemma updateQuota_spec (s : S) now n files size reset : pinv s → quota_fits files size reset (contents s !! n) →
  ∃ err s', updateQuota now n files size reset s = (err, s') ∧ pinv s'
    ∧ contents s' = alter (quota_updated now files size reset) n (contents s)
    ∧ (is_Some (contents s !! n) → err = None).
Proof. exact (updateQuota_on s now n files size reset). Qed.
Lemma addUser_spec (s : S) u u' : pinv s → room s → validateUser u = Ok u' → storable u' →
  contents s !! Username u' = None →
  ∃ v s', addUser u s = (None, s') ∧ pinv s'
    ∧ contents s' = <[Username u' := v]> (contents s) ∧ account v = account u'
    ∧ (∀ n w, contents s !! n = Some w → ID w ≠ ID v).
Proof. exact (addUser_on s u u'). Qed.
Lemma updateUser_spec (s : S) u u' old : pinv s → validateUser u = Ok u' → storable u' →
  contents s !! Username u' = Some old → ID u' = ID old →
  ∃ v s', updateUser u s = (None, s') ∧ pinv s' ∧ contents s' = <[Username u' := v]> (contents s)
    ∧ account v = account u' ∧ ID v = ID u'.
Proof.
  intros Hs Hv Hst Ho Hid. apply (updateUser_on s u u' old); [done..| |done|done]. simpl.
  rewrite Hid. by eapply contents_i64.
Qed.
Lemma deleteUser_spec (s : S) u v : pinv s → contents s !! Username v = Some v → ID u = ID v →
  ∃ s', deleteUser u s = (None, s') ∧ pinv s' ∧ contents s' = delete (Username v) (contents s).
Proof.
  intros Hs Hv Hid. apply (deleteUser_on s u v); [done| |done..]. simpl. rewrite Hid. by eapply contents_i64.
Qed.
Lemma deleteUser_absent (s : S) u : pinv s → is_i64 (ID u) → (∀ n v, contents s !! n = Some v → ID v ≠ ID u) →
  ∃ err s', deleteUser u s = (err, s') ∧ pinv s' ∧ contents s' = contents s.
Proof. exact (deleteUser_absent_on s u). Qed.
Lemma checkUserAndPass_id u pw v : checkUserAndPass u pw = Ok v → v = u.
Proof.
  unfold checkUserAndPass. case_bool_decide; [done|].
  intros ([] & _ & E)%result_bind_ok; by simplify_eq.
Qed.
Lemma checkUserAndPubKey_id u key v : checkUserAndPubKey u key = Ok v → v = u.
Proof. unfold checkUserAndPubKey. by intros (_ & _ & [= ->])%result_bind_ok. Qed.

Lemma validateUserAndPass_ok (s : S) n pw u : pinv s → validateUserAndPass n pw s = Ok u →
  contents s !! n = Some u ∧ pw ≠ EmptyString ∧ checkUserAndPass u pw = Ok u.
Proof.
  intros Hs E. pose proof (validateUserAndPass_spec s n pw Hs) as Hv. rewrite E in Hv.
  destruct (contents s !! n) as [v|]; [|by destruct Hv]. case_bool_decide; [by destruct Hv|].
  symmetry in Hv. by assert (u = v) as -> by by eapply checkUserAndPass_id.
Qed.
Lemma validateUserAndPubKey_ok (s : S) n key u : pinv s → validateUserAndPubKey n key s = Ok u →
  contents s !! n = Some u ∧ key ≠ EmptyString ∧ checkUserAndPubKey u key = Ok u.
Proof.
  intros Hs E. pose proof (validateUserAndPubKey_spec s n key Hs) as Hv. rewrite E in Hv.
  destruct (contents s !! n) as [v|]; [|by destruct Hv]. case_bool_decide; [by destruct Hv|].
  symmetry in Hv. by assert (u = v) as -> by by eapply checkUserAndPubKey_id.
Qed.
End provider_facts.

(** ** The front end *)
Record Config := {
  Driver : string;
  Name : string;
  Host : string;
  Port : Z;
  DbUsername : string;
  DbPassword : string;
  SSLMode : Z;
  ConnectionString : string;
  UsersTable : string;
  ManageUsers : Z;
  TrackQuota : Z;
  DefaultUserExpire : Z
}.

Definition manageUsersDisabledError : string :=
  "please set manage_users to 1 in sftpgo.conf to enable this method".
Definition trackQuotaDisabledError : string :=
  "please enable track_quota in sftpgo.conf to use this method".

Section frontend.
Context {S : Type} `{Provider S} (config : Config).
Implicit Types (now : Z) (user : User) (s : S).

Definition CheckUserAndPass (username password : string) s : result User :=
  validateUserAndPass username password s.
Definition CheckUserAndPubKey (username pubKey : string) s : result User :=
  validateUserAndPubKey username pubKey s.

(** [now] is the time in nanoseconds. *)
Definition UpdateUserQuota now user (filesAdd sizeAdd : Z) (reset : bool) s : option error * S :=
  if TrackQuota config =? 0 then (Some (MethodDisabledError trackQuotaDisabledError), s)
  else if (TrackQuota config =? 2) && negb reset && negb (HasQuotaRestrictions user) then (None, s)
  else updateQuota now (Username user) filesAdd sizeAdd reset s.

Definition GetUsedQuota (username : string) s : result (Z * Z) :=
  if TrackQuota config =? 0 then Err (MethodDisabledError trackQuotaDisabledError)
  else getUsedQuota username s.

Definition UserExists (username : string) s : result User := userExists username s.

Definition expire_entry (t : Z) : string := "_expire:" +:+ Itoa t.

(** The loop over the permissions: a relative "_expire:" in minutes becomes an
    absolute Unix time; [ex_tm] keeps its value when a number does not scan. *)
Fixpoint absoluteExpire (unix ex_tm : Z) (l : list string) : list string * bool :=
  match l with
  | [] => ([], false)
  | p :: l =>
      if (slen p <? 9) || negb (bool_decide (String.substring 0 8 p = "_expire:"%string)) then
        let '(l, c) := absoluteExpire unix ex_tm l in (p :: l, c)
      else
        let ex_tm := default ex_tm (Sscanf_d (String.substring 8 (String.length p - 8) p)) in
        let '(l, _) := absoluteExpire unix ex_tm l in
        (expire_entry (i64 (unix + i64 (ex_tm * 60))) :: l, true)
  end.

Definition AddUser now user s : option error * S :=
  if ManageUsers config =? 0 then (Some (MethodDisabledError manageUsersDisabledError), s)
  else
    let unix := now / 1000000000 in
    let '(perms, custom_expire) := absoluteExpire unix 0 (Permissions user) in
    let perms :=
      if negb custom_expire && (0 <? DefaultUserExpire config) then
        perms ++ [expire_entry (i64 (unix + i64 (DefaultUserExpire config * 60)))]
      else perms in
    addUser (set_Permissions user perms) s.

Definition UpdateUser user s : option error * S :=
  if ManageUsers config =? 0 then (Some (MethodDisabledError manageUsersDisabledError), s)
  else updateUser user s.
Definition DeleteUser user s : option error * S :=
  if ManageUsers config =? 0 then (Some (MethodDisabledError manageUsersDisabledError), s)
  else deleteUser user s.
Definition GetUsers (limit offset : Z) (order username : string) s : list User * option error :=
  getUsers limit offset order username s.
Definition GetUserByID (id : Z) s : result User := getUserByID id s.

End frontend.

Definition SQLiteDataProviderName : string := "sqlite".
Definition PGSSQLDataProviderName : string := "postgresql".
Definition MySQLDataProviderName : string := "mysql".
Definition BoltDataProviderName : string := "bolt".

Definition getSSLMode (config : Config) : string :=
  let m := SSLMode config in
  if bool_decide (Driver config = PGSSQLDataProviderName) then
    if m =? 0 then "disable" else if m =? 1 then "require" else if m =? 2 then "verify-ca"
    else if m =? 3 then "verify-full" else EmptyString
  else if bool_decide (Driver config = MySQLDataProviderName) then
    if m =? 0 then "false" else if m =? 1 then "true" else if m =? 2 then "skip-verify"
    else if m =? 3 then "preferred" else EmptyString
  else EmptyString.

(** ** Facts about the helpers *)
Lemma IsStringInSlice_spec o l : IsStringInSlice o l = true ↔ o ∈ l.
Proof.
  unfold IsStringInSlice. rewrite existsb_exists. split.
  - intros (v & Hv & ->%bool_decide_eq_true). by apply list_elem_of_In.
  - intros Ho. exists o. split; [by apply list_elem_of_In|by apply bool_decide_eq_true].
Qed.
Lemma HasPerm_spec u p : HasPerm u p = true ↔ PermAny ∈ Permissions u ∨ p ∈ Permissions u.
Proof.
  unfold HasPerm. rewrite <- !IsStringInSlice_spec.
  destruct (IsStringInSlice PermAny _); [by split; auto|].
  split; [by auto|]. by intros [?|?].
Qed.
Lemma IsStringPrefixInSlice_spec s l :
  IsStringPrefixInSlice s l = true ↔ ∃ p, p ∈ l ∧ strings_HasPrefix s p = true.
Proof.
  unfold IsStringPrefixInSlice. rewrite existsb_exists. by setoid_rewrite list_elem_of_In.
Qed.

Lemma checkPermissions_ok l :
  checkPermissions l = None ↔ Forall (λ p, perm_name p ∈ validPerms) l.
Proof.
  induction l as [|p l IH]; cbn [checkPermissions]; [by split|].
  rewrite Forall_cons, <- IH, <- IsStringInSlice_spec.
  destruct (IsStringInSlice (perm_name p) validPerms).
  - split; [by auto|by intros [_ ?]].
  - split; [done|by intros [? _]].
Qed.
Lemma checkPublicKeys_ok `{Crypto} i l :
  checkPublicKeys i l = None ↔ Forall (λ k, is_ok (ParseAuthorizedKey k) = true) l.
Proof.
  revert i. induction l as [|k l IH]; intros i; simpl; [by split|]. rewrite Forall_cons.
  destruct (ParseAuthorizedKey k); simpl; [rewrite IH; by split; [auto|intros [_ ?]]| |];
    by split; [|intros [? _]].
Qed.

Lemma validateUser_fields `{Crypto} u u' : validateUser u = Ok u' → Username u' = Username u ∧ ID u' = ID u
  ∧ Permissions u' = Permissions u ∧ PublicKeys u' = PublicKeys u.
Proof.
  unfold validateUser. intros E. repeat case_hyp E; simplify_eq;
    repeat match goal with Hx : _ ≫= _ = Ok _ |- _ => apply result_bind_ok in Hx as (? & ? & Hx) end;
    repeat (case_match; simplify_eq); done.
Qed.

(** ** Validation

    What the documentation of the hashing packages promises about the hash of
    a password: its prefix, and that it verifies. *)
Class CryptoSpec `{Crypto} := {
  CreateHash_prefix pw h : argon2id_CreateHash pw = Ok h → strings_HasPrefix h argonPwdPrefix = true;
  CreateHash_verifies pw h :
    argon2id_CreateHash pw = Ok h → argon2id_ComparePasswordAndHash pw h = Ok true
}.

Definition password_hashed (pw : string) : Prop :=
  pw = EmptyString ∨ IsStringPrefixInSlice pw hashPwdPrefixes = true.

Record valid_user `{Crypto} (u : User) : Prop := {
  vu_username : Username u ≠ EmptyString;
  vu_home : IsAbs (HomeDir u) = true;
  vu_credentials : Password u ≠ EmptyString ∨ PublicKeys u ≠ [];
  vu_perms : Permissions u ≠ [] ∧ Forall (λ p, perm_name p ∈ validPerms) (Permissions u);
  vu_password : password_hashed (Password u);
  vu_keys : Forall (λ k, is_ok (ParseAuthorizedKey k) = true) (PublicKeys u)
}.

Section validation.
Context `{CS : CryptoSpec}.

Lemma argon_is_hashed h : strings_HasPrefix h argonPwdPrefix = true → h ≠ EmptyString ∧
  IsStringPrefixInSlice h hashPwdPrefixes = true.
Proof.
  intros Hh. split; [by intros ->|]. apply IsStringPrefixInSlice_spec. exists argonPwdPrefix.
  split; [by left|done].
Qed.

(** The hashing step of [validateUser]. *)
Lemma validateUser_inv u u' : validateUser u = Ok u' →
  valid_user u' ∧ u' = set_Password u (Password u') ∧
  (password_hashed (Password u) ∧ u' = u ∨
   argon2id_CreateHash (Password u) = Ok (Password u')).
Proof.
  unfold validateUser. intros E.
  destruct (bool_decide (Username u = _)) eqn:H1; [done|].
  destruct (bool_decide (HomeDir u = _)) eqn:H2; [done|]. simpl in E.
  destruct (bool_decide (Password u = _) && bool_decide (PublicKeys u = [])) eqn:H3; [done|].
  destruct (bool_decide (Permissions u = [])) eqn:H4; [done|].
  destruct (IsAbs (HomeDir u)) eqn:H5; [|done]. simpl in E.
  destruct (checkPermissions (Permissions u)) eqn:H6; [done|].
  apply bool_decide_eq_false in H1, H2, H4. apply checkPermissions_ok in H6.
  apply andb_false_iff in H3. rewrite !bool_decide_eq_false in H3.
  apply result_bind_ok in E as (v & Hv & E).
  destruct (checkPublicKeys 0 (PublicKeys v)) eqn:H7; simplify_eq.
  apply checkPublicKeys_ok in H7.
  destruct (bool_decide (Password u = _)) eqn:H8; simpl in Hv.
  { simplify_eq. apply bool_decide_eq_true in H8. split.
    - split; auto. by left.
    - split; [by destruct u'|left; split; [by left|done]]. }
  apply bool_decide_eq_false in H8.
  destruct (IsStringPrefixInSlice (Password u) _) eqn:H9; simpl in Hv.
  { simplify_eq. split.
    - split; auto. by right.
    - split; [by destruct u'|left; split; [by right|done]]. }
  apply result_bind_ok in Hv as (pwd & Hpwd & Hv). simplify_eq. simpl in *.
  pose proof (argon_is_hashed _ (CreateHash_prefix _ _ Hpwd)) as [??].
  split; [split; simpl; auto; by right|]. auto.
Qed.

Lemma validateUser_valid u : valid_user u → validateUser u = Ok u.
Proof.
  intros [H1 H2 H3 [H4 H5] H6 H7]. unfold validateUser.
  rewrite (bool_decide_false (Username u = _)), (bool_decide_false (HomeDir u = _)) by
    (done || by intros E; rewrite E in H2). simpl.
  assert (bool_decide (Password u = EmptyString) && bool_decide (PublicKeys u = []) = false) as ->.
  { apply andb_false_iff. rewrite !bool_decide_eq_false. done. }
  rewrite bool_decide_false, H2 by done. simpl. rewrite (proj2 (checkPermissions_ok _)) by done.
  assert (negb (bool_decide (Password u = EmptyString))
          && negb (IsStringPrefixInSlice (Password u) hashPwdPrefixes) = false) as ->.
  { destruct H6 as [->| ->]; [done|]. by rewrite andb_false_r. }
  simpl. by rewrite (proj2 (checkPublicKeys_ok 0 _)).
Qed.

Lemma argon_login u pw :
  argon2id_CreateHash pw = Ok (Password u) → checkUserAndPass u pw = Ok u.
Proof.
  intros Hh. pose proof (CreateHash_prefix _ _ Hh) as Hp.
  pose proof (argon_is_hashed _ Hp) as [Hne _].
  unfold checkUserAndPass. rewrite bool_decide_false, Hp by done.
  by rewrite (CreateHash_verifies _ _ Hh).
Qed.

(** C36: A user accepted by validation has a name, an absolute home directory,
    some credential, only known permissions, parsable keys and a password that
    is never stored in clear; apart from the password the record is what was
    given, and validating it again changes nothing. *)
Theorem validateUser_sound u u' :
  validateUser u = Ok u' →
  valid_user u' ∧ u' = set_Password u (Password u') ∧ validateUser u' = Ok u'.
Proof. intros (? & ? & _)%validateUser_inv. auto using validateUser_valid. Qed.

(** A password given in clear at validation time logs the stored user in. *)
Theorem validated_password_logs_in u u' :
  validateUser u = Ok u' → ¬ password_hashed (Password u) →
  checkUserAndPass u' (Password u) = Ok u'.
Proof.
  intros (_ & _ & [[? _]|Hh])%validateUser_inv Hn; [done|]. by apply argon_login.
Qed.
End validation.

(** Password authentication succeeds only through one of the supported
    hash verifiers: a user without a password, or whose stored password has no
    known hash prefix, is always refused. There is no clear-text fallback. *)
Theorem password_login_verified `{Crypto} u pw u' :
  checkUserAndPass u pw = Ok u' →
  u' = u ∧ Password u ≠ EmptyString ∧ IsStringPrefixInSlice (Password u) hashPwdPrefixes = true ∧
  (argon2id_ComparePasswordAndHash pw (Password u) = Ok true
   ∨ bcrypt_CompareHashAndPassword (Password u) pw = None
   ∨ comparePbkdf2PasswordAndHash pw (Password u) = Ok true).
Proof.
  unfold checkUserAndPass. case_bool_decide as Hp; [done|].
  intros (m & Hm & E)%result_bind_ok. destruct m; simplify_eq. split; [done|]. split; [done|].
  destruct (strings_HasPrefix _ argonPwdPrefix) eqn:H1.
  { split; [apply IsStringPrefixInSlice_spec; exists argonPwdPrefix; split; [by left|done]|by left]. }
  destruct (strings_HasPrefix _ bcryptPwdPrefix) eqn:H2.
  { split; [apply IsStringPrefixInSlice_spec; exists bcryptPwdPrefix; split; [by right; left|done]|].
    right; left. by destruct (bcrypt_CompareHashAndPassword _ _). }
  destruct (IsStringPrefixInSlice _ pbkdfPwdPrefixes) eqn:H3; [|done].
  split; [|by right; right]. unfold IsStringPrefixInSlice in *. cbn [existsb hashPwdPrefixes pbkdfPwdPrefixes] in *.
  apply orb_true_iff in H3 as [->|H3]; [by rewrite !orb_true_r|].
  apply orb_true_iff in H3 as [->|H3]; [by rewrite !orb_true_r|].
  apply orb_true_iff in H3 as [->|H3]; [by rewrite !orb_true_r|done].
Qed.

(** Public-key authentication succeeds only for a key that, parsed, is
    one of the user's stored keys. *)
Theorem pubkey_login_verified `{Crypto} u key u' :
  checkUserAndPubKey u key = Ok u' →
  u' = u ∧ ∃ k, k ∈ PublicKeys u ∧ ParseAuthorizedKey k = Ok key.
Proof.
  unfold checkUserAndPubKey. intros ([] & Hk & [= <-])%result_bind_ok. split; [done|].
  induction (PublicKeys u) as [|k l IH]; [done|]. simpl in Hk.
  apply result_bind_ok in Hk as (stored & Hs & Hk). case_bool_decide.
  - subst. exists k. split; [by left|done].
  - destruct (IH Hk) as (k' & ? & ?). exists k'. split; [by right|done].
Qed.

(** ** Witnesses

    A transparent stand-in for the hashing packages: the hash of a password
    is the prefix followed by the password. *)
Module ToyCrypto.
Definition argon (pw : string) : string := argonPwdPrefix +:+ pw.
#[global] Instance crypto : Crypto := {
  argon2id_CreateHash pw := Ok (argon pw);
  argon2id_ComparePasswordAndHash pw h := Ok (bool_decide (h = argon pw));
  bcrypt_CompareHashAndPassword h pw :=
    if decide (h = bcryptPwdPrefix +:+ pw) then None else Some (EMsg "mismatch");
  pbkdf2_Key pw salt n len f := pw ++ salt;
  ParseAuthorizedKey k := if strings_HasPrefix k "ssh-" then Ok k else Err (EMsg "no key found")
}.
#[global] Instance crypto_spec : CryptoSpec.
Proof.
  split; simpl; intros pw h [= <-].
  - unfold argon. by destruct pw.
  - by rewrite bool_decide_true.
Defined.

Definition alice : User :=
  mkUser 0 "alice" "secret" ["ssh-rsa AAA"]%string "/home/alice" 1000 1000 0 0 0 ["*"]%string 0 0 0 0 0.
Definition alice' : User := set_Password alice (argon "secret").
End ToyCrypto.

Lemma validateUser_sound_witness :
  validateUser ToyCrypto.alice = Ok ToyCrypto.alice' ∧ validateUser ToyCrypto.alice' = Ok ToyCrypto.alice'.
Proof.
  split; [reflexivity|].
  apply (validateUser_sound ToyCrypto.alice ToyCrypto.alice'). reflexivity.
Defined.
Lemma validated_password_logs_in_witness :
  checkUserAndPass ToyCrypto.alice' "secret" = Ok ToyCrypto.alice'.
Proof.
  apply (validated_password_logs_in ToyCrypto.alice ToyCrypto.alice'); [reflexivity|].
  intros [E|E]; vm_compute in E; discriminate.
Defined.
Lemma password_login_verified_witness :
  checkUserAndPass ToyCrypto.alice' "secret" = Ok ToyCrypto.alice' ∧
  IsStringPrefixInSlice (Password ToyCrypto.alice') hashPwdPrefixes = true.
Proof.
  split; [reflexivity|].
  eapply (password_login_verified ToyCrypto.alice' "secret" ToyCrypto.alice'). reflexivity.
Defined.
Lemma pubkey_login_verified_witness :
  ∃ k, k ∈ PublicKeys ToyCrypto.alice ∧ ParseAuthorizedKey k = Ok "ssh-rsa AAA"%string.
Proof.
  apply (pubkey_login_verified ToyCrypto.alice "ssh-rsa AAA" ToyCrypto.alice). reflexivity.
Defined.
