(* ===== verification/BoltProvider.v ===== *)
(** * The bolt key/value provider: dataprovider/bolt.go

    bbolt is an embedded key/value store with serialised read-write
    transactions that roll back when the function returns an error, so a
    database is its two buckets and the bucket sequence, and a transaction is a
    state change that keeps the old state on error. Records are stored as JSON
    documents of the user; a document is modelled by the user it decodes to,
    which is the user that was written when its texts are UTF-8 (encoding/json
    replaces other bytes).
    Cursors iterate in byte order of the keys. *)
From Stdlib Require Import Ascii.
From stdpp Require Import base tactics option list strings gmap pretty sorting.
From Stdlib Require Import ZArith Lia.
From S2P Require Import Prelude GoPath GoStrconv SftpWire DataProvider.

Record BoltDB := mkBolt {
  usersBucket : gmap string User;
  usersIDIdxBucket : gmap string string;
  sequence : Z
}.

(** The key of the index: eight bytes, big endian. *)
Definition itob (v : Z) : string := string_of_bytes (marshalUint64 [] (u64 v)).

(** [bucket.NextSequence()] *)
Definition NextSequence (db : BoltDB) : Z := u64 (sequence db + 1).

(** The values of a bucket in cursor order. *)
Definition bucket_keys (m : gmap string User) : list string := merge_sort String.le (elements (dom m)).
Definition cursor (m : gmap string User) : list User := omap (λ k, m !! k) (bucket_keys m).

Definition bolt_userExists (username : string) (db : BoltDB) : result User :=
  match usersBucket db !! username with
  | None => Err (RecordNotFoundError "username  does not exist")
  | Some u => Ok u
  end.

Definition bolt_getUserByID (id : Z) (db : BoltDB) : result User :=
  match usersIDIdxBucket db !! itob id with
  | None => Err (RecordNotFoundError ("user with ID " +:+ Itoa id +:+ " does not exist"))
  | Some username =>
      match usersBucket db !! username with
      | None => Err (RecordNotFoundError
                       ("username " +:+ username +:+ " and ID: " +:+ Itoa id +:+ " does not exist"))
      | Some u => Ok u
      end
  end.

Definition put_user (name : string) (u : User) (db : BoltDB) : BoltDB :=
  mkBolt (<[name := u]> (usersBucket db)) (usersIDIdxBucket db) (sequence db).

Definition bolt_updateQuota (now : Z) (username : string) (filesAdd sizeAdd : Z) (reset : bool)
    (db : BoltDB) : option error * BoltDB :=
  match usersBucket db !! username with
  | None => (Some (RecordNotFoundError
                     ("username " +:+ username +:+ " does not exist, unable to update quota")), db)
  | Some user => (None, put_user username (quota_updated now filesAdd sizeAdd reset user) db)
  end.

Definition bolt_getUsedQuota (username : string) (db : BoltDB) : result (Z * Z) :=
  user ← bolt_userExists username db; Ok (UsedQuotaFiles user, UsedQuotaSize user).

Section bolt.
Context `{Crypto}.

Definition bolt_validateUserAndPass (username password : string) (db : BoltDB) : result User :=
  if bool_decide (password = EmptyString) then Err (EMsg "Credentials cannot be null or empty")
  else user ← bolt_userExists username db; checkUserAndPass user password.

Definition bolt_validateUserAndPubKey (username pubKey : string) (db : BoltDB) : result User :=
  if bool_decide (pubKey = EmptyString) then Err (EMsg "Credentials cannot be null or empty")
  else user ← bolt_userExists username db; checkUserAndPubKey user pubKey.

Definition bolt_addUser (user : User) (db : BoltDB) : option error * BoltDB :=
  match validateUser user with
  | Err e => (Some e, db)
  | Panic => (Some (EMsg "panic"), db)
  | Ok user =>
      match usersBucket db !! Username user with
      | Some _ => (Some (EMsg ("username '" +:+ Username user +:+ "' already exists")), db)
      | None =>
          let id := NextSequence db in
          let user := set_ID user (i64 id) in
          (None, mkBolt (<[Username user := user]> (usersBucket db))
                        (<[itob (ID user) := Username user]> (usersIDIdxBucket db)) id)
      end
  end.

Definition bolt_updateUser (user : User) (db : BoltDB) : option error * BoltDB :=
  match validateUser user with
  | Err e => (Some e, db)
  | Panic => (Some (EMsg "panic"), db)
  | Ok user =>
      match usersBucket db !! Username user with
      | None => (Some (RecordNotFoundError ("username '" +:+ Username user +:+ "' does not exist")), db)
      | Some _ => (None, put_user (Username user) user db)
      end
  end.

Definition bolt_deleteUser (user : User) (db : BoltDB) : option error * BoltDB :=
  match usersIDIdxBucket db !! itob (ID user) with
  | None => (Some (RecordNotFoundError ("user with id " +:+ Itoa (ID user) +:+ " does not exist")), db)
  | Some userName =>
      (None, mkBolt (delete userName (usersBucket db)) (delete (itob (ID user)) (usersIDIdxBucket db))
                    (sequence db))
  end.

(** The cursor loop of [getUsers]. *)
Fixpoint cursorLoop (limit offset itNum : Z) (acc l : list User) : list User :=
  match l with
  | [] => acc
  | u :: l =>
      if itNum + 1 <=? offset then cursorLoop limit offset (itNum + 1) acc l
      else
        let acc := acc ++ [getUserNoCredentials u] in
        if limit <=? zlen acc then acc else cursorLoop limit offset (itNum + 1) acc l
  end.

Definition bolt_getUsers (limit offset : Z) (order username : string) (db : BoltDB)
  : list User * option error :=
  if negb (bool_decide (username = EmptyString)) then
    (if offset =? 0 then
       match bolt_userExists username db with
       | Ok user => [getUserNoCredentials user]
       | _ => []
       end
     else [], None)
  else if limit <=? 0 then ([], None)
  else if bool_decide (order = "ASC"%string) then
    (cursorLoop limit offset 0 [] (cursor (usersBucket db)), None)
  else (cursorLoop limit offset 0 [] (rev (cursor (usersBucket db))), None).

#[export] Instance bolt_provider : Provider BoltDB := {
  validateUserAndPass := bolt_validateUserAndPass;
  validateUserAndPubKey := bolt_validateUserAndPubKey;
  updateQuota := bolt_updateQuota;
  getUsedQuota := bolt_getUsedQuota;
  userExists := bolt_userExists;
  addUser := bolt_addUser;
  updateUser := bolt_updateUser;
  deleteUser := bolt_deleteUser;
  getUsers := bolt_getUsers;
  getUserByID := bolt_getUserByID
}.
End bolt.

(** ** The index *)
Lemma u64_i64_inj a b : is_i64 a → is_i64 b → u64 a = u64 b → a = b.
Proof.
  unfold is_i64, u64. change (2 ^ 63) with 9223372036854775808. change (2 ^ 64) with 18446744073709551616.
  intros ?? E. Z.to_euclidean_division_equations. lia.
Qed.
Lemma itob_inj a b : is_i64 a → is_i64 b → itob a = itob b → a = b.
Proof.
  intros Ha Hb E. apply u64_i64_inj; [done..|]. unfold itob in E.
  apply (f_equal bytes_of_string) in E. rewrite !bytes_of_string_of_bytes in E.
  pose proof (unmarshalUint64Safe_marshal (u64 a) [] (u64_range a)) as Ea.
  pose proof (unmarshalUint64Safe_marshal (u64 b) [] (u64_range b)) as Eb.
  rewrite E in Ea. congruence.
Qed.

(** Every record is stored under its name and indexed under its id, and the
    index has nothing else. *)
Record bolt_inv (db : BoltDB) : Prop := {
  bi_seq : 0 <= sequence db < 2 ^ 63;
  bi_users n u : usersBucket db !! n = Some u →
    Username u = n ∧ 1 <= ID u <= sequence db ∧ usersIDIdxBucket db !! itob (ID u) = Some n;
  bi_idx k n : usersIDIdxBucket db !! k = Some n →
    ∃ u, usersBucket db !! n = Some u ∧ itob (ID u) = k
}.

Lemma bi_i64 db n u : bolt_inv db → usersBucket db !! n = Some u → is_i64 (ID u).
Proof. intros Hi Hu. apply (bi_users db Hi) in Hu as (_ & ? & _). destruct (bi_seq db Hi). split; lia. Qed.

Lemma bolt_ids db n n' u u' :
  bolt_inv db → usersBucket db !! n = Some u → usersBucket db !! n' = Some u' → ID u = ID u' → n = n'.
Proof.
  intros Hi Hu Hu' E. apply (bi_users db Hi) in Hu as (_ & _ & Hx), Hu' as (_ & _ & Hx').
  rewrite E in Hx. congruence.
Qed.

Lemma put_user_inv db n u u' :
  bolt_inv db → usersBucket db !! n = Some u → Username u' = n → ID u' = ID u →
  bolt_inv (put_user n u' db).
Proof.
  intros Hi Hu Hn Hid. destruct (bi_users db Hi n u Hu) as (_ & Hr & Hx).
  split; simpl; [apply Hi| |].
  - intros m v [[<- <-]|[Hne Hv]]%lookup_insert_Some; [by rewrite Hid|by apply Hi].
  - intros k m Hk. destruct (bi_idx db Hi k m Hk) as (v & Hv & Hkv).
    destruct (decide (n = m)) as [<-|Hne].
    + exists u'. rewrite lookup_insert_eq. split; [done|]. rewrite Hid. congruence.
    + exists v. by rewrite lookup_insert_ne.
Qed.

Lemma quota_updated_fields now f z r u :
  Username (quota_updated now f z r u) = Username u ∧ ID (quota_updated now f z r u) = ID u.
Proof. by destruct r. Qed.

Section bolt_spec.
Context `{Crypto}.

Lemma bolt_addUser_ok db u u' :
  bolt_inv db → sequence db + 1 < 2 ^ 63 → validateUser u = Ok u' →
  usersBucket db !! Username u' = None →
  let id := sequence db + 1 in
  let db' := mkBolt (<[Username u' := set_ID u' id]> (usersBucket db))
                    (<[itob id := Username u']> (usersIDIdxBucket db)) id in
  bolt_addUser u db = (None, db') ∧ bolt_inv db'.
Proof.
  intros Hi Hs Hv Hn id db'. pose proof (bi_seq db Hi) as Hb.
  assert (NextSequence db = id) as Hid by (apply u64_id; split; unfold id; lia).
  split.
  { unfold bolt_addUser. rewrite Hv, Hn, Hid. unfold db'.
    replace (i64 id) with id by (symmetry; apply i64_id; split; unfold id; lia). done. }
  split; simpl; [unfold id; lia| |].
  - intros n v [[<- <-]|[Hne Hx]]%lookup_insert_Some.
    + split_and!; [done|simpl; unfold id; lia..|]. apply lookup_insert_eq.
    + destruct (bi_users db Hi n v Hx) as (? & ? & Hk). split_and!; [done|lia|unfold id; lia|].
      rewrite lookup_insert_ne; [done|]. intros E. apply itob_inj in E; unfold id in *; [lia|split; lia|].
      by eapply bi_i64.
  - intros k n [[<- <-]|[Hne Hx]]%lookup_insert_Some.
    + eexists. by rewrite lookup_insert_eq.
    + destruct (bi_idx db Hi k n Hx) as (v & Hv' & Hk). exists v.
      rewrite lookup_insert_ne; [done|]. intros E. rewrite E in Hn. congruence.
Qed.

Lemma bolt_deleteUser_ok db u v :
  bolt_inv db → usersBucket db !! Username v = Some v → ID u = ID v →
  let db' := mkBolt (delete (Username v) (usersBucket db)) (delete (itob (ID v)) (usersIDIdxBucket db))
                    (sequence db) in
  bolt_deleteUser u db = (None, db') ∧ bolt_inv db'.
Proof.
  intros Hi Hv Hid db'. destruct (bi_users db Hi _ _ Hv) as (_ & Hr & Hx).
  split; [by unfold bolt_deleteUser; rewrite Hid, Hx|]. split; simpl; [apply Hi| |].
  - intros n w [Hne Hw]%lookup_delete_Some. destruct (bi_users db Hi n w Hw) as (? & ? & Hk).
    split_and!; [done|lia..|]. rewrite lookup_delete_ne; [done|]. intros E.
    apply itob_inj in E; [|by eapply bi_i64..]. apply Hne. by eapply bolt_ids.
  - intros k n [Hne Hk]%lookup_delete_Some. destruct (bi_idx db Hi k n Hk) as (w & Hw & Hkw).
    exists w. split; [|done]. rewrite lookup_delete_ne; [done|]. intros <-. congruence.
Qed.

Lemma bolt_updateUser_ok db u u' old :
  bolt_inv db → validateUser u = Ok u' → usersBucket db !! Username u' = Some old → ID u' = ID old →
  bolt_updateUser u db = (None, put_user (Username u') u' db) ∧ bolt_inv (put_user (Username u') u' db).
Proof.
  intros Hi Hv Ho Hid. unfold bolt_updateUser. rewrite Hv, Ho. split; [done|].
  by eapply put_user_inv.
Qed.

(** ** Cursors and pages *)
Lemma cursorLoop_skip limit offset itNum acc l :
  itNum + zlen l <= offset → cursorLoop limit offset itNum acc l = acc.
Proof.
  revert itNum. induction l as [|u l IH]; intros itNum Hle; simpl; [done|].
  rewrite zlen_cons in Hle. pose proof (zlen_nonneg l).
  rewrite (proj2 (Z.leb_le _ _)) by lia. apply IH. lia.
Qed.

Lemma cursorLoop_take limit offset itNum acc l :
  offset <= itNum → zlen acc < limit →
  cursorLoop limit offset itNum acc l
  = acc ++ map getUserNoCredentials (take (Z.to_nat (limit - zlen acc)) l).
Proof.
  revert itNum acc. induction l as [|u l IH]; intros itNum acc Ho Ha; cbn [cursorLoop].
  { by rewrite take_nil, app_nil_r. }
  rewrite (proj2 (Z.leb_gt _ _)) by lia. rewrite zlen_snoc. cbv zeta.
  destruct (Z.leb_spec limit (zlen acc + 1)).
  - replace (limit - zlen acc) with 1 by lia. done.
  - rewrite IH by (rewrite ?zlen_snoc; lia). rewrite <- app_assoc, zlen_snoc. simpl.
    replace (Z.to_nat (limit - zlen acc)) with (S (Z.to_nat (limit - (zlen acc + 1)))) by lia. done.
Qed.

Lemma cursorLoop_spec limit offset itNum l :
  0 < limit → itNum <= offset →
  cursorLoop limit offset itNum [] l
  = map getUserNoCredentials (take (Z.to_nat limit) (drop (Z.to_nat (offset - itNum)) l)).
Proof.
  intros Hl. revert itNum. induction l as [|u l IH]; intros itNum Ho.
  { by rewrite drop_nil, take_nil. }
  destruct (decide (itNum = offset)) as [->|Hne].
  - rewrite cursorLoop_take by (done || unfold zlen; simpl; lia). simpl.
    by rewrite Z.sub_diag, Z.sub_0_r.
  - cbn [cursorLoop]. rewrite (proj2 (Z.leb_le _ _)) by lia. rewrite IH by lia.
    replace (Z.to_nat (offset - itNum)) with (S (Z.to_nat (offset - (itNum + 1)))) by lia. done.
Qed.

Lemma cursorLoop_hidden limit offset itNum acc l :
  Forall (λ u, ∃ v, u = getUserNoCredentials v) acc →
  Forall (λ u, ∃ v, u = getUserNoCredentials v) (cursorLoop limit offset itNum acc l).
Proof.
  revert itNum acc. induction l as [|u l IH]; intros itNum acc Ha; [done|]. cbn [cursorLoop].
  assert (Forall (λ u, ∃ v, u = getUserNoCredentials v) (acc ++ [getUserNoCredentials u])).
  { apply Forall_app. split; [done|]. repeat constructor. by eexists. }
  repeat case_match; auto.
Qed.

Lemma cursor_perm m : cursor m ≡ₚ (map_to_list m).*2.
Proof.
  unfold cursor, bucket_keys. rewrite merge_sort_Permutation.
  transitivity (omap (λ k, m !! k) (map_to_list m).*1).
  - apply omap_Permutation. apply NoDup_Permutation.
    + apply NoDup_elements.
    + apply NoDup_fst_map_to_list.
    + intros k. rewrite elem_of_elements, elem_of_dom. split.
      * intros [u Hu]. apply list_elem_of_fmap. exists (k, u). split; [done|]. by apply elem_of_map_to_list.
      * intros [[k' u] [-> Hu]]%list_elem_of_fmap. apply elem_of_map_to_list in Hu. by exists u.
  - assert (Hm : ∀ k u, (k, u) ∈ map_to_list m → m !! k = Some u) by (intros; by apply elem_of_map_to_list).
    induction (map_to_list m) as [|[k u] l IH]; [done|]. csimpl.
    rewrite (Hm k u) by by left. constructor. apply IH. intros. apply Hm. by right.
Qed.

Definition bolt_enumeration (order : string) (db : BoltDB) : list User :=
  if bool_decide (order = "ASC"%string) then cursor (usersBucket db) else rev (cursor (usersBucket db)).

Lemma bolt_getUsers_page db limit offset order :
  0 < limit → 0 <= offset →
  bolt_getUsers limit offset order EmptyString db
  = (map getUserNoCredentials
       (take (Z.to_nat limit) (drop (Z.to_nat offset) (bolt_enumeration order db))), None).
Proof.
  intros Hl Ho. unfold bolt_getUsers, bolt_enumeration. simpl.
  rewrite (proj2 (Z.leb_gt _ _)) by lia.
  case_bool_decide; by rewrite cursorLoop_spec, Z.sub_0_r by lia.
Qed.

(** ** The bolt provider keeps the promises of the interface *)
#[export] Instance bolt_provider_spec : ProviderSpec BoltDB.
Proof.
  refine {| pinv := bolt_inv; room db := sequence db + 1 < 2 ^ 63; contents := usersBucket;
            enumeration := bolt_enumeration |}; simpl.
  - intros s n u Hi Hu. by apply (bi_users s Hi).
  - intros s n n' u u' Hi. by apply bolt_ids.
  - intros s n u Hi Hu. apply (bi_users s Hi) in Hu as (_ & ? & _). pose proof (bi_seq s Hi). lia.
  - intros s n pw Hi. unfold bolt_validateUserAndPass, bolt_userExists.
    destruct (usersBucket s !! n); case_bool_decide; simpl; eauto.
  - intros s n key Hi. unfold bolt_validateUserAndPubKey, bolt_userExists.
    destruct (usersBucket s !! n); case_bool_decide; simpl; eauto.
  - intros s n Hi. unfold bolt_userExists. by destruct (usersBucket s !! n); [|eexists].
  - intros s id Hi Hid. unfold bolt_getUserByID.
    destruct (usersIDIdxBucket s !! itob id) as [n|] eqn:Hx.
    + destruct (bi_idx s Hi _ _ Hx) as (u & Hu & Hk). rewrite Hu. left. exists u.
      destruct (bi_users s Hi n u Hu) as (Hn & _). rewrite Hn.
      apply itob_inj in Hk; [done|by eapply bi_i64|done].
    + right. split; [by eexists|]. intros n u Hu <-. apply (bi_users s Hi) in Hu as (_ & _ & Hu). congruence.
  - intros s n Hi. unfold bolt_getUsedQuota, bolt_userExists. destruct (usersBucket s !! n); simpl; eauto.
  - intros s now n f z reset Hi _. unfold bolt_updateQuota.
    destruct (usersBucket s !! n) as [u|] eqn:Hu; eexists _, _; (split; [done|]).
    + pose proof (quota_updated_fields now f z reset u) as [Hn Hid].
      split_and!; [|simpl|done].
      * eapply put_user_inv; [done..| |done]. rewrite Hn. by apply (bi_users s Hi).
      * by erewrite alter_present.
    + split_and!; [done|by rewrite alter_absent|by intros [? ?]].
  - intros s u u' Hi Hr Hv _ Hn. destruct (bolt_addUser_ok s u u' Hi Hr Hv Hn) as [E Hi'].
    eexists _, _. split; [exact E|]. split; [done|]. split; [done|]. split; [done|]. intros n v Hx.
    apply (bi_users s Hi) in Hx as (_ & ? & _). simpl. lia.
  - intros s u Hi _ Hc. unfold bolt_addUser. destruct (validateUser u) as [u'| |]; eauto.
    destruct (Hc u' eq_refl) as [_ [v ->]]. eauto.
  - intros s u u' old Hi Hv _ _ Ho Hid. destruct (bolt_updateUser_ok s u u' old) as [E ?]; [done..|].
    eexists _, _. by rewrite E.
  - intros s u Hi Hc. unfold bolt_updateUser. destruct (validateUser u) as [u'| |]; eauto.
    destruct (Hc u' eq_refl) as (_ & -> & _). eauto.
  - intros s u v Hi _ Hv Hid. destruct (bolt_deleteUser_ok s u v) as [E ?]; [done..|].
    eexists. by rewrite E.
  - intros s u Hi Hid Hno. unfold bolt_deleteUser.
    destruct (usersIDIdxBucket s !! itob (ID u)) as [n|] eqn:Hx; [|by eexists _, _].
    destruct (bi_idx s Hi _ _ Hx) as (v & Hv & Hk). exfalso. apply (Hno n v Hv).
    apply itob_inj; [by eapply bi_i64|done|done].
  - intros s order Hi. unfold bolt_enumeration.
    case_bool_decide; [apply cursor_perm|]. rewrite <- Permutation_rev. apply cursor_perm.
  - intros s limit offset order Hi _. apply bolt_getUsers_page.
  - intros s limit order n Hi _ Hl Hn. unfold bolt_getUsers, bolt_userExists.
    rewrite bool_decide_false by done. simpl. by destruct (usersBucket s !! n).
  - intros s limit offset order n. unfold bolt_getUsers. repeat case_match; simpl; try (apply cursorLoop_hidden; constructor);
      repeat constructor; by eexists.
Defined.

(** ** Histories

    A history of provider calls. An update is taken to name the record it
    changes by both name and id, as a client that sends back what it was given
    does. *)
Inductive bolt_op :=
  | OpAdd (u : User)
  | OpUpdate (u : User)
  | OpDelete (u : User)
  | OpQuota (now : Z) (name : string) (files size : Z) (reset : bool).

Definition bolt_step (db : BoltDB) (op : bolt_op) : BoltDB :=
  match op with
  | OpAdd u => snd (bolt_addUser u db)
  | OpUpdate u => snd (bolt_updateUser u db)
  | OpDelete u => snd (bolt_deleteUser u db)
  | OpQuota now n f z r => snd (bolt_updateQuota now n f z r db)
  end.
Definition update_consistent (db : BoltDB) (op : bolt_op) : Prop :=
  match op with
  | OpUpdate u => ∀ old, usersBucket db !! Username u = Some old → ID u = ID old
  | _ => True
  end.
Fixpoint consistent_history (db : BoltDB) (ops : list bolt_op) : Prop :=
  match ops with
  | [] => True
  | op :: ops => update_consistent db op ∧ consistent_history (bolt_step db op) ops
  end.
Definition emptyBolt : BoltDB := mkBolt ∅ ∅ 0.

Lemma emptyBolt_inv : bolt_inv emptyBolt.
Proof. by split. Qed.

Lemma bolt_step_inv db op :
  bolt_inv db → sequence db + 1 < 2 ^ 63 → update_consistent db op →
  bolt_inv (bolt_step db op) ∧ sequence (bolt_step db op) <= sequence db + 1.
Proof.
  intros Hi Hs Hc. destruct op as [u|u|u|now n f z r]; simpl.
  - destruct (validateUser u) as [u'|e|] eqn:Hv;
      [|by unfold bolt_addUser; rewrite Hv; split; [|simpl; lia]..].
    destruct (usersBucket db !! Username u') eqn:Hn.
    { unfold bolt_addUser. rewrite Hv, Hn. split; [done|simpl; lia]. }
    destruct (bolt_addUser_ok db u u' Hi Hs Hv Hn) as [-> ?]. split; [done|simpl; lia].
  - destruct (validateUser u) as [u'|e|] eqn:Hv;
      [|by unfold bolt_updateUser; rewrite Hv; split; [|simpl; lia]..].
    destruct (usersBucket db !! Username u') as [old|] eqn:Hn.
    + destruct (validateUser_fields _ _ Hv) as (Hu & Hid & _). rewrite Hu in Hn. simpl in Hc.
      destruct (bolt_updateUser_ok db u u' old) as [-> ?]; [done..|by rewrite Hu|by rewrite Hid; apply Hc|].
      split; [done|simpl; lia].
    + unfold bolt_updateUser. rewrite Hv, Hn. split; [done|simpl; lia].
  - unfold bolt_deleteUser. destruct (usersIDIdxBucket db !! itob (ID u)) as [n|] eqn:Hx; [|split; [done|simpl; lia]].
    destruct (bi_idx db Hi _ _ Hx) as (v & Hv & Hk). destruct (bi_users db Hi n v Hv) as (Hn & _). subst n.
    destruct (bolt_deleteUser_ok db v v Hi Hv eq_refl) as [_ ?]. rewrite Hk in *.
    split; [done|simpl; lia].
  - unfold bolt_updateQuota. destruct (usersBucket db !! n) as [u|] eqn:Hu; [|split; [done|simpl; lia]].
    pose proof (quota_updated_fields now f z r u) as [Hn Hid]. split; [|simpl; lia].
    eapply put_user_inv; [done..| |done]. rewrite Hn. by apply (bi_users db Hi).
Qed.

(** C25: After any history of additions, updates, deletions and quota changes
    on a new database, looking a user up by id and by name agree: an id finds
    a record exactly when a record with that id is stored under its own name,
    and no two records share an id. *)
Theorem bolt_index_consistent ops :
  consistent_history emptyBolt ops → zlen ops < 2 ^ 63 - 1 →
  let db := foldl bolt_step emptyBolt ops in
  (∀ id u, is_i64 id → bolt_getUserByID id db = Ok u ↔ ID u = id ∧ bolt_userExists (Username u) db = Ok u)
  ∧ (∀ u v, bolt_userExists (Username u) db = Ok u → bolt_userExists (Username v) db = Ok v →
       ID u = ID v → u = v).
Proof.
  intros Hh Hlen db.
  assert (Hinv : ∀ db0, bolt_inv db0 → sequence db0 + zlen ops < 2 ^ 63 - 1 → consistent_history db0 ops →
                 bolt_inv (foldl bolt_step db0 ops)).
  { clear. induction ops as [|op ops IH]; intros db0 Hi Hs Hc; [done|]. simpl.
    rewrite zlen_cons in Hs. pose proof (zlen_nonneg ops). destruct Hc as [Hc Hcs].
    destruct (bolt_step_inv db0 op) as [? ?]; [done|lia|done|]. apply IH; [done|lia|done]. }
  assert (Hi : bolt_inv db) by (apply Hinv; [apply emptyBolt_inv|simpl; lia|done]). clearbody db.
  assert (Hex : ∀ u, bolt_userExists (Username u) db = Ok u ↔ usersBucket db !! Username u = Some u).
  { intros u. unfold bolt_userExists. by destruct (usersBucket db !! _); split; intros [= ->]. }
  setoid_rewrite Hex. split.
  - intros id u Hid. pose proof (getUserByID_spec db id) as Hs. simpl in Hs.
    destruct (Hs Hi Hid) as [(v & Hv & Hvid & Hc)|[[m Hm] Hno]].
    + rewrite Hv. split; [by intros [= <-]|]. intros [<- Hu]. f_equal.
      assert (Username v = Username u) as E by by eapply bolt_ids. rewrite E in Hc. congruence.
    + rewrite Hm. split; [done|]. intros [Hu Hc]. by destruct (Hno _ _ Hc).
  - intros u v Hu Hv E. assert (Username u = Username v) as En by by eapply bolt_ids. rewrite En in Hu. congruence.
Qed.

End bolt_spec.

(** Adding a user with a clear-text password makes that password log the
    user in, and changes nobody else's logins. *)
Theorem bolt_added_user_logs_in `{CryptoSpec} db u u' :
  bolt_inv db → sequence db + 1 < 2 ^ 63 →
  validateUser u = Ok u' → ¬ password_hashed (Password u) → usersBucket db !! Username u = None →
  ∃ db', bolt_addUser u db = (None, db') ∧
    bolt_validateUserAndPass (Username u) (Password u) db' = Ok (set_ID u' (sequence db + 1)) ∧
    ∀ n pw, n ≠ Username u → bolt_validateUserAndPass n pw db' = bolt_validateUserAndPass n pw db.
Proof.
  intros Hi Hs Hv Hp Hn. destruct (validateUser_fields _ _ Hv) as (Hu & _).
  destruct (bolt_addUser_ok db u u' Hi Hs Hv) as [E _]; [by rewrite Hu|].
  eexists. split; [exact E|]. rewrite Hu.
  destruct (validateUser_inv _ _ Hv) as (_ & _ & [[? _]|Hh]); [done|]. split.
  - unfold bolt_validateUserAndPass, bolt_userExists. simpl. rewrite lookup_insert_eq.
    rewrite bool_decide_false by (intros He; apply Hp; by left). by apply argon_login.
  - intros n pw Hne. unfold bolt_validateUserAndPass, bolt_userExists. simpl.
    by rewrite lookup_insert_ne.
Qed.

(** ** Witnesses and a counterexample *)
Definition bob : User :=
  mkUser 0 "bob" "hunter2" [] "/home/bob" 1000 1000 0 0 0 ["*"]%string 0 0 0 0 0.
Definition two_users : BoltDB := foldl bolt_step emptyBolt [OpAdd ToyCrypto.alice; OpAdd bob].

Lemma two_users_inv : bolt_inv two_users.
Proof.
  unfold two_users, foldl.
  apply bolt_step_inv; [|vm_compute; done|done].
  apply bolt_step_inv; [apply emptyBolt_inv|done|done].
Qed.

Lemma bolt_index_consistent_witness :
  let db := two_users in
  (∀ id u, is_i64 id → bolt_getUserByID id db = Ok u ↔ ID u = id ∧ bolt_userExists (Username u) db = Ok u)
  ∧ (∀ u v, bolt_userExists (Username u) db = Ok u → bolt_userExists (Username v) db = Ok v →
       ID u = ID v → u = v).
Proof.
  exact (bolt_index_consistent [OpAdd ToyCrypto.alice; OpAdd bob]
           (conj I (conj I I)) eq_refl).
Defined.

Lemma bolt_added_user_logs_in_witness :
  ∃ db', bolt_addUser bob emptyBolt = (None, db') ∧
    bolt_validateUserAndPass "bob" "hunter2" db'
      = Ok (set_ID (set_Password bob (ToyCrypto.argon "hunter2")) 1) ∧
    ∀ n pw, n ≠ "bob"%string → bolt_validateUserAndPass n pw db' = bolt_validateUserAndPass n pw emptyBolt.
Proof.
  apply (bolt_added_user_logs_in emptyBolt bob (set_Password bob (ToyCrypto.argon "hunter2"))).
  - apply emptyBolt_inv.
  - reflexivity.
  - reflexivity.
  - intros [E|E]; vm_compute in E; discriminate.
  - reflexivity.
Defined.

(** Without that consistency the index breaks: an update that carries the
    id of one user and the name of another is accepted, overwrites the record
    of the other user, and from then on the second id finds a record with the
    first id. *)
Theorem bolt_update_can_hijack_record :
  let u := set_ID bob 1 in
  (∃ a, bolt_getUserByID (ID u) two_users = Ok a ∧ Username a = "alice"%string) ∧
  ∃ db', bolt_updateUser u two_users = (None, db') ∧
    (∃ v, bolt_getUserByID 2 db' = Ok v ∧ ID v = 1 ∧ Username v = "bob"%string) ∧ ¬ bolt_inv db'.
Proof.
  split; [by vm_compute; eexists|].
  destruct (bolt_updateUser (set_ID bob 1) two_users) as [err db'] eqn:E. exists db'.
  assert (err = None) as -> by (vm_compute in E; congruence). split; [done|].
  assert (bolt_getUserByID 2 db' = Ok (set_ID (set_Password bob (ToyCrypto.argon "hunter2")) 1)) as Hv.
  { vm_compute in E. injection E as <-. reflexivity. }
  split; [by eexists|]. intros Hi.
  pose proof (getUserByID_spec db' 2) as Hs. simpl in Hs.
  destruct (Hs Hi) as [(v & Hv' & Hid & _)|[[m Hm] _]]; [split; lia| |congruence].
  rewrite Hv in Hv'. by simplify_eq.
Qed.
