(* ===== verification/Sql.v ===== *)
(** * The SQL the server speaks

    The SQL providers send query texts to a database over Go's database/sql.
    This file reads the statements that occur in dataprovider/sqlqueries.go —
    SELECT, UPDATE, INSERT and DELETE on one table with placeholders — from their
    text, gives them their meaning on a table, and states as the class
    [DatabaseSpec] what the providers rely on in a database: that it does to the
    users table what the statement says, as long as the columns can hold the
    values. Which values a column holds is a field of the class: SQLite's hold
    64-bit integers and any text, those of src/sql/mysql and src/sql/pgsql 32-bit
    integers in most places and texts of 255 characters in some. The class covers
    databases that compare and order text by its bytes, as SQLite does by default. *)
From Stdlib Require Import Ascii.
From stdpp Require Import base tactics option list strings sorting.
From Stdlib Require Import ZArith Lia.
From S2P Require Import Prelude GoStrconv.

(** ** Tokens *)
Inductive token :=
  | TId (s : string)
  | TNum (z : Z)
  | TAny
  | TParam (i : nat)
  | TComma | TOpen | TClose | TEq | TPlus | TBad.

Definition char_in (lo hi c : ascii) : bool := (N_of_ascii lo <=? N_of_ascii c)%N && (N_of_ascii c <=? N_of_ascii hi)%N.
Definition is_digit (c : ascii) : bool := char_in "0" "9" c.
Definition is_letter (c : ascii) : bool :=
  char_in "a" "z" c || char_in "A" "Z" c || bool_decide (c = "_"%char).
Definition is_word_char (c : ascii) : bool := is_letter c || is_digit c || bool_decide (c = "$"%char).

(** A word is a name, a number, or a numbered placeholder, counted from 1. *)
Definition word_token (w : string) : list token :=
  match w with
  | EmptyString => []
  | String c w' =>
      if is_letter c then [TId w]
      else if bool_decide (c = "$"%char) then
        match parse_digits w' 0 with Some n => [TParam (Z.to_nat (n - 1))] | None => [TBad] end
      else match parse_digits w 0 with Some n => [TNum n] | None => [TBad] end
  end.
Definition char_token (c : ascii) : list token :=
  if bool_decide (c = " "%char) || bool_decide (c = "009"%char) || bool_decide (c = "010"%char) then []
  else if bool_decide (c = ","%char) then [TComma]
  else if bool_decide (c = "("%char) then [TOpen]
  else if bool_decide (c = ")"%char) then [TClose]
  else if bool_decide (c = "="%char) then [TEq]
  else if bool_decide (c = "+"%char) then [TPlus]
  else if bool_decide (c = "?"%char) then [TAny]
  else [TBad].
Fixpoint tokens (w s : string) : list token :=
  match s with
  | EmptyString => word_token w
  | String c s =>
      if is_word_char c then tokens (w +:+ String c EmptyString) s
      else word_token w ++ char_token c ++ tokens EmptyString s
  end.
(** The placeholders "?" are numbered from the left. *)
Fixpoint number_params (i : nat) (l : list token) : list token :=
  match l with
  | [] => []
  | TAny :: l => TParam i :: number_params (S i) l
  | t :: l => t :: number_params i l
  end.

(** ** Statements *)
Inductive expr := EParam (i : nat) | EConst (z : Z) | EAdd (col : string) (i : nat).
Record paging := { order_col : string; descending : bool; limit_param : nat; offset_param : nat }.
Inductive stmt :=
  | SSelect (cols : list string) (tbl : string) (cond : option (string * nat)) (page : option paging)
  | SUpdate (tbl : string) (sets : list (string * expr)) (cond : string * nat)
  | SInsert (tbl : string) (cols : list string) (vals : list expr)
  | SDelete (tbl : string) (cond : string * nat).

Fixpoint idents (l : list token) : option (list string * list token) :=
  match l with
  | TId c :: TComma :: l => '(cs, l) ← idents l; Some (c :: cs, l)
  | TId c :: l => Some ([c], l)
  | _ => None
  end.
Fixpoint assignments (l : list token) : option (list (string * expr) * list token) :=
  match l with
  | TId c :: TEq :: TParam i :: TComma :: l => '(xs, l) ← assignments l; Some ((c, EParam i) :: xs, l)
  | TId c :: TEq :: TParam i :: l => Some ([(c, EParam i)], l)
  | TId c :: TEq :: TId d :: TPlus :: TParam i :: TComma :: l =>
      '(xs, l) ← assignments l; Some ((c, EAdd d i) :: xs, l)
  | TId c :: TEq :: TId d :: TPlus :: TParam i :: l => Some ([(c, EAdd d i)], l)
  | _ => None
  end.
Definition simple_expr (t : token) : option expr :=
  match t with TParam i => Some (EParam i) | TNum z => Some (EConst z) | _ => None end.
Fixpoint expressions (l : list token) : option (list expr * list token) :=
  match l with
  | t :: TComma :: l => e ← simple_expr t; '(es, l) ← expressions l; Some (e :: es, l)
  | t :: l => e ← simple_expr t; Some ([e], l)
  | [] => None
  end.
Definition condition (l : list token) : option (option (string * nat) * list token) :=
  match l with
  | TId "WHERE" :: TId c :: TEq :: TParam i :: l => Some (Some (c, i), l)
  | TId "WHERE" :: _ => None
  | _ => Some (None, l)
  end.
Definition page_of (l : list token) : option (option paging) :=
  match l with
  | [] => Some None
  | TId "ORDER" :: TId "BY" :: TId c :: l =>
      let '(desc, l) := match l with
        | TId "ASC" :: l => (false, l)
        | TId "DESC" :: l => (true, l)
        | _ => (false, l)
        end in
      match l with
      | [TId "LIMIT"; TParam i; TId "OFFSET"; TParam j] => Some (Some (Build_paging c desc i j))
      | _ => None
      end
  | _ => None
  end.
Definition parse_tokens (l : list token) : option stmt :=
  match l with
  | TId "SELECT" :: l =>
      '(cols, l) ← idents l;
      match l with
      | TId "FROM" :: TId tbl :: l => '(cond, l) ← condition l; page ← page_of l; Some (SSelect cols tbl cond page)
      | _ => None
      end
  | TId "UPDATE" :: TId tbl :: TId "SET" :: l =>
      '(sets, l) ← assignments l;
      match condition l with Some (Some c, []) => Some (SUpdate tbl sets c) | _ => None end
  | TId "INSERT" :: TId "INTO" :: TId tbl :: TOpen :: l =>
      '(cols, l) ← idents l;
      match l with
      | TClose :: TId "VALUES" :: TOpen :: l =>
          '(vals, l) ← expressions l;
          match l with [TClose] => Some (SInsert tbl cols vals) | _ => None end
      | _ => None
      end
  | TId "DELETE" :: TId "FROM" :: TId tbl :: l =>
      match condition l with Some (Some c, []) => Some (SDelete tbl c) | _ => None end
  | _ => None
  end.
Definition parse_sql (text : string) : option stmt := parse_tokens (number_params 0 (tokens EmptyString text)).

(** The placeholders of a statement, in the order of the text. *)
Definition expr_params (e : expr) : list nat :=
  match e with EParam i | EAdd _ i => [i] | EConst _ => [] end.
Definition params (st : stmt) : list nat :=
  match st with
  | SSelect _ _ cond page =>
      match cond with Some (_, i) => [i] | None => [] end
      ++ match page with Some p => [limit_param p; offset_param p] | None => [] end
  | SUpdate _ sets (_, i) => concat (map (λ s, expr_params s.2) sets) ++ [i]
  | SInsert _ _ vals => concat (map expr_params vals)
  | SDelete _ (_, i) => [i]
  end.

(** ** What statements mean

    A row gives every column its value. *)
Inductive value := VInt (z : Z) | VText (s : string) | VNull.
#[global] Instance value_eq_dec : EqDecision value.
Proof. solve_decision. Defined.
Definition row := string → value.

Section meaning.
Context (args : list value).
Implicit Types (r : row).

Definition arg (i : nat) : value := nth i args VNull.
Definition eval r (e : expr) : value :=
  match e with
  | EParam i => arg i
  | EConst z => VInt z
  | EAdd c i => match r c, arg i with VInt a, VInt b => VInt (a + b) | _, _ => VNull end
  end.
Definition matches (cond : string * nat) r : bool := bool_decide (r cond.1 = arg cond.2).
Fixpoint assigned (c : string) (sets : list (string * expr)) : option expr :=
  match sets with
  | [] => None
  | (d, e) :: sets => if String.eqb c d then Some e else assigned c sets
  end.
Definition set_columns (sets : list (string * expr)) r : row :=
  λ c, match assigned c sets with Some e => eval r e | None => r c end.
Definition new_row (id : Z) (cols : list string) (vals : list expr) : row :=
  λ c, if String.eqb c "id" then VInt id
       else match assigned c (zip cols vals) with Some e => eval (λ _, VNull) e | None => VNull end.

Definition value_le (v w : value) : Prop :=
  match v, w with VText a, VText b => String.le a b | _, _ => False end.
#[global] Instance value_le_dec v w : Decision (value_le v w).
Proof. destruct v, w; apply _. Defined.
Definition row_le (p : paging) r r' : Prop :=
  if descending p then value_le (r' (order_col p)) (r (order_col p)) else value_le (r (order_col p)) (r' (order_col p)).
#[global] Instance row_le_dec p r r' : Decision (row_le p r r').
Proof. unfold row_le. destruct (descending p); apply _. Defined.

Definition int_arg (i : nat) : nat := match arg i with VInt z => Z.to_nat z | _ => O end.
Definition select (cols : list string) (cond : option (string * nat)) (page : option paging) (t : list row)
  : list (list value) :=
  let t := match cond with Some c => filter (λ r, matches c r = true) t | None => t end in
  let t := match page with
    | Some p => take (int_arg (limit_param p)) (drop (int_arg (offset_param p)) (merge_sort (row_le p) t))
    | None => t
    end in
  map (λ r : row, map r cols) t.
Definition update (sets : list (string * expr)) (cond : string * nat) (t : list row) : list row :=
  map (λ r, if matches cond r then set_columns sets r else r) t.
Definition remove (cond : string * nat) (t : list row) : list row := filter (λ r, matches cond r = false) t.

(** The values of a statement are ones the columns hold: a number that is
    compared with a column, every placeholder that goes into one, and what a
    row has in it afterwards. *)
Context (fits : string → value → Prop).
Definition comparable (cond : string * nat) : Prop :=
  match arg cond.2 with VInt z => fits cond.1 (VInt z) | _ => True end.
Definition assignable (sets : list (string * expr)) (cond : string * nat) (t : list row) : Prop :=
  ∀ c e, (c, e) ∈ sets → Forall (λ i, fits c (arg i)) (expr_params e) ∧
    ∀ r, r ∈ t → matches cond r = true → fits c (eval r e).
Definition insertable (cols : list string) (vals : list expr) : Prop :=
  Forall (λ c, fits c (new_row 0 cols vals c)) cols.
End meaning.

(** ** Databases

    The handle of database/sql; [db_Query] runs a SELECT and delivers its rows.
    [db_Begin], [db_Commit] and [db_Rollback] are those of a transaction in
    which no statement runs. *)
Class Database (D : Type) := {
  db_Prepare : string → D → option error;
  db_Query : string → list value → D → result (list (list value));
  db_Exec : string → list value → D → option error * D;
  db_Begin : D → option error * D;
  db_Commit : D → option error * D;
  db_Rollback : D → option error * D
}.

(** A database that is reachable and has the users table [tbl]. Its columns
    hold the values [fits_column], "username" is unique, and "id" is a
    positive number chosen by the database; [id_room] says that it can still choose one. *)
Class DatabaseSpec (D : Type) `{Database D} (tbl : string) := {
  rows : D → list row;
  id_room : D → Prop;
  fits_column : string → value → Prop;
  Prepare_spec d q st : parse_sql q = Some st →
    match st with SSelect _ t _ _ | SUpdate t _ _ | SInsert t _ _ | SDelete t _ => t = tbl end →
    db_Prepare q d = None;
  Select_spec d q args cols cond page :
    parse_sql q = Some (SSelect cols tbl cond page) →
    params (SSelect cols tbl cond page) = seq 0 (length args) →
    NoDup (map (λ r : row, r "username"%string) (rows d)) →
    match page with Some p => order_col p = "username"%string | None => True end →
    match cond with Some c => comparable args fits_column c | None => True end →
    db_Query q args d = Ok (select args cols cond page (rows d));
  Update_spec d q args sets cond :
    parse_sql q = Some (SUpdate tbl sets cond) → params (SUpdate tbl sets cond) = seq 0 (length args) →
    assigned "id" sets = None → assigned "username" sets = None →
    comparable args fits_column cond → assignable args fits_column sets cond (rows d) →
    ∃ d', db_Exec q args d = (None, d') ∧ rows d' ≡ₚ update args sets cond (rows d);
  Insert_spec d q args cols vals :
    parse_sql q = Some (SInsert tbl cols vals) → params (SInsert tbl cols vals) = seq 0 (length args) →
    id_room d → "id"%string ∉ cols → insertable args fits_column cols vals →
    (∀ r, r ∈ rows d → r "username"%string ≠ new_row args 0 cols vals "username") →
    ∃ id d', db_Exec q args d = (None, d') ∧ rows d' ≡ₚ new_row args id cols vals :: rows d ∧ 1 <= id < 2 ^ 63
      ∧ ∀ r, r ∈ rows d → r "id"%string ≠ VInt id;
  Insert_taken d q args cols vals r :
    parse_sql q = Some (SInsert tbl cols vals) → params (SInsert tbl cols vals) = seq 0 (length args) →
    r ∈ rows d → r "username"%string = new_row args 0 cols vals "username" →
    ∃ e d', db_Exec q args d = (Some e, d') ∧ rows d' = rows d;
  Delete_spec d q args cond :
    parse_sql q = Some (SDelete tbl cond) → params (SDelete tbl cond) = seq 0 (length args) →
    comparable args fits_column cond →
    ∃ d', db_Exec q args d = (None, d') ∧ rows d' ≡ₚ remove args cond (rows d);
  Begin_spec d : ∃ d', db_Begin d = (None, d') ∧ rows d' = rows d;
  Commit_spec d : ∃ d', db_Commit d = (None, d') ∧ rows d' = rows d
}.
