(* ===== verification/Store.v ===== *)
(** * The abstract user store, and refinement

    What the providers of dataprovider/ are to their callers: a map from names
    to users with unique ids. [store_step] is this abstract machine, one rule
    per answer a call may get; [do_call] dispatches a call to the methods of the
    [Provider] interface. Every provider that keeps [ProviderOn] refines the
    machine, call by call and for whole histories, as long as the calls are
    admissible: within the limits of the provider, and with updates that name
    their record by both name and id. *)
From stdpp Require Import base tactics option list strings gmap.
From Stdlib Require Import ZArith Lia.
From S2P Require Import Prelude GoJson DataProvider BoltProvider.

(** ** Calls and replies *)
Inductive call :=
  | Login (n pw : string)
  | KeyLogin (n key : string)
  | Exists (n : string)
  | ByID (id : Z)
  | UsedQuota (n : string)
  | UpdateQuota (now : Z) (n : string) (files size : Z) (reset : bool)
  | Add (u : User)
  | Update (u : User)
  | Delete (u : User)
  | Page (limit offset : Z) (order : string)
  | Find (limit : Z) (order n : string).

Inductive reply :=
  | RUser (r : result User)
  | RQuota (r : result (Z * Z))
  | RErr (err : option error)
  | RUsers (r : list User * option error).

(** ** The abstract machine *)
Section machine.
Context `{Crypto}.
Implicit Types (m : gmap string User) (u v : User).

Inductive store_step m : call → reply → gmap string User → Prop :=
  | st_login n pw u : m !! n = Some u → pw ≠ EmptyString →
      store_step m (Login n pw) (RUser (checkUserAndPass u pw)) m
  | st_login_refused n pw e : m !! n = None ∨ pw = EmptyString →
      store_step m (Login n pw) (RUser (Err e)) m
  | st_key n key u : m !! n = Some u → key ≠ EmptyString →
      store_step m (KeyLogin n key) (RUser (checkUserAndPubKey u key)) m
  | st_key_refused n key e : m !! n = None ∨ key = EmptyString →
      store_step m (KeyLogin n key) (RUser (Err e)) m
  | st_exists n u : m !! n = Some u → store_step m (Exists n) (RUser (Ok u)) m
  | st_exists_not n msg : m !! n = None → store_step m (Exists n) (RUser (Err (RecordNotFoundError msg))) m
  | st_id u : m !! Username u = Some u → store_step m (ByID (ID u)) (RUser (Ok u)) m
  | st_id_not id msg : (∀ n u, m !! n = Some u → ID u ≠ id) →
      store_step m (ByID id) (RUser (Err (RecordNotFoundError msg))) m
  | st_quota n u : m !! n = Some u → store_step m (UsedQuota n) (RQuota (Ok (UsedQuotaFiles u, UsedQuotaSize u))) m
  | st_quota_not n e : m !! n = None → store_step m (UsedQuota n) (RQuota (Err e)) m
  | st_update_quota now n f z reset u : m !! n = Some u →
      store_step m (UpdateQuota now n f z reset) (RErr None) (<[n := quota_updated now f z reset u]> m)
  | st_update_quota_absent now n f z reset err : m !! n = None →
      store_step m (UpdateQuota now n f z reset) (RErr err) m
  | st_add u u' v : validateUser u = Ok u' → m !! Username u' = None → account v = account u' →
      (∀ n w, m !! n = Some w → ID w ≠ ID v) → store_step m (Add u) (RErr None) (<[Username u' := v]> m)
  | st_add_refused u e : (∀ u', validateUser u = Ok u' → is_Some (m !! Username u')) →
      store_step m (Add u) (RErr (Some e)) m
  | st_update u u' v old : validateUser u = Ok u' → m !! Username u' = Some old → ID u' = ID old →
      account v = account u' → ID v = ID u' → store_step m (Update u) (RErr None) (<[Username u' := v]> m)
  | st_update_refused u err : (∀ u', validateUser u = Ok u' → m !! Username u' = None) →
      store_step m (Update u) (RErr err) m
  | st_delete u v : m !! Username v = Some v → ID u = ID v →
      store_step m (Delete u) (RErr None) (delete (Username v) m)
  | st_delete_absent u err : (∀ n v, m !! n = Some v → ID v ≠ ID u) → store_step m (Delete u) (RErr err) m
  | st_page limit offset order l : l ≡ₚ (map_to_list m).*2 →
      store_step m (Page limit offset order)
        (RUsers (map getUserNoCredentials (take (Z.to_nat limit) (drop (Z.to_nat offset) l)), None)) m
  | st_find limit order n :
      store_step m (Find limit order n) (RUsers (map getUserNoCredentials (option_list (m !! n)), None)) m.

Inductive store_run : gmap string User → list call → list reply → gmap string User → Prop :=
  | run_nil m : store_run m [] [] m
  | run_cons m c r m1 cs rs m2 : store_step m c r m1 → store_run m1 cs rs m2 → store_run m (c :: cs) (r :: rs) m2.

(** Names and ids identify the users of a store. *)
Definition store_wf m : Prop :=
  (∀ n u, m !! n = Some u → Username u = n) ∧
  (∀ n n' u u', m !! n = Some u → m !! n' = Some u' → ID u = ID u' → n = n').

Lemma store_wf_insert m n v : store_wf m → Username v = n →
  (∀ n' w, n' ≠ n → m !! n' = Some w → ID w ≠ ID v) → store_wf (<[n := v]> m).
Proof.
  intros [Hn Hi] Hv Hf. split.
  - intros k u [[<- <-]|[? ?]]%lookup_insert_Some; auto.
  - intros k k' u u' [[<- <-]|[? Hu]]%lookup_insert_Some [[<- <-]|[? Hu']]%lookup_insert_Some E; [done|..].
    + by destruct (Hf k' u').
    + by destruct (Hf k u).
    + by eapply Hi.
Qed.

Lemma store_step_wf m c r m' : store_wf m → store_step m c r m' → store_wf m'.
Proof.
  intros Hw Hs. destruct Hs as [| | | | | | | | | |now n f z reset u Hu| |u u' v Hv Hn Ha Hf| |u u' v old Hv Ho Hid Ha Hi| |u v Hv Hid| | |];
    try done.
  - destruct (quota_updated_fields now f z reset u) as [Hn Hi]. apply store_wf_insert; [done|by rewrite Hn; apply Hw|].
    intros n' w Hne Hw' E. apply Hne. rewrite Hi in E. by eapply (proj2 Hw).
  - apply store_wf_insert; [done|by apply (f_equal Username) in Ha|]. intros n' w _. apply Hf.
  - apply store_wf_insert; [done|by apply (f_equal Username) in Ha|].
    intros n' w Hne Hw' E. apply Hne. eapply (proj2 Hw); [done..|]. by rewrite E, Hi.
  - destruct Hw as [Hn Hi]. split; [intros n' w [? ?]%lookup_delete_Some; auto|].
    intros ???? [? ?]%lookup_delete_Some [? ?]%lookup_delete_Some ?. by eapply Hi.
Qed.
End machine.

(** ** Refinement *)
Section refinement.
Context {S : Type} {L : Limits} `{Spec : ProviderOn L S}.
Implicit Types (s : S) (c : call).

Definition do_call c s : reply * S :=
  match c with
  | Login n pw => (RUser (validateUserAndPass n pw s), s)
  | KeyLogin n key => (RUser (validateUserAndPubKey n key s), s)
  | Exists n => (RUser (userExists n s), s)
  | ByID id => (RUser (getUserByID id s), s)
  | UsedQuota n => (RQuota (getUsedQuota n s), s)
  | UpdateQuota now n f z reset => let '(err, s) := updateQuota now n f z reset s in (RErr err, s)
  | Add u => let '(err, s) := addUser u s in (RErr err, s)
  | Update u => let '(err, s) := updateUser u s in (RErr err, s)
  | Delete u => let '(err, s) := deleteUser u s in (RErr err, s)
  | Page limit offset order => (RUsers (getUsers limit offset order EmptyString s), s)
  | Find limit order n => (RUsers (getUsers limit 0 order n s), s)
  end.

Fixpoint do_calls (cs : list call) s : list reply * S :=
  match cs with
  | [] => ([], s)
  | c :: cs => let '(r, s) := do_call c s in let '(rs, s) := do_calls cs s in (r :: rs, s)
  end.

(** What the callers see to: an id is left for a new user, what they hand over
    is within the limits of the provider, an update names its record by both
    name and id, or none, pages are not empty, and a search names somebody. *)
Definition admissible s c : Prop :=
  match c with
  | ByID id => id_fits L id
  | UpdateQuota now n f z reset => change_fits L now f z reset (contents s !! n)
  | Add u => room s ∧ ∀ u', validateUser u = Ok u' → user_fits L u'
  | Update u => ∀ u', validateUser u = Ok u' → user_fits L u' ∧ id_fits L (ID u') ∧
      match contents s !! Username u' with
      | Some old => ID u' = ID old
      | None => ∀ n v, contents s !! n = Some v → ID v ≠ ID u'
      end
  | Delete u => id_fits L (ID u)
  | Page limit offset order => is_order order ∧ 0 < limit ∧ 0 <= offset
  | Find limit order n => is_order order ∧ 0 < limit ∧ n ≠ EmptyString
  | _ => True
  end.
Fixpoint admissible_run s (cs : list call) : Prop :=
  match cs with
  | [] => True
  | c :: cs => admissible s c ∧ admissible_run (do_call c s).2 cs
  end.

Abbreviation refines s c := (pinv (do_call c s).2 ∧ store_step (contents s) c (do_call c s).1 (contents (do_call c s).2)).

Lemma refines_login s n pw : pinv s → refines s (Login n pw).
Proof.
  intros Hs. split; [done|]. simpl. pose proof (validateUserAndPass_spec s n pw Hs) as E.
  destruct (contents s !! n) eqn:Hu; [case_bool_decide|].
  - destruct E as [e ->]. constructor. auto.
  - rewrite E. by constructor.
  - destruct E as [e ->]. constructor. auto.
Qed.
Lemma refines_key s n key : pinv s → refines s (KeyLogin n key).
Proof.
  intros Hs. split; [done|]. simpl. pose proof (validateUserAndPubKey_spec s n key Hs) as E.
  destruct (contents s !! n) eqn:Hu; [case_bool_decide|].
  - destruct E as [e ->]. constructor. auto.
  - rewrite E. by constructor.
  - destruct E as [e ->]. constructor. auto.
Qed.
Lemma refines_add s u : pinv s → admissible s (Add u) → refines s (Add u).
Proof.
  intros Hs [Hr Hst]. simpl.
  assert (Hc : (∃ u', validateUser u = Ok u' ∧ contents s !! Username u' = None)
             ∨ ∀ u', validateUser u = Ok u' → is_Some (contents s !! Username u')).
  { destruct (validateUser u) as [u'| |]; [|by right..].
    destruct (contents s !! Username u') as [v|] eqn:E; [right|left; eauto]. intros ? [= <-]. by eexists. }
  destruct Hc as [(u' & Hv & Hn)|Hc].
  - destruct (addUser_on s u u') as (v & s' & E & Hs' & Hc & ? & ?); auto.
    rewrite E. simpl. rewrite Hc. split; [done|]. by econstructor.
  - destruct (addUser_refused s u) as (err & s' & E & ? & Hc'); [done..|intros u' Hv; auto|].
    rewrite E. simpl. rewrite Hc'. split; [done|]. by constructor.
Qed.
Lemma refines_update s u : pinv s → admissible s (Update u) → refines s (Update u).
Proof.
  intros Hs Ha. simpl in *. destruct (validateUser u) as [u'| |] eqn:Hv.
  2,3: destruct (updateUser_refused s u) as (err & s' & E & ? & Hc); [done|by rewrite Hv|]; rewrite E; simpl;
    rewrite Hc; split; [done|]; constructor; congruence.
  destruct (Ha u' eq_refl) as (Hst & Hid & Hm). destruct (contents s !! Username u') as [old|] eqn:Ho.
  - destruct (updateUser_on s u u' old) as (v & s' & E & Hs' & Hc & ? & ?); [done..|].
    rewrite E. simpl. rewrite Hc. split; [done|]. by econstructor.
  - destruct (updateUser_refused s u) as (err & s' & E & ? & Hc); [done|intros ? [= <-]%(eq_trans (eq_sym Hv)); done|].
    rewrite E. simpl. rewrite Hc. split; [done|]. constructor. by intros ? [= <-]%(eq_trans (eq_sym Hv)).
Qed.
Lemma refines_delete s u : pinv s → id_fits L (ID u) → refines s (Delete u).
Proof.
  intros Hs Hid. simpl. destruct (getUserByID_on s (ID u) Hs Hid) as [(v & _ & Hi & Hv)|[_ Hno]].
  - destruct (deleteUser_on s u v) as (s' & E & ? & Hc); [done..|]. rewrite E. simpl. rewrite Hc. split; [done|]. by econstructor.
  - destruct (deleteUser_absent_on s u) as (err & s' & E & ? & Hc); [done..|]. rewrite E. simpl. rewrite Hc. split; [done|]. by constructor.
Qed.

(** One call of any provider is one step of the abstract machine. *)
Lemma provider_step_refines s c : pinv s → admissible s c → refines s c.
Proof.
  intros Hs Ha. destruct c as [| |n|id|n|now n f z reset| | |u|limit offset order|limit order n].
  - by apply refines_login.
  - by apply refines_key.
  - split; [done|]. simpl. pose proof (userExists_spec s n Hs) as E.
    destruct (contents s !! n) eqn:Hu; [rewrite E|destruct E as [? ->]]; by constructor.
  - split; [done|]. simpl. destruct (getUserByID_on s id Hs Ha) as [(u & -> & <- & Hu)|[[? ->] Hno]]; by constructor.
  - split; [done|]. simpl. pose proof (getUsedQuota_spec s n Hs) as E.
    destruct (contents s !! n) eqn:Hu; [rewrite E|destruct E as [? ->]]; by constructor.
  - simpl in *. destruct (updateQuota_on s now n f z reset Hs Ha) as (err & s' & E & ? & Hc & He).
    rewrite E. simpl. rewrite Hc. split; [done|].
    destruct (contents s !! n) as [u|] eqn:Hu.
    + rewrite He by by eexists. erewrite alter_present by done. by constructor.
    + rewrite alter_absent by done. by constructor.
  - by apply refines_add.
  - by apply refines_update.
  - by apply refines_delete.
  - destruct Ha as (? & ? & ?). split; [done|]. simpl. rewrite getUsers_spec by done. constructor.
    by apply enumeration_spec.
  - destruct Ha as (? & ? & ?). split; [done|]. simpl. rewrite getUsers_named by done. constructor.
Qed.

Lemma provider_run_refines cs s : pinv s → admissible_run s cs →
  pinv (do_calls cs s).2 ∧ store_run (contents s) cs (do_calls cs s).1 (contents (do_calls cs s).2).
Proof.
  revert s. induction cs as [|c cs IH]; intros s Hs Ha; [split; [done|constructor]|].
  destruct Ha as [Hc Ha]. destruct (provider_step_refines s c Hs Hc) as [Hs1 Hst]. cbn [do_calls].
  destruct (do_call c s) as [r s1]. simpl in *. destruct (IH s1 Hs1 Ha) as [Hs2 Hr].
  destruct (do_calls cs s1) as [rs s2]. simpl in *. split; [done|]. by econstructor.
Qed.
End refinement.

Section bolt.
Context `{Crypto}.

Lemma store_run_wf m cs rs m' : store_wf m → store_run m cs rs m' → store_wf m'.
Proof. intros Hw Hr. induction Hr as [|m c r m1 cs rs m2 Hst _ IH]; [done|]. apply IH. by eapply store_step_wf. Qed.

(** C3: the bolt provider refines the abstract store, for every admissible
    history. Start from a new database and let every call of the history be
    admissible where it is made: ids are 64-bit and the sequence has one left for
    an added user; a user that is added or updated has lists in UTF-8; counters
    do not overflow 64 bits; an update names a stored record by both its name and
    its id, or neither names one (without this the updated record takes over
    another one's id: [bolt_update_can_hijack_record]); a page has a positive
    limit and a known order, a search a name. Then every reply is one the store
    allows, and the bucket of users is the store after the same calls; in it
    names and ids identify users. *)
Theorem bolt_refines_store cs : admissible_run emptyBolt cs →
  let '(rs, db) := do_calls cs emptyBolt in
  store_run ∅ cs rs (usersBucket db) ∧ store_wf (usersBucket db).
Proof.
  intros Ha. destruct (provider_run_refines cs emptyBolt) as [_ Hr]; [exact emptyBolt_inv|exact Ha|].
  destruct (do_calls cs emptyBolt) as [rs db]. split; [done|]. eapply store_run_wf; [|exact Hr].
  split; intros *; simpl; by rewrite lookup_empty.
Qed.
End bolt.

Lemma bolt_refines_store_witness :
  let '(rs, db) := do_calls [Add bob; Add bob; Login "bob" "hunter2"; UpdateQuota 0 "bob" 1 7 false; ByID 1;
                             Delete (set_ID bob 1); Exists "bob"] emptyBolt in
  store_run ∅ [Add bob; Add bob; Login "bob" "hunter2"; UpdateQuota 0 "bob" 1 7 false; ByID 1;
               Delete (set_ID bob 1); Exists "bob"] rs (usersBucket db)
  ∧ store_wf (usersBucket db) ∧ length rs = 7%nat ∧ usersBucket db = ∅.
Proof.
  pose proof (bolt_refines_store [Add bob; Add bob; Login "bob" "hunter2"; UpdateQuota 0 "bob" 1 7 false; ByID 1;
                             Delete (set_ID bob 1); Exists "bob"]) as Hr.
  destruct (do_calls _ emptyBolt) as [rs db] eqn:E. destruct Hr as [Hr Hw].
  - assert (Hst : ∀ u', validateUser bob = Ok u' → storable u').
    { intros u' Hu'. vm_compute in Hu'. injection Hu' as <-. apply (bool_decide_unpack _). vm_compute. exact I. }
    split; [split; [vm_compute; reflexivity|exact Hst]|].
    split; [split; [vm_compute; reflexivity|exact Hst]|].
    split; [exact I|].
    split; [intros v Hv _; vm_compute in Hv; injection Hv as <-; split; split; (discriminate || reflexivity)|].
    split; [split; [discriminate|reflexivity]|]. split; [split; [discriminate|reflexivity]|]. split; exact I.
  - split; [exact Hr|]. split; [exact Hw|]. vm_compute in E. injection E as <- <-. split; reflexivity.
Defined.
