(* ===== verification/SqlProvider.v ===== *)
(** * The SQL providers

    dataprovider/sqlqueries.go, sqlcommon.go, sqlite.go, pgsql.go and mysql.go:
    the texts of the queries, the operations on users over a database handle,
    and the three providers, which differ only in how they update the quota.
    The operations are instances of [Provider]; over a database that keeps
    [DatabaseSpec] they keep [ProviderOn], within the limits of its columns. *)
From Stdlib Require Import Ascii.
From stdpp Require Import base tactics option list strings gmap sorting.
From Stdlib Require Import ZArith Lia.
From S2P Require Import Prelude GoOs GoPath GoStrconv GoJson DataProvider BoltProvider Sql Store.

(** ** Queries: sqlqueries.go *)
Definition selectUserFields : string :=
  "id,username,password,public_keys,home_dir,uid,gid,max_sessions,quota_size,quota_files,permissions," +:+
  "used_quota_size,used_quota_files,last_quota_update,upload_bandwidth,download_bandwidth".

Definition newline_tabs (n : nat) : string := String "010" (String.string_of_list_ascii (replicate n "009"%char)).

Section queries.
Context (config : Config).

Definition getSQLPlaceholders : list string :=
  map (λ i, if bool_decide (Driver config = PGSSQLDataProviderName) then "$" +:+ Itoa i else "?"%string) (seqZ 1 20).
Definition placeholder (i : nat) : string := nth i getSQLPlaceholders EmptyString.
Abbreviation tbl := (UsersTable config).
Abbreviation ph := placeholder.

Definition getUserByUsernameQuery : string :=
  "SELECT " +:+ selectUserFields +:+ " FROM " +:+ tbl +:+ " WHERE username = " +:+ ph 0.
Definition getUserByIDQuery : string :=
  "SELECT " +:+ selectUserFields +:+ " FROM " +:+ tbl +:+ " WHERE id = " +:+ ph 0.
Definition getUsersQuery (order username : string) : string :=
  if negb (bool_decide (username = EmptyString)) then
    "SELECT " +:+ selectUserFields +:+ " FROM " +:+ tbl +:+ " WHERE username = " +:+ ph 0 +:+
    " ORDER BY username " +:+ order +:+ " LIMIT " +:+ ph 1 +:+ " OFFSET " +:+ ph 2
  else
    "SELECT " +:+ selectUserFields +:+ " FROM " +:+ tbl +:+ " ORDER BY username " +:+ order +:+
    " LIMIT " +:+ ph 0 +:+ " OFFSET " +:+ ph 1.
Definition getUpdateQuotaQuery (reset : bool) : string :=
  if reset then
    "UPDATE " +:+ tbl +:+ " SET used_quota_size = " +:+ ph 0 +:+ ",used_quota_files = " +:+ ph 1 +:+
    ",last_quota_update = " +:+ ph 2 +:+ " " +:+ newline_tabs 3 +:+ "WHERE username = " +:+ ph 3
  else
    "UPDATE " +:+ tbl +:+ " SET used_quota_size = used_quota_size + " +:+ ph 0 +:+
    ",used_quota_files = used_quota_files + " +:+ ph 1 +:+ ",last_quota_update = " +:+ ph 2 +:+ " " +:+
    newline_tabs 2 +:+ "WHERE username = " +:+ ph 3.
Definition getQuotaQuery : string :=
  "SELECT used_quota_size,used_quota_files FROM " +:+ tbl +:+ " WHERE username = " +:+ ph 0.
Definition getAddUserQuery : string :=
  "INSERT INTO " +:+ tbl +:+ " (username,password,public_keys,home_dir,uid,gid,max_sessions,quota_size,quota_files,permissions," +:+
  newline_tabs 2 +:+ "used_quota_size,used_quota_files,last_quota_update,upload_bandwidth,download_bandwidth) " +:+
  newline_tabs 2 +:+ "VALUES (" +:+ ph 0 +:+ "," +:+ ph 1 +:+ "," +:+ ph 2 +:+ "," +:+ ph 3 +:+ "," +:+ ph 4 +:+ "," +:+ ph 5 +:+
  "," +:+ ph 6 +:+ "," +:+ ph 7 +:+ "," +:+ ph 8 +:+ "," +:+ ph 9 +:+ ",0,0,0," +:+ ph 10 +:+ "," +:+ ph 11 +:+ ")".
Definition getUpdateUserQuery : string :=
  "UPDATE " +:+ tbl +:+ " SET password=" +:+ ph 0 +:+ ",public_keys=" +:+ ph 1 +:+ ",home_dir=" +:+ ph 2 +:+ ",uid=" +:+ ph 3 +:+
  ",gid=" +:+ ph 4 +:+ ",max_sessions=" +:+ ph 5 +:+ ",quota_size=" +:+ ph 6 +:+ "," +:+ newline_tabs 2 +:+ "quota_files=" +:+ ph 7 +:+
  ",permissions=" +:+ ph 8 +:+ ",upload_bandwidth=" +:+ ph 9 +:+ ",download_bandwidth=" +:+ ph 10 +:+ " WHERE id = " +:+ ph 11.
Definition getDeleteUserQuery : string := "DELETE FROM " +:+ tbl +:+ " WHERE id = " +:+ ph 0.
End queries.

(** ** Rows *)
Definition scan_error : error := EMsg "sql: Scan error".
(** What [Scan] stores for a column: in an integer, in a string, in a
    [sql.NullString]. *)
Definition scan_int (v : value) : result Z :=
  match v with
  | VInt z => Ok z
  | VText s => match ParseInt s with Ok z => Ok z | _ => Err scan_error end
  | VNull => Err scan_error
  end.
Definition scan_string (v : value) : result string :=
  match v with VText s => Ok s | VInt z => Ok (Itoa z) | VNull => Err scan_error end.
Definition scan_null_string (v : value) : option string :=
  match v with VText s => Some s | VInt z => Some (Itoa z) | VNull => None end.

(** A list that does not decode leaves the field empty and sets the error. *)
Definition decode_list (v : option string) (err : option error) : list string * option error :=
  match v with
  | None => ([], err)
  | Some s => match json_Unmarshal s with Some l => (l, None) | None => ([], Some (EMsg "json")) end
  end.

Definition getUserFromDbRow (vals : list value) : result User :=
  match vals with
  | [id; username; password; publicKey; homeDir; uid; gid; maxSessions; quotaSize; quotaFiles; permissions;
     usedQuotaSize; usedQuotaFiles; lastQuotaUpdate; uploadBandwidth; downloadBandwidth] =>
      id ← scan_int id; username ← scan_string username;
      homeDir ← scan_string homeDir; uid ← scan_int uid; gid ← scan_int gid; maxSessions ← scan_int maxSessions;
      quotaSize ← scan_int quotaSize; quotaFiles ← scan_int quotaFiles;
      usedQuotaSize ← scan_int usedQuotaSize; usedQuotaFiles ← scan_int usedQuotaFiles;
      lastQuotaUpdate ← scan_int lastQuotaUpdate;
      uploadBandwidth ← scan_int uploadBandwidth; downloadBandwidth ← scan_int downloadBandwidth;
      let password := default EmptyString (scan_null_string password) in
      let '(keys, err) := decode_list (scan_null_string publicKey) None in
      let '(perms, err) := decode_list (scan_null_string permissions) err in
      match err with
      | Some e => Err e
      | None => Ok (mkUser id username password keys homeDir uid gid maxSessions quotaSize quotaFiles perms
                      usedQuotaSize usedQuotaFiles lastQuotaUpdate uploadBandwidth downloadBandwidth)
      end
  | _ => Err scan_error
  end.

(** ** Operations: sqlcommon.go *)
Section sqlcommon.
Context `{Crypto} {D : Type} `{Database D} (config : Config).
Implicit Types (dbHandle : D).

(** [dbHandle.Prepare] and [stmt.QueryRow] *)
Definition query_row (q : string) (args : list value) dbHandle : result (option (list value)) :=
  match db_Prepare q dbHandle with
  | Some e => Err e
  | None => rows ← db_Query q args dbHandle; Ok (head rows)
  end.
Definition query_user (q : string) (args : list value) dbHandle : result User :=
  row ← query_row q args dbHandle;
  match row with
  | None => Err (RecordNotFoundError "sql: no rows in result set")
  | Some vals => getUserFromDbRow vals
  end.
(** [dbHandle.Prepare] and [stmt.Exec] *)
Definition exec (q : string) (args : list value) dbHandle : option error * D :=
  match db_Prepare q dbHandle with
  | Some e => (Some e, dbHandle)
  | None => db_Exec q args dbHandle
  end.

Definition getUserByUsername (username : string) dbHandle : result User :=
  query_user (getUserByUsernameQuery config) [VText username] dbHandle.
Definition sqlCommonValidateUserAndPass (username password : string) dbHandle : result User :=
  if bool_decide (password = EmptyString) then Err (EMsg "Credentials cannot be null or empty")
  else user ← getUserByUsername username dbHandle; checkUserAndPass user password.
Definition sqlCommonValidateUserAndPubKey (username pubKey : string) dbHandle : result User :=
  if bool_decide (pubKey = EmptyString) then Err (EMsg "Credentials cannot be null or empty")
  else user ← getUserByUsername username dbHandle; checkUserAndPubKey user pubKey.
Definition sqlCommonGetUserByID (ID : Z) dbHandle : result User :=
  query_user (getUserByIDQuery config) [VInt ID] dbHandle.
Definition sqlCommonUpdateQuota (now : Z) (username : string) (filesAdd sizeAdd : Z) (reset : bool) dbHandle
    : option error * D :=
  exec (getUpdateQuotaQuery config reset)
    [VInt sizeAdd; VInt filesAdd; VInt (GetTimeAsMsSinceEpoch now); VText username] dbHandle.
Definition sqlCommonGetUsedQuota (username : string) dbHandle : result (Z * Z) :=
  row ← query_row (getQuotaQuery config) [VText username] dbHandle;
  match row with
  | Some [size; files] => usedSize ← scan_int size; usedFiles ← scan_int files; Ok (usedFiles, usedSize)
  | Some _ => Err scan_error
  | None => Err (EMsg "sql: no rows in result set")
  end.
Definition sqlCommonCheckUserExists (username : string) dbHandle : result User :=
  query_user (getUserByUsernameQuery config) [VText username] dbHandle.

Definition sqlCommonAddUser (user : User) dbHandle : option error * D :=
  match validateUser user with
  | Err e => (Some e, dbHandle)
  | Panic => (Some (EMsg "panic"), dbHandle)
  | Ok user =>
      exec (getAddUserQuery config)
        [VText (Username user); VText (Password user); VText (json_Marshal (PublicKeys user)); VText (HomeDir user);
         VInt (UID user); VInt (GID user); VInt (MaxSessions user); VInt (QuotaSize user); VInt (QuotaFiles user);
         VText (json_Marshal (Permissions user)); VInt (UploadBandwidth user); VInt (DownloadBandwidth user)] dbHandle
  end.
Definition sqlCommonUpdateUser (user : User) dbHandle : option error * D :=
  match validateUser user with
  | Err e => (Some e, dbHandle)
  | Panic => (Some (EMsg "panic"), dbHandle)
  | Ok user =>
      exec (getUpdateUserQuery config)
        [VText (Password user); VText (json_Marshal (PublicKeys user)); VText (HomeDir user);
         VInt (UID user); VInt (GID user); VInt (MaxSessions user); VInt (QuotaSize user); VInt (QuotaFiles user);
         VText (json_Marshal (Permissions user)); VInt (UploadBandwidth user); VInt (DownloadBandwidth user);
         VInt (ID user)] dbHandle
  end.
Definition sqlCommonDeleteUser (user : User) dbHandle : option error * D :=
  exec (getDeleteUserQuery config) [VInt (ID user)] dbHandle.

(** The loop over the rows: a row that does not scan ends it silently. *)
Fixpoint collect_users (rows : list (list value)) : list User :=
  match rows with
  | [] => []
  | r :: rows => match getUserFromDbRow r with Ok u => getUserNoCredentials u :: collect_users rows | _ => [] end
  end.
Definition sqlCommonGetUsers (limit offset : Z) (order username : string) dbHandle : list User * option error :=
  let q := getUsersQuery config order username in
  match db_Prepare q dbHandle with
  | Some e => ([], Some e)
  | None =>
      let args := if negb (bool_decide (username = EmptyString))
                  then [VText username; VInt limit; VInt offset] else [VInt limit; VInt offset] in
      match db_Query q args dbHandle with
      | Ok rows => (collect_users rows, None)
      | Err e => ([], Some e)
      | Panic => ([], Some (EMsg "panic"))
      end
  end.

(** ** The providers: sqlite.go, pgsql.go, mysql.go

    PostgreSQL and MySQL wrap the quota update in a transaction; the update
    itself goes through the handle, not through the transaction, and when it
    fails its error is replaced by that of the rollback. *)
Definition tx_updateQuota (now : Z) (username : string) (filesAdd sizeAdd : Z) (reset : bool) dbHandle
    : option error * D :=
  match db_Begin dbHandle with
  | (Some e, dbHandle) => (Some e, dbHandle)
  | (None, dbHandle) =>
      match sqlCommonUpdateQuota now username filesAdd sizeAdd reset dbHandle with
      | (None, dbHandle) => db_Commit dbHandle
      | (Some _, dbHandle) => db_Rollback dbHandle
      end
  end.

Definition SQLiteProvider : Provider D := {|
  validateUserAndPass := sqlCommonValidateUserAndPass;
  validateUserAndPubKey := sqlCommonValidateUserAndPubKey;
  updateQuota := sqlCommonUpdateQuota;
  getUsedQuota := sqlCommonGetUsedQuota;
  userExists := sqlCommonCheckUserExists;
  addUser := sqlCommonAddUser;
  updateUser := sqlCommonUpdateUser;
  deleteUser := sqlCommonDeleteUser;
  getUsers := sqlCommonGetUsers;
  getUserByID := sqlCommonGetUserByID
|}.
Definition PGSQLProvider : Provider D := {|
  validateUserAndPass := sqlCommonValidateUserAndPass;
  validateUserAndPubKey := sqlCommonValidateUserAndPubKey;
  updateQuota := tx_updateQuota;
  getUsedQuota := sqlCommonGetUsedQuota;
  userExists := sqlCommonCheckUserExists;
  addUser := sqlCommonAddUser;
  updateUser := sqlCommonUpdateUser;
  deleteUser := sqlCommonDeleteUser;
  getUsers := sqlCommonGetUsers;
  getUserByID := sqlCommonGetUserByID
|}.
Definition MySQLProvider : Provider D := PGSQLProvider.
End sqlcommon.

(** ** Initialization

    What [Initialize] opens, and with which connection string: [stat] is the
    size of a file. Opening itself belongs to the database packages. *)
Inductive backend := UseSQLite (conn : string) | UsePGSQL (conn : string) | UseMySQL (conn : string) | UseBolt (path : string).

Section initialize.
Context (config : Config) (stat : string → result Z).

Definition dbPath (basePath : string) : string :=
  if IsAbs (Name config) then Name config else Join [basePath; Name config].
Definition initializeSQLiteProvider (basePath : string) : result backend :=
  if bool_decide (ConnectionString config = EmptyString) then
    size ← stat (dbPath basePath);
    if size =? 0 then
      Err (EMsg "sqlite database file is invalid, please be sure to create and initialize a database before starting sftpgo")
    else Ok (UseSQLite ("file:" +:+ dbPath basePath +:+ "?cache=shared"))
  else Ok (UseSQLite (ConnectionString config)).
Definition initializePGSQLProvider : result backend :=
  Ok (UsePGSQL (if bool_decide (ConnectionString config = EmptyString) then
    "host='" +:+ Host config +:+ "' port=" +:+ Itoa (Port config) +:+ " dbname='" +:+ Name config +:+ "' user='" +:+
    DbUsername config +:+ "' password='" +:+ DbPassword config +:+ "' sslmode=" +:+ getSSLMode config +:+ " connect_timeout=10"
    else ConnectionString config)).
Definition initializeMySQLProvider : result backend :=
  Ok (UseMySQL (if bool_decide (ConnectionString config = EmptyString) then
    DbUsername config +:+ ":" +:+ DbPassword config +:+ "@tcp([" +:+ Host config +:+ "]:" +:+ Itoa (Port config) +:+ ")/" +:+
    Name config +:+ "?charset=utf8&interpolateParams=true&timeout=10s&tls=" +:+ getSSLMode config
    else ConnectionString config)).
Definition Initialize (basePath : string) : result backend :=
  if bool_decide (Driver config = SQLiteDataProviderName) then initializeSQLiteProvider basePath
  else if bool_decide (Driver config = PGSSQLDataProviderName) then initializePGSQLProvider
  else if bool_decide (Driver config = MySQLDataProviderName) then initializeMySQLProvider
  else if bool_decide (Driver config = BoltDataProviderName) then Ok (UseBolt (dbPath basePath))
  else Err (EMsg ("Unsupported data provider: " +:+ Driver config)).
End initialize.

(** When the update of the quota fails, the two providers with a transaction
    report the outcome of the rollback instead. *)
Lemma tx_error_lost `{Crypto} {D} `{Database D} config now n f z reset (d d1 d2 d3 : D) e :
  db_Begin d = (None, d1) → sqlCommonUpdateQuota config now n f z reset d1 = (Some e, d2) →
  db_Rollback d2 = (None, d3) → tx_updateQuota config now n f z reset d = (None, d3).
Proof. intros E1 E2 E3. unfold tx_updateQuota. by rewrite E1, E2. Qed.

(** ** The texts are the statements they should be *)

(** A name that can stand in SQL text unquoted. *)
Definition sql_name (t : string) : Prop :=
  match t with
  | EmptyString => False
  | String c _ => is_letter c = true ∧ Forall (λ c, is_word_char c = true) (String.list_ascii_of_string t)
  end.

Lemma tokens_blank w a b : tokens w (a +:+ String " " b) = tokens w a ++ tokens EmptyString b.
Proof.
  revert w. induction a as [|c a IH]; intros w; [done|]. change (String c a +:+ String " " b) with (String c (a +:+ String " " b)).
  cbn [tokens]. destruct (is_word_char c); [apply IH|]. rewrite IH, !app_assoc. reflexivity.
Qed.
Lemma tokens_word w t : Forall (λ c, is_word_char c = true) (String.list_ascii_of_string t) → tokens w t = word_token (w +:+ t).
Proof.
  revert w. induction t as [|c t IH]; intros w Ht; cbn [tokens]; [by rewrite string_app_nil_r|].
  apply Forall_cons in Ht as [Hc Ht]. rewrite Hc, IH by done. by rewrite <- string_app_assoc.
Qed.
Lemma tokens_name t : sql_name t → tokens EmptyString t = [TId t].
Proof.
  intros Ht. destruct t as [|c t]; [done|]. destruct Ht as [Hc Ht]. rewrite tokens_word by done.
  change (EmptyString +:+ String c t) with (String c t). unfold word_token. by rewrite Hc.
Qed.

(** The tokens of a text with the name of the table in it. *)
Lemma tokens_table a t b : sql_name t →
  tokens EmptyString (a +:+ String " " (t +:+ String " " b)) = tokens EmptyString a ++ TId t :: tokens EmptyString b.
Proof. intros Ht. rewrite tokens_blank, (tokens_blank _ t). rewrite (tokens_name t Ht). reflexivity. Qed.

Definition userColumns : list string :=
  ["id"; "username"; "password"; "public_keys"; "home_dir"; "uid"; "gid"; "max_sessions"; "quota_size"; "quota_files";
   "permissions"; "used_quota_size"; "used_quota_files"; "last_quota_update"; "upload_bandwidth"; "download_bandwidth"]%string.

Section texts.
Context (config : Config) (Htbl : sql_name (UsersTable config)).
Abbreviation tbl := (UsersTable config).

Lemma placeholder_cases : (∀ i, (i < 12)%nat → placeholder config i = "?"%string)
  ∨ (∀ i, (i < 12)%nat → placeholder config i = "$" +:+ Itoa (Z.of_nat (S i))).
Proof.
  unfold placeholder, getSQLPlaceholders. case_bool_decide; [right|left]; intros i Hi;
    do 12 (destruct i as [|i]; [reflexivity|]); lia.
Qed.

(** [a] and [b] are the text before and after the name of the table. *)
Ltac parse_with a b :=
  unfold parse_sql;
  match goal with |- context [tokens EmptyString ?q] =>
    change q with (a +:+ String " " (UsersTable config +:+ String " " b)) end;
  rewrite tokens_table by done;
  destruct placeholder_cases as [E|E]; rewrite ?E by lia.
Ltac parse_all a b := parse_with a b; vm_compute; reflexivity.
Abbreviation ph := (placeholder config).

Definition by_username : string * nat := ("username"%string, 0%nat).
Definition by_id : string * nat := ("id"%string, 0%nat).
Definition pages (desc : bool) (i : nat) : paging := Build_paging "username" desc i (S i).

Lemma parse_getUserByUsername :
  parse_sql (getUserByUsernameQuery config) = Some (SSelect userColumns tbl (Some by_username) None).
Proof. parse_all ("SELECT " +:+ selectUserFields +:+ " FROM") ("WHERE username = " +:+ ph 0). Qed.
Lemma parse_getUserByID : parse_sql (getUserByIDQuery config) = Some (SSelect userColumns tbl (Some by_id) None).
Proof. parse_all ("SELECT " +:+ selectUserFields +:+ " FROM") ("WHERE id = " +:+ ph 0). Qed.
Lemma parse_getQuota : parse_sql (getQuotaQuery config)
  = Some (SSelect ["used_quota_size"; "used_quota_files"]%string tbl (Some by_username) None).
Proof. parse_all "SELECT used_quota_size,used_quota_files FROM" ("WHERE username = " +:+ ph 0). Qed.
Lemma parse_getDeleteUser : parse_sql (getDeleteUserQuery config) = Some (SDelete tbl by_id).
Proof. parse_all "DELETE FROM" ("WHERE id = " +:+ ph 0). Qed.
Lemma parse_getUsers order : is_order order →
  parse_sql (getUsersQuery config order EmptyString)
  = Some (SSelect userColumns tbl None (Some (pages (bool_decide (order = "DESC"%string)) 0))).
Proof.
  intros Ho. assert (order = "ASC" ∨ order = "DESC" ∨ order = EmptyString)%string as Hc by (unfold is_order in Ho; set_solver).
  parse_with ("SELECT " +:+ selectUserFields +:+ " FROM") ("ORDER BY username " +:+ order +:+
    " LIMIT " +:+ ph 0 +:+ " OFFSET " +:+ ph 1); destruct Hc as [-> | [-> | ->]]; vm_compute; reflexivity.
Qed.
Lemma parse_getUsers_named order n : is_order order → n ≠ EmptyString →
  parse_sql (getUsersQuery config order n)
  = Some (SSelect userColumns tbl (Some by_username) (Some (pages (bool_decide (order = "DESC"%string)) 1))).
Proof.
  intros Ho Hn. assert (order = "ASC" ∨ order = "DESC" ∨ order = EmptyString)%string as Hc by (unfold is_order in Ho; set_solver).
  unfold getUsersQuery. rewrite (bool_decide_false (n = EmptyString)) by done. cbn [negb].
  parse_with ("SELECT " +:+ selectUserFields +:+ " FROM") ("WHERE username = " +:+ ph 0 +:+ " ORDER BY username " +:+ order +:+
    " LIMIT " +:+ ph 1 +:+ " OFFSET " +:+ ph 2); destruct Hc as [-> | [-> | ->]]; vm_compute; reflexivity.
Qed.

Definition quota_sets (reset : bool) : list (string * expr) :=
  let e c i := if reset then EParam i else EAdd c i in
  [("used_quota_size", e "used_quota_size" 0%nat); ("used_quota_files", e "used_quota_files" 1%nat);
   ("last_quota_update", EParam 2)]%string.
Lemma parse_getUpdateQuota reset :
  parse_sql (getUpdateQuotaQuery config reset) = Some (SUpdate tbl (quota_sets reset) ("username"%string, 3%nat)).
Proof.
  destruct reset.
  - parse_all "UPDATE" ("SET used_quota_size = " +:+ ph 0 +:+ ",used_quota_files = " +:+ ph 1 +:+
      ",last_quota_update = " +:+ ph 2 +:+ " " +:+ newline_tabs 3 +:+ "WHERE username = " +:+ ph 3).
  - parse_all "UPDATE" ("SET used_quota_size = used_quota_size + " +:+ ph 0 +:+
      ",used_quota_files = used_quota_files + " +:+ ph 1 +:+ ",last_quota_update = " +:+ ph 2 +:+ " " +:+
      newline_tabs 2 +:+ "WHERE username = " +:+ ph 3).
Qed.

Definition user_sets : list (string * expr) :=
  imap (λ i c, (c, EParam i))
    ["password"; "public_keys"; "home_dir"; "uid"; "gid"; "max_sessions"; "quota_size"; "quota_files"; "permissions";
     "upload_bandwidth"; "download_bandwidth"]%string.
Lemma parse_getUpdateUser :
  parse_sql (getUpdateUserQuery config) = Some (SUpdate tbl user_sets ("id"%string, 11%nat)).
Proof.
  parse_all "UPDATE" ("SET password=" +:+ ph 0 +:+ ",public_keys=" +:+ ph 1 +:+ ",home_dir=" +:+ ph 2 +:+ ",uid=" +:+ ph 3 +:+
    ",gid=" +:+ ph 4 +:+ ",max_sessions=" +:+ ph 5 +:+ ",quota_size=" +:+ ph 6 +:+ "," +:+ newline_tabs 2 +:+ "quota_files=" +:+ ph 7 +:+
    ",permissions=" +:+ ph 8 +:+ ",upload_bandwidth=" +:+ ph 9 +:+ ",download_bandwidth=" +:+ ph 10 +:+ " WHERE id = " +:+ ph 11).
Qed.

Definition insert_columns : list string :=
  ["username"; "password"; "public_keys"; "home_dir"; "uid"; "gid"; "max_sessions"; "quota_size"; "quota_files";
   "permissions"; "used_quota_size"; "used_quota_files"; "last_quota_update"; "upload_bandwidth"; "download_bandwidth"]%string.
Definition insert_values : list expr := map EParam (seq 0 10) ++ [EConst 0; EConst 0; EConst 0; EParam 10; EParam 11].
Lemma parse_getAddUser : parse_sql (getAddUserQuery config) = Some (SInsert tbl insert_columns insert_values).
Proof.
  parse_all "INSERT INTO" ("(username,password,public_keys,home_dir,uid,gid,max_sessions,quota_size,quota_files,permissions," +:+
    newline_tabs 2 +:+ "used_quota_size,used_quota_files,last_quota_update,upload_bandwidth,download_bandwidth) " +:+
    newline_tabs 2 +:+ "VALUES (" +:+ ph 0 +:+ "," +:+ ph 1 +:+ "," +:+ ph 2 +:+ "," +:+ ph 3 +:+ "," +:+ ph 4 +:+ "," +:+ ph 5 +:+
    "," +:+ ph 6 +:+ "," +:+ ph 7 +:+ "," +:+ ph 8 +:+ "," +:+ ph 9 +:+ ",0,0,0," +:+ ph 10 +:+ "," +:+ ph 11 +:+ ")").
Qed.
End texts.

(** ** Lists of users as maps *)
Definition by_name (us : list User) : gmap string User := list_to_map ((λ u, (Username u, u)) <$> us).
(** Names and ids are unique, as the schema of the table demands. *)
Definition users_wf (us : list User) : Prop :=
  NoDup (map Username us) ∧ NoDup (map ID us) ∧ Forall (λ u, 1 <= ID u < 2 ^ 63) us.

Lemma by_name_keys us : ((λ u, (Username u, u)) <$> us).*1 = map Username us.
Proof. by rewrite <- list_fmap_compose. Qed.
Lemma by_name_lookup us n u : NoDup (map Username us) → by_name us !! n = Some u ↔ u ∈ us ∧ Username u = n.
Proof.
  intros Hn. unfold by_name. rewrite <- elem_of_list_to_map by by rewrite by_name_keys.
  rewrite list_elem_of_fmap. split; [by intros (v & [= -> ->] & ?)|]. intros [? <-]. by exists u.
Qed.
Lemma by_name_perm us us' : NoDup (map Username us) → us ≡ₚ us' → by_name us = by_name us'.
Proof. intros Hn Hp. apply list_to_map_proper; [by rewrite by_name_keys|by rewrite Hp]. Qed.
Lemma users_wf_perm us us' : us ≡ₚ us' → users_wf us → users_wf us'.
Proof. unfold users_wf. intros Hp (? & ? & ?). split_and!; by rewrite <- Hp. Qed.

Lemma NoDup_map_inj {A B} (f : A → B) l x y : NoDup (map f l) → x ∈ l → y ∈ l → f x = f y → x = y.
Proof.
  induction l as [|z l IH]; intros Hn Hx Hy E; [by apply not_elem_of_nil in Hx|].
  apply NoDup_cons in Hn as [Hz Hn]. apply elem_of_cons in Hx as [-> |Hx], Hy as [-> |Hy]; auto.
  - destruct Hz. rewrite E. by apply list_elem_of_fmap_2.
  - destruct Hz. rewrite <- E. by apply list_elem_of_fmap_2.
Qed.

Lemma filter_all {A} (Q : A → bool) (l : list A) : (∀ x, x ∈ l → Q x = true) → filter (λ x, Q x = true) l = l.
Proof.
  induction l as [|x l IH]; intros Hq; [done|]. rewrite filter_cons_True by (apply Hq; by left).
  rewrite IH; [done|]. intros y Hy. apply Hq. by right.
Qed.

Section user_lists.
Context (us : list User) (Hwf : users_wf us).

(** Changing some users in place. *)
Lemma users_wf_map (g : User → User) : (∀ u, Username (g u) = Username u ∧ ID (g u) = ID u) → users_wf (map g us).
Proof.
  intros Hg. destruct Hwf as (Hn & Hi & H64). unfold users_wf. rewrite !map_map.
  rewrite (map_ext (λ x, Username (g x)) Username), (map_ext (λ x, ID (g x)) ID) by (intros u; apply Hg).
  split_and!; [done..|]. apply Forall_fmap. eapply Forall_impl; [exact H64|]. intros u Hu. simpl. by rewrite (proj2 (Hg u)).
Qed.
Lemma by_name_map (g : User → User) n : (∀ u, Username (g u) = Username u ∧ ID (g u) = ID u) →
  by_name (map g us) !! n = g <$> by_name us !! n.
Proof.
  intros Hg. pose proof (users_wf_map g Hg) as (Hn' & _). apply option_eq. intros v.
  rewrite by_name_lookup by done. rewrite list_elem_of_fmap, fmap_Some. destruct Hwf as (Hn & _). split.
  - intros [(u & -> & Hu) E]. exists u. rewrite by_name_lookup by done. rewrite (proj1 (Hg u)) in E. done.
  - intros (u & [Hu E]%by_name_lookup & ->); [|done]. rewrite (proj1 (Hg u)). split; [by exists u|done].
Qed.
Lemma by_name_alter (f : User → User) n : (∀ u, Username (f u) = Username u ∧ ID (f u) = ID u) →
  by_name (map (λ u, if bool_decide (Username u = n) then f u else u) us) = alter f n (by_name us).
Proof.
  intros Hf. apply map_eq. intros k. rewrite by_name_map by (intros u; case_bool_decide; auto).
  destruct (decide (k = n)) as [->|Hne]; [rewrite lookup_alter_eq|rewrite lookup_alter_ne by done];
    destruct (by_name us !! _) as [u|] eqn:E; try done;
    apply by_name_lookup in E as [_ E]; try apply Hwf; simpl; by case_bool_decide; simplify_eq.
Qed.
Lemma by_name_update (f : User → User) old : (∀ u, Username (f u) = Username u ∧ ID (f u) = ID u) → old ∈ us →
  by_name (map (λ u, if bool_decide (ID u = ID old) then f u else u) us) = <[Username old := f old]> (by_name us).
Proof.
  intros Hf Ho. destruct Hwf as (Hn & Hi & _). apply map_eq. intros k.
  rewrite by_name_map by (intros u; case_bool_decide; auto).
  destruct (decide (k = Username old)) as [->|Hne].
  - rewrite lookup_insert_eq, (proj2 (by_name_lookup us _ old Hn)) by done. simpl. by rewrite bool_decide_true.
  - rewrite lookup_insert_ne by done. destruct (by_name us !! k) as [u|] eqn:E; [|done]. simpl.
    apply by_name_lookup in E as [Hu <-]; [|done]. rewrite bool_decide_false; [done|]. intros Eid.
    apply Hne. f_equal. by apply (NoDup_map_inj ID us).
Qed.
Lemma users_wf_filter (Q : User → bool) : users_wf (filter (λ u, Q u = true) us).
Proof.
  destruct Hwf as (Hn & Hi & H64). split_and!.
  - eapply sublist_NoDup; [exact Hn|]. apply fmap_sublist, sublist_filter.
  - eapply sublist_NoDup; [exact Hi|]. apply fmap_sublist, sublist_filter.
  - rewrite Forall_forall in H64 |- *. intros u [_ Hu]%list_elem_of_filter. auto.
Qed.
Lemma by_name_remove id v : v ∈ us → ID v = id →
  by_name (filter (λ u, negb (bool_decide (ID u = id)) = true) us) = delete (Username v) (by_name us).
Proof.
  intros Hv <-. destruct (users_wf_filter (λ u, negb (bool_decide (ID u = ID v)))) as (Hn' & _).
  destruct Hwf as (Hn & Hi & _). apply map_eq. intros k. apply option_eq. intros u.
  rewrite lookup_delete_Some, !by_name_lookup by done. rewrite list_elem_of_filter, negb_true_iff, bool_decide_eq_false.
  split.
  - intros [[Hne Hu] <-]. split; [|done]. intros E. apply Hne. f_equal. symmetry.
    by apply (NoDup_map_inj Username us).
  - intros [Hne [Hu <-]]. split; [|done]. split; [|done]. intros E. apply Hne. f_equal. symmetry.
    by apply (NoDup_map_inj ID us).
Qed.
Lemma users_wf_cons u : 1 <= ID u < 2 ^ 63 → (∀ v, v ∈ us → Username v ≠ Username u ∧ ID v ≠ ID u) → users_wf (u :: us).
Proof.
  intros H64 Hf. destruct Hwf as (Hn & Hi & Hall). split_and!; [| |by constructor]; apply NoDup_cons; (split; [|done]);
    intros (v & E & Hv)%list_elem_of_fmap; by destruct (Hf v Hv).
Qed.
End user_lists.

(** ** Rows and users *)
Definition list_column (v : value) (l : list string) : Prop :=
  v = VNull ∧ l = [] ∨ ∃ s, v = VText s ∧ json_Unmarshal s = Some l.
Record row_user (r : row) (u : User) : Prop := {
  ru_id : r "id"%string = VInt (ID u);
  ru_username : r "username"%string = VText (Username u);
  ru_password : r "password"%string = VText (Password u) ∨ r "password"%string = VNull ∧ Password u = EmptyString;
  ru_keys : list_column (r "public_keys"%string) (PublicKeys u);
  ru_home : r "home_dir"%string = VText (HomeDir u);
  ru_uid : r "uid"%string = VInt (UID u);
  ru_gid : r "gid"%string = VInt (GID u);
  ru_sessions : r "max_sessions"%string = VInt (MaxSessions u);
  ru_quota_size : r "quota_size"%string = VInt (QuotaSize u);
  ru_quota_files : r "quota_files"%string = VInt (QuotaFiles u);
  ru_perms : list_column (r "permissions"%string) (Permissions u);
  ru_used_size : r "used_quota_size"%string = VInt (UsedQuotaSize u);
  ru_used_files : r "used_quota_files"%string = VInt (UsedQuotaFiles u);
  ru_updated : r "last_quota_update"%string = VInt (LastQuotaUpdate u);
  ru_upload : r "upload_bandwidth"%string = VInt (UploadBandwidth u);
  ru_download : r "download_bandwidth"%string = VInt (DownloadBandwidth u)
}.

Lemma decode_list_column v l err : list_column v l → v ≠ VNull ∨ err = None →
  decode_list (scan_null_string v) err = (l, None).
Proof. intros [[-> ->]|(s & -> & E)] Hn; simpl; [by destruct Hn as [? | ->]|by rewrite E]. Qed.

Lemma row_user_scan r u : row_user r u → getUserFromDbRow (map r userColumns) = Ok u.
Proof.
  intros Hr. unfold userColumns. cbn [map getUserFromDbRow].
  rewrite (ru_id r u Hr), (ru_username r u Hr), (ru_home r u Hr), (ru_uid r u Hr), (ru_gid r u Hr), (ru_sessions r u Hr),
    (ru_quota_size r u Hr), (ru_quota_files r u Hr), (ru_used_size r u Hr), (ru_used_files r u Hr), (ru_updated r u Hr),
    (ru_upload r u Hr), (ru_download r u Hr).
  cbn [scan_int scan_string mbind result_bind].
  rewrite (decode_list_column _ _ None (ru_keys r u Hr)), (decode_list_column _ _ None (ru_perms r u Hr)) by auto.
  assert (default EmptyString (scan_null_string (r "password"%string)) = Password u) as ->; [|by destruct u].
  by destruct (ru_password r u Hr) as [-> | [-> ->]].
Qed.

Definition user_of_row (r : row) : option User :=
  match getUserFromDbRow (map r userColumns) with Ok u => Some u | _ => None end.
Lemma row_user_fn r u : row_user r u → user_of_row r = Some u.
Proof. intros Hr. unfold user_of_row. by rewrite row_user_scan with (u := u). Qed.

Lemma rows_users rs us : Forall2 row_user rs us → omap user_of_row rs = us.
Proof. induction 1 as [|r u rs us Hr _ IH]; [done|]. csimpl. by rewrite (row_user_fn r u), IH. Qed.
Lemma users_rows rs : Forall (λ r, ∃ u, row_user r u) rs → Forall2 row_user rs (omap user_of_row rs).
Proof.
  induction 1 as [|r rs [u Hr] _ IH]; [constructor|]. csimpl. rewrite (row_user_fn r u) by done. by constructor.
Qed.
Lemma collect_rows rs us : Forall2 row_user rs us →
  collect_users (map (λ r : row, map r userColumns) rs) = map getUserNoCredentials us.
Proof.
  induction 1 as [|r u rs us Hr _ IH]; [done|]. cbn [map]. cbn [collect_users]. by rewrite (row_user_scan r u), IH.
Qed.

Lemma collect_users_hidden l : Forall (λ u, ∃ v, u = getUserNoCredentials v) (collect_users l).
Proof. induction l as [|r l IH]; cbn [collect_users]; [constructor|]. case_match; [|constructor..]. constructor; [by eexists|done]. Qed.

(** Statements on rows are operations on users. *)
Section reflect.
Context (P : row → bool) (Q : User → bool) (HPQ : ∀ r u, row_user r u → P r = Q u).
Lemma filter_rows rs us : Forall2 row_user rs us →
  Forall2 row_user (filter (λ r, P r = true) rs) (filter (λ u, Q u = true) us).
Proof.
  induction 1 as [|r u rs us Hr _ IH]; [constructor|]. rewrite !filter_cons, (HPQ r u Hr).
  destruct (Q u); simpl; [by constructor|done].
Qed.
Lemma map_rows g f rs us : (∀ r u, row_user r u → u ∈ us → Q u = true → row_user (g r) (f u)) → Forall2 row_user rs us →
  Forall2 row_user (map (λ r, if P r then g r else r) rs) (map (λ u, if Q u then f u else u) us).
Proof.
  intros Hg Hrel. revert Hg. induction Hrel as [|r u rs us Hr _ IH]; intros Hg; [constructor|]. cbn [map]. constructor.
  - rewrite (HPQ r u Hr). destruct (Q u) eqn:E; [|done]. apply Hg; [done|by left|done].
  - apply IH. intros r' u' ? Hu'. apply Hg; [done|by right].
Qed.
End reflect.

Lemma matches_username args i n r u : arg args i = VText n → row_user r u →
  matches args ("username"%string, i) r = bool_decide (Username u = n).
Proof. intros Ha Hr. unfold matches. simpl. rewrite Ha, (ru_username r u Hr). apply bool_decide_ext. naive_solver. Qed.
Lemma matches_id args i id r u : arg args i = VInt id → row_user r u →
  matches args ("id"%string, i) r = bool_decide (ID u = id).
Proof. intros Ha Hr. unfold matches. simpl. rewrite Ha, (ru_id r u Hr). apply bool_decide_ext. naive_solver. Qed.

(** The three statements that change a row, or make one. *)
Definition quota_args (now : Z) (f z : Z) (n : string) : list value :=
  [VInt z; VInt f; VInt (GetTimeAsMsSinceEpoch now); VText n].
Lemma quota_row now f z reset n r u : row_user r u →
  (reset = false → is_i64 (UsedQuotaSize u + z) ∧ is_i64 (UsedQuotaFiles u + f)) →
  row_user (set_columns (quota_args now f z n) (quota_sets reset) r) (quota_updated now f z reset u).
Proof.
  intros Hr Hq. destruct reset; unfold quota_updated.
  - split; apply Hr || reflexivity.
  - destruct (Hq eq_refl). rewrite !i64_id by done.
    split; try apply Hr; try reflexivity; cbn;
      rewrite ?(ru_used_size r u Hr), ?(ru_used_files r u Hr); reflexivity.
Qed.

Definition update_args (u : User) : list value :=
  [VText (Password u); VText (json_Marshal (PublicKeys u)); VText (HomeDir u);
   VInt (UID u); VInt (GID u); VInt (MaxSessions u); VInt (QuotaSize u); VInt (QuotaFiles u);
   VText (json_Marshal (Permissions u)); VInt (UploadBandwidth u); VInt (DownloadBandwidth u); VInt (ID u)].
(** The record an update leaves: the counters are those of the table. *)
Definition updated_user (u old : User) : User :=
  mkUser (ID old) (Username old) (Password u) (PublicKeys u) (HomeDir u) (UID u) (GID u) (MaxSessions u)
    (QuotaSize u) (QuotaFiles u) (Permissions u) (UsedQuotaSize old) (UsedQuotaFiles old) (LastQuotaUpdate old)
    (UploadBandwidth u) (DownloadBandwidth u).
Lemma json_column l : Forall valid_utf8 l → list_column (VText (json_Marshal l)) l.
Proof. intros Hl. right. eexists. split; [done|]. by apply json_roundtrip. Qed.
Lemma update_row u r old : storable u → row_user r old → row_user (set_columns (update_args u) user_sets r) (updated_user u old).
Proof.
  intros [Hp Hk] Hr. split; try apply Hr; try reflexivity; [by left|by apply json_column..].
Qed.

Definition insert_args (u : User) : list value :=
  [VText (Username u); VText (Password u); VText (json_Marshal (PublicKeys u)); VText (HomeDir u);
   VInt (UID u); VInt (GID u); VInt (MaxSessions u); VInt (QuotaSize u); VInt (QuotaFiles u);
   VText (json_Marshal (Permissions u)); VInt (UploadBandwidth u); VInt (DownloadBandwidth u)].
Lemma insert_row u id : storable u →
  row_user (new_row (insert_args u) id insert_columns insert_values) (set_UsedQuota (set_ID u id) 0 0 0).
Proof. intros [Hp Hk]. split; try reflexivity; [by left|by apply json_column..]. Qed.

(** ** What the columns hold of a user *)
Definition user_columns (u : User) : list (string * value) :=
  [("username", VText (Username u)); ("password", VText (Password u)); ("public_keys", VText (json_Marshal (PublicKeys u)));
   ("home_dir", VText (HomeDir u)); ("uid", VInt (UID u)); ("gid", VInt (GID u)); ("max_sessions", VInt (MaxSessions u));
   ("quota_size", VInt (QuotaSize u)); ("quota_files", VInt (QuotaFiles u));
   ("permissions", VText (json_Marshal (Permissions u)));
   ("upload_bandwidth", VInt (UploadBandwidth u)); ("download_bandwidth", VInt (DownloadBandwidth u))]%string.
Definition counter_columns (size files updated : Z) : list (string * value) :=
  [("used_quota_size", VInt size); ("used_quota_files", VInt files); ("last_quota_update", VInt updated)]%string.
Definition all_fit (fits : string → value → Prop) (l : list (string * value)) : Prop := Forall (λ cv, fits cv.1 cv.2) l.
(** What a table can be given: the columns hold the values of a new user, the
    numbers a counter is changed by, and the counters after the change. *)
Definition sql_limits (fits : string → value → Prop) : Limits := {|
  id_fits id := fits "id"%string (VInt id);
  user_fits u := storable u ∧ all_fit fits (user_columns u) ∧ all_fit fits (counter_columns 0 0 0);
  change_fits now files size reset user := quota_fits files size reset user
    ∧ all_fit fits (counter_columns size files (GetTimeAsMsSinceEpoch now))
    ∧ ∀ v, user = Some v → let v' := quota_updated now files size reset v in
        all_fit fits (counter_columns (UsedQuotaSize v') (UsedQuotaFiles v') (LastQuotaUpdate v'))
|}.
(** Columns that hold all numbers and texts, as SQLite's do, hold all a provider
    without limits takes. *)
Lemma sql_unlimited fits : (∀ c z, is_i64 z → fits c (VInt z)) → (∀ c s, fits c (VText s)) →
  ∀ u, storable u → Forall is_i64 [UID u; GID u; MaxSessions u; QuotaSize u; QuotaFiles u; UploadBandwidth u; DownloadBandwidth u] →
  user_fits (sql_limits fits) u.
Proof.
  intros Hz Ht u Hs Hu. rewrite !Forall_cons in Hu. destruct Hu as (? & ? & ? & ? & ? & ? & ? & _).
  split; [done|]. split; repeat constructor; simpl; auto; apply Hz; by split.
Qed.

(** ** The providers keep the promises of the interface *)
Section spec.
Context `{Crypto} {D : Type} `{Database D} (config : Config) (Htbl : sql_name (UsersTable config)).
Context `{!DatabaseSpec D (UsersTable config)}.
Implicit Types (d : D).

Definition users d : list User := omap user_of_row (rows d).
Record sql_inv d : Prop := {
  si_rows : Forall (λ r, ∃ u, row_user r u) (rows d);
  si_wf : users_wf (users d)
}.
Definition table d : gmap string User := by_name (users d).

Lemma si_rel d : sql_inv d → Forall2 row_user (rows d) (users d).
Proof. intros Hi. apply users_rows, Hi. Qed.
Lemma table_lookup d n u : sql_inv d → table d !! n = Some u ↔ u ∈ users d ∧ Username u = n.
Proof. intros Hi. apply by_name_lookup, (si_wf d Hi). Qed.

Lemma row_in d r : sql_inv d → r ∈ rows d → ∃ u, u ∈ users d ∧ row_user r u.
Proof.
  intros Hi [i Hr]%list_elem_of_lookup. destruct (Forall2_lookup_l _ _ _ _ _ (si_rel d Hi) Hr) as (u & Hu & ?).
  exists u. split; [by apply list_elem_of_lookup_2 in Hu|done].
Qed.
Lemma user_in d u : sql_inv d → u ∈ users d → ∃ r, r ∈ rows d ∧ row_user r u.
Proof.
  intros Hi [i Hu]%list_elem_of_lookup. destruct (Forall2_lookup_r _ _ _ _ _ (si_rel d Hi) Hu) as (r & Hr & ?).
  exists r. split; [by apply list_elem_of_lookup_2 in Hr|done].
Qed.

(** A database that has the rows of other users. *)
Lemma sql_inv_intro d rs us : rows d ≡ₚ rs → Forall2 row_user rs us → users_wf us → sql_inv d ∧ table d = by_name us.
Proof.
  intros Hp Hr Hw. assert (Hu : users d ≡ₚ us) by (unfold users; by rewrite Hp, (rows_users rs us)).
  assert (Hwd : users_wf (users d)) by by apply (users_wf_perm us).
  split; [split; [|done]|by apply by_name_perm; [apply Hwd|]].
  rewrite Hp. apply Forall_forall. intros r Hin. apply list_elem_of_lookup in Hin as [i Hi].
  destruct (Forall2_lookup_l _ _ _ _ _ Hr Hi) as (u & _ & Hru). by exists u.
Qed.

Lemma names_unique d : sql_inv d → NoDup (map (λ r : row, r "username"%string) (rows d)).
Proof.
  intros Hi. pose proof (si_rel d Hi) as Hr. destruct (si_wf d Hi) as (Hn & _).
  assert (map (λ r : row, r "username"%string) (rows d) = map VText (map Username (users d))) as ->.
  { clear -Hr. induction Hr as [|r u rs us Hr _ IH]; [done|]. simpl. by rewrite IH, (ru_username r u Hr). }
  apply NoDup_fmap_2; [|done]. by intros ?? [= ->].
Qed.

(** The first user that meets a condition. *)
Lemma query_user_spec q v col Q d : sql_inv d →
  parse_sql q = Some (SSelect userColumns (UsersTable config) (Some (col, 0%nat)) None) →
  comparable [v] fits_column (col, 0%nat) →
  (∀ r u, row_user r u → matches [v] (col, 0%nat) r = Q u) →
  match head (filter (λ u, Q u = true) (users d)) with
  | Some u => query_user q [v] d = Ok u
  | None => query_user q [v] d = Err (RecordNotFoundError "sql: no rows in result set")
  end.
Proof.
  intros Hi Hq Hcmp HQ. unfold query_user, query_row. rewrite (Prepare_spec d q _ Hq) by done.
  rewrite (Select_spec d q _ _ _ _ Hq) by (done || by apply names_unique). unfold select. simpl.
  destruct (filter_rows _ _ HQ _ _ (si_rel d Hi)) as [|r u rs us Hr _]; simpl; [done|]. by apply row_user_scan.
Qed.

Lemma head_filter {A} (Q : A → bool) l :
  match head (filter (λ x, Q x = true) l) with
  | Some x => x ∈ l ∧ Q x = true
  | None => ∀ x, x ∈ l → Q x = false
  end.
Proof.
  destruct (filter (λ x, Q x = true) l) as [|x l'] eqn:E; simpl.
  - intros x Hx. destruct (Q x) eqn:EQ; [|done]. assert (x ∈ filter (λ x, Q x = true) l) as Hf by by apply list_elem_of_filter.
    rewrite E in Hf. by apply not_elem_of_nil in Hf.
  - assert (x ∈ filter (λ x, Q x = true) l) as [? ?]%list_elem_of_filter by (rewrite E; by left). done.
Qed.

Lemma find_username d n : sql_inv d → head (filter (λ u, bool_decide (Username u = n) = true) (users d)) = table d !! n.
Proof.
  intros Hi. pose proof (head_filter (λ u, bool_decide (Username u = n)) (users d)) as Hh.
  destruct (head _) as [u|].
  - symmetry. apply table_lookup; [done|]. by rewrite bool_decide_eq_true in Hh.
  - destruct (table d !! n) as [u|] eqn:Hu; [|done]. apply table_lookup in Hu as [Hu Hn]; [|done].
    specialize (Hh u Hu). by rewrite bool_decide_eq_false in Hh.
Qed.
Lemma byUsername_spec d n : sql_inv d →
  match table d !! n with
  | Some u => getUserByUsername config n d = Ok u
  | None => getUserByUsername config n d = Err (RecordNotFoundError "sql: no rows in result set")
  end.
Proof.
  intros Hi. rewrite <- find_username by done. apply (query_user_spec _ _ "username"); [done|by apply parse_getUserByUsername|done|].
  intros r u. by apply matches_username.
Qed.
Lemma byID_spec d id : sql_inv d → fits_column "id" (VInt id) →
  (∃ u, sqlCommonGetUserByID config id d = Ok u ∧ ID u = id ∧ table d !! Username u = Some u)
  ∨ (∃ m, sqlCommonGetUserByID config id d = Err (RecordNotFoundError m)) ∧ ∀ n u, table d !! n = Some u → ID u ≠ id.
Proof.
  intros Hi Hfit. pose proof (head_filter (λ u, bool_decide (ID u = id)) (users d)) as Hh.
  pose proof (query_user_spec (getUserByIDQuery config) (VInt id) "id" (λ u, bool_decide (ID u = id)) d Hi) as Hq.
  destruct (head _) as [u|].
  - left. exists u. rewrite bool_decide_eq_true in Hh. destruct Hh as [Hu Hid]. split; [|split; [done|by apply table_lookup]].
    apply Hq; [by apply parse_getUserByID|done|]. intros r v. by apply matches_id.
  - right. split; [eexists; apply Hq; [by apply parse_getUserByID|done|]; intros r v; by apply matches_id|].
    intros n u [Hu _]%table_lookup; [|done]. specialize (Hh u Hu). by rewrite bool_decide_eq_false in Hh.
Qed.
Lemma usedQuota_spec d n : sql_inv d →
  match table d !! n with
  | Some u => sqlCommonGetUsedQuota config n d = Ok (UsedQuotaFiles u, UsedQuotaSize u)
  | None => ∃ e, sqlCommonGetUsedQuota config n d = Err e
  end.
Proof.
  intros Hi. rewrite <- find_username by done. pose proof (parse_getQuota config Htbl) as Hq.
  unfold sqlCommonGetUsedQuota, query_row. rewrite (Prepare_spec d _ _ Hq) by done.
  rewrite (Select_spec d _ _ _ _ _ Hq) by (done || by apply names_unique). unfold select.
  assert (HQ : ∀ r u, row_user r u → matches [VText n] by_username r = bool_decide (Username u = n))
    by (intros r u; by apply matches_username).
  destruct (filter_rows _ _ HQ _ _ (si_rel d Hi)) as [|r u rs us Hr _]; simpl; [by eexists|].
  by rewrite (ru_used_size r u Hr), (ru_used_files r u Hr).
Qed.

(** Running an UPDATE on the rows that meet a condition. *)
Lemma exec_update q args sets cond Q f d : sql_inv d →
  parse_sql q = Some (SUpdate (UsersTable config) sets cond) →
  params (SUpdate (UsersTable config) sets cond) = seq 0 (length args) →
  assigned "id" sets = None → assigned "username" sets = None →
  comparable args fits_column cond →
  (∀ c e, (c, e) ∈ sets → Forall (λ i, fits_column c (arg args i)) (expr_params e) ∧
     ∀ r u, u ∈ users d → row_user r u → Q u = true → fits_column c (eval args r e)) →
  (∀ r u, row_user r u → matches args cond r = Q u) →
  (∀ r u, row_user r u → u ∈ users d → Q u = true → row_user (set_columns args sets r) (f u)) →
  (∀ u, Username (f u) = Username u ∧ ID (f u) = ID u) →
  ∃ d', exec q args d = (None, d') ∧ sql_inv d' ∧ table d' = by_name (map (λ u, if Q u then f u else u) (users d)).
Proof.
  intros Hi Hq Hpar H1 H2 Hcmp Hset HQ Hf Hid. pose proof (si_rel d Hi) as Hrel.
  destruct (Update_spec d q args sets cond Hq Hpar H1 H2 Hcmp) as (d' & E & Hp).
  { intros c e Hin. destruct (Hset c e Hin) as [? He]. split; [done|]. intros r Hr Hm.
    destruct (row_in d r Hi Hr) as (u & Hu & Hru). rewrite (HQ r u Hru) in Hm. by apply (He r u). }
  exists d'. unfold exec. rewrite (Prepare_spec d q _ Hq) by done. split; [done|].
  apply sql_inv_intro with (update args sets cond (rows d)); [done| |].
  - by apply map_rows.
  - apply users_wf_map; [apply Hi|]. intros u. destruct (Q u); auto.
Qed.

Abbreviation limits := (sql_limits fits_column).

(** The three statements put only what fits into the columns. *)
Lemma quota_sets_fit now f z reset n c e d : (c, e) ∈ quota_sets reset →
  all_fit fits_column (counter_columns z f (GetTimeAsMsSinceEpoch now)) →
  (∀ u, u ∈ users d → bool_decide (Username u = n) = true → let v := quota_updated now f z reset u in
     all_fit fits_column (counter_columns (UsedQuotaSize v) (UsedQuotaFiles v) (LastQuotaUpdate v))) →
  (∀ u, u ∈ users d → bool_decide (Username u = n) = true → reset = false →
     is_i64 (UsedQuotaSize u + z) ∧ is_i64 (UsedQuotaFiles u + f)) →
  Forall (λ i, fits_column c (arg (quota_args now f z n) i)) (expr_params e) ∧
  ∀ r u, u ∈ users d → row_user r u → bool_decide (Username u = n) = true → fits_column c (eval (quota_args now f z n) r e).
Proof.
  intros Hin Ha Hr Hq. unfold all_fit, counter_columns in Ha. rewrite !Forall_cons in Ha. destruct Ha as (Hz & Hf & Ht & _).
  split.
  - unfold quota_sets in Hin. rewrite !elem_of_cons in Hin.
    destruct reset, Hin as [[= -> ->]|[[= -> ->]|[[= -> ->]|[]%not_elem_of_nil]]]; by repeat constructor.
  - intros r u Hu Hru HQ. specialize (Hr u Hu HQ). specialize (Hq u Hu HQ). simpl in Hr.
    unfold all_fit, counter_columns in Hr. rewrite !Forall_cons in Hr. destruct Hr as (Hz' & Hf' & Ht' & _).
    unfold quota_sets in Hin. rewrite !elem_of_cons in Hin.
    destruct reset; [by destruct Hin as [[= -> ->]|[[= -> ->]|[[= -> ->]|[]%not_elem_of_nil]]]|].
    destruct (Hq eq_refl). simpl in Hz', Hf', Ht'. rewrite i64_id in Hz', Hf' by done.
    destruct Hin as [[= -> ->]|[[= -> ->]|[[= -> ->]|[]%not_elem_of_nil]]]; [| |done]; cbn;
      rewrite ?(ru_used_size r u Hru), ?(ru_used_files r u Hru); done.
Qed.
Lemma user_sets_fit u c e : (c, e) ∈ user_sets → user_fits limits u →
  Forall (λ i, fits_column c (arg (update_args u) i)) (expr_params e) ∧ ∀ r, fits_column c (eval (update_args u) r e).
Proof.
  intros Hin (_ & Hu & _). unfold all_fit, user_columns in Hu. rewrite !Forall_cons in Hu. destruct_and!.
  unfold user_sets in Hin. simpl in Hin. rewrite !elem_of_cons in Hin.
  by repeat destruct Hin as [[= -> ->]|Hin]; [repeat constructor..|apply not_elem_of_nil in Hin].
Qed.
Lemma insert_fits u : user_fits limits u → insertable (insert_args u) fits_column insert_columns insert_values.
Proof.
  intros (_ & Hu & Hc). unfold all_fit, user_columns, counter_columns in Hu, Hc.
  rewrite !Forall_cons in Hu. rewrite !Forall_cons in Hc.
  destruct_and!. by repeat constructor.
Qed.

Lemma updateQuota_sql d now n f z reset : sql_inv d → change_fits limits now f z reset (table d !! n) →
  ∃ d', sqlCommonUpdateQuota config now n f z reset d = (None, d') ∧ sql_inv d'
    ∧ table d' = alter (quota_updated now f z reset) n (table d).
Proof.
  intros Hi (Hq & Hargs & Hres).
  assert (Hfit : ∀ u, u ∈ users d → bool_decide (Username u = n) = true → reset = false →
    is_i64 (UsedQuotaSize u + z) ∧ is_i64 (UsedQuotaFiles u + f)).
  { intros u Hu Hn%bool_decide_eq_true. apply Hq. by apply table_lookup. }
  destruct (exec_update (getUpdateQuotaQuery config reset) (quota_args now f z n) (quota_sets reset) ("username"%string, 3%nat)
    (λ u, bool_decide (Username u = n)) (quota_updated now f z reset) d) as (d' & E & ? & Hc).
  - done.
  - by apply parse_getUpdateQuota.
  - by destruct reset.
  - by destruct reset.
  - by destruct reset.
  - done.
  - intros c e Hin. apply (quota_sets_fit now f z reset n c e d Hin Hargs); [|done].
    intros u Hu HQ%bool_decide_eq_true. apply Hres. by apply table_lookup.
  - intros r u. by apply matches_username.
  - intros r u Hr Hu HQ. apply quota_row; [done|]. by apply Hfit.
  - intros u. by destruct reset.
  - exists d'. split; [exact E|]. split; [done|]. rewrite Hc. apply by_name_alter; [apply Hi|]. intros u. by destruct reset.
Qed.

Lemma addUser_sql d u u' : sql_inv d → id_room d → validateUser u = Ok u' → user_fits limits u' → table d !! Username u' = None →
  ∃ id d', sqlCommonAddUser config u d = (None, d') ∧ sql_inv d'
    ∧ table d' = <[Username u' := set_UsedQuota (set_ID u' id) 0 0 0]> (table d)
    ∧ ∀ n v, table d !! n = Some v → ID v ≠ id.
Proof.
  intros Hi Hroom Hv Hfit Hn. pose proof (proj1 Hfit) as Hst. pose proof (parse_getAddUser config Htbl) as Hq.
  assert (Hno : ∀ v, v ∈ users d → Username v ≠ Username u').
  { intros v Hvin E. assert (table d !! Username u' = Some v) by by apply table_lookup. congruence. }
  destruct (Insert_spec d _ (insert_args u') _ _ Hq) as (id & d' & E & Hp & H64 & Hid); [done|done| |by apply insert_fits| |].
  { intros Hc. unfold insert_columns in Hc. repeat (apply elem_of_cons in Hc as [Hc|Hc]; [discriminate|]).
    by apply not_elem_of_nil in Hc. }
  { intros r Hr. destruct (row_in d r Hi Hr) as (v & Hvin & Hrv). rewrite (ru_username r v Hrv). change (VText (Username v) ≠ VText (Username u')).
    intros [= E]. by apply (Hno v). }
  assert (Hids : ∀ v, v ∈ users d → ID v ≠ id).
  { intros v Hvin E'. destruct (user_in d v Hi Hvin) as (r & Hr & Hrv). apply (Hid r Hr). by rewrite (ru_id r v Hrv), E'. }
  exists id, d'. split.
  { unfold sqlCommonAddUser. rewrite Hv. unfold exec. by rewrite (Prepare_spec d _ _ Hq). }
  destruct (sql_inv_intro d' _ (set_UsedQuota (set_ID u' id) 0 0 0 :: users d) Hp) as [Hi' Hc].
  - constructor; [by apply insert_row|by apply si_rel].
  - apply users_wf_cons; [apply Hi|done|]. intros v Hvin. split; [by apply Hno|by apply Hids].
  - split; [done|]. split; [exact Hc|]. intros n v [Hvin _]%table_lookup; [|done]. by apply Hids.
Qed.

Lemma addUser_sql_refused d u : sql_inv d →
  (∀ u', validateUser u = Ok u' → user_fits limits u' ∧ is_Some (table d !! Username u')) →
  ∃ err d', sqlCommonAddUser config u d = (Some err, d') ∧ sql_inv d' ∧ table d' = table d.
Proof.
  intros Hi Hc. unfold sqlCommonAddUser. destruct (validateUser u) as [u'| |]; [|by eauto..].
  destruct (Hc u' eq_refl) as [_ [v Hv]]. pose proof (parse_getAddUser config Htbl) as Hq.
  apply table_lookup in Hv as [Hvin Hname]; [|done]. destruct (user_in d v Hi Hvin) as (r & Hr & Hrv).
  destruct (Insert_taken d _ (insert_args u') _ _ r Hq) as (e & d' & E & Hrows); [done|done| |].
  { rewrite (ru_username r v Hrv), Hname. reflexivity. }
  exists e, d'. unfold exec. rewrite (Prepare_spec d _ _ Hq) by done. split; [exact E|].
  apply (sql_inv_intro d' (rows d) (users d)); [by rewrite Hrows|by apply si_rel|apply Hi].
Qed.

(** An update of a stored user, and one of an id nobody has. *)
Lemma updateUser_sql d u u' : sql_inv d → validateUser u = Ok u' → user_fits limits u' → id_fits limits (ID u') →
  ∃ d', sqlCommonUpdateUser config u d = (None, d') ∧ sql_inv d'
    ∧ table d' = by_name (map (λ v, if bool_decide (ID v = ID u') then updated_user u' v else v) (users d)).
Proof.
  intros Hi Hv Hfit Hid. unfold sqlCommonUpdateUser. rewrite Hv.
  apply (exec_update _ (update_args u') user_sets ("id"%string, 11%nat)); try done.
  - by apply parse_getUpdateUser.
  - intros c e Hin. destruct (user_sets_fit u' c e Hin Hfit) as [? He]. split; [done|]. intros. apply He.
  - intros r v. by apply matches_id.
  - intros r v Hr Hin _. apply update_row; [apply Hfit|done].
Qed.

Lemma deleteUser_sql d u : sql_inv d → id_fits limits (ID u) →
  ∃ d', sqlCommonDeleteUser config u d = (None, d') ∧ sql_inv d'
    ∧ table d' = by_name (filter (λ v, negb (bool_decide (ID v = ID u)) = true) (users d)).
Proof.
  intros Hi Hfit. pose proof (parse_getDeleteUser config Htbl) as Hq.
  destruct (Delete_spec d _ [VInt (ID u)] _ Hq) as (d' & E & Hp); [done|done|].
  exists d'. unfold sqlCommonDeleteUser, exec. rewrite (Prepare_spec d _ _ Hq) by done. split; [exact E|].
  apply (sql_inv_intro d' (filter (λ r, negb (matches [VInt (ID u)] by_id r) = true) (rows d))).
  - rewrite Hp. unfold remove. apply reflexive_eq, list_filter_iff. intros r. by rewrite negb_true_iff.
  - apply (filter_rows (λ r, negb (matches [VInt (ID u)] by_id r))); [|by apply si_rel]. intros r v Hr.
    f_equal. by apply matches_id.
  - apply users_wf_filter, Hi.
Qed.

Lemma by_name_filter_absent d id : sql_inv d → (∀ n v, table d !! n = Some v → ID v ≠ id) →
  by_name (filter (λ v, negb (bool_decide (ID v = id)) = true) (users d)) = table d.
Proof.
  intros Hi Hno. unfold table. f_equal. apply filter_all. intros v Hv.
  rewrite bool_decide_false; [done|]. apply (Hno (Username v)). by apply table_lookup.
Qed.

(** ** Pages *)
Definition sql_enumeration (order : string) d : list User :=
  omap user_of_row (merge_sort (row_le (pages (bool_decide (order = "DESC"%string)) 0)) (rows d)).

Lemma sorted_rel d desc : sql_inv d →
  Forall2 row_user (merge_sort (row_le (pages desc 0)) (rows d))
    (omap user_of_row (merge_sort (row_le (pages desc 0)) (rows d))).
Proof. intros Hi. apply users_rows. rewrite merge_sort_Permutation. apply Hi. Qed.

Lemma getUsers_sql d limit offset order : sql_inv d → is_order order → 0 < limit → 0 <= offset →
  sqlCommonGetUsers config limit offset order EmptyString d =
    (map getUserNoCredentials (take (Z.to_nat limit) (drop (Z.to_nat offset) (sql_enumeration order d))), None).
Proof.
  intros Hi Ho Hl Hoff. pose proof (parse_getUsers config Htbl order Ho) as Hq.
  unfold sqlCommonGetUsers. rewrite (Prepare_spec d _ _ Hq) by done. cbn [bool_decide negb].
  rewrite (Select_spec d _ [VInt limit; VInt offset] _ _ _ Hq) by (done || by apply names_unique).
  unfold select. f_equal. apply collect_rows, Forall2_take, Forall2_drop, sorted_rel, Hi.
Qed.

Lemma getUsers_sql_named d limit order n : sql_inv d → is_order order → 0 < limit → n ≠ EmptyString →
  sqlCommonGetUsers config limit 0 order n d = (map getUserNoCredentials (option_list (table d !! n)), None).
Proof.
  intros Hi Ho Hl Hn. pose proof (parse_getUsers_named config Htbl order n Ho Hn) as Hq.
  unfold sqlCommonGetUsers. rewrite (Prepare_spec d _ _ Hq) by done. rewrite bool_decide_false by done. cbn [negb].
  rewrite (Select_spec d _ [VText n; VInt limit; VInt 0] _ _ _ Hq) by (done || by apply names_unique).
  unfold select. f_equal. apply collect_rows.
  set (P := λ r, matches [VText n; VInt limit; VInt 0] by_username r).
  assert (HQ : ∀ r u, row_user r u → P r = bool_decide (Username u = n)) by (intros r u; by apply matches_username).
  pose proof (filter_rows _ _ HQ _ _ (si_rel d Hi)) as Hf.
  assert (Hone : filter (λ u, bool_decide (Username u = n) = true) (users d) = option_list (table d !! n)).
  { rewrite <- find_username by done. destruct (users_wf_filter (users d) (si_wf d Hi) (λ u, bool_decide (Username u = n))) as (Hnd & _).
    pose proof (λ u, proj1 (list_elem_of_filter (λ u, bool_decide (Username u = n) = true) (users d) u)) as Hall.
    destruct (filter _ (users d)) as [|u [|v l]] eqn:E; [done|done|exfalso].
    destruct (Hall u) as [Hu%bool_decide_eq_true _]; [by left|].
    destruct (Hall v) as [Hv%bool_decide_eq_true _]; [by right; left|].
    apply NoDup_cons in Hnd as [Hnot _]. apply Hnot. simpl. rewrite Hu, <- Hv. by left. }
  assert (Hf' : Forall2 row_user (filter (λ r, P r = true) (rows d)) (option_list (table d !! n))) by (rewrite <- Hone; exact Hf).
  clear Hf. rename Hf' into Hf.
  assert (Hsort : merge_sort (row_le (pages (bool_decide (order = "DESC"%string)) 1)) (filter (λ r, P r = true) (rows d))
    = filter (λ r, P r = true) (rows d)).
  { destruct (table d !! n); [apply Forall2_cons_inv_r in Hf as (r & l & _ & Hnil & E)|apply Forall2_nil_inv_r in Hf as E].
    - apply Forall2_nil_inv_r in Hnil as ->. by rewrite E.
    - by rewrite E. }
  change (int_arg _ _) with (Z.to_nat limit) at 1. unfold int_arg, arg. simpl. fold P.
  rewrite Hsort, drop_0. destruct (table d !! n); [|apply Forall2_nil_inv_r in Hf as ->; by rewrite take_nil].
  apply Forall2_cons_inv_r in Hf as (r & l & Hr & Hnil & E). apply Forall2_nil_inv_r in Hnil as ->. rewrite E.
  destruct (Z.to_nat limit) eqn:El; [lia|]. simpl. rewrite take_nil. by apply Forall2_cons.
Qed.

(** ** The interface

    The providers have the same methods but for the update of the quota. *)
Abbreviation quota_method := (Z → string → Z → Z → bool → D → option error * D).
Definition methods (uq : quota_method) : Provider D := {|
  validateUserAndPass := sqlCommonValidateUserAndPass config;
  validateUserAndPubKey := sqlCommonValidateUserAndPubKey config;
  updateQuota := uq;
  getUsedQuota := sqlCommonGetUsedQuota config;
  userExists := sqlCommonCheckUserExists config;
  addUser := sqlCommonAddUser config;
  updateUser := sqlCommonUpdateUser config;
  deleteUser := sqlCommonDeleteUser config;
  getUsers := sqlCommonGetUsers config;
  getUserByID := sqlCommonGetUserByID config
|}.
Definition updates_quota (uq : quota_method) : Prop :=
  ∀ d now n f z reset, sql_inv d → change_fits limits now f z reset (table d !! n) →
    ∃ d', uq now n f z reset d = (None, d') ∧ sql_inv d' ∧ table d' = alter (quota_updated now f z reset) n (table d).

Lemma tx_updates_quota : updates_quota (tx_updateQuota config).
Proof.
  assert (Hsame : ∀ d d', rows d' = rows d → sql_inv d → sql_inv d' ∧ table d' = table d).
  { intros d1 d2 E Hi. apply (sql_inv_intro d2 (rows d1) (users d1)); [by rewrite E|by apply si_rel|apply Hi]. }
  intros d now n f z reset Hi Hq. unfold tx_updateQuota. destruct (Begin_spec d) as (d1 & -> & E1).
  destruct (Hsame d d1 E1 Hi) as [Hi1 Ht1]. rewrite <- Ht1 in Hq |- *.
  destruct (updateQuota_sql d1 now n f z reset Hi1 Hq) as (d2 & -> & Hi2 & Ht2).
  destruct (Commit_spec d2) as (d3 & -> & E3). destruct (Hsame d2 d3 E3 Hi2) as [Hi3 Ht3].
  exists d3. rewrite Ht3. done.
Qed.

Lemma login_sql {A} d n (secret : string) (check : User → result A) : sql_inv d →
  let r := if bool_decide (secret = EmptyString) then Err (EMsg "Credentials cannot be null or empty")
           else u ← getUserByUsername config n d; check u in
  match table d !! n with
  | Some u => if bool_decide (secret = EmptyString) then ∃ e, r = Err e else r = check u
  | None => ∃ e, r = Err e
  end.
Proof.
  intros Hi r. unfold r. pose proof (byUsername_spec d n Hi) as Hu.
  destruct (table d !! n) as [u|]; rewrite Hu; case_bool_decide; simpl; eauto.
Qed.

Lemma map_absent d id f : sql_inv d → (∀ n v, table d !! n = Some v → ID v ≠ id) →
  by_name (map (λ v, if bool_decide (ID v = id) then f v else v) (users d)) = table d.
Proof.
  intros Hi Hno. unfold table. f_equal. rewrite <- (map_id (users d)) at 2. apply map_ext_in. intros v Hv%list_elem_of_In.
  rewrite bool_decide_false; [done|]. apply (Hno (Username v)). by apply table_lookup.
Qed.

Lemma updateUser_sql_found d u u' old : sql_inv d → validateUser u = Ok u' → user_fits limits u' → id_fits limits (ID u') →
  table d !! Username u' = Some old → ID u' = ID old →
  ∃ d', sqlCommonUpdateUser config u d = (None, d') ∧ sql_inv d' ∧ table d' = <[Username u' := updated_user u' old]> (table d)
    ∧ account (updated_user u' old) = account u' ∧ ID (updated_user u' old) = ID u'.
Proof.
  intros Hi Hv Hst Hf Ho Hid. destruct (updateUser_sql d u u' Hi Hv Hst Hf) as (d' & E & Hi' & Ht).
  apply table_lookup in Ho as [Hin Hname]; [|done]. exists d'. split; [done|]. split; [done|]. split; [|split].
  - rewrite Ht, Hid, <- Hname. apply by_name_update; [apply Hi|done|done].
  - unfold account, updated_user. simpl. rewrite Hname. by destruct u'.
  - by rewrite Hid.
Qed.

Definition sql_spec (uq : quota_method) (Huq : updates_quota uq) : @ProviderOn limits D _ (methods uq).
Proof.
  refine (@Build_ProviderOn limits D _ (methods uq) sql_inv id_room table _ _ _ _ _ _ _ _ _ _ _ _ _ _ _ sql_enumeration _ _ _ _);
    simpl.
  - intros s n u Hi [_ ?]%table_lookup; done.
  - intros s n n' u u' Hi [Hu <-]%table_lookup [Hu' <-]%table_lookup E; [|done..].
    f_equal. apply (NoDup_map_inj ID (users s)); [apply (si_wf s Hi)|done..].
  - intros s n u Hi [Hu _]%table_lookup; [|done]. destruct (si_wf s Hi) as (_ & _ & H64). rewrite Forall_forall in H64. auto.
  - intros s n pw Hi. apply login_sql, Hi.
  - intros s n key Hi. apply login_sql, Hi.
  - intros s n Hi. pose proof (byUsername_spec s n Hi) as Hu. destruct (table s !! n); [done|by eexists].
  - intros s id Hi. by apply byID_spec.
  - intros s n Hi. by apply usedQuota_spec.
  - intros s now n f z reset Hi Hq. destruct (Huq s now n f z reset Hi Hq) as (d' & E & ? & ?). by exists None, d'.
  - intros s u u' Hi Hr Hv Hst Hn. destruct (addUser_sql s u u' Hi Hr Hv Hst Hn) as (id & d' & E & ? & ? & ?).
    eexists _, d'. by split_and!.
  - intros s u Hi _. by apply addUser_sql_refused.
  - intros s u u' old Hi Hv Hst Hf Ho Hid. destruct (updateUser_sql_found s u u' old Hi Hv Hst Hf Ho Hid) as (d' & ?).
    by exists (updated_user u' old), d'.
  - intros s u Hi Hc. destruct (validateUser u) as [u'| |] eqn:Hv; [|unfold sqlCommonUpdateUser; rewrite Hv; by eauto..].
    destruct (Hc u' eq_refl) as (Hst & _ & Hf & Hno). destruct (updateUser_sql s u u' Hi Hv Hst Hf) as (d' & E & ? & Ht).
    exists None, d'. split; [done|]. split; [done|]. rewrite Ht. by apply map_absent.
  - intros s u v Hi Hf Hv Hid. destruct (deleteUser_sql s u Hi Hf) as (d' & E & ? & Ht). exists d'. split; [done|]. split; [done|].
    rewrite Ht. apply table_lookup in Hv as [Hin _]; [|done]. apply by_name_remove; [apply Hi|done|done].
  - intros s u Hi Hf Hno. destruct (deleteUser_sql s u Hi Hf) as (d' & E & ? & Ht). exists None, d'. split; [done|].
    split; [done|]. rewrite Ht. by apply by_name_filter_absent.
  - intros s order Hi. unfold sql_enumeration, table. rewrite merge_sort_Permutation. fold (users s).
    unfold by_name. rewrite map_to_list_to_map by (rewrite by_name_keys; apply (si_wf s Hi)).
    rewrite <- list_fmap_compose. apply reflexive_eq. symmetry. apply list_fmap_id.
  - intros s limit offset order Hi. by apply getUsers_sql.
  - intros s limit order n Hi. by apply getUsers_sql_named.
  - intros s limit offset order n. unfold sqlCommonGetUsers. repeat case_match; simpl; (apply collect_users_hidden || constructor).
Defined.

Lemma sqlite_updates_quota : updates_quota (sqlCommonUpdateQuota config).
Proof. intros d now n f z reset. apply updateQuota_sql. Qed.
Definition SQLite_spec : @ProviderOn limits D _ (SQLiteProvider config) := sql_spec _ sqlite_updates_quota.
Definition PGSQL_spec : @ProviderOn limits D _ (PGSQLProvider config) := sql_spec _ tx_updates_quota.
Definition MySQL_spec : @ProviderOn limits D _ (MySQLProvider config) := sql_spec _ tx_updates_quota.

(** C2: the SQL providers refine the abstract store, for every admissible
    history. Let the table name be a plain SQL name and the users table have no
    rows, on a database that keeps [DatabaseSpec] (it executes the statements as
    their texts say, compares texts by their bytes, and has limits on its
    columns). Let every call of the history be admissible where it is made: ids
    are ones the id column holds and a new one is left for an added user; a user
    that is added or updated has lists in UTF-8 and values its columns hold;
    counters do not overflow and the columns hold them and what is added to
    them; an update names a stored record by both its name and its id, or
    neither names one; a page has a positive limit and a known order, a search
    a name. Then for the SQLite, the PostgreSQL and the MySQL provider, with the
    query texts of the configured driver, every reply is one the store allows,
    and the users read from the table are the store after the same calls; in
    it names and ids identify users. *)
Theorem sql_refines_store d cs : rows d = [] →
  (@admissible_run _ _ _ _ SQLite_spec d cs →
     let '(rs, d') := @do_calls _ (SQLiteProvider config) cs d in store_run ∅ cs rs (table d') ∧ store_wf (table d')) ∧
  (@admissible_run _ _ _ _ PGSQL_spec d cs →
     let '(rs, d') := @do_calls _ (PGSQLProvider config) cs d in store_run ∅ cs rs (table d') ∧ store_wf (table d')) ∧
  (@admissible_run _ _ _ _ MySQL_spec d cs →
     let '(rs, d') := @do_calls _ (MySQLProvider config) cs d in store_run ∅ cs rs (table d') ∧ store_wf (table d')).
Proof.
  intros Hd. destruct (sql_inv_intro d [] []) as [Hi Ht]; [by rewrite Hd|constructor|by repeat constructor|].
  assert (Hrun : ∀ uq (Huq : updates_quota uq), @admissible_run _ _ _ _ (sql_spec uq Huq) d cs →
    let '(rs, d') := @do_calls _ (methods uq) cs d in store_run ∅ cs rs (table d') ∧ store_wf (table d')).
  { intros uq Huq Ha. destruct (@provider_run_refines _ _ _ _ (sql_spec uq Huq) cs d Hi Ha) as [_ Hr].
    destruct (@do_calls _ (methods uq) cs d) as [rs d']. simpl in Hr. rewrite Ht in Hr. split; [exact Hr|].
    eapply store_run_wf; [|exact Hr]. split; intros *; change (by_name []) with (∅ : gmap string User);
      by rewrite lookup_empty. }
  split_and!; apply Hrun.
Qed.
End spec.

(** ** A database in memory

    Its columns are those of src/sql/pgsql/20190828.sql and
    src/sql/mysql/20190828.sql, a character being a byte; a statement with a
    value they do not hold is refused. *)
Module MemDb.
Definition holds (c : string) (v : value) : bool :=
  match v with
  | VNull => bool_decide (c ∈ ["password"; "public_keys"]%string)
  | VInt z =>
      if bool_decide (c ∈ ["quota_size"; "used_quota_size"; "last_quota_update"]%string) then bool_decide (is_i64 z)
      else bool_decide (c ∈ ["id"; "uid"; "gid"; "max_sessions"; "quota_files"; "used_quota_files"; "upload_bandwidth";
                             "download_bandwidth"]%string) && bool_decide (-2^31 <= z < 2^31)
  | VText s =>
      if bool_decide (c ∈ ["username"; "password"; "home_dir"]%string) then (String.length s <=? 255)%nat
      else bool_decide (c ∈ ["public_keys"; "permissions"]%string)
  end.
Definition state : Type := list row.
Section checks.
Context (args : list value).
Definition compares (cond : string * nat) : bool :=
  match arg args cond.2 with VInt z => holds cond.1 (VInt z) | _ => true end.
Definition assigns (sets : list (string * expr)) (cond : string * nat) (t : state) : bool :=
  forallb (λ '(c, e), forallb (λ i, holds c (arg args i)) (expr_params e)
    && forallb (λ r, implb (matches args cond r) (holds c (eval args r e))) t) sets.
Definition inserts (cols : list string) (vals : list expr) : bool :=
  forallb (λ c, holds c (new_row args 0 cols vals c)) cols.
End checks.
Definition out_of_range : error := EMsg "value out of range".
Definition row_id (r : row) : Z := match r "id"%string with VInt z => z | _ => 0 end.
Definition next_id (t : state) : Z := foldr (λ r m, Z.max (row_id r + 1) m) 1 t.
Definition taken (t : state) (r : row) : bool := existsb (λ r', bool_decide (r' "username"%string = r "username"%string)) t.
#[global] Instance database : Database state := {
  db_Prepare q d := match parse_sql q with Some _ => None | None => Some (EMsg "syntax error") end;
  db_Query q args d :=
    match parse_sql q with
    | Some (SSelect cols _ cond page) =>
        if match cond with Some c => compares args c | None => true end then Ok (select args cols cond page d)
        else Err out_of_range
    | _ => Err (EMsg "syntax error")
    end;
  db_Exec q args d :=
    match parse_sql q with
    | Some (SUpdate _ sets cond) =>
        if compares args cond && assigns args sets cond d then (None, update args sets cond d) else (Some out_of_range, d)
    | Some (SInsert _ cols vals) =>
        let r := new_row args (next_id d) cols vals in
        if negb (inserts args cols vals && holds "id" (VInt (next_id d))) then (Some out_of_range, d)
        else if taken d r then (Some (EMsg "UNIQUE constraint failed"), d) else (None, r :: d)
    | Some (SDelete _ cond) => if compares args cond then (None, remove args cond d) else (Some out_of_range, d)
    | _ => (Some (EMsg "syntax error"), d)
    end;
  db_Begin d := (None, d);
  db_Commit d := (None, d);
  db_Rollback d := (None, d)
}.

Lemma next_id_fresh (t : state) r : r ∈ t → row_id r < next_id t.
Proof.
  induction t as [|r' t IH]; [by intros ?%not_elem_of_nil|]. intros [->|Hr]%elem_of_cons; simpl; [lia|]. specialize (IH Hr). lia.
Qed.
Lemma next_id_pos (t : state) : 1 <= next_id t.
Proof. induction t; simpl; lia. Qed.
Lemma taken_spec (t : state) r : taken t r = true ↔ ∃ r', r' ∈ t ∧ r' "username"%string = r "username"%string.
Proof.
  unfold taken. rewrite existsb_exists. split.
  - intros (r' & Hr%list_elem_of_In & E%bool_decide_eq_true). by exists r'.
  - intros (r' & Hr%list_elem_of_In & E). exists r'. by rewrite bool_decide_eq_true.
Qed.

(** The checks are those of the class. *)
Abbreviation fits := (λ c v, holds c v = true).
Lemma compares_spec args cond : comparable args fits cond → compares args cond = true.
Proof. unfold comparable, compares. by destruct (arg _ _). Qed.
Lemma assigns_spec args sets cond (t : state) : assignable args fits sets cond t → assigns args sets cond t = true.
Proof.
  intros Ha. apply forallb_forall. intros [c e] Hin%list_elem_of_In. destruct (Ha c e Hin) as [Hp Hr].
  apply andb_true_intro. split; apply forallb_forall.
  - intros i Hi%list_elem_of_In. by apply (proj1 (Forall_forall _ _) Hp).
  - intros r Hin'%list_elem_of_In. destruct (matches args cond r) eqn:E; simpl; auto.
Qed.
Lemma inserts_spec args cols vals : insertable args fits cols vals → inserts args cols vals = true.
Proof. intros Hi. apply forallb_forall. intros c Hc%list_elem_of_In. by apply (proj1 (Forall_forall _ _) Hi c). Qed.
Lemma next_id_holds (t : state) : next_id t < 2 ^ 31 → holds "id" (VInt (next_id t)) = true.
Proof.
  intros Hlt. pose proof (next_id_pos t). change (bool_decide (-2^31 <= next_id t < 2^31) = true).
  apply bool_decide_eq_true. lia.
Qed.

#[global] Instance database_spec tbl : DatabaseSpec state tbl.
Proof.
  refine {| rows (d : state) := d; id_room (d : state) := next_id d < 2 ^ 31; fits_column := fits |}; cbn [db_Prepare db_Query db_Exec db_Begin db_Commit database].
  - intros d q st -> _. done.
  - intros d q args cols cond page -> _ _ _ Hc. destruct cond as [c|]; [|done]. by rewrite compares_spec.
  - intros d q args sets cond -> _ _ _ Hc Ha. rewrite compares_spec, assigns_spec by done. by eexists.
  - intros d q args cols vals -> _ Hr _ Hf Hn. exists (next_id d), (new_row args (next_id d) cols vals :: d).
    rewrite inserts_spec, next_id_holds by done. cbn [andb negb].
    destruct (taken d (new_row args (next_id d) cols vals)) eqn:E.
    { apply taken_spec in E as (r & Hr' & E'). by destruct (Hn r Hr'). }
    split_and!; [done|done|apply next_id_pos|lia|]. intros r Hr' E'.
    pose proof (next_id_fresh d r Hr') as Hlt. unfold row_id in Hlt. rewrite E' in Hlt. lia.
  - intros d q args cols vals r -> _ Hr Hn. case_match; [by eexists _, d|].
    rewrite (proj2 (taken_spec d (new_row args (next_id d) cols vals))); [by eexists _, d|]. by exists r.
  - intros d q args cond -> _ Hc. rewrite compares_spec by done. by eexists.
  - intros d. by eexists.
  - intros d. by eexists.
Defined.
End MemDb.

Definition sql_config : Config := Build_Config PGSSQLDataProviderName "sshserv" "localhost" 5432 "" "" 0 "" "users" 1 1 60.
Lemma sql_config_name : sql_name (UsersTable sql_config).
Proof. split; [reflexivity|]. repeat constructor. Qed.

(** On the schemas for PostgreSQL and MySQL the columns are narrower than the
    fields of a user: a counter that no longer fits is not changed, and the
    caller is told that it was. *)
Example narrow_counter_lost :
  let '(_, d) := sqlCommonAddUser (D := MemDb.state) sql_config bob [] in
  let '(err, d') := tx_updateQuota sql_config 0 "bob" (2 ^ 31) 7 false d in
  err = None ∧ sqlCommonGetUsedQuota sql_config "bob" d' = Ok (0, 0).
Proof. vm_compute. split; reflexivity. Qed.

(** The history of the bolt witness on PostgreSQL, with its placeholders. *)
Definition sql_calls : list call :=
  [Add bob; Add bob; Login "bob" "hunter2"; UpdateQuota 0 "bob" 1 7 false; ByID 1; Delete (set_ID bob 1); Exists "bob"].
Lemma sql_refines_store_witness :
  ∃ rs d', @do_calls _ (PGSQLProvider (D := MemDb.state) sql_config) sql_calls [] = (rs, d') ∧
  store_run ∅ sql_calls rs (table sql_config d') ∧ store_wf (table sql_config d')
  ∧ rs !! 3%nat = Some (RErr None) ∧ length d' = 0%nat.
Proof.
  assert (H0 : rows (D := MemDb.state) (tbl := UsersTable sql_config) [] = []) by reflexivity.
  pose proof (proj1 (proj2 (sql_refines_store sql_config sql_config_name [] sql_calls H0))) as Hr. revert Hr.
  destruct (@do_calls _ (PGSQLProvider sql_config) sql_calls []) as [rs d'] eqn:E. intros Hr.
  exists rs, d'. split; [exact E|]. destruct Hr as [Hr Hw].
  - assert (Hst : ∀ u', validateUser bob = Ok u' → user_fits (sql_limits MemDb.fits) u').
    { intros u' Hu'. vm_compute in Hu'. injection Hu' as <-. apply (bool_decide_unpack _). vm_compute. exact I. }
    split; [split; [vm_compute; reflexivity|exact Hst]|].
    split; [split; [vm_compute; reflexivity|exact Hst]|].
    split; [exact I|].
    split.
    { split; [intros v Hv _; vm_compute in Hv; injection Hv as <-; split; split; (discriminate || reflexivity)|].
      split; [repeat constructor|]. intros v Hv. vm_compute in Hv. injection Hv as <-. repeat constructor. }
    split; [reflexivity|]. split; [reflexivity|]. split; exact I.
  - split; [exact Hr|]. split; [exact Hw|]. split; [|assert (E2 := f_equal (λ x, length x.2) E); vm_compute in E2; symmetry; exact E2].
    assert (E1 := f_equal (λ x, x.1 !! 3%nat) E). vm_compute in E1. symmetry. exact E1.
Defined.
