(* ===== verification/FileSystem.v ===== *)
(** * The operating system's file system

    The server reaches the disk through Go's [os], [ioutil] and
    [path/filepath] packages. [FileSystem] is that interface over the state of
    the disk, [FileSystemSpec] and [FileContents] are what the proofs rely on;
    [MemFS] is a small instance of it with directories, regular
    files, symbolic links and open descriptors, on which the server can be
    run. *)
From Stdlib Require Import Ascii.
From stdpp Require Import base tactics option list strings gmap sorting.
From Stdlib Require Import ZArith Lia.
From S2P Require Import Prelude GoOs GoPath.

(** [*os.File]: the descriptor and the name it was opened with. *)
Record File := mkFile { fd : nat; file_Name : string }.

(** [os_OpenFile name flags perm]; [Walk root] is what [filepath.Walk] visits,
    in order, or the first error it meets; [Readdir name] is [os.Open] of a
    directory followed by [Readdir(-1)], the entries in directory order. *)
Class FileSystem (F : Type) := {
  os_Stat : string → F → result FileInfo;
  os_Lstat : string → F → result FileInfo;
  EvalSymlinks : string → F → result string;
  ReadDir : string → F → result (list FileInfo);
  Readdir : string → F → result (list FileInfo);
  Walk : string → F → result (list (string * FileInfo));
  os_Mkdir : string → Z → F → option error * F;
  os_MkdirAll : string → Z → F → option error * F;
  os_Rename : string → string → F → option error * F;
  os_Remove : string → F → option error * F;
  os_RemoveAll : string → F → option error * F;
  os_Symlink : string → string → F → option error * F;
  os_Chmod : string → Z → F → option error * F;
  os_Chown : string → Z → Z → F → option error * F;
  os_Chtimes : string → Z → Z → F → option error * F;
  os_OpenFile : string → Z → Z → F → result File * F;
  file_ReadAt : File → Z → Z → F → list byte * option error;
  file_WriteAt : File → list byte → Z → F → (Z * option error) * F;
  file_Close : File → F → option error * F
}.

(** [os.Open] and [os.Create] *)
Definition os_Open `{FileSystem F} (name : string) (f : F) : result File * F :=
  os_OpenFile name O_RDONLY 0 f.
Definition os_Create `{FileSystem F} (name : string) (f : F) : result File * F :=
  os_OpenFile name (fold_right Z.lor 0 [O_RDWR; O_CREATE; O_TRUNC]) 0x1b6 f.

(** The contract of the calls that the proofs use. A read returns at most what
    was asked for, a write reports at most what it was given; what [EvalSymlinks] returns is a clean absolute path when
    its argument is absolute; the root directory exists; neither of
    the two calls panics. *)
Class FileSystemSpec (F : Type) `{FileSystem F} := {
  file_ReadAt_bound fl n off f data err :
    0 <= n → file_ReadAt fl n off f = (data, err) → zlen data <= n;
  file_WriteAt_bound fl data off f n err f' :
    file_WriteAt fl data off f = ((n, err), f') → 0 <= n <= zlen data;
  root_exists f : ∃ fi, os_Stat "/" f = Ok fi ∧ fi_IsDir fi = true;
  EvalSymlinks_no_panic p f : EvalSymlinks p f ≠ Panic;
  os_Stat_no_panic p f : os_Stat p f ≠ Panic;
  EvalSymlinks_clean p f q :
    IsAbs p = true → EvalSymlinks p f = Ok q → ∃ l, Forall normal l ∧ q = abs_path l
}.

(** What overwriting part of a file gives; a gap is filled with zeros. Writing
    nothing changes nothing. *)
Definition write_bytes (off : Z) (data b : list byte) : list byte :=
  let o := Z.to_nat off in
  match data with
  | [] => b
  | _ => take o (b ++ replicate (o - length b) (byte_of_Z 0)) ++ data ++ drop (o + length data) b
  end.

(** Open files have contents: [os.File] reads and writes them at an offset, a
    read reports [io.EOF] when it is short, truncation empties them, and
    changing an owner leaves them alone. *)
Class FileContents (F : Type) `{FileSystem F} := {
  file_open : File → F → Prop;
  file_bytes : File → F → list byte;
  OpenFile_content name flags perm f fl f' :
    os_OpenFile name flags perm f = (Ok fl, f') →
    file_open fl f' ∧ file_Name fl = name ∧ (has_bits flags O_TRUNC = true → file_bytes fl f' = []);
  Stat_content name f fi fl f' :
    os_Stat name f = Ok fi → fi_IsDir fi = false → os_Open name f = (Ok fl, f') →
    fi_Size fi = zlen (file_bytes fl f');
  ReadAt_content fl n off f : file_open fl f → 0 <= n → 0 <= off →
    let l := take (Z.to_nat n) (drop (Z.to_nat off) (file_bytes fl f)) in
    file_ReadAt fl n off f = (l, if zlen l <? n then Some EOF else None);
  WriteAt_content fl data off f n f' : file_open fl f → 0 <= off →
    file_WriteAt fl data off f = ((n, None), f') →
    n = zlen data ∧ file_open fl f' ∧ file_bytes fl f' = write_bytes off data (file_bytes fl f);
  Chown_content fl name uid gid f : file_open fl f →
    let f' := snd (os_Chown name uid gid f) in file_open fl f' ∧ file_bytes fl f' = file_bytes fl f
}.

(** Writing at the end appends. *)
Lemma write_bytes_end data b : write_bytes (zlen b) data b = b ++ data.
Proof.
  destruct data as [|x data]; [by rewrite app_nil_r|].
  unfold write_bytes, zlen. rewrite Nat2Z.id, Nat.sub_diag. cbn [replicate]. rewrite app_nil_r, take_ge by lia.
  rewrite drop_ge by lia. by rewrite app_nil_r.
Qed.

(** ** An in-memory file system *)
Module MemFS.

Inductive node := Dir | Link (target : string) | Reg (inode : nat).

(** Entries by their absolute components; the root is implicit. *)
Record state := mk {
  entries : gmap (list string) node;
  inodes : gmap nat (list byte);
  fds : gmap nat nat;
  next : nat
}.
Definition init : state := mk ∅ ∅ ∅ 0.

Definition lookup (l : list string) (s : state) : option node :=
  match l with [] => Some Dir | _ => entries s !! l end.
Definition comps (p : string) : list string := clean_comps true (strings_Split p slash).

(** Follow the links of all components ([last] says whether the final one is
    followed too). *)
Fixpoint resolve (fuel : nat) (last : bool) (cur todo : list string) (s : state) : result (list string) :=
  match todo with
  | [] => Ok cur
  | c :: rest =>
      match fuel with
      | O => Err (ESyscall ELOOP)
      | S fuel =>
          match lookup (cur ++ [c]) s with
          | None => Err (ESyscall ENOENT)
          | Some Dir => resolve fuel last (cur ++ [c]) rest s
          | Some (Reg _) => match rest with [] => Ok (cur ++ [c]) | _ => Err (ESyscall ENOTDIR) end
          | Some (Link t) =>
              if negb last && bool_decide (rest = []) then Ok (cur ++ [c])
              else if IsAbs t then resolve fuel last [] (comps t ++ rest) s
              else resolve fuel last [] (comps (abs_path cur +:+ String slash t) ++ rest) s
          end
      end
  end.
Definition walk (last : bool) (p : string) (s : state) : result (list string) :=
  resolve 255 last [] (comps p) s.

Definition info (l : list string) (n : node) (s : state) : FileInfo :=
  let name := List.last l "/"%string in
  match n with
  | Dir => {| fi_Name := name; fi_Size := 4096; fi_Mode := Z.lor ModeDir 0x1ed; fi_ModTime := 0; fi_Sys := None |}
  | Link t => {| fi_Name := name; fi_Size := slen t; fi_Mode := Z.lor ModeSymlink 0x1ff; fi_ModTime := 0; fi_Sys := None |}
  | Reg i => {| fi_Name := name; fi_Size := zlen (default [] (inodes s !! i)); fi_Mode := 0x1a4; fi_ModTime := 0; fi_Sys := None |}
  end.

Definition stat (last : bool) (p : string) (s : state) : result FileInfo :=
  l ← walk last p s;
  match lookup l s with Some n => Ok (info l n s) | None => Err (ESyscall ENOENT) end.

(** The parent directory, resolved, and the last component. *)
Definition locate (p : string) (s : state) : result (list string) :=
  match rev (comps p) with
  | [] => Ok []
  | c :: r => d ← resolve 255 true [] (rev r) s;
              match lookup d s with
              | Some Dir => Ok (d ++ [c])
              | _ => Err (ESyscall ENOTDIR)
              end
  end.

Definition below (d l : list string) : bool := bool_decide (take (length d) l = d).
Definition set_entries (s : state) (e : gmap (list string) node) : state := mk e (inodes s) (fds s) (next s).

Definition mkdir (p : string) (s : state) : option error * state :=
  match locate p s with
  | Ok l => match lookup l s with
            | Some _ => (Some (EPathError p EEXIST), s)
            | None => (None, set_entries s (<[l := Dir]> (entries s)))
            end
  | Err e => (Some e, s)
  | Panic => (Some (EMsg ""), s)
  end.

Definition move (src dst l : list string) : list string := dst ++ drop (length src) l.
Definition rename (p q : string) (s : state) : option error * state :=
  match locate p s, locate q s with
  | Ok l, Ok m =>
      match lookup l s with
      | None => (Some (EPathError p ENOENT), s)
      | Some _ =>
          let keep := filter (λ kv, below l kv.1 = false ∧ below m kv.1 = false) (entries s) in
          let moved := filter (λ kv, below l kv.1 = true) (entries s) in
          (None, set_entries s (list_to_map ((λ kv, (move l m kv.1, kv.2)) <$> map_to_list moved) ∪ keep))
      end
  | Err e, _ | _, Err e => (Some e, s)
  | _, _ => (Some (EMsg ""), s)
  end.

Definition has_children (l : list string) (s : state) : bool :=
  negb (bool_decide (filter (λ kv, below l kv.1 = true ∧ kv.1 ≠ l) (entries s) = ∅)).
Definition remove (p : string) (s : state) : option error * state :=
  match locate p s with
  | Ok l => match lookup l s with
            | None => (Some (EPathError p ENOENT), s)
            | Some _ => if has_children l s then (Some (EPathError p ENOTEMPTY), s)
                        else (None, set_entries s (delete l (entries s)))
            end
  | Err e => (Some e, s)
  | Panic => (Some (EMsg ""), s)
  end.
Definition removeAll (p : string) (s : state) : option error * state :=
  match locate p s with
  | Ok l => (None, set_entries s (filter (λ kv, below l kv.1 = false) (entries s)))
  | Err e => (Some e, s)
  | Panic => (Some (EMsg ""), s)
  end.
Definition symlink (old new : string) (s : state) : option error * state :=
  match locate new s with
  | Ok l => match lookup l s with
            | Some _ => (Some (EPathError new EEXIST), s)
            | None => (None, set_entries s (<[l := Link old]> (entries s)))
            end
  | Err e => (Some e, s)
  | Panic => (Some (EMsg ""), s)
  end.

Definition touch (p : string) (s : state) : option error * state :=
  (match stat true p s with Ok _ => None | Err e => Some e | Panic => None end, s).

Definition open_inode (name : string) (i : nat) (s : state) : result File * state :=
  (Ok (mkFile (next s) name), mk (entries s) (inodes s) (<[next s := i]> (fds s)) (S (next s))).
Definition openFile (p : string) (flags : Z) (s : state) : result File * state :=
  match walk true p s with
  | Ok l =>
      match lookup l s with
      | Some (Reg i) =>
          if has_bits flags O_CREATE && has_bits flags O_EXCL then (Err (EPathError p EEXIST), s)
          else
            let s := if has_bits flags O_TRUNC
                     then mk (entries s) (<[i := []]> (inodes s)) (fds s) (next s) else s in
            open_inode p i s
      | _ => (Err (EPathError p EISDIR), s)
      end
  | Err (ESyscall ENOENT) =>
      if has_bits flags O_CREATE then
        match locate p s with
        | Ok l => let i := next s in
            open_inode p i (mk (<[l := Reg i]> (entries s)) (<[i := []]> (inodes s)) (fds s) (S (next s)))
        | Err e => (Err e, s)
        | Panic => (Panic, s)
        end
      else (Err (EPathError p ENOENT), s)
  | Err e => (Err e, s)
  | Panic => (Panic, s)
  end.

Definition content (fl : File) (s : state) : option (nat * list byte) :=
  i ← fds s !! fd fl; Some (i, default [] (inodes s !! i)).
Definition readAt (fl : File) (n off : Z) (s : state) : list byte * option error :=
  match content fl s with
  | None => ([], Some (ESyscall EBADF))
  | Some (_, b) => let l := take (Z.to_nat n) (drop (Z.to_nat off) b) in
                   (l, if zlen l <? n then Some EOF else None)
  end.
Definition writeAt (fl : File) (data : list byte) (off : Z) (s : state) : (Z * option error) * state :=
  match content fl s with
  | None => ((0, Some (ESyscall EBADF)), s)
  | Some (i, b) =>
      ((zlen data, None), mk (entries s) (<[i := write_bytes off data b]> (inodes s)) (fds s) (next s))
  end.
Definition close (fl : File) (s : state) : option error * state :=
  match fds s !! fd fl with
  | None => (Some (ESyscall EBADF), s)
  | Some _ => (None, mk (entries s) (inodes s) (delete (fd fl) (fds s)) (next s))
  end.

(** The entries below a directory, in order of their paths. *)
Definition listing (d : list string) (s : state) : list (list string * node) :=
  merge_sort (λ x y, String.le (abs_path x.1) (abs_path y.1))
    (map_to_list (filter (λ kv, below d kv.1 = true ∧ kv.1 ≠ d) (entries s))).
Definition readDir (p : string) (s : state) : result (list FileInfo) :=
  l ← walk true p s;
  match lookup l s with
  | Some Dir => Ok (map (λ e, info e.1 e.2 s)
                     (filter (λ e, length e.1 = S (length l)) (listing l s)))
  | _ => Err (EPathError p ENOTDIR)
  end.
Definition walkTree (p : string) (s : state) : result (list (string * FileInfo)) :=
  l ← walk false p s;
  match lookup l s with
  | Some n => Ok (map (λ e, (abs_path e.1, info e.1 e.2 s)) ((l, n) :: listing l s))
  | None => Err (EPathError p ENOENT)
  end.

#[global] Instance fs : FileSystem state := {
  os_Stat := stat true;
  os_Lstat := stat false;
  EvalSymlinks p s := l ← walk true p s; Ok (abs_path l);
  ReadDir := readDir;
  Readdir := readDir;
  Walk := walkTree;
  os_Mkdir p _ := mkdir p;
  os_MkdirAll p _ := mkdir p;
  os_Rename := rename;
  os_Remove := remove;
  os_RemoveAll := removeAll;
  os_Symlink := symlink;
  os_Chmod p _ := touch p;
  os_Chown p _ _ := touch p;
  os_Chtimes p _ _ := touch p;
  os_OpenFile p flags _ := openFile p flags;
  file_ReadAt := readAt;
  file_WriteAt := writeAt;
  file_Close := close
}.

Lemma comps_normal p : Forall normal (comps p).
Proof. apply clean_comps_normal, strings_Split_no_char. Qed.

Lemma resolve_normal fuel last cur todo s l :
  Forall normal cur → Forall normal todo → resolve fuel last cur todo s = Ok l → Forall normal l.
Proof.
  revert cur todo. induction fuel as [|fuel IH]; intros cur todo Hc Ht; (destruct todo as [|c rest]; [by intros [= <-]|]); simpl; [done|].
  inv Ht. assert (Forall normal (cur ++ [c])) by (apply Forall_app; split; [done|by constructor]).
  destruct (lookup _ s) as [[|t|i]|]; [| | |done].
  - by apply IH.
  - case_match; [by intros [= <-]|].
    case_match; (apply IH; [constructor|]; apply Forall_app; by auto using comps_normal).
  - case_match; [by intros [= <-]|done].
Qed.

Lemma walk_normal last p s l : walk last p s = Ok l → Forall normal l.
Proof.
  unfold walk. generalize 255%nat. intros fuel. apply resolve_normal; [constructor|apply comps_normal].
Qed.
Lemma resolve_no_panic fuel last cur todo s : resolve fuel last cur todo s ≠ Panic.
Proof.
  revert cur todo. induction fuel as [|fuel IH]; intros cur todo; (destruct todo as [|c rest]; [done|]); simpl; [done|].
  repeat case_match; auto.
Qed.
Lemma walk_no_panic last p s : walk last p s ≠ Panic.
Proof. apply resolve_no_panic. Qed.
Lemma walk_root last f : walk last "/" f = Ok [].
Proof. unfold walk. change (comps "/") with (@nil string). reflexivity. Qed.
Lemma stat_root f : stat true "/" f = Ok (info [] Dir f).
Proof. unfold stat. by rewrite walk_root. Qed.

#[global] Instance fs_spec : FileSystemSpec state.
Proof.
  split; simpl.
  - intros fl n off f data err Hn. unfold readAt. destruct (content fl f) as [[i b]|].
    + intros [= <- _]. unfold zlen. rewrite length_take. lia.
    + intros [= <- _]. unfold zlen. simpl. lia.
  - intros fl data off f n err f'. unfold writeAt. pose proof (zlen_nonneg data).
    destruct (content fl f) as [[i b]|]; intros [= <- _ _]; lia.
  - intros f. rewrite stat_root. eexists. split; [done|]. vm_compute. reflexivity.
  - intros p f. apply result_bind_no_panic; [apply walk_no_panic|done].
  - intros p f. unfold stat. apply result_bind_no_panic; [apply walk_no_panic|].
    intros l _. by destruct (lookup l f).
  - intros p f q _ (l & Hl & [= <-])%result_bind_ok. exists l. split; [|done].
    by eapply walk_normal.
Qed.

(** Paths are resolved by their lemmas, not by computing. *)
Opaque walk.

Definition bytes (fl : File) (s : state) : list byte :=
  match content fl s with Some (_, b) => b | None => [] end.

Lemma open_inode_ok name i s fl s' : open_inode name i s = (Ok fl, s') →
  fds s' !! fd fl = Some i ∧ file_Name fl = name ∧ bytes fl s' = default [] (inodes s !! i).
Proof.
  unfold open_inode. intros [= <- <-]. unfold bytes, content. simpl. by rewrite lookup_insert_eq.
Qed.

Lemma openFile_existing p flags s l i fl s' : walk true p s = Ok l → lookup l s = Some (Reg i) →
  openFile p flags s = (Ok fl, s') →
  is_Some (fds s' !! fd fl) ∧ file_Name fl = p
  ∧ bytes fl s' = if has_bits flags O_TRUNC then [] else default [] (inodes s !! i).
Proof.
  intros Hw Hl. unfold openFile. rewrite Hw, Hl. destruct (_ && _); [done|].
  destruct (has_bits flags O_TRUNC); intros (-> & ? & ->)%open_inode_ok; (split; [by eexists|]); [|done].
  split; [done|]. simpl. by rewrite lookup_insert_eq.
Qed.

Lemma openFile_ok p flags s fl s' : openFile p flags s = (Ok fl, s') →
  is_Some (fds s' !! fd fl) ∧ file_Name fl = p ∧ (has_bits flags O_TRUNC = true → bytes fl s' = []).
Proof.
  intros E. destruct (walk true p s) as [l| |] eqn:Hw.
  - destruct (lookup l s) as [[|t|i]|] eqn:Hl.
    3: { destruct (openFile_existing _ _ _ _ _ _ _ Hw Hl E) as (? & ? & Hb). split_and!; [done..|].
         intros Ht. by rewrite Hb, Ht. }
    all: unfold openFile in E; rewrite Hw, Hl in E; done.
  - unfold openFile in E. rewrite Hw in E. destruct e as [| | |er| | | | | | | | | | | | | |]; try done. destruct er; try done.
    destruct (has_bits flags O_CREATE); [|done]. destruct (locate p s); [|done..].
    apply open_inode_ok in E as (-> & -> & ->). split_and!; [by eexists|done|]. simpl. by rewrite lookup_insert_eq.
  - unfold openFile in E. by rewrite Hw in E.
Qed.

Lemma stat_open p s fi fl s' : stat true p s = Ok fi → fi_IsDir fi = false → openFile p O_RDONLY s = (Ok fl, s') →
  fi_Size fi = zlen (bytes fl s').
Proof.
  unfold stat. intros (l & Hw & Hs)%result_bind_ok Hd E.
  destruct (lookup l s) as [[|t|i]|] eqn:Hl; [| |injection Hs as <-|done].
  1,2: unfold openFile in E; rewrite Hw, Hl in E; done.
  by destruct (openFile_existing _ _ _ _ _ _ _ Hw Hl E) as (_ & _ & ->).
Qed.

#[global] Instance fs_contents : FileContents state.
Proof.
  refine {| file_open fl s := is_Some (fds s !! fd fl); file_bytes := bytes |}.
  - intros name flags perm f fl f'. apply openFile_ok.
  - intros name f fi fl f'. apply stat_open.
  - intros fl n off f [i Hi] Hn Ho. cbn. unfold readAt, bytes, content. by rewrite Hi.
  - intros fl data off f n f' [i Hi] Ho E. cbn in E. unfold writeAt, bytes, content in *. rewrite Hi in E |- *.
    injection E as <- <-. simpl. rewrite Hi. split; [done|]. split; [by eexists|]. simpl. by rewrite lookup_insert_eq.
  - done.
Defined.
Transparent walk.
End MemFS.
