(* ===== verification/Sessions.v ===== *)
(** * Connections, transfers and quota scans: serv/sftpd.go, serv/transfer.go
    and serv/lister.go

    The package variables of [serv] together with the disk, the data provider
    and the clock are the record [World]. A [*Transfer] is a key of the heap
    [transfers]; [activeTransfers] lists such keys. Times are nanoseconds.
    Locks guard whole functions, so each function is one state change. External
    effects (started commands, HTTP notifications, closed SSH connections) are
    recorded in the order they happen. *)
From Stdlib Require Import Ascii.
From stdpp Require Import base tactics option list strings gmap.
From Stdlib Require Import ZArith Lia.
From S2P Require Import Prelude GoOs GoPath GoStrconv DataProvider FileSystem.

Definition operationDownload : string := "download".
Definition operationUpload : string := "upload".
Definition operationDelete : string := "delete".
Definition operationRename : string := "rename".
Definition transferUpload : Z := 0.
Definition transferDownload : Z := 1.
Definition uploadModeStandard : Z := 0.
Definition uploadModeAtomic : Z := 1.

Record Connection := mkConnection {
  conn_ID : string;
  conn_User : User;
  ClientVersion : string;
  RemoteAddr : string;
  StartTime : Z;
  lastActivity : Z;
  protocol : string
}.

Record Transfer := mkTransfer {
  t_file : File;
  t_path : string;
  t_start : Z;
  t_bytesSent : Z;
  t_bytesReceived : Z;
  t_user : User;
  t_connectionID : string;
  t_transferType : Z;
  t_lastActivity : Z;
  t_isNewFile : bool;
  t_protocol : string
}.
Definition set_sent (t : Transfer) (now n : Z) : Transfer :=
  mkTransfer (t_file t) (t_path t) (t_start t) n (t_bytesReceived t) (t_user t)
    (t_connectionID t) (t_transferType t) now (t_isNewFile t) (t_protocol t).
Definition set_received (t : Transfer) (now n : Z) : Transfer :=
  mkTransfer (t_file t) (t_path t) (t_start t) (t_bytesSent t) n (t_user t)
    (t_connectionID t) (t_transferType t) now (t_isNewFile t) (t_protocol t).

Record ActiveQuotaScan := { qs_Username : string; qs_StartTime : Z }.
Record Actions := { ExecuteOn : list string; Command : string; HTTPNotificationURL : string }.

(** What leaves the process. *)
Inductive event :=
  | CommandStarted (operation username path target : string)
  | HTTPNotified (operation username path target : string)
  | ConnectionClosed (id : string).

(** The configuration variables; [url_Parse_ok] tells whether the configured
    notification URL parses, and [xid n] is the n-th generated guid. *)
Record ServConf := {
  dp_config : Config;
  uploadMode : Z;
  actions : Actions;
  idleTimeout : Z;
  url_Parse_ok : bool;
  xid : nat → string
}.

Record World {F P : Type} := mkWorld {
  disk : F;
  prov : P;
  clock : Z;
  openConnections : gmap string Connection;
  transfers : gmap nat Transfer;
  activeTransfers : list nat;
  activeQuotaScans : list ActiveQuotaScan;
  guids : nat;
  events : list event
}.
Arguments World : clear implicits.
Arguments mkWorld {F P} _ _ _ _ _ _ _ _ _.

Section world.
Context {F P : Type}.
Implicit Types w : World F P.
Definition set_disk (x : F) w : World F P := mkWorld x (prov w) (clock w) (openConnections w)
  (transfers w) (activeTransfers w) (activeQuotaScans w) (guids w) (events w).
Definition set_prov (x : P) w : World F P := mkWorld (disk w) x (clock w) (openConnections w)
  (transfers w) (activeTransfers w) (activeQuotaScans w) (guids w) (events w).
Definition set_clock (x : Z) w : World F P := mkWorld (disk w) (prov w) x (openConnections w)
  (transfers w) (activeTransfers w) (activeQuotaScans w) (guids w) (events w).
Definition set_connections (x : gmap string Connection) w : World F P := mkWorld (disk w) (prov w) (clock w) x
  (transfers w) (activeTransfers w) (activeQuotaScans w) (guids w) (events w).
Definition set_transfers (x : gmap nat Transfer) w : World F P := mkWorld (disk w) (prov w) (clock w)
  (openConnections w) x (activeTransfers w) (activeQuotaScans w) (guids w) (events w).
Definition set_activeTransfers (x : list nat) w : World F P := mkWorld (disk w) (prov w) (clock w)
  (openConnections w) (transfers w) x (activeQuotaScans w) (guids w) (events w).
Definition set_scans (x : list ActiveQuotaScan) w : World F P := mkWorld (disk w) (prov w) (clock w)
  (openConnections w) (transfers w) (activeTransfers w) x (guids w) (events w).
Definition set_guids (x : nat) w : World F P := mkWorld (disk w) (prov w) (clock w)
  (openConnections w) (transfers w) (activeTransfers w) (activeQuotaScans w) x (events w).
Definition emit (e : event) w : World F P := mkWorld (disk w) (prov w) (clock w)
  (openConnections w) (transfers w) (activeTransfers w) (activeQuotaScans w) (guids w) (events w ++ [e]).
End world.

(** [for i, v := range l]: the index of the first element that satisfies the
    test, and the removal used throughout: the last element takes its place. *)
Definition find_index {A} (test : A → bool) (l : list A) : option nat :=
  fst <$> list_find (λ x, test x = true) l.
Definition remove_at {A} (i : nat) (l : list A) : list A :=
  match last l with
  | Some x => take (length l - 1) (<[i := x]> l)
  | None => l
  end.

Section sftpd.
Context {F P : Type} `{FileSystem F, Provider P} (conf : ServConf).
Implicit Types w : World F P.

(** ** Connections *)
Definition addConnection (id : string) (conn : Connection) w : World F P :=
  set_connections (<[id := conn]> (openConnections w)) w.
Definition removeConnection (id : string) w : World F P :=
  set_connections (delete id (openConnections w)) w.
Definition touch_connection (now : Z) (c : Connection) : Connection :=
  mkConnection (conn_ID c) (conn_User c) (ClientVersion c) (RemoteAddr c) (StartTime c) now (protocol c).
Definition updateConnectionActivity (id : string) w : World F P :=
  match openConnections w !! id with
  | Some c => set_connections (<[id := touch_connection (clock w) c]> (openConnections w)) w
  | None => w
  end.
Definition connections w : list Connection := (map_to_list (openConnections w)).*2.
Definition getActiveSessions (username : string) w : Z :=
  zlen (filter (λ c, Username (conn_User c) = username) (connections w)).

(** The first connection with the id, in map order, is closed. *)
Definition CloseActiveConnection (connectionID : string) w : bool * World F P :=
  match find_index (λ c, bool_decide (conn_ID c = connectionID)) (connections w) with
  | Some _ => (true, emit (ConnectionClosed connectionID) w)
  | None => (false, w)
  end.

(** ** Quota scans *)
Definition GetQuotaScans w : list ActiveQuotaScan := activeQuotaScans w.
Definition scan_of (username : string) (s : ActiveQuotaScan) : bool := bool_decide (qs_Username s = username).
Definition AddQuotaScan (username : string) w : bool * World F P :=
  match find_index (scan_of username) (activeQuotaScans w) with
  | Some _ => (false, w)
  | None => (true, set_scans (activeQuotaScans w ++
      [{| qs_Username := username; qs_StartTime := GetTimeAsMsSinceEpoch (clock w) |}]) w)
  end.
Definition RemoveQuotaScan (username : string) w : option error * World F P :=
  match find_index (scan_of username) (activeQuotaScans w) with
  | Some i => (None, set_scans (remove_at i (activeQuotaScans w)) w)
  | None => (Some (EMsg ("quota scan to remove not found for user: " +:+ username)), w)
  end.

(** ** Transfers *)

(** Allocate a [Transfer] and register it. *)
Definition newTransfer (t : Transfer) w : nat * World F P :=
  let id := fresh (dom (transfers w)) in
  (id, set_transfers (<[id := t]> (transfers w)) w).
Definition addTransfer (id : nat) w : World F P :=
  set_activeTransfers (activeTransfers w ++ [id]) w.
Definition removeTransfer (id : nat) w : option error * World F P :=
  match find_index (λ v, bool_decide (v = id)) (activeTransfers w) with
  | Some i => (None, set_activeTransfers (remove_at i (activeTransfers w)) w)
  | None => (Some (EMsg "transfer to remove not found"), w)
  end.

(** ** Idle connections *)
Definition idle_time (w : World F P) (c : Connection) : Z :=
  fold_left (λ idle id,
      match transfers w !! id with
      | Some t => if bool_decide (t_connectionID t = conn_ID c)
                  then let ti := clock w - t_lastActivity t in if ti <? idle then ti else idle
                  else idle
      | None => idle
      end) (activeTransfers w) (clock w - lastActivity c).
Definition CheckIdleConnections w : World F P :=
  fold_left (λ w' c, if idleTimeout conf <? idle_time w c
                     then emit (ConnectionClosed (conn_ID c)) w' else w') (connections w) w.

(** ** Statistics *)
Record connectionTransfer := {
  ct_OperationType : string; ct_StartTime : Z; ct_Size : Z; ct_LastActivity : Z; ct_Path : string
}.
Record ConnectionStatus := {
  cs_Username : string; cs_ConnectionID : string; cs_ClientVersion : string; cs_RemoteAddress : string;
  cs_ConnectionTime : Z; cs_LastActivity : Z; cs_Protocol : string; cs_Transfers : list connectionTransfer
}.
Definition transfer_stats (c : Connection) (t : Transfer) : connectionTransfer :=
  let up := t_transferType t =? transferUpload in
  {| ct_OperationType := if up then operationUpload else operationDownload;
     ct_StartTime := GetTimeAsMsSinceEpoch (t_start t);
     ct_Size := if up then t_bytesReceived t else t_bytesSent t;
     ct_LastActivity := GetTimeAsMsSinceEpoch (t_lastActivity t);
     ct_Path := GetRelativePath (conn_User c) (t_path t) |}.
Definition connection_transfers (w : World F P) (c : Connection) : list Transfer :=
  filter (λ t, t_connectionID t = conn_ID c) (omap (λ id, transfers w !! id) (activeTransfers w)).
Definition connection_stats (w : World F P) (c : Connection) : ConnectionStatus :=
  let ts := connection_transfers w c in
  {| cs_Username := Username (conn_User c); cs_ConnectionID := conn_ID c;
     cs_ClientVersion := ClientVersion c; cs_RemoteAddress := RemoteAddr c;
     cs_ConnectionTime := GetTimeAsMsSinceEpoch (StartTime c);
     cs_LastActivity :=
       fold_left (λ la t, if lastActivity c <? t_lastActivity t
                          then GetTimeAsMsSinceEpoch (t_lastActivity t) else la)
                 ts (GetTimeAsMsSinceEpoch (lastActivity c));
     cs_Protocol := protocol c; cs_Transfers := map (transfer_stats c) ts |}.
Definition GetConnectionsStats w : list ConnectionStatus := map (connection_stats w) (connections w).

(** ** Actions

    [command.Start] is taken to succeed when the command exists. *)
Definition executeAction (operation username path target : string) w : World F P :=
  let a := actions conf in
  if negb (IsStringInSlice operation (ExecuteOn a)) then w
  else
    let w :=
      if negb (bool_decide (Command a = EmptyString)) && IsAbs (Command a) then
        match os_Stat (Command a) (disk w) with
        | Ok _ => emit (CommandStarted operation username path target) w
        | _ => w
        end
      else w in
    if negb (bool_decide (HTTPNotificationURL a = EmptyString)) && url_Parse_ok conf
    then emit (HTTPNotified operation username path target) w
    else w.

(** [dataprovider.UpdateUserQuota] on the world's provider, result ignored as
    the callers do. *)
Definition updateUserQuota (user : User) (files size : Z) (reset : bool) w : World F P :=
  set_prov (snd (UpdateUserQuota (dp_config conf) (clock w) user files size reset (prov w))) w.

(** [utils.SetPathPermissions]: errors are only logged. *)
Definition SetPathPermissions (path : string) (uid gid : Z) w : World F P :=
  set_disk (snd (os_Chown path uid gid (disk w))) w.

(** ** transfer.go *)

(** [handleThrottle]: sleeping moves the clock. Division truncates, the
    arithmetic is that of int64, and a negative duration does not sleep. *)
Definition throttle_sleep (t : Transfer) (now : Z) : Z :=
  let '(wantedBandwidth, trasferredBytes) :=
    if t_transferType t =? transferDownload then (DownloadBandwidth (t_user t), t_bytesSent t)
    else (UploadBandwidth (t_user t), t_bytesReceived t) in
  if 0 <? wantedBandwidth then
    let realElapsed := Z.quot (now - t_start t) 1000000 in
    let wantedElapsed := Z.quot (i64 (1000 * Z.quot trasferredBytes 1000)) wantedBandwidth in
    if realElapsed <? wantedElapsed then
      let toSleep := i64 (wantedElapsed - realElapsed) in i64 (toSleep * 1000000)
    else 0
  else 0.
Definition handleThrottle (t : Transfer) w : World F P :=
  set_clock (clock w + Z.max 0 (throttle_sleep t (clock w))) w.

Definition Transfer_ReadAt (id : nat) (n off : Z) w : (list byte * option error) * World F P :=
  match transfers w !! id with
  | None => (([], Some (ESyscall EBADF)), w)
  | Some t =>
      let '(data, e) := file_ReadAt (t_file t) n off (disk w) in
      let t := set_sent t (clock w) (i64 (t_bytesSent t + zlen data)) in
      ((data, e), handleThrottle t (set_transfers (<[id := t]> (transfers w)) w))
  end.

Definition Transfer_WriteAt (id : nat) (p : list byte) (off : Z) w : (Z * option error) * World F P :=
  match transfers w !! id with
  | None => ((0, Some (ESyscall EBADF)), w)
  | Some t =>
      let '((written, e), d) := file_WriteAt (t_file t) p off (disk w) in
      let w := set_disk d w in
      let t := set_received t (clock w) (i64 (t_bytesReceived t + written)) in
      ((written, e), handleThrottle t (set_transfers (<[id := t]> (transfers w)) w))
  end.

Definition Transfer_Close (id : nat) w : option error * World F P :=
  match transfers w !! id with
  | None => (Some (ESyscall EBADF), w)
  | Some t =>
      let '(err, d) := file_Close (t_file t) (disk w) in
      let '(err, d) :=
        if (t_transferType t =? transferUpload) && negb (bool_decide (file_Name (t_file t) = t_path t))
        then os_Rename (file_Name (t_file t)) (t_path t) d
        else (err, d) in
      let w := set_disk d w in
      let w := executeAction (if t_transferType t =? transferDownload then operationDownload
                              else operationUpload) (Username (t_user t)) (t_path t) EmptyString w in
      let '(_, w) := removeTransfer id w in
      let w := if t_transferType t =? transferUpload
               then updateUserQuota (t_user t) (if t_isNewFile t then 1 else 0) (t_bytesReceived t) false w
               else w in
      (err, w)
  end.

(** ** lister.go

    [ListAt(f, offset)] with [len(f) = n]. The wrapper [sftpFileInfo] keeps the
    name, size, mode and time of the entry but replaces [Sys()]. *)
Definition sftpFileInfo (fi : FileInfo) : FileInfo :=
  {| fi_Name := fi_Name fi; fi_Size := fi_Size fi; fi_Mode := fi_Mode fi; fi_ModTime := fi_ModTime fi;
     fi_Sys := None |}.
Definition listerAt_ListAt (l : list FileInfo) (n offset : Z) : list FileInfo * option error :=
  if zlen l <=? offset then ([], Some EOF)
  else
    let maxlen := if zlen l <? offset + n then zlen l else offset + n in
    let f := map sftpFileInfo (take (Z.to_nat (maxlen - offset)) (drop (Z.to_nat offset) l)) in
    if zlen f <? n then (f, Some EOF) else (f, None).

End sftpd.
#[global] Arguments updateUserQuota : simpl never.
#[global] Arguments executeAction : simpl never.

(** ** Removing by swapping with the last element *)
Lemma remove_at_perm {A} (l : list A) i x : l !! i = Some x → l ≡ₚ x :: remove_at i l.
Proof.
  intros Hi. unfold remove_at. destruct (last l) as [y|] eqn:Hl;
    [|apply last_None in Hl; by subst].
  apply last_Some in Hl as [k ->]. rewrite length_app. simpl.
  replace (length k + 1 - 1)%nat with (length k) by lia.
  apply lookup_app_Some in Hi as [Hi|[Hle Hi]].
  - pose proof (lookup_lt_Some _ _ _ Hi). rewrite insert_app_l by done.
    rewrite take_app_le by (rewrite length_insert; lia). rewrite take_ge by (rewrite length_insert; lia).
    rewrite (insert_take_drop k i y) by done.
    rewrite <- (take_drop_middle k i x) at 1 by done. solve_Permutation.
  - apply list_lookup_singleton_Some in Hi as [Hi ->].
    replace i with (length k) by lia. rewrite insert_app_r_alt by lia.
    replace (length k - length k)%nat with 0%nat by lia. simpl.
    rewrite take_app_length. solve_Permutation.
Qed.

Lemma find_index_Some {A} (f : A → bool) l i :
  find_index f l = Some i → ∃ x, l !! i = Some x ∧ f x = true.
Proof.
  unfold find_index. destruct (list_find _ l) as [[j x]|] eqn:E; intros [= <-].
  apply list_find_Some in E as (? & ? & _). by exists x.
Qed.
Lemma find_index_None {A} (f : A → bool) l :
  find_index f l = None → ∀ x, x ∈ l → f x = false.
Proof.
  unfold find_index. destruct (list_find _ l) as [[j x]|] eqn:E; [done|]. intros _ x Hx.
  apply list_find_None in E. rewrite Forall_forall in E. by apply not_true_is_false, E.
Qed.
Lemma find_index_elem {A} (f : A → bool) l x :
  x ∈ l → f x = true → ∃ i, find_index f l = Some i.
Proof.
  intros Hx Hf. destruct (find_index f l) eqn:E; [by eexists|].
  rewrite (find_index_None f l E x Hx) in Hf. done.
Qed.

Section sessions_spec.
Context {F P : Type} `{FileSystem F, Provider P} (conf : ServConf).
Implicit Types w : World F P.

(** ** Quota scans *)
Definition scan_names w : list string := qs_Username <$> activeQuotaScans w.

Lemma AddQuotaScan_spec u w :
  let '(ok, w') := AddQuotaScan u w in
  if ok then u ∉ scan_names w ∧ scan_names w' = scan_names w ++ [u]
  else u ∈ scan_names w ∧ w' = w.
Proof.
  unfold AddQuotaScan, scan_names. destruct (find_index _ _) as [i|] eqn:E.
  - apply find_index_Some in E as (x & Hx & Hu%bool_decide_eq_true). split; [|done].
    rewrite <- Hu. apply list_elem_of_fmap_2. by eapply list_elem_of_lookup_2.
  - split; [|by simpl; rewrite fmap_app]. intros (x & -> & Hx)%list_elem_of_fmap.
    pose proof (find_index_None _ _ E x Hx) as Hf. by apply bool_decide_eq_false in Hf.
Qed.

Lemma RemoveQuotaScan_spec u w :
  let '(err, w') := RemoveQuotaScan u w in
  match err with
  | None => scan_names w ≡ₚ u :: scan_names w'
  | Some _ => u ∉ scan_names w ∧ w' = w
  end.
Proof.
  unfold RemoveQuotaScan, scan_names. destruct (find_index _ _) as [i|] eqn:E.
  - apply find_index_Some in E as (x & Hx & Hu%bool_decide_eq_true). simpl.
    rewrite (remove_at_perm _ _ _ Hx) at 1. csimpl. by rewrite Hu.
  - split; [|done]. intros (x & -> & Hx)%list_elem_of_fmap.
    pose proof (find_index_None _ _ E x Hx) as Hf. by apply bool_decide_eq_false in Hf.
Qed.

Inductive scan_op := ScanAdd (u : string) | ScanRemove (u : string).
Definition scan_step w (op : scan_op) : World F P :=
  match op with
  | ScanAdd u => snd (AddQuotaScan u w)
  | ScanRemove u => snd (RemoveQuotaScan u w)
  end.

Lemma scan_step_nodup w op : NoDup (scan_names w) → NoDup (scan_names (scan_step w op)).
Proof.
  intros Hn. destruct op as [u|u]; simpl.
  - pose proof (AddQuotaScan_spec u w) as Ha. destruct (AddQuotaScan u w) as [[] w']; simpl in *.
    + destruct Ha as [Hu ->]. apply NoDup_app. split_and!; [done| |apply NoDup_singleton].
      intros x Hx ->%list_elem_of_singleton. done.
    + by destruct Ha as [_ ->].
  - pose proof (RemoveQuotaScan_spec u w) as Ha. destruct (RemoveQuotaScan u w) as [[e|] w']; simpl in *.
    + by destruct Ha as [_ ->].
    + rewrite Ha in Hn. by apply NoDup_cons in Hn as [_ ?].
Qed.

(** Quota scans exclude each other per user: after any history of starts
    and ends there is at most one running scan per user, a start succeeds
    exactly when the user has none, and ending a running scan makes room for
    the next one. *)
Theorem quota_scans_exclusive w ops u :
  activeQuotaScans w = [] →
  let w' := foldl scan_step w ops in
  NoDup (scan_names w') ∧
  (fst (AddQuotaScan u w') = true ↔ u ∉ scan_names w') ∧
  (u ∈ scan_names w' → fst (AddQuotaScan u (snd (RemoveQuotaScan u w'))) = true).
Proof.
  intros Hemp w'.
  assert (Hn : NoDup (scan_names w')).
  { unfold w'. assert (Hw : NoDup (scan_names w)) by (unfold scan_names; rewrite Hemp; constructor).
    clear w' Hemp. revert w Hw. induction ops as [|op ops IH]; intros w Hw; [done|]. simpl.
    by apply IH, scan_step_nodup. }
  clearbody w'. split; [done|]. split.
  - pose proof (AddQuotaScan_spec u w') as Ha. destruct (AddQuotaScan u w') as [[] w2]; simpl; naive_solver.
  - intros Hu. pose proof (RemoveQuotaScan_spec u w') as Hr.
    destruct (RemoveQuotaScan u w') as [[e|] w2]; simpl in *; [naive_solver|].
    pose proof (AddQuotaScan_spec u w2) as Ha. destruct (AddQuotaScan u w2) as [[] w3]; [done|]. simpl.
    destruct Ha as [Ha _]. rewrite Hr in Hn. by apply NoDup_cons in Hn as [? _].
Qed.

(** ** Throttling *)

(** The limit in kilobytes per second, which is bytes per millisecond, and what
    has been transferred so far. *)
Definition limit (t : Transfer) : Z :=
  if t_transferType t =? transferDownload then DownloadBandwidth (t_user t) else UploadBandwidth (t_user t).
Definition moved (t : Transfer) : Z :=
  if t_transferType t =? transferDownload then t_bytesSent t else t_bytesReceived t.

Lemma quot_add a k : 0 <= a → 0 <= k → Z.quot (a + k * 1000000) 1000000 = Z.quot a 1000000 + k.
Proof. intros. rewrite !Z.quot_div_nonneg, Z.div_add by lia. done. Qed.

(** The wanted time, rounded down twice, against what was transferred. *)
Lemma wanted_bounds bytes rate : 0 <= bytes → 0 < rate →
  let wanted := Z.quot (1000 * Z.quot bytes 1000) rate in
  0 <= wanted ∧ rate * wanted <= bytes ∧ bytes < rate * (wanted + 1) + 1000.
Proof.
  intros Hb Hr wanted. unfold wanted. pose proof (Z.div_mod bytes 1000 ltac:(lia)).
  pose proof (Z.mod_pos_bound bytes 1000 ltac:(lia)). assert (0 <= bytes / 1000) by (apply Z.div_pos; lia).
  rewrite (Z.quot_div_nonneg bytes 1000), (Z.quot_div_nonneg (1000 * _) rate) by lia.
  set (k := 1000 * (bytes / 1000)) in *. pose proof (Z.div_mod k rate ltac:(lia)).
  pose proof (Z.mod_pos_bound k rate Hr). assert (0 <= k / rate) by (apply Z.div_pos; lia). split_and!; nia.
Qed.

Lemma throttle_sleep_ok t now :
  0 < limit t → 0 <= moved t < 2 ^ 63 → t_start t <= now → moved t / limit t * 1000000 < 2 ^ 63 →
  throttle_sleep t now
  = Z.max 0 (Z.quot (1000 * Z.quot (moved t) 1000) (limit t) - Z.quot (now - t_start t) 1000000) * 1000000.
Proof.
  intros Hr Hb Hs Hn. unfold throttle_sleep. fold (limit t) (moved t).
  replace (if t_transferType t =? transferDownload then (DownloadBandwidth (t_user t), t_bytesSent t)
           else (UploadBandwidth (t_user t), t_bytesReceived t)) with (limit t, moved t)
    by (unfold limit, moved; by destruct (t_transferType t =? transferDownload)).
  rewrite (proj2 (Z.ltb_lt _ _)) by done.
  destruct (wanted_bounds (moved t) (limit t)) as (Hw0 & Hw1 & Hw2); [lia..|].
  pose proof (Z.quot_pos (now - t_start t) 1000000 ltac:(lia) ltac:(lia)) as He.
  assert (1000 * Z.quot (moved t) 1000 <= moved t).
  { rewrite Z.quot_div_nonneg by lia. pose proof (Z.mul_div_le (moved t) 1000 ltac:(lia)). lia. }
  pose proof (Z.quot_pos (moved t) 1000 ltac:(lia) ltac:(lia)).
  rewrite (i64_id (1000 * _)) by (split; lia). revert Hw0 Hw1 Hw2 He.
  set (wanted := Z.quot (1000 * _) (limit t)). set (real := Z.quot (now - _) _). intros.
  assert (wanted <= moved t / limit t) by (apply Z.div_le_lower_bound; lia).
  destruct (Z.ltb_spec real wanted); [|lia].
  rewrite (i64_id (wanted - real)) by (split; lia). rewrite i64_id by (split; lia). lia.
Qed.

Lemma handleThrottle_ok t w :
  0 < limit t → 0 <= moved t < 2 ^ 63 → t_start t <= clock w → moved t / limit t * 1000000 < 2 ^ 63 →
  let w' := handleThrottle t w in
  let ms := Z.quot (clock w' - t_start t) 1000000 in
  clock w <= clock w' ∧ moved t < limit t * (ms + 1) + 1000 ∧ (clock w' ≠ clock w → limit t * ms <= moved t).
Proof.
  intros Hr Hb Hs Hn w' ms.
  destruct (wanted_bounds (moved t) (limit t)) as (Hw0 & Hw1 & Hw2); [lia..|].
  pose proof (Z.quot_pos (clock w - t_start t) 1000000 ltac:(lia) ltac:(lia)) as He.
  unfold ms, w', handleThrottle. cbn [clock set_clock]. rewrite throttle_sleep_ok by done. revert Hw0 Hw1 Hw2 He.
  set (wanted := Z.quot (1000 * _) (limit t)). intros.
  set (real := Z.quot (clock w - t_start t) 1000000) in *. rewrite (Z.max_r 0) by lia.
  replace (clock w + Z.max 0 (wanted - real) * 1000000 - t_start t)
    with ((clock w - t_start t) + Z.max 0 (wanted - real) * 1000000) by lia.
  rewrite quot_add by lia. fold real. split_and!; [lia|nia|]. intros Hne.
  assert (0 < wanted - real) by lia. rewrite Z.max_r by lia. replace (real + (wanted - real)) with wanted by lia. done.
Qed.

(** C37: Throttling keeps a transfer within its bandwidth. When a read or a
    write of a transfer with a limit returns, the bytes transferred so far are
    fewer than the limit (bytes per millisecond) allows for the milliseconds
    elapsed since the start of the transfer and one more, plus 1000: whole
    kilobytes and whole milliseconds are counted, so up to that much may be
    ahead. The call does not sleep longer than needed: if it slept, the elapsed
    milliseconds at the limit are at most what was transferred. Without a limit
    it does not sleep. The bytes fit in an int64, and the time they need at the
    limit is below 2^63 nanoseconds, beyond which the duration would wrap. *)
Theorem throttle_enforces_bandwidth id w w' t' :
  (∃ n off x, Transfer_ReadAt id n off w = (x, w')) ∨ (∃ data off x, Transfer_WriteAt id data off w = (x, w')) →
  transfers w' !! id = Some t' →
  let ms := Z.quot (clock w' - t_start t') 1000000 in
  (limit t' <= 0 → clock w' = clock w) ∧
  (0 < limit t' → 0 <= moved t' < 2 ^ 63 → t_start t' <= clock w → moved t' / limit t' * 1000000 < 2 ^ 63 →
     clock w <= clock w' ∧ moved t' < limit t' * (ms + 1) + 1000
     ∧ (clock w' ≠ clock w → limit t' * ms <= moved t')).
Proof.
  intros E Ht'.
  assert (∃ w1, clock w1 = clock w ∧ transfers w1 !! id = Some t' ∧ w' = handleThrottle t' w1) as (w1 & <- & Ht1 & ->).
  { destruct E as [(n & off & x & E)|(data & off & x & E)].
    - unfold Transfer_ReadAt in E. destruct (transfers w !! id) as [t|] eqn:Ht; [|injection E as <- <-; congruence].
      destruct (file_ReadAt _ _ _ _) as [data e]. injection E as <- <-. simpl in Ht'. rewrite lookup_insert_eq in Ht'.
      injection Ht' as <-. eexists. split; [|split; [|done]]; [done|]. simpl. by rewrite lookup_insert_eq.
    - unfold Transfer_WriteAt in E. destruct (transfers w !! id) as [t|] eqn:Ht; [|injection E as <- <-; congruence].
      destruct (file_WriteAt _ _ _ _) as [[n e] d]. injection E as <- <-. simpl in Ht'. rewrite lookup_insert_eq in Ht'.
      injection Ht' as <-. eexists. split; [|split; [|done]]; [done|]. simpl. by rewrite lookup_insert_eq. }
  split; [|by apply handleThrottle_ok].
  intros Hl. unfold handleThrottle, throttle_sleep. simpl. unfold limit in Hl.
  destruct (t_transferType t' =? transferDownload); rewrite (proj2 (Z.ltb_ge _ _)) by done; lia.
Qed.
End sessions_spec.

(** ** Accounting of uploads *)
Section accounting.
Context {F P : Type} `{FSS : FileSystemSpec F, PS : ProviderSpec P} (conf : ServConf).
Implicit Types w : World F P.

(** A sequence of writes to a transfer and the byte counts they report. *)
Fixpoint write_all (id : nat) (chunks : list (list byte * Z)) w : list Z * World F P :=
  match chunks with
  | [] => ([], w)
  | (data, off) :: chunks =>
      let '((n, _), w) := Transfer_WriteAt id data off w in
      let '(ns, w) := write_all id chunks w in (n :: ns, w)
  end.
Definition sum_list_Z (l : list Z) : Z := foldr Z.add 0 l.

(** What a write leaves alone. *)
Definition same_books (w w' : World F P) : Prop :=
  prov w' = prov w ∧ activeTransfers w' = activeTransfers w
  ∧ openConnections w' = openConnections w ∧ events w' = events w.

Lemma Transfer_WriteAt_spec id data off w t n e w' :
  transfers w !! id = Some t → Transfer_WriteAt id data off w = ((n, e), w') →
  same_books w w' ∧ 0 <= n ∧
  transfers w' !! id = Some (set_received t (clock w) (i64 (t_bytesReceived t + n))).
Proof.
  intros Ht E. unfold Transfer_WriteAt in E. rewrite Ht in E.
  destruct (file_WriteAt _ _ _ _) as [[n' e'] d] eqn:Ef. simplify_eq.
  apply file_WriteAt_bound in Ef. split; [done|]. split; [lia|]. simpl. apply lookup_insert_eq.
Qed.

Lemma write_all_spec id chunks w t ns w' :
  transfers w !! id = Some t → write_all id chunks w = (ns, w') →
  0 <= t_bytesReceived t → t_bytesReceived t + sum_list_Z ns < 2 ^ 63 →
  same_books w w' ∧ 0 <= sum_list_Z ns ∧
  ∃ la, transfers w' !! id = Some (set_received t la (t_bytesReceived t + sum_list_Z ns)).
Proof.
  revert w t ns. induction chunks as [|[data off] chunks IH]; intros w t ns Ht E Hr Hs; simpl in E.
  { simplify_eq. simpl in *. split; [done|]. split; [done|]. exists (t_lastActivity t).
    rewrite Z.add_0_r. by destruct t. }
  destruct (Transfer_WriteAt id data off w) as [[n e] w1] eqn:E1.
  destruct (write_all id chunks w1) as [ns1 w2] eqn:E2. simplify_eq.
  apply (Transfer_WriteAt_spec _ _ _ _ t) in E1 as ((? & ? & ? & ?) & Hn & Ht1); [|done]. simpl in Hs.
  assert (Hpos : 0 <= sum_list_Z ns1).
  { clear -E2 FSS. revert w1 ns1 E2. induction chunks as [|[data off] chunks IH]; intros w1 ns1 E2; simpl in E2.
    - by simplify_eq.
    - destruct (Transfer_WriteAt id data off w1) as [[n e] w3] eqn:E3.
      destruct (write_all id chunks w3) as [ns3 w4] eqn:E4. simplify_eq. apply IH in E4. simpl.
      unfold Transfer_WriteAt in E3. destruct (transfers w1 !! id); [|simplify_eq; lia].
      destruct (file_WriteAt _ _ _ _) as [[n' e'] d] eqn:Ef. simplify_eq.
      apply file_WriteAt_bound in Ef. lia. }
  rewrite i64_id in Ht1 by (split; lia).
  destruct (IH _ _ _ Ht1 E2) as ((? & ? & ? & ?) & _ & la & Ht2); [simpl; lia|simpl; lia|].
  split; [unfold same_books; split_and!; congruence|]. simpl. split; [lia|]. exists la.
  rewrite Ht2. simpl. by rewrite Z.add_assoc.
Qed.

Lemma executeAction_books op u p t w :
  prov (executeAction conf op u p t w) = prov w ∧
  activeTransfers (executeAction conf op u p t w) = activeTransfers w ∧
  disk (executeAction conf op u p t w) = disk w ∧ clock (executeAction conf op u p t w) = clock w ∧
  transfers (executeAction conf op u p t w) = transfers w ∧
  openConnections (executeAction conf op u p t w) = openConnections w.
Proof. unfold executeAction. by repeat case_match. Qed.

Lemma removeTransfer_spec id w :
  id ∈ activeTransfers w →
  ∃ w', removeTransfer id w = (None, w') ∧ activeTransfers w ≡ₚ id :: activeTransfers w'
    ∧ prov w' = prov w ∧ clock w' = clock w ∧ disk w' = disk w ∧ transfers w' = transfers w.
Proof.
  intros Hid. unfold removeTransfer.
  destruct (find_index_elem (λ v, bool_decide (v = id)) (activeTransfers w) id Hid) as [i E];
    [by apply bool_decide_eq_true|].
  rewrite E. eexists. split; [done|]. split; [|done].
  apply find_index_Some in E as (x & Hx & ->%bool_decide_eq_true). simpl. by apply remove_at_perm.
Qed.

(** The documented choices of track_quota (README): 0 keeps no account, 1
    accounts every user, 2 the users with a quota restriction. *)
Definition tracks_quota (user : User) : bool :=
  (TrackQuota (dp_config conf) =? 1) || ((TrackQuota (dp_config conf) =? 2) && HasQuotaRestrictions user).

Lemma updateUserQuota_spec user f z w :
  0 <= TrackQuota (dp_config conf) <= 2 → pinv (prov w) → quota_fits f z false (contents (prov w) !! Username user) →
  pinv (prov (updateUserQuota conf user f z false w)) ∧
  contents (prov (updateUserQuota conf user f z false w))
  = if tracks_quota user then alter (quota_updated (clock w) f z false) (Username user) (contents (prov w))
    else contents (prov w).
Proof.
  intros Ht Hp Hq. unfold updateUserQuota, UpdateUserQuota, tracks_quota.
  destruct (updateQuota_spec (prov w) (clock w) (Username user) f z false Hp Hq) as (err & s' & E & ? & Hc & _).
  assert (TrackQuota (dp_config conf) = 0 ∨ TrackQuota (dp_config conf) = 1 ∨ TrackQuota (dp_config conf) = 2)
    as [Hm|[Hm|Hm]] by lia; rewrite Hm; simpl; [done|by rewrite E|].
  destruct (HasQuotaRestrictions user); [by rewrite E|done].
Qed.

(** The bookkeeping of [Close]. *)
Lemma Transfer_Close_upload id w t :
  transfers w !! id = Some t → t_transferType t = transferUpload → id ∈ activeTransfers w →
  0 <= TrackQuota (dp_config conf) <= 2 → pinv (prov w) →
  quota_fits (if t_isNewFile t then 1 else 0) (t_bytesReceived t) false (contents (prov w) !! Username (t_user t)) →
  let w' := snd (Transfer_Close conf id w) in
  pinv (prov w') ∧ activeTransfers w ≡ₚ id :: activeTransfers w' ∧
  contents (prov w') =
    if tracks_quota (t_user t)
    then alter (quota_updated (clock w) (if t_isNewFile t then 1 else 0) (t_bytesReceived t) false)
           (Username (t_user t)) (contents (prov w))
    else contents (prov w).
Proof.
  intros Ht Hty Hid Htq Hp Hq w'. unfold w', Transfer_Close. rewrite Ht.
  destruct (file_Close _ _) as [e1 d1].
  match goal with |- context [let '(_, _) := ?x in _] => destruct x as [e2 d2] end.
  set (w1 := executeAction _ _ _ _ _ _).
  destruct (executeAction_books (if t_transferType t =? transferDownload then operationDownload
    else operationUpload) (Username (t_user t)) (t_path t) EmptyString (set_disk d2 w))
    as (Hpr & Hat & _ & Hcl & _). fold w1 in Hpr, Hat, Hcl. simpl in Hpr, Hat, Hcl.
  destruct (removeTransfer_spec id w1) as (w2 & -> & Hperm & Hp2 & Hc2 & _); [by rewrite Hat|].
  rewrite Hty. change (transferUpload =? transferUpload) with true. cbv iota. cbn [snd].
  destruct (updateUserQuota_spec (t_user t) (if t_isNewFile t then 1 else 0) (t_bytesReceived t) w2)
    as [? Hc]; [done|by rewrite Hp2, Hpr..|].
  split; [done|]. split; [by rewrite <- Hperm, Hat|]. by rewrite Hc, Hc2, Hcl, Hp2, Hpr.
Qed.

(** C21: An upload is accounted exactly, and only when the configuration says
    so. After any sequence of writes to a registered upload and its [Close], the
    transfer is no longer active; if quota is tracked for the user
    (track_quota 1, or 2 and the user has a quota restriction), the used size of
    the user has grown by the number of bytes the writes reported and the number
    of files by one exactly when the file is new; if it is not, no account has
    changed. No other user's account changes in either case. *)
Theorem upload_accounted id chunks w t u ns w1 :
  transfers w !! id = Some t → t_transferType t = transferUpload → t_bytesReceived t = 0 →
  id ∈ activeTransfers w → 0 <= TrackQuota (dp_config conf) <= 2 → pinv (prov w) →
  contents (prov w) !! Username (t_user t) = Some u →
  write_all id chunks w = (ns, w1) →
  sum_list_Z ns < 2 ^ 63 → is_i64 (UsedQuotaSize u + sum_list_Z ns) → is_i64 (UsedQuotaFiles u + 1) →
  is_i64 (UsedQuotaFiles u) →
  let w2 := snd (Transfer_Close conf id w1) in
  activeTransfers w ≡ₚ id :: activeTransfers w2 ∧
  (tracks_quota (t_user t) = true →
     ∃ u', contents (prov w2) !! Username (t_user t) = Some u'
       ∧ UsedQuotaSize u' = UsedQuotaSize u + sum_list_Z ns
       ∧ UsedQuotaFiles u' = UsedQuotaFiles u + (if t_isNewFile t then 1 else 0)) ∧
  (tracks_quota (t_user t) = false → contents (prov w2) = contents (prov w)) ∧
  (∀ n, n ≠ Username (t_user t) → contents (prov w2) !! n = contents (prov w) !! n).
Proof.
  intros Ht Hty Hr Hid Htq Hp Hu E Hs Hsz Hf Hf0 w2.
  destruct (write_all_spec id chunks w t ns w1) as ((Hpr & Hat & _) & _ & la & Ht1); [done..|lia|lia|].
  destruct (Transfer_Close_upload id w1 _ Ht1) as (_ & Hperm & Hc);
    [done|by rewrite Hat|done|by rewrite Hpr| |].
  { intros v Hv _. simpl in *. rewrite Hpr, Hu in Hv. injection Hv as <-. rewrite Hr.
    split; [done|]. by destruct (t_isNewFile t); [|rewrite Z.add_0_r]. }
  simpl in Hc. rewrite Hpr in Hc. fold w2 in Hperm, Hc. split; [by rewrite <- Hat|]. rewrite Hc.
  destruct (tracks_quota (t_user t)); [|done]. split_and!; [intros _|done|].
  - rewrite lookup_alter_eq, Hu. simpl. eexists. split; [done|]. simpl. rewrite Hr, Z.add_0_l.
    split; [by apply i64_id|]. apply i64_id. by destruct (t_isNewFile t); [|rewrite Z.add_0_r].
  - intros n Hn. by rewrite lookup_alter_ne.
Qed.
End accounting.
