(* ===== verification/FileHandler.v ===== *)
(** * The SFTP handlers of an authenticated user: serv/filehandler.go, with
    [ScanDirContents] of utils/utils.go

    The methods of [Connection] act on the [World]; they implement the
    [Handlers] interface of the request server, with transfers as the open
    objects and slices of [FileInfo] as listers. *)
From Stdlib Require Import Ascii.
From stdpp Require Import base tactics option list strings gmap.
From Stdlib Require Import ZArith Lia.
From S2P Require Import Prelude GoOs SftpWire SftpPackets GoPath GoStrconv RequestServer.
From S2P Require Import DataProvider BoltProvider FileSystem Sessions.

Definition ErrSshFxOk : error := EFx sshFxOk.
Definition ErrSshFxNoSuchFile : error := EFx sshFxNoSuchFile.
Definition ErrSshFxPermissionDenied : error := EFx sshFxPermissionDenied.
Definition ErrSshFxFailure : error := EFx sshFxFailure.
Definition ErrSshFxOpUnsupported : error := EFx sshFxOPUnsupported.

Definition err_of {A} (r : result A) : option error :=
  match r with Err e => Some e | _ => None end.

Section handler.
Context {F P : Type} `{FileSystem F, Provider P} (conf : ServConf) (c : Connection).
Implicit Types (w : World F P) (d : F).

Abbreviation user := (conn_User c).

(** ** Paths *)
Definition isSubDir (sub : string) d : option error :=
  match EvalSymlinks (HomeDir user) d with
  | Ok parent =>
      if strings_HasPrefix sub parent then None
      else Some (EMsg ("dir " +:+ sub +:+ " is not inside: " +:+ parent))
  | Err e => Some e
  | Panic => Some (EMsg "panic")
  end.

(** The loop of [findNonexistentDirs]; [None] when it does not end within the
    fuel. *)
Fixpoint climb (fuel : nat) (parent : string) (results : list string) d
  : option (list string * string * option error) :=
  let err := err_of (os_Stat parent d) in
  if os_IsNotExist err then
    match fuel with
    | O => None
    | S fuel => climb fuel (GoPath.Dir parent) (results ++ [parent]) d
    end
  else Some (results, parent, err).

(** A loop that does not end is a [Panic]; for absolute paths it always ends,
    see [findNonexistentDirs_terminates]. *)
Definition findNonexistentDirs (path : string) d : result (list string) :=
  let cleanPath := Clean path in
  match climb (length (strings_Split cleanPath slash)) (GoPath.Dir cleanPath) [] d with
  | None => Panic
  | Some (_, _, Some err) => Err err
  | Some (results, parent, None) =>
      p ← EvalSymlinks parent d;
      match isSubDir p d with
      | Some e => Err e
      | None => Ok results
      end
  end.

Definition findFirstExistingDir (path : string) d : result string :=
  results ← findNonexistentDirs path d;
  let parent := match last results with
                | Some lastMissingDir => GoPath.Dir lastMissingDir
                | None => GetHomeDir user
                end in
  p ← EvalSymlinks parent d;
  fileInfo ← os_Stat p d;
  if negb (fi_IsDir fileInfo) then Err (EMsg ("resolved path is not a dir: " +:+ p))
  else match isSubDir p d with
       | Some e => Err e
       | None => Ok p
       end.

Definition buildPath (rawPath : string) d : result string :=
  let r := Clean (Join [HomeDir user; rawPath]) in
  match EvalSymlinks r d with
  | Err e =>
      if os_IsNotExist (Some e) then
        match findFirstExistingDir r d with
        | Ok _ => Ok r
        | Err e => Err e
        | Panic => Panic
        end
      else Err e
  | Panic => Panic
  | Ok p => match isSubDir p d with Some e => Err e | None => Ok r end
  end.

Definition getSFTPCmdTargetPath (requestTarget : string) d : result string :=
  if bool_decide (requestTarget = EmptyString) then Ok EmptyString
  else match buildPath requestTarget d with
       | Ok t => Ok t
       | _ => Err ErrSshFxOpUnsupported
       end.

(** The temporary name of an atomic upload. *)
Definition getUploadTempFilePath (path : string) w : string * World F P :=
  (Join [GoPath.Dir path; ".sftpgo-upload." +:+ xid conf (guids w) +:+ "." +:+ Base path],
   set_guids (S (guids w)) w).

(** ** Directories *)
Fixpoint mkdirs (l : list string) w : option error * World F P :=
  match l with
  | [] => (None, w)
  | dir :: l =>
      let '(err, d) := os_Mkdir dir 0x1ff (disk w) in
      let w := set_disk d w in
      match err with
      | Some e => (Some e, w)
      | None => mkdirs l (SetPathPermissions dir (GetUID user) (GetGID user) w)
      end
  end.
Definition createMissingDirs (filePath : string) w : option error * World F P :=
  match findNonexistentDirs filePath (disk w) with
  | Ok dirsToCreate => mkdirs (rev dirsToCreate) w
  | Err e => (Some e, w)
  | Panic => (Some (EMsg "no end"), w)
  end.

(** [utils.ScanDirContents]: number and total size of the regular files below
    a directory, and their paths. *)
Definition ScanDirContents (path : string) d : result (Z * Z * list string) :=
  fi ← os_Stat path d;
  if fi_IsDir fi then
    entries ← Walk path d;
    let files := filter (λ e, mode_IsRegular (fi_Mode e.2) = true) entries in
    Ok (zlen files, foldl (λ size e, i64 (size + fi_Size e.2)) 0 files, files.*1)
  else Ok (0, 0, []).

(** ** Quota *)
Definition hasSpace (checkFiles : bool) w : bool :=
  if (checkFiles && (0 <? QuotaFiles user)) || (0 <? QuotaSize user) then
    match GetUsedQuota (dp_config conf) (Username user) (prov w) with
    | Err (MethodDisabledError _) => true
    | Err _ | Panic => false
    | Ok (numFile, size) =>
        negb ((checkFiles && (0 <? QuotaFiles user) && (QuotaFiles user <=? numFile))
              || ((0 <? QuotaSize user) && (QuotaSize user <=? size)))
    end
  else true.

(** ** Commands *)
Definition handleSFTPRename (sourcePath targetPath : string) w : option error * World F P :=
  if negb (HasPerm user PermRename) then (Some ErrSshFxPermissionDenied, w)
  else
    let '(err, d) := os_Rename sourcePath targetPath (disk w) in
    let w := set_disk d w in
    match err with
    | Some _ => (Some ErrSshFxFailure, w)
    | None => (None, executeAction conf operationRename (Username user) sourcePath targetPath w)
    end.

Definition handleSFTPRmdir (path : string) w : option error * World F P :=
  if negb (HasPerm user PermDelete) then (Some ErrSshFxPermissionDenied, w)
  else match ScanDirContents path (disk w) with
  | Err _ | Panic => (Some ErrSshFxFailure, w)
  | Ok (numFiles, size, fileList) =>
      let '(err, d) := os_RemoveAll path (disk w) in
      let w := set_disk d w in
      match err with
      | Some _ => (Some ErrSshFxFailure, w)
      | None =>
          let w := updateUserQuota conf user (- numFiles) (i64 (- size)) false w in
          (Some ErrSshFxOk,
           foldl (λ w p, executeAction conf operationDelete (Username user) p EmptyString w) w fileList)
      end
  end.

Definition handleSFTPSymlink (sourcePath targetPath : string) w : option error * World F P :=
  if negb (HasPerm user PermCreateSymlinks) then (Some ErrSshFxPermissionDenied, w)
  else
    let '(err, d) := os_Symlink sourcePath targetPath (disk w) in
    (match err with Some _ => Some ErrSshFxFailure | None => None end, set_disk d w).

Definition handleSFTPMkdir (path : string) w : option error * World F P :=
  if negb (HasPerm user PermCreateDirs) then (Some ErrSshFxPermissionDenied, w)
  else
    let '(err, w) := createMissingDirs (Join [path; "testfile"%string]) w in
    (match err with Some _ => Some ErrSshFxFailure | None => None end, w).

Definition handleSFTPRemove (path : string) w : option error * World F P :=
  if negb (HasPerm user PermDelete) then (Some ErrSshFxPermissionDenied, w)
  else match os_Lstat path (disk w) with
  | Err _ | Panic => (Some ErrSshFxFailure, w)
  | Ok fi =>
      let size := fi_Size fi in
      let '(err, d) := os_Remove path (disk w) in
      let w := set_disk d w in
      match err with
      | Some _ => (Some ErrSshFxFailure, w)
      | None =>
          let w := if negb (has_bits (fi_Mode fi) ModeSymlink)
                   then updateUserQuota conf user (-1) (i64 (- size)) false w else w in
          (Some ErrSshFxOk, executeAction conf operationDelete (Username user) path EmptyString w)
      end
  end.

Definition handleSFTPSetstat {obj lister} (filePath : string) (request : Request obj lister) w
  : option error * World F P :=
  let attrFlags := AttrFlags request in
  let attrs := match Attributes request with
               | Ok fs => fs
               | _ => {| fs_Size := 0; fs_Mode := 0; fs_Mtime := 0; fs_Atime := 0; fs_UID := 0;
                         fs_GID := 0; fs_Extended := [] |}
               end in
  let finish (res : option error * F) :=
    let '(err, d) := res in
    (match err with Some _ => Some ErrSshFxFailure | None => None end, set_disk d w) in
  if af_Permissions attrFlags then finish (os_Chmod filePath (fs_Mode attrs) (disk w))
  else if af_UidGid attrFlags then finish (os_Chown filePath (fs_UID attrs) (fs_GID attrs) (disk w))
  else if af_Acmodtime attrFlags then
    finish (os_Chtimes filePath (fs_Atime attrs * 1000000000) (fs_Mtime attrs * 1000000000) (disk w))
  else (None, w).

(** ** Uploads *)
Definition new_transfer (file : File) (path : string) (ty : Z) (isNew : bool) w : Transfer :=
  mkTransfer file path (clock w) 0 0 user (conn_ID c) ty (clock w) isNew (protocol c).
(** Allocate the transfer and add it to the active ones. *)
Definition start_transfer (file : File) (path : string) (ty : Z) (isNew : bool) w : nat * World F P :=
  let '(id, w) := newTransfer (new_transfer file path ty isNew w) w in (id, addTransfer id w).

Definition handleSFTPUploadToNewFile (requestPath filePath : string) w : result nat * World F P :=
  if negb (hasSpace true w) then (Err ErrSshFxFailure, w)
  else if os_IsNotExist (err_of (os_Stat (GoPath.Dir requestPath) (disk w)))
          && negb (HasPerm user PermCreateDirs) then (Err ErrSshFxPermissionDenied, w)
  else
    let '(err, w) := createMissingDirs requestPath w in
    match err with
    | Some _ => (Err ErrSshFxFailure, w)
    | None =>
        let '(file, d) := os_Create filePath (disk w) in
        let w := set_disk d w in
        match file with
        | Ok file =>
            let w := SetPathPermissions filePath (GetUID user) (GetGID user) w in
            let '(id, w) := start_transfer file requestPath transferUpload true w in (Ok id, w)
        | _ => (Err ErrSshFxFailure, w)
        end
    end.

Definition getOSOpenFlags (f : FileOpenFlags) : Z :=
  let osFlags := if Read f && Write f then O_RDWR else if Write f then O_WRONLY else 0 in
  let osFlags := if Append f then Z.lor osFlags O_APPEND else osFlags in
  let osFlags := if Creat f then Z.lor osFlags O_CREATE else osFlags in
  let osFlags := if Trunc f then Z.lor osFlags O_TRUNC else osFlags in
  if Excl f then Z.lor osFlags O_EXCL else osFlags.

Definition handleSFTPUploadToExistingFile (pflags : FileOpenFlags) (requestPath filePath : string)
    (fileSize : Z) w : result nat * World F P :=
  if negb (hasSpace false w) then (Err ErrSshFxFailure, w)
  else
    let osFlags := getOSOpenFlags pflags in
    if Z.land osFlags O_TRUNC =? 0 then (Err ErrSshFxOpUnsupported, w)
    else
      let '(err, w) :=
        if uploadMode conf =? uploadModeAtomic then
          let '(err, d) := os_Rename requestPath filePath (disk w) in (err, set_disk d w)
        else (None, w) in
      match err with
      | Some _ => (Err ErrSshFxFailure, w)
      | None =>
          let '(file, d) := os_OpenFile filePath osFlags 0x1b6 (disk w) in
          let w := set_disk d w in
          match file with
          | Ok file =>
              let w := updateUserQuota conf user 0 (i64 (- fileSize)) false w in
              let w := SetPathPermissions filePath (GetUID user) (GetGID user) w in
              let '(id, w) := start_transfer file requestPath transferUpload false w in (Ok id, w)
          | _ => (Err ErrSshFxFailure, w)
          end
      end.

(** ** The four handlers *)
Abbreviation request := (Request nat (list FileInfo)).

Definition Connection_Fileread (r : request) w : result nat * World F P :=
  let w := updateConnectionActivity (conn_ID c) w in
  if negb (HasPerm user PermDownload) then (Err ErrSshFxPermissionDenied, w)
  else match buildPath (Filepath r) (disk w) with
  | Err _ => (Err ErrSshFxNoSuchFile, w)
  | Panic => (Panic, w)
  | Ok p =>
      let st1 := os_Stat p (disk w) in
      if os_IsNotExist (err_of st1) then (Err ErrSshFxNoSuchFile, w)
      else
        let '(file, d) := os_Open p (disk w) in
        let w := set_disk d w in
        match file, st1 with
        | Ok file, Ok _ => let '(id, w) := start_transfer file p transferDownload false w in (Ok id, w)
        | Ok _, _ => (Panic, w)
        | _, _ => (Err ErrSshFxFailure, w)
        end
  end.

Definition Connection_Filewrite (r : request) w : result nat * World F P :=
  let w := updateConnectionActivity (conn_ID c) w in
  if negb (HasPerm user PermUpload) then (Err ErrSshFxPermissionDenied, w)
  else match buildPath (Filepath r) (disk w) with
  | Err _ => (Err ErrSshFxNoSuchFile, w)
  | Panic => (Panic, w)
  | Ok p =>
      let '(filePath, w) :=
        if uploadMode conf =? uploadModeAtomic then getUploadTempFilePath p w else (p, w) in
      let stat := os_Stat p (disk w) in
      if os_IsNotExist (err_of stat) then handleSFTPUploadToNewFile p filePath w
      else match stat with
      | Ok fi =>
          if fi_IsDir fi then (Err ErrSshFxOpUnsupported, w)
          else handleSFTPUploadToExistingFile (Pflags r) p filePath (fi_Size fi) w
      | _ => (Err ErrSshFxFailure, w)
      end
  end.

(** What the commands that do not return early have in common. *)
Definition finish_cmd (p target : string) (res : option error * World F P) : option error * World F P :=
  let '(err, w) := res in
  match err with
  | Some e => (Some e, w)
  | None =>
      let fileLocation := if bool_decide (target = EmptyString) then p else target in
      (Some ErrSshFxOk, SetPathPermissions fileLocation (GetUID user) (GetGID user) w)
  end.

Definition Connection_Filecmd (r : request) w : option error * World F P :=
  let w := updateConnectionActivity (conn_ID c) w in
  match buildPath (Filepath r) (disk w) with
  | Err _ | Panic => (Some ErrSshFxNoSuchFile, w)
  | Ok p =>
      match getSFTPCmdTargetPath (Target r) (disk w) with
      | Err _ | Panic => (Some ErrSshFxOpUnsupported, w)
      | Ok target =>
          let m := Method r in
          if bool_decide (m = "Setstat"%string) then handleSFTPSetstat p r w
          else if bool_decide (m = "Rename"%string) then finish_cmd p target (handleSFTPRename p target w)
          else if bool_decide (m = "Rmdir"%string) then handleSFTPRmdir p w
          else if bool_decide (m = "Mkdir"%string) then finish_cmd p target (handleSFTPMkdir p w)
          else if bool_decide (m = "Symlink"%string) then finish_cmd p target (handleSFTPSymlink p target w)
          else if bool_decide (m = "Remove"%string) then handleSFTPRemove p w
          else (Some ErrSshFxOpUnsupported, w)
      end
  end.

Definition Connection_Filelist (r : request) w : result (list FileInfo) * World F P :=
  let w := updateConnectionActivity (conn_ID c) w in
  match buildPath (Filepath r) (disk w) with
  | Err _ | Panic => (Err ErrSshFxNoSuchFile, w)
  | Ok p =>
      if bool_decide (Method r = "List"%string) then
        if negb (HasPerm user PermListItems) then (Err ErrSshFxPermissionDenied, w)
        else match ReadDir p (disk w) with
             | Ok files => (Ok files, w)
             | _ => (Err ErrSshFxFailure, w)
             end
      else if bool_decide (Method r = "Stat"%string) then
        if negb (HasPerm user PermListItems) then (Err ErrSshFxPermissionDenied, w)
        else match os_Stat p (disk w) with
             | Ok s => (Ok [s], w)
             | Err e => (Err (if os_IsNotExist (Some e) then ErrSshFxNoSuchFile else ErrSshFxFailure), w)
             | Panic => (Err ErrSshFxFailure, w)
             end
      else (Err ErrSshFxOpUnsupported, w)
  end.

(** [Connection] implements none of the optional interfaces, and a transfer
    has no [TransferError] method. *)
Instance connection_handlers : Handlers (World F P) nat (list FileInfo) := {
  Fileread := Connection_Fileread;
  Filewrite := Connection_Filewrite;
  OpenFile := None;
  Filecmd := Connection_Filecmd;
  PosixRename := None;
  Filelist := Connection_Filelist;
  Lstat := None;
  ReadAt := Transfer_ReadAt;
  WriteAt := Transfer_WriteAt;
  obj_Close id w := let '(err, w) := Transfer_Close conf id w in (Some err, w);
  TransferError _ _ w := w;
  ListAt := listerAt_ListAt
}.
End handler.

(** ** Requests always have attributes *)
Definition decodes {A} (r : result A) : Prop := ∃ x, r = Ok x.
Lemma decodes_bind {A B} (r : result A) (f : A → result B) :
  decodes r → (∀ a, decodes (f a)) → decodes (r ≫= f).
Proof. intros [x ->] Hf. apply Hf. Qed.
Lemma decodes_lenient {A} (z : A) r : r ≠ Panic → decodes (lenient z r).
Proof. unfold decodes. destruct r; simpl; [by eexists|by eexists|done]. Qed.
Lemma decodes_Ok {A} (x : A) : decodes (Ok x).
Proof. by eexists. Qed.
Hint Resolve decodes_Ok decodes_lenient : core.

Lemma getExtended_decodes n b : decodes (getExtended n b).
Proof.
  revert b. induction n as [|n IH]; intros b; simpl; auto.
  apply decodes_bind; [auto with wire|intros [? ?]].
  apply decodes_bind; [auto with wire|intros [? ?]].
  apply decodes_bind; [auto|intros [? ?]]. auto.
Qed.

(** [Attributes] never fails, whatever the client sent. *)
Lemma Attributes_total {obj lister} (r : Request obj lister) : decodes (Attributes r).
Proof.
  unfold Attributes, getFileStat.
  repeat first [ apply decodes_bind; [|intros [? ?]] | case_goal | apply decodes_lenient; auto with wire
               | apply getExtended_decodes | apply decodes_Ok | progress cbv beta iota ].
Qed.

(** ** Confinement of paths *)
Section confinement.
Context {F P : Type} `{FSS : FileSystemSpec F, Provider P} (conf : ServConf) (c : Connection).
Implicit Types (w : World F P) (d : F).

Lemma climb_root fuel results d : ∃ fi, climb fuel (abs_path []) results d = Some (results, abs_path [], None)
  ∧ os_Stat (abs_path []) d = Ok fi.
Proof.
  change (abs_path []) with "/"%string. destruct (root_exists d) as (fi & E & _).
  exists fi. split; [|done]. by destruct fuel; simpl; rewrite E.
Qed.

Lemma climb_terminates fuel l results d :
  Forall normal l → (length l <= fuel)%nat → climb fuel (abs_path l) results d ≠ None.
Proof.
  revert l results. induction fuel as [|fuel IH]; intros l results Hl Hlen;
    (destruct l as [|x l _] using rev_ind; [by destruct (climb_root 0 results d) as (? & -> & _)
     || destruct (climb_root (S fuel) results d) as (? & -> & _)|]).
  - rewrite length_app in Hlen. simpl in Hlen. lia.
  - apply Forall_app in Hl as [Hl' Hc]. rewrite Forall_singleton in Hc. simpl. case_match; [|done].
    rewrite Dir_abs_path by done. apply IH; [done|]. rewrite length_app in Hlen. simpl in Hlen. lia.
Qed.

(** The directories below [l1] on the way to [l1 ++ rev r], deepest first. *)
Fixpoint missing (l1 r : list string) : list string :=
  match r with
  | [] => []
  | x :: r' => abs_path (l1 ++ rev r) :: missing l1 r'
  end.

Lemma climb_Some fuel l results d rs parent err :
  climb fuel (abs_path l) results d = Some (rs, parent, err) → Forall normal l →
  ∃ l1 r, l = l1 ++ rev r ∧ parent = abs_path l1 ∧ rs = results ++ missing l1 r
    ∧ err = err_of (os_Stat parent d) ∧ os_IsNotExist err = false
    ∧ Forall (λ q, os_IsNotExist (err_of (os_Stat q d)) = true) (missing l1 r).
Proof.
  revert l results. induction fuel as [|fuel IH]; intros l results E Hl; simpl in E;
    (destruct (os_IsNotExist (err_of (os_Stat (abs_path l) d))) eqn:Hne;
     [|simplify_eq; exists l, []; simpl; rewrite !app_nil_r; by split_and!]); [done|].
  destruct l as [|x l' _] using rev_ind.
  - destruct (climb_root 0 results d) as (fi & _ & Er). by rewrite Er in Hne.
  - apply Forall_app in Hl as [Hl' Hc]. rewrite Forall_singleton in Hc.
    rewrite Dir_abs_path in E by done.
    destruct (IH _ _ E Hl') as (l1 & r & -> & -> & -> & -> & ? & Hm).
    exists l1, (x :: r). simpl. rewrite <- !app_assoc. split_and!; try done.
    constructor; [|done]. by rewrite <- app_assoc in Hne.
Qed.

Lemma last_missing l1 r x : last (missing l1 (r ++ [x])) = Some (abs_path (l1 ++ [x])).
Proof.
  induction r as [|y r IH]; [done|]. change ((y :: r) ++ [x]) with (y :: (r ++ [x])).
  cbn [missing]. destruct (missing l1 (r ++ [x])) eqn:E; [by destruct r|]. rewrite last_cons_cons. by rewrite IH.
Qed.

(** A path resolves to something the check of [isSubDir] accepts: with the
    resolved home directory [lh] and the resolved path [lp] in components,
    something inside the home directory, or inside a file or directory beside
    it whose name continues that of the home directory. *)
Definition accepted d (q : string) : Prop :=
  ∃ lp lh, EvalSymlinks q d = Ok (abs_path lp) ∧ EvalSymlinks (HomeDir (conn_User c)) d = Ok (abs_path lh)
    ∧ Forall normal lp ∧ Forall normal lh ∧ (in_dir lh lp ∨ beside_dir lh lp).

Lemma isSubDir_None q p d :
  IsAbs q = true → IsAbs (HomeDir (conn_User c)) = true →
  EvalSymlinks q d = Ok p → isSubDir c p d = None → accepted d q.
Proof.
  unfold isSubDir, accepted. intros Hq Hhome Hp.
  destruct (EvalSymlinks (HomeDir _) d) as [home'| |] eqn:Hh; [|done..].
  destruct (strings_HasPrefix p home') eqn:Hpre; [|done]. intros _.
  destruct (EvalSymlinks_clean _ _ _ Hq Hp) as (lp & Hlp & ->).
  destruct (EvalSymlinks_clean _ _ _ Hhome Hh) as (lh & Hlh & ->).
  exists lp, lh. split_and!; try done. by apply HasPrefix_components.
Qed.

Lemma missing_take l1 r k :
  (0 < k <= length r)%nat → abs_path (l1 ++ take k (rev r)) ∈ missing l1 r.
Proof.
  induction r as [|x r IH]; simpl; intros Hk; [lia|].
  destruct (decide (k = S (length r))) as [->|Hne].
  - rewrite take_ge; [by left|]. rewrite length_app, length_rev. simpl. lia.
  - right. rewrite take_app_le by (rewrite length_rev; lia). apply IH. lia.
Qed.

(** [findNonexistentDirs]: the missing ancestors, deepest first, above an
    existing and accepted directory. *)
Lemma findNonexistentDirs_spec l d results :
  IsAbs (HomeDir (conn_User c)) = true → Forall normal l → findNonexistentDirs c (abs_path l) d = Ok results →
  ∃ l1 r l3, l = l1 ++ rev r ++ l3 ∧ (length l3 <= 1)%nat ∧ (l ≠ [] → length l3 = 1%nat)
    ∧ results = missing l1 r ∧ accepted d (abs_path l1)
    ∧ Forall (λ q, os_IsNotExist (err_of (os_Stat q d)) = true) results
    ∧ ∃ fi, os_Stat (abs_path l1) d = Ok fi.
Proof.
  intros Hhome Hl. unfold findNonexistentDirs. rewrite Clean_abs_path by done.
  assert (∃ l0 l3, l = l0 ++ l3 ∧ (length l3 <= 1)%nat ∧ (l ≠ [] → length l3 = 1%nat)
          ∧ Forall normal l0 ∧ GoPath.Dir (abs_path l) = abs_path l0)
    as (l0 & l3 & -> & H3 & H3' & Hl0 & ->).
  { destruct l as [|x l _] using rev_ind; [exists [], []; split_and!; simpl; (done || lia)|].
    apply Forall_app in Hl as [Hl' Hx]. rewrite Forall_singleton in Hx. exists l, [x].
    split_and!; [done..|by apply Dir_abs_path]. }
  destruct (climb _ _ _ _) as [[[rs parent] [err|]]|] eqn:E; [done| |done].
  apply climb_Some in E as (l1 & r & -> & -> & -> & Herr & _ & Hm); [|done].
  intros (p & Hp & Hs)%result_bind_ok. destruct (isSubDir c p d) eqn:Hsub; simplify_eq.
  exists l1, r, l3. rewrite <- app_assoc in H3' |- *. split_and!; try done; [by eapply isSubDir_None|].
  pose proof (os_Stat_no_panic (abs_path l1) d) as Hnp. destruct (os_Stat (abs_path l1) d) as [fi| |]; [eauto|done..].
Qed.

Lemma isSubDir_no_panic (A : Type) p d (x : A) :
  match isSubDir c p d with Some e => Err e | None => Ok x end ≠ Panic.
Proof. by case_match. Qed.

(** Looking for missing directories always ends: for every absolute path
    the climb towards the root reaches an existing directory within as many
    steps as the path has components. *)
Theorem findNonexistentDirs_terminates path d :
  IsAbs path = true → findNonexistentDirs c path d ≠ Panic.
Proof.
  intros Habs. destruct (Clean_abs_normal path Habs) as (l & Hl & E).
  unfold findNonexistentDirs. rewrite E.
  assert (∃ l0, Forall normal l0 ∧ (length l0 <= length l)%nat ∧ GoPath.Dir (abs_path l) = abs_path l0)
    as (l0 & Hl0 & Hlen & ->).
  { destruct l as [|x l _] using rev_ind; [by exists []|].
    apply Forall_app in Hl as [Hl' Hx]. rewrite Forall_singleton in Hx. exists l.
    rewrite length_app. split_and!; [done|lia|by apply Dir_abs_path]. }
  destruct (climb _ _ _ _) as [[[rs parent] [err|]]|] eqn:Ec; [done| |].
  - apply result_bind_no_panic; [apply EvalSymlinks_no_panic|]. intros p _. apply isSubDir_no_panic.
  - exfalso. eapply climb_terminates; [exact Hl0| |exact Ec].
    assert (length l <= length (strings_Split (abs_path l) slash))%nat; [|lia].
    destruct l as [|x l _] using rev_ind; [simpl; lia|].
    apply Forall_app in Hl as [Hl' Hx]. rewrite Forall_singleton in Hx.
    rewrite strings_Split_abs_snoc by done. simpl. lia.
Qed.

(** [l1] is where the path [l1 ++ l2] stops existing: the directory exists, and
    no longer prefix of the path does. *)
Definition nearest_existing d (l1 l2 : list string) : Prop :=
  (∃ fi, os_Stat (abs_path l1) d = Ok fi) ∧
  (∀ k, (0 < k < length l2)%nat → os_IsNotExist (err_of (os_Stat (abs_path (l1 ++ take k l2)) d)) = true) ∧
  os_IsNotExist (err_of (EvalSymlinks (abs_path (l1 ++ l2)) d)) = true.

(** C1: Which paths the SFTP handlers touch. For a path as the request server
    cleans it, what [buildPath] accepts is textually the home directory
    followed by normal components, and the path itself, or its nearest existing
    ancestor when it does not exist yet, resolves through all symbolic links to
    a path that is, component by component, inside the resolved home directory
    or inside something beside it whose name continues that of the home
    directory, which the string comparison of [isSubDir] does not tell apart. *)
Theorem sftp_path_confined h raw d r :
  HomeDir (conn_User c) = abs_path h → Forall normal h →
  buildPath c (GoPath.cleanPath raw) d = Ok r →
  ∃ l l1 l2, Forall normal l ∧ r = abs_path (h ++ l) ∧ h ++ l = l1 ++ l2
    ∧ (l2 = [] ∨ nearest_existing d l1 l2)
    ∧ ∃ lp lh, EvalSymlinks (abs_path l1) d = Ok (abs_path lp) ∧ EvalSymlinks (abs_path h) d = Ok (abs_path lh)
        ∧ Forall normal lp ∧ Forall normal lh ∧ (in_dir lh lp ∨ beside_dir lh lp).
Proof.
  intros Hh Hn E. destruct (cleanPath_normal raw) as (l & Hl & Hraw).
  assert (Hall : Forall normal (h ++ l)) by by apply Forall_app.
  unfold buildPath in E. rewrite Hh, Hraw, Join_home_clean, Clean_abs_path in E by done.
  assert (Habs : IsAbs (HomeDir (conn_User c)) = true) by by rewrite Hh.
  exists l. unfold nearest_existing. rewrite <- Hh.
  destruct (EvalSymlinks (abs_path (h ++ l)) d) as [p|e|] eqn:Hp; [| |done].
  - destruct (isSubDir c p d) eqn:Hs; simplify_eq/=. exists (h ++ l), []. rewrite app_nil_r.
    split_and!; try done; [by left|by eapply isSubDir_None].
  - destruct (os_IsNotExist (Some e)) eqn:Hne; [|done].
    destruct (findFirstExistingDir _ _ _) as [q|?|] eqn:Hf; [|done..]. simplify_eq.
    unfold findFirstExistingDir in Hf. apply result_bind_ok in Hf as (results & Hres & _).
    apply findNonexistentDirs_spec in Hres as (l1 & rr & l3 & El & Hl3 & Hl3' & -> & Hacc & Hm & Hex); [|done..].
    exists l1, (rev rr ++ l3). split_and!; try done. right. rewrite <- El, Hp. split_and!; try done.
    intros k Hk. rewrite length_app, length_rev in Hk. rewrite Forall_forall in Hm.
    rewrite take_app_le by (rewrite length_rev; lia). apply Hm, missing_take. lia.
Qed.
End confinement.

(** ** Permissions and quota *)
Section permissions.
Context {F P : Type} `{FS : FileSystem F, PR : Provider P} (conf : ServConf) (c : Connection).
Implicit Types (w : World F P).

(** Nothing but the connection's activity time differs. *)
Definition only_activity (w w' : World F P) : Prop :=
  w' = updateConnectionActivity (conn_ID c) w.

Lemma updateConnectionActivity_data id w :
  disk (updateConnectionActivity id w) = disk w ∧ prov (updateConnectionActivity id w) = prov w.
Proof. unfold updateConnectionActivity. by case_match. Qed.

(** The permission each command needs. *)
Definition required_perm (method : string) : option string :=
  if bool_decide (method = "Rename"%string) then Some PermRename
  else if bool_decide (method = "Rmdir"%string) then Some PermDelete
  else if bool_decide (method = "Mkdir"%string) then Some PermCreateDirs
  else if bool_decide (method = "Symlink"%string) then Some PermCreateSymlinks
  else if bool_decide (method = "Remove"%string) then Some PermDelete
  else None.

Definition refused (err : option error) : Prop :=
  err = Some ErrSshFxNoSuchFile ∨ err = Some ErrSshFxOpUnsupported ∨ err = Some ErrSshFxPermissionDenied.

(** C12: Permissions are enforced before anything happens: without the download
    permission nothing is opened for reading, without the upload permission
    nothing is opened for writing, without the list permission nothing is
    listed, and without the permission a command needs the command is refused;
    in each case the disk, the accounts, the transfers and the notifications
    are untouched. *)
Theorem permissions_enforced (r : Request nat (list FileInfo)) w :
  (HasPerm (conn_User c) PermDownload = false →
     ∃ w', Connection_Fileread c r w = (Err ErrSshFxPermissionDenied, w') ∧ only_activity w w') ∧
  (HasPerm (conn_User c) PermUpload = false →
     ∃ w', Connection_Filewrite conf c r w = (Err ErrSshFxPermissionDenied, w') ∧ only_activity w w') ∧
  (HasPerm (conn_User c) PermListItems = false →
     ∃ e w', Connection_Filelist c r w = (Err e, w') ∧ refused (Some e) ∧ only_activity w w') ∧
  (∀ p, required_perm (Method r) = Some p → HasPerm (conn_User c) p = false →
     ∃ err w', Connection_Filecmd conf c r w = (err, w') ∧ refused err ∧ only_activity w w').
Proof.
  unfold only_activity, refused. split_and!.
  - intros Hp. unfold Connection_Fileread. rewrite Hp. by eexists.
  - intros Hp. unfold Connection_Filewrite. rewrite Hp. by eexists.
  - intros Hp. unfold Connection_Filelist. rewrite Hp. simpl.
    repeat case_match; eexists _, _; eauto.
  - intros p Hreq Hp. unfold Connection_Filecmd.
    destruct (buildPath _ _ _) as [q|?|]; [|by eauto 10..].
    destruct (getSFTPCmdTargetPath _ _ _) as [t|?|]; [|by eauto 10..].
    unfold required_perm in Hreq.
    destruct (bool_decide (Method r = "Setstat"%string)) eqn:Hset.
    { apply bool_decide_eq_true in Hset. by rewrite Hset in Hreq. }
    unfold handleSFTPRename, handleSFTPRmdir, handleSFTPMkdir, handleSFTPSymlink, handleSFTPRemove.
    repeat (case_bool_decide; [simplify_eq; rewrite Hp; simpl; by eauto 10|]). done.
Qed.

(** SETSTAT is not among them: changing the mode, owner or times of a file
    asks for no permission at all, so its effect does not depend on the
    permissions of the user. *)
Theorem setstat_ignores_permissions perms (r : Request nat (list FileInfo)) w :
  Method r = "Setstat"%string →
  let c' := mkConnection (conn_ID c) (set_Permissions (conn_User c) perms) (ClientVersion c)
              (RemoteAddr c) (StartTime c) (lastActivity c) (protocol c) in
  Connection_Filecmd conf c' r w = Connection_Filecmd conf c r w.
Proof.
  intros Hm c'. unfold Connection_Filecmd. rewrite Hm.
  assert (∀ raw d, buildPath c' raw d = buildPath c raw d) as Hb by done.
  unfold getSFTPCmdTargetPath. by rewrite !Hb.
Qed.
End permissions.

Section quota.
Context {F P : Type} `{FS : FileSystem F, PS : ProviderSpec P} (conf : ServConf) (c : Connection).
Implicit Types (w : World F P).

Lemma hasSpace_spec checkFiles w u :
  TrackQuota (dp_config conf) ≠ 0 → pinv (prov w) →
  contents (prov w) !! Username (conn_User c) = Some u →
  hasSpace conf c checkFiles w = false ↔
    (checkFiles = true ∧ 0 < QuotaFiles (conn_User c) <= UsedQuotaFiles u)
    ∨ 0 < QuotaSize (conn_User c) <= UsedQuotaSize u.
Proof.
  intros Ht Hp Hu. unfold hasSpace, GetUsedQuota. rewrite (proj2 (Z.eqb_neq _ _)) by done.
  pose proof (getUsedQuota_spec _ (Username (conn_User c)) Hp) as Hq. rewrite Hu in Hq. rewrite Hq. clear Hq.
  destruct checkFiles, (Z.ltb_spec 0 (QuotaFiles (conn_User c))), (Z.ltb_spec 0 (QuotaSize (conn_User c)));
    simpl; destruct (Z.leb_spec (QuotaFiles (conn_User c)) (UsedQuotaFiles u)),
      (Z.leb_spec (QuotaSize (conn_User c)) (UsedQuotaSize u)); simpl;
    (split; [intros ?; first [done|left; split; [done|lia]|right; lia]|intros [[? ?]|?]; first [done|lia]]).
Qed.

(** A user whose quota is used up cannot start an upload: when the used
    size has reached the size limit, or a new file would exceed the file limit,
    opening for writing fails and neither the disk nor the accounts change. *)
Theorem upload_denied_over_quota (r : Request nat (list FileInfo)) w u :
  TrackQuota (dp_config conf) ≠ 0 → pinv (prov w) →
  contents (prov w) !! Username (conn_User c) = Some u →
  0 < QuotaSize (conn_User c) <= UsedQuotaSize u →
  ∃ res w', Connection_Filewrite conf c r w = (res, w') ∧ (∀ id, res ≠ Ok id)
    ∧ disk w' = disk w ∧ prov w' = prov w ∧ activeTransfers w' = activeTransfers w.
Proof.
  intros Ht Hp Hu Hq. unfold Connection_Filewrite.
  set (w1 := updateConnectionActivity (conn_ID c) w).
  assert (Hw1 : disk w1 = disk w ∧ prov w1 = prov w ∧ activeTransfers w1 = activeTransfers w).
  { unfold w1, updateConnectionActivity. by case_match. }
  destruct Hw1 as (Hd1 & Hp1 & Ha1).
  destruct (negb _); [by eauto 10|].
  destruct (buildPath c (Filepath r) (disk w1)) as [p|e|]; [|by eauto 10..].
  assert (∃ filePath w2, (if uploadMode conf =? uploadModeAtomic then getUploadTempFilePath conf p w1 else (p, w1))
    = (filePath, w2) ∧ disk w2 = disk w ∧ prov w2 = prov w ∧ activeTransfers w2 = activeTransfers w)
    as (filePath & w2 & -> & Hd2 & Hp2 & Ha2) by (destruct (_ =? _); by eauto 10).
  assert (Hns : ∀ b, hasSpace conf c b w2 = false).
  { intros b. apply (hasSpace_spec b w2 u); rewrite ?Hp2; auto. }
  destruct (os_IsNotExist _).
  - unfold handleSFTPUploadToNewFile. rewrite Hns. simpl. eauto 10.
  - destruct (os_Stat p (disk w2)) as [fi|e|]; [|by eauto 10..]. destruct (fi_IsDir fi); [by eauto 10|].
    unfold handleSFTPUploadToExistingFile. rewrite Hns. simpl. eauto 10.
Qed.
End quota.

(** ** The handlers keep the request server's contract *)
Lemma listerAt_ListAt_spec (l : list FileInfo) n off :
  0 < n → 0 <= off →
  listerAt_ListAt l n off =
    let k := take (Z.to_nat n) (drop (Z.to_nat off) (map sftpFileInfo l)) in
    (k, if zlen k <? n then Some EOF else None).
Proof.
  intros Hn Ho. unfold listerAt_ListAt. cbv zeta. destruct (Z.leb_spec (zlen l) off).
  - rewrite drop_ge by (rewrite length_map; unfold zlen in *; lia). rewrite take_nil.
    rewrite (proj2 (Z.ltb_lt _ _)); [done|]. unfold zlen. simpl. lia.
  - rewrite skipn_map, firstn_map.
    assert (take (Z.to_nat ((if zlen l <? off + n then zlen l else off + n) - off)) (drop (Z.to_nat off) l)
            = take (Z.to_nat n) (drop (Z.to_nat off) l)) as ->.
    { destruct (Z.ltb_spec (zlen l) (off + n)); [|by replace (off + n - off) with n by lia].
      rewrite !take_ge; [done|..]; rewrite length_drop; unfold zlen in *; lia. }
    by destruct (_ <? n).
Qed.

Section instance.
Context {F P : Type} `{FSS : FileSystemSpec F, PR : Provider P} (conf : ServConf) (c : Connection).
#[local] Existing Instance connection_handlers.

Lemma Transfer_ReadAt_bound id n off (w : World F P) data err w' :
  0 <= n → Transfer_ReadAt id n off w = ((data, err), w') → zlen data <= n.
Proof.
  intros Hn. unfold Transfer_ReadAt. destruct (transfers w !! id) as [t|].
  - destruct (file_ReadAt _ _ _ _) as [d e] eqn:E. intros ?. simplify_eq. by eapply file_ReadAt_bound.
  - intros ?. simplify_eq. done.
Qed.

Instance connection_handlers_spec : @HandlersSpec (World F P) nat (list FileInfo) (connection_handlers conf c).
Proof.
  refine (@Build_HandlersSpec (World F P) nat (list FileInfo) (connection_handlers conf c)
            _ (map sftpFileInfo) _); simpl.
  - apply Transfer_ReadAt_bound.
  - apply listerAt_ListAt_spec.
Defined.
End instance.

(** ** A concrete server

    Two home directories on an in-memory disk, a bolt database with one user
    with every permission and a quota of ten bytes, and standard uploads. *)
Module DemoServer.
Definition do_disk (ops : list (MemFS.state → MemFS.state)) : MemFS.state :=
  foldl (λ d f, f d) MemFS.init ops.
Definition mkfile (p : string) (data : list byte) (d : MemFS.state) : MemFS.state :=
  match os_Create p d with
  | (Ok f, d) => snd (file_Close f (snd (file_WriteAt f data 0 d)))
  | (_, d) => d
  end.
Definition disk0 : MemFS.state :=
  do_disk [λ d, snd (os_Mkdir "/home" 0 d); λ d, snd (os_Mkdir "/home/user" 0 d);
           λ d, snd (os_Mkdir "/home/user2" 0 d); mkfile "/home/user/a.txt" (bytes_of_string "hello")].
Definition account : User :=
  mkUser 0 "user" "secret" [] "/home/user" 1000 1000 0 10 0 ["*"]%string 5 1 0 0 0.
Definition prov0 : BoltDB := foldl bolt_step emptyBolt [OpAdd account; OpQuota 0 "user" 1 5 true].
Definition conf : ServConf :=
  {| dp_config := {| Driver := "bolt"; Name := ""; Host := ""; Port := 0; DbUsername := ""; DbPassword := "";
       ConnectionString := ""; SSLMode := 0; UsersTable := "users"; ManageUsers := 1;
                     TrackQuota := 1; DefaultUserExpire := 0 |};
     uploadMode := uploadModeStandard;
     actions := {| ExecuteOn := []; Command := EmptyString; HTTPNotificationURL := EmptyString |};
     idleTimeout := 900000000000; url_Parse_ok := false; xid _ := "guid"%string |}.
Definition conn : Connection := mkConnection "c1" account "SSH-2.0-test" "127.0.0.1" 0 0 "SFTP".
Definition world0 : World MemFS.state BoltDB :=
  mkWorld disk0 prov0 0 {["c1"%string := conn]} ∅ [] [] 0 [].

Definition h : Handlers (World MemFS.state BoltDB) nat (list FileInfo) := connection_handlers conf conn.
#[global] Existing Instance h.
Definition serve (p : requestPacket) (rs : RequestServer nat (list FileInfo)) (w : World MemFS.state BoltDB) :=
  packetWorker RequestServer.Demo.errText RequestServer.Demo.ls supportedSFTPExtensions p 1 rs w.
Definition rs0 : RequestServer nat (list FileInfo) := mkRS ∅ 0 None.

Lemma prov0_inv : bolt_inv prov0.
Proof.
  unfold prov0, foldl. apply bolt_step_inv; [|vm_compute; done|done].
  apply bolt_step_inv; [apply emptyBolt_inv|done|done].
Qed.
End DemoServer.

(** The containment check compares strings, not path components, and the
    target of a posix-rename is the one path the request server does not
    clean: a user confined to /home/user renames a file into the home
    directory of /home/user2. *)
Example posix_rename_escapes_home :
  let p := sshFxpExtendedPacket 7 "posix-rename@openssh.com"
             (Some (sshFxpExtendedPacketPosixRename 7 "posix-rename@openssh.com" "/a.txt" "/../user2/a.txt")) in
  let '(x, _, w') := DemoServer.serve p DemoServer.rs0 DemoServer.world0 in
  x = Ok (sshFxpStatusPacket 7 {| se_Code := sshFxOk; se_msg := "OK"; se_lang := EmptyString |}) ∧
  is_ok (os_Stat "/home/user2/a.txt" DemoServer.disk0) = false ∧
  is_ok (os_Stat "/home/user2/a.txt" (disk w')) = true ∧
  is_ok (os_Stat "/home/user/a.txt" (disk w')) = false.
Proof. vm_compute. done. Qed.

(** An RMDIR on a regular file deletes the file without giving its size
    and its slot back to the quota of the user, unlike a REMOVE. *)
Theorem rmdir_on_file_leaks_quota :
  let served p := snd (DemoServer.serve p DemoServer.rs0 DemoServer.world0) in
  let w1 := served (sshFxpRmdirPacket 7 "/a.txt") in
  let w2 := served (sshFxpRemovePacket 7 "/a.txt") in
  is_ok (os_Stat "/home/user/a.txt" (disk w1)) = false ∧
  is_ok (os_Stat "/home/user/a.txt" (disk w2)) = false ∧
  bolt_getUsedQuota "user" (prov DemoServer.world0) = Ok (1, 5) ∧
  bolt_getUsedQuota "user" (prov w1) = Ok (1, 5) ∧
  bolt_getUsedQuota "user" (prov w2) = Ok (0, 0).
Proof. vm_compute. done. Qed.

(** ** Witnesses *)
Lemma findNonexistentDirs_terminates_witness :
  findNonexistentDirs DemoServer.conn "/home/user/x/y/z" DemoServer.disk0 ≠ Panic.
Proof.
  apply (findNonexistentDirs_terminates DemoServer.conn "/home/user/x/y/z" DemoServer.disk0). reflexivity.
Defined.

Lemma sftp_path_confined_witness :
  ∃ r l, buildPath DemoServer.conn (GoPath.cleanPath "../../new/file") DemoServer.disk0 = Ok r ∧
    r = abs_path (["home"; "user"]%string ++ l).
Proof.
  eexists. destruct (sftp_path_confined DemoServer.conn ["home"; "user"]%string "../../new/file"
    DemoServer.disk0 "/home/user/new/file") as (l & _ & _ & _ & E & _).
  - reflexivity.
  - repeat constructor; discriminate.
  - vm_compute. reflexivity.
  - exists l. split; [|exact E]. vm_compute. reflexivity.
Defined.

Lemma permissions_enforced_witness :
  let c := mkConnection "c1" (set_Permissions DemoServer.account ["list"]%string) "" "" 0 0 "SFTP" in
  ∃ w', Connection_Fileread c (NewRequest "Get" "/a.txt") DemoServer.world0
        = (Err ErrSshFxPermissionDenied, w').
Proof.
  intros c. destruct (permissions_enforced DemoServer.conf c (NewRequest "Get" "/a.txt") DemoServer.world0)
    as [Hr _].
  destruct (Hr eq_refl) as (w' & E & _). exists w'. exact E.
Defined.

Lemma setstat_ignores_permissions_witness :
  Connection_Filecmd DemoServer.conf
    (mkConnection "c1" (set_Permissions DemoServer.account []) "SSH-2.0-test" "127.0.0.1" 0 0 "SFTP")
    (NewRequest "Setstat" "/a.txt") DemoServer.world0
  = Connection_Filecmd DemoServer.conf DemoServer.conn (NewRequest "Setstat" "/a.txt") DemoServer.world0.
Proof.
  apply (setstat_ignores_permissions DemoServer.conf DemoServer.conn [] (NewRequest "Setstat" "/a.txt")
           DemoServer.world0). reflexivity.
Defined.

(** The same account with all ten bytes used. *)
Definition full_world : World MemFS.state BoltDB :=
  set_prov (bolt_step DemoServer.prov0 (OpQuota 0 "user" 2 10 true)) DemoServer.world0.
Lemma full_world_inv : bolt_inv (prov full_world).
Proof. apply bolt_step_inv; [apply DemoServer.prov0_inv|vm_compute; done|done]. Qed.

Lemma upload_denied_over_quota_witness :
  ∃ res w', Connection_Filewrite DemoServer.conf DemoServer.conn (NewRequest "Put" "/b.txt") full_world = (res, w')
    ∧ (∀ id, res ≠ Ok id) ∧ disk w' = disk full_world ∧ prov w' = prov full_world
    ∧ activeTransfers w' = activeTransfers full_world.
Proof.
  eapply (upload_denied_over_quota DemoServer.conf DemoServer.conn (NewRequest "Put" "/b.txt") full_world).
  - discriminate.
  - exact full_world_inv.
  - vm_compute. reflexivity.
  - vm_compute. split; [reflexivity|discriminate].
Defined.

(** An upload of a new file, two writes and a close. *)
Definition uploading : World MemFS.state BoltDB :=
  snd (Connection_Filewrite DemoServer.conf DemoServer.conn (NewRequest "Put" "/b.txt") DemoServer.world0).
Definition two_writes := write_all 0 [(bytes_of_string "abc", 0); (bytes_of_string "de", 3)] uploading.

Lemma upload_accounted_witness :
  fst two_writes = [3; 2] ∧
  let w2 := snd (Transfer_Close DemoServer.conf 0 (snd two_writes)) in
  activeTransfers uploading ≡ₚ 0%nat :: activeTransfers w2 ∧
  ∃ u', contents (prov w2) !! "user"%string = Some u' ∧ UsedQuotaSize u' = 10 ∧ UsedQuotaFiles u' = 2.
Proof.
  split; [vm_compute; reflexivity|]. intros w2.
  destruct (transfers uploading !! 0%nat) as [t|] eqn:Ht; [|vm_compute in Ht; discriminate].
  destruct (contents (prov uploading) !! "user"%string) as [u|] eqn:Hu; [|vm_compute in Hu; discriminate].
  assert (Ht' := Ht). vm_compute in Ht'. injection Ht' as Et.
  assert (Hu' := Hu). vm_compute in Hu'. injection Hu' as Eu.
  destruct (upload_accounted DemoServer.conf 0 [(bytes_of_string "abc", 0); (bytes_of_string "de", 3)]
    uploading t u (fst two_writes) (snd two_writes)) as (Hperm & Hacc & _).
  - exact Ht.
  - rewrite <- Et. reflexivity.
  - rewrite <- Et. reflexivity.
  - vm_compute. left.
  - vm_compute. split; discriminate.
  - change (prov uploading) with DemoServer.prov0. exact DemoServer.prov0_inv.
  - rewrite <- Et. exact Hu.
  - vm_compute. reflexivity.
  - vm_compute. reflexivity.
  - rewrite <- Eu. vm_compute. split; [discriminate|reflexivity].
  - rewrite <- Eu. vm_compute. split; [discriminate|reflexivity].
  - rewrite <- Eu. vm_compute. split; [discriminate|reflexivity].
  - destruct Hacc as (u' & E1 & E2 & E3); [reflexivity|]. split; [exact Hperm|]. exists u'. rewrite <- Et in E1, E3. rewrite <- Eu in E2, E3.
    split; [exact E1|]. split; [rewrite E2; vm_compute; reflexivity|rewrite E3; vm_compute; reflexivity].
Defined.

(** Two and a half kilobytes at one kilobyte per second: the write returns two
    seconds later. *)
Definition slow : Connection :=
  mkConnection "c1" (mkUser 0 "user" "secret" [] "/home/user" 1000 1000 0 0 0 ["*"]%string 5 1 0 1 0) "" "" 0 0 "SFTP".
Definition slow_upload : World MemFS.state BoltDB :=
  snd (Connection_Filewrite DemoServer.conf slow (NewRequest "Put" "/b.txt") DemoServer.world0).
Definition slow_written : World MemFS.state BoltDB :=
  snd (Transfer_WriteAt 0 (replicate 2500 (byte_of_Z 7)) 0 slow_upload).

Lemma throttle_enforces_bandwidth_witness :
  ∃ t, transfers slow_written !! 0%nat = Some t ∧ moved t = 2500 ∧ limit t = 1 ∧ clock slow_written = 2000000000
    ∧ moved t < limit t * (Z.quot (clock slow_written - t_start t) 1000000 + 1) + 1000
    ∧ limit t * Z.quot (clock slow_written - t_start t) 1000000 <= moved t.
Proof.
  destruct (transfers slow_written !! 0%nat) as [t|] eqn:Ht; [|vm_compute in Ht; discriminate].
  assert (moved t = 2500 ∧ limit t = 1 ∧ t_start t = 0) as (Hm & Hl & Hs)
    by (assert (Ht' := Ht); vm_compute in Ht'; injection Ht' as <-; split_and!; vm_compute; reflexivity).
  destruct (throttle_enforces_bandwidth 0 slow_upload slow_written t) as [_ Hb].
  - right. exists (replicate 2500 (byte_of_Z 7)), 0, (fst (Transfer_WriteAt 0 (replicate 2500 (byte_of_Z 7)) 0 slow_upload)).
    apply surjective_pairing.
  - exact Ht.
  - assert (clock slow_written = 2000000000 ∧ clock slow_upload = 0) as [Hc Hc0] by (vm_compute; split; reflexivity).
    exists t. rewrite Hm, Hl, Hs, Hc, Hc0 in Hb. rewrite Hm, Hl, Hs, Hc.
    destruct Hb as (_ & Hb & Hb'); [reflexivity|split; [discriminate|reflexivity]|discriminate|vm_compute; reflexivity|]. split_and!; try done; by apply Hb'.
Defined.

Lemma quota_scans_exclusive_witness :
  let w' := foldl scan_step DemoServer.world0 [ScanAdd "user"; ScanAdd "user"; ScanAdd "bob"] in
  scan_names w' = ["user"; "bob"]%string ∧ NoDup (scan_names w').
Proof.
  split; [vm_compute; reflexivity|].
  apply (quota_scans_exclusive DemoServer.world0 [ScanAdd "user"; ScanAdd "user"; ScanAdd "bob"] "user").
  reflexivity.
Defined.
