(* ===== verification/Expire.v ===== *)
(** * The expiry of users: cmd/serve.go, [check_user_expire_once]

    The server deletes the users whose "_expire:" permission names a time that
    has passed. The pass reads the users in pages of thirty, collects the
    expired ones, then deletes them. It is proved against the provider
    interface, so for every data provider that keeps its contract. *)
From Stdlib Require Import Ascii.
From stdpp Require Import base tactics option list strings gmap.
From Stdlib Require Import ZArith Lia.
From S2P Require Import Prelude GoJson GoPath GoStrconv DataProvider BoltProvider.

(** [len(p) < 10 || p[:8] != "_expire:"] *)
Definition no_expire (p : string) : bool :=
  (slen p <? 10) || negb (bool_decide (String.substring 0 8 p = "_expire:"%string)).

(** The text after the prefix, [p[8:]]. *)
Definition expire_text (p : string) : string := String.substring 8 (String.length p - 8) p.

(** The loops over the permissions of a user and over the users of a page.
    [ex_tm] is declared outside of them and keeps its value when the scan of a
    number fails. *)
Fixpoint scanPermissions (now ex_tm : Z) (user : User) (l : list string) (del : list User) : Z * list User :=
  match l with
  | [] => (ex_tm, del)
  | p :: l =>
      if no_expire p then scanPermissions now ex_tm user l del
      else
        let ex_tm := default ex_tm (Sscanf_d (expire_text p)) in
        scanPermissions now ex_tm user l (if ex_tm <? now then del ++ [user] else del)
  end.

Fixpoint scanUsers (now ex_tm : Z) (users : list User) (del : list User) : list User :=
  match users with
  | [] => del
  | u :: users =>
      let '(ex_tm, del) := scanPermissions now ex_tm u (Permissions u) del in
      scanUsers now ex_tm users del
  end.

Section expire.
Context {S : Type} `{Provider S} (config : Config).

(** The loop over the pages; [now i] is the Unix time at which the page at
    offset [i] was read. [None] when the loop does not end within the fuel. *)
Fixpoint collectExpired (fuel : nat) (now : Z → Z) (i : Z) (del : list User) (s : S) : option (list User) :=
  match fuel with
  | O => None
  | Datatypes.S fuel =>
      let '(users, err) := GetUsers 30 i EmptyString EmptyString s in
      match err with
      | Some _ => Some del
      | None =>
          match users with
          | [] => Some del
          | _ => collectExpired fuel now (i + 30) (scanUsers (now i) 0 users del) s
          end
      end
  end.

(** The deletions; errors are ignored. *)
Definition deleteAll (del : list User) (s : S) : S := foldl (λ s u, snd (DeleteUser config u s)) s del.

Definition check_user_expire_once (fuel : nat) (now : Z → Z) (s : S) : option S :=
  (λ del, deleteAll del s) <$> collectExpired fuel now 0 [] s.
End expire.

(** ** What an entry means *)
Definition expire_time (p : string) : option Z := if no_expire p then None else Sscanf_d (expire_text p).

(** A user is expired at a time when one of its entries names an earlier one. *)
Definition expired (t : Z) (u : User) : Prop :=
  ∃ p e, p ∈ Permissions u ∧ expire_time p = Some e ∧ e < t.

(** Every expiry entry of the user holds a number. *)
Definition expiry_wf (u : User) : Prop :=
  ∀ p, p ∈ Permissions u → no_expire p = false → is_Some (Sscanf_d (expire_text p)).

(** A malformed entry is compared with the last number read, or with 0: its
    user is deleted although nothing it holds has expired. *)
Example malformed_expiry_deletes :
  let eve := mkUser 1 "eve" "" [] "/home/eve" 0 0 0 0 0 ["*"; "_expire:never"] 0 0 0 0 0 in
  scanUsers 100 0 [eve] [] = [eve] ∧ ∀ t, ¬ expired t eve.
Proof.
  split; [vm_compute; reflexivity|]. intros t (p & e & Hp & He & _). simpl in Hp. rewrite !elem_of_cons in Hp.
  destruct Hp as [->|[->|[]%not_elem_of_nil]]; vm_compute in He; discriminate.
Qed.

Lemma scanPermissions_spec now ex_tm u l del :
  (∀ p, p ∈ l → no_expire p = false → is_Some (Sscanf_d (expire_text p))) →
  ∀ v, v ∈ snd (scanPermissions now ex_tm u l del) ↔
    v ∈ del ∨ v = u ∧ ∃ p e, p ∈ l ∧ expire_time p = Some e ∧ e < now.
Proof.
  revert ex_tm del. induction l as [|p l IH]; intros ex_tm del Hwf v; simpl.
  { split; [by left|]. intros [?|(_ & p & e & Hp & _)]; [done|]. by apply not_elem_of_nil in Hp. }
  destruct (no_expire p) eqn:Hn.
  - rewrite IH by (intros; apply Hwf; [by right|done]). apply or_iff_compat_l, and_iff_compat_l.
    split; intros (q & e & Hq & He & Hlt); exists q, e.
    + by split; [right|].
    + apply elem_of_cons in Hq as [->|Hq]; [|done]. unfold expire_time in He. by rewrite Hn in He.
  - destruct (Hwf p) as [e He]; [by left|done|]. rewrite He. simpl.
    assert (Het : expire_time p = Some e) by (unfold expire_time; by rewrite Hn).
    rewrite IH by (intros; apply Hwf; [by right|done]).
    assert (Hd : v ∈ (if e <? now then del ++ [u] else del) ↔ v ∈ del ∨ v = u ∧ e < now).
    { destruct (Z.ltb_spec e now); [rewrite elem_of_app, list_elem_of_singleton|]; intuition lia. }
    rewrite Hd. split.
    + intros [[?|[-> ?]]|(-> & q & e' & Hq & Hr)]; [by left|right..]; (split; [done|]).
      * exists p, e. by split; [left|].
      * exists q, e'. by split; [right|].
    + intros [?|(-> & q & e' & Hq & He' & Hlt)]; [by left; left|].
      apply elem_of_cons in Hq as [->|Hq]; [|right; split; [done|]; by exists q, e'].
      left; right. split; [done|]. congruence.
Qed.

Lemma scanUsers_spec now ex_tm us del :
  Forall expiry_wf us →
  ∀ v, v ∈ scanUsers now ex_tm us del ↔ v ∈ del ∨ v ∈ us ∧ expired now v.
Proof.
  intros Hwf. revert ex_tm del. induction Hwf as [|u us Hu Hus IH]; intros ex_tm del v; simpl.
  { split; [by left|]. intros [?|[Hv _]]; [done|]. by apply not_elem_of_nil in Hv. }
  destruct (scanPermissions now ex_tm u (Permissions u) del) as [e' del'] eqn:E.
  rewrite IH. pose proof (scanPermissions_spec now ex_tm u (Permissions u) del Hu v) as Hs.
  rewrite E in Hs. simpl in Hs. fold (expired now u) in Hs. rewrite Hs, elem_of_cons. split.
  - intros [[?|[-> ?]]|[? ?]]; auto.
  - intros [?|[[->|?] ?]]; auto.
Qed.

(** ** The entries [AddUser] writes are the ones the pass reads *)
Lemma substring_all x : String.substring 0 (String.length x) x = x.
Proof. induction x as [|c x IH]; [done|]. simpl. by rewrite IH. Qed.

Lemma expire_entry_text e : expire_text (expire_entry e) = Itoa e.
Proof. unfold expire_text, expire_entry. simpl. rewrite Nat.sub_0_r. apply substring_all. Qed.

Lemma expire_entry_prefix e : String.substring 0 8 (expire_entry e) = "_expire:"%string.
Proof. unfold expire_entry. by destruct (Itoa e). Qed.

Lemma expire_entry_perm e : perm_name (expire_entry e) = "_expire:"%string.
Proof. unfold expire_entry. by destruct (Itoa e). Qed.

Lemma Itoa_two_digits e : 10 <= e → 2 <= slen (Itoa e).
Proof.
  intros He. pose proof (parse_digits_Itoa e ltac:(lia)) as Hp.
  destruct (Itoa_head e) as (c & x & d & E & Hd); [lia|]. rewrite E in *. unfold slen. simpl in *.
  destruct x; [|simpl; lia]. rewrite Hd in Hp. simpl in Hp. unfold digit_of in Hd.
  destruct ((48 <=? Z.of_N (N_of_ascii c)) && (Z.of_N (N_of_ascii c) <=? 57)) eqn:Hc; [|done].
  apply andb_true_iff in Hc as [_ Hc]. apply Z.leb_le in Hc. simplify_eq. lia.
Qed.

Lemma slen_expire_entry e : slen (expire_entry e) = 8 + slen (Itoa e).
Proof. change (Z.of_nat (8 + String.length (Itoa e)) = 8 + Z.of_nat (String.length (Itoa e))). lia. Qed.

Lemma expire_entry_time e : 10 <= e < 2 ^ 63 → expire_time (expire_entry e) = Some e.
Proof.
  intros He. unfold expire_time, no_expire.
  rewrite expire_entry_prefix, bool_decide_true, expire_entry_text, orb_false_r by done.
  rewrite Sscanf_Itoa by lia. rewrite slen_expire_entry. pose proof (Itoa_two_digits e).
  by rewrite (proj2 (Z.ltb_ge _ _)) by lia.
Qed.

(** No entry of the list is an expiry entry for [AddUser]. *)
Definition plain_permission (p : string) : Prop :=
  slen p < 9 ∨ String.substring 0 8 p ≠ "_expire:"%string.

Lemma plain_no_expire p : plain_permission p → no_expire p = true.
Proof.
  unfold no_expire. intros [Hp|Hp]; [by rewrite (proj2 (Z.ltb_lt _ _)) by lia|].
  by rewrite bool_decide_false, orb_true_r.
Qed.

Lemma absoluteExpire_plain unix x l l' : Forall plain_permission l →
  absoluteExpire unix x (l ++ l')
  = (l ++ fst (absoluteExpire unix x l'), snd (absoluteExpire unix x l')).
Proof.
  induction 1 as [|p l Hp Hl IH]; simpl; [apply surjective_pairing|].
  assert ((slen p <? 9) || negb (bool_decide (String.substring 0 8 p = "_expire:"%string)) = true) as ->.
  { destruct Hp; [by rewrite (proj2 (Z.ltb_lt _ _)) by lia|]. by rewrite bool_decide_false, orb_true_r. }
  by rewrite IH.
Qed.

Lemma absoluteExpire_entry unix x m : 0 <= m < 2 ^ 63 →
  absoluteExpire unix x [expire_entry m] = ([expire_entry (i64 (unix + i64 (m * 60)))], true).
Proof.
  intros Hm. cbn [absoluteExpire]. rewrite expire_entry_prefix, bool_decide_true, orb_false_r by done.
  rewrite slen_expire_entry. destruct (Itoa_head m) as (c & y & d & E & _); [lia|].
  rewrite (proj2 (Z.ltb_ge _ _)) by (rewrite E; unfold slen; simpl; lia).
  fold (expire_text (expire_entry m)). rewrite expire_entry_text, Sscanf_Itoa by lia. done.
Qed.

(** A user that expires at [e] and no other time. *)
Lemma expired_at u l e : Permissions u = l ++ [expire_entry e] → Forall plain_permission l → 10 <= e < 2 ^ 63 →
  expiry_wf u ∧ ∀ t, expired t u ↔ e < t.
Proof.
  intros Hu Hl He. pose proof (expire_entry_time e He) as Ht. rewrite Forall_forall in Hl. split.
  - intros p Hp Hn. rewrite Hu in Hp. apply elem_of_app in Hp as [Hp%Hl%plain_no_expire|Hp]; [congruence|].
    apply list_elem_of_singleton in Hp as ->. unfold expire_time in Ht. rewrite Hn in Ht. by rewrite Ht.
  - intros t. unfold expired. rewrite Hu. split.
    + intros (p & e' & Hp & He' & Hlt). apply elem_of_app in Hp as [Hp%Hl%plain_no_expire|Hp].
      * unfold expire_time in He'. by rewrite Hp in He'.
      * apply list_elem_of_singleton in Hp as ->. by simplify_eq.
    + intros Hlt. exists (expire_entry e), e. split; [|done]. apply elem_of_app. right. by left.
Qed.

(** Adding an expiry entry keeps a user valid. *)
Lemma storable_expire u l e : l ⊆ Permissions u → storable u → storable (set_Permissions u (l ++ [expire_entry e])).
Proof.
  intros Hl [Hp Hk]. split; simpl; [|done]. apply Forall_app. split.
  - apply Forall_forall. rewrite Forall_forall in Hp. auto.
  - apply Forall_singleton, ascii_valid. unfold ascii_text, expire_entry. rewrite codes_app.
    apply Forall_app_2; [by repeat constructor|apply ascii_Itoa].
Qed.

Lemma validateUser_expire `{Crypto} u u' l e :
  validateUser u = Ok u' → l ⊆ Permissions u →
  validateUser (set_Permissions u (l ++ [expire_entry e])) = Ok (set_Permissions u' (l ++ [expire_entry e])).
Proof.
  unfold validateUser. intros E Hl. cbn [Username HomeDir Password PublicKeys Permissions set_Permissions].
  case_goal; [done|]. case_goal; [done|]. case_hyp E; [done|].
  rewrite bool_decide_false by (by destruct l). case_goal; [done|].
  destruct (checkPermissions (Permissions u)) eqn:Hc; [done|].
  assert (checkPermissions (l ++ [expire_entry e]) = None) as ->.
  { apply checkPermissions_ok in Hc. apply checkPermissions_ok, Forall_app. split.
    - apply Forall_forall. intros p Hp. rewrite Forall_forall in Hc. by apply Hc, Hl.
    - apply Forall_singleton. rewrite expire_entry_perm. by apply (bool_decide_unpack _). }
  apply result_bind_ok in E as (v & Hv & E). case_goal.
  - apply result_bind_ok in Hv as (pw & -> & Hv). simplify_eq. simpl in *. by case_hyp E; simplify_eq.
  - simplify_eq. simpl. by case_hyp E; simplify_eq.
Qed.

(** ** A pass removes exactly the expired users *)
Section pass.
Context {S : Type} `{ProviderSpec S} (config : Config).
Implicit Types s : S.

Lemma enumeration_elem s order u : pinv s →
  u ∈ enumeration order s ↔ contents s !! Username u = Some u.
Proof.
  intros Hs. rewrite (enumeration_spec s order Hs), list_elem_of_fmap. split.
  - intros ([n v] & -> & Hv). apply elem_of_map_to_list in Hv. simpl.
    by rewrite (contents_name s n v Hs Hv).
  - intros Hu. exists (Username u, u). split; [done|]. by apply elem_of_map_to_list.
Qed.

Lemma expired_mono t t' u : t <= t' → expired t u → expired t' u.
Proof. intros Ht (p & e & Hp & He & Hlt). exists p, e. split_and!; [done..|lia]. Qed.

(** Reading the pages from offset [i] collects the expired users from there on;
    one page per thirty users, and an empty one, are enough. *)
Lemma collectExpired_spec t0 t1 now fuel i del s l :
  pinv s → (∀ j, t0 <= now j <= t1) → l = enumeration EmptyString s → Forall expiry_wf l →
  0 <= i → 0 < Z.of_nat fuel → zlen l - i <= 30 * (Z.of_nat fuel - 1) →
  ∃ del', collectExpired fuel now i del s = Some del'
    ∧ (∀ v, v ∈ del' → v ∈ del ∨ ∃ u, u ∈ l ∧ v = getUserNoCredentials u ∧ expired t1 u)
    ∧ (∀ v, v ∈ del → v ∈ del')
    ∧ (∀ u, u ∈ drop (Z.to_nat i) l → expired t0 u → getUserNoCredentials u ∈ del').
Proof.
  intros Hs Ht -> Hwf. set (l := enumeration EmptyString s) in *.
  revert i del. induction fuel as [|fuel IH]; intros i del Hi Hf0 Hf; [lia|].
  cbn [collectExpired]. unfold GetUsers. rewrite getUsers_spec by (done || lia || by apply (bool_decide_unpack _)). fold l.
  set (page := take (Z.to_nat 30) (drop (Z.to_nat i) l)).
  destruct (decide (page = [])) as [Hp|Hp].
  { rewrite Hp. exists del. split; [done|]. split; [by left|]. split; [done|]. intros u Hu.
    apply take_nil_inv in Hp as [?|Hp]; [done|]. rewrite Hp in Hu. by apply not_elem_of_nil in Hu. }
  assert (Hsplit : drop (Z.to_nat i) l = page ++ drop (Z.to_nat (i + 30)) l).
  { rewrite Z2Nat.inj_add, <- drop_drop by lia. symmetry. apply take_drop. }
  assert (Hsub : ∀ u, u ∈ page → u ∈ l).
  { intros u Hu. rewrite <- (take_drop (Z.to_nat i) l), Hsplit, !elem_of_app. auto. }
  assert (Hwp : Forall expiry_wf (map getUserNoCredentials page)).
  { apply Forall_map, Forall_forall. intros u Hu. rewrite Forall_forall in Hwf. change (expiry_wf u). auto. }
  pose proof (scanUsers_spec (now i) 0 _ del Hwp) as Hscan.
  assert (0 < zlen l - i).
  { assert (length page ≠ 0%nat) as Hl by (by destruct page). unfold page in Hl.
    rewrite length_take, length_drop in Hl. unfold zlen. lia. }
  replace (match map getUserNoCredentials page with [] => _ | _ => _ end) with
    (collectExpired fuel now (i + 30) (scanUsers (now i) 0 (map getUserNoCredentials page) del) s)
    by (by destruct page).
  destruct (IH (i + 30) (scanUsers (now i) 0 (map getUserNoCredentials page) del))
    as (del' & E & Ha & Hb & Hc); [lia..|].
  exists del'. split; [done|]. split_and!.
  - intros v Hv. apply Ha in Hv as [Hv|Hv]; [|by right]. apply Hscan in Hv as [Hv|[Hv He]]; [by left|right].
    apply list_elem_of_fmap in Hv as (u & -> & Hu). exists u. split_and!; [by apply Hsub|done|].
    by apply (expired_mono (now i)); [apply Ht|].
  - intros v Hv. apply Hb, Hscan. by left.
  - intros u Hu He. rewrite Hsplit in Hu. apply elem_of_app in Hu as [Hu|Hu]; [|by apply Hc].
    apply Hb, Hscan. right. split; [by apply list_elem_of_fmap_2|]. by apply (expired_mono t0); [apply Ht|].
Qed.

(** The deletions: a user goes when it is in the list, the others stay. *)
Lemma DeleteUser_spec s u : ManageUsers config = 1 → pinv s →
  contents s !! Username u = Some u →
  ∃ s', DeleteUser config (getUserNoCredentials u) s = (None, s') ∧ pinv s'
    ∧ contents s' = delete (Username u) (contents s).
Proof.
  intros Hm Hs Hu. unfold DeleteUser. rewrite Hm. simpl. by apply (deleteUser_spec s _ u).
Qed.

Lemma deleteAll_spec s0 del s : ManageUsers config = 1 → pinv s0 → pinv s → contents s ⊆ contents s0 →
  (∀ v, v ∈ del → ∃ u, contents s0 !! Username u = Some u ∧ v = getUserNoCredentials u) →
  pinv (deleteAll config del s) ∧
  ∀ n u, contents (deleteAll config del s) !! n = Some u ↔
    contents s !! n = Some u ∧ ∀ v, v ∈ del → Username v ≠ n.
Proof.
  intros Hm Hs0. revert s. induction del as [|v del IH]; intros s Hs Hsub Hdel; simpl.
  { split; [done|]. intros n u. split; [|by intros [? _]]. intros Hu. split; [done|].
    intros v Hv. by apply not_elem_of_nil in Hv. }
  destruct (Hdel v) as (u & Hu & ->); [by left|].
  assert (∃ err s', DeleteUser config (getUserNoCredentials u) s = (err, s') ∧ pinv s'
    ∧ contents s' = delete (Username u) (contents s)) as (err & s' & -> & Hs' & Hc).
  { destruct (contents s !! Username u) as [u'|] eqn:Hx.
    - pose proof (lookup_weaken _ _ _ _ Hx Hsub) as Hx'. rewrite Hu in Hx'. simplify_eq.
      destruct (DeleteUser_spec s u' Hm Hs Hx) as (s' & E & ? & ?). by exists None, s'.
    - unfold DeleteUser. rewrite Hm. simpl.
      destruct (deleteUser_absent s (getUserNoCredentials u) Hs) as (err & s' & E & ? & Hc).
      + exact (contents_i64 s0 _ u Hs0 Hu).
      + intros n v Hv Hid. pose proof (lookup_weaken _ _ _ _ Hv Hsub) as Hv'.
        rewrite (contents_ids s0 _ _ _ _ Hs0 Hv' Hu Hid) in Hv. congruence.
      + exists err, s'. by rewrite E, delete_id. }
  destruct (IH s') as [Hp Hq]; [done| |intros v Hv; apply Hdel; by right|].
  { rewrite Hc. etrans; [apply delete_subseteq|done]. }
  split; [done|]. intros n w. simpl. rewrite Hq, Hc, lookup_delete_Some. split.
  - intros [[Hne Hw] Hd]. split; [done|]. intros v [->|Hv]%elem_of_cons; auto.
  - intros [Hw Hd]. split; [split; [|done]|].
    + apply (Hd (getUserNoCredentials u)). by left.
    + intros v Hv. apply Hd. by right.
Qed.

(** C28: a pass of the expiry check terminates, and removes the users whose
    expiry time has passed. Let users be managed by the server (ManageUsers is
    1), and let every expiry entry of every stored user hold a number (a user
    with a malformed entry can be deleted, see [malformed_expiry_deletes]). With
    every page read between the times [t0] and [t1], a user that had expired at
    [t0] is gone, one that has not expired at [t1] is unchanged, and no user
    appears or is modified. The number of users bounds the pages that are read. *)
Theorem expired_users_removed t0 t1 now fuel s :
  ManageUsers config = 1 → pinv s → (∀ n u, contents s !! n = Some u → expiry_wf u) →
  (∀ j, t0 <= now j <= t1) → (size (contents s) < fuel)%nat →
  ∃ s', check_user_expire_once config fuel now s = Some s' ∧ pinv s' ∧
    (∀ n u, contents s' !! n = Some u → contents s !! n = Some u ∧ ¬ expired t0 u) ∧
    (∀ n u, contents s !! n = Some u → ¬ expired t1 u → contents s' !! n = Some u).
Proof.
  intros Hm Hs Hwf Ht Hfuel. set (l := enumeration EmptyString s).
  assert (Hl : ∀ u, u ∈ l ↔ contents s !! Username u = Some u) by (intros; by apply enumeration_elem).
  assert (Hlen : length l = size (contents s)).
  { unfold l. by rewrite (Permutation_length (enumeration_spec s EmptyString Hs)), length_fmap, length_map_to_list. }
  destruct (collectExpired_spec t0 t1 now fuel 0 [] s l) as (del & E & Ha & _ & Hc); [done..| | | | |].
  { apply Forall_forall. intros u Hu. by eapply Hwf, Hl. }
  { lia. } { lia. } { unfold zlen. lia. }
  unfold check_user_expire_once. rewrite E. simpl.
  assert (Hdel : ∀ v, v ∈ del → ∃ u, contents s !! Username u = Some u ∧ v = getUserNoCredentials u ∧ expired t1 u).
  { intros v Hv. apply Ha in Hv as [Hv|(u & Hu & ? & ?)]; [by apply not_elem_of_nil in Hv|].
    exists u. by rewrite <- Hl. }
  destruct (deleteAll_spec s del s Hm Hs Hs) as [Hp Hq]; [done| |].
  { intros v Hv. destruct (Hdel v Hv) as (u & ? & ? & _). by exists u. }
  eexists. split; [done|]. split; [done|]. split.
  - intros n u Hu. apply Hq in Hu as [Hu Hd]. split; [done|]. intros He.
    pose proof (contents_name s n u Hs Hu) as Hn. apply (Hd (getUserNoCredentials u)); [|done].
    apply Hc; [|done]. rewrite drop_0. apply Hl. by rewrite Hn.
  - intros n u Hu He. apply Hq. split; [done|]. intros v Hv. destruct (Hdel v Hv) as (u' & Hu' & -> & He').
    simpl. intros <-. rewrite Hu in Hu'. by simplify_eq.
Qed.

(** The expiry a user is created with is the one the pass enforces. A user
    added at time [now] (in nanoseconds) with an entry "_expire:m", or without
    one under a default of [m] minutes, is stored with exactly one expiry
    entry, and is expired at the Unix time [t] exactly when [t] is later than
    [m] minutes after its creation. *)
Theorem new_user_expires now m l u u' s :
  ManageUsers config = 1 → pinv s → room s →
  validateUser u = Ok u' → storable u → contents s !! Username u = None → Forall plain_permission l →
  (Permissions u = l ++ [expire_entry m] ∧ 0 <= m ∨
   Permissions u = l ∧ m = DefaultUserExpire config ∧ 0 < m) →
  10 <= now / 1000000000 → now / 1000000000 + m * 60 < 2 ^ 63 →
  ∃ s' v, AddUser config now u s = (None, s') ∧ pinv s' ∧ contents s' !! Username u = Some v
    ∧ Permissions v = l ++ [expire_entry (now / 1000000000 + m * 60)]
    ∧ expiry_wf v ∧ ∀ t, expired t v ↔ now / 1000000000 + m * 60 < t.
Proof.
  intros Hm Hs Hr Hv Hst Hn Hl Hp H10 He. set (unix := now / 1000000000) in *. set (e := unix + m * 60) in *.
  assert (Hi : i64 (unix + i64 (m * 60)) = e).
  { assert (0 <= m) by intuition lia. rewrite (i64_id (m * 60)) by (split; lia). apply i64_id. split; lia. }
  assert (E : AddUser config now u s = addUser (set_Permissions u (l ++ [expire_entry e])) s).
  { unfold AddUser. rewrite Hm. simpl. fold unix. destruct Hp as [[-> Hm0]|(-> & Hm0 & Hpos)].
    - rewrite absoluteExpire_plain, absoluteExpire_entry, Hi by (done || lia). done.
    - rewrite <- (app_nil_r l) at 1. rewrite absoluteExpire_plain by done. simpl. rewrite app_nil_r.
      rewrite <- Hm0, (proj2 (Z.ltb_lt _ _)), Hi by lia. done. }
  assert (Hsub : l ⊆ Permissions u).
  { destruct Hp as [[-> _]|[-> _]]; [|done]. intros p Hp. apply elem_of_app. by left. }
  assert (Hname : Username u' = Username u) by (by apply validateUser_fields in Hv as (? & _)).
  destruct (addUser_spec s _ _ Hs Hr (validateUser_expire u u' l e Hv Hsub)) as (v & s' & Ea & Hs' & Hc & Ha & _).
  { apply validateUser_fields in Hv as (_ & _ & Hperm & Hkeys). apply storable_expire; [by rewrite Hperm|].
    unfold storable. by rewrite Hperm, Hkeys. }
  { simpl. by rewrite Hname. }
  assert (Hpv : Permissions v = l ++ [expire_entry e]) by exact (f_equal Permissions Ha).
  exists s', v. rewrite E. split; [done|]. split; [done|]. simpl in Hc. rewrite Hc, Hname, lookup_insert_eq.
  split; [done|]. split; [done|]. apply (expired_at _ l e); [done..|lia].
Qed.
End pass.

(** ** Witnesses on the bolt provider *)
Definition expire_config : Config := Build_Config BoltDataProviderName "sshserv.db" "" 0 "" "" 0 "" "users" 1 1 60.
Definition expiring (name entry : string) : User :=
  mkUser 0 name "secret" [] "/home/x" 1000 1000 0 0 0 ["upload"; entry]%string 0 0 0 0 0.
Definition expire_ops : list bolt_op :=
  [OpAdd (expiring "old" "_expire:1000"); OpAdd (expiring "new" "_expire:3000"); OpAdd bob].
Definition three_users : BoltDB := foldl bolt_step emptyBolt expire_ops.

Lemma three_users_inv : bolt_inv three_users.
Proof.
  unfold three_users, expire_ops, foldl. apply bolt_step_inv; [|vm_compute; done|done].
  apply bolt_step_inv; [|vm_compute; done|done].
  apply bolt_step_inv; [apply emptyBolt_inv|done|done].
Qed.

Lemma three_users_wf n u : contents three_users !! n = Some u → expiry_wf u.
Proof.
  intros Hu%elem_of_map_to_list. set (l := map_to_list (contents three_users)) in Hu.
  vm_compute in l. subst l. repeat (apply elem_of_cons in Hu as [[= -> ->]|Hu]);
    [..|by apply not_elem_of_nil in Hu];
    intros p Hp; repeat (apply elem_of_cons in Hp as [->|Hp]); try (by apply not_elem_of_nil in Hp);
    vm_compute; intros; (discriminate || by eexists).
Qed.

(** At time 2000 the first user has expired and the others have not. *)
Lemma expired_users_removed_witness :
  ∃ s', check_user_expire_once expire_config 4 (λ _, 2000) three_users = Some s' ∧ pinv s'
    ∧ contents s' !! "old"%string = None ∧ is_Some (contents s' !! "new"%string)
    ∧ is_Some (contents s' !! "bob"%string).
Proof.
  destruct (expired_users_removed expire_config 2000 2000 (λ _, 2000) 4 three_users)
    as (s' & E & Hs' & _ & _); [done|exact three_users_inv|exact three_users_wf|intros; lia|vm_compute; lia|].
  exists s'. split; [exact E|]. split; [exact Hs'|]. vm_compute in E. injection E as <-.
  vm_compute. split; [done|]. split; by eexists.
Defined.

(** Carol is created at the Unix time 100 with an expiry of five minutes. *)
Lemma new_user_expires_witness :
  ∃ s' v, AddUser expire_config 100000000000 (expiring "carol" "_expire:5") three_users = (None, s')
    ∧ contents s' !! "carol"%string = Some v ∧ expired 401 v ∧ ¬ expired 400 v.
Proof.
  destruct (new_user_expires expire_config 100000000000 5 ["upload"]%string (expiring "carol" "_expire:5")
    (set_Password (expiring "carol" "_expire:5") (ToyCrypto.argon "secret")) three_users)
    as (s' & v & E & _ & Hv & _ & _ & Ht).
  - reflexivity.
  - exact three_users_inv.
  - vm_compute. reflexivity.
  - vm_compute. reflexivity.
  - apply (bool_decide_unpack _). vm_compute. exact I.
  - vm_compute. reflexivity.
  - apply Forall_singleton. left. vm_compute. reflexivity.
  - left. split; [vm_compute; reflexivity|lia].
  - vm_compute. discriminate.
  - vm_compute. reflexivity.
  - exists s', v. split; [exact E|]. split; [exact Hv|]. rewrite !Ht. vm_compute. split; [reflexivity|discriminate].
Defined.
