(* ===== verification/Server.v ===== *)
(** * The SSH server: serv/server.go, serv/shell_linux.go and the entry points of
    serv/portforwarding.go

    Logging in, accepting a connection, and the requests on a connection and on
    a session channel. What the SSH library and the operating system do is an
    argument: the handshake delivers the permissions a callback returned,
    [ssh.Unmarshal], [shlex.Split] and [encoding/json] are the functions of a
    class, and the outcomes of opening a pty, starting a process or listening
    on an address come with the request that causes the call. *)
From Stdlib Require Import Ascii.
From stdpp Require Import base tactics option list strings gmap.
From Stdlib Require Import ZArith Lia.
From S2P Require Import Prelude GoOs SftpWire GoPath GoStrconv.
From S2P Require Import DataProvider BoltProvider FileSystem Sessions FileHandler.

Record ExtConf := mkExtConf {
  HDFS : string;
  HDFSHosts : string;
  BasePubkey : string;
  BaseUser : string;
  _basePubKey : string;
  _baseUser : string
}.

Record Configuration := mkConfiguration {
  serv_conf : ServConf;
  IsSCPEnabled : bool;
  FullFunc : bool;
  Ext : ExtConf
}.

(** The functions of other packages. [json_Marshal] and [json_Unmarshal] are
    those of [encoding/json] at the type [User] (what could be decoded is kept
    when an error is returned); [shlex_Split] returns the parts
    it found also when it fails; [Unmarshal_exec] and [Unmarshal_forward] are
    [ssh.Unmarshal] at [execMsg] and [remoteForwardRequest]. *)
Class Libraries := {
  json_Marshal : User → result string;
  json_Unmarshal : string → User * option error;
  shlex_Split : string → list string * option error;
  Unmarshal_exec : list byte → result string;
  Unmarshal_forward : list byte → result (string * Z)
}.

Definition newline : string := String "010" EmptyString.
Definition double_quote : ascii := "034".

(** The base user of a configuration that names none: the pieces between the
    double quotes of the JSON text. *)
Definition defaultBaseUser : string :=
  strings_Join
    ["{"; "id"; ":1,"; "username"; ":"; "_base_"; ","; "permissions"; ":["; "*"; "],"; "password";
     ":"; EmptyString; ","; "home_dir"; ":"; "/"; ","; "uid"; ":0,"; "gid";
     (":0," +:+ newline +:+ "            "); "max_sessions"; ":0, "; "quota_size"; ":0,";
     "quota_files"; ":0,"; "used_quota_size"; ":0,"; "used_quota_files";
     (":0," +:+ newline +:+ "            "); "last_quota_update"; ":0,"; "upload_bandwidth"; ":0,";
     "download_bandwidth"; ":0}"]%string
    double_quote.

Section server.
Context {F P : Type} `{FileSystem F, Provider P, Crypto, Libraries} (c : Configuration).
Implicit Types w : World F P.

Definition _initBaseKey (e : ExtConf) : ExtConf :=
  if strings_Contains (BasePubkey e) "ssh-" then
    let base := if bool_decide (BaseUser e = EmptyString) then defaultBaseUser else BaseUser e in
    let name := Username (fst (json_Unmarshal base)) in
    let key := match ParseAuthorizedKey (BasePubkey e) with Ok k => k | _ => _basePubKey e end in
    mkExtConf (HDFS e) (HDFSHosts e) (BasePubkey e) base key name
  else e.

(** The permissions the SSH library keeps for the connection are the text under
    the key "user" of their extensions. *)
Definition _checkBaseKey (user pubkey : string) : option string :=
  if bool_decide (user = _baseUser (Ext c)) && bool_decide (pubkey = _basePubKey (Ext c))
  then Some (BaseUser (Ext c)) else None.

(** ** Logging in *)
Definition loginUser (user : User) w : result string * World F P :=
  if negb (IsAbs (HomeDir user)) then
    (Err (EMsg ("Cannot login user with invalid home dir: " +:+ HomeDir user)), w)
  else
    let w :=
      if os_IsNotExist (err_of (os_Stat (HomeDir user) (disk w))) then
        let '(err, d) := os_MkdirAll (HomeDir user) 0x1ff (disk w) in
        let w := set_disk d w in
        match err with
        | None => SetPathPermissions (HomeDir user) (GetUID user) (GetGID user) w
        | Some _ => w
        end
      else w in
    if (0 <? MaxSessions user) && (MaxSessions user <=? getActiveSessions (Username user) w) then
      (Err (EMsg ("Too many open sessions: " +:+ Itoa (getActiveSessions (Username user) w))), w)
    else (json_Marshal user, w).

Definition validatePublicKeyCredentials (user pubKey : string) w : result string * World F P :=
  match _checkBaseKey user pubKey with
  | Some p => (Ok p, w)
  | None =>
      match CheckUserAndPubKey user pubKey (prov w) with
      | Ok u => loginUser u w
      | Err e => (Err e, w)
      | Panic => (Panic, w)
      end
  end.

Definition validatePasswordCredentials (user pass : string) w : result string * World F P :=
  match CheckUserAndPass user pass (prov w) with
  | Ok u => loginUser u w
  | Err e => (Err e, w)
  | Panic => (Panic, w)
  end.

(** [AcceptInboundConnection] up to its loop: the connection of the user whose
    record the login left in the permissions. *)
Definition newConnection (sessionID version remote permissions : string) w : result Connection :=
  match json_Unmarshal permissions with
  | (_, Some err) => Err err
  | (user, None) => Ok (mkConnection sessionID user version remote (clock w) (clock w) EmptyString)
  end.
End server.

Definition parseCommandPayload (command : string) : string * list string :=
  match strings_Split command " "%char with
  | [] => (EmptyString, [])
  | [name] => (name, [])
  | name :: args => (name, args)
  end.

(** ** Requests on a session channel (shell_linux.go)

    [pty_ok] and [start_ok] tell whether opening a pty and starting a process
    succeed while the request is served. *)
Record SSHRequest := mkSSHRequest {
  req_Type : string;
  req_Payload : list byte;
  pty_ok : bool;
  start_ok : bool
}.

Inductive session_action :=
  | StartSftp (connection : Connection)
  | StartScp (connection : Connection) (args : list string)
  | StartExec (name : string) (args : list string) (dir : string)
  | StartShell (dir : string)
  | SetWinsize (width height : Z)
  | SendReply (ok : bool).

Definition set_protocol (conn : Connection) (p : string) : Connection :=
  mkConnection (conn_ID conn) (conn_User conn) (ClientVersion conn) (RemoteAddr conn) (StartTime conn)
    (lastActivity conn) p.

(** Two big-endian words; the slice expression and the reads panic on a short
    buffer. *)
Definition parseDims (b : list byte) : result (Z * Z) :=
  '(w, rest) ← unmarshalUint32 b;
  '(h, _) ← unmarshalUint32 rest;
  Ok (w, h).

(** The fields of [Winsize] have sixteen bits. *)
Definition resize (dims : Z * Z) : session_action :=
  SetWinsize (fst dims mod 2 ^ 16) (snd dims mod 2 ^ 16).

(** [termLen] is a byte, and so is [termLen+4]. *)
Definition handlePtrReq (req : SSHRequest) : result (list session_action * bool) :=
  if negb (pty_ok req) then Ok ([], false)
  else match req_Payload req !! 3%nat with
  | None => Panic
  | Some termLen =>
      let stop := (Z_of_byte termLen + 4) mod 256 in
      if (stop <? 4) || (zlen (req_Payload req) <? stop) then Panic
      else dims ← parseDims (drop (Z.to_nat stop) (req_Payload req)); Ok ([resize dims], true)
  end.

(** [handleExec] opens a pty, then starts the command on it. *)
Definition handleExec (req : SSHRequest) : option error :=
  if negb (pty_ok req) then Some (EMsg "open pty failed")
  else if start_ok req then None else Some (EMsg "exec failed").

Section session.
Context `{Libraries} (c : Configuration) (connection : Connection).
Let user := conn_User connection.

(** One iteration of the loop of [handleSSHRequest]: what it does, whether the
    pty is open afterwards, and whether the loop goes on. *)
Definition handleRequest (fPty : bool) (req : SSHRequest) : result (list session_action * bool * bool) :=
  if bool_decide (req_Type req = "subsystem"%string) then
    if zlen (req_Payload req) <? 4 then Panic
    else if bool_decide (string_of_bytes (drop 4 (req_Payload req)) = "sftp"%string) then
      Ok ([StartSftp (set_protocol connection "SFTP"); SendReply true], fPty, true)
    else Ok ([SendReply false], fPty, true)
  else if bool_decide (req_Type req = "exec"%string) then
    match Unmarshal_exec (req_Payload req) with
    | Ok command =>
        let '(parts, err) := shlex_Split command in
        match parts with
        | [] => Panic
        | name :: execArgs =>
            match err with
            | Some _ => Ok ([SendReply false], fPty, true)
            | None =>
                if IsSCPEnabled c && bool_decide (name = "scp"%string) && (2 <=? zlen execArgs) then
                  Ok ([StartScp (set_protocol connection "SCP") execArgs; SendReply true], fPty, true)
                else if HasPerm user PermShell then
                  match handleExec req with
                  | None => Ok ([StartExec name execArgs (HomeDir user); SendReply true], fPty, false)
                  | Some _ => Ok ([SendReply false], fPty, false)
                  end
                else Ok ([SendReply false], fPty, true)
            end
        end
    | Err _ => Ok ([SendReply false], fPty, true)
    | Panic => Panic
    end
  else if bool_decide (req_Type req = "shell"%string) then
    if fPty then Ok ([StartShell (HomeDir user); SendReply true], fPty, true)
    else Ok ([SendReply false], fPty, true)
  else if bool_decide (req_Type req = "pty-req"%string) then
    if FullFunc c && HasPerm user PermShell then
      '(acts, opened) ← handlePtrReq req; Ok (acts ++ [SendReply opened], opened, true)
    else Ok ([SendReply false], fPty, true)
  else if bool_decide (req_Type req = "window-change"%string) then
    if fPty then dims ← parseDims (req_Payload req); Ok ([resize dims], fPty, true)
    else Ok ([], fPty, true)
  else Ok ([SendReply false], fPty, true).

(** The loop, with what was done before it ended or panicked. *)
Fixpoint handleSSHRequest (fPty : bool) (reqs : list SSHRequest) : list session_action * result unit :=
  match reqs with
  | [] => ([], Ok tt)
  | req :: reqs =>
      match handleRequest fPty req with
      | Ok (acts, fPty, true) => let '(acts', r) := handleSSHRequest fPty reqs in (acts ++ acts', r)
      | Ok (acts, _, false) => (acts, Ok tt)
      | Err e => ([], Err e)
      | Panic => ([], Panic)
      end
  end.
End session.

(** ** Requests on a connection

    [listen] is the port [net.Listen] bound, if it succeeds. Listeners are
    numbered in the order in which they are created. *)
Inductive conn_event :=
  | GlobalRequest (type : string) (payload : list byte) (listen : option Z)
  | NewChannel (type : string) (accept_ok : bool).

Inductive conn_action :=
  | ListenOn (ln : nat) (addr : string)
  | CloseListener (ln : nat)
  | ReplyForward (ok : bool) (port : option Z)
  | DirectTCPIP
  | RejectChannel
  | AcceptSession.

Definition JoinHostPort (host port : string) : string :=
  if strings_Contains host ":" then "[" +:+ host +:+ "]:" +:+ port else host +:+ ":" +:+ port.

(** [ForwardedTCPHandler]: the listeners by address, and the number of the next
    one. *)
Record ForwardedTCPHandler := mkForwards { forwards : gmap string nat; next_ln : nat }.

Section connection.
Context `{Libraries} (c : Configuration) (connection : Connection).

(** Whether the request succeeds, and the port it is answered with. Closing a
    listener ends its accept loop, which forgets the address. *)
Definition handlePortforward (type : string) (payload : list byte) (listen : option Z)
    (h : ForwardedTCPHandler) : list conn_action * bool * option Z * ForwardedTCPHandler :=
  if bool_decide (type = "tcpip-forward"%string) then
    match Unmarshal_forward payload with
    | Ok (host, port) =>
        let addr := JoinHostPort host (Itoa port) in
        match listen with
        | Some destPort =>
            ([ListenOn (next_ln h) addr], true, Some destPort,
             mkForwards (<[addr := next_ln h]> (forwards h)) (S (next_ln h)))
        | None => ([], false, None, h)
        end
    | _ => ([], false, None, h)
    end
  else if bool_decide (type = "cancel-tcpip-forward"%string) then
    match Unmarshal_forward payload with
    | Ok (host, port) =>
        let addr := JoinHostPort host (Itoa port) in
        match forwards h !! addr with
        | Some ln => ([CloseListener ln], true, None, mkForwards (delete addr (forwards h)) (next_ln h))
        | None => ([], true, None, h)
        end
    | _ => ([], false, None, h)
    end
  else ([], false, None, h).

Definition iterChans (type : string) (accept_ok : bool) : list conn_action * bool :=
  if bool_decide (type = "direct-tcpip"%string) then
    if FullFunc c && HasPerm (conn_User connection) PermTCPForward then ([DirectTCPIP], true)
    else ([], false)
  else if negb (bool_decide (type = "session"%string)) then ([RejectChannel], false)
  else if negb accept_ok then ([], false)
  else ([AcceptSession], true).

(** The loop of [AcceptInboundConnection] and the clean-up after it. *)
Fixpoint connectionLoop (h : ForwardedTCPHandler) (evs : list conn_event) : list conn_action :=
  match evs with
  | [] => map CloseListener ((map_to_list (forwards h)).*2)
  | GlobalRequest type payload listen :: evs =>
      if bool_decide (type = "tcpip-forward"%string) then
        if FullFunc c && HasPerm (conn_User connection) PermTCPForward then
          let '(acts, ok, port, h) := handlePortforward type payload listen h in
          acts ++ ReplyForward ok (if (ok : bool) then port else None) :: connectionLoop h evs
        else ReplyForward false None :: connectionLoop h evs
      else connectionLoop h evs
  | NewChannel type accept_ok :: evs =>
      let '(acts, loop) := iterChans type accept_ok in
      acts ++ (if loop then connectionLoop h evs else map CloseListener ((map_to_list (forwards h)).*2))
  end.
Definition AcceptInboundConnection (evs : list conn_event) : list conn_action :=
  connectionLoop (mkForwards ∅ 0) evs.
End connection.

(** ** Logging in is sound *)

(** What the permissions of a successful login decode to. *)
Class LibrariesSpec `{Libraries} := {
  utf8_user : User → Prop;
  json_roundtrip u : utf8_user u → ∃ s, json_Marshal u = Ok s ∧ json_Unmarshal s = (u, None)
}.

Section login_spec.
Context {F P : Type} `{FileSystem F, ProviderSpec P, LibrariesSpec} (c : Configuration).
Implicit Types w : World F P.

(** A login leaves everything but the disk alone. *)
Definition same_sessions w w' : Prop :=
  prov w' = prov w ∧ openConnections w' = openConnections w ∧ clock w' = clock w.

Lemma loginUser_spec u w : let '(r, w') := loginUser u w in
  same_sessions w w' ∧
  ∀ p, r = Ok p →
    json_Marshal u = Ok p ∧ IsAbs (HomeDir u) = true ∧
    (0 < MaxSessions u → getActiveSessions (Username u) w < MaxSessions u).
Proof.
  unfold loginUser. destruct (IsAbs (HomeDir u)) eqn:Ha; simpl; [|by split].
  match goal with |- context [if os_IsNotExist ?e then ?x else w] =>
    set (w1 := if os_IsNotExist e then x else w) end.
  assert (Hw : same_sessions w w1).
  { subst w1. destruct (os_IsNotExist _); [|by split_and!].
    destruct (os_MkdirAll _ _ _) as [[e|] d]; by split_and!. }
  assert (Hn : getActiveSessions (Username u) w1 = getActiveSessions (Username u) w).
  { destruct Hw as (_ & Hc & _). unfold getActiveSessions, connections. by rewrite Hc. }
  clearbody w1. rewrite Hn.
  destruct ((0 <? MaxSessions u) && _) eqn:Hb; (split; [done|]); [done|]. intros p Hp. split_and!; [done..|].
  apply andb_false_iff in Hb as [Hb%Z.ltb_ge|Hb%Z.leb_gt]; lia.
Qed.

(** C22: a session is only opened for a stored user whose credentials verify.
    When the server accepts a password, the account of that name is in the
    store, has a stored hash that the password matches and an absolute home
    directory, is below its session limit, and the connection acts as exactly
    that user; neither the store nor the open connections change. *)
Theorem password_login_sound name pass sessionID version remote w p w' :
  pinv (prov w) → (∀ n u, contents (prov w) !! n = Some u → utf8_user u) →
  validatePasswordCredentials name pass w = (Ok p, w') →
  same_sessions w w' ∧
  ∃ u, contents (prov w) !! name = Some u ∧ checkUserAndPass u pass = Ok u ∧ IsAbs (HomeDir u) = true ∧
    (0 < MaxSessions u → getActiveSessions name w < MaxSessions u) ∧
    newConnection sessionID version remote p w'
    = Ok (mkConnection sessionID u version remote (clock w) (clock w) EmptyString).
Proof.
  intros Hi Hutf. unfold validatePasswordCredentials, CheckUserAndPass.
  destruct (validateUserAndPass name pass (prov w)) as [u| |] eqn:Hv; [|done..].
  apply validateUserAndPass_ok in Hv as (Hu & _ & Hc); [|done]. intros E.
  pose proof (loginUser_spec u w) as Hl. rewrite E in Hl. destruct Hl as [Hs Hl].
  destruct (Hl p eq_refl) as (Hj & Ha & Hm). split; [done|]. exists u.
  rewrite (contents_name _ _ _ Hi Hu) in Hm. split_and!; [done..|].
  destruct (json_roundtrip u (Hutf _ _ Hu)) as (s & Hj' & Hj2). rewrite Hj in Hj'. simplify_eq.
  unfold newConnection. rewrite Hj2. destruct Hs as (_ & _ & ->). done.
Qed.

(** ** The session limit *)
Lemma sessions_remove name id w : getActiveSessions name (removeConnection id w) <= getActiveSessions name w.
Proof.
  unfold getActiveSessions, connections, removeConnection, zlen. simpl.
  destruct (openConnections w !! id) as [x|] eqn:Hx; [|by rewrite delete_id].
  rewrite <- (map_to_list_delete _ _ _ Hx). csimpl.
  rewrite filter_cons. destruct (decide (Username (conn_User x) = name)); simpl; lia.
Qed.

Lemma sessions_add name id conn w :
  getActiveSessions name (addConnection id conn w)
  <= getActiveSessions name w + (if decide (Username (conn_User conn) = name) then 1 else 0).
Proof.
  etrans; [|apply Z.add_le_mono_r, (sessions_remove name id)].
  unfold getActiveSessions, connections, removeConnection, addConnection, zlen. simpl.
  rewrite <- insert_delete_eq, map_to_list_insert by apply lookup_delete_eq. csimpl.
  rewrite filter_cons. destruct (decide (Username (conn_User conn) = name)); simpl; lia.
Qed.

(** Clients come and go: a login that is accepted registers its connection. *)
Inductive session_op :=
  | LoginPassword (name pass : string)
  | LoginPubKey (name key : string)
  | Leave.

Definition openSession (id version remote : string) (login : result string * World F P) : World F P :=
  match login with
  | (Ok p, w) =>
      match newConnection id version remote p w with
      | Ok conn => addConnection id (set_protocol conn "SFTP") w
      | _ => w
      end
  | (_, w) => w
  end.

Definition client_step (w : World F P) (op : session_op * string * string * string) : World F P :=
  let '(op, id, version, remote) := op in
  match op with
  | LoginPassword name pass => openSession id version remote (validatePasswordCredentials name pass w)
  | LoginPubKey name key => openSession id version remote (validatePublicKeyCredentials c name key w)
  | Leave => removeConnection id w
  end.

(** Opening the session of a login [loginUser] decides. *)
Lemma openSession_login id version remote name u v w :
  pinv (prov w) → utf8_user v → contents (prov w) !! name = Some u → contents (prov w) !! Username v = Some v →
  0 < MaxSessions u → getActiveSessions name w <= MaxSessions u →
  let w' := openSession id version remote (loginUser v w) in
  prov w' = prov w ∧ getActiveSessions name w' <= MaxSessions u.
Proof.
  intros Hi Hutf Hu Hv Hm Hle. pose proof (loginUser_spec v w) as Hl.
  destruct (loginUser v w) as [r w1]. destruct Hl as [(Hp & Hc & _) Hl]. simpl.
  assert (Hn : getActiveSessions name w1 = getActiveSessions name w).
  { unfold getActiveSessions, connections. by rewrite Hc. }
  destruct r as [p| |]; [|by rewrite Hn..]. destruct (Hl p eq_refl) as (Hj & _ & Hlim).
  destruct (json_roundtrip v Hutf) as (s & Hj' & Hj2). rewrite Hj in Hj'. simplify_eq.
  unfold newConnection. rewrite Hj2. simpl. split; [done|]. etrans; [apply sessions_add|]. simpl. rewrite Hn.
  destruct (decide (Username v = name)) as [E|E]; [|lia]. subst name. rewrite Hu in Hv. simplify_eq.
  specialize (Hlim Hm). lia.
Qed.

(** The session limit holds. Starting without connections, however clients
    log in with passwords or keys and leave again, a stored user with a session
    limit never has more open sessions than the limit, as long as an accepted
    login registers its connection before the next one is checked and the base
    key is configured for another name. *)
Theorem session_limit ops w name u :
  pinv (prov w) → (∀ n v, contents (prov w) !! n = Some v → utf8_user v) →
  openConnections w = ∅ → contents (prov w) !! name = Some u → 0 < MaxSessions u →
  Username (fst (json_Unmarshal (BaseUser (Ext c)))) ≠ name →
  getActiveSessions name (foldl client_step w ops) <= MaxSessions u.
Proof.
  intros Hi Hutf He Hu Hm Hb.
  assert (Hle : getActiveSessions name w <= MaxSessions u).
  { unfold getActiveSessions, connections. rewrite He, map_to_list_empty. unfold zlen. simpl. lia. }
  clear He. revert w Hi Hutf Hu Hle. induction ops as [|op ops IH]; intros w Hi Hutf Hu Hle; [done|].
  assert (prov (client_step w op) = prov w ∧ getActiveSessions name (client_step w op) <= MaxSessions u)
    as [Hp Hs]; [|simpl; apply IH; by rewrite ?Hp].
  destruct op as [[[op id] version] remote]. destruct op as [n pass|n key|]; simpl.
  - unfold validatePasswordCredentials, CheckUserAndPass.
    destruct (validateUserAndPass n pass (prov w)) as [v| |] eqn:Hv; [|done..].
    apply validateUserAndPass_ok in Hv as (Hv & _); [|done].
    apply openSession_login; [done|by eapply Hutf|done| |done..]. by rewrite (contents_name _ _ _ Hi Hv).
  - unfold validatePublicKeyCredentials, _checkBaseKey, CheckUserAndPubKey.
    destruct (bool_decide _ && bool_decide _).
    { unfold openSession, newConnection.
      destruct (json_Unmarshal (BaseUser (Ext c))) as [b [e|]]; [done|]. simpl in Hb |- *. split; [done|].
      etrans; [apply sessions_add|]. simpl. rewrite decide_False by done. lia. }
    destruct (validateUserAndPubKey n key (prov w)) as [v| |] eqn:Hv; [|done..].
    apply validateUserAndPubKey_ok in Hv as (Hv & _); [|done].
    apply openSession_login; [done|by eapply Hutf|done| |done..]. by rewrite (contents_name _ _ _ Hi Hv).
  - split; [done|]. etrans; [apply sessions_remove|done].
Qed.
End login_spec.

(** ** What a session may start *)
Definition allowed (c : Configuration) (u : User) (a : session_action) : Prop :=
  match a with
  | StartExec _ _ dir => HasPerm u PermShell = true ∧ dir = HomeDir u
  | StartShell dir => FullFunc c = true ∧ HasPerm u PermShell = true ∧ dir = HomeDir u
  | StartScp conn args => IsSCPEnabled c = true ∧ conn_User conn = u ∧ 2 <= zlen args
  | StartSftp conn => conn_User conn = u
  | SetWinsize w h => FullFunc c = true ∧ HasPerm u PermShell = true ∧ 0 <= w < 2 ^ 16 ∧ 0 <= h < 2 ^ 16
  | SendReply _ => True
  end.

Section gating.
Context `{Libraries} (c : Configuration) (connection : Connection).
Let user := conn_User connection.
(** A pty is open only for a user who may use the shell. *)
Definition pty_inv (fPty : bool) : Prop := fPty = true → FullFunc c = true ∧ HasPerm user PermShell = true.

Lemma resize_allowed dims : pty_inv true → allowed c user (resize dims).
Proof. intros Hp. destruct Hp as [? ?]; [done|]. split_and!; try done; apply Z.mod_pos_bound; lia. Qed.

Lemma handlePtrReq_allowed req acts opened : pty_inv true → handlePtrReq req = Ok (acts, opened) →
  Forall (allowed c user) acts.
Proof.
  intros Hp. unfold handlePtrReq. destruct (pty_ok req); simpl; [|by intros [= <- _]].
  destruct (req_Payload req !! 3%nat) as [t|]; [|done]. case_goal; [done|].
  intros (dims & _ & [= <- _])%result_bind_ok. apply Forall_singleton. by apply resize_allowed.
Qed.

Ltac solve_acts :=
  first [discriminate |
    simplify_eq; split; [|done];
    repeat first [apply Forall_nil_2 | apply Forall_cons_2]; simpl; split_and?; done].

Lemma handleRequest_allowed fPty req acts fPty' go : pty_inv fPty →
  handleRequest c connection fPty req = Ok (acts, fPty', go) →
  Forall (allowed c user) acts ∧ pty_inv fPty'.
Proof.
  intros Hp E. unfold handleRequest in E. fold user in E.
  case_bool_decide; [repeat case_hyp E; solve_acts|].
  case_bool_decide.
  { destruct (Unmarshal_exec (req_Payload req)) as [command| |]; [|solve_acts|done].
    destruct (shlex_Split command) as [[|name args] [err|]]; [done|done|solve_acts|].
    destruct (IsSCPEnabled c && _ && (2 <=? zlen args)) eqn:Hs.
    { apply andb_true_iff in Hs as [[Hs _]%andb_true_iff Hl%Z.leb_le]. solve_acts. }
    destruct (HasPerm user PermShell) eqn:Hsh; [|solve_acts].
    destruct (handleExec req); solve_acts. }
  case_bool_decide.
  { destruct fPty; [destruct Hp as [? ?]; [done|]|]; solve_acts. }
  case_bool_decide.
  { destruct (FullFunc c) eqn:Hf, (HasPerm user PermShell) eqn:Hsh; simpl in E; [|solve_acts..].
    apply result_bind_ok in E as ([acts1 opened] & Ea & E). simplify_eq.
    split; [|by split]. apply Forall_app. split; [|by repeat constructor].
    eapply handlePtrReq_allowed; [|done]. by split. }
  case_bool_decide; [|solve_acts]. destruct fPty; [|solve_acts].
  apply result_bind_ok in E as (dims & _ & E). simplify_eq. split; [|done].
  apply Forall_singleton. by apply resize_allowed.
Qed.

(** C31: whatever requests a client sends on a session channel, in whatever
    order, commands run only for users with the shell permission, a terminal
    only if the server also enables its full functions, SCP only if it is
    enabled, and every subsystem started acts as the user who logged in, in the
    home directory of that user. *)
Theorem session_requests_gated reqs :
  Forall (allowed c user) (fst (handleSSHRequest c connection false reqs)).
Proof.
  assert (Hp : pty_inv false) by done. revert Hp. generalize false as fPty.
  induction reqs as [|req reqs IH]; intros fPty Hp; [constructor|]. simpl.
  destruct (handleRequest c connection fPty req) as [[[acts fPty'] go]| |] eqn:E; [|constructor..].
  apply handleRequest_allowed in E as [Ha Hp']; [|done].
  destruct go; [|done]. specialize (IH _ Hp'). destruct (handleSSHRequest c connection fPty' reqs). simpl in *.
  by apply Forall_app.
Qed.

(** ** Port forwarding *)
Definition listened (acts : list conn_action) : list string :=
  omap (λ a, match a with ListenOn _ addr => Some addr | _ => None end) acts.

Lemma listened_close l : listened (map CloseListener l) = [].
Proof. by induction l. Qed.

(** What the loop may do from a table of listeners. *)
Definition loop_ok (h : ForwardedTCPHandler) (acts : list conn_action) : Prop :=
  (∀ a, a ∈ acts → (∃ ln addr, a = ListenOn ln addr) ∨ a = DirectTCPIP →
     FullFunc c = true ∧ HasPerm user PermTCPForward = true) ∧
  (NoDup (listened acts) → (∀ addr, addr ∈ listened acts → forwards h !! addr = None) →
     (∀ ln addr, ListenOn ln addr ∈ acts → CloseListener ln ∈ acts) ∧
     (∀ addr ln, forwards h !! addr = Some ln → CloseListener ln ∈ acts)).

Lemma loop_ok_close h : loop_ok h (map CloseListener ((map_to_list (forwards h)).*2)).
Proof.
  split.
  - intros a (x & -> & _)%list_elem_of_fmap [(ln & addr & ?)|?]; done.
  - intros _ _. split.
    + intros ln addr (x & ? & _)%list_elem_of_fmap; done.
    + intros addr ln Hln. apply list_elem_of_fmap_2, list_elem_of_fmap. exists (addr, ln).
      split; [done|]. by apply elem_of_map_to_list.
Qed.

(** An action that opens no listener. *)
Lemma loop_ok_cons h a acts :
  (∀ ln addr, a ≠ ListenOn ln addr) →
  (a = DirectTCPIP → FullFunc c = true ∧ HasPerm user PermTCPForward = true) →
  loop_ok h acts → loop_ok h (a :: acts).
Proof.
  intros Hl Hd [Ha Hb].
  assert (Hls : listened (a :: acts) = listened acts) by (destruct a; try done; by destruct (Hl ln addr)).
  split.
  - intros b [->|Hb']%elem_of_cons Hx; [|by eapply Ha]. destruct Hx as [(ln & addr & ->)| ->]; [|by apply Hd].
    by destruct (Hl ln addr).
  - rewrite Hls. intros Hn Hf. destruct (Hb Hn Hf) as [H1 H2]. split.
    + intros ln addr [<-|Hx]%elem_of_cons; [by destruct (Hl ln addr)|]. right. by eapply H1.
    + intros addr ln Hx. right. by eapply H2.
Qed.

Lemma loop_ok_listen h addr acts :
  FullFunc c = true → HasPerm user PermTCPForward = true →
  loop_ok (mkForwards (<[addr := next_ln h]> (forwards h)) (S (next_ln h))) acts →
  loop_ok h (ListenOn (next_ln h) addr :: acts).
Proof.
  intros Hf Hp [Ha Hb]. split.
  - intros b [->|Hb']%elem_of_cons Hx; [done|by eapply Ha].
  - change (listened (ListenOn (next_ln h) addr :: acts)) with (addr :: listened acts).
    intros [Hn Hn']%NoDup_cons Hfree. destruct Hb as [H1 H2]; [done| |].
    { intros addr' Hx. simpl. rewrite lookup_insert_ne by (intros ->; done). apply Hfree. by right. }
    split.
    + intros ln addr' [[= -> ->]|Hx]%elem_of_cons; right; [|by eapply H1].
      apply (H2 addr). apply lookup_insert_eq.
    + intros addr' ln Hx. right. apply (H2 addr'). simpl. rewrite lookup_insert_ne; [done|].
      intros ->. rewrite Hfree in Hx; [done|by left].
Qed.

Lemma connectionLoop_ok evs h : loop_ok h (connectionLoop c connection h evs).
Proof.
  revert h. induction evs as [|[type payload listen|type ok] evs IH]; intros h; simpl.
  - apply loop_ok_close.
  - case_bool_decide as Ht; [subst type|apply IH]. fold user.
    destruct (FullFunc c) eqn:Hf, (HasPerm user PermTCPForward) eqn:Hp; simpl; try (by apply loop_ok_cons).
    unfold handlePortforward. rewrite bool_decide_true by done.
    destruct (Unmarshal_forward payload) as [[host port]| |]; [|by apply loop_ok_cons..].
    destruct listen as [bound|]; simpl; [|by apply loop_ok_cons].
    apply loop_ok_listen; [done..|]. by apply loop_ok_cons.
  - unfold iterChans. fold user. case_bool_decide.
    + destruct (FullFunc c) eqn:Hf, (HasPerm user PermTCPForward) eqn:Hp; simpl; try apply loop_ok_close.
      by apply loop_ok_cons.
    + case_bool_decide; simpl; [|apply loop_ok_cons; [done..|apply loop_ok_close]].
      destruct ok; simpl; [by apply loop_ok_cons|apply loop_ok_close].
Qed.

(** Ports are forwarded, in either direction, only for users with the
    forwarding permission on a server with its full functions enabled; and when
    the addresses a client listened on are distinct, every listener opened for
    the connection is closed when it ends. *)
Theorem port_forwarding_gated evs :
  let acts := AcceptInboundConnection c connection evs in
  (∀ a, a ∈ acts → (∃ ln addr, a = ListenOn ln addr) ∨ a = DirectTCPIP →
     FullFunc c = true ∧ HasPerm user PermTCPForward = true) ∧
  (NoDup (listened acts) → ∀ ln addr, ListenOn ln addr ∈ acts → CloseListener ln ∈ acts).
Proof.
  destruct (connectionLoop_ok evs (mkForwards ∅ 0)) as [Ha Hb]. split; [exact Ha|].
  intros Hn. apply Hb; [done|]. intros. apply lookup_empty.
Qed.
End gating.

(** ** A concrete server

    A toy encoding of users that keeps names and passwords apart from a
    registry of the two accounts, words split at blanks, and messages that are
    plain bytes. *)
Module DemoLogin.
Definition carol : User :=
  mkUser 1 "carol" (ToyCrypto.argon "pw") [] "/home/carol" 1000 1000 1 0 0 ["list"; "download"]%string 0 0 0 0 0.
Definition dave : User :=
  mkUser 2 "dave" (ToyCrypto.argon "pw") [] "/home/dave" 1000 1000 0 0 0 ["*"]%string 0 0 0 0 0.
#[global] Instance libraries : Libraries := {
  json_Marshal u :=
    if decide (u = carol) then Ok "carol"%string
    else if decide (u = dave) then Ok "dave"%string else Err (EMsg "unsupported");
  json_Unmarshal s :=
    if decide (s = "carol"%string) then (carol, None)
    else if decide (s = "dave"%string) then (dave, None)
    else (mkUser 0 "" "" [] "" 0 0 0 0 0 [] 0 0 0 0 0, Some (EMsg "unexpected end of JSON input"));
  shlex_Split s := (filter (λ x, x ≠ EmptyString) (strings_Split s " "%char), None);
  Unmarshal_exec b := Ok (string_of_bytes b);
  Unmarshal_forward b := Ok (string_of_bytes b, 0)
}.
#[global] Instance libraries_spec : LibrariesSpec.
Proof.
  refine {| utf8_user u := u = carol ∨ u = dave |}.
  intros u [-> | ->]; eexists; split; reflexivity.
Defined.

Definition prov1 : BoltDB := foldl bolt_step emptyBolt [OpAdd carol; OpAdd dave].
Definition world1 : World MemFS.state BoltDB := mkWorld DemoServer.disk0 prov1 0 ∅ ∅ [] [] 0 [].
Definition config : Configuration :=
  mkConfiguration DemoServer.conf true false (mkExtConf "" "" "" "" "" "").

Lemma prov1_inv : bolt_inv prov1.
Proof.
  unfold prov1, foldl. apply bolt_step_inv; [|vm_compute; done|done].
  apply bolt_step_inv; [apply emptyBolt_inv|done|done].
Qed.

Lemma prov1_users n u : contents prov1 !! n = Some u → utf8_user u.
Proof.
  intros Hu%elem_of_map_to_list. set (l := map_to_list (contents prov1)) in Hu.
  vm_compute in l. subst l. repeat (apply elem_of_cons in Hu as [[= -> ->]|Hu]);
    [left; reflexivity|right; reflexivity|by apply not_elem_of_nil in Hu].
Qed.
End DemoLogin.

Lemma password_login_sound_witness :
  ∃ w', validatePasswordCredentials "carol" "pw" DemoLogin.world1 = (Ok "carol"%string, w') ∧
    newConnection "s1" "SSH-2.0-x" "10.0.0.1" "carol" w'
    = Ok (mkConnection "s1" DemoLogin.carol "SSH-2.0-x" "10.0.0.1" 0 0 EmptyString).
Proof.
  destruct (validatePasswordCredentials "carol" "pw" DemoLogin.world1) as [r w'] eqn:E.
  assert (Er : r = Ok "carol"%string) by (vm_compute in E; congruence). subst r. exists w'. split; [reflexivity|].
  destruct (password_login_sound "carol" "pw" "s1" "SSH-2.0-x" "10.0.0.1" DemoLogin.world1 "carol" w')
    as (_ & u & Hu & _ & _ & _ & Hc); [exact DemoLogin.prov1_inv|exact DemoLogin.prov1_users|exact E|].
  rewrite Hc. vm_compute in Hu. injection Hu as <-. reflexivity.
Defined.

(** Carol may have one session: her second login is refused. *)
Definition clients : list (session_op * string * string * string) :=
  [(LoginPassword "carol" "pw", "s1", "v", "r"); (LoginPassword "carol" "pw", "s2", "v", "r");
   (LoginPassword "dave" "pw", "s3", "v", "r")]%string.

Lemma session_limit_witness :
  getActiveSessions "dave" (foldl (client_step DemoLogin.config) DemoLogin.world1 clients) = 1 ∧
  getActiveSessions "carol" (foldl (client_step DemoLogin.config) DemoLogin.world1 clients) <= 1.
Proof.
  split; [vm_compute; reflexivity|].
  apply (session_limit DemoLogin.config clients DemoLogin.world1 "carol" DemoLogin.carol).
  - exact DemoLogin.prov1_inv.
  - exact DemoLogin.prov1_users.
  - reflexivity.
  - vm_compute. reflexivity.
  - reflexivity.
  - vm_compute. discriminate.
Defined.

(** ** Behaviours worth knowing *)

(** The limit is checked before the connection is registered, so two clients
    that log in at the same time both pass. *)
Example session_limit_race :
  let '(r1, w1) := validatePasswordCredentials "carol" "pw" DemoLogin.world1 in
  let '(r2, w2) := validatePasswordCredentials "carol" "pw" w1 in
  let w' := openSession "s2" "v" "r" (r2, openSession "s1" "v" "r" (r1, w2)) in
  MaxSessions DemoLogin.carol = 1 ∧ getActiveSessions "carol" w' = 2.
Proof. vm_compute. split; reflexivity. Qed.

(** An authenticated client, whatever its permissions, stops the server with an
    empty command, or with a subsystem request too short to hold a length. *)
Example malformed_requests_panic :
  handleSSHRequest DemoLogin.config (mkConnection "s" DemoLogin.carol "v" "r" 0 0 "") false
    [mkSSHRequest "exec" [] true true] = ([], Panic) ∧
  handleSSHRequest DemoLogin.config (mkConnection "s" DemoLogin.carol "v" "r" 0 0 "") false
    [mkSSHRequest "subsystem" (bytes_of_string "abc") true true] = ([], Panic).
Proof. vm_compute. split; reflexivity. Qed.

(** Two forwards of the same address with port zero are both granted, and the
    first listener is never closed. *)
Example port_zero_listener_leaks :
  let c := mkConfiguration DemoServer.conf true true (mkExtConf "" "" "" "" "" "") in
  let fwd := GlobalRequest "tcpip-forward" (bytes_of_string "0.0.0.0") in
  AcceptInboundConnection c (mkConnection "s" DemoLogin.dave "v" "r" 0 0 "") [fwd (Some 4001); fwd (Some 4002)]
  = [ListenOn 0 "0.0.0.0:0"; ReplyForward true (Some 4001);
     ListenOn 1 "0.0.0.0:0"; ReplyForward true (Some 4002); CloseListener 1].
Proof. vm_compute. reflexivity. Qed.
