(* ===== verification/Hdfs.v ===== *)
(** * The HDFS handlers: hh/hdfshandler.go

    When an HDFS cluster is configured, the methods of [HConnection] serve SFTP
    requests in place of those of serv/filehandler.go. The HDFS client is the
    class [HdfsClient]: readers and writers are handles, writers only append.
    The handlers implement the same [Handlers] interface, so what is proved of
    the request server holds for them as well. [ActiveTime] is a method with a
    value receiver and changes nothing. *)
From Stdlib Require Import Ascii.
From stdpp Require Import base tactics option list strings gmap.
From Stdlib Require Import ZArith Lia.
From S2P Require Import Prelude GoOs SftpWire SftpPackets GoPath GoStrconv RequestServer.
From S2P Require Import DataProvider BoltProvider FileSystem Sessions FileHandler.

Class HdfsClient (D R W : Type) := {
  cl_Open : string → D → result R * D;
  cl_Stat : string → D → result FileInfo;
  cl_Remove : string → D → option error * D;
  cl_Create : string → D → result W * D;
  cl_Rename : string → string → D → option error * D;
  cl_Mkdir : string → D → option error * D;
  cl_ReadDir : string → D → result (list FileInfo);
  rd_Size : R → Z;
  rd_ReadAt : R → Z → Z → D → (list byte * option error) * D;
  rd_Close : R → D → option error * D;
  wr_Write : W → list byte → D → (Z * option error) * D;
  wr_Close : W → D → option error * D
}.

Record HConnection := mkHConnection { h_User : User; h_ConnID : string; h_protocol : string }.
Record HTransfer {R W : Type} := mkHTransfer {
  rfile : option R;
  wfile : option W;
  h_path : string;
  h_bytesSent : Z;
  h_bytesReceived : Z;
  h_transferType : Z;
  h_isNewFile : bool
}.
Arguments HTransfer : clear implicits.
Arguments mkHTransfer {R W} _ _ _ _ _ _ _.

(** The cluster, and the transfers the request server holds on to. *)
Record HState {D R W : Type} := mkHState { dfs : D; htransfers : gmap nat (HTransfer R W) }.
Arguments HState : clear implicits.
Arguments mkHState {D R W} _ _.

Section handlers.
Context {D R W : Type} `{HdfsClient D R W} (h : HConnection).
Abbreviation St := (HState D R W).
Implicit Types (s : St).
Abbreviation user := (h_User h).

Definition set_dfs (d : D) s : St := mkHState d (htransfers s).
Definition set_htransfer (id : nat) (t : HTransfer R W) s : St := mkHState (dfs s) (<[id := t]> (htransfers s)).
Definition add_htransfer (t : HTransfer R W) s : nat * St :=
  let id := fresh (dom (htransfers s)) in (id, set_htransfer id t s).

(** ** Transfers *)
Definition file_not_open : error := EMsg "file not open".

(** An end of file is reported only by a read that starts there. *)
Definition HTransfer_ReadAt (id : nat) (n off : Z) s : (list byte * option error) * St :=
  match htransfers s !! id with
  | Some t =>
      match rfile t with
      | Some r =>
          if off =? rd_Size r then (([], Some EOF), s)
          else if rd_Size r <? off then (([], Some EOF), s)
          else
            let '((data, e), d) := rd_ReadAt r n off (dfs s) in
            let t := mkHTransfer (rfile t) (wfile t) (h_path t) (i64 (h_bytesSent t + zlen data)) (h_bytesReceived t)
                       (h_transferType t) (h_isNewFile t) in
            ((data, if bool_decide (e = Some EOF) then None else e), set_htransfer id t (set_dfs d s))
      | None => (([], Some file_not_open), s)
      end
  | None => (([], Some file_not_open), s)
  end.

(** The offset is not used: the writer cannot move. *)
Definition HTransfer_WriteAt (id : nat) (p : list byte) (off : Z) s : (Z * option error) * St :=
  match htransfers s !! id with
  | Some t =>
      match wfile t with
      | Some w =>
          let '((written, e), d) := wr_Write w p (dfs s) in
          let t := mkHTransfer (rfile t) (wfile t) (h_path t) (h_bytesSent t) (i64 (h_bytesReceived t + written))
                     (h_transferType t) (h_isNewFile t) in
          ((written, e), set_htransfer id t (set_dfs d s))
      | None => ((-1, Some file_not_open), s)
      end
  | None => ((-1, Some file_not_open), s)
  end.

Definition HTransfer_Close (id : nat) s : option error * St :=
  match htransfers s !! id with
  | None => (None, s)
  | Some t =>
      let '(err, d) := match rfile t with Some r => rd_Close r (dfs s) | None => (None, dfs s) end in
      let '(err, d) := match wfile t with Some w => wr_Close w d | None => (err, d) end in
      (err, set_htransfer id (mkHTransfer None None (h_path t) (h_bytesSent t) (h_bytesReceived t)
                                (h_transferType t) (h_isNewFile t)) (set_dfs d s))
  end.

(** ** Requests *)
Definition hdfs_buildPath (rawPath : string) : string := Join [HomeDir user; rawPath].
Abbreviation request := (Request nat (list FileInfo)).

Definition HConnection_Fileread (r : request) s : result nat * St :=
  if negb (HasPerm user PermDownload) then (Err ErrSshFxPermissionDenied, s)
  else
    let p := hdfs_buildPath (Filepath r) in
    match cl_Open p (dfs s) with
    | (Ok file, d) =>
        let '(id, s) := add_htransfer (mkHTransfer (Some file) None p 0 0 1 false) (set_dfs d s) in (Ok id, s)
    | (Err _, d) => (Err ErrSshFxFailure, set_dfs d s)
    | (Panic, d) => (Panic, set_dfs d s)
    end.

(** An existing file is removed first. *)
Definition HConnection_Filewrite (r : request) s : result nat * St :=
  if negb (HasPerm user PermUpload) then (Err ErrSshFxPermissionDenied, s)
  else
    let p := hdfs_buildPath (Filepath r) in
    let '(removed, s) :=
      match cl_Stat p (dfs s) with
      | Ok _ =>
          let '(err, d) := cl_Remove p (dfs s) in
          (match err with Some _ => Err ErrSshFxFailure | None => Ok tt end, set_dfs d s)
      | Err _ => (Ok tt, s)
      | Panic => (Panic, s)
      end in
    match removed with
    | Err e => (Err e, s)
    | Panic => (Panic, s)
    | Ok _ =>
        match cl_Create p (dfs s) with
        | (Ok file, d) =>
            let '(id, s) := add_htransfer (mkHTransfer None (Some file) p 0 0 2 true) (set_dfs d s) in (Ok id, s)
        | (Err _, d) => (Err ErrSshFxFailure, set_dfs d s)
        | (Panic, d) => (Panic, set_dfs d s)
        end
    end.

Definition hdfs_getSFTPCmdTargetPath (requestTarget : string) : string :=
  if bool_decide (requestTarget = EmptyString) then EmptyString else hdfs_buildPath requestTarget.

(** [err = ...; if err != nil { return err }; return sftp.ErrSshFxOk] *)
Definition finish (res : option error * D) s : option error * St :=
  let '(err, d) := res in
  (match err with Some e => Some e | None => Some ErrSshFxOk end, set_dfs d s).
Definition HConnection_Filecmd (r : request) s : option error * St :=
  let p := hdfs_buildPath (Filepath r) in
  let target := hdfs_getSFTPCmdTargetPath (Target r) in
  let m := Method r in
  if bool_decide (m = "Rename"%string) then
    if negb (HasPerm user PermRename) then (Some ErrSshFxPermissionDenied, s)
    else finish (cl_Rename p target (dfs s)) s
  else if bool_decide (m = "Rmdir"%string) then
    if negb (HasPerm user PermDelete) then (Some ErrSshFxPermissionDenied, s)
    else finish (cl_Remove p (dfs s)) s
  else if bool_decide (m = "Mkdir"%string) then
    if negb (HasPerm user PermCreateDirs) then (Some ErrSshFxPermissionDenied, s)
    else finish (cl_Mkdir p (dfs s)) s
  else if bool_decide (m = "Remove"%string) then finish (cl_Remove p (dfs s)) s
  else (Some ErrSshFxOpUnsupported, s).

Definition HConnection_Filelist (r : request) s : result (list FileInfo) * St :=
  let p := hdfs_buildPath (Filepath r) in
  if bool_decide (Method r = "List"%string) then
    if negb (HasPerm user PermListItems) then (Err ErrSshFxPermissionDenied, s)
    else match cl_ReadDir p (dfs s) with
         | Ok files => (Ok files, s)
         | Err _ => (Err ErrSshFxFailure, s)
         | Panic => (Panic, s)
         end
  else if bool_decide (Method r = "Stat"%string) then
    if negb (HasPerm user PermListItems) then (Err ErrSshFxPermissionDenied, s)
    else match cl_Stat p (dfs s) with
         | Ok fi => (Ok [fi], s)
         | Err e => (Err (if os_IsNotExist (Some e) then ErrSshFxNoSuchFile else ErrSshFxFailure), s)
         | Panic => (Panic, s)
         end
  else (Err ErrSshFxOpUnsupported, s).

(** The wrapper of an entry keeps all but [Sys()], which has no [Stat_t]. *)
Definition hdfs_ListAt (l : list FileInfo) (n offset : Z) : list FileInfo * option error :=
  if zlen l <=? offset then ([], Some EOF)
  else
    let right_n := zlen l - offset in
    let right_n := if n <? right_n then n else right_n in
    let f := map sftpFileInfo (take (Z.to_nat right_n) (drop (Z.to_nat offset) l)) in
    if zlen f <? n then (f, Some EOF) else (f, None).

Instance hdfs_handlers : Handlers St nat (list FileInfo) := {
  Fileread := HConnection_Fileread;
  Filewrite := HConnection_Filewrite;
  OpenFile := None;
  Filecmd := HConnection_Filecmd;
  PosixRename := None;
  Filelist := HConnection_Filelist;
  Lstat := None;
  ReadAt := HTransfer_ReadAt;
  WriteAt := HTransfer_WriteAt;
  obj_Close id s := let '(err, s) := HTransfer_Close id s in (Some err, s);
  TransferError _ _ s := s;
  ListAt := hdfs_ListAt
}.
End handlers.

(** ** Connecting *)

(** [strings.Index] of a substring *)
Fixpoint strings_Index (s sub : string) : Z :=
  if strings_HasPrefix s sub then 0
  else match s with
       | EmptyString => -1
       | String _ s => let i := strings_Index s sub in if i <? 0 then -1 else i + 1
       end.
(** [strings.ReplaceAll] of a substring that is not empty *)
Fixpoint replace_from (skip : nat) (s old new : string) : string :=
  match s with
  | EmptyString => EmptyString
  | String c s' =>
      match skip with
      | S skip => replace_from skip s' old new
      | O => if strings_HasPrefix s old then new +:+ replace_from (String.length old - 1) s' old new
             else String c (replace_from 0 s' old new)
      end
  end.
Definition strings_ReplaceAll (s old new : string) : string := replace_from 0 s old new.
Definition strings_LastIndexChar (s : string) (c : ascii) : Z :=
  foldl (λ last ic, if bool_decide (ic.2 = c) then Z.of_nat ic.1 else last) (-1) (imap pair (String.list_ascii_of_string s)).

(** Variables are replaced until there is none; a "}" before the first "${"
    makes the slice expression panic. [None] when the fuel runs out. *)
Fixpoint _resolveVar (fuel : nat) (v : string) (conf : gmap string string) : option (result string) :=
  match fuel with
  | O => None
  | S fuel =>
      let i := strings_Index v "${" in
      if i <? 0 then Some (Ok v)
      else
        let j := strings_Index v "}" in
        if j <? i + 2 then Some Panic
        else
          let vname := String.substring (Z.to_nat (i + 2)) (Z.to_nat (j - i - 2)) v in
          let vval := default EmptyString (conf !! vname) in
          _resolveVar fuel (strings_ReplaceAll v ("${" +:+ vname +:+ "}") vval) conf
  end.

Definition resolveVar (fuel : nat) (namenodes : list string) (conf : gmap string string) : option (list (result string)) :=
  mapM (λ v, _resolveVar fuel v conf) namenodes.

(** The address [myDialer] dials: names are looked up in the hosts. *)
Definition dial_address (hosts : gmap string string) (addr : string) : result string :=
  match addr with
  | String c _ =>
      match digit_of c with
      | Some _ => Ok addr
      | None =>
          let p := strings_LastIndexChar addr ":" in
          if p <? 0 then Panic
          else Ok (default EmptyString (hosts !! String.substring 0 (Z.to_nat p) addr) +:+ ":" +:+
                   String.substring (Z.to_nat (p + 1)) (String.length addr) addr)
      end
  | EmptyString => Ok addr
  end.

(** "name,address" pairs separated by blanks. *)
Definition parse_hosts (hosts : string) : result (gmap string string) :=
  if bool_decide (hosts = EmptyString) then Ok ∅
  else foldl (λ m i, m ← m; match strings_Split i "," with a :: b :: _ => Ok (<[a := b]> m) | _ => Panic end)
         (Ok ∅) (strings_Split hosts " ").

(** ** What the handlers rely on, and what they promise

    A cluster that is reachable: reads are bounded by what is asked for, a
    writer appends, and closing it leaves the file. *)
Class HdfsSpec (D R W : Type) `{HdfsClient D R W} := {
  rd_ReadAt_bound r n off d data e d' : 0 <= n → rd_ReadAt r n off d = ((data, e), d') → zlen data <= n;
  file_at : string → D → option (list byte);
  wr_path : W → string;
  wr_bytes : W → D → option (list byte);
  Create_spec p d w d' : cl_Create p d = (Ok w, d') → wr_path w = p ∧ wr_bytes w d' = Some [];
  Write_spec w p d b : wr_bytes w d = Some b →
    ∃ d', wr_Write w p d = ((zlen p, None), d') ∧ wr_bytes w d' = Some (b ++ p);
  Close_spec w d b : wr_bytes w d = Some b → ∃ d', wr_Close w d = (None, d') ∧ file_at (wr_path w) d' = Some b
}.

Section promises.
Context {D R W : Type} `{HdfsSpec D R W} (h : HConnection).
Implicit Types (s : HState D R W).
Abbreviation request := (Request nat (list FileInfo)).

Lemma hdfs_ListAt_spec (l : list FileInfo) n off : 0 < n → 0 <= off →
  hdfs_ListAt l n off =
    let k := take (Z.to_nat n) (drop (Z.to_nat off) (map sftpFileInfo l)) in
    (k, if zlen k <? n then Some EOF else None).
Proof.
  intros Hn Ho. rewrite <- listerAt_ListAt_spec by done. unfold hdfs_ListAt, listerAt_ListAt.
  destruct (Z.leb_spec (zlen l) off); [done|]. cbv zeta.
  assert ((if n <? zlen l - off then n else zlen l - off) = (if zlen l <? off + n then zlen l else off + n) - off) as ->; [|done].
  destruct (Z.ltb_spec n (zlen l - off)), (Z.ltb_spec (zlen l) (off + n)); lia.
Qed.

(** The contract of the request server. *)
Instance hdfs_handlers_spec : @HandlersSpec (HState D R W) nat (list FileInfo) (hdfs_handlers h).
Proof.
  refine (@Build_HandlersSpec (HState D R W) nat (list FileInfo) (hdfs_handlers h) _ (map sftpFileInfo) _); simpl.
  - intros id n off s data err s' Hn. unfold HTransfer_ReadAt. repeat case_match; intros E; simplify_eq;
      first [by eapply rd_ReadAt_bound | unfold zlen; simpl; lia].
  - apply hdfs_ListAt_spec.
Defined.

(** Over HDFS a request for which the user has no permission is refused
    and does not reach the cluster: downloads, uploads, listings, renames,
    new directories and the removal of directories. *)
Theorem hdfs_permissions_enforced (r : request) s :
  let m := Method r in
  let denied p := HasPerm (h_User h) p = false in
  (denied PermDownload → HConnection_Fileread h r s = (Err ErrSshFxPermissionDenied, s)) ∧
  (denied PermUpload → HConnection_Filewrite h r s = (Err ErrSshFxPermissionDenied, s)) ∧
  (denied PermListItems → m = "List"%string ∨ m = "Stat"%string →
     HConnection_Filelist h r s = (Err ErrSshFxPermissionDenied, s)) ∧
  (denied PermRename → m = "Rename"%string → HConnection_Filecmd h r s = (Some ErrSshFxPermissionDenied, s)) ∧
  (denied PermCreateDirs → m = "Mkdir"%string → HConnection_Filecmd h r s = (Some ErrSshFxPermissionDenied, s)) ∧
  (denied PermDelete → m = "Rmdir"%string → HConnection_Filecmd h r s = (Some ErrSshFxPermissionDenied, s)).
Proof.
  unfold HConnection_Fileread, HConnection_Filewrite, HConnection_Filelist, HConnection_Filecmd.
  split_and!; intros Hp; rewrite ?Hp; simpl; [done|done|intros [-> | ->]; done|intros ->; done..].
Qed.

(** Paths the request server has cleaned stay below the home directory. *)
Lemma hdfs_path_confined home raw : HomeDir (h_User h) = abs_path home → Forall normal home →
  ∃ l, Forall normal l ∧ hdfs_buildPath h (cleanPath raw) = abs_path (home ++ l).
Proof.
  intros Hh Hn. destruct (cleanPath_normal raw) as (l & Hl & E). exists l. split; [done|].
  unfold hdfs_buildPath. by rewrite Hh, E, Join_home_clean.
Qed.

(** ** Uploads *)
Fixpoint hdfs_write_all (id : nat) (chunks : list (list byte * Z)) s : list Z * HState D R W :=
  match chunks with
  | [] => ([], s)
  | (p, off) :: chunks =>
      let '((n, _), s) := HTransfer_WriteAt id p off s in
      let '(ns, s) := hdfs_write_all id chunks s in (n :: ns, s)
  end.

Lemma hdfs_write_all_spec id chunks s t w b :
  htransfers s !! id = Some t → rfile t = None → wfile t = Some w → wr_bytes w (dfs s) = Some b →
  ∃ s' t', hdfs_write_all id chunks s = (map (λ c, zlen c.1) chunks, s')
    ∧ htransfers s' !! id = Some t' ∧ rfile t' = None ∧ wfile t' = Some w ∧ h_path t' = h_path t
    ∧ wr_bytes w (dfs s') = Some (b ++ concat (map fst chunks)).
Proof.
  revert s t b. induction chunks as [|[p off] chunks IH]; intros s t b Ht Hr Hw Hb.
  { exists s, t. by rewrite app_nil_r. }
  cbn [hdfs_write_all]. unfold HTransfer_WriteAt. rewrite Ht, Hw.
  destruct (Write_spec w p (dfs s) b Hb) as (d' & -> & Hb').
  match goal with |- context [set_htransfer id ?t1 ?s1] => destruct (IH (set_htransfer id t1 s1) t1 (b ++ p))
    as (s' & t' & E & ? & ? & ? & ? & Hc) end; [apply lookup_insert_eq|done|done|done|].
  rewrite E. exists s', t'. split_and!; [done..|]. by rewrite Hc, <- app_assoc.
Qed.

(** What an upload to HDFS leaves. Once the handlers have accepted the
    upload, after any writes and the close the file in the cluster holds the
    data of the writes one after the other in the order in which they
    arrived, whatever offsets they named. *)
Theorem hdfs_upload_concatenates (r : request) s id s1 chunks : HConnection_Filewrite h r s = (Ok id, s1) →
  ∃ s2 s3, hdfs_write_all id chunks s1 = (map (λ c, zlen c.1) chunks, s2)
    ∧ HTransfer_Close id s2 = (None, s3)
    ∧ file_at (hdfs_buildPath h (Filepath r)) (dfs s3) = Some (concat (map fst chunks)).
Proof.
  intros E. unfold HConnection_Filewrite in E. set (p := hdfs_buildPath h (Filepath r)) in *.
  destruct (HasPerm (h_User h) PermUpload); [|done]. cbn [negb] in E.
  match type of E with (let '(removed, s) := ?x in _) = _ => destruct x as [[u|e|] s0]; [|done..] end.
  destruct (cl_Create p (dfs s0)) as [[w|e|] d] eqn:Ec; [|done..]. unfold add_htransfer in E. injection E as <- <-.
  destruct (Create_spec p (dfs s0) w d Ec) as [Hpath Hb].
  match goal with |- context [set_htransfer ?i ?t ?s1] => destruct (hdfs_write_all_spec i chunks (set_htransfer i t s1) t w [])
    as (s2 & t' & E2 & Ht' & Hr' & Hw' & _ & Hc) end; [apply lookup_insert_eq|done|done|done|].
  destruct (Close_spec w (dfs s2) _ Hc) as (d' & Ecl & Hf).
  exists s2. eexists. split; [exact E2|]. unfold HTransfer_Close. rewrite Ht', Hr', Hw', Ecl. split; [done|].
  simpl. rewrite <- Hpath. exact Hf.
Qed.
End promises.

(** Without the permission to delete, a file is deleted all the same: REMOVE does
    not look at the permissions. *)
Lemma hdfs_remove_unchecked {D R W} `{HdfsClient D R W} h h' (r : Request nat (list FileInfo)) (s : HState D R W) :
  HomeDir (h_User h) = HomeDir (h_User h') → Method r = "Remove"%string →
  HConnection_Filecmd h r s = HConnection_Filecmd h' r s.
Proof. intros E Hm. unfold HConnection_Filecmd, hdfs_buildPath. by rewrite Hm, E. Qed.

(** A variable whose value mentions it is resolved for ever. *)
Lemma resolveVar_loops fuel : _resolveVar fuel "${a}" {["a"%string := "${a}"%string]} = None.
Proof. induction fuel as [|fuel IH]; [done|]. cbn [_resolveVar]. vm_compute strings_Index. exact IH. Qed.

(** ** A cluster in memory *)
Module MemDfs.
(** Finished files, and those that are being written; a handle is the path. *)
Record state := mk { done_files : gmap string (list byte); writing : gmap string (list byte) }.
Definition info (p : string) (b : list byte) : FileInfo :=
  {| fi_Name := Base p; fi_Size := zlen b; fi_Mode := 0x1a4; fi_ModTime := 0; fi_Sys := None |}.
Definition lookup_file {A} (p : string) (s : state) (f : list byte → A) : result A :=
  match done_files s !! p with Some b => Ok (f b) | None => Err (EPathError p ENOENT) end.
#[global] Instance client : HdfsClient state (string * Z) string := {
  cl_Open p s := (lookup_file p s (λ b, (p, zlen b)), s);
  cl_Stat p s := lookup_file p s (info p);
  cl_Remove p s := match done_files s !! p with
    | Some _ => (None, mk (delete p (done_files s)) (writing s)) | None => (Some (EPathError p ENOENT), s) end;
  cl_Create p s := (Ok p, mk (done_files s) (<[p := []]> (writing s)));
  cl_Rename p q s := match done_files s !! p with
    | Some b => (None, mk (<[q := b]> (delete p (done_files s))) (writing s)) | None => (Some (EPathError p ENOENT), s) end;
  cl_Mkdir _ s := (None, s);
  cl_ReadDir _ _ := Ok [];
  rd_Size r := r.2;
  rd_ReadAt r n off s :=
    let data := take (Z.to_nat n) (drop (Z.to_nat off) (default [] (done_files s !! r.1))) in
    ((data, if zlen data <? n then Some EOF else None), s);
  rd_Close _ s := (None, s);
  wr_Write p b s := match writing s !! p with
    | Some b0 => ((zlen b, None), mk (done_files s) (<[p := b0 ++ b]> (writing s)))
    | None => ((0, Some (EMsg "closed")), s) end;
  wr_Close p s := match writing s !! p with
    | Some b => (None, mk (<[p := b]> (done_files s)) (delete p (writing s))) | None => (Some (EMsg "closed"), s) end
}.
#[global] Instance client_spec : HdfsSpec state (string * Z) string.
Proof.
  refine {| file_at p s := done_files s !! p; wr_path p := p; wr_bytes p s := writing s !! p |}; simpl.
  - intros r n off d data e d' Hn [= <- <- <-]. unfold zlen. rewrite length_take. lia.
  - intros p d w d' [= <- <-]. simpl. by rewrite lookup_insert_eq.
  - intros w p d b ->. eexists. split; [done|]. simpl. by rewrite lookup_insert_eq.
  - intros w d b ->. eexists. split; [done|]. simpl. by rewrite lookup_insert_eq.
Defined.
Definition empty : HState state (string * Z) string := mkHState (mk ∅ ∅) ∅.
Definition conn : HConnection := mkHConnection DemoServer.account "c1" "SFTP".
End MemDfs.

(** Two writes that arrive in the wrong order end up in the wrong order. *)
Lemma hdfs_upload_concatenates_witness :
  ∃ id s1 s2 s3, HConnection_Filewrite MemDfs.conn (NewRequest "Put" "/x") MemDfs.empty = (Ok id, s1)
    ∧ hdfs_write_all id [(bytes_of_string "world", 5); (bytes_of_string "hello", 0)] s1 = ([5; 5], s2)
    ∧ HTransfer_Close id s2 = (None, s3)
    ∧ file_at "/home/user/x" (dfs s3) = Some (bytes_of_string "worldhello").
Proof.
  destruct (HConnection_Filewrite MemDfs.conn (NewRequest "Put" "/x") MemDfs.empty) as [r s1] eqn:E.
  destruct r as [id| |]; [|vm_compute in E; discriminate..].
  destruct (hdfs_upload_concatenates MemDfs.conn (NewRequest "Put" "/x") MemDfs.empty id s1
    [(bytes_of_string "world", 5); (bytes_of_string "hello", 0)] E) as (s2 & s3 & E2 & E3 & Ef).
  exists id, s1, s2, s3. split; [reflexivity|]. split; [exact E2|]. split; [exact E3|exact Ef].
Defined.

(** A posix-rename, whose target is not cleaned, moves a file out of the home
    directory; there is no check that would stop it. *)
Example hdfs_rename_escapes :
  let r := mkRequest nat (list FileInfo) "Rename" "/a" 0 [] "/../other/a" "" None None None None 0 in
  let s := mkHState (MemDfs.mk {["/home/user/a"%string := bytes_of_string "x"]} ∅) ∅ in
  let '(err, s') := HConnection_Filecmd (R := string * Z) (W := string) MemDfs.conn r s in
  err = Some ErrSshFxOk ∧ file_at "/home/other/a" (dfs s') = Some (bytes_of_string "x").
Proof. vm_compute. split; reflexivity. Qed.
