(* ===== verification/Scp.v ===== *)
(** * The SCP protocol: serv/scp.go

    SCP runs over the channel of an "exec" request: control lines, single
    confirmation bytes and raw file data. The channel of the SSH library is the
    class [Channel]; a command is a computation over the [World] and the
    channel that ends with a value, with an error or with a panic. *)
From Stdlib Require Import Ascii.
From stdpp Require Import base tactics option list strings gmap pretty.
From Stdlib Require Import ZArith Lia.
From S2P Require Import Prelude GoOs GoPath GoStrconv DataProvider BoltProvider FileSystem Sessions FileHandler.

(** ** The channel

    [ch_Read n] is [Read] into a buffer of [n] bytes; [ch_SendExitStatus] is
    [SendRequest("exit-status", false, ...)]. *)
Class Channel (C : Type) := {
  ch_Read : Z → C → (list byte * option error) * C;
  ch_Write : list byte → C → option error * C;
  ch_Close : C → C;
  ch_SendExitStatus : Z → C → C
}.

Definition okMsg : list byte := [byte_of_Z 0].
Definition warnMsg : list byte := [byte_of_Z 1].
Definition errMsg : list byte := [byte_of_Z 2].
Definition newLine : list byte := [byte_of_Z 10].

(** The size of the copy buffers. *)
Definition bufSize : Z := 32768.

(** ** Computations with a state, an error and a panic *)
Definition M (S A : Type) : Type := S → result A * S.
#[global] Instance M_ret S : MRet (M S) := λ _ a s, (Ok a, s).
#[global] Instance M_bind S : MBind (M S) := λ _ _ f m s,
  match m s with
  | (Ok a, s) => f a s
  | (Err e, s) => (Err e, s)
  | (Panic, s) => (Panic, s)
  end.
Definition fail {S A} (e : error) : M S A := λ s, (Err e, s).
Definition panic {S A} : M S A := λ s, (Panic, s).
Definition get {S} : M S S := λ s, (Ok s, s).
(** [if err != nil { h(err) }; return err] *)
Definition on_error {S A} (m : M S A) (h : error → M S unit) : M S A := λ s,
  match m s with
  | (Err e, s) =>
      match h e s with
      | (Panic, s) => (Panic, s)
      | (_, s) => (Err e, s)
      end
  | r => r
  end.
(** [err := m()], looked at by the caller. *)
Definition attempt {S A} (m : M S A) : M S (result A) := λ s,
  match m s with
  | (Panic, s) => (Panic, s)
  | (r, s) => (Ok r, s)
  end.
Definition lift_err {S} (err : option error) : M S unit :=
  match err with Some e => fail e | None => mret () end.

(** [os.FileMode.String] *)
Definition mode_letters : list ascii := String.list_ascii_of_string "dalTLDpSugct?".
Definition rwx_letters : list ascii := String.list_ascii_of_string "rwxrwxrwx".
Definition FileMode_String (m : Z) : list ascii :=
  let kind := omap (λ ic, if Z.testbit m (31 - Z.of_nat ic.1) then Some ic.2 else None)
                   (imap pair mode_letters) in
  (match kind with [] => ["-"%char] | _ => kind end) ++
  imap (λ i c, if Z.testbit m (8 - Z.of_nat i) then c else "-"%char) rwx_letters.

(** [if modeString[lastChar-i] != nullPerm[0] { x += n }] *)
Definition perm_digit (modeString : list ascii) (i : nat) (n : Z) : Z :=
  match modeString !! (length modeString - 1 - i)%nat with
  | Some c => if bool_decide (c = "-"%char) then 0 else n
  | None => 0
  end.

Definition getFileModeAsString (fileMode : Z) (isDir : bool) : string :=
  if fileMode =? 0 then (if isDir then "0755" else "0644")%string
  else
    let modeString := FileMode_String fileMode in
    let s := (if has_bits fileMode ModeSticky then 1 else 0)
             + (if has_bits fileMode ModeSetuid then 2 else 0)
             + (if has_bits fileMode ModeSetgid then 4 else 0) in
    let d := perm_digit modeString in
    let u := d 8%nat 4 + d 7%nat 2 + d 6%nat 1 in
    let g := d 5%nat 4 + d 4%nat 2 + d 3%nat 1 in
    let o := d 2%nat 4 + d 1%nat 2 + d 0%nat 1 in
    Itoa s +:+ Itoa u +:+ Itoa g +:+ Itoa o.

Definition strings_HasSuffix_slash (s : string) : bool := strings_HasSuffixChar s "/".

(** ** The arguments *)
Definition sendFileTime (args : list string) : bool := IsStringInSlice "-p" args.
Definition isRecursive (args : list string) : bool := IsStringInSlice "-r" args.

(** [c.args[len(c.args)-2]] *)
Definition getCommandType (args : list string) : result string :=
  match args !! (length args - 2)%nat with
  | Some a => if (length args <? 2)%nat then Panic else Ok a
  | None => Panic
  end.

(** An index of an empty path, or the slice of a path that is a lone quote,
    panics. *)
Definition getDestPath (args : list string) : result string :=
  match last args with
  | None | Some EmptyString => Panic
  | Some (String ch rest as destPath) =>
      let quoted := bool_decide (ch = "'"%char) || bool_decide (ch = "034"%char) in
      if quoted && bool_decide (rest = EmptyString) then Panic
      else
        let destPath := if quoted then String.substring 1 (String.length destPath - 2) destPath else destPath in
        Ok (if IsAbs destPath then destPath else "/" +:+ destPath)
  end.

Section scp.
Context {F P C : Type} `{FileSystem F, Provider P, Channel C}.
Context (errText : error → string) (conf : ServConf) (c : Connection) (args : list string).
(** A bound on the number of messages and reads a loop waits for. *)
Context (fuel : nat).
Abbreviation St := (World F P * C)%type.
Abbreviation user := (conn_User c).

Definition ch_read (n : Z) : M St (list byte * option error) := λ s,
  let '(r, ch) := ch_Read n s.2 in (Ok r, (s.1, ch)).
Definition ch_write (data : list byte) : M St (option error) := λ s,
  let '(r, ch) := ch_Write data s.2 in (Ok r, (s.1, ch)).
Definition ch_close : M St unit := λ s, (Ok tt, (s.1, ch_Close s.2)).
Definition world (f : World F P → World F P) : M St unit := λ s, (Ok tt, (f s.1, s.2)).
Definition on_world {A} (f : World F P → A * World F P) : M St A := λ s,
  let '(a, w) := f s.1 in (Ok a, (w, s.2)).
Definition on_disk {A} (f : F → A) : M St A := λ s, (Ok (f (disk s.1)), s).
Definition do_disk {A} (f : F → A * F) : M St A := λ s,
  let '(a, d) := f (disk s.1) in (Ok a, (set_disk d s.1, s.2)).
Definition lift_result {A} (r : result A) : M St A := λ s, (r, s).

(** ** Messages *)

(** The text after a warning or error byte, up to a newline or the end. *)
Fixpoint readText (fuel : nat) (msg : list byte) : M St (list byte) :=
  match fuel with
  | O => panic
  | S fuel =>
      '(readed, err) ← ch_read 1;
      match err with
      | Some _ => mret msg
      | None => if bool_decide (readed = newLine) then mret msg else readText fuel (msg ++ readed)
      end
  end.

Definition readConfirmationMessage : M St unit :=
  '(buf, err) ← ch_read 1;
  match err with
  | Some e => _ ← ch_close; fail e
  | None =>
      if bool_decide (buf = warnMsg) || bool_decide (buf = errMsg) then
        msg ← readText fuel [];
        _ ← ch_close;
        fail (EMsg (string_of_bytes msg))
      else mret ()
  end.

Fixpoint readLine (fuel : nat) (command : list byte) : M St (list byte * option error) :=
  match fuel with
  | O => panic
  | S fuel =>
      '(readed, err) ← ch_read 1;
      match err with
      | Some e => mret (command, Some e)
      | None =>
          if bool_decide (readed = newLine) then mret (command, None)
          else readLine fuel (command ++ readed)
      end
  end.
Definition readProtocolMessage : M St string :=
  '(command, err) ← readLine fuel [];
  match err with
  | Some e => _ ← ch_close; fail e
  | None => mret (string_of_bytes command)
  end.

Definition sendErrorMessage (error : string) : M St unit :=
  _ ← ch_write errMsg; _ ← ch_write (bytes_of_string error); _ ← ch_write newLine; ch_close.
(** [c.sendErrorMessage(err.Error()); return err] *)
Definition refuse {A} (e : error) : M St A := _ ← sendErrorMessage (errText e); fail e.

Definition sendMessage (data : list byte) : M St unit :=
  err ← ch_write data;
  match err with
  | Some e => _ ← ch_close; fail e
  | None => mret ()
  end.
Definition sendConfirmationMessage : M St unit := sendMessage okMsg.
Definition sendProtocolMessage (message : string) : M St unit := sendMessage (bytes_of_string message).

Definition sendExitStatus (err : option error) : M St unit :=
  _ ← (λ s, (Ok tt, (s.1, ch_SendExitStatus (match err with Some _ => 1 | None => 0 end) s.2)) : result unit * St);
  ch_close.

Fixpoint nextUploadMessage (fuel : nat) : M St string :=
  match fuel with
  | O => panic
  | S fuel =>
      command ← readProtocolMessage;
      if strings_HasPrefix command "T" then _ ← sendConfirmationMessage; nextUploadMessage fuel
      else mret command
  end.
Definition getNextUploadProtocolMessage : M St string := nextUploadMessage fuel.

Definition parseUploadMessage (command : string) : M St (Z * string) :=
  if negb (strings_HasPrefix command "C") && negb (strings_HasPrefix command "D") then
    refuse (EMsg ("unknown or invalid upload message: " +:+ command +:+ " args: [" +:+
                  strings_Join args " " +:+ "] user: " +:+ Username user))
  else match strings_Split command " " with
  | [_; size; name] =>
      match ParseInt size with
      | Ok size =>
          if bool_decide (name = EmptyString)
          then refuse (EMsg "error getting name from upload message, cannot be empty")
          else mret (size, name)
      | Err e => _ ← sendErrorMessage ("Error getting size: " +:+ errText e); fail e
      | Panic => panic
      end
  | _ => refuse (EMsg ("Error splitting upload message: " +:+ command))
  end.

(** ** Uploads *)
Definition touch : M St unit := world (updateConnectionActivity (conn_ID c)).
Definition permissionDenied : error := EMsg "Permission denied".

Definition createDir (dirPath : string) : M St unit :=
  err ← do_disk (os_Mkdir dirPath 0x1ff);
  match err with
  | Some e => refuse e
  | None => world (SetPathPermissions dirPath (GetUID user) (GetGID user))
  end.

Definition handleCreateDir (dirPath : string) : M St unit :=
  _ ← touch;
  if negb (HasPerm user PermCreateDirs) then refuse permissionDenied
  else
    p ← on_disk (buildPath c dirPath);
    match p with
    | Err e => refuse e
    | Panic => panic
    | Ok p => createDir p
    end.

(** The loop that copies from the channel to the transfer; [len] is the length
    of the buffer. What [WriteAt] returns is ignored. *)
Fixpoint receive (fuel : nat) (id : nat) (sizeToRead remaining len : Z) : M St unit :=
  match fuel with
  | O => panic
  | S fuel =>
      '(buf, err) ← ch_read len;
      match err with
      | Some e => _ ← sendErrorMessage (errText e); _ ← on_world (Transfer_Close conf id); fail e
      | None =>
          _ ← on_world (Transfer_WriteAt id buf (sizeToRead - remaining));
          let remaining := remaining - zlen buf in
          if remaining <=? 0 then mret ()
          else receive fuel id sizeToRead remaining (if remaining <? len then remaining else len)
      end
  end.

Definition close_on_error {A} (id : nat) (m : M St A) : M St A :=
  on_error m (λ _, _ ← on_world (Transfer_Close conf id); mret ()).

Definition getUploadFileData (sizeToRead : Z) (id : nat) : M St unit :=
  _ ← close_on_error id sendConfirmationMessage;
  _ ← (if 0 <? sizeToRead then receive fuel id sizeToRead sizeToRead (Z.min bufSize sizeToRead) else mret ());
  _ ← close_on_error id readConfirmationMessage;
  err ← on_world (Transfer_Close conf id);
  match err with
  | Some e => refuse e
  | None => sendConfirmationMessage
  end.

Definition handleUploadFile (requestPath filePath : string) (sizeToRead : Z) : M St unit :=
  '(w, _) ← get;
  if negb (hasSpace conf c true w) then refuse (EMsg "denying file write due to space limit")
  else if os_IsNotExist (err_of (os_Stat (GoPath.Dir requestPath) (disk w)))
          && negb (HasPerm user PermCreateDirs) then refuse permissionDenied
  else
    file ← do_disk (os_Create filePath);
    match file with
    | Err e => refuse e
    | Panic => panic
    | Ok file =>
        _ ← world (SetPathPermissions filePath (GetUID user) (GetGID user));
        id ← on_world (start_transfer c file requestPath transferUpload true);
        getUploadFileData sizeToRead id
    end.

(** When the path exists but cannot be examined, the code calls [Error] on an
    error that is nil. *)
Definition handleUpload (uploadFilePath : string) (sizeToRead : Z) : M St unit :=
  _ ← touch;
  if negb (HasPerm user PermUpload) then refuse permissionDenied
  else
    p ← on_disk (buildPath c uploadFilePath);
    match p with
    | Err e => refuse e
    | Panic => panic
    | Ok p =>
        filePath ← (if uploadMode conf =? uploadModeAtomic
                    then on_world (getUploadTempFilePath conf p) else mret p);
        stat ← on_disk (os_Stat p);
        if os_IsNotExist (err_of stat) then handleUploadFile p filePath sizeToRead
        else match stat with
        | Err _ | Panic => panic
        | Ok fi =>
            if fi_IsDir fi then refuse (EMsg ("Attempted to open a directory for writing: " +:+ p))
            else
              err ← (if uploadMode conf =? uploadModeAtomic then do_disk (os_Rename p filePath) else mret None);
              match err with
              | Some e => refuse e
              | None =>
                  _ ← world (updateUserQuota conf user 0 (i64 (- fi_Size fi)) false);
                  handleUploadFile p filePath sizeToRead
              end
        end
    end.

Definition getFileUploadDestPath (scpDestPath fileName : string) (d : F) : string :=
  if negb (isRecursive args) && negb (strings_HasSuffix_slash scpDestPath) then
    match buildPath c scpDestPath d with
    | Ok p =>
        match os_Stat p d with
        | Ok fi => if fi_IsDir fi then Join [scpDestPath; fileName] else scpDestPath
        | _ => scpDestPath
        end
    | _ => scpDestPath
    end
  else Join [scpDestPath; fileName].

Fixpoint uploadLoop (fuel : nat) (numDirs : Z) (destPath : string) : M St unit :=
  match fuel with
  | O => panic
  | S fuel =>
      _ ← sendConfirmationMessage;
      command ← getNextUploadProtocolMessage;
      '(numDirs, destPath) ←
        (if strings_HasPrefix command "E" then
           let numDirs := numDirs - 1 in
           if numDirs =? 0 then _ ← sendConfirmationMessage; mret (numDirs, destPath)
           else mret (numDirs, Join [destPath; ".."%string])
         else
           '(sizeToRead, name) ← parseUploadMessage command;
           if strings_HasPrefix command "D" then
             let destPath := Join [destPath; name] in
             _ ← handleCreateDir destPath; mret (numDirs + 1, destPath)
           else if strings_HasPrefix command "C" then
             target ← on_disk (getFileUploadDestPath destPath name);
             _ ← handleUpload target sizeToRead; mret (numDirs, destPath)
           else mret (numDirs, destPath));
      if numDirs =? 0 then mret () else uploadLoop fuel numDirs destPath
  end.
Definition handleRecursiveUpload : M St unit :=
  destPath ← lift_result (getDestPath args); uploadLoop fuel 0 destPath.

(** ** Downloads *)

(** The T message, which announces the times of what follows. *)
Definition sendTimes (stat : FileInfo) : M St unit :=
  if sendFileTime args then
    let modTime := Itoa (Z.quot (fi_ModTime stat) 1000000000) in
    _ ← sendProtocolMessage ("T" +:+ modTime +:+ " 0 " +:+ modTime +:+ " 0" +:+ String "010" EmptyString);
    readConfirmationMessage
  else mret ().

Definition sendDownloadProtocolMessages (dirPath : string) (stat : FileInfo) : M St unit :=
  _ ← sendTimes stat;
  _ ← sendProtocolMessage ("D" +:+ getFileModeAsString (fi_Mode stat) (fi_IsDir stat) +:+ " 0 " +:+
                           Base dirPath +:+ String "010" EmptyString);
  readConfirmationMessage.

(** The loop that copies from the transfer to the channel. Its error is a
    variable of its own, so it ends the loop and is forgotten. *)
Fixpoint transmit (fuel : nat) (id : nat) (readed : Z) : M St unit :=
  match fuel with
  | O => panic
  | S fuel =>
      '(buf, err) ← on_world (Transfer_ReadAt id bufSize readed);
      err ← (if (bool_decide (err = None) || bool_decide (err = Some EOF)) && (0 <? zlen buf)
             then ch_write buf else mret err);
      match err with
      | Some _ => mret ()
      | None => transmit fuel id (readed + zlen buf)
      end
  end.

Definition fileHeader (filePath : string) (stat : FileInfo) : string :=
  "C" +:+ getFileModeAsString (fi_Mode stat) (fi_IsDir stat) +:+ " " +:+ Itoa (fi_Size stat) +:+ " " +:+
  Base filePath +:+ String "010" EmptyString.

Definition sendDownloadFileData (filePath : string) (stat : FileInfo) (id : nat) : M St unit :=
  _ ← sendTimes stat;
  _ ← sendProtocolMessage (fileHeader filePath stat);
  _ ← readConfirmationMessage;
  _ ← transmit fuel id 0;
  _ ← sendConfirmationMessage;
  readConfirmationMessage.

(** The paths below a directory: first the files and links, then the
    directories; nothing else is sent. *)
Definition downloadOrder (dirPath : string) (files : list FileInfo) : list string * list string :=
  let path f := GetRelativePath user (Join [dirPath; fi_Name f]) in
  let is_file f := mode_IsRegular (fi_Mode f) || has_bits (fi_Mode f) ModeSymlink in
  (map path (filter (λ f, is_file f = true) files),
   map path (filter (λ f, is_file f = false ∧ fi_IsDir f = true) files)).

Fixpoint each (l : list string) (m : string → M St unit) : M St unit :=
  match l with
  | [] => mret ()
  | x :: l => _ ← m x; each l m
  end.

(** [depth] bounds the nesting of directories. When the path cannot be examined
    for a reason other than being absent, the code dereferences a nil
    [FileInfo]. *)
Fixpoint handleDownload (depth : nat) (filePath : string) : M St unit :=
  match depth with
  | O => panic
  | S depth =>
      _ ← touch;
      if negb (HasPerm user PermDownload) then refuse permissionDenied
      else
        p ← on_disk (buildPath c filePath);
        match p with
        | Err _ => refuse (EMsg "Invalid file path")
        | Panic => panic
        | Ok p =>
            stat ← on_disk (os_Stat p);
            match stat with
            | Err e => if os_IsNotExist (Some e) then refuse e else panic
            | Panic => panic
            | Ok stat =>
                if fi_IsDir stat then
                  (* handleRecursiveDownload *)
                  if isRecursive args then
                    _ ← sendDownloadProtocolMessages p stat;
                    files ← on_disk (Readdir p);
                    match files with
                    | Err e => refuse e
                    | Panic => panic
                    | Ok files =>
                        let '(regular, dirs) := downloadOrder p files in
                        let resend e := sendErrorMessage (errText e) in
                        _ ← on_error (each regular (handleDownload depth)) resend;
                        _ ← on_error (each dirs (handleDownload depth)) resend;
                        _ ← sendProtocolMessage ("E" +:+ String "010" EmptyString);
                        readConfirmationMessage
                    end
                  else refuse (EMsg "Unable to send directory for non recursive copy")
                else
                  file ← do_disk (os_Open p);
                  match file with
                  | Err e => refuse e
                  | Panic => panic
                  | Ok file =>
                      id ← on_world (start_transfer c file p transferDownload false);
                      r ← attempt (sendDownloadFileData p stat id);
                      err ← on_world (Transfer_Close conf id);
                      match r with
                      | Ok _ => lift_err err
                      | Err e => fail e
                      | Panic => panic
                      end
                  end
            end
        end
  end.

(** ** The command

    [addConnection] and the deferred [removeConnection] bracket it. On an error
    of an upload or a download no exit status is sent. *)
Definition command : M St unit :=
  destPath ← lift_result (getDestPath args);
  commandType ← lift_result (getCommandType args);
  if bool_decide (commandType = "-t"%string) || bool_decide (commandType = "-pt"%string) then
    _ ← handleRecursiveUpload; sendExitStatus None
  else if bool_decide (commandType = "-f"%string) || bool_decide (commandType = "-pf"%string) then
    _ ← readConfirmationMessage; _ ← handleDownload fuel destPath; sendExitStatus None
  else
    let err := EMsg ("scp command not supported, args: [" +:+ strings_Join args " " +:+ "]") in
    _ ← sendExitStatus (Some err); fail err.
Definition handle : M St unit := λ s,
  let '(r, (w, ch)) := command (addConnection (conn_ID c) c s.1, s.2) in
  (r, (removeConnection (conn_ID c) w, ch)).
End scp.

(** ** A channel with a client at the other end

    [incoming] is what the client has still to send and [outgoing] what it has
    been sent. As long as the channel is open a read returns at least one and at
    most as many bytes as asked for, and a write sends everything. *)
Class ChannelSpec (C : Type) `{Channel C} := {
  ch_open : C → Prop;
  incoming : C → list byte;
  outgoing : C → list byte;
  ch_Read_spec ch n : ch_open ch → 0 < n → incoming ch ≠ [] →
    ∃ d ch', ch_Read n ch = ((d, None), ch') ∧ d ≠ [] ∧ zlen d <= n ∧ ch_open ch'
      ∧ incoming ch = d ++ incoming ch' ∧ outgoing ch' = outgoing ch;
  ch_Write_spec ch d : ch_open ch →
    ∃ ch', ch_Write d ch = (None, ch') ∧ ch_open ch'
      ∧ incoming ch' = incoming ch ∧ outgoing ch' = outgoing ch ++ d
}.

Section channel.
Context {C : Type} `{ChannelSpec C}.

(** From [ch] to [ch'] the client sent [i] and received [o]. *)
Record exchange (ch : C) (i o : list byte) (ch' : C) : Prop := {
  ex_open : ch_open ch';
  ex_in : incoming ch = i ++ incoming ch';
  ex_out : outgoing ch' = outgoing ch ++ o
}.

Lemma exchange_refl ch : ch_open ch → exchange ch [] [] ch.
Proof. intros Ho. split; [done..|]. by rewrite app_nil_r. Qed.

Lemma exchange_trans ch i1 o1 ch1 i2 o2 ch2 :
  exchange ch i1 o1 ch1 → exchange ch1 i2 o2 ch2 → exchange ch (i1 ++ i2) (o1 ++ o2) ch2.
Proof. intros [? E1 ?] [? E2 ?]. split; [done|rewrite <- app_assoc|rewrite app_assoc]; congruence. Qed.

(** What is left to read after an exchange. *)
Lemma exchange_rest ch i o ch' rest : exchange ch i o ch' → incoming ch = i ++ rest → incoming ch' = rest.
Proof. intros [_ E _] E'. rewrite E' in E. by apply app_inv_head in E. Qed.

Lemma ch_Read_one ch x rest : ch_open ch → incoming ch = x :: rest →
  ∃ ch', ch_Read 1 ch = (([x], None), ch') ∧ exchange ch [x] [] ch'.
Proof.
  intros Ho Hi. destruct (ch_Read_spec ch 1) as (d & ch' & E & Hd & Hl & Ho' & Hin & Hout); [done|lia|by rewrite Hi|].
  assert (d = [x]) as ->.
  { rewrite Hi in Hin. destruct d as [|y [|z d]]; [done| |unfold zlen in Hl; simpl in Hl; lia]. by simplify_eq/=. }
  exists ch'. split; [done|]. split; [done..|]. by rewrite app_nil_r.
Qed.
End channel.

(** ** Running computations *)
Lemma M_bind_ok {S A B} (m : M S A) (f : A → M S B) s a s' :
  m s = (Ok a, s') → (m ≫= f) s = f a s'.
Proof. intros E. unfold mbind, M_bind. by rewrite E. Qed.

Section messages.
Context {F P C : Type} `{FileSystem F, Provider P, ChannelSpec C}.
Context (errText : error → string) (conf : ServConf) (c : Connection) (args : list string) (fuel : nat).
Implicit Types (w : World F P) (ch : C).

Lemma sendMessage_ok w ch data : ch_open ch →
  ∃ ch', sendMessage data (w, ch) = (Ok tt, (w, ch')) ∧ exchange ch [] data ch'.
Proof.
  intros Ho. destruct (ch_Write_spec ch data Ho) as (ch' & E & Ho' & Hi & Hout). exists ch'. split.
  - unfold sendMessage, ch_write, mbind, M_bind. simpl. by rewrite E.
  - split; [done..|exact Hout].
Qed.

Lemma readConfirmation_ok w ch rest : ch_open ch → incoming ch = okMsg ++ rest →
  ∃ ch', readConfirmationMessage fuel (w, ch) = (Ok tt, (w, ch')) ∧ exchange ch okMsg [] ch'.
Proof.
  intros Ho Hi. destruct (ch_Read_one ch (byte_of_Z 0) rest Ho Hi) as (ch' & E & Hx). exists ch'.
  split; [|done]. unfold readConfirmationMessage, ch_read, mbind, M_bind. simpl. by rewrite E.
Qed.

Lemma readLine_ok n acc line w ch rest : ch_open ch → byte_of_Z 10 ∉ line →
  incoming ch = (line ++ newLine) ++ rest → (length line < n)%nat →
  ∃ ch', readLine n acc (w, ch) = (Ok (acc ++ line, None), (w, ch')) ∧ exchange ch (line ++ newLine) [] ch'.
Proof.
  revert n acc ch. induction line as [|x line IH]; intros [|n] acc ch Ho Hn Hi Hl; simpl in Hl; try lia.
  - destruct (ch_Read_one ch (byte_of_Z 10) rest Ho Hi) as (ch' & E & Hx). exists ch'. split; [|done].
    unfold readLine, ch_read, mbind, M_bind. simpl. rewrite E, bool_decide_true by done. by rewrite app_nil_r.
  - destruct (ch_Read_one ch x ((line ++ newLine) ++ rest) Ho Hi) as (ch1 & E & Hx).
    destruct (IH n (acc ++ [x]) ch1) as (ch' & E' & Hx').
    + apply Hx.
    + intros Hin. apply Hn. by right.
    + by eapply exchange_rest.
    + lia.
    + exists ch'. split; [|exact (exchange_trans _ _ _ _ _ _ _ Hx Hx')].
      cbn [readLine]. unfold ch_read, mbind, M_bind in *. simpl. rewrite E.
      rewrite bool_decide_false by (intros [= ->]; apply Hn; by left).
      rewrite E'. by rewrite <- app_assoc.
Qed.

Lemma readProtocolMessage_ok line w ch rest : ch_open ch → byte_of_Z 10 ∉ bytes_of_string line →
  incoming ch = (bytes_of_string line ++ newLine) ++ rest → (String.length line < fuel)%nat →
  ∃ ch', readProtocolMessage fuel (w, ch) = (Ok line, (w, ch'))
    ∧ exchange ch (bytes_of_string line ++ newLine) [] ch'.
Proof.
  intros Ho Hn Hi Hl. rewrite <- length_bytes_of_string in Hl.
  destruct (readLine_ok fuel [] _ w ch rest Ho Hn Hi Hl) as (ch' & E & Hx). exists ch'. split; [|done].
  unfold readProtocolMessage. rewrite (M_bind_ok _ _ _ _ _ E). simpl. by rewrite string_of_bytes_of_string.
Qed.
End messages.

(** ** Control lines *)

(** A word of a control line: no blank, no newline. *)
Definition word (s : string) : Prop := no_char " " s ∧ no_char "010" s.

Lemma no_newline_bytes s : no_char "010" s → byte_of_Z 10 ∉ bytes_of_string s.
Proof.
  induction s as [|y s IH]; [intros _ Hx; by apply not_elem_of_nil in Hx|].
  intros [Hy Hs] [E|Hx]%elem_of_cons; [|by apply IH]. apply Hy.
  rewrite <- (ascii_of_byte_of_ascii y), <- E. reflexivity.
Qed.

Lemma word_app a b : word a → word b → word (a +:+ b).
Proof. intros [? ?] [? ?]. split; by apply no_char_app. Qed.

Lemma word_Itoa n : 0 <= n → word (Itoa n).
Proof.
  intros Hn. pose proof (parse_digits_Itoa n Hn) as Hp.
  assert (∀ x s, digit_of x = None → (∀ y, y ∈ String.list_ascii_of_string s → is_Some (digit_of y)) → no_char x s) as Hnc.
  { intros x s Hx. induction s as [|y s IH]; [done|]. intros Hs. split.
    - intros ->. destruct (Hs x) as [? ?]; [by left|congruence].
    - apply IH. intros z Hz. apply Hs. by right. }
  split; apply Hnc; try done; intros y; by eapply parse_digits_chars.
Qed.

Lemma word_Itoa_any n : word (Itoa n).
Proof.
  destruct n as [|p|p]; [by apply word_Itoa|by apply word_Itoa|].
  change (Itoa (Z.neg p)) with ("-" +:+ Itoa (Z.pos p)). apply word_app; [done|by apply word_Itoa].
Qed.

Lemma word_mode m d : word (getFileModeAsString m d).
Proof.
  unfold getFileModeAsString. destruct (m =? 0); [by destruct d|].
  assert (∀ l i n, 0 <= n → 0 <= perm_digit l i n) as Hd by (intros l i n Hn; unfold perm_digit; repeat case_match; lia).
  repeat apply word_app; apply word_Itoa; repeat case_match; repeat (apply Z.add_nonneg_nonneg; [|apply Hd]); try apply Hd; lia.
Qed.

(** The line that announces a file. *)
Definition uploadLine (mode : string) (size : Z) (name : string) : string :=
  "C" +:+ mode +:+ " " +:+ Itoa size +:+ " " +:+ name.

Lemma uploadLine_no_newline mode size name : word mode → word name → 0 <= size →
  no_char "010" (uploadLine mode size name).
Proof.
  intros [_ Hm] [_ Hn] Hs. pose proof (word_Itoa size Hs) as [_ Hi].
  unfold uploadLine. rewrite !no_char_app. by repeat split.
Qed.

Lemma uploadLine_split mode size name : word mode → word name → 0 <= size →
  strings_Split (uploadLine mode size name) " " = ["C" +:+ mode; Itoa size; name].
Proof.
  intros [Hm _] [Hn _] Hs. pose proof (word_Itoa size Hs) as [Hi _]. 
  change (uploadLine mode size name) with (("C" +:+ mode) +:+ String " " (Itoa size +:+ String " " name)).
  rewrite strings_Split_app_sep by (apply no_char_app; by split).
  rewrite (strings_Split_app_sep (Itoa size)) by done. by rewrite strings_Split_single.
Qed.

Lemma HasPrefix_char x s : strings_HasPrefix (String x s) (String x EmptyString) = true.
Proof. unfold strings_HasPrefix. simpl. destruct (ascii_dec x x); [by destruct s|done]. Qed.

Lemma uploadLine_prefix mode size name : strings_HasPrefix (uploadLine mode size name) "C" = true.
Proof. apply HasPrefix_char. Qed.

(** What a download announces is what an upload understands. *)
Lemma fileHeader_line p stat :
  fileHeader p stat
  = uploadLine (getFileModeAsString (fi_Mode stat) (fi_IsDir stat)) (fi_Size stat) (Base p) +:+ String "010" EmptyString.
Proof. unfold fileHeader, uploadLine. by rewrite !string_app_assoc. Qed.

(** Steps that always succeed, as rewrite rules. *)
Section steps.
Context {F P C A B : Type} `{FileSystem F}.
Implicit Types (w : World F P) (ch : C).
Lemma bind_on_disk (f : F → A) (k : A → M (World F P * C) B) w ch :
  (on_disk f ≫= k) (w, ch) = k (f (disk w)) (w, ch).
Proof. done. Qed.
Lemma bind_do_disk (f : F → A * F) (k : A → M (World F P * C) B) w ch :
  (do_disk f ≫= k) (w, ch) = k (f (disk w)).1 (set_disk (f (disk w)).2 w, ch).
Proof. unfold do_disk, mbind, M_bind. cbn [fst snd]. by destruct (f (disk w)). Qed.
Lemma bind_world (f : World F P → World F P) (k : unit → M (World F P * C) B) w ch :
  (world f ≫= k) (w, ch) = k tt (f w, ch).
Proof. done. Qed.
Lemma bind_on_world (f : World F P → A * World F P) (k : A → M (World F P * C) B) w ch :
  (on_world f ≫= k) (w, ch) = k (f w).1 ((f w).2, ch).
Proof. unfold on_world, mbind, M_bind. cbn [fst snd]. by destruct (f w). Qed.
Lemma bind_get (k : World F P * C → M (World F P * C) B) w ch : (get ≫= k) (w, ch) = k (w, ch) (w, ch).
Proof. done. Qed.
Lemma bind_ret (a : A) (k : A → M (World F P * C) B) w ch : (mret a ≫= k) (w, ch) = k a (w, ch).
Proof. done. Qed.
End steps.
Create Rewrite HintDb scp.
#[export] Hint Rewrite @bind_on_disk @bind_do_disk @bind_world @bind_on_world @bind_get @bind_ret : scp.

Lemma bufSize_pos : 0 < bufSize.
Proof. done. Qed.
Opaque bufSize.

(** A line as it goes over the wire. *)
Definition wire (line : string) : list byte := bytes_of_string line ++ newLine.

Section uploads.
Context {F P C : Type} `{FileSystemSpec F, !FileContents F, Provider P, ChannelSpec C}.
Context (errText : error → string) (conf : ServConf) (c : Connection) (args : list string) (fuel : nat).
Implicit Types (w : World F P) (ch : C).

Lemma parseUploadMessage_ok mode size name (s : World F P * C) :
  word mode → word name → name ≠ EmptyString → 0 <= size < 2 ^ 63 →
  parseUploadMessage errText c args (uploadLine mode size name) s = (Ok (size, name), s).
Proof.
  intros Hm Hn Hne Hs. unfold parseUploadMessage. rewrite uploadLine_split by (done || lia).
  rewrite ParseInt_Itoa by done. rewrite bool_decide_false by done. by rewrite uploadLine_prefix.
Qed.

(** Lines that announce times are confirmed and skipped. *)
Lemma nextUploadMessage_ok n ts line w ch rest : ch_open ch →
  Forall (λ t, strings_HasPrefix t "T" = true ∧ no_char "010" t ∧ (String.length t < fuel)%nat) ts →
  strings_HasPrefix line "T" = false → no_char "010" line → (String.length line < fuel)%nat →
  (length ts < n)%nat → incoming ch = concat (map wire ts) ++ wire line ++ rest →
  ∃ ch', nextUploadMessage fuel n (w, ch) = (Ok line, (w, ch'))
    ∧ exchange ch (concat (map wire ts) ++ wire line) (concat (map (λ _, okMsg) ts)) ch'.
Proof.
  intros Ho Hts. revert n ch Ho. induction Hts as [|t ts (Ht & Hnl & Hlt) Hts IH];
    intros [|n] ch Ho Hl Hln Hlf Hn Hi; simpl in Hn; try lia.
  - destruct (readProtocolMessage_ok fuel line w ch rest) as (ch' & E & Hx); [done|by apply no_newline_bytes|done|done|].
    exists ch'. split; [|exact Hx]. cbn [nextUploadMessage]. rewrite (M_bind_ok _ _ _ _ _ E). by rewrite Hl.
  - simpl in Hi. rewrite <- app_assoc in Hi.
    destruct (readProtocolMessage_ok fuel t w ch (concat (map wire ts) ++ wire line ++ rest))
      as (ch1 & E1 & Hx1); [done|by apply no_newline_bytes|done|done|].
    destruct (sendMessage_ok w ch1 okMsg) as (ch2 & E2 & Hx2); [apply Hx1|].
    destruct (IH n ch2) as (ch' & E & Hx); [apply Hx2|done..|lia| |].
    { eapply exchange_rest; [exact Hx2|]. eapply exchange_rest; [exact Hx1|exact Hi]. }
    exists ch'. split.
    + cbn [nextUploadMessage]. rewrite (M_bind_ok _ _ _ _ _ E1), Ht.
      unfold sendConfirmationMessage. by rewrite (M_bind_ok _ _ _ _ _ E2).
    + pose proof (exchange_trans _ _ _ _ _ _ _ (exchange_trans _ _ _ _ _ _ _ Hx1 Hx2) Hx) as Hxx.
      rewrite app_nil_r in Hxx. simpl. rewrite <- app_assoc. unfold wire at 1. rewrite <- app_assoc. rewrite <- !app_assoc in Hxx. exact Hxx.
Qed.

(** *** Receiving the data *)

(** Writes to the open file and its [Close] succeed. *)
Definition reliable (fl : File) : Prop :=
  (∀ data off d, file_open fl d → (file_WriteAt fl data off d).1.2 = None) ∧
  (∀ d, file_open fl d → (file_Close fl d).1 = None).

(** The transfer [id] writes to [fl], which holds [b]. *)
Record receiving (w : World F P) (id : nat) (t : Transfer) (b : list byte) : Prop := {
  rc_transfer : transfers w !! id = Some t;
  rc_count : t_bytesReceived t = zlen b;
  rc_open : file_open (t_file t) (disk w);
  rc_bytes : file_bytes (t_file t) (disk w) = b
}.

Lemma Transfer_WriteAt_append id t b data w :
  receiving w id t b → reliable (t_file t) → zlen (b ++ data) < 2 ^ 63 →
  ∃ la w', Transfer_WriteAt id data (zlen b) w = ((zlen data, None), w')
    ∧ receiving w' id (set_received t la (zlen (b ++ data))) (b ++ data)
    ∧ same_books w w'.
Proof.
  intros [Ht Hc Ho Hb] [Hw _] Hlen.
  destruct (file_WriteAt (t_file t) data (zlen b) (disk w)) as [[n e] d'] eqn:E.
  pose proof (Hw data (zlen b) (disk w) Ho) as He. rewrite E in He. simpl in He. subst e.
  destruct (WriteAt_content (t_file t) data (zlen b) (disk w) n d' Ho (zlen_nonneg b) E) as (-> & Ho' & Hb').
  rewrite zlen_app in Hlen |- *. pose proof (zlen_nonneg b). pose proof (zlen_nonneg data).
  unfold Transfer_WriteAt. rewrite Ht, E. eexists _, _. split; [done|]. split; [|done].
  split; simpl.
  - rewrite lookup_insert_eq. rewrite Hc, i64_id by (split; lia). done.
  - by rewrite zlen_app.
  - done.
  - by rewrite Hb', Hb, write_bytes_end.
Qed.

Lemma receive_ok n id t b data w ch rest len :
  receiving w id t b → reliable (t_file t) → ch_open ch →
  incoming ch = data ++ rest → 0 < len <= zlen data → (length data <= n)%nat → zlen (b ++ data) < 2 ^ 63 →
  ∃ la w' ch', receive errText conf n id (zlen (b ++ data)) (zlen data) len (w, ch) = (Ok tt, (w', ch'))
    ∧ exchange ch data [] ch' ∧ same_books w w'
    ∧ receiving w' id (set_received t la (zlen (b ++ data))) (b ++ data).
Proof.
  revert t b data w ch len. induction n as [|n IH]; intros t b data w ch len Hr Hrel Ho Hi Hlen Hn Hmax.
  { destruct data; unfold zlen in Hlen; simpl in *; lia. }
  destruct (ch_Read_spec ch len) as (d & ch1 & E & Hd & Hl & Ho1 & Hin & Hout); [done|lia| |].
  { rewrite Hi. destruct data; [unfold zlen in Hlen; simpl in Hlen; lia|done]. }
  assert (∃ data', data = d ++ data') as [data' ->].
  { rewrite Hi in Hin. apply app_eq_inv in Hin as [(k & -> & _)|(k & -> & _)]; [by eexists|].
    exists []. rewrite zlen_app in Hl. destruct k; [by rewrite !app_nil_r|]. unfold zlen in *. simpl in *. lia. }
  assert (Hx : exchange ch d [] ch1) by (split; [done..|by rewrite app_nil_r]).
  assert (Hi1 : incoming ch1 = data' ++ rest) by (eapply exchange_rest; [exact Hx|by rewrite app_assoc]).
  assert (Hdpos : 0 < zlen d) by (destruct d; [done|unfold zlen; simpl; lia]).
  assert (Hmax' : zlen (b ++ d) < 2 ^ 63) by (rewrite !zlen_app in *; pose proof (zlen_nonneg data'); lia).
  destruct (Transfer_WriteAt_append id t b d w Hr Hrel Hmax') as (la & w1 & Ew & Hr1 & Hb1).
  cbn [receive]. unfold ch_read at 1. unfold mbind at 1, M_bind at 1. simpl. rewrite E.
  assert (zlen (b ++ d ++ data') - zlen (d ++ data') = zlen b) as -> by (rewrite !zlen_app; lia).
  unfold on_world at 1. unfold mbind at 1, M_bind at 1. simpl. rewrite Ew.
  assert (zlen (d ++ data') - zlen d = zlen data') as -> by (rewrite !zlen_app; lia).
  destruct (Z.leb_spec (zlen data') 0) as [Hz|Hz].
  - assert (data' = []) as -> by (destruct data'; [done|unfold zlen in Hz; simpl in Hz; lia]).
    exists la, w1, ch1. rewrite !app_nil_r. by split_and!.
  - destruct (IH (set_received t la (zlen (b ++ d))) (b ++ d) data' w1 ch1 (if zlen data' <? len then zlen data' else len))
      as (la' & w' & ch' & E' & Hx' & Hb' & Hr'); [done|done|done|done| | |by rewrite <- app_assoc|].
    { rewrite !zlen_app in Hlen. destruct (Z.ltb_spec (zlen data') len); lia. }
    { rewrite length_app in Hn. unfold zlen in Hdpos. lia. }
    exists la', w', ch'. rewrite <- app_assoc in E', Hr'. split; [exact E'|].
    split; [exact (exchange_trans _ _ _ _ _ _ _ Hx Hx')|]. split; [|exact Hr'].
    unfold same_books in *. intuition congruence.
Qed.

Lemma Transfer_Close_ok id t b w :
  receiving w id t b → file_Name (t_file t) = t_path t → reliable (t_file t) →
  ∃ w', Transfer_Close conf id w = (None, w').
Proof.
  intros [Ht _ Ho _] Hn [_ Hc]. unfold Transfer_Close. rewrite Ht.
  destruct (file_Close (t_file t) (disk w)) as [e d] eqn:E. pose proof (Hc _ Ho) as He. rewrite E in He.
  simpl in He. subst e. rewrite bool_decide_true, andb_false_r by done.
  destruct (removeTransfer _ _) as [? w2]. by eexists.
Qed.

(** From [w] to [w'] an upload to [p] was closed without an error when its new
    file held [data], all of it counted, and no account had changed until then. *)
Definition stored (w : World F P) (p : string) (fl : File) (data : list byte) (w' : World F P) : Prop :=
  ∃ id t w1, Transfer_Close conf id w1 = (None, w') ∧ receiving w1 id t data ∧ id ∈ activeTransfers w1
    ∧ prov w1 = prov w
    ∧ t_file t = fl ∧ t_path t = p ∧ t_transferType t = transferUpload ∧ t_isNewFile t = true
    ∧ t_user t = conn_User c.

Lemma getUploadFileData_ok id t data w ch rest :
  receiving w id t [] → reliable (t_file t) → file_Name (t_file t) = t_path t →
  id ∈ activeTransfers w → t_transferType t = transferUpload → t_isNewFile t = true → t_user t = conn_User c →
  ch_open ch → incoming ch = data ++ okMsg ++ rest → (length data <= fuel)%nat → zlen data < 2 ^ 63 →
  ∃ w' ch', getUploadFileData errText conf fuel (zlen data) id (w, ch) = (Ok tt, (w', ch'))
    ∧ exchange ch (data ++ okMsg) (okMsg ++ okMsg) ch' ∧ stored w (t_path t) (t_file t) data w'.
Proof.
  intros Hr Hrel Hname Hact Hty Hnew Huser Ho Hi Hf Hmax. pose proof bufSize_pos.
  destruct (sendMessage_ok w ch okMsg Ho) as (ch1 & E1 & Hx1).
  assert (∃ t' w2 ch2, (if 0 <? zlen data then receive errText conf fuel id (zlen data) (zlen data) (Z.min bufSize (zlen data))
      else mret ()) (w, ch1) = (Ok tt, (w2, ch2)) ∧ exchange ch1 data [] ch2 ∧ receiving w2 id t' data
      ∧ same_books w w2 ∧ (∃ la k, t' = set_received t la k)) as (t' & w2 & ch2 & E2 & Hx2 & Hr2 & (Hp2 & Ha2 & _) & (la & k & ->)).
  { assert (Hi1 : incoming ch1 = data ++ okMsg ++ rest) by (by eapply exchange_rest).
    destruct (Z.ltb_spec 0 (zlen data)) as [Hz|Hz].
    - destruct (receive_ok fuel id t [] data w ch1 (okMsg ++ rest) (Z.min bufSize (zlen data)))
        as (la & w2 & ch2 & E2 & Hx2 & Hb2 & Hr2); [done|done|apply Hx1|done|lia|done|done|].
      eexists _, w2, ch2. split; [exact E2|]. split_and!; [done..|]. by eexists _, _.
    - assert (data = []) as -> by (destruct data; [done|unfold zlen in Hz; simpl in Hz; lia]).
      exists t, w, ch1. split; [done|]. split; [apply exchange_refl, Hx1|]. split; [done|]. split; [done|].
      exists (t_lastActivity t), (t_bytesReceived t). by destruct t. }
  destruct (readConfirmation_ok fuel w2 ch2 rest) as (ch3 & E3 & Hx3).
  { apply Hx2. } { eapply exchange_rest; [exact Hx2|]. by eapply exchange_rest. }
  destruct (Transfer_Close_ok id _ data w2 Hr2) as (w3 & E4); [done|done|].
  destruct (sendMessage_ok w3 ch3 okMsg) as (ch4 & E5 & Hx4); [apply Hx3|].
  exists w3, ch4. split; [|split].
  - unfold getUploadFileData, close_on_error, on_error.
    unfold mbind at 1, M_bind at 1. unfold sendConfirmationMessage at 1. rewrite E1.
    rewrite (M_bind_ok _ _ _ _ _ E2). unfold mbind at 1, M_bind at 1. rewrite E3.
    unfold on_world, mbind, M_bind. simpl. rewrite E4. exact E5.
  - pose proof (exchange_trans _ _ _ _ _ _ _ (exchange_trans _ _ _ _ _ _ _ Hx1 Hx2)
      (exchange_trans _ _ _ _ _ _ _ Hx3 Hx4)) as Hx. exact Hx.
  - exists id, (set_received t la k), w2. split_and!; try done. by rewrite Ha2.
Qed.

(** What makes the server accept a new file: the permission, a path in the home
    directory where nothing exists yet, space, and a disk that takes it. *)
Record upload_accepted (w : World F P) (target p : string) (fl : File) : Prop := {
  ua_perm : HasPerm (conn_User c) PermUpload = true;
  ua_path : buildPath c target (disk w) = Ok p;
  ua_new : os_IsNotExist (err_of (os_Stat p (disk w))) = true;
  ua_space : hasSpace conf c true w = true;
  ua_parent : os_IsNotExist (err_of (os_Stat (GoPath.Dir p) (disk w))) = false;
  ua_create : (os_Create p (disk w)).1 = Ok fl;
  ua_mode : uploadMode conf = uploadModeStandard;
  ua_reliable : reliable fl
}.

Lemma hasSpace_touch w b : hasSpace conf c b (updateConnectionActivity (conn_ID c) w) = hasSpace conf c b w.
Proof. unfold hasSpace, updateConnectionActivity. by destruct (openConnections w !! conn_ID c). Qed.

Lemma stored_prov w0 w p fl data w' : prov w = prov w0 → stored w p fl data w' → stored w0 p fl data w'.
Proof. intros E (id & t & w1 & ? & ? & ? & Hp & Hrest). exists id, t, w1. rewrite <- E. by repeat (split; [done|]). Qed.

Lemma prov_touch w : prov (updateConnectionActivity (conn_ID c) w) = prov w.
Proof. by apply updateConnectionActivity_data. Qed.

Lemma disk_touch w : disk (updateConnectionActivity (conn_ID c) w) = disk w.
Proof. by apply updateConnectionActivity_data. Qed.

Lemma handleUploadFile_ok w p fl data ch rest :
  hasSpace conf c true w = true → os_IsNotExist (err_of (os_Stat (GoPath.Dir p) (disk w))) = false →
  (os_Create p (disk w)).1 = Ok fl → reliable fl →
  ch_open ch → incoming ch = data ++ okMsg ++ rest → (length data <= fuel)%nat → zlen data < 2 ^ 63 →
  ∃ w' ch', handleUploadFile errText conf c fuel p p (zlen data) (w, ch) = (Ok tt, (w', ch'))
    ∧ exchange ch (data ++ okMsg) (okMsg ++ okMsg) ch' ∧ stored w p fl data w'.
Proof.
  intros Hs Hd Hc Hrel Ho Hi Hf Hmax. destruct (os_Create p (disk w)) as [r d1] eqn:E. simpl in Hc. subst r.
  unfold os_Create in E. pose proof (OpenFile_content _ _ _ _ _ _ E) as (Hopen & Hname & Htr).
  specialize (Htr eq_refl).
  destruct (Chown_content fl p (GetUID (conn_User c)) (GetGID (conn_User c)) d1 Hopen) as [Hopen2 Hb2].
  set (w1 := SetPathPermissions p (GetUID (conn_User c)) (GetGID (conn_User c)) (set_disk d1 w)).
  unfold handleUploadFile. rewrite bind_get, Hs, Hd. cbn [negb andb].
  rewrite bind_do_disk. unfold os_Create. rewrite E. cbn [fst snd]. rewrite bind_world, bind_on_world. fold w1.
  unfold start_transfer, newTransfer. cbn [fst snd].
  match goal with |- context [getUploadFileData _ _ _ _ ?i (?w', _)] => set (id := i); set (w2 := w') end.
  destruct (getUploadFileData_ok id (new_transfer c fl p transferUpload true w1) data w2 ch rest)
    as (w' & ch' & E' & Hx & Hst); try done.
  - split; simpl; [apply lookup_insert_eq|done|exact Hopen2|]. by rewrite Hb2.
  - simpl. apply elem_of_app. right. by left.
  - by exists w', ch'.
Qed.

Lemma handleUpload_ok w target p fl data ch rest :
  upload_accepted w target p fl →
  ch_open ch → incoming ch = data ++ okMsg ++ rest → (length data <= fuel)%nat → zlen data < 2 ^ 63 →
  ∃ w' ch', handleUpload errText conf c fuel target (zlen data) (w, ch) = (Ok tt, (w', ch'))
    ∧ exchange ch (data ++ okMsg) (okMsg ++ okMsg) ch' ∧ stored w p fl data w'.
Proof.
  intros [Hp Hb Hn Hs Hd Hc Hm Hr] Ho Hi Hf Hmax.
  unfold handleUpload, touch. rewrite bind_world, Hp. cbn [negb].
  set (w1 := updateConnectionActivity (conn_ID c) w).
  assert (Hw1 : disk w1 = disk w) by apply disk_touch.
  rewrite bind_on_disk, Hw1, Hb, Hm. change (uploadModeStandard =? uploadModeAtomic) with false.
  cbv iota. rewrite bind_ret, bind_on_disk, Hw1, Hn.
  destruct (handleUploadFile_ok w1 p fl data ch rest) as (w' & ch' & E & Hx & Hst); try done;
    [by unfold w1; rewrite hasSpace_touch|by rewrite Hw1..|].
  exists w', ch'. split_and!; [done..|]. eapply stored_prov; [apply prov_touch|exact Hst].
Qed.

Lemma length_concat_elem {A} (x : list A) l : x ∈ l → (length x <= length (concat l))%nat.
Proof.
  induction l as [|y l IH]; intros Hx; [by apply not_elem_of_nil in Hx|]. simpl. rewrite length_app.
  apply elem_of_cons in Hx as [->|Hx]; [lia|]. specialize (IH Hx). lia.
Qed.

Lemma length_wire line : length (wire line) = S (String.length line).
Proof. unfold wire. rewrite length_app, length_bytes_of_string. simpl. lia. Qed.

(** What a client sends to upload one file: times it may announce, the control
    line, the data and a confirmation. *)
Definition upload_stream (ts : list string) (mode name : string) (data : list byte) : list byte :=
  concat (map wire ts) ++ wire (uploadLine mode (zlen data) name) ++ data ++ okMsg.
Definition time_line (t : string) : Prop := strings_HasPrefix t "T" = true ∧ no_char "010" t.

Lemma handleRecursiveUpload_ok ts mode name data dest p fl w ch rest :
  ch_open ch → Forall time_line ts → word mode → word name → name ≠ EmptyString →
  getDestPath args = Ok dest → upload_accepted w (getFileUploadDestPath c args dest name (disk w)) p fl →
  incoming ch = upload_stream ts mode name data ++ rest →
  (length (incoming ch) < fuel)%nat → zlen data < 2 ^ 63 →
  ∃ w' ch', handleRecursiveUpload errText conf c args fuel (w, ch) = (Ok tt, (w', ch'))
    ∧ exchange ch (upload_stream ts mode name data) (okMsg ++ concat (map (λ _, okMsg) ts) ++ okMsg ++ okMsg) ch'
    ∧ stored w p fl data w'.
Proof.
  intros Ho Hts Hmode Hword Hne Hdest Hacc Hi Hf Hmax. pose proof (zlen_nonneg data) as Hpos.
  unfold upload_stream in *. set (line := uploadLine mode (zlen data) name) in *.
  rewrite Hi, !length_app, length_wire in Hf. rewrite <- !app_assoc in Hi.
  destruct (sendMessage_ok w ch okMsg Ho) as (ch1 & E1 & Hx1).
  destruct (nextUploadMessage_ok fuel ts line w ch1 (data ++ okMsg ++ rest)) as (ch2 & E2 & Hx2).
  { apply Hx1. }
  { apply Forall_forall. intros t Ht. rewrite Forall_forall in Hts. destruct (Hts t Ht). split_and!; [done..|].
    pose proof (length_concat_elem (wire t) (map wire ts) (list_elem_of_fmap_2 wire ts t Ht)) as Hl.
    rewrite length_wire in Hl. lia. }
  { by destruct mode. }
  { by apply uploadLine_no_newline. }
  { lia. }
  { assert (length ts <= length (concat (map wire ts)))%nat; [|lia]. clear. induction ts as [|t ts IH]; [done|].
    simpl. rewrite length_app, length_wire. lia. }
  { by eapply exchange_rest. }
  destruct (handleUpload_ok w (getFileUploadDestPath c args dest name (disk w)) p fl data ch2 rest)
    as (w3 & ch3 & E3 & Hx3 & Hst); [done|apply Hx2| |lia|done|].
  { eapply exchange_rest; [exact Hx2|]. rewrite <- app_assoc. by eapply exchange_rest. }
  exists w3, ch3. split; [|split; [|done]].
  - unfold handleRecursiveUpload, lift_result. unfold mbind at 1, M_bind at 1. rewrite Hdest.
    assert (∀ n, (0 < n)%nat → uploadLoop errText conf c args fuel n 0 dest (w, ch) = (Ok tt, (w3, ch3)))
      as Hloop; [|apply Hloop; lia]. intros [|n] Hn; [lia|]. cbn [uploadLoop].
    unfold sendConfirmationMessage at 1. rewrite (M_bind_ok _ _ _ _ _ E1).
    unfold getNextUploadProtocolMessage. rewrite (M_bind_ok _ _ _ _ _ E2).
    assert (strings_HasPrefix line "E" = false ∧ strings_HasPrefix line "D" = false ∧ strings_HasPrefix line "C" = true)
      as (HE & HD & HC) by (split_and!; [by destruct mode..|apply uploadLine_prefix]).
    rewrite HE. erewrite (M_bind_ok _ _ _ (0, dest) (w3, ch3)); [done|].
    rewrite (M_bind_ok _ _ _ _ _ (parseUploadMessage_ok mode (zlen data) name (w, ch2) Hmode Hword Hne ltac:(lia))).
    rewrite HD, HC, bind_on_disk. by rewrite (M_bind_ok _ _ _ _ _ E3).
  - pose proof (exchange_trans _ _ _ _ _ _ _ Hx1 (exchange_trans _ _ _ _ _ _ _ Hx2 Hx3)) as Hx.
    rewrite <- app_assoc in Hx. exact Hx.
Qed.
End uploads.

(** ** Downloads *)
Section downloads.
Context {F P C : Type} `{FileSystemSpec F, !FileContents F, Provider P, ChannelSpec C}.
Context (errText : error → string) (conf : ServConf) (c : Connection) (args : list string) (fuel : nat).
Implicit Types (w : World F P) (ch : C).

(** The transfer [id] reads from a file that holds [b]. *)
Record sending (w : World F P) (id : nat) (fl : File) (b : list byte) : Prop := {
  sd_transfer : ∃ t, transfers w !! id = Some t ∧ t_file t = fl ∧ t_transferType t = transferDownload;
  sd_open : file_open fl (disk w);
  sd_bytes : file_bytes fl (disk w) = b
}.

Lemma Transfer_ReadAt_sending id fl b w off : sending w id fl b → 0 <= off →
  let l := take (Z.to_nat bufSize) (drop (Z.to_nat off) b) in
  ∃ w', Transfer_ReadAt id bufSize off w = ((l, if zlen l <? bufSize then Some EOF else None), w') ∧ sending w' id fl b.
Proof.
  intros [(t & Ht & Hf & Hty) Ho Hb] Hoff l.
  pose proof (ReadAt_content fl bufSize off (disk w) Ho (Z.lt_le_incl _ _ bufSize_pos) Hoff) as E. rewrite Hb in E.
  unfold Transfer_ReadAt. rewrite Ht, Hf, E. eexists. split; [done|]. split; simpl; [|done..].
  eexists. rewrite lookup_insert_eq. split; [done|]. by split.
Qed.

Lemma transmit_ok n id fl b off w ch : sending w id fl b → ch_open ch → 0 <= off <= zlen b →
  (length b < Z.to_nat off + n)%nat →
  ∃ w' ch', transmit n id off (w, ch) = (Ok tt, (w', ch'))
    ∧ exchange ch [] (drop (Z.to_nat off) b) ch' ∧ sending w' id fl b.
Proof.
  revert off w ch. induction n as [|n IH]; intros off w ch Hs Ho Hoff Hn; [unfold zlen in Hoff; lia|].
  destruct (Transfer_ReadAt_sending id fl b w off Hs) as (w1 & E & Hs1); [lia|].
  set (l := take (Z.to_nat bufSize) (drop (Z.to_nat off) b)) in *.
  cbn [transmit]. rewrite bind_on_world, E. cbn [fst snd].
  destruct (Z.ltb_spec 0 (zlen l)) as [Hl|Hl].
  - assert ((bool_decide ((if zlen l <? bufSize then Some EOF else None) = None)
             || bool_decide ((if zlen l <? bufSize then Some EOF else None) = Some EOF)) && true = true) as ->
      by (by destruct (zlen l <? bufSize)).
    destruct (ch_Write_spec ch l Ho) as (ch1 & Ew & Ho1 & Hi1 & Hout1).
    assert (Hx1 : exchange ch [] l ch1) by (by split).
    erewrite M_bind_ok by (unfold ch_write; cbn [fst snd]; by rewrite Ew).
    assert (Hll : (length l <= length b - Z.to_nat off)%nat) by (unfold l; rewrite length_take, length_drop; lia).
    destruct (IH (off + zlen l) w1 ch1) as (w2 & ch2 & E2 & Hx2 & Hs2); [done|done| | |].
    { unfold zlen in *. lia. } { unfold zlen in *. lia. }
    exists w2, ch2. split; [done|]. split; [|done].
    pose proof (exchange_trans _ _ _ _ _ _ _ Hx1 Hx2) as Hx.
    assert (l ++ drop (Z.to_nat (off + zlen l)) b = drop (Z.to_nat off) b) as <-; [|exact Hx].
    rewrite Z2Nat.inj_add, <- drop_drop by (unfold zlen in *; lia).
    unfold zlen. rewrite Nat2Z.id. unfold l. rewrite length_take.
    destruct (Nat.min_spec (Z.to_nat bufSize) (length (drop (Z.to_nat off) b))) as [[_ ->]|[Hm ->]].
    + apply take_drop.
    + rewrite drop_all, app_nil_r. by rewrite take_ge.
  - assert (Hd : drop (Z.to_nat off) b = []).
    { apply length_zero_iff_nil. unfold l, zlen in Hl. rewrite length_take in Hl. pose proof bufSize_pos. lia. }
    rewrite andb_false_r, bind_ret. pose proof bufSize_pos. rewrite (proj2 (Z.ltb_lt _ _)) by lia.
    exists w1, ch. split; [done|]. rewrite Hd. split; [by apply exchange_refl|done].
Qed.

(** The line that announces the times, when they are asked for. *)
Definition time_lines (stat : FileInfo) : list string :=
  if sendFileTime args then
    let modTime := Itoa (Z.quot (fi_ModTime stat) 1000000000) in ["T" +:+ modTime +:+ " 0 " +:+ modTime +:+ " 0"]
  else [].

Lemma time_lines_ok stat : Forall time_line (time_lines stat).
Proof.
  unfold time_lines. destruct (sendFileTime args); [|constructor]. apply Forall_singleton. split; [apply HasPrefix_char|].
  destruct (word_Itoa_any (Z.quot (fi_ModTime stat) 1000000000)) as [_ ?]. rewrite !no_char_app. by repeat split.
Qed.

Lemma bytes_of_string_app a b : bytes_of_string (a +:+ b) = bytes_of_string a ++ bytes_of_string b.
Proof. induction a as [|x a IH]; [done|]. exact (f_equal (cons (byte_of_ascii x)) IH). Qed.

Lemma wire_line line : bytes_of_string (line +:+ String "010" EmptyString) = wire line.
Proof. by rewrite bytes_of_string_app. Qed.

Lemma sendTimes_ok stat w ch rest : ch_open ch →
  incoming ch = concat (map (λ _, okMsg) (time_lines stat)) ++ rest →
  ∃ ch', sendTimes args fuel stat (w, ch) = (Ok tt, (w, ch'))
    ∧ exchange ch (concat (map (λ _, okMsg) (time_lines stat))) (concat (map wire (time_lines stat))) ch'.
Proof.
  intros Ho Hi. unfold sendTimes, time_lines in *. destruct (sendFileTime args).
  - set (m := Itoa (Z.quot (fi_ModTime stat) 1000000000)) in *. unfold sendProtocolMessage.
    rewrite !(string_app_assoc _ _ (String "010" EmptyString)), wire_line.
    destruct (sendMessage_ok w ch (wire ("T" +:+ m +:+ " 0 " +:+ m +:+ " 0")) Ho) as (ch1 & E1 & Hx1).
    destruct (readConfirmation_ok fuel w ch1 rest) as (ch2 & E2 & Hx2); [apply Hx1|by eapply exchange_rest|].
    exists ch2. rewrite (M_bind_ok _ _ _ _ _ E1). split; [done|].
    pose proof (exchange_trans _ _ _ _ _ _ _ Hx1 Hx2) as Hx. simpl. by rewrite app_nil_r in Hx |- *.
  - exists ch. split; [done|by apply exchange_refl].
Qed.

(** What the client has to confirm: the times, the control line, the data. *)
Definition download_confirmations (stat : FileInfo) : list byte :=
  concat (map (λ _, okMsg) (time_lines stat)) ++ okMsg ++ okMsg.

Lemma sendDownloadFileData_ok p stat id fl b w ch rest : sending w id fl b → ch_open ch →
  fi_Size stat = zlen b → (length b < fuel)%nat → incoming ch = download_confirmations stat ++ rest →
  ∃ w' ch', sendDownloadFileData args fuel p stat id (w, ch) = (Ok tt, (w', ch')) ∧ sending w' id fl b
    ∧ exchange ch (download_confirmations stat)
        (upload_stream (time_lines stat) (getFileModeAsString (fi_Mode stat) (fi_IsDir stat)) (Base p) b) ch'.
Proof.
  intros Hs Ho Hsz Hf Hi. unfold download_confirmations in *. rewrite <- !app_assoc in Hi.
  destruct (sendTimes_ok stat w ch (okMsg ++ okMsg ++ rest) Ho Hi) as (ch1 & E1 & Hx1).
  set (line := uploadLine (getFileModeAsString (fi_Mode stat) (fi_IsDir stat)) (zlen b) (Base p)).
  destruct (sendMessage_ok w ch1 (wire line)) as (ch2 & E2 & Hx2); [apply Hx1|].
  pose proof (exchange_trans _ _ _ _ _ _ _ Hx1 Hx2) as Hx12. rewrite app_nil_r in Hx12.
  destruct (readConfirmation_ok fuel w ch2 (okMsg ++ rest)) as (ch3 & E3 & Hx3); [apply Hx2|by eapply exchange_rest|].
  destruct (transmit_ok fuel id fl b 0 w ch3) as (w4 & ch4 & E4 & Hx4 & Hs4);
    [done|apply Hx3|split; [done|apply zlen_nonneg]|simpl; lia|]. change (drop (Z.to_nat 0) b) with b in Hx4.
  destruct (sendMessage_ok w4 ch4 okMsg) as (ch5 & E5 & Hx5); [apply Hx4|].
  pose proof (exchange_trans _ _ _ _ _ _ _ Hx12 (exchange_trans _ _ _ _ _ _ _ Hx3
    (exchange_trans _ _ _ _ _ _ _ Hx4 Hx5))) as Hx15.
  destruct (readConfirmation_ok fuel w4 ch5 rest) as (ch6 & E6 & Hx6); [apply Hx5| |].
  { eapply exchange_rest; [exact Hx15|]. by rewrite <- !app_assoc. }
  exists w4, ch6. split; [|split; [done|]].
  - unfold sendDownloadFileData. rewrite (M_bind_ok _ _ _ _ _ E1).
    unfold sendProtocolMessage. rewrite fileHeader_line, wire_line, Hsz. fold line.
    rewrite (M_bind_ok _ _ _ _ _ E2), (M_bind_ok _ _ _ _ _ E3), (M_bind_ok _ _ _ _ _ E4).
    unfold sendConfirmationMessage. by rewrite (M_bind_ok _ _ _ _ _ E5).
  - pose proof (exchange_trans _ _ _ _ _ _ _ Hx15 Hx6) as Hx. rewrite !app_nil_r, <- !app_assoc in Hx. exact Hx.
Qed.

(** What makes the server send a file: the permission, a regular file in the
    home directory that opens and closes. *)
Record download_accepted (w : World F P) (path p : string) (stat : FileInfo) (fl : File) (b : list byte) : Prop := {
  da_perm : HasPerm (conn_User c) PermDownload = true;
  da_path : buildPath c path (disk w) = Ok p;
  da_stat : os_Stat p (disk w) = Ok stat;
  da_file : fi_IsDir stat = false;
  da_open : (os_Open p (disk w)).1 = Ok fl;
  da_bytes : file_bytes fl (os_Open p (disk w)).2 = b;
  da_close : ∀ d, file_open fl d → (file_Close fl d).1 = None
}.

Lemma handleDownload_ok depth path p stat fl b w ch rest :
  download_accepted w path p stat fl b → ch_open ch → (length b < fuel)%nat →
  incoming ch = download_confirmations stat ++ rest →
  ∃ w' ch', handleDownload errText conf c args fuel (S depth) path (w, ch) = (Ok tt, (w', ch'))
    ∧ exchange ch (download_confirmations stat)
        (upload_stream (time_lines stat) (getFileModeAsString (fi_Mode stat) (fi_IsDir stat)) (Base p) b) ch'.
Proof.
  intros [Hp Hb Hst Hd Hop Hby Hcl] Ho Hf Hi. destruct (os_Open p (disk w)) as [r d'] eqn:Eo. simpl in Hop, Hby. subst r.
  pose proof (Stat_content p (disk w) stat fl d' Hst Hd Eo) as Hsz. rewrite Hby in Hsz.
  unfold os_Open in Eo. destruct (OpenFile_content _ _ _ _ _ _ Eo) as (Hopen & _ & _).
  set (w1 := set_disk d' (updateConnectionActivity (conn_ID c) w)).
  set (t := new_transfer c fl p transferDownload false w1).
  destruct (start_transfer c fl p transferDownload false w1) as [id w2] eqn:Est.
  assert (Hs : sending w2 id fl b).
  { unfold start_transfer, newTransfer in Est. injection Est as <- <-. split; simpl; [|done..].
    exists t. by rewrite lookup_insert_eq. }
  destruct (sendDownloadFileData_ok p stat id fl b w2 ch rest Hs Ho Hsz Hf Hi) as (w3 & ch3 & E3 & Hs3 & Hx).
  assert (Hc : ∃ w4, Transfer_Close conf id w3 = (None, w4)).
  { destruct Hs3 as [(t3 & Ht3 & Hf3 & Hty3) Ho3 _]. unfold Transfer_Close. rewrite Ht3, Hf3, Hty3.
    pose proof (Hcl _ Ho3) as He. destruct (file_Close fl (disk w3)) as [e d]. simpl in He. subst e. simpl.
    destruct (removeTransfer _ _). by eexists. }
  destruct Hc as [w4 E4]. exists w4, ch3. split; [|exact Hx].
  cbn [handleDownload]. unfold touch. rewrite bind_world, Hp. cbn [negb].
  rewrite bind_on_disk, disk_touch, Hb, bind_on_disk, disk_touch, Hst, Hd, bind_do_disk, disk_touch.
  unfold os_Open. rewrite Eo. cbn [fst snd]. fold w1. rewrite bind_on_world, Est. cbn [fst snd].
  unfold attempt. unfold mbind at 1, M_bind at 1. rewrite E3. rewrite bind_on_world, E4. done.
Qed.
End downloads.
Transparent bufSize.

(** ** What SCP promises *)
Lemma Base_nonempty p : Base p ≠ EmptyString.
Proof.
  unfold Base. case_bool_decide; [done|]. destruct (rev _) as [|s l] eqn:E; [done|].
  assert (s ∈ rev (filter (λ c, c ≠ EmptyString) (strings_Split p slash))) as Hs by (rewrite E; by left).
  rewrite <- Permutation_rev, list_elem_of_filter in Hs. apply Hs.
Qed.

Section promises.
Context {F P C : Type} `{FileSystemSpec F, !FileContents F, ProviderSpec P, ChannelSpec C}.
Context (errText : error → string).
Implicit Types (w : World F P) (ch : C).

(** C7: a new file uploaded with SCP arrives whole and is accounted. For an
    upload the server accepts (upload permission, standard upload mode, a free
    target path, space left, a disk that takes every write) whose mode and name
    have no blanks: whatever pieces the channel delivers the stream in, the
    server stores exactly the announced number of bytes in a new file, consumes
    exactly the upload, confirms each message, and, if quota is tracked for the
    user, adds those bytes and one file to the account of the user; otherwise no
    account changes, and no other account ever does. *)
Theorem scp_upload_stores_and_accounts conf c args fuel ts mode name data dest p fl w ch rest u :
  ch_open ch → Forall time_line ts → word mode → word name → name ≠ EmptyString →
  getDestPath args = Ok dest → upload_accepted conf c w (getFileUploadDestPath c args dest name (disk w)) p fl →
  incoming ch = upload_stream ts mode name data ++ rest → (length (incoming ch) < fuel)%nat → zlen data < 2 ^ 63 →
  0 <= TrackQuota (dp_config conf) <= 2 → pinv (prov w) → contents (prov w) !! Username (conn_User c) = Some u →
  is_i64 (UsedQuotaSize u + zlen data) → is_i64 (UsedQuotaFiles u + 1) →
  ∃ w' ch', handleRecursiveUpload errText conf c args fuel (w, ch) = (Ok tt, (w', ch'))
    ∧ incoming ch' = rest
    ∧ outgoing ch' = outgoing ch ++ okMsg ++ concat (map (λ _, okMsg) ts) ++ okMsg ++ okMsg
    ∧ stored conf c w p fl data w'
    ∧ (tracks_quota conf (conn_User c) = true →
         ∃ u', contents (prov w') !! Username (conn_User c) = Some u'
           ∧ UsedQuotaSize u' = UsedQuotaSize u + zlen data ∧ UsedQuotaFiles u' = UsedQuotaFiles u + 1)
    ∧ (tracks_quota conf (conn_User c) = false → contents (prov w') = contents (prov w))
    ∧ (∀ n, n ≠ Username (conn_User c) → contents (prov w') !! n = contents (prov w) !! n).
Proof.
  intros Ho Hts Hm Hw Hne Hd Hacc Hi Hf Hmax Htq Hp Hu Hsz Hfi.
  destruct (handleRecursiveUpload_ok errText conf c args fuel ts mode name data dest p fl w ch rest)
    as (w' & ch' & E & [_ Hx Hout] & Hst); try done.
  exists w', ch'. split; [done|]. split; [rewrite Hi in Hx; by apply app_inv_head in Hx|].
  split; [done|]. split; [done|].
  destruct Hst as (id & t & w1 & Ec & Hr & Hact & Hpr & Hfl & Hpath & Hty & Hnew & Huser).
  destruct (Transfer_Close_upload conf id w1 t) as (_ & _ & Hc); [apply Hr|done..|by rewrite Hpr| |].
  { intros v Hv _. rewrite Hpr, Huser, Hu in Hv. injection Hv as <-. by rewrite Hnew, (rc_count _ _ _ _ Hr). }
  rewrite Ec in Hc. simpl in Hc. rewrite Hc, Hnew, Huser, Hpr, (rc_count _ _ _ _ Hr).
  destruct (tracks_quota conf (conn_User c)); [|done]. split_and!; [intros _|done|].
  - rewrite lookup_alter_eq, Hu. simpl. eexists. split; [done|]. simpl. by rewrite !i64_id.
  - intros n Hn. by rewrite lookup_alter_ne.
Qed.

(** C8: copying a file from one server to another with SCP preserves it. What a
    download of a regular file whose name has no blanks sends, control line
    included, is accepted by an upload on any server that would take a new file
    at the path its own arguments and the announced name select, which then
    stores exactly the bytes of the original at that path; with the times
    announced or without. *)
Theorem scp_copy_preserves_file conf c args fuel depth path p stat fl b w ch rest :
  download_accepted c w path p stat fl b → ch_open ch → (length b < fuel)%nat →
  incoming ch = download_confirmations args stat ++ rest → word (Base p) → zlen b < 2 ^ 63 →
  ∃ w' ch' sent, handleDownload errText conf c args fuel (S depth) path (w, ch) = (Ok tt, (w', ch'))
    ∧ outgoing ch' = outgoing ch ++ sent
    ∧ ∀ conf2 c2 args2 fuel2 dest p2 fl2 w2 ch2 rest2,
        ch_open ch2 → incoming ch2 = sent ++ rest2 → (length (incoming ch2) < fuel2)%nat →
        getDestPath args2 = Ok dest →
        upload_accepted conf2 c2 w2 (getFileUploadDestPath c2 args2 dest (Base p) (disk w2)) p2 fl2 →
        ∃ w2' ch2', handleRecursiveUpload errText conf2 c2 args2 fuel2 (w2, ch2) = (Ok tt, (w2', ch2'))
          ∧ incoming ch2' = rest2 ∧ stored conf2 c2 w2 p2 fl2 b w2'.
Proof.
  intros Hacc Ho Hf Hi Hw Hmax.
  destruct (handleDownload_ok errText conf c args fuel depth path p stat fl b w ch rest)
    as (w' & ch' & E & [_ _ Hout]); try done.
  eexists w', ch', _. split; [done|]. split; [exact Hout|].
  intros conf2 c2 args2 fuel2 dest p2 fl2 w2 ch2 rest2 Ho2 Hi2 Hf2 Hd2 Hacc2.
  destruct (handleRecursiveUpload_ok errText conf2 c2 args2 fuel2 (time_lines args stat)
    (getFileModeAsString (fi_Mode stat) (fi_IsDir stat)) (Base p) b dest p2 fl2 w2 ch2 rest2)
    as (w2' & ch2' & E2 & Hx2 & Hst); [done|apply time_lines_ok|apply word_mode|done|apply Base_nonempty|done..|].
  exists w2', ch2'. split; [done|]. split; [by eapply exchange_rest|done].
Qed.

(** C39: SCP respects the permissions: without the permission for it an upload,
    a download or the creation of a directory is refused and changes nothing but
    the activity time of the connection, whatever the disk holds. *)
Theorem scp_permissions_enforced conf c args fuel path size depth w ch :
  let refused (m : M (World F P * C) unit) :=
    ∃ ch', m (w, ch) = (Err permissionDenied, (updateConnectionActivity (conn_ID c) w, ch')) in
  (HasPerm (conn_User c) PermUpload = false → refused (handleUpload errText conf c fuel path size)) ∧
  (HasPerm (conn_User c) PermCreateDirs = false → refused (handleCreateDir errText c path)) ∧
  (HasPerm (conn_User c) PermDownload = false → refused (handleDownload errText conf c args fuel (S depth) path)).
Proof.
  intros refused.
  assert (Href : ∀ w', ∃ ch', refuse (A := unit) errText permissionDenied (w', ch) = (Err permissionDenied, (w', ch'))).
  { intros w'. unfold refuse, sendErrorMessage, ch_write, ch_close, fail, mbind, M_bind. cbn [fst snd].
    destruct (ch_Write errMsg ch) as [? ch1]. cbn [fst snd].
    destruct (ch_Write (bytes_of_string (errText permissionDenied)) ch1) as [? ch2]. cbn [fst snd].
    destruct (ch_Write newLine ch2) as [? ch3]. by eexists. }
  destruct (Href (updateConnectionActivity (conn_ID c) w)) as [ch' E].
  split_and!; intros Hp; exists ch'; [unfold handleUpload|unfold handleCreateDir|cbn [handleDownload]];
    unfold touch; rewrite bind_world, Hp; exact E.
Qed.
End promises.

(** For every combination of permission bits, on a file or a directory, the
    mode SCP announces is a zero and the three octal digits. *)
Theorem scp_mode_octal m isDir : 0 < m < 512 →
  getFileModeAsString m isDir = "0" +:+ Itoa (m / 64) +:+ Itoa (m / 8 mod 8) +:+ Itoa (m mod 8) ∧
  getFileModeAsString (Z.lor ModeDir m) isDir = getFileModeAsString m isDir.
Proof.
  intros Hm. set (ok := λ m, bool_decide (getFileModeAsString m isDir
      = "0" +:+ Itoa (m / 64) +:+ Itoa (m / 8 mod 8) +:+ Itoa (m mod 8))
    && bool_decide (getFileModeAsString (Z.lor ModeDir m) isDir = getFileModeAsString m isDir)).
  assert (Hall : forallb ok (seqZ 1 511) = true) by (destruct isDir; vm_compute; reflexivity).
  apply (forallb_elem _ _ m) in Hall; [|apply elem_of_seqZ; lia].
  apply andb_true_iff in Hall as [H1%bool_decide_eq_true H2%bool_decide_eq_true]. done.
Qed.

(** ** A channel that delivers its input in pieces *)
Module MemChannel.
Record state := mk { input : list byte; output : list byte; closed : bool; status : option Z; piece : nat }.
#[global] Instance channel : Channel state := {
  ch_Read n s :=
    match input s with
    | [] => (([], Some EOF), s)
    | _ => let k := Nat.min (S (piece s)) (Z.to_nat n) in
           ((take k (input s), None), mk (drop k (input s)) (output s) (closed s) (status s) (piece s))
    end;
  ch_Write d s :=
    if closed s then (Some EOF, s) else (None, mk (input s) (output s ++ d) false (status s) (piece s));
  ch_Close s := mk (input s) (output s) true (status s) (piece s);
  ch_SendExitStatus n s := mk (input s) (output s) (closed s) (Some n) (piece s)
}.
#[global] Instance channel_spec : ChannelSpec state.
Proof.
  refine {| ch_open s := closed s = false; incoming := input; outgoing := output |}.
  - intros ch n Ho Hn Hi. simpl. destruct (input ch) as [|x l] eqn:E; [done|].
    eexists _, _. split; [reflexivity|]. cbn [input output closed].
    pose proof (take_drop (Nat.min (S (piece ch)) (Z.to_nat n)) (x :: l)) as Htd.
    assert (Hk : (0 < Nat.min (S (piece ch)) (Z.to_nat n))%nat) by lia.
    split_and!; try done.
    + intros Et%(f_equal length). revert Et. destruct (Z.to_nat n); [lia|discriminate].
    + unfold zlen. rewrite length_take. destruct (Z.to_nat n) eqn:En; lia.
  - intros ch d Ho. simpl. rewrite Ho. by eexists.
Defined.
End MemChannel.

Module DemoScp.
Definition errText (e : error) : string := match e with EMsg m => m | _ => "error"%string end.
Definition chan (i : list byte) : MemChannel.state := MemChannel.mk i [] false None 1.
Definition up (args : list string) (i : list byte) :=
  handleRecursiveUpload errText DemoServer.conf DemoServer.conn args 100 (DemoServer.world0, chan i).
Definition new_file (p : string) : File :=
  match (os_Create p (disk DemoServer.world0)).1 with Ok fl => fl | _ => mkFile 0 "" end.

Lemma mem_reliable fl : reliable (F := MemFS.state) fl.
Proof.
  split.
  - intros data off d [i Hi]. simpl. unfold MemFS.writeAt, MemFS.content. by rewrite Hi.
  - intros d [i Hi]. simpl. unfold MemFS.close. by rewrite Hi.
Qed.

Lemma accepted name : name = "/b.txt"%string ∨ name = "/c.txt"%string →
  upload_accepted DemoServer.conf DemoServer.conn DemoServer.world0 name ("/home/user" +:+ name)
    (new_file ("/home/user" +:+ name)).
Proof. intros [-> | ->]; split; try (vm_compute; reflexivity); apply mem_reliable. Qed.
End DemoScp.

(** Three bytes in pieces of two. *)
Lemma scp_upload_stores_and_accounts_witness :
  ∃ w' ch', DemoScp.up ["-t"; "/b.txt"]%string (upload_stream [] "0644" "b.txt" (bytes_of_string "xyz"))
      = (Ok tt, (w', ch'))
    ∧ incoming ch' = [] ∧ length (outgoing ch') = 3%nat
    ∧ ∃ u', contents (prov w') !! "user"%string = Some u' ∧ UsedQuotaSize u' = 8 ∧ UsedQuotaFiles u' = 2.
Proof.
  destruct (contents (prov DemoServer.world0) !! "user"%string) as [u|] eqn:Hu; [|vm_compute in Hu; discriminate].
  assert (Hu' := Hu). vm_compute in Hu'. injection Hu' as Eu.
  destruct (scp_upload_stores_and_accounts DemoScp.errText DemoServer.conf DemoServer.conn ["-t"; "/b.txt"]%string 100
    [] "0644" "b.txt" (bytes_of_string "xyz") "/b.txt" "/home/user/b.txt" (DemoScp.new_file "/home/user/b.txt")
    DemoServer.world0 (DemoScp.chan (upload_stream [] "0644" "b.txt" (bytes_of_string "xyz"))) [] u)
    as (w' & ch' & E & Hin & Hout & _ & Hacc & _).
  - reflexivity.
  - constructor.
  - repeat split; discriminate.
  - repeat split; discriminate.
  - discriminate.
  - reflexivity.
  - exact (DemoScp.accepted "/b.txt" (or_introl eq_refl)).
  - symmetry. apply app_nil_r.
  - vm_compute. lia.
  - vm_compute. reflexivity.
  - vm_compute. split; discriminate.
  - exact DemoServer.prov0_inv.
  - exact Hu.
  - rewrite <- Eu. vm_compute. split; [discriminate|reflexivity].
  - rewrite <- Eu. vm_compute. split; [discriminate|reflexivity].
  - destruct Hacc as (u' & H1 & H2 & H3); [reflexivity|]. exists w', ch'. split; [exact E|]. split; [exact Hin|]. split; [rewrite Hout; reflexivity|].
    exists u'. rewrite <- Eu in H2, H3. split; [exact H1|]. split; [exact H2|exact H3].
Defined.

(** A file of Alice's server is copied to another name. *)
Lemma scp_copy_preserves_file_witness :
  ∃ w' ch' sent w2' ch2', handleDownload DemoScp.errText DemoServer.conf DemoServer.conn ["-p"; "-f"; "/a.txt"]%string 100 1 "/a.txt"
      (DemoServer.world0, DemoScp.chan [byte_of_Z 0; byte_of_Z 0; byte_of_Z 0]) = (Ok tt, (w', ch'))
    ∧ outgoing ch' = sent
    ∧ DemoScp.up ["-t"; "/c.txt"]%string sent = (Ok tt, (w2', ch2'))
    ∧ stored DemoServer.conf DemoServer.conn DemoServer.world0 "/home/user/c.txt" (DemoScp.new_file "/home/user/c.txt")
        (bytes_of_string "hello") w2'.
Proof.
  destruct (os_Stat "/home/user/a.txt" (disk DemoServer.world0)) as [stat| |] eqn:Hst; [|vm_compute in Hst; discriminate..].
  destruct (os_Open "/home/user/a.txt" (disk DemoServer.world0)) as [r d'] eqn:Ho.
  assert (Ho' := Ho). vm_compute in Ho'. injection Ho' as Er Ed.
  assert (Hs' := Hst). vm_compute in Hs'. injection Hs' as Es.
  destruct (scp_copy_preserves_file DemoScp.errText DemoServer.conf DemoServer.conn ["-p"; "-f"; "/a.txt"]%string 100 0
    "/a.txt" "/home/user/a.txt" stat (match r with Ok fl => fl | _ => mkFile 0 "" end) (bytes_of_string "hello")
    DemoServer.world0 (DemoScp.chan [byte_of_Z 0; byte_of_Z 0; byte_of_Z 0]) [])
    as (w' & ch' & sent & E & Hout & Hcopy).
  - split.
    + vm_compute. reflexivity.
    + vm_compute. reflexivity.
    + exact Hst.
    + rewrite <- Es. reflexivity.
    + rewrite Ho. simpl. rewrite <- Er. reflexivity.
    + rewrite Ho. simpl. rewrite <- Er, <- Ed. vm_compute. reflexivity.
    + apply DemoScp.mem_reliable.
  - reflexivity.
  - vm_compute. lia.
  - reflexivity.
  - vm_compute. repeat split; discriminate.
  - vm_compute. reflexivity.
  - assert (Hsent : sent = outgoing ch') by (rewrite Hout; reflexivity).
    assert (Hl : (length sent < 100)%nat) by (rewrite Hsent; assert (E' := E); vm_compute in E'; injection E' as _ <-; vm_compute; lia).
    destruct (Hcopy DemoServer.conf DemoServer.conn ["-t"; "/c.txt"]%string 100%nat "/c.txt"%string "/home/user/c.txt"%string
      (DemoScp.new_file "/home/user/c.txt") DemoServer.world0 (DemoScp.chan sent) []) as (w2' & ch2' & E2 & _ & Hst2).
    + reflexivity.
    + symmetry. apply app_nil_r.
    + exact Hl.
    + reflexivity.
    + exact (DemoScp.accepted "/c.txt" (or_intror eq_refl)).
    + exists w', ch', sent, w2', ch2'. split; [exact E|]. split; [symmetry; exact Hsent|]. split; [exact E2|exact Hst2].
Defined.

Lemma scp_mode_octal_witness : getFileModeAsString 0x1ed true = "0755"%string.
Proof.
  destruct (scp_mode_octal 0x1ed true) as [E _]; [split; reflexivity|]. rewrite E. reflexivity.
Defined.

(** ** Behaviours worth knowing *)

(** The set-user-id bit is announced as the set-group-id bit. *)
Example scp_setuid_swapped : getFileModeAsString (Z.lor ModeSetuid 0x1ed) false = "2755"%string.
Proof. vm_compute. reflexivity. Qed.

(** A file name with a blank cannot be uploaded. *)
Example scp_blank_in_name :
  (DemoScp.up ["-t"; "/"]%string (bytes_of_string "C0644 1 my file" ++ newLine)).1
  = Err (EMsg "Error splitting upload message: C0644 1 my file").
Proof. vm_compute. reflexivity. Qed.

(** Overwriting a file of five bytes with one byte counts a second file. *)
Example scp_overwrite_counts_twice :
  let '(r, (w, _)) := DemoScp.up ["-t"; "/a.txt"]%string (upload_stream [] "0644" "a.txt" (bytes_of_string "x")) in
  r = Ok tt ∧ (λ u, (UsedQuotaFiles u, UsedQuotaSize u)) <$> (contents (prov w) !! "user"%string) = Some (2, 1).
Proof. vm_compute. split; reflexivity. Qed.
