(* ===== verification/Api.v ===== *)
(** * The REST API: api/

    The handlers of api/user.go, quota.go and router.go, and the client of
    api/api_utils.go. A [request] is what the router hands to a handler: the
    endpoint, its URL parameter as text, the query, and the body as what decoding
    it does to a user. A [response] is a status code and a value. Matching of
    URLs and the JSON of whole users belong to the libraries. *)
From stdpp Require Import base tactics option list strings gmap.
From Stdlib Require Import ZArith Lia.
From S2P Require Import Prelude GoOs GoPath GoStrconv GoJson DataProvider BoltProvider FileSystem Sessions FileHandler Expire Store.

Definition StatusOK : Z := 200.
Definition StatusCreated : Z := 201.
Definition StatusBadRequest : Z := 400.
Definition StatusForbidden : Z := 403.
Definition StatusNotFound : Z := 404.
Definition StatusMethodNotAllowed : Z := 405.
Definition StatusConflict : Z := 409.
Definition StatusInternalServerError : Z := 500.

Record apiResponse := { resp_Error : string; resp_Message : string; resp_HTTPStatus : Z }.
Inductive payload :=
  | PApi (r : apiResponse)
  | PUser (u : User)
  | PUsers (l : list User)
  | PScans (l : list ActiveQuotaScan)
  | PStats (l : list ConnectionStatus)
  | PVersion.
Record response := mkResponse { StatusCode : Z; resp_body : payload }.
Definition render_JSON (p : payload) : response := mkResponse StatusOK p.

(** [render.DecodeJSON(r.Body, &user)] *)
Definition body := User → result User.
Definition query := gmap string (list string).
(** [url.Values.Get] *)
Definition query_Get (q : query) (k : string) : string := default EmptyString (q !! k ≫= head).

Inductive request :=
  | GetVersionReq
  | GetConnectionsReq
  | CloseConnectionReq (connectionID : string)
  | GetQuotaScansReq
  | StartQuotaScanReq (b : body)
  | GetUsersReq (q : query)
  | AddUserReq (b : body)
  | GetUserReq (userID : string)
  | UpdateUserReq (userID : string) (b : body)
  | DeleteUserReq (userID : string)
  | UnknownPath
  | OtherMethod.

Definition zeroUser : User := mkUser 0 "" "" [] "" 0 0 0 0 0 [] 0 0 0 0 0.

(** A quota scan that has been started, for the user with this record. *)
Definition job := option User.

Section handlers.
Context {F P : Type} `{FileSystem F, Crypto, Provider P} (errText : error → string) (conf : ServConf).
Implicit Types (w : World F P).

Definition sendAPIResponse (err : option error) (message : string) (code : Z) : response :=
  mkResponse code (PApi {| resp_Error := match err with Some e => errText e | None => EmptyString end;
                           resp_Message := message; resp_HTTPStatus := code |}).
Definition getRespStatus (err : error) : Z :=
  match err with
  | ValidationError _ => StatusBadRequest
  | MethodDisabledError _ => StatusForbidden
  | _ => StatusInternalServerError
  end.

(** ** Users: user.go *)

(** An integer of the query: its default when the key is absent. *)
Definition query_int (q : query) (k : string) (dflt : Z) : option Z :=
  match q !! k with
  | None => Some dflt
  | Some _ => match Atoi (query_Get q k) with Ok n => Some n | _ => None end
  end.
Definition http_getUsers (q : query) w : response :=
  match query_int q "limit" 100 with
  | None => sendAPIResponse (Some (EMsg "Invalid limit")) "" StatusBadRequest
  | Some limit =>
      let limit := if 500 <? limit then 500 else limit in
      match query_int q "offset" 0 with
      | None => sendAPIResponse (Some (EMsg "Invalid offset")) "" StatusBadRequest
      | Some offset =>
          let order := match q !! "order"%string with Some _ => query_Get q "order" | None => "ASC"%string end in
          if negb (bool_decide (order = "ASC"%string)) && negb (bool_decide (order = "DESC"%string)) then
            sendAPIResponse (Some (EMsg "Invalid order")) "" StatusBadRequest
          else
            match GetUsers limit offset order (query_Get q "username") (prov w) with
            | (users, None) => render_JSON (PUsers users)
            | (_, Some e) => sendAPIResponse (Some e) "" StatusInternalServerError
            end
      end
  end.

Definition http_getUserByID (userID : string) w : response :=
  match ParseInt userID with
  | Err _ | Panic => sendAPIResponse (Some (EMsg "Invalid userID")) "" StatusBadRequest
  | Ok userID =>
      match GetUserByID userID (prov w) with
      | Ok user => render_JSON (PUser (getUserNoCredentials user))
      | Err (RecordNotFoundError m) => sendAPIResponse (Some (RecordNotFoundError m)) "" StatusNotFound
      | Err e => sendAPIResponse (Some e) "" StatusInternalServerError
      | Panic => sendAPIResponse None "" StatusInternalServerError
      end
  end.

Definition http_addUser (b : body) w : response * World F P :=
  match b zeroUser with
  | Err e => (sendAPIResponse (Some e) "" StatusBadRequest, w)
  | Panic => (sendAPIResponse None "" StatusInternalServerError, w)
  | Ok user =>
      match AddUser (dp_config conf) (clock w) user (prov w) with
      | (Some e, s) => (sendAPIResponse (Some e) "" (getRespStatus e), set_prov s w)
      | (None, s) =>
          (match UserExists (Username user) s with
           | Ok user => render_JSON (PUser (getUserNoCredentials user))
           | Err e => sendAPIResponse (Some e) "" StatusInternalServerError
           | Panic => sendAPIResponse None "" StatusInternalServerError
           end, set_prov s w)
      end
  end.

(** The user with the id of the path, for the handlers that change it. *)
Definition find_user (userID : string) w : response + Z * User :=
  match ParseInt userID with
  | Err _ | Panic => inl (sendAPIResponse (Some (EMsg "Invalid userID")) "" StatusBadRequest)
  | Ok userID =>
      match GetUserByID userID (prov w) with
      | Ok user => inr (userID, user)
      | Err (RecordNotFoundError m) => inl (sendAPIResponse (Some (RecordNotFoundError m)) "" StatusNotFound)
      | Err e => inl (sendAPIResponse (Some e) "" StatusInternalServerError)
      | Panic => inl (sendAPIResponse None "" StatusInternalServerError)
      end
  end.

(** The body is decoded over the stored user. *)
Definition http_updateUser (userID : string) (b : body) w : response * World F P :=
  match find_user userID w with
  | inl r => (r, w)
  | inr (userID, user) =>
      match b user with
      | Err e => (sendAPIResponse (Some e) "" StatusBadRequest, w)
      | Panic => (sendAPIResponse None "" StatusInternalServerError, w)
      | Ok user =>
          if negb (ID user =? userID) then
            (sendAPIResponse None "user ID in request body does not match user ID in path parameter" StatusBadRequest, w)
          else
            match UpdateUser (dp_config conf) user (prov w) with
            | (Some e, s) => (sendAPIResponse (Some e) "" (getRespStatus e), set_prov s w)
            | (None, s) => (sendAPIResponse None "User updated" StatusOK, set_prov s w)
            end
      end
  end.

Definition http_deleteUser (userID : string) w : response * World F P :=
  match find_user userID w with
  | inl r => (r, w)
  | inr (_, user) =>
      match DeleteUser (dp_config conf) user (prov w) with
      | (Some e, s) => (sendAPIResponse (Some e) "" StatusInternalServerError, set_prov s w)
      | (None, s) => (sendAPIResponse None "User deleted" StatusOK, set_prov s w)
      end
  end.

(** ** Quota scans: quota.go *)
Definition http_startQuotaScan (b : body) w : response * World F P * job :=
  match b zeroUser with
  | Err e => (sendAPIResponse (Some e) "" StatusBadRequest, w, None)
  | Panic => (sendAPIResponse None "" StatusInternalServerError, w, None)
  | Ok u =>
      match UserExists (Username u) (prov w) with
      | Err e => (sendAPIResponse (Some e) "" StatusNotFound, w, None)
      | Panic => (sendAPIResponse None "" StatusInternalServerError, w, None)
      | Ok user =>
          match AddQuotaScan (Username user) w with
          | (true, w) => (sendAPIResponse None "Scan started" StatusCreated, w, Some user)
          | (false, w) => (sendAPIResponse None "Another scan is already in progress" StatusConflict, w, None)
          end
      end
  end.
(** The goroutine of a scan. *)
Definition run_scan (user : User) w : World F P :=
  let w := match ScanDirContents (HomeDir user) (disk w) with
    | Ok (numFiles, size, _) => updateUserQuota conf user numFiles size true w
    | _ => w
    end in
  snd (RemoveQuotaScan (Username user) w).

(** ** The router *)
Definition handleCloseConnection (connectionID : string) w : response * World F P :=
  if bool_decide (connectionID = EmptyString) then (sendAPIResponse None "connectionID is mandatory" StatusBadRequest, w)
  else
    match CloseActiveConnection connectionID w with
    | (true, w) => (sendAPIResponse None "Connection closed" StatusOK, w)
    | (false, w) => (sendAPIResponse None "Not Found" StatusNotFound, w)
    end.

Definition serve (req : request) w : response * World F P * job :=
  match req with
  | GetVersionReq => (render_JSON PVersion, w, None)
  | GetConnectionsReq => (render_JSON (PStats (GetConnectionsStats w)), w, None)
  | CloseConnectionReq id => (handleCloseConnection id w, None)
  | GetQuotaScansReq => (render_JSON (PScans (GetQuotaScans w)), w, None)
  | StartQuotaScanReq b => http_startQuotaScan b w
  | GetUsersReq q => (http_getUsers q w, w, None)
  | AddUserReq b => (http_addUser b w, None)
  | GetUserReq id => (http_getUserByID id w, w, None)
  | UpdateUserReq id b => (http_updateUser id b w, None)
  | DeleteUserReq id => (http_deleteUser id w, None)
  | UnknownPath => (sendAPIResponse None "Not Found" StatusNotFound, w, None)
  | OtherMethod => (sendAPIResponse None "Method not allowed" StatusMethodNotAllowed, w, None)
  end.
End handlers.

(** ** The client: api_utils.go

    [Do] sends a request to the server whose state is [W]. *)
Section client.
Context {W : Type} (Do : request → W → result response * W).
Implicit Types (w : W).

(** What encoding and decoding a user does: empty passwords and lists of keys
    are left out, so they do not replace what is there. *)
Definition json_user (u : User) : body := λ old,
  Ok (mkUser (ID u) (Username u) (if bool_decide (Password u = EmptyString) then Password old else Password u)
        (if bool_decide (PublicKeys u = []) then PublicKeys old else PublicKeys u) (HomeDir u) (UID u) (GID u)
        (MaxSessions u) (QuotaSize u) (QuotaFiles u) (Permissions u) (UsedQuotaSize u) (UsedQuotaFiles u)
        (LastQuotaUpdate u) (UploadBandwidth u) (DownloadBandwidth u)).
(** Objects with other fields decode to nothing, lists do not decode. *)
Definition decode_user (p : payload) : result User :=
  match p with
  | PUser u => json_user u zeroUser
  | PApi _ | PVersion => Ok zeroUser
  | _ => Err (EMsg "json: cannot unmarshal array")
  end.
Definition decode_users (p : payload) : result (list User) :=
  match p with
  | PUsers l => mapM (λ u, json_user u zeroUser) l
  | _ => Err (EMsg "json: cannot unmarshal object")
  end.

Definition checkResponse (actual expected : Z) : option error :=
  if expected =? actual then None
  else Some (EMsg ("wrong status code: got " +:+ Itoa actual +:+ " want " +:+ Itoa expected)).

Definition fields_mismatch (expected actual : User) : option string :=
  if negb (bool_decide (Username expected = Username actual)) then Some "Username"%string
  else if negb (bool_decide (HomeDir expected = HomeDir actual)) then Some "HomeDir"%string
  else if negb (UID expected =? UID actual) then Some "UID"%string
  else if negb (GID expected =? GID actual) then Some "GID"%string
  else if negb (MaxSessions expected =? MaxSessions actual) then Some "MaxSessions"%string
  else if negb (QuotaSize expected =? QuotaSize actual) then Some "QuotaSize"%string
  else if negb (QuotaFiles expected =? QuotaFiles actual) then Some "QuotaFiles"%string
  else if negb (zlen (Permissions expected) =? zlen (Permissions actual)) then Some "Permissions"%string
  else if negb (UploadBandwidth expected =? UploadBandwidth actual) then Some "UploadBandwidth"%string
  else if negb (DownloadBandwidth expected =? DownloadBandwidth actual) then Some "DownloadBandwidth"%string
  else None.
Definition compareEqualsUserFields (expected actual : User) : option error :=
  (λ f, EMsg (f +:+ " mismatch")) <$> fields_mismatch expected actual.
Definition checkUser (expected actual : User) : option error :=
  if negb (bool_decide (Password actual = EmptyString)) then Some (EMsg "User password must not be visible")
  else if negb (bool_decide (PublicKeys actual = [])) then Some (EMsg "User public keys must not be visible")
  else if (ID expected <=? 0) && (ID actual <=? 0) then Some (EMsg "actual user ID must be > 0")
  else if (0 <? ID expected) && negb (ID actual =? ID expected) then Some (EMsg "user ID mismatch")
  else if existsb (λ v, negb (IsStringInSlice v (Permissions actual))) (Permissions expected)
  then Some (EMsg "Permissions contents mismatch")
  else compareEqualsUserFields expected actual.

(** The value of a response with the expected status, decoded. *)
Definition expect {A} (decode : payload → result A) (zero : A) (expected : Z) (r : response) : A * option error :=
  match checkResponse (StatusCode r) expected with
  | Some e => (zero, Some e)
  | None =>
      if expected =? StatusOK then
        match decode (resp_body r) with Ok a => (a, None) | Err e => (zero, Some e) | Panic => (zero, None) end
      else (zero, None)
  end.
(** [http.Client.Do] and what the caller does with the answer. *)
Definition send {A} (req : request) (zero : A) (f : response → W → (A * option error) * W) w : (A * option error) * W :=
  match Do req w with
  | (Ok r, w) => f r w
  | (Err e, w) => ((zero, Some e), w)
  | (Panic, w) => ((zero, None), w)
  end.

Definition api_GetUserByID (userID expected : Z) w : (User * option error) * W :=
  send (GetUserReq (Itoa userID)) zeroUser (λ r w, (expect decode_user zeroUser expected r, w)) w.
Definition api_UpdateUser (user : User) (expected : Z) w : (User * option error) * W :=
  send (UpdateUserReq (Itoa (ID user)) (json_user user)) user (λ r w,
    match checkResponse (StatusCode r) expected with
    | Some e => ((zeroUser, Some e), w)
    | None =>
        if expected =? StatusOK then
          match api_GetUserByID (ID user) expected w with
          | (newUser, None, w) => ((newUser, checkUser user newUser), w)
          | e => e
          end
        else ((zeroUser, None), w)
    end) w.
Definition status_only (expected : Z) (r : response) w : (unit * option error) * W :=
  (tt, checkResponse (StatusCode r) expected, w).
Definition api_GetUsers (limit offset : Z) (username : string) (expected : Z) w : (list User * option error) * W :=
  let q : query := ∅ in
  let q := if 0 <? limit then <["limit"%string := [Itoa limit]]> q else q in
  let q := if 0 <? offset then <["offset"%string := [Itoa offset]]> q else q in
  let q := if negb (bool_decide (username = EmptyString)) then <["username"%string := [username]]> q else q in
  send (GetUsersReq q) [] (λ r w, (expect decode_users [] expected r, w)) w.
Definition api_GetQuotaScans (expected : Z) w : (list ActiveQuotaScan * option error) * W :=
  send GetQuotaScansReq [] (λ r w,
    (expect (λ p, match p with PScans l => Ok l | _ => Err (EMsg "json") end) [] expected r, w)) w.
Definition api_StartQuotaScan (user : User) (expected : Z) w : (unit * option error) * W :=
  send (StartQuotaScanReq (json_user user)) tt (status_only expected) w.
Definition api_GetConnections (expected : Z) w : (list ConnectionStatus * option error) * W :=
  send GetConnectionsReq [] (λ r w,
    (expect (λ p, match p with PStats l => Ok l | _ => Err (EMsg "json") end) [] expected r, w)) w.
Definition api_CloseConnection (connectionID : string) (expected : Z) w : (unit * option error) * W :=
  send (CloseConnectionReq connectionID) tt (status_only expected) w.
End client.

(** ** What the API promises *)
Definition hidden (u : User) : Prop := Password u = EmptyString ∧ PublicKeys u = [].
Definition payload_users (p : payload) : list User :=
  match p with PUser u => [u] | PUsers l => l | _ => [] end.

Section promises.
Context {F P : Type} `{FileSystem F, Spec : ProviderSpec P} (errText : error → string) (conf : ServConf).
Implicit Types (w : World F P).

(** The server as its client sees it. *)
Definition Do (req : request) w : result response * World F P :=
  let '(r, w, _) := serve errText conf req w in (Ok r, w).

Lemma no_credentials u : hidden (getUserNoCredentials u).
Proof. done. Qed.
Lemma hidden_api err m c : Forall hidden (payload_users (resp_body (sendAPIResponse errText err m c))).
Proof. constructor. Qed.
Hint Resolve no_credentials hidden_api Forall_nil_2 Forall_cons_2 : core.

Lemma hidden_find_user id w r : find_user errText id w = inl r → Forall hidden (payload_users (resp_body r)).
Proof. unfold find_user. intros E. repeat case_hyp E; simplify_eq; auto. Qed.

(** C5: no answer of the API shows a password or a public key, whatever is
    asked and whatever is stored. *)
Theorem api_hides_credentials req w : Forall hidden (payload_users (resp_body (serve errText conf req w).1.1)).
Proof.
  destruct req as [| |id| |b|q|b|id|id b|id| |]; simpl; auto.
  - unfold handleCloseConnection. repeat case_match; simpl; auto.
  - unfold http_startQuotaScan. repeat case_match; simpl; auto.
  - unfold http_getUsers, GetUsers. destruct (query_int q "limit" 100) as [limit|]; [|auto].
    destruct (query_int q "offset" 0) as [offset|]; [|auto]. destruct (negb _ && negb _); [auto|].
    match goal with |- context [getUsers ?l ?o ?ord ?n ?s] => pose proof (getUsers_hidden s l o ord n) as Hh;
      destruct (getUsers l o ord n s) as [us [e|]] end; [auto|].
    eapply Forall_impl; [exact Hh|]. intros u [v ->]. apply no_credentials.
  - unfold http_addUser. repeat case_match; simpl; auto.
  - unfold http_getUserByID. repeat case_match; simpl; auto.
  - unfold http_updateUser. destruct (find_user errText id w) as [r|[? u]] eqn:E; [by eapply hidden_find_user|].
    repeat case_match; simpl; auto.
  - unfold http_deleteUser. destruct (find_user errText id w) as [r|[? u]] eqn:E; [by eapply hidden_find_user|].
    repeat case_match; simpl; auto.
Qed.

Lemma json_user_zero u : json_user u zeroUser = Ok u.
Proof. unfold json_user. destruct u; simpl. f_equal. repeat case_bool_decide; by subst. Qed.

Lemma Do_eq req w : Do req w = (Ok (serve errText conf req w).1.1, (serve errText conf req w).1.2).
Proof. unfold Do. by destruct (serve errText conf req w) as [[r w'] j]. Qed.

(** Looking a user up by its id. *)
Lemma getUserByID_found s n v : pinv s → contents s !! n = Some v → getUserByID (ID v) s = Ok v.
Proof.
  intros Hs Hv. destruct (getUserByID_spec s (ID v) Hs) as [(u & E & Hid & Hu)|[_ Hno]].
  - by eapply contents_i64.
  - assert (Username u = n) as En by by eapply contents_ids. rewrite En in Hu. congruence.
  - by destruct (Hno n v Hv).
Qed.
Lemma ParseInt_ID s n v : pinv s → contents s !! n = Some v → ParseInt (Itoa (ID v)) = Ok (ID v).
Proof. intros Hs Hv. apply ParseInt_Itoa. pose proof (contents_id s n v Hs Hv). lia. Qed.
Lemma find_user_found n v w : pinv (prov w) → contents (prov w) !! n = Some v →
  find_user errText (Itoa (ID v)) w = inr (ID v, v).
Proof.
  intros Hs Hv. unfold find_user, GetUserByID. by rewrite (ParseInt_ID _ n v Hs Hv), (getUserByID_found _ n v Hs Hv).
Qed.

Lemma api_GetUserByID_found n v w : pinv (prov w) → contents (prov w) !! n = Some v →
  api_GetUserByID Do (ID v) StatusOK w = ((getUserNoCredentials v, None), w).
Proof.
  intros Hs Hv. unfold api_GetUserByID, send. rewrite Do_eq. cbn [serve fst snd]. unfold http_getUserByID, GetUserByID.
  rewrite (ParseInt_ID _ n v Hs Hv), (getUserByID_found _ n v Hs Hv). unfold expect. cbn -[json_user].
  by rewrite json_user_zero.
Qed.

(** What the client compares: all but the credentials, the id and the counters. *)
Definition profile (u : User) : User := account (getUserNoCredentials u).
Lemma profile_account u v : account u = account v → profile u = profile v.
Proof. intros E. exact (f_equal getUserNoCredentials E). Qed.

Lemma fields_mismatch_profile u v : profile v = profile u → fields_mismatch u (getUserNoCredentials v) = None.
Proof.
  intros E. unfold profile, account in E. simpl in E. injection E as E1 E2 E3 E4 E5 E6 E7 E8 E9 E10.
  unfold fields_mismatch. simpl. rewrite E1, E2, E3, E4, E5, E6, E7, E8, E9, E10, !Z.eqb_refl.
  by rewrite !bool_decide_true by done.
Qed.

(** Users that agree with what was asked for pass the checks of the client. *)
Lemma checkUser_profile u v : profile v = profile u → 0 < ID v → ID u <= 0 ∨ ID u = ID v →
  checkUser u (getUserNoCredentials v) = None.
Proof.
  intros Hp Hv Hid. unfold checkUser, compareEqualsUserFields. rewrite fields_mismatch_profile by done. simpl.
  assert (ID v <=? 0 = false) as -> by (apply Z.leb_gt; lia). rewrite andb_false_r.
  assert ((0 <? ID u) && negb (ID v =? ID u) = false) as ->.
  { destruct (Z.ltb_spec 0 (ID u)); [|done]. simpl. destruct (Z.eqb_spec (ID v) (ID u)); [done|lia]. }
  apply (f_equal Permissions) in Hp. simpl in Hp. rewrite Hp.
  assert (existsb (λ p, negb (IsStringInSlice p (Permissions u))) (Permissions u) = false) as ->; [|done].
  apply not_true_is_false. rewrite existsb_exists. intros (p & Hin%list_elem_of_In & Hn%negb_true_iff).
  apply (proj2 (IsStringInSlice_spec p (Permissions u))) in Hin. congruence.
Qed.


(** Updating a user with what the API shows of it, the credentials left
    out, changes the other fields and keeps the credentials: the client
    accepts the answer, the stored password and keys are the same, and nobody
    else's account changes. *)
Theorem api_update_keeps_credentials u v w :
  ManageUsers (dp_config conf) = 1 → pinv (prov w) → contents (prov w) !! Username v = Some v →
  hidden u → ID u = ID v → Username u = Username v →
  (∃ m, json_user u v = Ok m ∧ validateUser m = Ok m ∧ storable m) →
  ∃ v' w', api_UpdateUser Do u StatusOK w = ((getUserNoCredentials v', None), w')
    ∧ contents (prov w') = <[Username v := v']> (contents (prov w))
    ∧ Password v' = Password v ∧ PublicKeys v' = PublicKeys v ∧ profile v' = profile u.
Proof.
  intros Hm Hs Hv [Hpw Hk] Hid Hn (m & Em & Hval & Hst).
  assert (Hmf : ID m = ID v ∧ Username m = Username v ∧ Password m = Password v ∧ PublicKeys m = PublicKeys v ∧ profile m = profile u).
  { unfold json_user in Em. injection Em as <-. simpl. rewrite Hpw, Hk, !bool_decide_true by done. by destruct u. }
  destruct Hmf as (Hmid & Hmn & Hmp & Hmk & Hmprof).
  destruct (updateUser_spec (prov w) m m v Hs Hval Hst) as (v' & s' & Eu & Hs' & Hc & Hacc & Hid'); [by rewrite Hmn|done|].
  rewrite Hmn in Hc. assert (Hl : contents s' !! Username v = Some v') by (by rewrite Hc, lookup_insert_eq).
  exists v', (set_prov s' w). split_and!.
  - unfold api_UpdateUser, send. rewrite Do_eq. cbn [serve fst snd]. unfold http_updateUser. rewrite Hid.
    rewrite (find_user_found (Username v)) by done. rewrite Em, Hmid, Z.eqb_refl. unfold UpdateUser. rewrite Hm. cbn [negb].
    change (1 =? 0) with false. cbv iota. rewrite Eu. cbn -[api_GetUserByID checkUser].
    assert (ID v' = ID v) as E by congruence. rewrite <- E.
    rewrite (api_GetUserByID_found (Username v) v' (set_prov s' w) Hs' Hl).
    rewrite checkUser_profile; [done| | |right; congruence].
    + rewrite (profile_account _ _ Hacc). done.
    + pose proof (contents_id s' _ _ Hs' Hl). lia.
  - exact Hc.
  - rewrite <- Hmp. exact (f_equal Password Hacc).
  - rewrite <- Hmk. exact (f_equal PublicKeys Hacc).
  - by rewrite (profile_account _ _ Hacc).
Qed.

(** C6: a quota scan. A scan of a stored user whose home directory can be read
    is accepted once; while it runs a second one is refused; when it ends the
    counters of the user are the number and the total size of the files in the
    home directory, no other account has changed, and no scan of the user is
    left. *)
Theorem api_quota_scan u v w numFiles size files :
  TrackQuota (dp_config conf) ≠ 0 → pinv (prov w) → contents (prov w) !! Username u = Some v →
  scan_names w = [] → ScanDirContents (HomeDir v) (disk w) = Ok (numFiles, size, files) →
  ∃ w1, serve errText conf (StartQuotaScanReq (json_user u)) w
          = (sendAPIResponse errText None "Scan started" StatusCreated, w1, Some v)
    ∧ serve errText conf (StartQuotaScanReq (json_user u)) w1
          = (sendAPIResponse errText None "Another scan is already in progress" StatusConflict, w1, None)
    ∧ scan_names (run_scan conf v w1) = []
    ∧ contents (prov (run_scan conf v w1))
      = <[Username u := set_UsedQuota v size numFiles (GetTimeAsMsSinceEpoch (clock w))]> (contents (prov w)).
Proof.
  intros Ht Hs Hv Hscan Hdir. pose proof (contents_name _ _ _ Hs Hv) as Hname.
  pose proof (userExists_spec (prov w) (Username u) Hs) as Eu. rewrite Hv in Eu.
  assert (Hnil : activeQuotaScans w = []) by (unfold scan_names in Hscan; by destruct (activeQuotaScans w)).
  set (w1 := set_scans [{| qs_Username := Username v; qs_StartTime := GetTimeAsMsSinceEpoch (clock w) |}] w).
  exists w1. split; [|split].
  - cbn [serve]. unfold http_startQuotaScan, UserExists. rewrite json_user_zero, Eu.
    unfold AddQuotaScan. rewrite Hnil. done.
  - cbn [serve]. unfold http_startQuotaScan, UserExists. rewrite json_user_zero. simpl. rewrite Eu.
    unfold AddQuotaScan. simpl. unfold find_index, scan_of. simpl. by rewrite bool_decide_true.
  - unfold run_scan. simpl. rewrite Hdir. unfold updateUserQuota, UpdateUserQuota. simpl.
    rewrite (proj2 (Z.eqb_neq _ _)) by done. rewrite andb_false_r, andb_false_l.
    destruct (updateQuota_spec (prov w) (clock w) (Username v) numFiles size true Hs) as (err & s' & E & ? & Hc & _); [done|].
    rewrite E. unfold RemoveQuotaScan, find_index, scan_of. simpl. rewrite bool_decide_true by done. simpl.
    split; [done|]. rewrite Hc, Hname. by erewrite alter_present.
Qed.
End promises.

(** ** Witnesses *)
Definition api_errText (e : error) : string :=
  match e with EMsg m | ValidationError m | MethodDisabledError m | RecordNotFoundError m => m | _ => "error"%string end.


(** The quota of the demo user is doubled; the request has no password. *)
Definition stored_user : User := default zeroUser (usersBucket DemoServer.prov0 !! "user"%string).
Definition doubled : User :=
  mkUser 1 "user" "" [] "/home/user" 1000 1000 0 20 0 ["*"]%string 5 1 0 0 0.
Lemma api_update_keeps_credentials_witness :
  ∃ v' w', api_UpdateUser (Do api_errText DemoServer.conf) doubled StatusOK DemoServer.world0
      = ((getUserNoCredentials v', None), w')
    ∧ QuotaSize v' = 20 ∧ Password v' = ToyCrypto.argon "secret".
Proof.
  destruct (api_update_keeps_credentials api_errText DemoServer.conf doubled stored_user DemoServer.world0)
    as (v' & w' & E & _ & Hp & _ & Hq).
  - reflexivity.
  - exact DemoServer.prov0_inv.
  - vm_compute. reflexivity.
  - split; reflexivity.
  - vm_compute. reflexivity.
  - vm_compute. reflexivity.
  - eexists. split; [reflexivity|]. split; [vm_compute; reflexivity|]. apply (bool_decide_unpack _). vm_compute. exact I.
  - exists v', w'. split; [exact E|]. split; [exact (f_equal QuotaSize Hq)|]. rewrite Hp. vm_compute. reflexivity.
Defined.

Lemma api_quota_scan_witness :
  ∃ w1, serve api_errText DemoServer.conf (StartQuotaScanReq (json_user doubled)) DemoServer.world0
      = (sendAPIResponse api_errText None "Scan started" StatusCreated, w1, Some stored_user)
    ∧ scan_names (run_scan DemoServer.conf stored_user w1) = [].
Proof.
  destruct (ScanDirContents (HomeDir stored_user) (disk DemoServer.world0)) as [[[n z] l]| |] eqn:E;
    [|vm_compute in E; discriminate..].
  destruct (api_quota_scan api_errText DemoServer.conf doubled stored_user DemoServer.world0 n z l) as (w1 & E1 & _ & E2 & _).
  - discriminate.
  - exact DemoServer.prov0_inv.
  - vm_compute. reflexivity.
  - reflexivity.
  - exact E.
  - exists w1. split; [exact E1|exact E2].
Defined.

(** A negative limit is passed on to the provider: over HTTP bolt answers with
    an empty list. *)
Example api_negative_limit :
  http_getUsers api_errText {["limit"%string := ["-1"%string]]} DemoServer.world0 = render_JSON (PUsers []).
Proof. vm_compute. reflexivity. Qed.
