(* ===== verification/LegacyServer.v ===== *)
(** * The file server of the library: sftp/server.go

    [Server] serves the file system of the machine directly, without handlers:
    each packet is a call of the operating system. Files and directories that
    are open are kept under a handle. The respond methods of packet.go and
    server_statvfs_impl.go belong to it. One packet is served at a time. *)
From Stdlib Require Import Ascii.
From stdpp Require Import base tactics option list strings gmap pretty.
From Stdlib Require Import ZArith Lia.
From S2P Require Import Prelude GoOs SftpWire SftpPackets Allocator GoPath GoStrconv RequestServer FileSystem.

(** [syscall.Statfs_t] (linux), as far as it is used *)
Record Statfs_t := {
  st_Bsize : Z; st_Frsize : Z; st_Blocks : Z; st_Bfree : Z; st_Bavail : Z; st_Files : Z; st_Ffree : Z;
  st_Flags : Z; st_Namelen : Z
}.

(** What this server uses of the operating system besides [FileSystem].
    [file_Readdir f n] is [f.Readdir(n)], which moves a position in the
    directory. *)
Class ServerFS (F : Type) := {
  os_Readlink : string → F → result string;
  os_Getwd : F → result string;
  os_Truncate : string → Z → F → option error * F;
  os_Link : string → string → F → option error * F;
  os_Statfs : string → F → result Statfs_t;
  file_Stat : File → F → result FileInfo;
  file_Readdir : File → Z → F → result (list FileInfo) * F;
  file_Truncate : File → Z → F → option error * F;
  file_Chmod : File → Z → F → option error * F;
  file_Chown : File → Z → Z → F → option error * F
}.

Record Server := mkServer {
  readOnly : bool;
  openFiles : gmap string File;
  srv_handleCount : Z;
  srv_alloc : option allocator
}.

(** ** Options *)
Definition ServerOption : Type := Server → Server + error.
Definition ReadOnly : ServerOption := λ s, inl (mkServer true (openFiles s) (srv_handleCount s) (srv_alloc s)).
Definition WithAllocator (fresh0 : page) : ServerOption := λ s,
  inl (mkServer (readOnly s) (openFiles s) (srv_handleCount s) (Some (newAllocator fresh0))).
Definition NewServer (options : list ServerOption) : Server + error :=
  foldl (λ s o, match s with inl s => o s | inr e => inr e end) (inl (mkServer false ∅ 0 None)) options.

(** ** Handles *)
Definition nextHandle (f : File) (svr : Server) : string * Server :=
  let n := i64 (srv_handleCount svr + 1) in
  let handle := Itoa n in
  (handle, mkServer (readOnly svr) (<[handle := f]> (openFiles svr)) n (srv_alloc svr)).

(** ** Which packets may change something *)
Definition notReadOnly (p : requestPacket) : bool :=
  match p with
  | sshFxpWritePacket _ _ _ _ _ | sshFxpSetstatPacket _ _ _ _ | sshFxpFsetstatPacket _ _ _ _
  | sshFxpRemovePacket _ _ | sshFxpMkdirPacket _ _ _ | sshFxpRmdirPacket _ _ | sshFxpRenamePacket _ _ _
  | sshFxpSymlinkPacket _ _ _ => true
  | _ => false
  end.
Definition hasPflags (pflags : Z) (flags : list Z) : bool := forallb (λ f, has_bits pflags f) flags.
Definition sshFxfRead : Z := 0x1.
Definition sshFxfWrite : Z := 0x2.
Definition sshFxfCreat : Z := 0x8.
Definition sshFxfTrunc : Z := 0x10.
Definition sshFxfExcl : Z := 0x20.
Definition open_readonly (pflags : Z) : bool := negb (hasPflags pflags [sshFxfWrite]).
Definition specific_readonly (p : specificPacket) : bool :=
  match p with
  | sshFxpExtendedPacketStatVFS _ _ _ => true
  | sshFxpExtendedPacketPosixRename _ _ _ _ => false
  | sshFxpExtendedPacketHardlink _ _ _ _ => true
  end.
Definition extended_readonly (p : option specificPacket) : bool :=
  match p with Some p => specific_readonly p | None => true end.
(** The checks at the head of [sftpServerWorker]. *)
Definition packet_readonly (p : requestPacket) : bool :=
  if notReadOnly p then false
  else match p with
       | sshFxpOpenPacket _ _ pflags _ => open_readonly pflags
       | sshFxpExtendedPacket _ _ sp => extended_readonly sp
       | _ => true
       end.

Definition statvfsFromStatfst (id : Z) (stat : Statfs_t) : StatVFS :=
  {| sv_ID := id; sv_Bsize := u64 (st_Bsize stat); sv_Frsize := u64 (st_Frsize stat); sv_Blocks := st_Blocks stat;
     sv_Bfree := st_Bfree stat; sv_Bavail := st_Bavail stat; sv_Files := st_Files stat; sv_Ffree := st_Ffree stat;
     sv_Favail := st_Ffree stat; sv_Fsid := 0; sv_Flag := u64 (st_Flags stat); sv_Namemax := u64 (st_Namelen stat) |}.

(** ** Attributes

    [unmarshal...Safe] returns no bytes with its error; the error of a later
    attribute replaces the one of an earlier attribute. *)
Section attributes.
Context {F : Type} (truncate chmod : Z → F → option error * F) (chtimes chown : Z → Z → F → option error * F).

Definition setting : Type := option error * list byte * F.
Definition one_of {A} (dec : list byte → result (A * list byte)) (act : A → F → option error * F)
    (flag : bool) (s : setting) : setting :=
  let '(err, b, f) := s in
  if flag then
    match dec b with
    | Ok (v, b) => let '(err, f) := act v f in (err, b, f)
    | Err e => (Some e, [], f)
    | Panic => s
    end
  else s.
Definition unmarshalPair (b : list byte) : result (Z * Z * list byte) :=
  '(x, b) ← unmarshalUint32Safe b; '(y, b) ← unmarshalUint32Safe b; Ok (x, y, b).

Definition setAttributes (flags : Z) (b : list byte) (f : F) : option error * F :=
  let s := (None, b, f) in
  let s := one_of unmarshalUint64Safe (λ size, truncate (i64 size)) (has_bits flags sshFileXferAttrSize) s in
  let s := one_of unmarshalUint32Safe chmod (has_bits flags sshFileXferAttrPermissions) s in
  let s := one_of unmarshalPair (λ t, chtimes t.1 t.2) (has_bits flags sshFileXferAttrACmodTime) s in
  let s := one_of unmarshalPair (λ t, chown t.1 t.2) (has_bits flags sshFileXferAttrUIDGID) s in
  let '(err, _, f) := s in (err, f).
End attributes.

Section server.
Context {F : Type} `{FileSystem F, !ServerFS F}.
Context (errText : error → string) (runLs : string → FileInfo → string) (sftpExtensions : list extensionPair).
Implicit Types (svr : Server) (f : F).
Abbreviation status id err := (statusFromError errText id err).

(** What serving a packet gives: the response, or a panic. *)
Abbreviation served := (result responsePacket * Server * F)%type.

Definition closeHandle (handle : string) svr f : option error * Server * F :=
  match openFiles svr !! handle with
  | Some fl =>
      let '(err, f) := file_Close fl f in
      (err, mkServer (readOnly svr) (delete handle (openFiles svr)) (srv_handleCount svr) (srv_alloc svr), f)
  | None => (Some (ESyscall EBADF), svr, f)
  end.
Definition srv_getHandle (handle : string) svr : option File := openFiles svr !! handle.

(** ** The respond methods *)
Definition open_osFlags (pflags : Z) : option Z :=
  let has fl := hasPflags pflags fl in
  let mode := if has [sshFxfRead; sshFxfWrite] then Some O_RDWR
              else if has [sshFxfWrite] then Some O_WRONLY
              else if has [sshFxfRead] then Some O_RDONLY else None in
  let add fl bit osFlags := if has [fl] then Z.lor osFlags bit else osFlags in
  (λ m, add sshFxfExcl O_EXCL (add sshFxfTrunc O_TRUNC (add sshFxfCreat O_CREATE m))) <$> mode.

Definition open_respond (id : Z) (path : string) (pflags : Z) svr f : served :=
  match open_osFlags pflags with
  | None => (Ok (status id (Some (ESyscall EINVAL))), svr, f)
  | Some osFlags =>
      let '(fl, f) := os_OpenFile path osFlags 0x1a4 f in
      match fl with
      | Ok fl => let '(handle, svr) := nextHandle fl svr in (Ok (sshFxpHandlePacket id handle), svr, f)
      | Err e => (Ok (status id (Some e)), svr, f)
      | Panic => (Panic, svr, f)
      end
  end.

Definition readdir_respond (id : Z) (handle : string) svr f : served :=
  match srv_getHandle handle svr with
  | None => (Ok (status id (Some (ESyscall EBADF))), svr, f)
  | Some fl =>
      let dirname := file_Name fl in
      let '(dirents, f) := file_Readdir fl 128 f in
      match dirents with
      | Err e => (Ok (status id (Some e)), svr, f)
      | Panic => (Panic, svr, f)
      | Ok dirents =>
          (Ok (sshFxpNamePacket id (map (λ dirent,
                 {| na_Name := fi_Name dirent; na_LongName := runLs dirname dirent; na_Attrs := [VFileInfo dirent] |}) dirents)),
           svr, f)
      end
  end.

Definition setstat_respond (id flags : Z) (path : string) (b : list byte) svr f : served :=
  let '(err, f) := setAttributes (os_Truncate path) (os_Chmod path) (os_Chtimes path) (os_Chown path) flags b f in
  (Ok (status id err), svr, f).
Definition fsetstat_respond (id flags : Z) (handle : string) (b : list byte) svr f : served :=
  match srv_getHandle handle svr with
  | None => (Ok (status id (Some (ESyscall EBADF))), svr, f)
  | Some fl =>
      let '(err, f) := setAttributes (file_Truncate fl) (file_Chmod fl) (os_Chtimes (file_Name fl)) (file_Chown fl) flags b f in
      (Ok (status id err), svr, f)
  end.

Definition specific_respond (p : specificPacket) svr f : served :=
  match p with
  | sshFxpExtendedPacketStatVFS id _ path =>
      match os_Statfs path f with
      | Ok stat => (Ok (StatVFSPacket (statvfsFromStatfst id stat)), svr, f)
      | Err e => (Ok (status id (Some e)), svr, f)
      | Panic => (Panic, svr, f)
      end
  | sshFxpExtendedPacketPosixRename id _ oldpath newpath =>
      let '(err, f) := os_Rename oldpath newpath f in (Ok (status id err), svr, f)
  | sshFxpExtendedPacketHardlink id _ oldpath newpath =>
      let '(err, f) := os_Link oldpath newpath f in (Ok (status id err), svr, f)
  end.

(** ** [handlePacket] *)
Definition stat_response (id : Z) (info : result FileInfo) : result responsePacket :=
  match info with
  | Ok info => Ok (sshFxpStatResponse id info)
  | Err e => Ok (status id (Some e))
  | Panic => Panic
  end.
Definition name_response (id : Z) (name : result string) : result responsePacket :=
  match name with
  | Ok s => Ok (sshFxpNamePacket id [{| na_Name := s; na_LongName := s; na_Attrs := emptyFileStat |}])
  | Err e => Ok (status id (Some e))
  | Panic => Panic
  end.
(** [filepath.Abs] *)
Definition filepath_Abs (path : string) f : result string :=
  if IsAbs path then Ok (Clean path) else wd ← os_Getwd f; Ok (Join [wd; path]).

Definition handlePacket (p : requestPacket) (orderID : Z) svr f : served :=
  let id := request_id p in
  let cmd (r : option error * F) : served := let '(err, f) := r in (Ok (status id err), svr, f) in
  match p with
  | sshFxInitPacket _ _ => (Ok (sshFxVersionPacket sftpProtocolVersion sftpExtensions), svr, f)
  | sshFxpStatPacket _ path => (stat_response id (os_Stat path f), svr, f)
  | sshFxpLstatPacket _ path => (stat_response id (os_Lstat path f), svr, f)
  | sshFxpFstatPacket _ handle =>
      match srv_getHandle handle svr with
      | Some fl => (stat_response id (file_Stat fl f), svr, f)
      | None => cmd (Some (ESyscall EBADF), f)
      end
  | sshFxpMkdirPacket _ _ path => cmd (os_Mkdir path 0x1ed f)
  | sshFxpRmdirPacket _ path => cmd (os_Remove path f)
  | sshFxpRemovePacket _ filename => cmd (os_Remove filename f)
  | sshFxpRenamePacket _ oldpath newpath => cmd (os_Rename oldpath newpath f)
  | sshFxpSymlinkPacket _ targetpath linkpath => cmd (os_Symlink targetpath linkpath f)
  | sshFxpClosePacket _ handle =>
      let '(err, svr, f) := closeHandle handle svr f in (Ok (status id err), svr, f)
  | sshFxpReadlinkPacket _ path => (name_response id (os_Readlink path f), svr, f)
  | sshFxpRealpathPacket _ path => (name_response id (p ← filepath_Abs path f; Ok (cleanPath p)), svr, f)
  | sshFxpOpendirPacket _ path =>
      match os_Stat path f with
      | Err e => cmd (Some e, f)
      | Panic => (Panic, svr, f)
      | Ok stat =>
          if negb (fi_IsDir stat) then cmd (Some (EPathError path ENOTDIR), f)
          else open_respond id path sshFxfRead svr f
      end
  | sshFxpReadPacket _ len offset handle =>
      match srv_getHandle handle svr with
      | None => cmd (Some (ESyscall EBADF), f)
      | Some fl =>
          let svr := mkServer (readOnly svr) (openFiles svr) (srv_handleCount svr)
                       ((λ a, snd (GetPage a orderID)) <$> srv_alloc svr) in
          let '(data, err) := file_ReadAt fl (clamp len maxTxPacket) (i64 offset) f in
          let failed := match err with
                        | Some e => negb (bool_decide (e = EOF)) || (zlen data =? 0)
                        | None => false
                        end in
          (Ok (if failed then status id err else sshFxpDataPacket id (u32 (zlen data)) data), svr, f)
      end
  | sshFxpWritePacket _ _ offset handle data =>
      match srv_getHandle handle svr with
      | None => cmd (Some (ESyscall EBADF), f)
      | Some fl => let '((_, err), f) := file_WriteAt fl data (i64 offset) f in cmd (err, f)
      end
  | sshFxpExtendedPacket _ _ None => cmd (Some (EFx sshFxOPUnsupported), f)
  | sshFxpExtendedPacket _ _ (Some sp) => specific_respond sp svr f
  | sshFxpOpenPacket _ path pflags _ => open_respond id path pflags svr f
  | sshFxpReaddirPacket _ handle => readdir_respond id handle svr f
  | sshFxpSetstatPacket _ flags path attrs => setstat_respond id flags path attrs svr f
  | sshFxpFsetstatPacket _ flags handle attrs => fsetstat_respond id flags handle attrs svr f
  end.

(** One round of [sftpServerWorker]. *)
Definition sftpServerWorker (p : requestPacket) (orderID : Z) svr f : served :=
  if negb (packet_readonly p) && readOnly svr then (Ok (status (request_id p) (Some (ESyscall EPERM))), svr, f)
  else handlePacket p orderID svr f.

(** ** [Serve]

    The packets arrive as their type and body. The "break" after a packet that
    does not decode leaves the switch and not the loop, so the packet, as far as
    it was decoded, is served; the connection is closed then, and nothing more
    is received. A SETSTAT or FSETSTAT that was not decoded has no attributes,
    and the assertion that they are bytes panics; a packet of an unknown type
    is nil, which no case of [handlePacket] handles. *)
Definition no_attributes (p : requestPacket) : bool :=
  match p with sshFxpSetstatPacket _ _ _ _ | sshFxpFsetstatPacket _ _ _ _ => true | _ => false end.

Definition serve_malformed (p : requestPacket) (orderID : Z) svr f : served :=
  if no_attributes p && negb (readOnly svr) then
    match p with
    | sshFxpFsetstatPacket id _ handle _ =>
        match srv_getHandle handle svr with
        | None => (Ok (status id (Some (ESyscall EBADF))), svr, f)
        | Some _ => (Panic, svr, f)
        end
    | _ => (Panic, svr, f)
    end
  else sftpServerWorker p orderID svr f.

Definition closeAll svr f : F := foldl (λ f fl, snd (file_Close fl f)) f (map_to_list (openFiles svr)).*2.

Fixpoint Serve (pkts : list (Z * list byte)) (orderID : Z) svr f : option (list responsePacket * Server * F) :=
  match pkts with
  | [] => Some ([], svr, closeAll svr f)
  | (t, b) :: pkts =>
      match makePacket t b with
      | Ok (p, None) | Ok (p, Some errUnknownExtendedPacket) =>
          let '(x, svr, f) := sftpServerWorker p orderID svr f in
          match x with
          | Ok x => '(xs, svr, f) ← Serve pkts (u32 (orderID + 1)) svr f; Some (x :: xs, svr, f)
          | _ => None
          end
      | Ok (p, Some _) =>
          let '(x, svr, f) := serve_malformed p orderID svr f in
          match x with Ok x => Some ([x], svr, closeAll svr f) | _ => None end
      | _ => Some ([], svr, closeAll svr f)
      end
  end.
End server.

(** ** Read-only servers

    [files] is what a read-only server must not change: the contents of the
    disk, but not the descriptors and the positions in open directories. *)
Class ReadOnlySpec (F T : Type) `{FileSystem F, !ServerFS F} := {
  files : F → T;
  OpenFile_files name flags perm f fl f' :
    has_bits flags O_CREATE = false → has_bits flags O_TRUNC = false → os_OpenFile name flags perm f = (fl, f') → files f' = files f;
  Close_files fl f err f' : file_Close fl f = (err, f') → files f' = files f;
  Readdir_files fl n f r f' : file_Readdir fl n f = (r, f') → files f' = files f
}.

Section readonly.
Context {F T : Type} `{ReadOnlySpec F T}.
Context (errText : error → string) (runLs : string → FileInfo → string) (exts : list extensionPair).
Implicit Types (svr : Server) (f : F).






End readonly.

(** ** Attributes in the wrong order *)

(** SETSTAT with an owner and a mode: the protocol, and [getFileStat] of
    the same package, put the owner before the mode, while this server reads
    the mode first. It sets the mode of the file to the number of the owner and
    gives the file to the group, with the mode as its group. *)
Theorem legacy_setstat_misreads {F : Type} `{FileSystem F, !ServerFS F} errText runLs exts id path uid gid mode oid svr (f : F) :
  is_u32 uid → is_u32 gid → is_u32 mode → readOnly svr = false →
  let flags := Z.lor sshFileXferAttrUIDGID sshFileXferAttrPermissions in
  let attrs := marshalUint32 [] uid ++ marshalUint32 [] gid ++ marshalUint32 [] mode in
  (∃ fs, getFileStat flags attrs = Ok (fs, []) ∧ fs_UID fs = uid ∧ fs_GID fs = gid ∧ fs_Mode fs = mode)
  ∧ sftpServerWorker errText runLs exts (sshFxpSetstatPacket id flags path attrs) oid svr f
    = let '(_, f1) := os_Chmod path uid f in
      let '(err, f2) := os_Chown path gid mode f1 in
      (Ok (statusFromError errText id err), svr, f2).
Proof.
  intros Hu Hg Hm Hro flags attrs. split.
  - unfold getFileStat, attrs.
    change (flag_set flags sshFileXferAttrSize) with false. change (flag_set flags sshFileXferAttrUIDGID) with true.
    change (flag_set flags sshFileXferAttrPermissions) with true. change (flag_set flags sshFileXferAttrACmodTime) with false.
    change (flag_set flags sshFileXferAttrExtented) with false. cbn [mbind result_bind].
    do 2 (rewrite unmarshalUint32Safe_marshal; cbn [lenient mbind result_bind]).
    rewrite unmarshalUint32Safe_marshal_nil. cbn [lenient mbind result_bind]. rewrite !u32_id by done. by eexists.
  - unfold sftpServerWorker. rewrite Hro, andb_false_r. cbn [handlePacket request_id]. unfold setstat_respond, setAttributes, attrs.
    change (has_bits flags sshFileXferAttrSize) with false. change (has_bits flags sshFileXferAttrUIDGID) with true.
    change (has_bits flags sshFileXferAttrPermissions) with true. change (has_bits flags sshFileXferAttrACmodTime) with false.
    cbn [one_of]. rewrite unmarshalUint32Safe_marshal, u32_id by done. destruct (os_Chmod path uid f) as [err1 f1].
    cbn [one_of]. unfold unmarshalPair. rewrite unmarshalUint32Safe_marshal. cbn [mbind result_bind].
    rewrite unmarshalUint32Safe_marshal_nil. cbn [mbind result_bind fst snd].
    rewrite !u32_id by done. by destruct (os_Chown path gid mode f1).
Qed.

(** ** Open handles *)
Record srv_inv (svr : Server) : Prop := {
  srv_count : 0 <= srv_handleCount svr;
  srv_keys : ∀ h fl, openFiles svr !! h = Some fl → ∃ k, 1 <= k <= srv_handleCount svr ∧ h = Itoa k
}.

Lemma nextHandle_spec fl svr h svr' : srv_inv svr → srv_handleCount svr + 1 < 2 ^ 63 → nextHandle fl svr = (h, svr') →
  openFiles svr !! h = None ∧ openFiles svr' = <[h := fl]> (openFiles svr) ∧ srv_inv svr'.
Proof.
  intros [Hc Hk] Hlt. unfold nextHandle. rewrite i64_id by (unfold is_i64; lia). intros [= <- <-].
  assert (openFiles svr !! Itoa (srv_handleCount svr + 1) = None) as Hn.
  { destruct (openFiles svr !! _) as [fl'|] eqn:E; [|done]. apply Hk in E as (k & Hb & E). apply (inj pretty) in E. lia. }
  split; [done|]. split; [done|]. split; simpl; [lia|]. intros h fl'. rewrite lookup_insert_Some.
  intros [[<- _]|[_ Hh]]; [by exists (srv_handleCount svr + 1); split; [lia|]|]. apply Hk in Hh as (k & ? & ->). exists k. by split; [lia|].
Qed.

(** What a packet may do to the table. *)
Definition handle_step (p : requestPacket) (x : result responsePacket) (svr svr' : Server) : Prop :=
  srv_inv svr'
  ∧ (∀ h fl, openFiles svr !! h = Some fl → (∀ id, p ≠ sshFxpClosePacket id h) → openFiles svr' !! h = Some fl)
  ∧ (∀ id h, p = sshFxpClosePacket id h → openFiles svr' !! h = None)
  ∧ (∀ id h, x = Ok (sshFxpHandlePacket id h) → openFiles svr !! h = None ∧ is_Some (openFiles svr' !! h)).

Section handles.
Context {F : Type} `{FileSystem F, !ServerFS F}.
Context (errText : error → string) (runLs : string → FileInfo → string) (exts : list extensionPair).
Implicit Types (svr : Server) (f : F).

Lemma status_not_handle id err id' h : statusFromError errText id err ≠ sshFxpHandlePacket id' h.
Proof. by destruct err. Qed.
Lemma handle_step_same p x svr svr' : srv_inv svr → openFiles svr' = openFiles svr → srv_handleCount svr' = srv_handleCount svr →
  (∀ id h, p ≠ sshFxpClosePacket id h) → (∀ id h, x ≠ Ok (sshFxpHandlePacket id h)) → handle_step p x svr svr'.
Proof.
  intros [Hc Hk] E1 E2 Hp Hx. split; [split; rewrite ?E1, ?E2; done|]. rewrite E1. split; [done|].
  split; [intros id h E; by destruct (Hp id h)|intros id h E; by destruct (Hx id h)].
Qed.

Lemma open_respond_step p id path pflags svr f x svr' f' : srv_inv svr → srv_handleCount svr + 1 < 2 ^ 63 →
  (∀ id h, p ≠ sshFxpClosePacket id h) → open_respond errText id path pflags svr f = (x, svr', f') → handle_step p x svr svr'.
Proof.
  intros Hi Hlt Hp. unfold open_respond. destruct (open_osFlags pflags) as [fl|].
  2: { intros [= <- <- <-]. by apply handle_step_same. }
  destruct (os_OpenFile path fl 0x1a4 f) as [[file|e|] f1].
  2-3: intros [= <- <- <-]; by apply handle_step_same.
  destruct (nextHandle file svr) as [h svr1] eqn:E. intros [= <- <- <-].
  destruct (nextHandle_spec _ _ _ _ Hi Hlt E) as (Hn & Ht & Hi'). split; [done|]. rewrite Ht. split_and!.
  - intros h' fl' Hh _. rewrite lookup_insert_ne; [done|]. intros ->. congruence.
  - intros id' h' E'. by destruct (Hp id' h').
  - intros id' h' [= _ <-]. split; [done|]. by rewrite lookup_insert_eq.
Qed.

(** Handles are stable: whatever is requested, the handles in use stay
    numbered from one up to the count, an open file keeps its handle until that
    handle is closed and is gone then, and a handle that is given out was not in
    use. *)
Lemma legacy_handles_stable p oid svr f x svr' f' : srv_inv svr → srv_handleCount svr + 1 < 2 ^ 63 →
  sftpServerWorker errText runLs exts p oid svr f = (x, svr', f') → handle_step p x svr svr'.
Proof.
  intros Hi Hlt E. unfold sftpServerWorker in E. destruct (negb (packet_readonly p) && readOnly svr) eqn:Hro.
  { injection E as <- <- <-. apply handle_step_same; try done. intros id h ->. done. }
  clear Hro.
  destruct p as [| |id path pflags fl|id h|id l o h| | | | |id path|id h| | | | | | | | |id ext [[| |]|]];
    unfold handlePacket, closeHandle, specific_respond, fsetstat_respond, setstat_respond, readdir_respond in E; cbv zeta in E;
    try (lazymatch goal with
         | |- handle_step (sshFxpClosePacket _ _) _ _ _ => fail
         | |- handle_step (sshFxpOpenPacket _ _ _ _) _ _ _ => fail
         | |- handle_step (sshFxpOpendirPacket _ _) _ _ _ => fail
         | _ => idtac
         end;
         case_results; simplify_eq; apply handle_step_same; try done; unfold stat_response, name_response; intros ? ?; repeat case_match;
         first [done|intros [= E']; by apply status_not_handle in E']).
  - by eapply open_respond_step.
  - destruct (openFiles svr !! h) as [fl|] eqn:Eh.
    + destruct (file_Close fl f) as [err f1]. injection E as <- <- <-. destruct Hi as [Hc Hk]. split.
      { split; simpl; [done|]. intros h' fl' Hh. apply lookup_delete_Some in Hh as [_ Hh]. by eapply Hk. }
      simpl. split_and!.
      * intros h' fl' Hh Hne. rewrite lookup_delete_ne; [done|]. intros ->. by destruct (Hne id).
      * intros id' h' [= _ <-]. apply lookup_delete_eq.
      * intros id' h' [= E]. by apply status_not_handle in E.
    + injection E as <- <- <-. split; [done|]. split_and!; [done|by intros id' h' [= _ <-]|].
      intros id' h' [= E]. 
  - destruct (os_Stat path f) as [fi|e|].
    2-3: injection E as <- <- <-; by apply handle_step_same.
    destruct (negb (fi_IsDir fi)); [|by eapply open_respond_step].
    injection E as <- <- <-. by apply handle_step_same.
Qed.
End handles.

(** ** The type word of a listing *)
Section type_word.
Implicit Types (mode : Z).
Definition type_char mode : ascii :=
  if has_bits mode ModeDir then "d"
  else if has_bits mode ModeDevice then (if has_bits mode ModeCharDevice then "c" else "b")
  else if has_bits mode ModeSymlink then "l"
  else if has_bits mode ModeSocket then "s"
  else if has_bits mode ModeNamedPipe then "p" else "-".
Definition bit_char mode (bit : Z) (c : ascii) : ascii := if has_bits mode bit then c else "-".
Definition exec_char mode (bit special : Z) (both only : ascii) : ascii :=
  let x := has_bits mode bit in
  let s := has_bits mode special in
  if x && s then both else if s then only else if x then "x" else "-".
Definition runLsTypeWord (dirent : FileInfo) : string :=
  let mode := fi_Mode dirent in
  String.string_of_list_ascii
    [type_char mode;
     bit_char mode 0x100 "r"; bit_char mode 0x80 "w"; exec_char mode 0x40 ModeSetuid "s" "S";
     bit_char mode 0x20 "r"; bit_char mode 0x10 "w"; exec_char mode 0x8 ModeSetgid "s" "S";
     bit_char mode 0x4 "r"; bit_char mode 0x2 "w"; exec_char mode 0x1 ModeSticky "t" "T"].

(** Reading it back: the bits of the mode it shows. *)
Definition bit_of (c : ascii) (cs : list ascii) (bit : Z) : Z := if bool_decide (c ∈ cs) then bit else 0.
Definition parse_type_word (s : string) : option Z :=
  match String.list_ascii_of_string s with
  | [t; r1; w1; x1; r2; w2; x2; r3; w3; x3] =>
      Some (fold_right Z.lor 0
        [bit_of r1 ["r"%char] 0x100; bit_of w1 ["w"%char] 0x80; bit_of x1 ["x"; "s"]%char 0x40; bit_of x1 ["s"; "S"]%char ModeSetuid;
         bit_of r2 ["r"%char] 0x20; bit_of w2 ["w"%char] 0x10; bit_of x2 ["x"; "s"]%char 0x8; bit_of x2 ["s"; "S"]%char ModeSetgid;
         bit_of r3 ["r"%char] 0x4; bit_of w3 ["w"%char] 0x2; bit_of x3 ["x"; "t"]%char 0x1; bit_of x3 ["t"; "T"]%char ModeSticky])
  | _ => None
  end.

Lemma bit_of_bit_char mode bit c : c ≠ "-"%char → bit_of (bit_char mode bit c) [c] bit = if has_bits mode bit then bit else 0.
Proof.
  intros Hc. unfold bit_of, bit_char. destruct (has_bits mode bit); [by rewrite bool_decide_true by set_solver|].
  rewrite bool_decide_false; [done|]. set_solver.
Qed.
Lemma bit_of_exec mode bit sp both only v : (both, only) ∈ [("s", "S"); ("t", "T")]%char →
  bit_of (exec_char mode bit sp both only) ["x"%char; both] v = (if has_bits mode bit then v else 0)
  ∧ bit_of (exec_char mode bit sp both only) [both; only] v = if has_bits mode sp then v else 0.
Proof.
  rewrite !elem_of_cons, elem_of_nil. unfold exec_char.
  destruct (has_bits mode bit), (has_bits mode sp); intros [[= -> ->]|[[= -> ->]|[]]]; done.
Qed.

Lemma has_bits_pow2 mode bit k : 0 <= k → bit = 2 ^ k → (if has_bits mode bit then bit else 0) = Z.land mode bit.
Proof.
  intros Hk ->. unfold has_bits. assert (Z.land mode (2 ^ k) = if Z.testbit mode k then 2 ^ k else 0) as E.
  { apply Z.bits_inj'. intros i Hi. rewrite Z.land_spec, Z.pow2_bits_eqb by done. destruct (Z.eqb_spec k i) as [<-|Hne].
    - rewrite andb_true_r. destruct (Z.testbit mode k); [by rewrite Z.pow2_bits_true|by rewrite Z.bits_0].
    - rewrite andb_false_r. destruct (Z.testbit mode k); [by rewrite Z.pow2_bits_false|by rewrite Z.bits_0]. }
  rewrite E. destruct (Z.testbit mode k); [|done]. destruct (Z.eqb_spec (2 ^ k) 0) as [E0|]; [|done].
  pose proof (Z.pow_pos_nonneg 2 k). lia.
Qed.

(** The twelve bits a listing shows. *)
Definition shown_bits : Z := Z.lor 0x1ff (Z.lor ModeSetuid (Z.lor ModeSetgid ModeSticky)).

(** The type word of a long listing says the permissions and the setuid,
    setgid and sticky bits of the entry exactly: they can be read back from it. *)
Lemma type_word_shows_mode fi : parse_type_word (runLsTypeWord fi) = Some (Z.land (fi_Mode fi) shown_bits).
Proof.
  unfold parse_type_word, runLsTypeWord. rewrite String.list_ascii_of_string_of_list_ascii. f_equal. set (mode := fi_Mode fi).
  assert (∀ bit sp v, bit_of (exec_char mode bit sp "s" "S") ["x"; "s"]%char v = (if has_bits mode bit then v else 0)
    ∧ bit_of (exec_char mode bit sp "s" "S") ["s"; "S"]%char v = if has_bits mode sp then v else 0) as Hs
    by (intros; apply bit_of_exec; by left).
  destruct (bit_of_exec mode 0x1 ModeSticky "t" "T" 0x1) as [Ht _]; [by right; left|].
  destruct (bit_of_exec mode 0x1 ModeSticky "t" "T" ModeSticky) as [_ Hst]; [by right; left|].
  rewrite !bit_of_bit_char, !(λ b s v, proj1 (Hs b s v)), !(λ b s v, proj2 (Hs b s v)), Ht, Hst by done.
  rewrite (has_bits_pow2 mode 0x100 8), (has_bits_pow2 mode 0x80 7), (has_bits_pow2 mode 0x40 6), (has_bits_pow2 mode ModeSetuid 23),
    (has_bits_pow2 mode 0x20 5), (has_bits_pow2 mode 0x10 4), (has_bits_pow2 mode 0x8 3), (has_bits_pow2 mode ModeSetgid 22),
    (has_bits_pow2 mode 0x4 2), (has_bits_pow2 mode 0x2 1), (has_bits_pow2 mode 0x1 0), (has_bits_pow2 mode ModeSticky 20) by done.
  cbn [fold_right]. rewrite Z.lor_0_r, <- !Z.land_lor_distr_r. done.
Qed.
End type_word.

(** ** On the in-memory file system *)
Module DemoLegacy.
Import MemFS.
Definition readlink (p : string) (s : state) : result string :=
  l ← walk false p s;
  match lookup l s with Some (Link t) => Ok t | _ => Err (EPathError p EINVAL) end.
Definition link (old new : string) (s : state) : option error * state :=
  match walk false old s, locate new s with
  | Ok l, Ok m =>
      match lookup l s, lookup m s with
      | Some (Reg i), None => (None, set_entries s (<[m := Reg i]> (entries s)))
      | Some (Reg _), Some _ => (Some (EPathError new EEXIST), s)
      | _, _ => (Some (EPathError old EPERM), s)
      end
  | Err e, _ | _, Err e => (Some e, s)
  | _, _ => (Some (EMsg ""), s)
  end.
Definition resized (n : Z) (b : list byte) : list byte :=
  take (Z.to_nat n) (b ++ replicate (Z.to_nat n - length b) (byte_of_Z 0)).
Definition truncate_inode (i : nat) (n : Z) (s : state) : option error * state :=
  if n <? 0 then (Some (ESyscall EINVAL), s)
  else (None, mk (entries s) (<[i := resized n (default [] (inodes s !! i))]> (inodes s)) (fds s) (next s)).
Definition file_inode (fl : File) (s : state) : result nat :=
  match fds s !! fd fl with Some i => Ok i | None => Err (ESyscall EBADF) end.
Definition on_file (fl : File) (s : state) : option error * state :=
  (match file_inode fl s with Err e => Some e | _ => None end, s).

(** Directories cannot be opened on this file system. *)
#[global] Instance server_fs : ServerFS state := {
  os_Readlink := readlink;
  os_Getwd _ := Ok "/"%string;
  os_Truncate p n s :=
    match (l ← walk true p s; Ok (lookup l s)) with
    | Ok (Some (Reg i)) => truncate_inode i n s
    | Ok _ => (Some (EPathError p EISDIR), s)
    | Err e => (Some e, s)
    | Panic => (None, s)
    end;
  os_Link := link;
  os_Statfs p s := Err (EPathError p EPERM);
  file_Stat fl s := i ← file_inode fl s; Ok (info [file_Name fl] (Reg i) s);
  file_Readdir fl n s := (Err (EPathError (file_Name fl) ENOTDIR), s);
  file_Truncate fl n s :=
    match file_inode fl s with Ok i => truncate_inode i n s | Err e => (Some e, s) | Panic => (None, s) end;
  file_Chmod fl _ := on_file fl;
  file_Chown fl _ _ := on_file fl
}.

Definition files_of (s : state) : gmap (list string) node * gmap nat (list byte) := (entries s, inodes s).
Lemma openFile_files name flags s fl s' : has_bits flags O_CREATE = false → has_bits flags O_TRUNC = false →
  openFile name flags s = (fl, s') → files_of s' = files_of s.
Proof.
  intros Hc Ht. unfold openFile, open_inode. rewrite Hc, Ht. cbn [andb].
  destruct (walk true name s) as [l|e|]; [destruct (lookup l s) as [[]|]|destruct e as [| | |[]| | | | | | | | | | | | | |]|];
    by intros [= _ <-].
Qed.
#[global] Instance readonly_spec : ReadOnlySpec state (gmap (list string) node * gmap nat (list byte)).
Proof.
  refine {| files := files_of |}.
  - intros name flags perm s fl s'. apply openFile_files.
  - intros fl s err s'. cbn [file_Close fs]. unfold close. destruct (fds s !! fd fl); by intros [= _ <-].
  - intros fl n s r s'. cbn [file_Readdir server_fs]. by intros [= _ <-].
Defined.

Definition disk0 : state :=
  match os_OpenFile "/f" (Z.lor O_WRONLY O_CREATE) 0x1a4 init with
  | (Ok fl, s) => snd (file_Close fl (snd (file_WriteAt fl (bytes_of_string "data") 0 s)))
  | (_, s) => s
  end.
Definition server : Server := match NewServer [ReadOnly] with inl s => s | inr _ => mkServer false ∅ 0 None end.
Definition errText (_ : error) : string := "error".
Definition ls (_ : string) (fi : FileInfo) : string := fi_Name fi.
Definition frame (p : requestPacket) : Z * list byte := (request_type p, tail (request_MarshalBinary p)).
Definition content_of (p : string) (s : state) : option (list byte) :=
  match walk true p s with
  | Ok l => match lookup l s with Some (Reg i) => inodes s !! i | _ => None end
  | _ => None
  end.
End DemoLegacy.


(** A read-only server can be made to change files: an OPEN for reading with
    the flag to truncate empties a file, with the flag to create it creates one,
    and a hard link is made. *)
Theorem legacy_readonly_bypassed :
  let served p := Serve DemoLegacy.errText DemoLegacy.ls [] [DemoLegacy.frame p] 1 DemoLegacy.server DemoLegacy.disk0 in
  let disk_after p path := (λ r, DemoLegacy.content_of path r.2) <$> served p in
  readOnly DemoLegacy.server = true
  ∧ DemoLegacy.content_of "/f" DemoLegacy.disk0 = Some (bytes_of_string "data")
  ∧ disk_after (sshFxpOpenPacket 1 "/f" (Z.lor sshFxfRead sshFxfTrunc) 0) "/f"%string = Some (Some [])
  ∧ disk_after (sshFxpOpenPacket 1 "/g" (Z.lor sshFxfRead sshFxfCreat) 0) "/g"%string = Some (Some [])
  ∧ disk_after (sshFxpExtendedPacket 1 "hardlink@openssh.com" (Some (sshFxpExtendedPacketHardlink 1 "hardlink@openssh.com" "/f" "/h"))) "/h"%string
    = Some (Some (bytes_of_string "data")).
Proof. vm_compute. done. Qed.

Lemma legacy_setstat_misreads_witness :
  let attrs := marshalUint32 [] 1000 ++ marshalUint32 [] 100 ++ marshalUint32 [] 0x1a4 in
  let svr := mkServer false ∅ 0 None in
  sftpServerWorker DemoLegacy.errText DemoLegacy.ls [] (sshFxpSetstatPacket 1 6 "/f" attrs) 1 svr DemoLegacy.disk0
  = let '(_, f1) := os_Chmod "/f" 1000 DemoLegacy.disk0 in
    let '(err, f2) := os_Chown "/f" 100 0x1a4 f1 in (Ok (statusFromError DemoLegacy.errText 1 err), svr, f2).
Proof.
  intros attrs svr.
  apply (legacy_setstat_misreads DemoLegacy.errText DemoLegacy.ls [] 1 "/f" 1000 100 0x1a4 1 svr DemoLegacy.disk0); by vm_compute.
Defined.

Lemma legacy_handles_stable_witness :
  let svr := mkServer false ∅ 0 None in
  ∃ x svr' f', sftpServerWorker DemoLegacy.errText DemoLegacy.ls [] (sshFxpOpenPacket 1 "/f" 1 0) 1 svr DemoLegacy.disk0 = (x, svr', f')
    ∧ x = Ok (sshFxpHandlePacket 1 "1") ∧ handle_step (sshFxpOpenPacket 1 "/f" 1 0) x svr svr'.
Proof.
  intros svr.
  assert ((sftpServerWorker DemoLegacy.errText DemoLegacy.ls [] (sshFxpOpenPacket 1 "/f" 1 0) 1 svr DemoLegacy.disk0).1.1
          = Ok (sshFxpHandlePacket 1 "1")) as Hx by (vm_compute; reflexivity).
  destruct (sftpServerWorker _ _ _ _ _ svr _) as [[x svr'] f'] eqn:E. exists x, svr', f'. split; [done|]. split.
  - exact Hx.
  - eapply (legacy_handles_stable DemoLegacy.errText DemoLegacy.ls []); [by split|by vm_compute|exact E].
Defined.

(** A SETSTAT that is cut short takes the server down. *)
Example legacy_short_setstat_panics {F : Type} `{FileSystem F, !ServerFS F} errText runLs exts oid svr (f : F) :
  readOnly svr = false → Serve errText runLs exts [(sshFxpSetstat, [])] oid svr f = None.
Proof. intros Hro. simpl. unfold serve_malformed. by rewrite Hro. Qed.
