(* ===== verification/ClientConn.v ===== *)
(** * The client's connection: sftp/conn.go

    A client sends packets over a pipe and a goroutine, [loop], reads the
    answers and hands each to the channel its request was registered with.
    The other end of the pipe is the class [Peer]. A computation of the client
    is a function of the client's state; channels are lists of the results that
    wait in them. The receiving goroutine is run when a channel is read that is
    empty: it touches nothing else the caller can see. *)
From stdpp Require Import base tactics option list strings gmap.
From Stdlib Require Import ZArith Lia.
From S2P Require Import Prelude GoOs SftpWire SftpPackets.

(** ** Errors of the client *)
Inductive client_error :=
  | EOther (e : error)
  | EStatus (code : Z) (msg lang : string)
  | os_ErrNotExist
  | os_ErrPermission
  | unexpectedIDErr (want got : Z)
  | unexpectedPacketErr (want got : Z)
  | unexpectedVersionErr (want got : Z)
  | unimplementedPacketErr (typ : Z)
  | unexpectedCount (want got : Z)
  | unimplementedSeekWhence (whence : Z)
  | sidNotFound (sid : Z)
  | unexpectedDisconnect
  | ErrInternalInconsistency
  | ErrShortWrite
  | cannotParseReply.
#[global] Instance client_error_eq_dec : EqDecision client_error.
Proof. solve_decision. Defined.

(** [io.EOF] as a client sees it *)
Definition io_EOF : client_error := EOther EOF.

(** What a call does: return, return an error, panic, or not return: it waits
    for ever or runs out of the fuel it was given. *)
Inductive outcome (A : Type) :=
  | Returns (a : A)
  | Fails (e : client_error)
  | Panics
  | Blocks.
Arguments Returns {A} a.
Arguments Fails {A} e.
Arguments Panics {A}.
Arguments Blocks {A}.

Definition M (S A : Type) : Type := S → outcome A * S.
#[global] Instance M_ret S : MRet (M S) := λ _ a s, (Returns a, s).
#[global] Instance M_bind S : MBind (M S) := λ _ _ f m s,
  match m s with
  | (Returns a, s) => f a s
  | (Fails e, s) => (Fails e, s)
  | (Panics, s) => (Panics, s)
  | (Blocks, s) => (Blocks, s)
  end.
Definition fails {S A} (e : client_error) : M S A := λ s, (Fails e, s).
Definition panics {S A} : M S A := λ s, (Panics, s).
Definition blocks {S A} : M S A := λ s, (Blocks, s).
(** [err := m()], looked at by the caller. *)
Definition attempt {S A} (m : M S A) : M S (A + client_error) := λ s,
  match m s with
  | (Returns a, s) => (Returns (inl a), s)
  | (Fails e, s) => (Returns (inr e), s)
  | (Panics, s) => (Panics, s)
  | (Blocks, s) => (Blocks, s)
  end.
(** A decoder of the packets: its errors are the client's. *)
Definition decode {S A} (r : result A) : M S A := λ s,
  (match r with Ok a => Returns a | Err e => Fails (EOther e) | Panic => Panics end, s).

(** ** The other end

    [peer_write] writes one frame. [peer_next] is the next packet [recvPacket]
    finds in what the peer sends, its type and body, or the error it fails
    with; [None] when the peer sends nothing for ever. *)
Class Peer (P : Type) := {
  peer_write : list byte → P → option error * P;
  peer_next : P → option (result (Z * list byte)) * P;
  peer_close : P → P
}.

(** [result] of the source *)
Record response := mkResponse { r_typ : Z; r_data : list byte; r_err : option client_error }.
#[global] Instance response_eq_dec : EqDecision response.
Proof. solve_decision. Defined.

(** [clientConn] with the fields of [Client] *)
Record Client {P : Type} := mkClient {
  peer : P;
  inflight : gmap Z nat;
  chans : gmap nat (list response);
  closed : bool;
  c_err : option client_error;
  nextid : Z;
  ext : gmap string string;
  maxPacket : Z;
  maxConcurrentRequests : Z;
  useFstat : bool
}.
Arguments Client : clear implicits.
Arguments mkClient {P} _ _ _ _ _ _ _ _ _ _.

Section conn.
Context {P : Type} `{Peer P}.
Implicit Types (c : Client P).

Definition set_conn c (p : P) (i : gmap Z nat) (ch : gmap nat (list response)) : Client P :=
  mkClient p i ch (closed c) (c_err c) (nextid c) (ext c) (maxPacket c) (maxConcurrentRequests c) (useFstat c).
Definition set_peer (p : P) c : Client P := set_conn c p (inflight c) (chans c).
Definition set_inflight (i : gmap Z nat) c : Client P := set_conn c (peer c) i (chans c).
Definition set_chans (ch : gmap nat (list response)) c : Client P := set_conn c (peer c) (inflight c) ch.
Definition set_nextid (n : Z) c : Client P :=
  mkClient (peer c) (inflight c) (chans c) (closed c) (c_err c) n (ext c) (maxPacket c) (maxConcurrentRequests c) (useFstat c).
Definition set_ext (e : gmap string string) c : Client P :=
  mkClient (peer c) (inflight c) (chans c) (closed c) (c_err c) (nextid c) e (maxPacket c) (maxConcurrentRequests c) (useFstat c).

(** [ch <- r] *)
Definition deliver (ch : nat) (r : response) c : Client P :=
  set_chans (<[ch := default [] (chans c !! ch) ++ [r]]> (chans c)) c.
(** [make(chan result, n)] *)
Definition make_chan : M (Client P) nat := λ c,
  let ch := fresh (dom (chans c)) in (Returns ch, set_chans (<[ch := []]> (chans c)) c).

(** The packet is given by its id and the bytes of its [MarshalBinary]. *)
Definition conn_dispatchRequest (ch : nat) (id : Z) (bb : list byte) c : Client P :=
  let c := set_inflight (<[id := ch]> (inflight c)) c in
  let '(err, p) := peer_write (sendPacket bb) (peer c) in
  let c := set_peer p c in
  match err with
  | Some e => deliver ch (mkResponse 0 [] (Some (EOther e))) (set_inflight (delete id (inflight c)) c)
  | None => c
  end.

Definition broadcastErr (err : client_error) c : Client P :=
  let listeners := (map_to_list (inflight c)).*2 in
  let c := foldl (λ c ch, deliver ch (mkResponse 0 [] (Some unexpectedDisconnect)) c) c listeners in
  mkClient (peer c) (inflight c) (chans c) true (Some err) (nextid c) (ext c) (maxPacket c) (maxConcurrentRequests c) (useFstat c).

(** [recv] returned the error [err]: it has closed the pipe, and [loop] tells
    everybody. *)
Definition recv_failed (err : client_error) c : Client P := broadcastErr err (set_peer (peer_close (peer c)) c).

(** One round of the loop of [recv]. *)
Definition recv_step c : outcome unit * Client P :=
  let '(next, p) := peer_next (peer c) in
  let c := set_peer p c in
  match next with
  | None => (Blocks, c)
  | Some Panic => (Panics, c)
  | Some (Err e) => (Returns tt, recv_failed (EOther e) c)
  | Some (Ok (typ, data)) =>
      match unmarshalUint32 data with
      | Ok (sid, _) =>
          match inflight c !! sid with
          | Some ch => (Returns tt, deliver ch (mkResponse typ data None) (set_inflight (delete sid (inflight c)) c))
          | None => (Returns tt, recv_failed (sidNotFound sid) c)
          end
      | Err _ | Panic => (Panics, c)
      end
  end.

(** [<-ch]. A round of [recv] takes a request out of [inflight] or ends the
    loop, which bounds the number of rounds. *)
Fixpoint receive_within (fuel : nat) (ch : nat) : M (Client P) response := λ c,
  match chans c !! ch with
  | Some (r :: rs) => (Returns r, set_chans (<[ch := rs]> (chans c)) c)
  | _ =>
      match fuel with
      | O => (Blocks, c)
      | S fuel =>
          if closed c then (Blocks, c)
          else match recv_step c with
               | (Returns _, c) => receive_within fuel ch c
               | (Panics, c) => (Panics, c)
               | (_, c) => (Blocks, c)
               end
      end
  end.
Definition receive (ch : nat) : M (Client P) response := λ c, receive_within (S (size (inflight c))) ch c.

Definition dispatchRequest (ch : nat) (id : Z) (bb : list byte) : M (Client P) unit := λ c,
  (Returns tt, conn_dispatchRequest ch id bb c).

Definition conn_sendPacket (id : Z) (bb : list byte) : M (Client P) response :=
  ch ← make_chan; _ ← dispatchRequest ch id bb; receive ch.

(** [Close] closes the pipe and waits for the loop to end. *)
Fixpoint wait_loop (fuel : nat) : M (Client P) unit := λ c,
  if closed c then (Returns tt, c)
  else match fuel with
       | O => (Blocks, c)
       | S fuel =>
           match recv_step c with
           | (Returns _, c) => wait_loop fuel c
           | r => r
           end
       end.
Definition clientConn_Close : M (Client P) unit := λ c,
  wait_loop (S (size (inflight c))) (set_peer (peer_close (peer c)) c).
(** [Wait] *)
Definition clientConn_Wait : M (Client P) (option client_error) := λ c,
  match wait_loop (S (size (inflight c))) c with
  | (Returns _, c) => (Returns (c_err c), c)
  | (_, c) => (Blocks, c)
  end.
End conn.

(** ** Servers that answer

    What a client may rely on: a request that is written to a healthy server is
    answered once, with its id; the answers come in any order and change the
    state [A] of the server, as the relation [answer] says. The requests a
    server [accepts] are those it is specified for. *)
Definition wf_response (x : responsePacket) : Prop :=
  match x with
  | sshFxVersionPacket _ _ => False
  | sshFxpDataPacket _ l d => l = zlen d
  | _ => True
  end.

(** The requests a client sends once it is connected. *)
Definition is_request (p : requestPacket) : Prop :=
  match p with sshFxInitPacket _ _ => False | _ => wf_request p end.

Class PeerSpec (P A : Type) `{Peer P} := {
  healthy : P → Prop;
  pending : P → list requestPacket;
  server : P → A;
  answer : requestPacket → A → responsePacket → A → Prop;
  accepts : requestPacket → Prop;
  accepts_request p : accepts p → is_request p;
  peer_write_spec p s : healthy s → accepts p → zlen (request_MarshalBinary p) <= maxMsgLength →
    ∃ s', peer_write (sendPacket (request_MarshalBinary p)) s = (None, s') ∧ healthy s'
      ∧ pending s' ≡ₚ p :: pending s ∧ server s' = server s;
  peer_next_spec s : healthy s → pending s ≠ [] →
    ∃ p x t body s', healthy s' ∧ pending s ≡ₚ p :: pending s' ∧ answer p (server s) x (server s')
      ∧ response_MarshalBinary x = Ok (t :: body) ∧ peer_next s = (Some (Ok (Z_of_byte t, body)), s');
  answer_wf p a x a' : answer p a x a' → wf_response x ∧ response_id x = request_id p
}.

(** The id comes first in the body of every answer. *)
Definition response_type (x : responsePacket) : Z :=
  match x with
  | sshFxVersionPacket _ _ => sshFxpVersion | sshFxpStatusPacket _ _ => sshFxpStatus
  | sshFxpHandlePacket _ _ => sshFxpHandle | sshFxpDataPacket _ _ _ => sshFxpData
  | sshFxpNamePacket _ _ => sshFxpName | sshFxpStatResponse _ _ => sshFxpAttrs
  | StatVFSPacket _ => sshFxpExtendedReply
  end.
Definition response_body (x : responsePacket) : list byte :=
  match x with
  | sshFxpStatusPacket _ e => marshalStatus [] e
  | sshFxpHandlePacket _ h => marshalString [] h
  | sshFxpDataPacket _ l d => marshalUint32 [] l ++ d
  | sshFxpNamePacket _ l => marshalUint32 [] (u32 (zlen l)) ++ concat (map sshFxpNameAttr_MarshalBinary l)
  | sshFxpStatResponse _ fi => marshalFileInfo [] fi
  | StatVFSPacket p =>
      fold_left marshalUint64
        [sv_Bsize p; sv_Frsize p; sv_Blocks p; sv_Bfree p; sv_Bavail p; sv_Files p;
         sv_Ffree p; sv_Favail p; sv_Fsid p; sv_Flag p; sv_Namemax p] []
  | sshFxVersionPacket _ e => marshalExtensions [] e
  end.

Lemma fold_marshalUint64_app l b : fold_left marshalUint64 l b = b ++ fold_left marshalUint64 l [].
Proof.
  revert b. induction l as [|v l IH]; intros b; simpl; [by rewrite app_nil_r|].
  by rewrite IH, (IH (marshalUint64 [] v)), (marshalUint64_app b), app_assoc.
Qed.
Lemma marshalStatus_app b e : marshalStatus b e = b ++ marshalStatus [] e.
Proof. unfold marshalStatus. cbv zeta. wire_norm. done. Qed.
Lemma marshalFileInfo_app b fi : marshalFileInfo b fi = b ++ marshalFileInfo [] fi.
Proof. unfold marshalFileInfo. destruct (fileStatFromInfo fi) as [fl st]. repeat case_match; wire_norm; done. Qed.
Lemma fold_names_app l b :
  fold_left (λ b na, b ++ sshFxpNameAttr_MarshalBinary na) l b = b ++ concat (map sshFxpNameAttr_MarshalBinary l).
Proof. revert b. induction l as [|n l IH]; intros b; simpl; [by rewrite app_nil_r|]. by rewrite IH, app_assoc. Qed.

Lemma response_wire x : wf_response x →
  response_MarshalBinary x = Ok (byte_of_Z (response_type x) :: marshalUint32 [] (response_id x) ++ response_body x).
Proof.
  intros Hwf. destruct x as [v e|id e|id hd|id l d|id l|id fi|p]; [done|..]; cbn [response_MarshalBinary response_body].
  - unfold sshFxpStatusPacket_MarshalBinary. by rewrite marshalStatus_app.
  - unfold sshFxpHandlePacket_MarshalBinary. by rewrite marshalString_app.
  - simpl in Hwf. subst. by rewrite data_packet_layout.
  - unfold sshFxpNamePacket_MarshalBinary. rewrite fold_names_app. by wire_norm.
  - unfold sshFxpStatResponse_MarshalBinary. by rewrite marshalFileInfo_app.
  - unfold StatVFS_MarshalBinary. by rewrite fold_marshalUint64_app.
Qed.

Section spec.
Context {P A : Type} `{PeerSpec P A}.
Implicit Types (c : Client P) (reqs : gmap Z requestPacket).

(** The requests [reqs] are in flight, all of them for the channel [ch], in
    which nothing waits. *)
Record tracks (ch : nat) (c : Client P) (reqs : gmap Z requestPacket) : Prop := {
  tr_open : closed c = false;
  tr_healthy : healthy (peer c);
  tr_chan : chans c !! ch = Some [];
  tr_inflight : inflight c = (λ _, ch) <$> reqs;
  tr_pending : pending (peer c) ≡ₚ (map_to_list reqs).*2;
  tr_ids : ∀ id p, reqs !! id = Some p → request_id p = id
}.
(** Nothing is in flight. *)
Definition idle c : Prop := closed c = false ∧ healthy (peer c) ∧ inflight c = ∅ ∧ pending (peer c) = [].
(** The settings of the client, which no request changes. *)
Definition same_config c c' : Prop :=
  maxPacket c' = maxPacket c ∧ maxConcurrentRequests c' = maxConcurrentRequests c
  ∧ useFstat c' = useFstat c ∧ ext c' = ext c.

Lemma same_config_refl c : same_config c c.
Proof. done. Qed.
Lemma same_config_trans c1 c2 c3 : same_config c1 c2 → same_config c2 c3 → same_config c1 c3.
Proof. unfold same_config. intuition congruence. Qed.

Lemma idle_tracks c ch c' : idle c → make_chan c = (Returns ch, c') →
  tracks ch c' ∅ ∧ server (peer c') = server (peer c) ∧ same_config c c' ∧ nextid c' = nextid c.
Proof.
  intros (Ho & Hh & Hi & Hp). unfold make_chan. intros [= <- <-]. split; [|done].
  split; simpl; [done|done|apply lookup_insert_eq|by rewrite Hi, fmap_empty|by rewrite Hp, map_to_list_empty|done].
Qed.
Lemma tracks_idle ch c : tracks ch c ∅ → idle c.
Proof.
  intros [Ho Hh _ Hi Hp _]. split; [done|]. split; [done|]. rewrite Hi, fmap_empty. split; [done|].
  rewrite map_to_list_empty in Hp. by apply Permutation_nil_r in Hp.
Qed.

Lemma dispatch_tracks ch c reqs id p : tracks ch c reqs → reqs !! id = None →
  request_id p = id → accepts p → zlen (request_MarshalBinary p) <= maxMsgLength →
  let c' := conn_dispatchRequest ch id (request_MarshalBinary p) c in
  tracks ch c' (<[id := p]> reqs) ∧ server (peer c') = server (peer c) ∧ same_config c c' ∧ nextid c' = nextid c.
Proof.
  intros [Ho Hh Hc Hi Hp Hids] Hid Hpid Hwf Hfit. unfold conn_dispatchRequest. simpl.
  destruct (peer_write_spec p (peer c) Hh Hwf Hfit) as (s' & -> & Hh' & Hp' & Hs). simpl. split; [|done].
  split; simpl; [done|done|done| | |].
  - by rewrite Hi, fmap_insert.
  - rewrite Hp', Hp, map_to_list_insert by done. done.
  - intros i q. rewrite lookup_insert_Some. intros [[<- <-]|[_ ?]]; [done|by apply Hids].
Qed.

(** A round of the loop delivers the answer to one of the requests. *)
Lemma recv_step_tracks ch c reqs : tracks ch c reqs → reqs ≠ ∅ → (∀ id p, reqs !! id = Some p → is_u32 id) →
  ∃ id p x c', reqs !! id = Some p ∧ answer p (server (peer c)) x (server (peer c'))
    ∧ wf_response x ∧ response_id x = id
    ∧ recv_step c = (Returns tt, c') ∧ closed c' = false
    ∧ chans c' !! ch = Some [mkResponse (response_type x) (marshalUint32 [] id ++ response_body x) None]
    ∧ (∀ rs, tracks ch (set_chans (<[ch := []]> rs) c') (delete id reqs))
    ∧ same_config c c' ∧ nextid c' = nextid c.
Proof.
  intros [Ho Hh Hc Hi Hp Hids] Hne Hu. destruct (peer_next_spec (peer c) Hh) as (p & x & t & body & s' & Hh' & Hperm & Ha & Hm & Hnext).
  { intros E. rewrite E in Hp. apply Permutation_nil_l in Hp. symmetry in Hp. by apply fmap_nil_inv, map_to_list_empty_iff in Hp. }
  destruct (answer_wf _ _ _ _ Ha) as [Hwf Hid]. rewrite (response_wire x Hwf) in Hm.
  assert (t = byte_of_Z (response_type x)) as -> by congruence.
  assert (body = marshalUint32 [] (response_id x) ++ response_body x) as -> by congruence. clear Hm.
  assert (∃ id, reqs !! id = Some p) as [id Hlook].
  { assert (p ∈ (map_to_list reqs).*2) as Hin by (rewrite <- Hp, Hperm; by left).
    apply list_elem_of_fmap in Hin as ([i q] & -> & Hin). exists i. by apply elem_of_map_to_list. }
  pose proof (Hids _ _ Hlook) as Hpid. exists id, p, x. unfold recv_step. rewrite Hnext. cbv beta iota zeta.
  rewrite unmarshalUint32_marshal, Hid, Hpid, u32_id by eauto. cbn [set_peer set_conn inflight].
  exists (deliver ch (mkResponse (response_type x) (marshalUint32 [] id ++ response_body x) None)
            (set_inflight (delete id (inflight c)) (set_peer s' c))).
  assert (Z_of_byte (byte_of_Z (response_type x)) = response_type x) as -> by (rewrite Z_of_byte_of_Z; by destruct x).
  rewrite Hi, lookup_fmap, Hlook. split_and!; try done.
  - simpl. rewrite Hc. simpl. by rewrite lookup_insert_eq.
  - intros rs. split; simpl; [done|done|apply lookup_insert_eq|by rewrite <- fmap_delete| |].
    + eapply (Permutation_cons_inv (a := p)). rewrite <- Hperm, Hp.
      rewrite <- (insert_delete_id reqs id p Hlook) at 1.
      rewrite map_to_list_insert by apply lookup_delete_eq. done.
    + intros i q Hq. apply Hids. by apply lookup_delete_Some in Hq as [_ ?].
Qed.

Lemma receive_tracks ch c reqs : tracks ch c reqs → reqs ≠ ∅ → (∀ id p, reqs !! id = Some p → is_u32 id) →
  ∃ id p x c', reqs !! id = Some p ∧ answer p (server (peer c)) x (server (peer c'))
    ∧ wf_response x ∧ response_id x = id
    ∧ receive ch c = (Returns (mkResponse (response_type x) (marshalUint32 [] id ++ response_body x) None), c')
    ∧ tracks ch c' (delete id reqs) ∧ same_config c c' ∧ nextid c' = nextid c.
Proof.
  intros Ht Hne Hu. destruct (recv_step_tracks ch c reqs Ht Hne Hu)
    as (id & p & x & c' & Hlook & Ha & Hwf & Hid & Hstep & Ho & Hc & Ht' & Hconf & Hn).
  exists id, p, x, (set_chans (<[ch := []]> (chans c')) c'). unfold receive. simpl.
  rewrite (tr_chan _ _ _ Ht), (tr_open _ _ _ Ht), Hstep.
  assert (∀ n, receive_within n ch c' =
    (Returns (mkResponse (response_type x) (marshalUint32 [] id ++ response_body x) None), set_chans (<[ch := []]> (chans c')) c')) as ->.
  { intros [|n]; simpl; by rewrite Hc. }
  split_and!; done || apply Ht'.
Qed.
End spec.
