(* ===== verification/ClientPeer.v ===== *)
(** * Servers for the SFTP client

    A server that serves one request at a time is a [Server]; [sched] puts it
    at the other end of a client's pipe. It decodes the frames the client
    writes, keeps the requests, and answers them in the order a list of choices
    gives: every order of answers is one of these. [MemServer] serves one file
    from memory. *)
From stdpp Require Import base tactics option list strings gmap.
From Stdlib Require Import ZArith Lia.
From S2P Require Import Prelude GoOs SftpWire SftpPackets FileSystem ClientConn.

Class Server (A : Type) := {
  serve : requestPacket → A → result responsePacket * A
}.
(** While it is [serving], every request it [admits] is answered with a packet
    that fits into a frame. *)
Class ServerSpec (A : Type) `{Server A} := {
  serving : A → Prop;
  admits : requestPacket → Prop;
  admits_request p : admits p → is_request p;
  serve_spec p a : serving a → admits p →
    ∃ x a', serve p a = (Ok x, a') ∧ serving a' ∧ wf_response x ∧ response_id x = request_id p
      ∧ zlen (response_body x) + 5 <= maxMsgLength
}.

Record sched {A : Type} := mkSched { sc_queue : list requestPacket; sc_state : A; sc_order : list nat }.
Arguments sched : clear implicits.
Arguments mkSched {A} _ _ _.

Section sched.
Context {A : Type} `{Server A}.

Definition sched_write (frame : list byte) (s : sched A) : option error * sched A :=
  match recvPacket frame false with
  | Ok (t, body, _) =>
      match makePacket t body with
      | Ok (p, None) => (None, mkSched (sc_queue s ++ [p]) (sc_state s) (sc_order s))
      | _ => (Some EOF, s)
      end
  | _ => (Some EOF, s)
  end.

Definition sched_next (s : sched A) : option (result (Z * list byte)) * sched A :=
  let k := (default 0 (head (sc_order s)) mod length (sc_queue s))%nat in
  match sc_queue s !! k with
  | None => (None, s)
  | Some p =>
      let '(x, a) := serve p (sc_state s) in
      (Some (x ← x; bb ← response_MarshalBinary x; '(t, body, _) ← recvPacket (sendPacket bb) false; Ok (t, body)),
       mkSched (delete k (sc_queue s)) a (tail (sc_order s)))
  end.

#[global] Instance sched_peer : Peer (sched A) := {
  peer_write := sched_write;
  peer_next := sched_next;
  peer_close s := mkSched [] (sc_state s) []
}.

Lemma recvPacket_frame t body : 1 + zlen body <= maxMsgLength →
  recvPacket (sendPacket (byte_of_Z t :: body)) false = Ok (u8 t, body, []).
Proof. intros. rewrite <- (app_nil_r (sendPacket _)). by apply recvPacket_sendPacket. Qed.

(** A request that is written is the next one in the queue. *)
Lemma sched_write_request p s : is_request p → zlen (request_MarshalBinary p) <= maxMsgLength →
  sched_write (sendPacket (request_MarshalBinary p)) s = (None, mkSched (sc_queue s ++ [p]) (sc_state s) (sc_order s)).
Proof.
  intros Hp Hlen. assert (wf_request p) as Hwf by (by destruct p).
  destruct (request_roundtrip p Hwf) as (body & Hm & Hd); [unfold maxMsgLength in *; lia|].
  unfold sched_write. rewrite Hm in Hlen |- *. rewrite recvPacket_frame by (rewrite zlen_cons in Hlen; lia).
  assert (u8 (request_type p) = request_type p) as -> by (by destruct p). by rewrite Hd.
Qed.

#[global] Instance sched_peer_spec `{!ServerSpec A} : PeerSpec (sched A) A.
Proof.
  refine {| healthy s := serving (sc_state s) ∧ Forall admits (sc_queue s); accepts := admits; pending := sc_queue; server := sc_state;
            answer p a x a' := admits p ∧ serving a ∧ serve p a = (Ok x, a') |}.
  - apply admits_request.
  - intros p s [Hs Hq] Hp Hlen. exists (mkSched (sc_queue s ++ [p]) (sc_state s) (sc_order s)).
    split; [|split; [split; [done|by apply Forall_app_2; [|constructor]]|split; [simpl; by rewrite Permutation_app_comm|done]]].
    apply sched_write_request; [by apply admits_request|done].
  - intros s [Hs Hq] Hne. simpl. unfold sched_next. set (k := (_ mod _)%nat).
    assert (k < length (sc_queue s))%nat as Hk by (apply Nat.mod_upper_bound; by destruct (sc_queue s)).
    destruct (lookup_lt_is_Some_2 _ _ Hk) as [p Hp]. rewrite Hp.
    assert (admits p) as Hreq by (rewrite Forall_lookup in Hq; eauto).
    destruct (serve_spec p (sc_state s) Hs Hreq) as (x & a & E & Hs' & Hwf & Hid & Hfit). rewrite E.
    exists p, x, (byte_of_Z (response_type x)), (marshalUint32 [] (response_id x) ++ response_body x).
    eexists. split; [|split; [|split; [|split; [by apply response_wire|]]]]; cycle 3.
    + cbn [mbind result_bind]. rewrite response_wire by done. cbn [mbind result_bind].
      rewrite recvPacket_frame by (rewrite zlen_app, zlen_marshalUint32; lia). by rewrite Z_of_byte_of_Z.
    + simpl. split; [done|]. by apply Forall_delete.
    + simpl. by apply delete_Permutation.
    + done.
  - intros p a x a' (Hp & Ha & E). destruct (serve_spec p a Ha Hp) as (x' & a1 & E' & _ & Hwf & Hid & _).
    rewrite E in E'. by injection E' as <- <-.
Defined.
(** An empty queue is all a client needs to be idle. *)
Lemma sched_idle `{!ServerSpec A} (c : Client (sched A)) :
  closed c = false → inflight c = ∅ → sc_queue (peer c) = [] → serving (sc_state (peer c)) → idle c.
Proof. intros ? ? Hq ?. repeat split; simpl; rewrite ?Hq; done || constructor. Qed.

(** One request at a time: what the server answers is what the client gets. *)
Definition quiet (c : Client (sched A)) : Prop := closed c = false ∧ inflight c = ∅ ∧ sc_queue (peer c) = [].
Lemma sched_recv c p x a ch : sc_queue (peer c) = [p] → inflight c !! request_id p = Some ch →
  is_u32 (request_id p) → serve p (sc_state (peer c)) = (Ok x, a) → wf_response x → response_id x = request_id p →
  zlen (response_body x) + 5 <= maxMsgLength →
  recv_step c = (Returns tt, deliver ch (mkResponse (response_type x) (marshalUint32 [] (response_id x) ++ response_body x) None)
                   (set_inflight (delete (request_id p) (inflight c)) (set_peer (mkSched [] a (tail (sc_order (peer c)))) c))).
Proof.
  intros Hq Hi Hid Hserve Hwf Hrid Hbody. unfold recv_step. cbn [peer_next sched_peer]. unfold sched_next. rewrite Hq.
  change (length [p]) with 1%nat. rewrite Nat.mod_1_r. cbn [lookup list_lookup]. rewrite Hserve. cbn [mbind result_bind].
  rewrite response_wire by done. cbn [mbind result_bind].
  rewrite recvPacket_frame by (rewrite zlen_app, zlen_marshalUint32; lia). cbn [mbind result_bind].
  rewrite unmarshalUint32_marshal, Hrid, u32_id by done. cbn [set_peer set_conn inflight]. rewrite Hi.
  assert (u8 (response_type x) = response_type x) as -> by (by destruct x). done.
Qed.

Lemma sched_send c p x a : quiet c → is_request p → zlen (request_MarshalBinary p) <= maxMsgLength →
  is_u32 (request_id p) → serve p (sc_state (peer c)) = (Ok x, a) → wf_response x → response_id x = request_id p →
  zlen (response_body x) + 5 <= maxMsgLength →
  ∃ c', conn_sendPacket (request_id p) (request_MarshalBinary p) c
        = (Returns (mkResponse (response_type x) (marshalUint32 [] (response_id x) ++ response_body x) None), c')
    ∧ quiet c' ∧ sc_state (peer c') = a ∧ same_config c c' ∧ nextid c' = nextid c.
Proof.
  intros (Ho & Hi & Hq) Hp Hfit Hid Hserve Hwf Hrid Hbody. unfold conn_sendPacket, make_chan, dispatchRequest, mbind, M_bind.
  set (ch := fresh _). set (r := mkResponse _ _ _). set (c1 := conn_dispatchRequest _ _ _ _).
  assert (c1 = set_peer (mkSched [p] (sc_state (peer c)) (sc_order (peer c)))
                 (set_inflight {[request_id p := ch]} (set_chans (<[ch := []]> (chans c)) c))) as Ec1.
  { unfold c1, conn_dispatchRequest. cbn [peer_write sched_peer peer set_inflight set_chans set_conn].
    rewrite sched_write_request, Hq by done. simpl. by rewrite Hi. }
  assert (chans c1 !! ch = Some []) as Hch by (rewrite Ec1; apply lookup_insert_eq).
  assert (closed c1 = false) as Hcl by by rewrite Ec1.
  unfold receive. cbn [receive_within]. rewrite Hch, Hcl.
  rewrite (sched_recv c1 p x a ch); [|by rewrite Ec1|rewrite Ec1; apply lookup_insert_eq|done|by rewrite Ec1|done..].
  fold r. set (c2 := deliver _ _ _).
  assert (chans c2 !! ch = Some [r]) as Hc2.
  { unfold c2, deliver. rewrite Ec1. simpl. by rewrite !lookup_insert_eq. }
  assert (∀ n, receive_within n ch c2 = (Returns r, set_chans (<[ch := []]> (chans c2)) c2)) as ->
    by (intros [|n]; cbn [receive_within]; by rewrite Hc2).
  eexists. split; [reflexivity|]. unfold c2. rewrite Ec1. simpl. split_and!; try done.
  split_and!; [done| |done]. simpl. apply delete_singleton_eq.
Qed.
End sched.

(** ** A file in memory

    Reads give at most [ms_chunk] bytes; writes that end behind [ms_room] are
    refused. The handle is "1". *)
Module MemServer.
Record state := mk { ms_file : list byte; ms_chunk : Z; ms_room : Z; ms_refused : bool }.
Definition status (id code : Z) : responsePacket :=
  sshFxpStatusPacket id {| se_Code := code; se_msg := "status"; se_lang := "en" |}.
Definition answer_to (p : requestPacket) (s : state) : responsePacket * state :=
  match p with
  | sshFxpReadPacket id l o h =>
      if bool_decide (h = "1"%string) then
        if zlen (ms_file s) <=? o then (status id sshFxEOF, s)
        else
          let data := take (Z.to_nat (Z.min l (Z.max 1 (Z.min 32768 (ms_chunk s))))) (drop (Z.to_nat o) (ms_file s)) in
          (sshFxpDataPacket id (zlen data) data, s)
      else (status id sshFxFailure, s)
  | sshFxpWritePacket id _ o h d =>
      if bool_decide (h = "1"%string) && (o + zlen d <=? ms_room s) then
        (status id sshFxOk, mk (write_bytes o d (ms_file s)) (ms_chunk s) (ms_room s) (ms_refused s))
      else (status id sshFxFailure, mk (ms_file s) (ms_chunk s) (ms_room s) true)
  | sshFxpStatPacket id _ | sshFxpFstatPacket id _ =>
      (sshFxpStatResponse id {| fi_Name := "a"; fi_Size := zlen (ms_file s); fi_Mode := 0x1a4; fi_ModTime := 0; fi_Sys := None |}, s)
  | p => (status (request_id p) sshFxOPUnsupported, s)
  end.
#[global] Instance mem_server : Server state := {
  serve p s := let '(x, s) := answer_to p s in (Ok x, s)
}.
#[global] Instance mem_server_spec : ServerSpec state.
Proof.
  refine {| serving _ := True; admits := is_request |}; [done|]. intros p s _ _. simpl. destruct (answer_to p s) as [x s'] eqn:E. exists x, s'. split; [done|]. split; [done|].
  assert (∀ id code, zlen (response_body (status id code)) + 5 <= maxMsgLength) as Hst by done.
  destruct p; simpl in E;
    try (lazymatch type of E with (status _ _, _) = _ => injection E as <- <-; repeat split; apply Hst end).
  - repeat case_match; injection E as <- <-; split_and!; try done; try apply Hst.
    cbn [response_body]. rewrite zlen_app, zlen_marshalUint32. unfold zlen. rewrite length_take. unfold maxMsgLength. lia.
  - repeat case_match; injection E as <- <-; split_and!; try done; try apply Hst.
  - injection E as <- <-. split_and!; [done..|]. by vm_compute.
  - injection E as <- <-. split_and!; [done..|]. by vm_compute.
Defined.
(** A client of it, with the given order of answers. *)
Definition client (s : state) (order : list nat) (maxPacket : Z) : Client (sched state) :=
  mkClient (mkSched [] s order) ∅ ∅ false None 0 ∅ maxPacket 64 false.
Lemma client_idle s order mp : idle (client s order mp).
Proof. repeat split; constructor. Qed.
End MemServer.
