(* ===== verification/Client.v ===== *)
(** * The SFTP client: sftp/client.go

    One definition per method of [Client] and [File]. A method that returns a
    pointer or an interface with its error returns an [option]: a server that
    answers with the status "OK" where it should send data makes the source
    return nil for both. *)
From Stdlib Require Import Ascii.
From stdpp Require Import base tactics option list strings gmap.
From Stdlib Require Import ZArith Lia.
From S2P Require Import Prelude GoOs SftpWire SftpPackets GoPath GoStrconv ClientConn.

(** ** Errors *)
Definition sshFxFileIsADirectory : Z := 24.

Definition normaliseError (err : client_error) : option client_error :=
  match err with
  | EStatus code _ _ =>
      if code =? sshFxEOF then Some io_EOF
      else if code =? sshFxNoSuchFile then Some os_ErrNotExist
      else if code =? sshFxPermissionDenied then Some os_ErrPermission
      else if code =? sshFxOk then None
      else Some err
  | _ => Some err
  end.

(** [os.IsPermission] *)
Definition os_IsPermission (err : client_error) : bool :=
  match err with
  | os_ErrPermission => true
  | EOther (ESyscall e) | EOther (EPathError _ e) => bool_decide (e = EACCES) || bool_decide (e = EPERM)
  | _ => false
  end.

(** [flags]: the flags of [OpenFile] as flags of the protocol. *)
Definition flags (f : Z) : Z :=
  let out := if Z.land f O_WRONLY =? O_WRONLY then 2 else if Z.land f O_WRONLY =? O_RDONLY then 1 else 0 in
  let add bits flag out := if Z.land f bits =? bits then Z.lor out flag else out in
  add O_EXCL 0x20 (add O_TRUNC 0x10 (add O_CREATE 0x8 (add O_APPEND 0x4 (add O_RDWR 0x3 out)))).

Definition min (a b : Z) : Z := if b <? a then b else a.

Record File := mkFile { f_path : string; f_handle : string; f_offset : Z }.

Section client.
Context {P : Type} `{Peer P}.
Abbreviation C := (Client P).
Implicit Types (c : C).

(** ** Requests and their answers *)
Definition nextID : M C Z := λ c, let id := u32 (nextid c + 1) in (Returns id, set_nextid id c).

(** [typ, data, err := c.sendPacket(p); if err != nil { return err }] *)
Definition send (id : Z) (bb : list byte) : M C (Z * list byte) :=
  r ← conn_sendPacket id bb;
  match r_err r with Some e => fails e | None => mret (r_typ r, r_data r) end.

(** [normaliseError(unmarshalStatus(id, data))] *)
Definition status_error (id : Z) (data : list byte) : M C (option client_error) :=
  e ← decode (unmarshalStatus id data);
  mret (normaliseError (match e with
                        | inl se => EStatus (se_Code se) (se_msg se) (se_lang se)
                        | inr sid => unexpectedIDErr id sid
                        end)).
(** [return v, normaliseError(unmarshalStatus(id, data))] *)
Definition return_status {A} (v : A) (id : Z) (data : list byte) : M C A :=
  e ← status_error id data;
  match e with Some e => fails e | None => mret v end.
(** [sid, data := unmarshalUint32(data); if sid != id { ... }] *)
Definition check_id (id : Z) (data : list byte) : M C (list byte) :=
  '(sid, data) ← decode (unmarshalUint32 data);
  if negb (sid =? id) then fails (unexpectedIDErr id sid) else mret data.

(** The requests that are answered with a status only. *)
Definition status_request (mk : Z → list byte) : M C unit :=
  id ← nextID;
  '(typ, data) ← send id (mk id);
  if typ =? sshFxpStatus then return_status tt id data else fails (unimplementedPacketErr typ).
(** The ones answered with a packet of the type [want] or a status. *)
Definition value_request {A} (want : Z) (read : list byte → M C A) (v : A) (mk : Z → list byte) : M C A :=
  id ← nextID;
  '(typ, data) ← send id (mk id);
  if typ =? want then (data ← check_id id data; read data)
  else if typ =? sshFxpStatus then return_status v id data
  else fails (unimplementedPacketErr typ).

(** ** Directories *)
Definition read_handle (data : list byte) : M C string :=
  '(handle, _) ← decode (unmarshalString data); mret handle.

Definition Client_opendir (path : string) : M C string :=
  value_request sshFxpHandle read_handle EmptyString (λ id, sshFxpOpendirPacket_MarshalBinary id path).
Definition Client_close (handle : string) : M C unit :=
  status_request (λ id, sshFxpClosePacket_MarshalBinary id handle).

(** The entries of a NAME packet; "." and ".." are left out. *)
Fixpoint name_entries (count : nat) (data : list byte) : M C (list FileInfo) :=
  match count with
  | O => mret []
  | S count =>
      '(filename, data) ← decode (unmarshalString data);
      '(_, data) ← decode (unmarshalString data);
      '(attr, data) ← decode (unmarshalAttrs data);
      rest ← name_entries count data;
      if bool_decide (filename = "."%string) || bool_decide (filename = ".."%string) then mret rest
      else mret (fileInfoFromStat attr (Base filename) :: rest)
  end.

(** The loop of [ReadDir]: what it has read and the error that ended it;
    [Fails] is a return from inside the loop. *)
Fixpoint ReadDir_loop (fuel : nat) (handle : string) (attrs : list FileInfo)
  : M C (list FileInfo * option client_error) :=
  match fuel with
  | O => blocks
  | S fuel =>
      id ← nextID;
      r ← conn_sendPacket id (sshFxpReaddirPacket_MarshalBinary id handle);
      match r_err r with
      | Some err1 => mret (attrs, Some err1)
      | None =>
          if r_typ r =? sshFxpName then
            data ← check_id id (r_data r);
            '(count, data) ← decode (unmarshalUint32 data);
            more ← name_entries (Z.to_nat count) data;
            ReadDir_loop fuel handle (attrs ++ more)
          else if r_typ r =? sshFxpStatus then (err ← status_error id (r_data r); mret (attrs, err))
          else fails (unimplementedPacketErr (r_typ r))
      end
  end.

(** The directory is closed on every path; what [close] answers is ignored. *)
Definition Client_ReadDir (fuel : nat) (p : string) : M C (list FileInfo * option client_error) :=
  handle ← Client_opendir p;
  r ← attempt (ReadDir_loop fuel handle []);
  _ ← attempt (Client_close handle);
  match r with
  | inr e => mret ([], Some e)
  | inl (attrs, err) => mret (attrs, if bool_decide (err = Some io_EOF) then None else err)
  end.

(** ** Attributes *)
Definition read_attrs (data : list byte) : M C FileStat :=
  '(attr, _) ← decode (unmarshalAttrs data); mret attr.
Definition read_info (p : string) (data : list byte) : M C (option FileInfo) :=
  attr ← read_attrs data; mret (Some (fileInfoFromStat attr (Base p))).

Definition Client_Stat (p : string) : M C (option FileInfo) :=
  value_request sshFxpAttrs (read_info p) None (λ id, sshFxpStatPacket_MarshalBinary id p).
Definition Client_Lstat (p : string) : M C (option FileInfo) :=
  value_request sshFxpAttrs (read_info p) None (λ id, sshFxpLstatPacket_MarshalBinary id p).
Definition Client_fstat (handle : string) : M C (option FileStat) :=
  value_request sshFxpAttrs (λ data, attr ← read_attrs data; mret (Some attr)) None
    (λ id, sshFxpFstatPacket_MarshalBinary id handle).

Definition Client_setfstat (handle : string) (flags : Z) (attrs : mval) : M C unit :=
  status_request (λ id, sshFxpFsetstatPacket_MarshalBinary id flags handle attrs).
Definition Client_setstat (path : string) (flags : Z) (attrs : mval) : M C unit :=
  status_request (λ id, sshFxpSetstatPacket_MarshalBinary id flags path attrs).
(** The times are given by their [Unix()]. *)
Definition Client_Chtimes (path : string) (atime mtime : Z) : M C unit :=
  Client_setstat path sshFileXferAttrACmodTime (VStruct [VUint32 (u32 atime); VUint32 (u32 mtime)]).
Definition Client_Chown (path : string) (uid gid : Z) : M C unit :=
  Client_setstat path sshFileXferAttrUIDGID (VStruct [VUint32 (u32 uid); VUint32 (u32 gid)]).
Definition Client_Chmod (path : string) (mode : Z) : M C unit :=
  Client_setstat path sshFileXferAttrPermissions (VUint32 (u32 mode)).
Definition Client_Truncate (path : string) (size : Z) : M C unit :=
  Client_setstat path sshFileXferAttrSize (VUint64 (u64 size)).

(** ** Links, names and paths *)

(** One name is expected; its attributes are not looked at. *)
Definition read_name (data : list byte) : M C string :=
  '(count, data) ← decode (unmarshalUint32 data);
  if negb (count =? 1) then fails (unexpectedCount 1 count)
  else '(filename, _) ← decode (unmarshalString data); mret filename.

Definition Client_ReadLink (p : string) : M C string :=
  value_request sshFxpName read_name EmptyString (λ id, sshFxpReadlinkPacket_MarshalBinary id p).
Definition Client_realpath (path : string) : M C string :=
  value_request sshFxpName read_name EmptyString (λ id, sshFxpRealpathPacket_MarshalBinary id path).
Definition Client_Getwd : M C string := Client_realpath ".".
Definition Client_Link (oldname newname : string) : M C unit :=
  status_request (λ id, sshFxpHardlinkPacket_MarshalBinary id oldname newname).
Definition Client_Symlink (oldname newname : string) : M C unit :=
  status_request (λ id, sshFxpSymlinkPacket_MarshalBinary id oldname newname).
Definition Client_Rename (oldname newname : string) : M C unit :=
  status_request (λ id, sshFxpRenamePacket_MarshalBinary id oldname newname).
Definition Client_PosixRename (oldname newname : string) : M C unit :=
  status_request (λ id, sshFxpPosixRenamePacket_MarshalBinary id oldname newname).
Definition Client_Join (elem : list string) : string := Join elem.

(** ** Removing and creating *)
Definition Client_removeFile (path : string) : M C unit :=
  status_request (λ id, sshFxpRemovePacket_MarshalBinary id path).
Definition Client_RemoveDirectory (path : string) : M C unit :=
  status_request (λ id, sshFxpRmdirPacket_MarshalBinary id path).
Definition Client_Remove (path : string) : M C unit :=
  r ← attempt (Client_removeFile path);
  match r with
  | inl _ => mret tt
  | inr err =>
      let is_dir := match err with
                    | EStatus code _ _ => (code =? sshFxFailure) || (code =? sshFxFileIsADirectory)
                    | _ => false
                    end in
      if is_dir || os_IsPermission err then Client_RemoveDirectory path else fails err
  end.

Definition Client_Mkdir (path : string) : M C unit :=
  status_request (λ id, sshFxpMkdirPacket_MarshalBinary id 0 path).

(** [path[0:j-1]] for the parent of a path, if [j > 1]: trailing slashes are
    skipped, then the last element. *)
Definition mkdir_parent (path : string) : option string :=
  let isSep (x : ascii) := bool_decide (x = "/"%char) in
  let fix skip (f : ascii → bool) (l : list ascii) :=
    match l with x :: l' => if f x then skip f l' else l | [] => [] end in
  let rest := skip (λ x, negb (isSep x)) (skip isSep (reverse (String.list_ascii_of_string path))) in
  match rest with
  | _ :: _ :: _ => Some (String.string_of_list_ascii (reverse (tail rest)))
  | _ => None
  end.

(** A nil [FileInfo] makes [IsDir] panic. *)
Definition info_IsDir (fi : option FileInfo) : M C bool :=
  match fi with Some fi => mret (fi_IsDir fi) | None => panics end.

Fixpoint Client_MkdirAll (fuel : nat) (path : string) : M C unit :=
  match fuel with
  | O => blocks
  | S fuel =>
      r ← attempt (Client_Stat path);
      match r with
      | inl dir =>
          d ← info_IsDir dir;
          if (d : bool) then mret tt else fails (EOther (EPathError path ENOTDIR))
      | inr _ =>
          _ ← match mkdir_parent path with Some parent => Client_MkdirAll fuel parent | None => mret tt end;
          r ← attempt (Client_Mkdir path);
          match r with
          | inl _ => mret tt
          | inr err =>
              r ← attempt (Client_Lstat path);
              match r with
              | inl dir => (d ← info_IsDir dir; if (d : bool) then mret tt else fails err)
              | inr _ => fails err
              end
          end
      end
  end.

(** ** Opening *)
Definition Client_open (path : string) (pflags : Z) : M C (option File) :=
  value_request sshFxpHandle (λ data, handle ← read_handle data; mret (Some (mkFile path handle 0))) None
    (λ id, sshFxpOpenPacket_MarshalBinary id path pflags 0).
Definition Client_Create (path : string) : M C (option File) :=
  Client_open path (flags (Z.lor O_RDWR (Z.lor O_CREATE O_TRUNC))).
Definition Client_Open (path : string) : M C (option File) := Client_open path (flags O_RDONLY).
Definition Client_OpenFile (path : string) (f : Z) : M C (option File) := Client_open path (flags f).

(** [binary.Read] of a [StatVFS] *)
Definition read_StatVFS (data : list byte) : result StatVFS :=
  '(id, d) ← unmarshalUint32Safe data;
  '(bsize, d) ← unmarshalUint64Safe d; '(frsize, d) ← unmarshalUint64Safe d;
  '(blocks, d) ← unmarshalUint64Safe d; '(bfree, d) ← unmarshalUint64Safe d;
  '(bavail, d) ← unmarshalUint64Safe d; '(files, d) ← unmarshalUint64Safe d;
  '(ffree, d) ← unmarshalUint64Safe d; '(favail, d) ← unmarshalUint64Safe d;
  '(fsid, d) ← unmarshalUint64Safe d; '(flag, d) ← unmarshalUint64Safe d;
  '(namemax, _) ← unmarshalUint64Safe d;
  Ok {| sv_ID := id; sv_Bsize := bsize; sv_Frsize := frsize; sv_Blocks := blocks; sv_Bfree := bfree;
        sv_Bavail := bavail; sv_Files := files; sv_Ffree := ffree; sv_Favail := favail; sv_Fsid := fsid;
        sv_Flag := flag; sv_Namemax := namemax |}.
Definition Client_StatVFS (path : string) : M C StatVFS :=
  id ← nextID;
  '(typ, data) ← send id (sshFxpStatvfsPacket_MarshalBinary id path);
  if typ =? sshFxpExtendedReply then
    match read_StatVFS data with Ok v => mret v | _ => fails cannotParseReply end
  else if typ =? sshFxpStatus then fails (EOther (EMsg "SSH_FXP_STATUS"))
  else fails (unimplementedPacketErr typ).

(** ** Starting a client *)
Definition ClientOption : Type := C → C + client_error.
Definition set_maxPacket (size : Z) c : C :=
  mkClient (peer c) (inflight c) (chans c) (closed c) (c_err c) (nextid c) (ext c) size (maxConcurrentRequests c) (useFstat c).
Definition MaxPacketChecked (size : Z) : ClientOption := λ c,
  if size <? 1 then inr (EOther (EMsg "size must be greater or equal to 1"))
  else if 32768 <? size then inr (EOther (EMsg "sizes larger than 32KB might not work with all servers"))
  else inl (set_maxPacket size c).
Definition MaxPacketUnchecked (size : Z) : ClientOption := λ c,
  if size <? 1 then inr (EOther (EMsg "size must be greater or equal to 1")) else inl (set_maxPacket size c).
Definition MaxPacket (size : Z) : ClientOption := MaxPacketChecked size.
Definition MaxConcurrentRequestsPerFile (n : Z) : ClientOption := λ c,
  if n <? 1 then inr (EOther (EMsg "n must be greater or equal to 1"))
  else inl (mkClient (peer c) (inflight c) (chans c) (closed c) (c_err c) (nextid c) (ext c) (maxPacket c) n (useFstat c)).
Definition UseFstat (value : bool) : ClientOption := λ c,
  inl (mkClient (peer c) (inflight c) (chans c) (closed c) (c_err c) (nextid c) (ext c) (maxPacket c)
         (maxConcurrentRequests c) value).

Fixpoint applyOptions (opts : list ClientOption) c : C + client_error :=
  match opts with
  | [] => inl c
  | f :: opts => match f c with inl c => applyOptions opts c | inr e => inr e end
  end.

Definition protocolVersion : Z := 3.
Definition sendInit : M C unit := λ c,
  let '(err, p) := peer_write (sendPacket (sshFxInitPacket_MarshalBinary protocolVersion [])) (peer c) in
  (match err with Some e => Fails (EOther e) | None => Returns tt end, set_peer p c).

Fixpoint read_extensions (fuel : nat) (data : list byte) : M C unit :=
  match fuel, data with
  | _, [] => mret tt
  | O, _ => blocks
  | S fuel, _ =>
      '(e, data) ← decode (unmarshalExtensionPair data);
      _ ← (λ c, (Returns tt, set_ext (<[ep_Name e := ep_Data e]> (ext c)) c));
      read_extensions fuel data
  end.
Definition recvVersion : M C unit := λ c,
  let '(next, p) := peer_next (peer c) in
  let c := set_peer p c in
  match next with
  | None => (Blocks, c)
  | Some Panic => (Panics, c)
  | Some (Err e) => (Fails (EOther e), c)
  | Some (Ok (typ, data)) =>
      (if negb (typ =? sshFxpVersion) then fails (unexpectedPacketErr sshFxpVersion typ)
       else
         '(version, data) ← decode (unmarshalUint32 data);
         if negb (version =? protocolVersion) then fails (unexpectedVersionErr protocolVersion version)
         else read_extensions (length data) data) c
  end.

(** When it fails the pipe is closed. *)
Definition NewClientPipe (p : P) (opts : list ClientOption) : outcome C * P :=
  let c := mkClient p ∅ ∅ false None 0 ∅ (Z.shiftl 1 15) 64 false in
  match applyOptions opts c with
  | inr e => (Fails e, peer_close p)
  | inl c =>
      match (_ ← sendInit; recvVersion) c with
      | (Returns _, c) => (Returns c, peer c)
      | (Fails e, c) => (Fails e, peer_close (peer c))
      | (Panics, c) => (Panics, peer c)
      | (Blocks, c) => (Blocks, peer c)
      end
  end.
Definition HasExtension (name : string) c : option string := ext c !! name.

(** ** Files *)
Definition File_Name (f : File) : string := f_path f.
Definition File_Close (f : File) : M C unit := Client_close (f_handle f).
(** A nil [FileStat] makes [fileInfoFromStat] panic. *)
Definition File_Stat (f : File) : M C FileInfo :=
  fs ← Client_fstat (f_handle f);
  match fs with
  | Some fs => mret (fileInfoFromStat fs (Base (f_path f)))
  | None => panics
  end.
Definition set_offset (f : File) (off : Z) : File := mkFile (f_path f) (f_handle f) off.
(** The new offset and the error; the file is returned with its offset. *)
Definition File_Seek (f : File) (offset whence : Z) : M C (File * Z * option client_error) :=
  let moved off := let f := set_offset f (u64 off) in mret (f, i64 (f_offset f), None) in
  if whence =? 0 then moved offset
  else if whence =? 1 then moved (i64 (i64 (f_offset f) + offset))
  else if whence =? 2 then
    r ← attempt (File_Stat f);
    match r with
    | inl fi => moved (i64 (fi_Size fi + offset))
    | inr e => mret (f, i64 (f_offset f), Some e)
    end
  else mret (f, i64 (f_offset f), Some (unimplementedSeekWhence whence)).
Definition File_Chown (f : File) (uid gid : Z) : M C unit := Client_Chown (f_path f) uid gid.
Definition File_Chmod (f : File) (mode : Z) : M C unit := Client_Chmod (f_path f) mode.
Definition File_Truncate (f : File) (size : Z) : M C unit :=
  Client_setfstat (f_handle f) sshFileXferAttrSize (VUint64 (u64 size)).
Definition File_Sync (f : File) : M C unit :=
  id ← nextID;
  '(typ, data) ← send id (sshFxpFsyncPacket_MarshalBinary id (f_handle f));
  if typ =? sshFxpStatus then return_status tt id data else fails (unexpectedPacketErr sshFxpStatus typ).
End client.
