(* ===== verification/ClientIO.v ===== *)
(** * Transfers of the SFTP client: [File.ReadAt], [WriteTo], [Write] and
    [ReadFrom] of sftp/client.go

    Each splits a transfer into requests of at most [maxPacket] bytes and keeps
    up to [maxConcurrentRequests] of them in flight; the answers may arrive in
    any order. The loops take fuel, one unit for every answer. The theorems are
    about every order in which a server answers. *)
From stdpp Require Import base tactics option list strings gmap.
From Stdlib Require Import ZArith Lia.
From S2P Require Import Prelude GoOs SftpWire SftpPackets GoPath GoStrconv ClientConn ClientPeer Client.

(** A slice of the caller's buffer, by its position, and where it is in the
    file. *)
Record inflightRead := mkInflight { ir_pos : Z; ir_len : Z; ir_offset : Z }.

(** The variables of [ReadAt]: the buffer, the part of it that is not yet
    requested (from [ra_pos] on), and [firstErr] as its offset and error. *)
Record readState := mkRead {
  ra_buf : list byte;
  ra_pos : Z;
  ra_inFlight : Z;
  ra_desired : Z;
  ra_offset : Z;
  ra_reqs : gmap Z inflightRead;
  ra_err : Z * option client_error;
  ra_read : Z
}.

Record writeState := mkWrite {
  ws_b : list byte;
  ws_inFlight : Z;
  ws_desired : Z;
  ws_offset : Z;
  ws_err : option client_error
}.

Section io.
Context {P : Type} `{Peer P}.
Abbreviation C := (Client P).
Implicit Types (c : C) (f : File).

Definition bump (desired : Z) : M C Z := λ c,
  (Returns (if desired <? maxConcurrentRequests c then desired + 1 else desired), c).
Definition get_maxPacket : M C Z := λ c, (Returns (maxPacket c), c).

(** ** [ReadAt] *)
Definition read_sendReq (ch : nat) f (pos len offset : Z) (st : readState) : M C readState :=
  reqID ← nextID;
  _ ← dispatchRequest ch reqID (sshFxpReadPacket_MarshalBinary reqID (u32 len) offset (f_handle f));
  mret (mkRead (ra_buf st) (ra_pos st) (ra_inFlight st + 1) (ra_desired st) (ra_offset st)
          (<[reqID := mkInflight pos len offset]> (ra_reqs st)) (ra_err st) (ra_read st)).

(** [for inFlight < desiredInFlight && ...], at most [n] times *)
Fixpoint read_fill (n : nat) (ch : nat) f (st : readState) : M C readState :=
  match n with
  | O => mret st
  | S n =>
      let rest := zlen (ra_buf st) - ra_pos st in
      if (0 <? rest) && bool_decide ((ra_err st).2 = None) then
        mp ← get_maxPacket;
        let l := min rest mp in
        st ← read_sendReq ch f (ra_pos st) l (ra_offset st) st;
        read_fill n ch f (mkRead (ra_buf st) (ra_pos st + l) (ra_inFlight st) (ra_desired st)
                            (u64 (ra_offset st + l)) (ra_reqs st) (ra_err st) (ra_read st))
      else mret st
  end.

Definition set_read_err (st : readState) (off : Z) (e : option client_error) : readState :=
  mkRead (ra_buf st) (ra_pos st) (ra_inFlight st) (ra_desired st) (ra_offset st) (ra_reqs st) (off, e) (ra_read st).

(** A DATA packet for [req]; slicing [data[:l]] past its end panics. *)
Definition read_data (ch : nat) f (req : inflightRead) (data : list byte) (st : readState) : M C readState :=
  '(l, data) ← decode (unmarshalUint32 data);
  if zlen data <? l then panics
  else
    let n := min (ir_len req) l in
    let st := mkRead (copy_at (Z.to_nat (ir_pos req)) (take (Z.to_nat n) data) (ra_buf st)) (ra_pos st)
                (ra_inFlight st) (ra_desired st) (ra_offset st) (ra_reqs st) (ra_err st) (ra_read st + n) in
    st ← (if n <? ir_len req then
            read_sendReq ch f (ir_pos req + l) (ir_len req - l) (u64 (ir_offset req + l)) st
          else mret st);
    d ← bump (ra_desired st);
    mret (mkRead (ra_buf st) (ra_pos st) (ra_inFlight st) d (ra_offset st) (ra_reqs st) (ra_err st) (ra_read st)).

(** One result from the channel. *)
Definition read_result (ch : nat) f (res : response) (st : readState) : M C readState :=
  let st := mkRead (ra_buf st) (ra_pos st) (ra_inFlight st - 1) (ra_desired st) (ra_offset st) (ra_reqs st)
              (ra_err st) (ra_read st) in
  match r_err res with
  | Some e => mret (set_read_err st 0 (Some e))
  | None =>
      '(reqID, data) ← decode (unmarshalUint32 (r_data res));
      match ra_reqs st !! reqID with
      | None => mret (set_read_err st 0 (Some (sidNotFound reqID)))
      | Some req =>
          let st := mkRead (ra_buf st) (ra_pos st) (ra_inFlight st) (ra_desired st) (ra_offset st)
                      (delete reqID (ra_reqs st)) (ra_err st) (ra_read st) in
          if r_typ res =? sshFxpStatus then
            if bool_decide ((ra_err st).2 = None) || (ir_offset req <? (ra_err st).1) then
              e ← status_error reqID (r_data res); mret (set_read_err st (ir_offset req) e)
            else mret st
          else if r_typ res =? sshFxpData then read_data ch f req data st
          else mret (set_read_err st 0 (Some (unimplementedPacketErr (r_typ res))))
      end
  end.

Fixpoint ReadAt_loop (fuel : nat) (ch : nat) f (st : readState) : M C readState :=
  if (0 <? zlen (ra_buf st) - ra_pos st) || (0 <? ra_inFlight st) then
    match fuel with
    | O => blocks
    | S fuel =>
        st ← read_fill (Z.to_nat (ra_desired st - ra_inFlight st)) ch f st;
        if ra_inFlight st =? 0 then mret st
        else
          res ← receive ch;
          st ← read_result ch f res st;
          ReadAt_loop fuel ch f st
    end
  else mret st.

(** The buffer, the number of bytes read and the error. *)
Definition File_ReadAt (fuel : nat) f (b : list byte) (off : Z) : M C (list byte * Z * option client_error) :=
  ch ← make_chan;
  st ← ReadAt_loop fuel ch f (mkRead b 0 0 1 (u64 off) ∅ (0, None) 0);
  let err := (ra_err st).2 in
  let read := if bool_decide (err = None) || bool_decide (err = Some io_EOF) then ra_read st else 0 in
  mret (ra_buf st, read, err).

Definition File_Read (fuel : nat) f (b : list byte) : M C (File * list byte * Z * option client_error) :=
  '(b, r, err) ← File_ReadAt fuel f b (i64 (f_offset f));
  mret (set_offset f (u64 (f_offset f + r)), b, r, err).

(** ** [Write] *)
Definition send_write (ch : nat) f (data : list byte) (offset : Z) : M C unit :=
  id ← nextID;
  dispatchRequest ch id (sshFxpWritePacket_MarshalBinary id (u32 (zlen data)) offset (f_handle f) data).

Fixpoint write_fill (n : nat) (ch : nat) f (st : writeState) : M C writeState :=
  match n with
  | O => mret st
  | S n =>
      if (0 <? zlen (ws_b st)) && bool_decide (ws_err st = None) then
        mp ← get_maxPacket;
        let l := min (zlen (ws_b st)) mp in
        _ ← send_write ch f (take (Z.to_nat l) (ws_b st)) (ws_offset st);
        write_fill n ch f (mkWrite (drop (Z.to_nat l) (ws_b st)) (ws_inFlight st + 1) (ws_desired st)
                             (u64 (ws_offset st + l)) (ws_err st))
      else mret st
  end.

(** The answer to a write: [firstErr] and [desiredInFlight] after it. *)
Definition write_result (res : response) (firstErr : option client_error) (desired : Z)
  : M C (option client_error * Z) :=
  match r_err res with
  | Some e => mret (Some e, desired)
  | None =>
      if r_typ res =? sshFxpStatus then
        '(id, _) ← decode (unmarshalUint32 (r_data res));
        err ← status_error id (r_data res);
        if negb (bool_decide (err = None)) && bool_decide (firstErr = None) then mret (err, desired)
        else (d ← bump desired; mret (firstErr, d))
      else mret (Some (unimplementedPacketErr (r_typ res)), desired)
  end.

Fixpoint Write_loop (fuel : nat) (ch : nat) f (st : writeState) : M C writeState :=
  if (0 <? zlen (ws_b st)) || (0 <? ws_inFlight st) then
    match fuel with
    | O => blocks
    | S fuel =>
        st ← write_fill (Z.to_nat (ws_desired st - ws_inFlight st)) ch f st;
        if ws_inFlight st =? 0 then mret st
        else
          res ← receive ch;
          '(err, d) ← write_result res (ws_err st) (ws_desired st);
          Write_loop fuel ch f (mkWrite (ws_b st) (ws_inFlight st - 1) d (ws_offset st) err)
    end
  else mret st.

Definition File_Write (fuel : nat) f (b : list byte) : M C (File * Z * option client_error) :=
  ch ← make_chan;
  st ← Write_loop fuel ch f (mkWrite b 0 1 (f_offset f) None);
  let written := match ws_err st with Some _ => 0 | None => zlen b end in
  mret (set_offset f (u64 (f_offset f + written)), written, ws_err st).

(** ** [ReadFrom] *)
Section reader.
(** [r.Read] into a buffer of the given size *)
Context {R : Type} (r_Read : Z → R → (list byte * option error) * R).

Record fromState := mkFrom {
  fs_r : R;
  fs_inFlight : Z;
  fs_desired : Z;
  fs_offset : Z;
  fs_err : option client_error;
  fs_read : Z
}.

Fixpoint from_fill (n : nat) (ch : nat) f (st : fromState) : M C fromState :=
  match n with
  | O => mret st
  | S n =>
      if bool_decide (fs_err st = None) then
        mp ← get_maxPacket;
        let '((data, err), r) := r_Read mp (fs_r st) in
        _ ← send_write ch f data (fs_offset st);
        from_fill n ch f (mkFrom r (fs_inFlight st + 1) (fs_desired st) (u64 (fs_offset st + zlen data))
                            (EOther <$> err) (i64 (fs_read st + zlen data)))
      else mret st
  end.

Fixpoint ReadFrom_loop (fuel : nat) (ch : nat) f (st : fromState) : M C fromState :=
  if (0 <? fs_inFlight st) || bool_decide (fs_err st = None) then
    match fuel with
    | O => blocks
    | S fuel =>
        st ← from_fill (Z.to_nat (fs_desired st - fs_inFlight st)) ch f st;
        if fs_inFlight st =? 0 then mret st
        else
          res ← receive ch;
          '(err, d) ← write_result res (fs_err st) (fs_desired st);
          ReadFrom_loop fuel ch f (mkFrom (fs_r st) (fs_inFlight st - 1) d (fs_offset st) err (fs_read st))
    end
  else mret st.

Definition File_ReadFrom (fuel : nat) f (r : R) : M C (File * R * Z * option client_error) :=
  ch ← make_chan;
  st ← ReadFrom_loop fuel ch f (mkFrom r 0 1 (f_offset f) None 0);
  let err := if bool_decide (fs_err st = Some io_EOF) then None else fs_err st in
  let read := match err with Some _ => 0 | None => fs_read st end in
  mret (set_offset f (u64 (f_offset f + read)), fs_r st, read, err).
End reader.

(** ** [WriteTo] *)
Section writer.
(** [w.Write] *)
Context {W : Type} (w_Write : list byte → W → (Z * option error) * W).

Record toState := mkTo {
  to_w : W;
  to_inFlight : Z;
  to_desired : Z;
  to_offset : Z;
  to_writeOffset : Z;
  to_reqs : gmap Z Z;
  to_pending : gmap Z (list byte);
  to_err : Z * option client_error;
  to_copied : Z
}.
Definition set_to_err (st : toState) (off : Z) (e : option client_error) : toState :=
  mkTo (to_w st) (to_inFlight st) (to_desired st) (to_offset st) (to_writeOffset st) (to_reqs st) (to_pending st)
    (off, e) (to_copied st).

(** Of an in-flight read only the offset is used. *)
Fixpoint to_fill (n : nat) (ch : nat) f (fileSize : Z) (st : toState) : M C toState :=
  match n with
  | O => mret st
  | S n =>
      if to_inFlight st + Z.of_nat (size (to_pending st)) <? to_desired st then
        mp ← get_maxPacket;
        reqID ← nextID;
        _ ← dispatchRequest ch reqID (sshFxpReadPacket_MarshalBinary reqID (u32 mp) (to_offset st) (f_handle f));
        let offset := u64 (to_offset st + mp) in
        to_fill n ch f fileSize
          (mkTo (to_w st) (to_inFlight st + 1) (if fileSize <? offset then 1 else to_desired st) offset
             (to_writeOffset st) (<[reqID := to_offset st]> (to_reqs st)) (to_pending st) (to_err st) (to_copied st))
      else mret st
  end.

(** The data that waited for what has just been written; it is not added to
    [copied]. *)
Fixpoint to_flush (n : nat) (st : toState) : toState :=
  match n with
  | O => st
  | S n =>
      match to_pending st !! to_writeOffset st with
      | None => st
      | Some pendingData =>
          let '((nbytes, err), w) := w_Write pendingData (to_w st) in
          let st' wo e := mkTo w (to_inFlight st) (to_desired st) (to_offset st) wo (to_reqs st)
                            (delete (to_writeOffset st) (to_pending st)) e (to_copied st) in
          match err with
          | Some e => st' (to_writeOffset st) (u64 (to_writeOffset st + nbytes), Some (EOther e))
          | None =>
              if nbytes <? zlen pendingData then
                st' (to_writeOffset st) (u64 (to_writeOffset st + nbytes), Some ErrShortWrite)
              else to_flush n (st' (u64 (to_writeOffset st + nbytes)) (to_err st))
          end
      end
  end.

Definition to_data (offset fileSize : Z) (data : list byte) (st : toState) : M C toState :=
  '(l, data) ← decode (unmarshalUint32 data);
  if offset =? to_writeOffset st then
    let '((nbytes, err), w) := w_Write data (to_w st) in
    let st' d wo e := mkTo w (to_inFlight st) d (to_offset st) wo (to_reqs st) (to_pending st) e
                        (i64 (to_copied st + nbytes)) in
    match err with
    | Some e => mret (st' (to_desired st) (to_writeOffset st) (u64 (offset + nbytes), Some (EOther e)))
    | None =>
        if nbytes <? l then mret (st' (to_desired st) (to_writeOffset st) (u64 (offset + nbytes), Some ErrShortWrite))
        else
          d ← (if fileSize <? to_offset st then mret 1 else bump (to_desired st));
          let st := st' d (u64 (to_writeOffset st + nbytes)) (to_err st) in
          mret (to_flush (size (to_pending st)) st)
    end
  else mret (mkTo (to_w st) (to_inFlight st) (to_desired st) (to_offset st) (to_writeOffset st) (to_reqs st)
               (<[offset := data]> (to_pending st)) (to_err st) (to_copied st)).

Definition to_result (fileSize : Z) (res : response) (st : toState) : M C toState :=
  let st := mkTo (to_w st) (to_inFlight st - 1) (to_desired st) (to_offset st) (to_writeOffset st) (to_reqs st)
              (to_pending st) (to_err st) (to_copied st) in
  match r_err res with
  | Some e => mret (set_to_err st 0 (Some e))
  | None =>
      '(reqID, data) ← decode (unmarshalUint32 (r_data res));
      match to_reqs st !! reqID with
      | None => mret (set_to_err st 0 (Some (sidNotFound reqID)))
      | Some offset =>
          let st := mkTo (to_w st) (to_inFlight st) (to_desired st) (to_offset st) (to_writeOffset st)
                      (delete reqID (to_reqs st)) (to_pending st) (to_err st) (to_copied st) in
          if r_typ res =? sshFxpStatus then
            if bool_decide ((to_err st).2 = None) || (offset <? (to_err st).1) then
              e ← status_error reqID (r_data res); mret (set_to_err st offset e)
            else mret st
          else if r_typ res =? sshFxpData then to_data offset fileSize data st
          else mret (set_to_err st 0 (Some (unimplementedPacketErr (r_typ res))))
      end
  end.

(** The state at the end, and whether the loop returned with
    [ErrInternalInconsistency]. *)
Fixpoint WriteTo_loop (fuel : nat) (ch : nat) f (fileSize : Z) (st : toState) : M C (toState * bool) :=
  if bool_decide ((to_err st).2 = None) || (0 <? to_inFlight st) then
    match fuel with
    | O => blocks
    | S fuel =>
        st ← (if bool_decide ((to_err st).2 = None) then to_fill (Z.to_nat (to_desired st)) ch f fileSize st
              else mret st);
        if to_inFlight st =? 0 then
          mret (st, bool_decide ((to_err st).2 = None) && (0 <? Z.of_nat (size (to_pending st))))
        else
          res ← receive ch;
          st ← to_result fileSize res st;
          WriteTo_loop fuel ch f fileSize st
    end
  else mret (st, false).

Definition WriteTo_size f : M C Z := λ c,
  if useFstat c then
    (fs ← Client_fstat (f_handle f);
     match fs with Some fs => mret (fs_Size fs) | None => panics end) c
  else
    (fi ← Client_Stat (f_path f);
     match fi with Some fi => mret (u64 (fi_Size fi)) | None => panics end) c.

(** The writer, the number of bytes copied and the error. *)
Definition File_WriteTo (fuel : nat) f (w : W) : M C (W * Z * option client_error) :=
  r ← attempt (WriteTo_size f);
  match r with
  | inr e => mret (w, 0, Some e)
  | inl fileSize =>
      ch ← make_chan;
      '(st, inconsistent) ← WriteTo_loop fuel ch f fileSize
        (mkTo w 0 1 (f_offset f) (f_offset f) ∅ ∅ (0, None) 0);
      if (inconsistent : bool) then mret (to_w st, to_copied st, Some ErrInternalInconsistency)
      else mret (to_w st, to_copied st,
             if bool_decide ((to_err st).2 = Some io_EOF) then None else (to_err st).2)
  end.
End writer.
End io.

(** ** Sums over the requests in flight *)
Definition msum {A} (g : A → Z) (m : gmap Z A) : Z := map_fold (λ _ r s, g r + s) 0 m.
Lemma msum_empty {A} (g : A → Z) : msum g ∅ = 0.
Proof. apply map_fold_empty. Qed.
Lemma msum_insert {A} (g : A → Z) m i r : m !! i = None → msum g (<[i := r]> m) = g r + msum g m.
Proof. intros. unfold msum. rewrite map_fold_insert_L; [done|intros; lia|done]. Qed.
Lemma msum_delete {A} (g : A → Z) m i r : m !! i = Some r → msum g m = g r + msum g (delete i m).
Proof. intros. unfold msum. rewrite (map_fold_delete_L _ _ i r m); [done|intros; lia|done]. Qed.
Lemma msum_size {A} (g : A → Z) m : (∀ i r, m !! i = Some r → 1 <= g r) → Z.of_nat (size m) <= msum g m.
Proof.
  induction m as [|i r m Hi IH] using map_ind; intros Hg.
  { rewrite msum_empty, map_size_empty. lia. }
  rewrite msum_insert, map_size_insert_None by done.
  pose proof (Hg i r (lookup_insert_eq _ _ _)). assert (Z.of_nat (size m) <= msum g m); [|lia].
  apply IH. intros j s Hj. apply (Hg j). rewrite lookup_insert_ne; [done|]. by intros ->; rewrite Hi in Hj.
Qed.

Lemma size_delete_present {A} (m : gmap Z A) i x : m !! i = Some x → Z.of_nat (size (delete i m)) = Z.of_nat (size m) - 1.
Proof.
  intros Hi. assert (size m ≠ 0%nat) by (intros E; apply map_size_empty_inv in E; by rewrite E in Hi).
  rewrite map_size_delete_Some by by exists x. lia.
Qed.

Lemma lookup_copy_at {A} o (src dst : list A) i : (o + length src <= length dst)%nat →
  copy_at o src dst !! i = if decide (o ≤ i < o + length src)%nat then src !! (i - o)%nat else dst !! i.
Proof.
  intros Hl. unfold copy_at. rewrite (take_ge src) by lia.
  destruct (decide (i < o)%nat).
  { rewrite lookup_app_l by (rewrite length_take; lia). rewrite lookup_take_lt by done. by rewrite decide_False by lia. }
  rewrite lookup_app_r by (rewrite length_take; lia). rewrite length_take, Nat.min_l by lia.
  destruct (decide (i < o + length src)%nat).
  { rewrite lookup_app_l by lia. by rewrite decide_True by lia. }
  rewrite lookup_app_r by lia. rewrite lookup_drop, decide_False by lia. f_equal. lia.
Qed.
Lemma length_copy_at {A} o (src dst : list A) : (o + length src <= length dst)%nat → length (copy_at o src dst) = length dst.
Proof. intros. unfold copy_at. rewrite !length_app, !length_take, length_drop. lia. Qed.

(** The answer to a request is a status: what the client makes of it. *)
Lemma status_error_spec {P} (c : Client P) id code msg lang : is_u32 id → is_u32 code →
  ∃ m l, status_error id (marshalUint32 [] id ++ marshalStatus [] {| se_Code := code; se_msg := msg; se_lang := lang |}) c
         = (Returns (normaliseError (EStatus code m l)), c).
Proof.
  intros Hid Hcode. unfold status_error, unmarshalStatus, marshalStatus. cbv zeta. simpl se_Code. simpl se_msg. simpl se_lang.
  rewrite (marshalString_app (marshalString _ _)), (marshalString_app (marshalUint32 _ _)), <- app_assoc.
  rewrite unmarshalUint32_marshal. cbn [mbind result_bind]. rewrite u32_id, Z.eqb_refl by done. cbn [negb].
  rewrite unmarshalUint32_marshal, u32_id by done. cbn [mbind result_bind].
  set (d := _ ++ _).
  assert (∀ d, ∃ s r, lenient EmptyString (unmarshalStringSafe d) = Ok (s, r)) as Hlen.
  { intros d'. unfold lenient. pose proof (unmarshalStringSafe_no_panic d'). destruct (unmarshalStringSafe d') as [[]| |]; eauto; done. }
  destruct (Hlen d) as (m & r & ->). cbn [mbind result_bind]. destruct (Hlen r) as (l & r' & ->).
  exists m, l. reflexivity.
Qed.

(** The packets of a set of requests. *)
Definition tracked (pk : Z → inflightRead → requestPacket) (reqs : gmap Z inflightRead) : gmap Z requestPacket :=
  map_imap (λ id r, Some (pk id r)) reqs.
Lemma tracked_insert pk reqs id r : tracked pk (<[id := r]> reqs) = <[id := pk id r]> (tracked pk reqs).
Proof. apply (map_imap_insert_Some (λ id r, Some (pk id r))). done. Qed.
Lemma tracked_delete pk reqs id : tracked pk (delete id reqs) = delete id (tracked pk reqs).
Proof. apply map_imap_delete. Qed.
Lemma lookup_tracked pk reqs id : tracked pk reqs !! id = pk id <$> reqs !! id.
Proof. unfold tracked. rewrite map_lookup_imap. by destruct (reqs !! id). Qed.
Lemma tracked_nonempty pk reqs : reqs ≠ ∅ → tracked pk reqs ≠ ∅.
Proof.
  intros Hne E. apply Hne, map_eq. intros i. rewrite lookup_empty.
  assert (tracked pk reqs !! i = None) as Hi by by rewrite E. rewrite lookup_tracked in Hi. by destruct (reqs !! i).
Qed.

(** The bytes a request in flight will deal with. *)
Definition covered (reqs : gmap Z inflightRead) (i : nat) : Prop :=
  ∃ id r, reqs !! id = Some r ∧ ir_pos r <= Z.of_nat i < ir_pos r + ir_len r.
Definition disjoint_slices (reqs : gmap Z inflightRead) : Prop :=
  ∀ id1 id2 r1 r2, id1 ≠ id2 → reqs !! id1 = Some r1 → reqs !! id2 = Some r2 →
    ir_pos r1 + ir_len r1 <= ir_pos r2 ∨ ir_pos r2 + ir_len r2 <= ir_pos r1.
Lemma covered_insert (reqs : gmap Z inflightRead) id r i : reqs !! id = None →
  covered (<[id := r]> reqs) i ↔ ir_pos r <= Z.of_nat i < ir_pos r + ir_len r ∨ covered reqs i.
Proof.
  intros Hid. unfold covered. split.
  - intros (j & s & Hj & Hs). apply lookup_insert_Some in Hj as [[<- <-]|[_ Hj]]; [by left|right; by exists j, s].
  - intros [Hr|(j & s & Hj & Hs)]; [exists id, r; by rewrite lookup_insert_eq|].
    exists j, s. rewrite lookup_insert_ne; [done|]. by intros ->; rewrite Hid in Hj.
Qed.

Lemma covered_delete (reqs : gmap Z inflightRead) id r i :
  disjoint_slices reqs → reqs !! id = Some r →
  covered (delete id reqs) i ↔ covered reqs i ∧ ¬ (ir_pos r <= Z.of_nat i < ir_pos r + ir_len r).
Proof.
  intros Hd Hr. unfold covered. split.
  - intros (j & s & Hj & Hs). apply lookup_delete_Some in Hj as [Hne Hj]. split; [by exists j, s|].
    destruct (Hd id j r s Hne Hr Hj); lia.
  - intros [(j & s & Hj & Hs) Hn]. exists j, s. rewrite lookup_delete_ne; [done|]. intros ->. congruence.
Qed.

(** ** [ReadAt] reads the file *)
Section read_at.
Context {P A : Type} `{PeerSpec P A} (f : File).
Implicit Types (c : Client P) (st : readState) (reqs : gmap Z inflightRead).

(** The server reads [F] for the handle: from an offset inside of the file it
    sends one byte or more, at most as many as are asked for, and at the end of
    the file the status for it. *)
Definition accepts_reads (h : string) : Prop :=
  ∀ id l o, is_request (sshFxpReadPacket id l o h) → o < 2 ^ 63 → accepts (sshFxpReadPacket id l o h).
Definition reads_file (h : string) (F : list byte) (holds : A → Prop) : Prop :=
  accepts_reads h ∧ ∀ id l o a x a', holds a → 1 <= l → 0 <= o → answer (sshFxpReadPacket id l o h) a x a' →
    holds a' ∧
    if zlen F <=? o then ∃ msg lang, x = sshFxpStatusPacket id {| se_Code := sshFxEOF; se_msg := msg; se_lang := lang |}
    else ∃ data, x = sshFxpDataPacket id (zlen data) data ∧ 1 <= zlen data <= l
                 ∧ data = take (length data) (drop (Z.to_nat o) F).

Definition read_packet (id : Z) (r : inflightRead) : requestPacket :=
  sshFxpReadPacket id (ir_len r) (ir_offset r) (f_handle f).

Lemma read_sendReq_spec ch c st pos len offset :
  tracks ch c (tracked read_packet (ra_reqs st)) → (∀ id r, ra_reqs st !! id = Some r → id <= nextid c) →
  0 <= nextid c → nextid c + 1 < 2 ^ 32 → is_u32 len → 0 <= offset < 2 ^ 63 → slen (f_handle f) <= 256 → accepts_reads (f_handle f) →
  let id := nextid c + 1 in
  ∃ c', read_sendReq ch f pos len offset st c =
      (Returns (mkRead (ra_buf st) (ra_pos st) (ra_inFlight st + 1) (ra_desired st) (ra_offset st)
                  (<[id := mkInflight pos len offset]> (ra_reqs st)) (ra_err st) (ra_read st)), c')
    ∧ tracks ch c' (tracked read_packet (<[id := mkInflight pos len offset]> (ra_reqs st)))
    ∧ ra_reqs st !! id = None
    ∧ server (peer c') = server (peer c) ∧ same_config c c' ∧ nextid c' = id.
Proof.
  intros Ht Hids H0n Hn Hl Ho Hh Hacc id.
  assert (u32 (nextid c + 1) = id) as Hid by (apply u32_id; unfold is_u32; lia).
  assert (ra_reqs st !! id = None) as Hfresh.
  { destruct (ra_reqs st !! id) as [r|] eqn:E; [|done]. apply Hids in E. unfold id in E. lia. }
  assert (tracks ch (set_nextid id c) (tracked read_packet (ra_reqs st))) as Ht' by (destruct Ht; by split).
  destruct (dispatch_tracks ch (set_nextid id c) (tracked read_packet (ra_reqs st)) id (read_packet id (mkInflight pos len offset)) Ht')
    as (Hd & Hs & Hc & Hn').
  - by rewrite lookup_tracked, Hfresh.
  - done.
  - apply Hacc; [simpl; unfold is_u32, is_u64, id in *; split_and!; try lia; done|simpl; lia].
  - simpl. unfold sshFxpReadPacket_MarshalBinary. cbv zeta. wire_norm. cbn [app].
    rewrite zlen_cons, !zlen_app, !zlen_marshalUint32, zlen_marshalUint64, zlen_marshalString. unfold maxMsgLength. lia.
  - eexists. split.
    { unfold read_sendReq, nextID, dispatchRequest, mbind, M_bind, mret, M_ret. cbv zeta beta iota. rewrite Hid, u32_id by done. reflexivity. }
    rewrite tracked_insert. split_and!; try done.
Qed.

Context (F : list byte) (holds : A → Prop) (off0 : Z) (B : list byte).
Context (Hserver : reads_file (f_handle f) F holds).
Context (Hhandle : slen (f_handle f) <= 256) (Hoff0 : 0 <= off0) (Hrange : off0 + zlen B < 2 ^ 63).

(** How much of the buffer there is data for, and how much of a slice. *)
Abbreviation avail := (Z.max 0 (zlen F - off0)).
Definition in_file (r : inflightRead) : Z := Z.min (ir_pos r + ir_len r) avail - Z.min (ir_pos r) avail.

Record read_inv (ch : nat) (c : Client P) (st : readState) : Prop := {
  ri_tracks : tracks ch c (tracked read_packet (ra_reqs st));
  ri_holds : holds (server (peer c));
  ri_packet : 1 <= maxPacket c < 2 ^ 32;
  ri_length : length (ra_buf st) = length B;
  ri_pos : 0 <= ra_pos st <= zlen B;
  ri_offset : ra_offset st = off0 + ra_pos st;
  ri_inFlight : ra_inFlight st = Z.of_nat (size (ra_reqs st));
  ri_reqs : ∀ id r, ra_reqs st !! id = Some r →
    0 <= id <= nextid c ∧ 1 <= ir_len r ∧ 0 <= ir_pos r ∧ ir_pos r + ir_len r <= ra_pos st ∧ ir_offset r = off0 + ir_pos r;
  ri_disjoint : disjoint_slices (ra_reqs st);
  ri_done : ∀ i : nat, Z.of_nat i < ra_pos st → Z.of_nat i < avail → ¬ covered (ra_reqs st) i →
    ra_buf st !! i = F !! (Z.to_nat off0 + i)%nat;
  ri_rest : ∀ i : nat, ra_pos st <= Z.of_nat i ∨ avail <= Z.of_nat i ∨ covered (ra_reqs st) i →
    ra_buf st !! i = B !! i;
  ri_read : ra_read st + msum in_file (ra_reqs st) = Z.min (ra_pos st) avail;
  ri_err : ((ra_err st).2 = None ∧ ra_read st + msum ir_len (ra_reqs st) = ra_pos st)
           ∨ ((ra_err st).2 = Some io_EOF ∧ avail < ra_pos st);
  ri_desired : 1 <= ra_desired st;
  ri_ids : 0 <= nextid c ∧
    nextid c + (zlen B - ra_pos st) + msum ir_len (ra_reqs st) - Z.of_nat (size (ra_reqs st)) < 2 ^ 32
}.

(** What is still to come: the bytes that are not requested or not answered. *)
Definition read_measure (st : readState) : Z := zlen B - ra_pos st + msum ir_len (ra_reqs st).

Lemma read_inv_sum ch c st : read_inv ch c st → Z.of_nat (size (ra_reqs st)) <= msum ir_len (ra_reqs st).
Proof. intros Hi. apply msum_size. intros id r Hr. by apply (ri_reqs _ _ _ Hi) in Hr as (? & ? & _). Qed.

(** Requesting one more slice. *)
Lemma read_inv_send ch c st l : read_inv ch c st → (ra_err st).2 = None → 1 <= l → ra_pos st + l <= zlen B → l < 2 ^ 32 →
  ∃ c' st1, read_sendReq ch f (ra_pos st) l (ra_offset st) st c = (Returns st1, c')
    ∧ let st' := mkRead (ra_buf st1) (ra_pos st1 + l) (ra_inFlight st1) (ra_desired st1) (u64 (ra_offset st1 + l))
                   (ra_reqs st1) (ra_err st1) (ra_read st1) in
      read_inv ch c' st' ∧ read_measure st' = read_measure st ∧ ra_inFlight st' = ra_inFlight st + 1 ∧ ra_desired st' = ra_desired st
      ∧ ra_err st' = ra_err st.
Proof.
  intros Hi He Hl Hfit Hl32. pose proof (read_inv_sum _ _ _ Hi) as Hsum. destruct Hi. destruct ri_ids0 as [Hn0 Hids].
  assert (0 <= ra_offset st < 2 ^ 63) by lia.
  destruct (read_sendReq_spec ch c st (ra_pos st) l (ra_offset st)) as (c' & E & Ht & Hfresh & Hs & Hc & Hn);
    [done|intros id r Hr; apply ri_reqs0 in Hr; lia|lia|lia|unfold is_u32; lia|done|done|apply Hserver|].
  exists c'. eexists. split; [exact E|]. cbv zeta. simpl. split; [|unfold read_measure; simpl; rewrite msum_insert by done; simpl; split_and!; done || lia].
  destruct ri_err0 as [[_ Hacc]|[He' _]]; [|congruence].
  split; simpl; try done.
  - by rewrite Hs.
  - by destruct Hc as [-> _].
  - lia.
  - rewrite u64_id by (unfold is_u64; lia). lia.
  - rewrite map_size_insert_None by done. lia.
  - intros id r. rewrite lookup_insert_Some. intros [[<- <-]|[_ Hr]]; simpl; [lia|]. apply ri_reqs0 in Hr. lia.
  - intros id1 id2 r1 r2 Hne. rewrite !lookup_insert_Some.
    intros [[<- <-]|[_ Hr1]] [[? <-]|[_ Hr2]]; simpl; [congruence|apply ri_reqs0 in Hr2; lia|apply ri_reqs0 in Hr1; lia|by eapply ri_disjoint0].
  - intros i Hi1 Hi2 Hcov. rewrite covered_insert in Hcov by done. simpl in Hcov. apply ri_done0; [lia|done|tauto].
  - intros i. rewrite covered_insert by done. simpl. intros Hi1. apply ri_rest0.
    destruct Hi1 as [?|[?|[?|?]]]; [left; lia|tauto|left; lia|tauto].
  - rewrite msum_insert by done. unfold in_file at 1. simpl. lia.
  - left. split; [done|]. rewrite msum_insert by done. simpl. lia.
  - rewrite msum_insert, map_size_insert_None by done. simpl. lia.
Qed.

Lemma read_fill_spec ch n c st : read_inv ch c st → (n <= Z.to_nat (ra_desired st - ra_inFlight st))%nat →
  ∃ c' st', read_fill n ch f st c = (Returns st', c') ∧ read_inv ch c' st' ∧ read_measure st' = read_measure st
    ∧ (n ≠ 0%nat → (ra_err st).2 = None → 0 < zlen (ra_buf st) - ra_pos st → ra_inFlight st' ≠ 0)
    ∧ (ra_inFlight st ≠ 0 → ra_inFlight st' ≠ 0) ∧ (ra_err st').2 = (ra_err st).2.
Proof.
  revert c st. induction n as [|n IH]; intros c st Hi Hn; simpl; [by eauto 10|].
  assert (zlen (ra_buf st) = zlen B) as Hbl by (unfold zlen; by rewrite (ri_length _ _ _ Hi)).
  destruct (Z.ltb_spec 0 (zlen (ra_buf st) - ra_pos st)) as [Hr|]; [|exists c, st; split_and!; done || lia].
  case_bool_decide as He; [|exists c, st; split_and!; done]. simpl.
  pose proof (ri_packet _ _ _ Hi). unfold mbind at 1, M_bind at 1, get_maxPacket at 1. cbv beta iota.
  set (l := min (zlen (ra_buf st) - ra_pos st) (maxPacket c)).
  assert (1 <= l ∧ l <= zlen (ra_buf st) - ra_pos st ∧ l <= maxPacket c) as (? & ? & ?).
  { unfold l, min. destruct (Z.ltb_spec (maxPacket c) (zlen (ra_buf st) - ra_pos st)); lia. }
  destruct (read_inv_send ch c st l Hi He) as (c1 & st1 & E & Hi1 & Hm & Hf & Hd & He1); [lia..|].
  unfold mbind, M_bind. rewrite E. simpl in Hf, Hd, He1.
  destruct (IH c1 _ Hi1) as (c' & st' & E' & Hi' & Hm' & _ & Hnz & He'); [simpl; lia|]. exists c', st'.
  pose proof (ri_inFlight _ _ _ Hi). assert (ra_inFlight st' ≠ 0) by (apply Hnz; simpl; lia).
  split_and!; try done; [congruence|]. simpl in He'. by rewrite He', He1.
Qed.

(** The state when an answer has been taken from the channel. *)
Definition taken (st : readState) (id : Z) : readState :=
  mkRead (ra_buf st) (ra_pos st) (ra_inFlight st - 1) (ra_desired st) (ra_offset st) (delete id (ra_reqs st))
    (ra_err st) (ra_read st).

Lemma read_measure_taken st id r : ra_reqs st !! id = Some r → read_measure (taken st id) = read_measure st - ir_len r.
Proof. intros Hr. unfold read_measure, taken. simpl. rewrite (msum_delete _ _ id r Hr). lia. Qed.

Lemma read_inv_eof ch c c' st id r off :
  read_inv ch c st → ra_reqs st !! id = Some r → zlen F <= ir_offset r →
  tracks ch c' (tracked read_packet (delete id (ra_reqs st))) → holds (server (peer c')) → same_config c c' → nextid c' = nextid c →
  read_inv ch c' (set_read_err (taken st id) off (Some io_EOF)).
Proof.
  intros Hi Hr Heof Ht Hs [Hmp _] Hn. pose proof (read_inv_sum _ _ _ Hi) as Hsum. destruct Hi.
  destruct (ri_reqs0 id r Hr) as (? & ? & ? & ? & ?).
  rewrite (msum_delete _ _ id r Hr) in *. pose proof (size_delete_present _ _ _ Hr) as Hsz.
  split; simpl; try done; rewrite ?Hmp, ?Hn; try done.
  - lia.
  - intros i s Hj. apply lookup_delete_Some in Hj as [_ Hj]. by apply ri_reqs0.
  - intros i1 i2 r1 r2 Hne Hj1 Hj2. apply lookup_delete_Some in Hj1 as [_ ?]. apply lookup_delete_Some in Hj2 as [_ ?].
    by eapply ri_disjoint0.
  - intros i ? ? Hcov. rewrite covered_delete in Hcov by done. apply ri_done0; [done|done|].
    intros Hc. apply Hcov. split; [done|lia].
  - intros i. rewrite covered_delete by done. intros Hj. apply ri_rest0. tauto.
  - rewrite (msum_delete _ _ id r Hr) in ri_read0. unfold in_file at 1 in ri_read0. lia.
  - right. split; [done|lia].
  - lia.
Qed.

(** The buffer with the data of a slice in it. *)
Lemma copied_lookup buf p n data : data = take (length data) (drop (Z.to_nat (off0 + p)) F) → zlen data = n →
  0 <= p → p + n <= zlen buf →
  let buf' := copy_at (Z.to_nat p) data buf in
  length buf' = length buf
  ∧ (n = 0 ∨ p + n <= avail)
  ∧ (∀ i : nat, p <= Z.of_nat i < p + n → buf' !! i = F !! (Z.to_nat off0 + i)%nat)
  ∧ (∀ i : nat, ¬ (p <= Z.of_nat i < p + n) → buf' !! i = buf !! i).
Proof.
  intros Hd Hn Hp Hfit. unfold zlen in *. cbv zeta. split_and!.
  - apply length_copy_at. lia.
  - apply (f_equal length) in Hd. rewrite length_take, length_drop in Hd. lia.
  - intros i Hi. rewrite lookup_copy_at by lia. rewrite decide_True by lia.
    rewrite Hd, lookup_take_lt by lia. rewrite lookup_drop. f_equal. lia.
  - intros i Hi. rewrite lookup_copy_at by lia. by rewrite decide_False by lia.
Qed.

(** The requests when [n] bytes of the slice [r] have arrived: the rest of it,
    if there is one, is requested again. *)
Definition advanced (c : Client P) st id r n reqs' (next : Z) : Prop :=
  (reqs' = delete id (ra_reqs st) ∧ n = ir_len r ∧ next = nextid c)
  ∨ (reqs' = <[nextid c + 1 := mkInflight (ir_pos r + n) (ir_len r - n) (ir_offset r + n)]> (delete id (ra_reqs st))
     ∧ n < ir_len r ∧ next = nextid c + 1).

Lemma advanced_fresh ch c st id : read_inv ch c st → delete id (ra_reqs st) !! (nextid c + 1) = None.
Proof.
  intros Hi. destruct (delete id (ra_reqs st) !! (nextid c + 1)) as [s|] eqn:E; [|done].
  apply lookup_delete_Some in E as [_ E]. apply (ri_reqs _ _ _ Hi) in E. lia.
Qed.

Lemma advanced_sums ch c st id r n reqs' next : read_inv ch c st → ra_reqs st !! id = Some r → 1 <= n → ir_pos r + n <= avail →
  advanced c st id r n reqs' next →
  msum ir_len reqs' = msum ir_len (ra_reqs st) - n ∧ msum in_file reqs' = msum in_file (ra_reqs st) - n
  ∧ next - Z.of_nat (size reqs') <= nextid c - Z.of_nat (size (ra_reqs st)) + n.
Proof.
  intros Hi Hr Hn Hav Hadv. pose proof (size_delete_present _ _ _ Hr) as Hsz.
  rewrite (msum_delete ir_len _ id r Hr), (msum_delete in_file _ id r Hr).
  assert (in_file r = Z.min (ir_pos r + ir_len r) avail - ir_pos r) as -> by (unfold in_file; lia).
  destruct Hadv as [(-> & -> & ->)|(-> & Hlt & ->)]; [lia|].
  pose proof (advanced_fresh _ _ _ id Hi) as Hf. rewrite !msum_insert, map_size_insert_None by done. simpl.
  unfold in_file at 1. simpl. lia.
Qed.

Lemma advanced_slices ch c st id r n reqs' next : read_inv ch c st → ra_reqs st !! id = Some r → 1 <= n <= ir_len r →
  advanced c st id r n reqs' next →
  (∀ i s, reqs' !! i = Some s →
     0 <= i <= next ∧ 1 <= ir_len s ∧ 0 <= ir_pos s ∧ ir_pos s + ir_len s <= ra_pos st ∧ ir_offset s = off0 + ir_pos s)
  ∧ disjoint_slices reqs'
  ∧ (∀ i, covered reqs' i ↔ covered (ra_reqs st) i ∧ ¬ (ir_pos r <= Z.of_nat i < ir_pos r + n)).
Proof.
  intros Hi Hr Hn Hadv. pose proof (advanced_fresh _ _ _ id Hi) as Hf.
  pose proof (ri_reqs _ _ _ Hi) as Hreqs. pose proof (ri_disjoint _ _ _ Hi) as Hdis. pose proof (Hreqs id r Hr) as Hrr.
  assert (∀ i s, delete id (ra_reqs st) !! i = Some s → i ≠ id ∧ ra_reqs st !! i = Some s) as Hdel.
  { intros i s Hs. apply lookup_delete_Some in Hs as [? ?]. done. }
  destruct Hadv as [(-> & -> & ->)|(-> & Hlt & ->)]; split_and!.
  - intros i s Hs. apply Hdel in Hs as [_ Hs]. by apply Hreqs.
  - intros i1 i2 r1 r2 Hne Hs1 Hs2. apply Hdel in Hs1 as [_ ?]. apply Hdel in Hs2 as [_ ?]. by eapply Hdis.
  - intros i. by apply covered_delete.
  - intros i s. rewrite lookup_insert_Some. intros [[<- <-]|[_ Hs]]; simpl; [lia|].
    apply Hdel in Hs as [_ Hs]. apply Hreqs in Hs. lia.
  - intros i1 i2 r1 r2 Hne. rewrite !lookup_insert_Some.
    intros [[<- <-]|[_ Hs1]] [[? <-]|[_ Hs2]]; simpl; [congruence|..].
    + apply Hdel in Hs2 as [? Hs2]. destruct (Hdis _ _ _ _ ltac:(done) Hs2 Hr); lia.
    + apply Hdel in Hs1 as [? Hs1]. destruct (Hdis _ _ _ _ ltac:(done) Hs1 Hr); lia.
    + apply Hdel in Hs1 as [_ ?]. apply Hdel in Hs2 as [_ ?]. by eapply Hdis.
  - intros i. rewrite covered_insert by done. simpl. rewrite (covered_delete _ id r) by done. split.
    + intros [Hin|[Hc Hout]]; [split; [exists id, r; split; [done|lia]|lia]|split; [done|lia]].
    + intros [Hc Hout]. destruct (decide (Z.of_nat i < ir_pos r + ir_len r ∧ ir_pos r <= Z.of_nat i)); [left; lia|right; split; [done|lia]].
Qed.

Lemma read_inv_data ch c c' st id r data reqs' d :
  let n := zlen data in
  read_inv ch c st → ra_reqs st !! id = Some r → 1 <= n <= ir_len r →
  data = take (length data) (drop (Z.to_nat (ir_offset r)) F) →
  advanced c st id r n reqs' (nextid c') → tracks ch c' (tracked read_packet reqs') → holds (server (peer c')) → same_config c c' → 1 <= d →
  let st' := mkRead (copy_at (Z.to_nat (ir_pos r)) data (ra_buf st)) (ra_pos st) (Z.of_nat (size reqs')) d (ra_offset st)
               reqs' (ra_err st) (ra_read st + n) in
  read_inv ch c' st' ∧ read_measure st' = read_measure st - n.
Proof.
  intros n Hi Hr Hn Hdata Hadv Ht Hs [Hmp _] Hd. destruct (ri_reqs _ _ _ Hi id r Hr) as (? & ? & ? & ? & Hoff).
  assert (zlen (ra_buf st) = zlen B) as Hbl by (unfold zlen; by rewrite (ri_length _ _ _ Hi)). pose proof (ri_pos _ _ _ Hi).
  rewrite Hoff in Hdata. destruct (copied_lookup (ra_buf st) (ir_pos r) n data Hdata) as (Hlen & Hav & Hin & Hout); [done|lia|lia|].
  assert (ir_pos r + n <= avail) as Hav' by lia.
  destruct (advanced_sums _ _ _ _ _ _ _ _ Hi Hr (proj1 Hn) Hav' Hadv) as (Hsl & Hsf & Hsn).
  destruct (advanced_slices _ _ _ _ _ _ _ _ Hi Hr Hn Hadv) as (Hreqs' & Hdis' & Hcov').
  cbv zeta. split; [|unfold read_measure; simpl; lia]. destruct Hi. split; simpl; try done; rewrite ?Hmp; try done.
  - by rewrite Hlen.
  - intros i Hi1 Hi2 Hc. destruct (decide (ir_pos r <= Z.of_nat i < ir_pos r + n)) as [Hin'|Hout']; [by apply Hin|].
    rewrite Hout by done. apply ri_done0; [done|done|]. intros Hc'. apply Hc, Hcov'. done.
  - intros i Hi1. assert (¬ (ir_pos r <= Z.of_nat i < ir_pos r + n)) as Hno.
    { rewrite Hcov' in Hi1. intros Hin'. destruct Hi1 as [?|[?|[_ ?]]]; [lia|lia|tauto]. }
    rewrite Hout by done. apply ri_rest0. rewrite Hcov' in Hi1. tauto.
  - lia.
  - destruct ri_err0 as [[-> ?]|[-> ?]]; [left; split; [done|lia]|right; done].
  - split; [|lia]. destruct Hadv as [(_ & _ & ->)|(_ & _ & ->)]; lia.
Qed.

(** Computes with the fields of a state. *)
Ltac read_fields := cbv beta iota zeta; cbn [ra_buf ra_pos ra_inFlight ra_desired ra_offset ra_reqs ra_err ra_read].

Lemma bump_spec d c : ∃ d', bump d c = (Returns d', c) ∧ d <= d'.
Proof. unfold bump. eexists. split; [reflexivity|]. case_match; lia. Qed.

(** A DATA packet: what [read_data] leaves. *)
Lemma read_data_spec ch c c1 st id r data : read_inv ch c st → ra_reqs st !! id = Some r →
  1 <= zlen data <= ir_len r → data = take (length data) (drop (Z.to_nat (ir_offset r)) F) →
  tracks ch c1 (tracked read_packet (delete id (ra_reqs st))) → holds (server (peer c1)) → same_config c c1 → nextid c1 = nextid c →
  ir_len r < 2 ^ 32 →
  ∃ st' c', read_data ch f r (marshalUint32 [] (zlen data) ++ data) (taken st id) c1 = (Returns st', c')
    ∧ read_inv ch c' st' ∧ read_measure st' < read_measure st.
Proof.
  intros Hi Hr Hn Hdata Ht Hs Hc Hnx H32. pose proof (ri_ids _ _ _ Hi) as [Hn0 Hids]. pose proof (ri_pos _ _ _ Hi).
  destruct (ri_reqs _ _ _ Hi id r Hr) as (? & ? & ? & ? & Hoff). pose proof (size_delete_present _ _ _ Hr) as Hsz.
  assert (Z.of_nat (size (delete id (ra_reqs st))) <= msum ir_len (delete id (ra_reqs st))) as Hms.
  { apply msum_size. intros i s Hs'. apply lookup_delete_Some in Hs' as [_ Hs']. by apply (ri_reqs _ _ _ Hi) in Hs' as (_ & ? & _). }
  rewrite (msum_delete ir_len _ id r Hr) in Hids.
  unfold read_data. unfold mbind at 1, M_bind at 1. unfold decode at 1. rewrite unmarshalUint32_marshal, u32_id by (unfold is_u32; lia).
  rewrite Z.ltb_irrefl. assert (min (ir_len r) (zlen data) = zlen data) as -> by (unfold min; destruct (Z.ltb_spec (zlen data) (ir_len r)); lia).
  rewrite take_zlen. unfold taken. read_fields.
  destruct (Z.ltb_spec (zlen data) (ir_len r)) as [Hlt|Hge].
  - match goal with |- context [read_sendReq ch f ?p ?l ?o ?s] =>
      destruct (read_sendReq_spec ch c1 s p l o) as (c' & E & Ht' & Hf & Hs' & Hc' & Hn') end;
      [done|intros i s Hj; simpl in Hj; apply lookup_delete_Some in Hj as [_ Hj]; apply (ri_reqs _ _ _ Hi) in Hj; lia
      |lia|lia|unfold is_u32; lia|rewrite u64_id by (unfold is_u64; lia); lia|done|apply Hserver|].
    rewrite u64_id in * by (unfold is_u64; lia). simpl in E, Ht', Hn'. unfold mbind, M_bind. rewrite E. read_fields.
    destruct (bump_spec (ra_desired st) c') as (d' & -> & Hd').
    edestruct (read_inv_data ch c c' st id r data) as [Hi' Hm']; [done|done|done|done| |exact Ht'|by rewrite Hs'|by eapply same_config_trans
      |apply (Z.le_trans _ _ _ (ri_desired _ _ _ Hi) Hd')|].
    { right. by rewrite Hn', Hnx. }
    eexists _, c'. split; [reflexivity|]. rewrite map_size_insert_None in Hi', Hm' by exact Hf.
    rewrite Nat2Z.inj_succ, Hsz, <- (ri_inFlight _ _ _ Hi) in Hi', Hm'. simpl. unfold Z.succ in *. split; [exact Hi'|lia].
  - assert (zlen data = ir_len r) as Hlen by lia. unfold mbind, M_bind, mret, M_ret. read_fields.
    destruct (bump_spec (ra_desired st) c1) as (d' & -> & Hd').
    edestruct (read_inv_data ch c c1 st id r data (delete id (ra_reqs st)) d') as [Hi' Hm']; [done|done|done|done
      |left; done|done|done|done|pose proof (ri_desired _ _ _ Hi); lia|].
    eexists _, c1. split; [reflexivity|]. rewrite Hsz, <- (ri_inFlight _ _ _ Hi) in Hi', Hm'. split; [exact Hi'|lia].
Qed.

Lemma read_round ch c st : read_inv ch c st → ra_reqs st ≠ ∅ → zlen B < 2 ^ 32 →
  ∃ res c1 st' c', receive ch c = (Returns res, c1) ∧ read_result ch f res st c1 = (Returns st', c')
    ∧ read_inv ch c' st' ∧ read_measure st' < read_measure st.
Proof.
  intros Hi Hne HB. pose proof (ri_reqs _ _ _ Hi) as Hreqs. pose proof (ri_ids _ _ _ Hi) as [Hn0 Hids].
  pose proof (read_inv_sum _ _ _ Hi) as Hsum. pose proof (ri_pos _ _ _ Hi).
  destruct (receive_tracks ch c (tracked read_packet (ra_reqs st))) as (id & p & x & c1 & Hlook & Ha & Hwf & Hid & Hrec & Ht & Hc & Hnx).
  { apply Hi. }
  { by apply tracked_nonempty. }
  { intros i q. rewrite lookup_tracked. destruct (ra_reqs st !! i) as [s|] eqn:Es; [|done]. intros _.
    apply Hreqs in Es. unfold is_u32. lia. }
  rewrite lookup_tracked in Hlook. destruct (ra_reqs st !! id) as [r|] eqn:Hr; [|done]. injection Hlook as <-.
  rewrite <- tracked_delete in Ht. destruct (Hreqs id r Hr) as (? & ? & ? & ? & Hoff).
  destruct (proj2 Hserver id (ir_len r) (ir_offset r) _ _ _ (ri_holds _ _ _ Hi) ltac:(lia) ltac:(lia) Ha) as [Hs Hx].
  eexists _, c1. pose proof (read_measure_taken st id r Hr) as Hmt.
  assert (∀ res st' c', r_err res = None → r_data res = marshalUint32 [] id ++ response_body x →
    (if r_typ res =? sshFxpStatus then
       if bool_decide ((ra_err (taken st id)).2 = None) || (ir_offset r <? (ra_err (taken st id)).1) then
         e ← status_error id (r_data res); mret (set_read_err (taken st id) (ir_offset r) e)
       else mret (taken st id)
     else if r_typ res =? sshFxpData then read_data ch f r (response_body x) (taken st id)
     else mret (set_read_err (taken st id) 0 (Some (unimplementedPacketErr (r_typ res))))) c1 = (Returns st', c') →
    read_result ch f res st c1 = (Returns st', c')) as Hres.
  { intros res st' c' He Hd E. unfold read_result. cbv zeta. rewrite He, Hd. unfold mbind at 1, M_bind at 1, decode at 1.
    rewrite unmarshalUint32_marshal, u32_id by (unfold is_u32; lia). read_fields. rewrite Hr, <- Hd. exact E. }
  destruct (Z.leb_spec (zlen F) (ir_offset r)) as [Heof|Hin].
  - destruct Hx as (msg & lang & ->).
    destruct (bool_decide ((ra_err (taken st id)).2 = None) || (ir_offset r <? (ra_err (taken st id)).1)) eqn:Ecase.
    + exists (set_read_err (taken st id) (ir_offset r) (Some io_EOF)), c1. split; [exact Hrec|]. split.
      { apply Hres; [done|done|]. cbn [r_typ response_type]. rewrite Z.eqb_refl. cbn [r_data response_body response_id].
        destruct (status_error_spec c1 id sshFxEOF msg lang) as (m & l & E); [unfold is_u32; lia|done|].
        unfold mbind, M_bind. rewrite E. reflexivity. }
      split; [by eapply read_inv_eof|]. change (read_measure (set_read_err (taken st id) (ir_offset r) (Some io_EOF))) with (read_measure (taken st id)). lia.
    + eexists _, c1. split; [exact Hrec|]. split; [apply Hres; [done|done|]; cbn [r_typ response_type]; by rewrite Z.eqb_refl|].
      split; [|lia]. replace (taken st id) with (set_read_err (taken st id) (ra_err st).1 (Some io_EOF)); [by eapply read_inv_eof|].
      apply orb_false_iff in Ecase as [Ecase _]. apply bool_decide_eq_false in Ecase. simpl in Ecase.
      unfold set_read_err, taken. simpl. destruct (ri_err _ _ _ Hi) as [[? _]|[E _]]; [done|]. destruct (ra_err st). simpl in *. by subst.
  - destruct Hx as (data & -> & Hn & Hdata).
    destruct (read_data_spec ch c c1 st id r data) as (st' & c' & E & Hi' & Hm'); try done; [lia|].
    exists st', c'. split; [exact Hrec|]. split; [by apply Hres|done].
Qed.

(** Before an answer is awaited. *)
Lemma read_fill_round ch c st : read_inv ch c st → 0 < zlen B - ra_pos st ∨ 0 < ra_inFlight st →
  ∃ st1 c1, read_fill (Z.to_nat (ra_desired st - ra_inFlight st)) ch f st c = (Returns st1, c1)
    ∧ read_inv ch c1 st1 ∧ read_measure st1 = read_measure st ∧ (ra_inFlight st1 = 0 → (ra_err st1).2 ≠ None).
Proof.
  intros Hi Hmore. pose proof (ri_desired _ _ _ Hi). pose proof (ri_inFlight _ _ _ Hi).
  assert (zlen (ra_buf st) = zlen B) as Hbl by (unfold zlen; by rewrite (ri_length _ _ _ Hi)).
  destruct (read_fill_spec ch (Z.to_nat (ra_desired st - ra_inFlight st)) c st Hi (le_n _))
    as (c1 & st1 & E & Hi1 & Hm1 & Hsend & Hkeep & He).
  exists st1, c1. split_and!; [done..|]. intros Hz. rewrite He. intros Hn.
  destruct (decide (ra_inFlight st = 0)) as [Hz0|Hz0]; [|by apply Hkeep]. by apply Hsend; [lia|done|lia|].
Qed.

Lemma ReadAt_loop_spec ch fuel c st : read_inv ch c st → zlen B < 2 ^ 32 → read_measure st <= Z.of_nat fuel →
  ∃ st' c', ReadAt_loop fuel ch f st c = (Returns st', c') ∧ read_inv ch c' st' ∧ ra_reqs st' = ∅
    ∧ ((ra_err st').2 = None → ra_pos st' = zlen B).
Proof.
  intros Hi HB. revert c st Hi. induction fuel as [|fuel IH]; intros c st Hi Hm; unfold ReadAt_loop; fold ReadAt_loop;
    pose proof (read_inv_sum _ _ _ Hi); pose proof (ri_inFlight _ _ _ Hi) as Hf; pose proof (ri_pos _ _ _ Hi);
    assert (zlen (ra_buf st) = zlen B) as -> by (unfold zlen; by rewrite (ri_length _ _ _ Hi)); unfold read_measure in Hm;
    destruct ((0 <? zlen B - ra_pos st) || (0 <? ra_inFlight st)) eqn:Econd.
  - apply orb_true_iff in Econd as [?%Z.ltb_lt|?%Z.ltb_lt]; lia.
  - apply orb_false_iff in Econd as [?%Z.ltb_ge ?%Z.ltb_ge].
    exists st, c. split_and!; [done|done|apply map_size_empty_inv; lia|intros; lia].
  - destruct (read_fill_round ch c st Hi) as (st1 & c1 & E & Hi1 & Hm1 & He1).
    { apply orb_true_iff in Econd as [?%Z.ltb_lt|?%Z.ltb_lt]; lia. }
    unfold mbind at 1, M_bind at 1. rewrite E. pose proof (ri_inFlight _ _ _ Hi1) as Hf1.
    destruct (Z.eqb_spec (ra_inFlight st1) 0) as [Hz|Hz].
    { exists st1, c1. split_and!; [done|done|apply map_size_empty_inv; lia|]. intros Hn. by destruct (He1 Hz). }
    destruct (read_round ch c1 st1 Hi1) as (res & c2 & st2 & c3 & Hrec & Hres & Hi2 & Hm2);
      [intros E0; rewrite E0, map_size_empty in Hf1; lia|done|].
    unfold mbind, M_bind. rewrite Hrec, Hres. apply IH; [done|unfold read_measure in *; lia].
  - apply orb_false_iff in Econd as [?%Z.ltb_ge ?%Z.ltb_ge].
    exists st, c. split_and!; [done|done|apply map_size_empty_inv; lia|intros; lia].
Qed.

(** The buffer when nothing is in flight. *)
Lemma read_inv_buffer ch c st : read_inv ch c st → ra_reqs st = ∅ →
  ((ra_err st).2 = None → ra_pos st = zlen B) →
  let n := Z.min (zlen B) avail in
  ra_buf st = take (Z.to_nat n) (drop (Z.to_nat off0) F) ++ drop (Z.to_nat n) B
  ∧ ra_read st = n ∧ (ra_err st).2 = if n <? zlen B then Some io_EOF else None.
Proof.
  intros Hi Hreqs Hend n. destruct Hi. rewrite Hreqs, !msum_empty, ?map_size_empty in *.
  assert (∀ i, ¬ covered ∅ i) as Hcov by (intros i (id & r & Hr & _); done).
  assert (ra_read st = n ∧ (ra_err st).2 = (if n <? zlen B then Some io_EOF else None) ∧ n <= ra_pos st ∧ (n < ra_pos st → n = avail))
    as (Hread & Herr & Hn & Hav).
  { unfold n. destruct ri_err0 as [[He Hacc]|[He Hlt]].
    - pose proof (Hend He). rewrite He. destruct (Z.ltb_spec (Z.min (zlen B) avail) (zlen B)); split_and!; done || lia.
    - rewrite He. destruct (Z.ltb_spec (Z.min (zlen B) avail) (zlen B)); split_and!; done || lia. }
  split_and!; [|done|done]. apply list_eq. intros i. unfold n, zlen in *.
  destruct (decide (Z.of_nat i < n)) as [Hlt|Hge]; unfold n, zlen in *.
  - rewrite lookup_app_l by (rewrite length_take, length_drop; lia). rewrite lookup_take_lt, lookup_drop by lia.
    apply ri_done0; [lia|lia|apply Hcov].
  - rewrite lookup_app_r by (rewrite length_take; lia). rewrite lookup_drop, length_take, length_drop, ri_rest0 by lia.
    f_equal. lia.
Qed.
End read_at.

(** [ReadAt] of the client reads the file, whatever order the answers
    arrive in and however short the server's answers are: if the server reads
    the file [F] for the handle, the call returns, the buffer begins with the
    bytes of [F] from the offset on and is unchanged behind them, their number
    is the one reported, and the error is EOF exactly when the file ends before
    the buffer does. Nothing is left in flight. *)
Lemma client_ReadAt_reads_file {P A : Type} `{PeerSpec P A} (f : File) (F : list byte) (holds : A → Prop)
    (b : list byte) (off : Z) (c : Client P) (fuel : nat) :
  reads_file (f_handle f) F holds → holds (server (peer c)) → idle c →
  slen (f_handle f) <= 256 → 1 <= maxPacket c < 2 ^ 32 → 0 <= off → off + zlen b < 2 ^ 63 →
  0 <= nextid c → nextid c + zlen b < 2 ^ 32 → zlen b <= Z.of_nat fuel →
  let n := Z.min (zlen b) (Z.max 0 (zlen F - off)) in
  ∃ c', File_ReadAt fuel f b off c
        = (Returns (take (Z.to_nat n) (drop (Z.to_nat off) F) ++ drop (Z.to_nat n) b, n,
                    if n <? zlen b then Some io_EOF else None), c')
    ∧ idle c' ∧ holds (server (peer c')).
Proof.
  intros Hserver Hholds Hidle Hh Hmp Hoff Hrange Hn0 Hids Hfuel n. pose proof (zlen_nonneg b).
  destruct (make_chan c) as [r c1] eqn:Emk. destruct r as [ch| | |]; try discriminate Emk.
  destruct (idle_tracks c ch c1 Hidle Emk) as (Ht & Hs & Hc & Hnx).
  set (st0 := mkRead b 0 0 1 (u64 off) ∅ (0, None) 0).
  assert (read_inv f F holds off b ch c1 st0) as Hi.
  { destruct Hc as [Hmp' _]. split; simpl; try done; rewrite ?msum_empty, ?map_size_empty, ?Hs, ?Hmp', ?Hnx; try done; try lia.
    - rewrite u64_id by (unfold is_u64; lia). lia.
    - by left. }
  destruct (ReadAt_loop_spec f F holds off b Hserver Hh Hoff Hrange ch fuel c1 st0 Hi) as (st' & c' & E & Hi' & Hr & Hend);
    [lia|unfold read_measure; simpl; rewrite msum_empty; lia|].
  destruct (read_inv_buffer f F holds off b Hoff ch c' st' Hi' Hr Hend) as (Hbuf & Hread & Herr).
  exists c'. split_and!.
  - unfold File_ReadAt, mbind, M_bind. rewrite Emk. fold st0. rewrite E. unfold mret, M_ret. rewrite Hbuf, Hread, Herr.
    fold n. do 3 f_equal. by destruct (n <? zlen b).
  - apply (tracks_idle ch). pose proof (ri_tracks _ _ _ _ _ _ _ _ Hi') as Ht'. by rewrite Hr in Ht'.
  - apply Hi'.
Qed.

Lemma mem_server_reads F : reads_file (P := sched MemServer.state) "1" F (λ s, MemServer.ms_file s = F).
Proof.
  split; [by intros ? ? ?|]. intros id l o s x s' HF Hl Ho (_ & _ & E). simpl in E. rewrite HF in E. destruct (Z.leb_spec (zlen F) o).
  { injection E as <- <-. split; [done|]. by eexists _, _. }
  injection E as <- <-. split; [done|]. eexists. split; [reflexivity|]. unfold zlen in *.
  set (k := Z.to_nat (Z.min l _)). split; [rewrite length_take, length_drop; lia|]. rewrite length_take.
  destruct (Nat.le_ge_cases k (length (drop (Z.to_nat o) F))); [by rewrite Nat.min_l|].
  rewrite Nat.min_r by done. by rewrite !take_ge.
Qed.
(** "world" is read at offset 6 in packets of four bytes of which the server
    sends at most three, the last request answered first. *)
Lemma client_ReadAt_reads_file_witness :
  let c := MemServer.client (MemServer.mk (bytes_of_string "hello world") 3 100 false) [0; 1; 1; 0]%nat 4 in
  ∃ c', File_ReadAt 8 (mkFile "/a" "1" 0) (bytes_of_string "********") 6 c
        = (Returns (bytes_of_string "world***", 5, Some io_EOF), c') ∧ idle c'.
Proof.
  intros c.
  destruct (client_ReadAt_reads_file (mkFile "/a" "1" 0) (bytes_of_string "hello world")
    (λ s, MemServer.ms_file s = bytes_of_string "hello world") (bytes_of_string "********") 6 c 8)
    as (c' & E & Hidle & _);
    [apply mem_server_reads|reflexivity|apply MemServer.client_idle|by vm_compute..|].
  exists c'. split; [exact E|exact Hidle].
Defined.
