(* ===== verification/ClientUpload.v ===== *)
(** * What [File.Write] of the SFTP client leaves on the server

    The writes of one call are answered in any order; each changes a part of
    the file that no other one touches, so the order does not matter. *)
From stdpp Require Import base tactics option list strings gmap.
From Stdlib Require Import ZArith Lia.
From S2P Require Import Prelude GoOs SftpWire SftpPackets FileSystem ClientConn ClientPeer Client ClientIO.

Lemma lookup_write_bytes off data b i : 0 <= off → data ≠ [] →
  write_bytes off data b !! i =
    if decide (off <= Z.of_nat i < off + zlen data) then data !! (i - Z.to_nat off)%nat
    else if decide (Z.of_nat i < off) then (b ++ replicate (Z.to_nat off - length b) (byte_of_Z 0)) !! i
    else b !! i.
Proof.
  intros Ho Hd. unfold write_bytes, zlen. destruct data as [|x data]; [done|]. set (d := x :: data) in *. cbv zeta.
  set (pre := take _ _). assert (length pre = Z.to_nat off) as Hpre.
  { unfold pre. rewrite length_take, length_app, length_replicate. lia. }
  destruct (decide (off <= Z.of_nat i < off + Z.of_nat (length d))) as [Hin|Hout].
  { rewrite lookup_app_r by lia. rewrite lookup_app_l by lia. by rewrite Hpre. }
  destruct (decide (Z.of_nat i < off)).
  { rewrite lookup_app_l by lia. unfold pre. by rewrite lookup_take_lt by lia. }
  rewrite lookup_app_r by lia. rewrite lookup_app_r by lia. rewrite lookup_drop. f_equal. lia.
Qed.
Lemma length_write_bytes off data b : 0 <= off → data ≠ [] →
  zlen (write_bytes off data b) = Z.max (zlen b) (off + zlen data).
Proof.
  intros Ho Hd. unfold write_bytes, zlen. destruct data as [|x data]; [done|].
  rewrite !length_app, length_take, length_app, length_replicate, length_drop. lia.
Qed.

(** A byte of a file, zero behind its end. *)
Definition byte_at (b : list byte) (i : nat) : byte := default (byte_of_Z 0) (b !! i).
Lemma byte_at_write_bytes off data b i : 0 <= off → data ≠ [] →
  byte_at (write_bytes off data b) i =
    if decide (off <= Z.of_nat i < off + zlen data) then byte_at data (i - Z.to_nat off) else byte_at b i.
Proof.
  intros Ho Hd. unfold byte_at. rewrite lookup_write_bytes by done. case_decide; [done|]. case_decide; [|done].
  destruct (decide (i < length b)%nat); [by rewrite lookup_app_l|].
  rewrite lookup_app_r, lookup_replicate_2, (lookup_ge_None_2 b) by lia. done.
Qed.
Lemma byte_at_ext (b b' : list byte) : length b = length b' → (∀ i, byte_at b i = byte_at b' i) → b = b'.
Proof.
  intros Hl Hb. apply list_eq. intros i. specialize (Hb i). unfold byte_at in Hb.
  destruct (decide (i < length b)%nat) as [Hi|Hi].
  - destruct (lookup_lt_is_Some_2 b i Hi) as [x Ex]. destruct (lookup_lt_is_Some_2 b' i ltac:(lia)) as [y Ey].
    rewrite Ex, Ey in *. simpl in Hb. by subst.
  - by rewrite !lookup_ge_None_2 by lia.
Qed.

Section write.
Context {P A : Type} `{PeerSpec P A} (f : File).
Implicit Types (c : Client P) (st : writeState) (reqs : gmap Z inflightRead).

(** The server writes to the file of the handle, or refuses to and remembers
    it. *)
Definition writes_file (h : string) (file_of : A → list byte) (refused : A → Prop) : Prop :=
  (∀ id l o d, is_request (sshFxpWritePacket id l o h d) → o < 2 ^ 63 → zlen d <= 2 ^ 17 → accepts (sshFxpWritePacket id l o h d)) ∧
  ∀ id l o d a x a', 0 <= o → answer (sshFxpWritePacket id l o h d) a x a' →
    ∃ code msg lang, is_u32 code ∧ x = sshFxpStatusPacket id {| se_Code := code; se_msg := msg; se_lang := lang |}
    ∧ (refused a → refused a')
    ∧ if code =? sshFxOk then file_of a' = write_bytes o d (file_of a) else refused a'.

Context (file_of : A → list byte) (refused : A → Prop) (off0 : Z) (B F : list byte).
Context (Hserver : writes_file (f_handle f) file_of refused).
Context (Hhandle : slen (f_handle f) <= 256) (Hoff0 : 0 <= off0) (Hrange : off0 + zlen B < 2 ^ 63).

Definition slice (r : inflightRead) : list byte := take (Z.to_nat (ir_len r)) (drop (Z.to_nat (ir_pos r)) B).
Definition write_packet (id : Z) (r : inflightRead) : requestPacket :=
  sshFxpWritePacket id (zlen (slice r)) (ir_offset r) (f_handle f) (slice r).

(** The bytes before [pos] that are not in flight are in the file, and nothing
    else of the file has changed. *)
Record written (pos : Z) reqs (file : list byte) : Prop := {
  wr_long : zlen F <= zlen file <= Z.max (zlen F) (off0 + pos);
  wr_end : ∀ i : nat, Z.of_nat i < pos → ¬ covered reqs i → off0 + Z.of_nat i < zlen file;
  wr_new : ∀ i : nat, Z.of_nat i < pos → ¬ covered reqs i → byte_at file (Z.to_nat off0 + i) = byte_at B i;
  wr_old : ∀ j : nat, Z.of_nat j < off0 ∨ off0 + pos <= Z.of_nat j ∨ covered reqs (j - Z.to_nat off0) →
    byte_at file j = byte_at F j
}.

Record write_inv (ch : nat) (c : Client P) reqs (pos : Z) st : Prop := {
  wi_tracks : tracks ch c (tracked write_packet reqs);
  wi_packet : 1 <= maxPacket c <= 2 ^ 17;
  wi_pos : 0 <= pos <= zlen B;
  wi_b : ws_b st = drop (Z.to_nat pos) B;
  wi_offset : ws_offset st = off0 + pos;
  wi_inFlight : ws_inFlight st = Z.of_nat (size reqs);
  wi_reqs : ∀ id r, reqs !! id = Some r →
    0 <= id <= nextid c ∧ 1 <= ir_len r ∧ 0 <= ir_pos r ∧ ir_pos r + ir_len r <= pos ∧ ir_offset r = off0 + ir_pos r;
  wi_disjoint : disjoint_slices reqs;
  wi_err : match ws_err st with
           | None => written pos reqs (file_of (server (peer c)))
           | Some _ => refused (server (peer c))
           end;
  wi_desired : 1 <= ws_desired st;
  wi_ids : 0 <= nextid c ∧ nextid c + (zlen B - pos) < 2 ^ 32
}.

Lemma zlen_slice r : 0 <= ir_pos r → 0 <= ir_len r → ir_pos r + ir_len r <= zlen B → zlen (slice r) = ir_len r.
Proof. unfold slice, zlen. intros. rewrite length_take, length_drop. lia. Qed.

(** One more request. *)
Lemma write_inv_send ch c reqs pos st l : write_inv ch c reqs pos st → 1 <= l <= maxPacket c → pos + l <= zlen B →
  ∃ c' reqs', send_write ch f (take (Z.to_nat l) (ws_b st)) (ws_offset st) c = (Returns tt, c')
    ∧ write_inv ch c' reqs' (pos + l) (mkWrite (drop (Z.to_nat l) (ws_b st)) (ws_inFlight st + 1) (ws_desired st)
                                         (u64 (ws_offset st + l)) (ws_err st)).
Proof.
  intros Hi Hl Hfit. destruct Hi. destruct wi_ids0 as [Hn0 Hids]. set (id := nextid c + 1).
  assert (u32 (nextid c + 1) = id) as Hid by (apply u32_id; unfold is_u32; lia).
  assert (reqs !! id = None) as Hfresh.
  { destruct (reqs !! id) as [r|] eqn:E; [|done]. apply wi_reqs0 in E. unfold id in E. lia. }
  set (r := mkInflight pos l (off0 + pos)).
  assert (take (Z.to_nat l) (ws_b st) = slice r) as -> by by rewrite wi_b0.
  assert (zlen (slice r) = l) as Hsl by (apply zlen_slice; simpl; lia).
  destruct (dispatch_tracks ch (set_nextid id c) (tracked write_packet reqs) id (write_packet id r)) as (Hd & Hs & Hc & Hn').
  - destruct wi_tracks0. by split.
  - by rewrite lookup_tracked, Hfresh.
  - done.
  - apply Hserver; [simpl; split_and!; [unfold is_u32, id; lia|unfold is_u64; lia|done]|simpl; lia|lia].
  - simpl. unfold sshFxpWritePacket_MarshalBinary. cbv zeta. wire_norm. cbn [app].
    rewrite zlen_cons, !zlen_app, !zlen_marshalUint32, zlen_marshalUint64, zlen_marshalString. unfold maxMsgLength. lia.
  - set (c' := conn_dispatchRequest _ _ _ _) in Hd, Hs, Hc, Hn'. exists c', (<[id := r]> reqs). split.
    { unfold send_write, nextID, dispatchRequest, mbind, M_bind, mret, M_ret. cbv zeta beta iota.
      rewrite Hid, u32_id, wi_offset0 by (unfold is_u32; lia). reflexivity. }
    clearbody c'. destruct Hc as [Hmp _]. simpl in Hn'. split; simpl; try done.
    + by rewrite tracked_insert.
    + by rewrite Hmp.
    + lia.
    + rewrite wi_b0, drop_drop. f_equal. lia.
    + rewrite u64_id by (unfold is_u64; lia). lia.
    + rewrite map_size_insert_None by done. lia.
    + rewrite Hn'. intros i s. rewrite lookup_insert_Some. intros [[<- <-]|[_ Hr]]; simpl; [lia|]. apply wi_reqs0 in Hr. lia.
    + intros i1 i2 r1 r2 Hne. rewrite !lookup_insert_Some.
      intros [[<- <-]|[_ Hr1]] [[? <-]|[_ Hr2]]; simpl; [congruence|apply wi_reqs0 in Hr2; lia|apply wi_reqs0 in Hr1; lia|by eapply wi_disjoint0].
    + rewrite Hs. simpl. destruct (ws_err st); [done|]. destruct wi_err0. split.
      * lia.
      * intros i Hi Hcov. rewrite covered_insert in Hcov by done. simpl in Hcov. apply wr_end0; [lia|tauto].
      * intros i Hi Hcov. rewrite covered_insert in Hcov by done. simpl in Hcov. apply wr_new0; [lia|tauto].
      * intros j. rewrite covered_insert by done. simpl. intros Hj. apply wr_old0.
        destruct Hj as [?|[?|[?|?]]]; [tauto|right; left; lia| |tauto].
        destruct (decide (Z.of_nat j < off0)); [by left|right; left; lia].
    + rewrite Hn'. unfold id. lia.
Qed.

Lemma byte_at_slice r k : 0 <= ir_pos r → Z.of_nat k < ir_len r → byte_at (slice r) k = byte_at B (Z.to_nat (ir_pos r) + k).
Proof. intros. unfold byte_at, slice. rewrite lookup_take_lt, lookup_drop by lia. done. Qed.

Lemma written_answer pos reqs file id r : written pos reqs file → disjoint_slices reqs → reqs !! id = Some r →
  1 <= ir_len r → 0 <= ir_pos r → ir_pos r + ir_len r <= pos → pos <= zlen B →
  written pos (delete id reqs) (write_bytes (off0 + ir_pos r) (slice r) file).
Proof.
  intros [Hlong Hend Hnew Hold] Hdis Hr Hlen Hpos Hfit HB.
  assert (zlen (slice r) = ir_len r) as Hsl by (apply zlen_slice; lia).
  assert (slice r ≠ []) as Hne by (intros E; rewrite E in Hsl; unfold zlen in Hsl; simpl in Hsl; lia).
  assert (0 <= off0 + ir_pos r) as Ho by lia.
  split; rewrite ?length_write_bytes, ?Hsl by done.
  - lia.
  - intros i Hi Hcov. rewrite (covered_delete _ id r) in Hcov by done.
    destruct (decide (ir_pos r <= Z.of_nat i < ir_pos r + ir_len r)); [lia|].
    assert (off0 + Z.of_nat i < zlen file); [apply Hend; tauto|lia].
  - intros i Hi Hcov. rewrite (covered_delete _ id r) in Hcov by done. rewrite byte_at_write_bytes, Hsl by done.
    case_decide as Hin.
    + rewrite byte_at_slice by lia. f_equal. lia.
    + apply Hnew; [done|]. intros Hc. apply Hcov. split; [done|lia].
  - intros j Hj. rewrite (covered_delete _ id r) in Hj by done. rewrite byte_at_write_bytes, Hsl by done.
    case_decide as Hin; [|apply Hold; tauto]. exfalso. destruct Hj as [?|[?|[_ Hj]]]; lia.
Qed.

Lemma write_fill_spec ch n c reqs pos st : write_inv ch c reqs pos st → (n <= Z.to_nat (ws_desired st - ws_inFlight st))%nat →
  ∃ c' reqs' pos' st', write_fill n ch f st c = (Returns st', c') ∧ write_inv ch c' reqs' pos' st'
    ∧ ws_err st' = ws_err st
    ∧ zlen B - pos' + ws_inFlight st' <= zlen B - pos + ws_inFlight st
    ∧ (n ≠ 0%nat → ws_err st = None → pos < zlen B → ws_inFlight st' ≠ 0)
    ∧ (ws_inFlight st ≠ 0 → ws_inFlight st' ≠ 0).
Proof.
  revert c reqs pos st. induction n as [|n IH]; intros c reqs pos st Hi Hn; simpl; [by eauto 15 using Z.le_refl|].
  pose proof (wi_pos _ _ _ _ _ Hi). assert (zlen (ws_b st) = zlen B - pos) as Hb.
  { rewrite (wi_b _ _ _ _ _ Hi). unfold zlen in *. rewrite length_drop. lia. }
  destruct (Z.ltb_spec 0 (zlen (ws_b st))) as [Hr|]; [|exists c, reqs, pos, st; split_and!; done || lia].
  case_bool_decide as He; [|exists c, reqs, pos, st; split_and!; done || lia]. simpl.
  pose proof (wi_packet _ _ _ _ _ Hi). unfold mbind at 1, M_bind at 1, get_maxPacket at 1. cbv beta iota.
  set (l := min (zlen (ws_b st)) (maxPacket c)).
  assert (1 <= l ∧ l <= zlen (ws_b st) ∧ l <= maxPacket c) as (? & ? & ?).
  { unfold l, min. destruct (Z.ltb_spec (maxPacket c) (zlen (ws_b st))); lia. }
  destruct (write_inv_send ch c reqs pos st l Hi) as (c1 & reqs1 & E & Hi1); [lia..|].
  unfold mbind, M_bind. rewrite E. pose proof (wi_inFlight _ _ _ _ _ Hi).
  destruct (IH c1 _ _ _ Hi1) as (c' & reqs' & pos' & st' & E' & Hi' & He' & Hm' & _ & Hnz); [simpl; lia|]. simpl in Hm', Hnz, He'.
  assert (ws_inFlight st' ≠ 0) by (apply Hnz; lia). exists c', reqs', pos', st'. split_and!; done || lia.
Qed.

Lemma write_round ch c reqs pos st : write_inv ch c reqs pos st → reqs ≠ ∅ →
  ∃ res c' reqs' err d, receive ch c = (Returns res, c') ∧ write_result res (ws_err st) (ws_desired st) c' = (Returns (err, d), c')
    ∧ write_inv ch c' reqs' pos (mkWrite (ws_b st) (ws_inFlight st - 1) d (ws_offset st) err).
Proof.
  intros Hi Hne. pose proof (wi_reqs _ _ _ _ _ Hi) as Hreqs. pose proof (wi_ids _ _ _ _ _ Hi) as [Hn0 Hids].
  pose proof (wi_pos _ _ _ _ _ Hi).
  destruct (receive_tracks ch c (tracked write_packet reqs)) as (id & p & x & c1 & Hlook & Ha & Hwf & Hid & Hrec & Ht & [Hc _] & Hnx).
  { apply Hi. }
  { by apply tracked_nonempty. }
  { intros i q. rewrite lookup_tracked. destruct (reqs !! i) as [s|] eqn:Es; [|done]. intros _.
    apply Hreqs in Es. unfold is_u32. lia. }
  rewrite lookup_tracked in Hlook. destruct (reqs !! id) as [r|] eqn:Hr; [|done]. injection Hlook as <-.
  rewrite <- tracked_delete in Ht. destruct (Hreqs id r Hr) as (? & ? & ? & ? & Hoff).
  destruct (proj2 Hserver id (zlen (slice r)) (ir_offset r) (slice r) (server (peer c)) x (server (peer c1)) ltac:(lia) Ha)
    as (code & msg & lang & Hcode & -> & Hkeep & Hdone).
  destruct (status_error_spec c1 id code msg lang) as (m & lg & Est); [unfold is_u32; lia|done|].
  destruct (bump_spec (ws_desired st) c1) as (d' & Ebump & Hd').
  assert (∃ err d, write_result (mkResponse sshFxpStatus (marshalUint32 [] id ++
             marshalStatus [] {| se_Code := code; se_msg := msg; se_lang := lang |}) None) (ws_err st) (ws_desired st) c1
           = (Returns (err, d), c1) ∧ 1 <= d
           ∧ match err with
             | None => ws_err st = None ∧ code = sshFxOk
             | Some _ => ws_err st ≠ None ∨ code ≠ sshFxOk
             end) as (err & d & Eres & Hd & Herr).
  { pose proof (wi_desired _ _ _ _ _ Hi). unfold write_result. cbn [r_err r_typ r_data]. rewrite Z.eqb_refl.
    unfold mbind at 1, M_bind at 1, decode at 1. rewrite unmarshalUint32_marshal, u32_id by (unfold is_u32; lia).
    unfold mbind at 1, M_bind at 1. rewrite Est.
    destruct (normaliseError (EStatus code m lg)) as [e|] eqn:En; simpl.
    - assert (code ≠ sshFxOk) by (intros ->; done).
      destruct (ws_err st) as [e0|] eqn:E0; simpl; [|by eexists _, _; split_and!; [reflexivity|lia|right]].
      unfold mbind, M_bind. rewrite Ebump. by eexists _, _; split_and!; [reflexivity|lia|left].
    - assert (code = sshFxOk) by (revert En; unfold normaliseError; repeat case_match; try done; intros _; by apply Z.eqb_eq).
      unfold mbind, M_bind. rewrite Ebump. eexists _, _. split_and!; [reflexivity|lia|]. destruct (ws_err st); [by left|done]. }
  eexists _, c1, (delete id reqs), err, d. split; [exact Hrec|]. split; [exact Eres|].
  pose proof (size_delete_present _ _ _ Hr). destruct Hi. split; simpl; try done; rewrite ?Hc, ?Hnx; try done.
  - lia.
  - intros i s Hs. apply lookup_delete_Some in Hs as [_ Hs]. by apply wi_reqs0.
  - intros i1 i2 r1 r2 Hne' Hs1 Hs2. apply lookup_delete_Some in Hs1 as [_ ?]. apply lookup_delete_Some in Hs2 as [_ ?].
    by eapply wi_disjoint0.
  - destruct err as [e|].
    + destruct (ws_err st) as [e0|]; [by apply Hkeep|]. destruct Herr as [?|Hne']; [done|].
      destruct (Z.eqb_spec code sshFxOk); [done|]. done.
    + destruct Herr as [E0 ->]. rewrite E0 in wi_err0. simpl in Hdone. rewrite Hdone, Hoff. by apply written_answer; try done; lia.
Qed.

Lemma Write_loop_spec ch fuel c reqs pos st : write_inv ch c reqs pos st →
  zlen B - pos + ws_inFlight st <= Z.of_nat fuel →
  ∃ c' pos' st', Write_loop fuel ch f st c = (Returns st', c') ∧ write_inv ch c' ∅ pos' st'
    ∧ (ws_err st' = None → pos' = zlen B).
Proof.
  revert c reqs pos st. induction fuel as [|fuel IH]; intros c reqs pos st Hi Hm; unfold Write_loop; fold Write_loop;
    pose proof (wi_inFlight _ _ _ _ _ Hi) as Hf; pose proof (wi_pos _ _ _ _ _ Hi);
    assert (zlen (ws_b st) = zlen B - pos) as -> by (rewrite (wi_b _ _ _ _ _ Hi); unfold zlen in *; rewrite length_drop; lia);
    destruct ((0 <? zlen B - pos) || (0 <? ws_inFlight st)) eqn:Econd.
  1: apply orb_true_iff in Econd as [?%Z.ltb_lt|?%Z.ltb_lt]; lia.
  1, 3: apply orb_false_iff in Econd as [?%Z.ltb_ge ?%Z.ltb_ge];
    assert (reqs = ∅) as -> by (apply map_size_empty_inv; lia); exists c, pos, st; split_and!; [done|done|intros; lia].
  destruct (write_fill_spec ch _ c reqs pos st Hi (le_n _)) as (c1 & reqs1 & pos1 & st1 & E & Hi1 & He1 & Hm1 & Hsend & Hkeep).
  unfold mbind at 1, M_bind at 1. rewrite E. pose proof (wi_inFlight _ _ _ _ _ Hi1) as Hf1.
  destruct (Z.eqb_spec (ws_inFlight st1) 0) as [Hz|Hz].
  - assert (reqs1 = ∅) as -> by (apply map_size_empty_inv; lia). exists c1, pos1, st1. split_and!; [done|done|].
    intros Hn. exfalso. pose proof (wi_desired _ _ _ _ _ Hi). destruct (decide (ws_inFlight st = 0)); [|by apply Hkeep].
    apply Hsend; [lia|by rewrite <- He1| |done]. apply orb_true_iff in Econd as [?%Z.ltb_lt|?%Z.ltb_lt]; lia.
  - destruct (write_round ch c1 reqs1 pos1 st1 Hi1) as (res & c2 & reqs2 & err & d & Hrec & Hres & Hi2);
      [intros E0; rewrite E0, map_size_empty in Hf1; lia|].
    unfold mbind, M_bind. rewrite Hrec, Hres. apply (IH _ _ _ _ Hi2). simpl. lia.
Qed.

Lemma written_all file : written (zlen B) ∅ file → B ≠ [] → file = write_bytes off0 B F.
Proof.
  intros [Hlong Hend Hnew Hold] HB. assert (∀ i, ¬ covered ∅ i) as Hcov by (intros i (id & r & Hr & _); done).
  assert (1 <= zlen B) as HB1 by (unfold zlen; destruct B; simpl; [done|lia]).
  apply byte_at_ext.
  - pose proof (length_write_bytes off0 B F Hoff0 HB). specialize (Hend (length B - 1)%nat).
    unfold zlen in *. assert (off0 + Z.of_nat (length B - 1) < Z.of_nat (length file)); [apply Hend; [lia|apply Hcov]|lia].
  - intros j. rewrite byte_at_write_bytes by done. case_decide as Hin.
    + specialize (Hnew (j - Z.to_nat off0)%nat ltac:(lia) (Hcov _)). rewrite <- Hnew. f_equal. lia.
    + apply Hold. lia.
Qed.
End write.

(** [Write] of the client writes the whole buffer or reports an error.
    Whatever order the server answers in, the call returns; if it reports no
    error it reports the length of the buffer, the offset has moved by it, and
    the file on the server is the old one with the buffer written over it at the
    offset. If it reports an error, the server refused one of the writes and the
    number is 0. Nothing is left in flight. *)
Lemma client_Write_writes_file {P A : Type} `{PeerSpec P A} (f : File) (file_of : A → list byte) (refused : A → Prop)
    (b : list byte) (c : Client P) (fuel : nat) :
  writes_file (f_handle f) file_of refused → idle c →
  slen (f_handle f) <= 256 → 1 <= maxPacket c <= 2 ^ 17 → 0 <= f_offset f → f_offset f + zlen b < 2 ^ 63 →
  0 <= nextid c → nextid c + zlen b < 2 ^ 32 → zlen b <= Z.of_nat fuel →
  ∃ n err c', File_Write fuel f b c = (Returns (set_offset f (f_offset f + n), n, err), c') ∧ idle c'
    ∧ match err with
      | None => n = zlen b ∧ file_of (server (peer c')) = write_bytes (f_offset f) b (file_of (server (peer c)))
      | Some _ => n = 0 ∧ refused (server (peer c'))
      end.
Proof.
  intros Hserver Hidle Hh Hmp Hoff Hrange Hn0 Hids Hfuel. pose proof (zlen_nonneg b).
  destruct (make_chan c) as [r c1] eqn:Emk. destruct r as [ch| | |]; try discriminate Emk.
  destruct (idle_tracks c ch c1 Hidle Emk) as (Ht & Hs & [Hmp' _] & Hnx).
  set (st0 := mkWrite b 0 1 (f_offset f) None). set (F := file_of (server (peer c))).
  assert (∀ i, ¬ covered ∅ i) as Hcov by (intros i (id & r & Hr & _); done).
  assert (write_inv f file_of refused (f_offset f) b F ch c1 ∅ 0 st0) as Hi.
  { split; simpl; rewrite ?Hs, ?Hmp', ?Hnx; try done; try lia. split; fold F; [lia|intros; lia|intros; lia|done]. }
  destruct (Write_loop_spec f file_of refused (f_offset f) b F Hserver Hh Hoff Hrange ch fuel c1 ∅ 0 st0 Hi)
    as (c' & pos' & st' & E & Hi' & Hend); [simpl; lia|].
  exists (match ws_err st' with Some _ => 0 | None => zlen b end), (ws_err st'), c'. split_and!.
  - unfold File_Write, mbind, M_bind. rewrite Emk. fold st0. rewrite E. unfold mret, M_ret. do 2 f_equal.
    rewrite u64_id; [done|]. unfold is_u64. destruct (ws_err st'); lia.
  - apply (tracks_idle ch), Hi'.
  - pose proof (wi_err _ _ _ _ _ _ _ _ _ _ _ Hi') as Hw. destruct (ws_err st') as [e|] eqn:Ee; [done|].
    split; [done|]. rewrite (Hend eq_refl) in Hw. destruct (decide (b = [])) as [->|Hne]; [|by apply (written_all _ b F Hoff)].
    destruct fuel; simpl in E; injection E as <- <-; by rewrite Hs.
Qed.

Lemma mem_server_writes :
  writes_file (P := sched MemServer.state) "1" MemServer.ms_file (λ s, MemServer.ms_refused s = true).
Proof.
  split; [done|]. intros id l o d s x s' Ho (_ & _ & E). simpl in E. destruct (o + zlen d <=? MemServer.ms_room s); injection E as <- <-.
  - exists sshFxOk. by eexists _, _.
  - exists sshFxFailure. by eexists _, _.
Qed.
(** Five bytes over the end of a file, in packets of two, answered from the
    last to the first. *)
Lemma client_Write_writes_file_witness :
  let c := MemServer.client (MemServer.mk (bytes_of_string "abcd") 3 100 false) [0; 1; 0]%nat 2 in
  let f := mkFile "/a" "1" 2 in
  ∃ n err c', File_Write 5 f (bytes_of_string "HELLO") c = (Returns (set_offset f (2 + n), n, err), c') ∧ idle c'
    ∧ match err with
      | None => n = 5 ∧ MemServer.ms_file (server (peer c')) = bytes_of_string "abHELLO"
      | Some _ => n = 0 ∧ MemServer.ms_refused (server (peer c')) = true
      end.
Proof.
  intros c f.
  destruct (client_Write_writes_file f MemServer.ms_file (λ s, MemServer.ms_refused s = true) (bytes_of_string "HELLO") c 5)
    as (n & err & c' & E & Hidle & Hres);
    [apply mem_server_writes|apply MemServer.client_idle|by vm_compute..|].
  exists n, err, c'. split; [exact E|]. split; [exact Hidle|exact Hres].
Defined.
(** It succeeds. *)
Example write_hello :
  let c := MemServer.client (MemServer.mk (bytes_of_string "abcd") 3 100 false) [0; 1; 0]%nat 2 in
  (File_Write 5 (mkFile "/a" "1" 2) (bytes_of_string "HELLO") c).1 = Returns (mkFile "/a" "1" 7, 5, None).
Proof. vm_compute. reflexivity. Qed.
