(* ===== verification/ClientDownload.v ===== *)
(** * What [File.WriteTo] of the SFTP client writes

    [WriteTo] keeps reads of consecutive parts of the file in flight and writes
    the answers to a writer in the order of the file: an answer that is early
    waits until what is before it has been written. *)
From stdpp Require Import base tactics option list strings gmap.
From Stdlib Require Import ZArith Lia.
From S2P Require Import Prelude GoOs SftpWire SftpPackets ClientConn ClientPeer Client ClientIO.

Section write_to.
Context {P A W : Type} `{PeerSpec P A} (w_Write : list byte → W → (Z * option error) * W) (out : W → list byte).
(** The writer takes everything. *)
Context (Hwriter : ∀ d w, ∃ w', w_Write d w = ((zlen d, None), w') ∧ out w' = out w ++ d).
Context (f : File) (F : list byte) (holds : A → Prop).

(** As [reads_file], and a read of [l] bytes is short only at the end of the
    file. *)
Definition reads_fully (l : Z) (h : string) : Prop :=
  accepts_reads h ∧ ∀ id o a x a', holds a → 1 <= l → 0 <= o → answer (sshFxpReadPacket id l o h) a x a' →
    holds a' ∧
    if zlen F <=? o then ∃ msg lang, x = sshFxpStatusPacket id {| se_Code := sshFxEOF; se_msg := msg; se_lang := lang |}
    else let data := take (Z.to_nat l) (drop (Z.to_nat o) F) in x = sshFxpDataPacket id (zlen data) data.
Context (Hhandle : slen (f_handle f) <= 256).

(** Packets of [mp] bytes from [off0] on, at most [mc] in flight; [chunks] of
    them begin inside of the file. *)
Context (mp mc off0 chunks : Z) (Hserver : reads_fully mp (f_handle f)).
Context (Hmp : 1 <= mp < 2 ^ 32) (Hmc : 1 <= mc) (Hoff0 : 0 <= off0).
Context (Hchunks : ∀ k, 0 <= k → off0 + k * mp < zlen F ↔ k < chunks) (Hchunks0 : 0 <= chunks).
Context (Hrange : off0 + (chunks + mc + 1) * mp < 2 ^ 63) (Hsize : zlen F < 2 ^ 63).
Implicit Types (c : Client P).
Abbreviation toState := (@toState W).

Abbreviation place k := (off0 + k * mp).
Definition chunk (k : Z) : list byte := take (Z.to_nat mp) (drop (Z.to_nat (place k)) F).
(** Where the writer is when [j] chunks have been written. *)
Definition written_to (j : Z) : Z := Z.min (place j) (Z.max off0 (zlen F)).

Definition to_packet (id : Z) (o : Z) : requestPacket := sshFxpReadPacket id mp o (f_handle f).
Definition to_tracked (reqs : gmap Z Z) : gmap Z requestPacket := map_imap (λ id o, Some (to_packet id o)) reqs.
Lemma lookup_to_tracked reqs id : to_tracked reqs !! id = to_packet id <$> reqs !! id.
Proof. unfold to_tracked. rewrite map_lookup_imap. by destruct (reqs !! id). Qed.
Lemma to_tracked_insert reqs id o : to_tracked (<[id := o]> reqs) = <[id := to_packet id o]> (to_tracked reqs).
Proof. apply (map_imap_insert_Some (λ id o, Some (to_packet id o))). done. Qed.
Lemma to_tracked_delete reqs id : to_tracked (delete id reqs) = delete id (to_tracked reqs).
Proof. apply map_imap_delete. Qed.

Definition beyond (o : Z) : Z := if zlen F <=? o then 1 else 0.

(** [T] requests have been sent, [j] chunks written. [reqs] are in flight and
    [waiting] are the answers that wait. *)
Record progress (T j : Z) (reqs : gmap Z Z) (waiting : gmap Z (list byte)) : Prop := {
  pg_range : 0 <= j <= T;
  pg_j : j <= chunks;
  pg_reqs : ∀ id o, reqs !! id = Some o → ∃ k, o = place k ∧ j <= k < T;
  pg_inj : ∀ id1 id2 o, reqs !! id1 = Some o → reqs !! id2 = Some o → id1 = id2;
  pg_waiting : ∀ o d, waiting !! o = Some d → ∃ k, o = place k ∧ j <= k < T ∧ k < chunks ∧ d = chunk k;
  pg_apart : ∀ id o, reqs !! id = Some o → waiting !! o = None;
  pg_all : ∀ k, j <= k < T → k < chunks → (∃ id, reqs !! id = Some (place k)) ∨ is_Some (waiting !! place k)
}.

Record to_inv (out0 : list byte) (ch : nat) c (T j : Z) (st : toState) : Prop := {
  ti_tracks : tracks ch c (to_tracked (to_reqs st));
  ti_holds : holds (server (peer c));
  ti_config : maxPacket c = mp ∧ maxConcurrentRequests c = mc;
  ti_progress : progress T j (to_reqs st) (to_pending st);
  ti_next : to_pending st !! place j = None;
  ti_out : out (to_w st) = out0 ++ take (Z.to_nat (written_to j - off0)) (drop (Z.to_nat off0) F);
  ti_wo : to_writeOffset st = written_to j;
  ti_offset : to_offset st = place T;
  ti_inFlight : to_inFlight st = Z.of_nat (size (to_reqs st));
  ti_desired : 1 <= to_desired st <= mc;
  ti_ids : ∀ id o, to_reqs st !! id = Some o → 0 <= id <= nextid c;
  ti_err : ((to_err st).2 = None ∧ msum beyond (to_reqs st) = Z.max 0 (T - chunks))
           ∨ ((to_err st).2 = Some io_EOF ∧ chunks < T);
  ti_T : T <= chunks + mc;
  ti_budget : 0 <= nextid c ∧ nextid c + (chunks + mc - T) < 2 ^ 32
}.

Lemma place_inj k k' : place k = place k' → k = k'.
Proof. intros E. nia. Qed.
Lemma chunk_zlen k : 0 <= k < chunks → 1 <= zlen (chunk k) ∧ place k + zlen (chunk k) = Z.min (place (k + 1)) (zlen F).
Proof.
  intros Hk. assert (place k < zlen F) by (apply Hchunks; lia). unfold chunk, zlen in *. rewrite length_take, length_drop. nia.
Qed.
Lemma written_to_place j : 0 <= j < chunks → written_to j = place j.
Proof. intros Hj. assert (place j < zlen F) by (apply Hchunks; lia). unfold written_to. lia. Qed.
Lemma written_to_step j : 0 <= j < chunks → place j + zlen (chunk j) = written_to (j + 1).
Proof.
  intros Hj. destruct (chunk_zlen j Hj) as [? ->]. assert (place j < zlen F) by (apply Hchunks; lia). unfold written_to. nia.
Qed.

(** Writing the next chunk. *)
Lemma write_chunk j w out0 : 0 <= j < chunks →
  out w = out0 ++ take (Z.to_nat (written_to j - off0)) (drop (Z.to_nat off0) F) →
  ∃ w', w_Write (chunk j) w = ((zlen (chunk j), None), w')
    ∧ out w' = out0 ++ take (Z.to_nat (written_to (j + 1) - off0)) (drop (Z.to_nat off0) F).
Proof.
  intros Hj Ho. destruct (Hwriter (chunk j) w) as (w' & E & Ho'). exists w'. split; [done|]. rewrite Ho', Ho, <- app_assoc. f_equal.
  rewrite (written_to_place j Hj), <- (written_to_step j Hj). unfold chunk at 1.
  replace (Z.to_nat (place j + zlen (chunk j) - off0)) with (Z.to_nat (place j - off0) + Z.to_nat (zlen (chunk j)))%nat
    by (pose proof (zlen_nonneg (chunk j)); nia).
  rewrite <- take_take_drop, drop_drop. f_equal.
  replace (Z.to_nat off0 + Z.to_nat (place j - off0))%nat with (Z.to_nat (place j)) by nia.
  unfold chunk, zlen. rewrite Nat2Z.id, length_take.
  destruct (Nat.le_ge_cases (Z.to_nat mp) (length (drop (Z.to_nat (place j)) F))); [by rewrite Nat.min_l|].
  rewrite Nat.min_r by done. by rewrite !take_ge.
Qed.

Lemma progress_step T j reqs waiting : progress T j reqs waiting → j < T → j < chunks →
  (∀ id, reqs !! id ≠ Some (place j)) → progress T (j + 1) reqs (delete (place j) waiting).
Proof.
  intros [Hr Hj Hreqs Hinj Hw Hap Hall] HT Hc Hno. split; try done; try lia.
  - intros id o Ho. destruct (Hreqs id o Ho) as (k & -> & Hk). exists k. split; [done|].
    destruct (decide (k = j)) as [->|]; [by destruct (Hno id)|lia].
  - intros o d. rewrite lookup_delete_Some. intros [Hne Hd]. destruct (Hw o d Hd) as (k & -> & Hk & Hkc & ->).
    exists k. split_and!; try done; [|lia]. destruct (decide (k = j)) as [->|]; [done|lia].
  - intros id o Ho. rewrite lookup_delete_None. right. by eapply Hap.
  - intros k Hk Hkc. destruct (Hall k ltac:(lia) Hkc) as [?|?]; [by left|right].
    rewrite lookup_delete_ne; [done|]. intros E%place_inj. lia.
Qed.

Lemma progress_arrive T j reqs waiting id k : progress T j reqs waiting → reqs !! id = Some (place k) → k < chunks →
  progress T j (delete id reqs) (<[place k := chunk k]> waiting).
Proof.
  intros [Hr Hj Hreqs Hinj Hw Hap Hall] Hid Hk. split; try done.
  - intros i o [_ Hi]%lookup_delete_Some. by apply (Hreqs i o).
  - intros i1 i2 o [_ Hi1]%lookup_delete_Some [_ Hi2]%lookup_delete_Some. by eapply Hinj.
  - intros o d. rewrite lookup_insert_Some. intros [[<- <-]|[_ Hd]]; [|by apply Hw].
    destruct (Hreqs _ _ Hid) as (k' & E%place_inj & Hk'). exists k. subst. split_and!; done || lia.
  - intros i o Hi. apply lookup_delete_Some in Hi as [Hne Hi]. rewrite lookup_insert_ne; [by eapply Hap|].
    intros <-. apply Hne. by eapply Hinj.
  - intros k' Hk' Hkc. destruct (decide (place k = place k')) as [E|Hne].
    + right. rewrite E, lookup_insert_eq. done.
    + destruct (Hall k' Hk' Hkc) as [[i Hi]|Hs].
      * left. exists i. rewrite lookup_delete_ne; [done|]. intros <-. congruence.
      * right. by rewrite lookup_insert_ne.
Qed.

(** An end of file says nothing about a chunk. *)
Lemma progress_eof T j reqs waiting id k : progress T j reqs waiting → reqs !! id = Some (place k) → chunks <= k →
  progress T j (delete id reqs) waiting.
Proof.
  intros [Hr Hj Hreqs Hinj Hw Hap Hall] Hid Hk. split; try done.
  - intros i o [_ Hi]%lookup_delete_Some. by apply (Hreqs i o).
  - intros i1 i2 o [_ Hi1]%lookup_delete_Some [_ Hi2]%lookup_delete_Some. by eapply Hinj.
  - intros i o [_ Hi]%lookup_delete_Some. by eapply Hap.
  - intros k' Hk' Hkc. destruct (Hall k' Hk' Hkc) as [[i Hi]|Hs]; [left|by right].
    exists i. rewrite lookup_delete_ne; [done|]. intros <-. rewrite Hid in Hi. injection Hi as E. apply place_inj in E. lia.
Qed.

Lemma progress_send T j reqs waiting id : progress T j reqs waiting → reqs !! id = None →
  progress (T + 1) j (<[id := place T]> reqs) waiting.
Proof.
  intros [Hr Hj Hreqs Hinj Hw Hap Hall] Hid.
  assert (∀ i, reqs !! i ≠ Some (place T)) as Hnew.
  { intros i Hi. destruct (Hreqs _ _ Hi) as (k & E%place_inj & Hk). lia. }
  split; try done; try lia.
  - intros i o. rewrite lookup_insert_Some. intros [[<- <-]|[_ Hi]]; [exists T; split; [done|lia]|].
    destruct (Hreqs _ _ Hi) as (k & -> & Hk). exists k. split; [done|lia].
  - intros i1 i2 o. rewrite !lookup_insert_Some. intros [[<- <-]|[? Hi1]] [[<- ?]|[? Hi2]]; try done.
    + by destruct (Hnew i2).
    + subst. by destruct (Hnew i1).
    + by eapply Hinj.
  - intros o d Hd. destruct (Hw o d Hd) as (k & -> & Hk & Hkc & ->). exists k. split_and!; done || lia.
  - intros i o. rewrite lookup_insert_Some. intros [[<- <-]|[_ Hi]]; [|by eapply Hap].
    destruct (waiting !! place T) as [d|] eqn:E; [|done]. destruct (Hw _ _ E) as (k & E'%place_inj & Hk & _). lia.
  - intros k Hk Hkc. destruct (decide (k = T)) as [->|Hne]; [left; exists id; by rewrite lookup_insert_eq|].
    destruct (Hall k ltac:(lia) Hkc) as [[i Hi]|Hs]; [left|by right]. exists i. rewrite lookup_insert_ne; [done|].
    intros <-. congruence.
Qed.

(** Nothing waits at the place where the writer is, beyond the last chunk. *)
Lemma waiting_at T j reqs waiting : progress T j reqs waiting → waiting !! written_to j = waiting !! place j.
Proof.
  intros Hp. destruct (decide (j < chunks)).
  { rewrite written_to_place; [done|]. pose proof (pg_range _ _ _ _ Hp). lia. }
  assert (∀ o, zlen F <= o ∨ chunks = 0 → waiting !! o = None) as Hno.
  { intros o Ho. destruct (waiting !! o) as [d|] eqn:E; [|done]. destruct (pg_waiting _ _ _ _ Hp _ _ E) as (k & -> & Hk & Hkc & _).
    pose proof (pg_range _ _ _ _ Hp). assert (place k < zlen F) by (apply Hchunks; lia). lia. }
  pose proof (pg_range _ _ _ _ Hp). assert (zlen F <= place j) by (apply Z.nlt_ge; rewrite Hchunks by lia; lia).
  destruct (decide (chunks = 0)); [by rewrite !Hno by tauto|]. rewrite !Hno; [done|by left|left]. unfold written_to. lia.
Qed.

Lemma to_flush_spec out0 n T j (st : toState) : (size (to_pending st) <= n)%nat →
  progress T j (to_reqs st) (to_pending st) → to_writeOffset st = written_to j →
  out (to_w st) = out0 ++ take (Z.to_nat (written_to j - off0)) (drop (Z.to_nat off0) F) →
  ∃ j' w' p', to_flush w_Write n st = mkTo w' (to_inFlight st) (to_desired st) (to_offset st) (written_to j') (to_reqs st) p'
                                         (to_err st) (to_copied st)
    ∧ progress T j' (to_reqs st) p' ∧ p' !! place j' = None
    ∧ out w' = out0 ++ take (Z.to_nat (written_to j' - off0)) (drop (Z.to_nat off0) F).
Proof.
  revert j st. induction n as [|n IH]; intros j st Hn Hp Hwo Hout; simpl.
  { assert (to_pending st = ∅) as E by (apply map_size_empty_inv; lia).
    exists j, (to_w st), (to_pending st). split; [rewrite <- Hwo; by destruct st|]. split_and!; [done|by rewrite E|done]. }
  rewrite Hwo, (waiting_at _ _ _ _ Hp). destruct (to_pending st !! place j) as [d|] eqn:Ed.
  2: { exists j, (to_w st), (to_pending st). split; [rewrite <- Hwo; by destruct st|done]. }
  destruct (pg_waiting _ _ _ _ Hp _ _ Ed) as (k & E%place_inj & Hk & Hkc & ->). subst k.
  pose proof (pg_range _ _ _ _ Hp). destruct (write_chunk j (to_w st) out0 ltac:(lia) Hout) as (w' & -> & Hout').
  rewrite Z.ltb_irrefl. rewrite (written_to_place j) by lia.
  rewrite (written_to_step j ltac:(lia)), u64_id.
  2: { unfold is_u64, written_to. pose proof (zlen_nonneg F). nia. }
  match goal with |- context [to_flush w_Write n ?s] =>
    destruct (IH (j + 1) s) as (j' & w'' & p' & E' & Hp' & Hnone & Ho') end; simpl.
  - rewrite map_size_delete_Some by by eexists. lia.
  - apply progress_step; try done; [lia|]. intros id Hid. apply (pg_apart _ _ _ _ Hp) in Hid. congruence.
  - done.
  - exact Hout'.
  - exists j', w'', p'. split; [exact E'|]. split_and!; done.
Qed.

Lemma msum_beyond_size reqs : msum beyond reqs <= Z.of_nat (size reqs).
Proof.
  induction reqs as [|i o m Hi IH] using map_ind; [rewrite msum_empty; lia|].
  rewrite msum_insert, map_size_insert_None by done. unfold beyond at 1. case_match; lia.
Qed.

Lemma beyond_place k : 0 <= k → beyond (place k) = if k <? chunks then 0 else 1.
Proof.
  intros Hk. unfold beyond. pose proof (Hchunks k Hk).
  destruct (Z.leb_spec (zlen F) (place k)), (Z.ltb_spec k chunks); try done; lia.
Qed.

(** One more request. *)
Lemma to_inv_send out0 ch c T j st fileSize : to_inv out0 ch c T j st → (to_err st).2 = None →
  to_inFlight st + Z.of_nat (size (to_pending st)) < to_desired st →
  let id := u32 (nextid c + 1) in
  let c' := conn_dispatchRequest ch id (sshFxpReadPacket_MarshalBinary id (u32 mp) (to_offset st) (f_handle f)) (set_nextid id c) in
  let offset := u64 (to_offset st + mp) in
  let st' := mkTo (to_w st) (to_inFlight st + 1) (if fileSize <? offset then 1 else to_desired st) offset (to_writeOffset st)
               (<[id := to_offset st]> (to_reqs st)) (to_pending st) (to_err st) (to_copied st) in
  to_inv out0 ch c' (T + 1) j st'.
Proof.
  intros [] He Hroom. destruct ti_budget0 as [Hn0 Hids]. pose proof (msum_beyond_size (to_reqs st)).
  destruct ti_err0 as [[_ Hb]|[He' _]]; [|congruence]. pose proof (pg_range _ _ _ _ ti_progress0).
  assert (u32 (nextid c + 1) = nextid c + 1) as Hid by (apply u32_id; unfold is_u32; lia). cbv zeta. rewrite Hid.
  set (id := nextid c + 1) in *. rewrite (u32_id mp) by (unfold is_u32; lia).
  assert (to_reqs st !! id = None) as Hfresh.
  { destruct (to_reqs st !! id) as [o|] eqn:E; [|done]. apply ti_ids0 in E. unfold id in E. lia. }
  destruct (dispatch_tracks ch (set_nextid id c) (to_tracked (to_reqs st)) id (to_packet id (place T))) as (Hd & Hs & Hc & Hn').
  - destruct ti_tracks0. by split.
  - by rewrite lookup_to_tracked, Hfresh.
  - done.
  - apply Hserver; [simpl; split_and!; [unfold is_u32, id; lia|unfold is_u32; lia|unfold is_u64; nia]|nia].
  - simpl. unfold sshFxpReadPacket_MarshalBinary. cbv zeta. wire_norm. cbn [app].
    rewrite zlen_cons, !zlen_app, !zlen_marshalUint32, zlen_marshalUint64, zlen_marshalString. unfold maxMsgLength. lia.
  - rewrite ti_offset0. cbn [request_MarshalBinary to_packet] in Hd, Hs, Hc, Hn'.
    set (c' := conn_dispatchRequest _ _ _ _) in *. clearbody c'. destruct Hc as (Hc1 & Hc2 & _). simpl in Hn', Hc1, Hc2.
    rewrite u64_id by (unfold is_u64; nia).
    split; simpl; rewrite ?Hn', ?Hc1, ?Hc2, ?Hs; try done.
    + by rewrite to_tracked_insert.
    + by apply progress_send.
    + lia.
    + rewrite map_size_insert_None by done. lia.
    + case_match; lia.
    + intros i o. rewrite lookup_insert_Some. intros [[<- <-]|[_ Hi]]; [lia|]. apply ti_ids0 in Hi. lia.
    + left. split; [done|]. rewrite msum_insert by done. rewrite beyond_place by lia. case_match; lia.
    + lia.
    + unfold id. lia.
Qed.

Lemma to_fill_spec out0 ch n fileSize c T j st : to_inv out0 ch c T j st → (to_err st).2 = None →
  ∃ c' T' st', to_fill n ch f fileSize st c = (Returns st', c') ∧ to_inv out0 ch c' T' j st'
    ∧ to_err st' = to_err st ∧ T' - to_inFlight st' = T - to_inFlight st
    ∧ (to_inFlight st ≠ 0 ∨ (n ≠ 0%nat ∧ to_pending st = ∅) → to_inFlight st' ≠ 0) ∧ to_pending st' = to_pending st.
Proof.
  revert c T st. induction n as [|n IH]; intros c T st Hi He; simpl.
  { exists c, T, st. split_and!; try done. intros [?|[? ?]]; done. }
  destruct (Z.ltb_spec (to_inFlight st + Z.of_nat (size (to_pending st))) (to_desired st)) as [Hlt|Hge].
  2: { exists c, T, st. split_and!; try done. intros [?|[_ Hp]]; [done|]. rewrite Hp, map_size_empty in Hge.
       pose proof (ti_desired _ _ _ _ _ _ Hi). lia. }
  pose proof (to_inv_send out0 ch c T j st fileSize Hi He Hlt) as Hi1. cbv zeta in Hi1.
  destruct (IH _ _ _ Hi1 He) as (c' & T' & st' & E & Hi' & He' & HT & Hnz & Hp). simpl in HT, Hp, He', Hnz.
  pose proof (ti_inFlight _ _ _ _ _ _ Hi). exists c', T', st'. destruct (ti_config _ _ _ _ _ _ Hi) as [Hmp' _]. split.
  { unfold mbind, M_bind, get_maxPacket, nextID, dispatchRequest. cbv zeta. rewrite Hmp'. exact E. }
  split_and!; try done; [lia|]. intros _. apply Hnz. left. lia.
Qed.

Lemma bump_bound d c : maxConcurrentRequests c = mc → 1 <= d <= mc → ∃ d', bump d c = (Returns d', c) ∧ 1 <= d' <= mc.
Proof. intros Hc Hd. unfold bump. rewrite Hc. eexists. split; [reflexivity|]. destruct (Z.ltb_spec d mc); lia. Qed.

(** The state when an answer has been taken from the channel. *)
Definition to_taken (st : toState) (id : Z) : toState :=
  mkTo (to_w st) (to_inFlight st - 1) (to_desired st) (to_offset st) (to_writeOffset st) (delete id (to_reqs st))
    (to_pending st) (to_err st) (to_copied st).
Ltac to_fields := cbv beta iota zeta;
  cbn [to_w to_inFlight to_desired to_offset to_writeOffset to_reqs to_pending to_err to_copied].

(** A DATA packet. *)
Lemma to_data_spec out0 ch c c1 T j st id k fileSize : to_inv out0 ch c T j st → to_reqs st !! id = Some (place k) →
  0 <= k < chunks → tracks ch c1 (to_tracked (delete id (to_reqs st))) → holds (server (peer c1)) → same_config c c1 →
  nextid c1 = nextid c →
  ∃ st' j', to_data w_Write (place k) fileSize (marshalUint32 [] (zlen (chunk k)) ++ chunk k) (to_taken st id) c1 = (Returns st', c1)
    ∧ to_inv out0 ch c1 T j' st' ∧ to_inFlight st' = to_inFlight st - 1.
Proof.
  intros [] Hid Hk Ht Hs (Hc1 & Hc2 & _) Hn. destruct ti_config0 as [Hcfg1 Hcfg2].
  pose proof (progress_arrive _ _ _ _ _ _ ti_progress0 Hid ltac:(lia)) as Harr. pose proof (size_delete_present _ _ _ Hid) as Hsz.
  pose proof (pg_range _ _ _ _ ti_progress0). destruct (pg_reqs _ _ _ _ ti_progress0 _ _ Hid) as (k' & E%place_inj & Hk'). subst k'.
  assert (msum beyond (delete id (to_reqs st)) = msum beyond (to_reqs st)) as Hb.
  { rewrite (msum_delete beyond _ _ _ Hid), beyond_place by lia. destruct (Z.ltb_spec k chunks); lia. }
  destruct (chunk_zlen k Hk) as [Hl Hle]. assert (zlen (chunk k) <= mp) by (unfold chunk, zlen; rewrite length_take; lia).
  assert (∀ i o, delete id (to_reqs st) !! i = Some o → 0 <= i <= nextid c) as Hids'.
  { intros i o [_ Hi]%lookup_delete_Some. by eapply ti_ids0. }
  unfold to_data. unfold mbind at 1, M_bind at 1, decode at 1. rewrite unmarshalUint32_marshal, u32_id by (unfold is_u32; lia).
  unfold to_taken. to_fields. rewrite ti_wo0. destruct (Z.eqb_spec (place k) (written_to j)) as [Heq|Hne].
  - rewrite written_to_place in Heq by lia. apply place_inj in Heq as ->.
    destruct (write_chunk j (to_w st) out0 Hk ti_out0) as (w' & -> & Hout'). rewrite Z.ltb_irrefl.
    destruct (bump_bound (to_desired st) c1) as (d & Ed & Hd); [congruence|done|].
    assert (∃ d', (if fileSize <? to_offset st then mret 1 else bump (to_desired st)) c1 = (Returns d', c1) ∧ 1 <= d' <= mc)
      as (d' & Ed' & Hd') by (case_match; [exists 1; split; [done|lia]|eauto]).
    unfold mbind, M_bind. rewrite Ed'. to_fields. rewrite (written_to_place j Hk), (written_to_step j Hk), u64_id.
    2: { unfold is_u64, written_to. pose proof (zlen_nonneg F). nia. }
    assert (progress T (j + 1) (delete id (to_reqs st)) (to_pending st)) as Hstep.
    { rewrite <- (delete_id (to_pending st) (place j)) by done. rewrite <- (delete_insert_eq (to_pending st) (place j) (chunk j)).
      apply progress_step; [done|lia|lia|]. intros i [Hne Hi]%lookup_delete_Some. apply Hne. by eapply (pg_inj _ _ _ _ ti_progress0). }
    match goal with |- context [to_flush w_Write ?n ?s] =>
      destruct (to_flush_spec out0 n T (j + 1) s (le_n _) Hstep eq_refl Hout') as (j' & w'' & p' & -> & Hp' & Hnone & Ho') end.
    eexists _, j'. split; [reflexivity|]. split; [|done].
    split; simpl; rewrite ?Hn, ?Hb; try done; [by split; congruence|lia].
  - eexists _, j. split; [reflexivity|]. split; [|done]. split; simpl; rewrite ?Hn, ?Hb; try done; [by split; congruence| |lia].
    rewrite lookup_insert_ne; [done|]. intros E. apply Hne. rewrite E. by rewrite written_to_place by (apply place_inj in E; lia).
Qed.

Lemma to_inv_eof out0 ch c c1 T j st id k off : to_inv out0 ch c T j st → to_reqs st !! id = Some (place k) → chunks <= k →
  tracks ch c1 (to_tracked (delete id (to_reqs st))) → holds (server (peer c1)) → same_config c c1 → nextid c1 = nextid c →
  to_inv out0 ch c1 T j (set_to_err (to_taken st id) off (Some io_EOF)).
Proof.
  intros [] Hid Hk Ht Hs (Hc1 & Hc2 & _) Hn. destruct ti_config0 as [Hcfg1 Hcfg2]. pose proof (size_delete_present _ _ _ Hid).
  destruct (pg_reqs _ _ _ _ ti_progress0 _ _ Hid) as (k' & E%place_inj & Hk'). subst k'.
  split; simpl; rewrite ?Hn; try done.
  - by split; congruence.
  - by eapply progress_eof.
  - lia.
  - intros i o [_ Hi]%lookup_delete_Some. by eapply ti_ids0.
  - right. split; [done|lia].
Qed.

Lemma to_round out0 ch c T j st fileSize : to_inv out0 ch c T j st → to_reqs st ≠ ∅ →
  ∃ res c1 st' j', receive ch c = (Returns res, c1) ∧ to_result w_Write fileSize res st c1 = (Returns st', c1)
    ∧ to_inv out0 ch c1 T j' st' ∧ to_inFlight st' = to_inFlight st - 1.
Proof.
  intros Hi Hne. pose proof (ti_ids _ _ _ _ _ _ Hi) as Hids. pose proof (ti_budget _ _ _ _ _ _ Hi) as [Hn0 Hbud].
  pose proof (ti_T _ _ _ _ _ _ Hi).
  destruct (receive_tracks ch c (to_tracked (to_reqs st))) as (id & p & x & c1 & Hlook & Ha & Hwf & Hid & Hrec & Ht & Hc & Hnx).
  { apply Hi. }
  { intros E. apply Hne, map_eq. intros i. rewrite lookup_empty.
    assert (to_tracked (to_reqs st) !! i = None) as Hi' by by rewrite E. rewrite lookup_to_tracked in Hi'. by destruct (to_reqs st !! i). }
  { intros i q. rewrite lookup_to_tracked. destruct (to_reqs st !! i) as [s|] eqn:Es; [|done]. intros _.
    apply Hids in Es. unfold is_u32. lia. }
  rewrite lookup_to_tracked in Hlook. destruct (to_reqs st !! id) as [o|] eqn:Hr; [|done]. injection Hlook as <-.
  rewrite <- to_tracked_delete in Ht. pose proof (Hids id o Hr).
  pose proof (pg_range _ _ _ _ (ti_progress _ _ _ _ _ _ Hi)).
  destruct (pg_reqs _ _ _ _ (ti_progress _ _ _ _ _ _ Hi) _ _ Hr) as (k & -> & Hk).
  destruct (proj2 Hserver id (place k) _ _ _ (ti_holds _ _ _ _ _ _ Hi) ltac:(lia) ltac:(nia) Ha) as [Hs Hx].
  assert (∀ res st', r_err res = None → r_data res = marshalUint32 [] id ++ response_body x →
    (if r_typ res =? sshFxpStatus then
       if bool_decide ((to_err (to_taken st id)).2 = None) || (place k <? (to_err (to_taken st id)).1) then
         e ← status_error id (r_data res); mret (set_to_err (to_taken st id) (place k) e)
       else mret (to_taken st id)
     else if r_typ res =? sshFxpData then to_data w_Write (place k) fileSize (response_body x) (to_taken st id)
     else mret (set_to_err (to_taken st id) 0 (Some (unimplementedPacketErr (r_typ res))))) c1 = (Returns st', c1) →
    to_result w_Write fileSize res st c1 = (Returns st', c1)) as Hres.
  { intros res st' He Hd E. unfold to_result. cbv zeta. rewrite He, Hd. unfold mbind at 1, M_bind at 1, decode at 1.
    rewrite unmarshalUint32_marshal, u32_id by (unfold is_u32; lia). to_fields. rewrite Hr, <- Hd. exact E. }
  destruct (Z.leb_spec (zlen F) (place k)) as [Heof|Hin].
  - destruct Hx as (msg & lang & ->). assert (chunks <= k) by (apply Z.nlt_ge; rewrite <- Hchunks by lia; lia).
    destruct (bool_decide ((to_err (to_taken st id)).2 = None) || (place k <? (to_err (to_taken st id)).1)) eqn:Ecase.
    + eexists _, c1, (set_to_err (to_taken st id) (place k) (Some io_EOF)), j. split; [exact Hrec|]. split.
      { apply Hres; [done|done|]. cbn [r_typ response_type]. rewrite Z.eqb_refl. cbn [r_data response_body response_id].
        destruct (status_error_spec c1 id sshFxEOF msg lang) as (m & l & E); [unfold is_u32; lia|done|].
        unfold mbind, M_bind. rewrite E. reflexivity. }
      split; [by eapply to_inv_eof|done].
    + eexists _, c1, (to_taken st id), j. split; [exact Hrec|].
      split; [apply Hres; [done|done|]; cbn [r_typ response_type]; by rewrite Z.eqb_refl|]. split; [|done].
      replace (to_taken st id) with (set_to_err (to_taken st id) (to_err st).1 (Some io_EOF)); [by eapply to_inv_eof|].
      apply orb_false_iff in Ecase as [Ecase _]. apply bool_decide_eq_false in Ecase. simpl in Ecase.
      unfold set_to_err, to_taken. simpl. destruct (ti_err _ _ _ _ _ _ Hi) as [[? _]|[E _]]; [done|]. destruct (to_err st). simpl in *. by subst.
  - cbv zeta in Hx. fold (chunk k) in Hx. rewrite Hx in *. assert (k < chunks) by (apply Hchunks; lia).
    destruct (to_data_spec out0 ch c c1 T j st id k fileSize) as (st' & j' & E & Hi' & Hf); try done; [lia|].
    eexists _, c1, st', j'. split; [exact Hrec|]. split; [by apply Hres|done].
Qed.

(** With nothing in flight nothing waits, and there is nothing left to write. *)
Lemma progress_empty T j waiting : progress T j ∅ waiting → waiting !! place j = None →
  waiting = ∅ ∧ (T <= j ∨ chunks <= j).
Proof.
  intros [Hr Hj _ _ Hw _ Hall] Hnone. assert (T <= j ∨ chunks <= j) as Hend.
  { destruct (decide (T <= j)), (decide (chunks <= j)); try tauto.
    destruct (Hall j ltac:(lia) ltac:(lia)) as [[id Hid]|[d Hd]]; [done|congruence]. }
  split; [|done]. apply map_eq. intros o. rewrite lookup_empty. destruct (waiting !! o) as [d|] eqn:E; [|done].
  destruct (Hw o d E) as (k & -> & Hk & Hkc & _). lia.
Qed.

Lemma WriteTo_loop_spec out0 ch fuel fileSize c T j st : to_inv out0 ch c T j st →
  chunks + mc + 1 <= Z.of_nat fuel + (T - to_inFlight st) →
  ∃ c' T' j' st', WriteTo_loop w_Write fuel ch f fileSize st c = (Returns (st', false), c')
    ∧ to_inv out0 ch c' T' j' st' ∧ to_reqs st' = ∅ ∧ (to_err st').2 = Some io_EOF.
Proof.
  revert c T j st. induction fuel as [|fuel IH]; intros c T j st Hi Hm; unfold WriteTo_loop; fold (@WriteTo_loop P _ W w_Write);
    pose proof (ti_inFlight _ _ _ _ _ _ Hi) as Hf; pose proof (ti_T _ _ _ _ _ _ Hi);
    destruct (bool_decide ((to_err st).2 = None) || (0 <? to_inFlight st)) eqn:Econd.
  1: lia.
  1, 3: apply orb_false_iff in Econd as [He%bool_decide_eq_false ?%Z.ltb_ge]; exists c, T, j, st; split_and!; [done|done
    |apply map_size_empty_inv; lia|by destruct (ti_err _ _ _ _ _ _ Hi) as [[? _]|[? _]]].
  assert (∃ c1 T1 st1, (if bool_decide ((to_err st).2 = None) then to_fill (Z.to_nat (to_desired st)) ch f fileSize st else mret st) c
      = (Returns st1, c1) ∧ to_inv out0 ch c1 T1 j st1 ∧ T1 - to_inFlight st1 = T - to_inFlight st ∧ to_inFlight st1 ≠ 0)
    as (c1 & T1 & st1 & E1 & Hi1 & HT1 & Hnz).
  { case_bool_decide as He.
    - destruct (to_fill_spec out0 ch (Z.to_nat (to_desired st)) fileSize c T j st Hi He) as (c1 & T1 & st1 & E & Hi1 & _ & HT1 & Hnz & _).
      exists c1, T1, st1. split_and!; try done. apply Hnz. destruct (decide (to_inFlight st = 0)) as [Hz|]; [right|by left].
      pose proof (ti_desired _ _ _ _ _ _ Hi). split; [lia|].
      assert (to_reqs st = ∅) as Er by (apply map_size_empty_inv; lia). pose proof (ti_progress _ _ _ _ _ _ Hi) as Hp. rewrite Er in Hp.
      by destruct (progress_empty _ _ _ Hp (ti_next _ _ _ _ _ _ Hi)).
    - exists c, T, st. split_and!; try done. apply orb_true_iff in Econd as [?|?%Z.ltb_lt]; [done|lia]. }
  unfold mbind at 1, M_bind at 1. rewrite E1. destruct (Z.eqb_spec (to_inFlight st1) 0); [done|].
  destruct (to_round out0 ch c1 T1 j st1 fileSize Hi1) as (res & c2 & st2 & j2 & Hrec & Hres & Hi2 & Hf2).
  { intros E0. pose proof (ti_inFlight _ _ _ _ _ _ Hi1) as Hf1. rewrite E0, map_size_empty in Hf1. lia. }
  unfold mbind, M_bind. rewrite Hrec, Hres. apply (IH _ _ _ _ Hi2). lia.
Qed.

Lemma to_inv_done out0 ch c T j st : to_inv out0 ch c T j st → to_reqs st = ∅ → (to_err st).2 = Some io_EOF →
  out (to_w st) = out0 ++ drop (Z.to_nat off0) F.
Proof.
  intros Hi Hr He. pose proof (ti_progress _ _ _ _ _ _ Hi) as Hp. rewrite Hr in Hp.
  destruct (progress_empty _ _ _ Hp (ti_next _ _ _ _ _ _ Hi)) as [_ Hend]. pose proof (pg_j _ _ _ _ Hp). pose proof (pg_range _ _ _ _ Hp).
  destruct (ti_err _ _ _ _ _ _ Hi) as [[? _]|[_ HT]]; [congruence|]. assert (j = chunks) as -> by lia.
  rewrite (ti_out _ _ _ _ _ _ Hi). f_equal. apply take_ge. rewrite length_drop.
  assert (zlen F <= place chunks) by (apply Z.nlt_ge; rewrite Hchunks by lia; lia). unfold written_to, zlen in *. lia.
Qed.
End write_to.

(** [WriteTo] copies the rest of the file in the right order, whatever
    order the answers arrive in: against a server that reads the file [F] for
    the handle, with a writer that takes what it is given, the call returns
    without an error and the writer has got exactly the bytes of [F] from the
    file's offset on. (The number it reports leaves out what had to wait.) *)
Theorem client_WriteTo_copies_file {P A W : Type} `{PeerSpec P A} (w_Write : list byte → W → (Z * option error) * W)
    (out : W → list byte) (f : File) (F : list byte) (holds : A → Prop) (w : W) (c c1 : Client P) (fileSize : Z) (fuel : nat) :
  (∀ d w, ∃ w', w_Write d w = ((zlen d, None), w') ∧ out w' = out w ++ d) →
  reads_fully F holds (maxPacket c1) (f_handle f) →
  WriteTo_size f c = (Returns fileSize, c1) → idle c1 → holds (server (peer c1)) →
  slen (f_handle f) <= 256 → 1 <= maxPacket c1 < 2 ^ 32 → 1 <= maxConcurrentRequests c1 → 0 <= f_offset f →
  f_offset f + (zlen F + maxConcurrentRequests c1 + 1) * maxPacket c1 < 2 ^ 63 →
  0 <= nextid c1 → nextid c1 + zlen F + maxConcurrentRequests c1 < 2 ^ 32 →
  zlen F + maxConcurrentRequests c1 + 1 <= Z.of_nat fuel →
  ∃ w' copied c', File_WriteTo w_Write fuel f w c = (Returns (w', copied, None), c') ∧ idle c'
    ∧ out w' = out w ++ drop (Z.to_nat (f_offset f)) F.
Proof.
  intros Hwriter Hserver Hsz Hidle Hholds Hh Hmp Hmc Hoff Hrange Hn0 Hids Hfuel. pose proof (zlen_nonneg F).
  set (mp := maxPacket c1) in *. set (mc := maxConcurrentRequests c1) in *.
  set (chunks := (Z.max 0 (zlen F - f_offset f) + mp - 1) / mp).
  assert (0 <= chunks <= zlen F) as Hch by (unfold chunks; split; [apply Z.div_pos; lia|apply Z.lt_succ_r, Z.div_lt_upper_bound; nia]).
  assert (∀ k, 0 <= k → f_offset f + k * mp < zlen F ↔ k < chunks) as Hchunks.
  { intros k Hk. unfold chunks.
    split; intros ?; [apply Z.le_succ_l, Z.div_le_lower_bound; nia|].
    assert (mp * ((Z.max 0 (zlen F - f_offset f) + mp - 1) / mp) <= Z.max 0 (zlen F - f_offset f) + mp - 1) by (apply Z.mul_div_le; lia). nia. }
  destruct (make_chan c1) as [r c2] eqn:Emk. destruct r as [ch| | |]; try discriminate Emk.
  destruct (idle_tracks c1 ch c2 Hidle Emk) as (Ht & Hs & (Hc1 & Hc2 & _) & Hnx).
  set (st0 := mkTo w 0 1 (f_offset f) (f_offset f) ∅ ∅ (0, None) 0).
  assert (to_inv out f F holds mp mc (f_offset f) chunks (out w) ch c2 0 0 st0) as Hi.
  { split; simpl; rewrite ?Hs, ?Hc1, ?Hc2, ?Hnx, ?msum_empty; try done; try lia.
    - split; try done; lia.
    - unfold written_to. rewrite Z.min_l by lia. replace (f_offset f + 0 * mp - f_offset f) with 0 by lia. simpl. by rewrite app_nil_r.
    - unfold written_to. lia.
    - left. split; [done|lia]. }
  destruct (WriteTo_loop_spec w_Write out Hwriter f F holds Hh mp mc (f_offset f) chunks Hserver Hmp Hmc Hoff Hchunks (proj1 Hch) ltac:(nia) ltac:(nia)
    (out w) ch fuel fileSize c2 0 0 st0 Hi) as (c' & T' & j' & st' & E & Hi' & Hr & He); [simpl; lia|].
  exists (to_w st'), (to_copied st'), c'. split_and!.
  - unfold File_WriteTo, attempt, mbind, M_bind. rewrite Hsz. rewrite Emk. fold st0. rewrite E. unfold mret, M_ret. by rewrite He.
  - apply (tracks_idle ch). pose proof (ti_tracks _ _ _ _ _ _ _ _ _ _ _ _ _ _ Hi') as Ht'. by rewrite Hr in Ht'.
  - eapply (to_inv_done out f F holds mp mc (f_offset f) chunks); done || lia.
Qed.

Lemma mem_server_reads_fully F l : l <= 32768 →
  reads_fully (P := sched MemServer.state) F (λ s, MemServer.ms_file s = F ∧ MemServer.ms_chunk s = 32768) l "1".
Proof.
  intros Hmax. split; [by intros ? ? ?|]. intros id o s x s' [HF Hc] Hl Ho (_ & _ & E). simpl in E. rewrite HF in E. destruct (Z.leb_spec (zlen F) o).
  { injection E as <- <-. split; [done|]. by eexists _, _. }
  rewrite Hc, Z.min_l in E by lia. injection E as <- <-. by split; [|].
Qed.

Definition append_writer (d : list byte) (w : list byte) : (Z * option error) * list byte := ((zlen d, None), w ++ d).

(** The answers for "abcdefghij" in packets of three bytes come from the last
    to the first where more than one is in flight. *)
Definition download_client : Client (sched MemServer.state) :=
  MemServer.client (MemServer.mk (bytes_of_string "abcdefghij") 32768 100 false) [0; 0; 1; 1; 0]%nat 3.
Lemma client_WriteTo_copies_file_witness :
  ∃ w' copied c', File_WriteTo append_writer 80 (mkFile "/a" "1" 1) [] download_client = (Returns (w', copied, None), c')
    ∧ idle c' ∧ w' = bytes_of_string "bcdefghij".
Proof.
  destruct (client_WriteTo_copies_file append_writer id (mkFile "/a" "1" 1) (bytes_of_string "abcdefghij")
    (λ s, MemServer.ms_file s = bytes_of_string "abcdefghij" ∧ MemServer.ms_chunk s = 32768) [] download_client
    (WriteTo_size (mkFile "/a" "1" 1) download_client).2 10 80) as (w' & copied & c' & E & Hidle & Hout).
  - intros d w. exists (w ++ d). done.
  - by apply mem_server_reads_fully.
  - by vm_compute.
  - by apply sched_idle; vm_compute.
  - by vm_compute.
  - by vm_compute.
  - by vm_compute.
  - by vm_compute.
  - by vm_compute.
  - by vm_compute.
  - by vm_compute.
  - by vm_compute.
  - by vm_compute.
  - exists w', copied, c'. split; [exact E|]. split; [exact Hidle|exact Hout].
Defined.
(** The number it reports leaves out the bytes that had to wait. *)
Example WriteTo_miscounts :
  (File_WriteTo append_writer 80 (mkFile "/a" "1" 1) [] download_client).1
  = Returns (bytes_of_string "bcdefghij", 6, None).
Proof. vm_compute. reflexivity. Qed.
