(* ===== verification/ClientServer.v ===== *)
(** * The SFTP client against the request server

    The client of sftp/client.go is connected to the request server of
    sftp/request-server.go: what a call of the client returns is said by what
    the handlers of the server do, through both codecs and the framing. *)
From stdpp Require Import base tactics option list strings gmap.
From Stdlib Require Import ZArith Lia.
From S2P Require Import Prelude GoOs SftpWire SftpPackets GoPath GoStrconv RequestServer.
From S2P Require Import ClientConn ClientPeer Client ClientIO.

Lemma status_error_exact {P} (c : Client P) id code msg lang : is_u32 id → is_u32 code → slen msg < 2 ^ 32 → slen lang < 2 ^ 32 →
  status_error id (marshalUint32 [] id ++ marshalStatus [] {| se_Code := code; se_msg := msg; se_lang := lang |}) c
  = (Returns (normaliseError (EStatus code msg lang)), c).
Proof.
  intros Hid Hcode Hm Hl. unfold status_error, unmarshalStatus, marshalStatus. cbv zeta. cbn [se_Code se_msg se_lang].
  rewrite (marshalString_app (marshalString _ _)), (marshalString_app (marshalUint32 _ _)), <- app_assoc.
  rewrite unmarshalUint32_marshal. cbn [mbind result_bind]. rewrite u32_id, Z.eqb_refl by done. cbn [negb].
  rewrite unmarshalUint32_marshal, u32_id by done. cbn [mbind result_bind].
  rewrite unmarshalStringSafe_marshal by done. cbn [lenient mbind result_bind].
  rewrite unmarshalStringSafe_marshal_nil by done. done.
Qed.

Section over_server.
Context {W obj lister : Type} `{HS : HandlersSpec W obj lister}.
Context (errText : error → string) (runLs : string → FileInfo → string) (exts : list extensionPair).
Abbreviation A := (RequestServer obj lister * W)%type.

Instance request_server : Server A := {
  serve p s := let '(x, rs, w) := packetWorker errText runLs exts p 0 s.1 s.2 in (x, (rs, w))
}.
Abbreviation C := (Client (sched A)).
Implicit Types (c : C) (rs : RequestServer obj lister) (w : W).

(** The error a client sees for what a handler returned. *)
Definition seen_error (err : option error) : option client_error :=
  match statusFromError errText 0 err with
  | sshFxpStatusPacket _ e => normaliseError (EStatus (se_Code e) (se_msg e) (se_lang e))
  | _ => None
  end.
Definition seen (err : option error) : outcome unit :=
  match seen_error err with Some e => Fails e | None => Returns tt end.

(** The text of the error fits into a frame. *)
Definition text_fits (err : option error) : Prop :=
  match err with Some e => slen (error_Error errText e) <= 200000 | None => True end.

Lemma statusFromError_shape id err : text_fits err → ∃ e, statusFromError errText id err = sshFxpStatusPacket id e
  ∧ is_u32 (se_Code e) ∧ slen (se_msg e) <= 200000 ∧ se_lang e = EmptyString
  ∧ seen_error err = normaliseError (EStatus (se_Code e) (se_msg e) (se_lang e)).
Proof.
  unfold seen_error, statusFromError. intros Htext. destruct err as [e|].
  - eexists. split; [reflexivity|]. cbn [se_Code se_msg se_lang]. split_and!; [|done|done|done].
    case_match; [done|]. unfold translateSyscallError, translateErrno. repeat case_match; simplify_eq; try done; apply u32_range.
  - eexists. split; [reflexivity|]. done.
Qed.

Lemma status_fits id err : text_fits err → zlen (response_body (statusFromError errText id err)) + 5 <= maxMsgLength.
Proof.
  intros Ht. destruct (statusFromError_shape id err Ht) as ([code msg lang] & Ee & _ & Hmsg & Hlang & _). rewrite Ee.
  simpl in Hmsg, Hlang. subst. unfold response_body, marshalStatus. cbv zeta. simpl. wire_norm.
  rewrite !zlen_app, zlen_marshalUint32, !zlen_marshalString. change (slen "") with 0. unfold maxMsgLength. lia.
Qed.

(** ** One request and its answer *)
Lemma ask (pk : Z → requestPacket) c x s : let id := u32 (nextid c + 1) in
  quiet c → is_request (pk id) → request_id (pk id) = id → zlen (request_MarshalBinary (pk id)) <= maxMsgLength →
  serve (pk id) (sc_state (peer c)) = (Ok x, s) → wf_response x → response_id x = id →
  zlen (response_body x) + 5 <= maxMsgLength →
  ∃ c', conn_sendPacket id (request_MarshalBinary (pk id)) (set_nextid id c)
        = (Returns (mkResponse (response_type x) (marshalUint32 [] id ++ response_body x) None), c')
    ∧ quiet c' ∧ sc_state (peer c') = s ∧ same_config c c' ∧ nextid c' = id.
Proof.
  intros id Hq Hp Hid Hfit Hserve Hwf Hrid Hbody.
  destruct (sched_send (set_nextid id c) (pk id) x s) as (c' & E & Hq' & Hs & Hc & Hn); try done.
  - rewrite Hid. apply u32_range.
  - by rewrite Hrid.
  - exists c'. rewrite Hid, Hrid in E. rewrite E. done.
Qed.

Lemma status_request_spec (pk : Z → requestPacket) c err s : let id := u32 (nextid c + 1) in
  quiet c → is_request (pk id) → request_id (pk id) = id → zlen (request_MarshalBinary (pk id)) <= maxMsgLength →
  serve (pk id) (sc_state (peer c)) = (Ok (statusFromError errText id err), s) → text_fits err →
  ∃ c', status_request (λ id, request_MarshalBinary (pk id)) c = (seen err, c')
    ∧ quiet c' ∧ sc_state (peer c') = s.
Proof.
  intros id Hq Hp Hid Hfit Hserve Htext. destruct (statusFromError_shape id err Htext) as (e & Ee & Hcode & Hmsg & Hlang & Hseen).
  rewrite Ee in Hserve. destruct (ask pk c _ s Hq Hp Hid Hfit Hserve) as (c' & E & Hq' & Hs & _);
    [done|done|rewrite <- Ee; by apply status_fits|].
  exists c'. split; [|done]. unfold status_request, send, mbind, M_bind, nextID. cbv beta iota zeta. rewrite E.
  cbn [r_err r_typ r_data response_type response_body]. unfold mret, M_ret. cbv beta iota. rewrite Z.eqb_refl.
  unfold return_status, mbind, M_bind. destruct e as [code msg lang]. cbn [se_Code se_msg se_lang] in Hcode, Hmsg, Hlang, Hseen. subst lang.
  rewrite status_error_exact; [|apply u32_range|done|lia|done]. unfold seen. rewrite Hseen.
  by destruct (normaliseError _).
Qed.

(** ** Commands *)

(** What the server does with a command: the handler is called with the request
    for it, and the table of open files stays as it is. The target of a
    posix-rename is passed on as it came; without a handler of its own it is
    served as a rename. *)
Definition posix_rename (old new : string) : W → option error * W :=
  match PosixRename with
  | Some f => f (set_Target (NewRequest "PosixRename" old) new)
  | None => Filecmd (set_Target (NewRequest "Rename" old) new)
  end.
Definition command_of (p : requestPacket) : option (W → option error * W) :=
  match p with
  | sshFxpRenamePacket _ old new => Some (Filecmd (set_Target (NewRequest "Rename" old) (cleanPath new)))
  | sshFxpSymlinkPacket _ target link => Some (Filecmd (set_Target (NewRequest "Symlink" target) (cleanPath link)))
  | sshFxpRemovePacket _ path => Some (Filecmd (NewRequest "Remove" path))
  | sshFxpRmdirPacket _ path => Some (Filecmd (NewRequest "Rmdir" path))
  | sshFxpMkdirPacket _ _ path => Some (Filecmd (NewRequest "Mkdir" path))
  | sshFxpSetstatPacket _ flags path attrs => Some (Filecmd (set_Attrs (set_Flags (NewRequest "Setstat" path) flags) attrs))
  | sshFxpExtendedPacket _ _ (Some (sshFxpExtendedPacketHardlink _ _ old new)) =>
      Some (Filecmd (set_Target (NewRequest "Link" old) (cleanPath new)))
  | sshFxpExtendedPacket _ _ (Some (sshFxpExtendedPacketPosixRename _ _ old new)) => Some (posix_rename old new)
  | _ => None
  end.

Lemma worker_command p cmd rs w err w' : command_of p = Some cmd → is_request p → cmd w = (err, w') →
  packetWorker errText runLs exts p 0 rs w = (Ok (statusFromError errText (request_id p) err), rs, w').
Proof.
  intros Hc Hp E. destruct rs as [tbl n al].
  destruct p; try discriminate Hc; simpl in Hc;
    try (match goal with s : option specificPacket |- _ => destruct s as [[]|] end; try discriminate Hc; simpl in Hp; destruct_and?; subst);
    injection Hc as <-; unfold posix_rename in *; unfold packetWorker, serve_packet; simpl; unfold call_fresh, call, filecmd; simpl;
    unfold requestFromPacket in *; simpl in *; try (destruct PosixRename as [f|]; simpl); unfold set_Method, set_Target, NewRequest in *; simpl in *; rewrite E; done.
Qed.

Lemma client_command (pk : Z → requestPacket) c rs w cmd err w' : let id := u32 (nextid c + 1) in
  quiet c → sc_state (peer c) = (rs, w) → is_request (pk id) → request_id (pk id) = id →
  zlen (request_MarshalBinary (pk id)) <= maxMsgLength → command_of (pk id) = Some cmd → cmd w = (err, w') → text_fits err →
  ∃ c', status_request (λ id, request_MarshalBinary (pk id)) c = (seen err, c') ∧ quiet c' ∧ sc_state (peer c') = (rs, w').
Proof.
  intros id Hq Hs Hp Hid Hfit Hr E Ht. apply status_request_spec; [done..| |done]. rewrite Hs. simpl.
  rewrite (worker_command _ cmd rs w err w') by done. unfold id in Hid. by rewrite Hid.
Qed.

(** A call of the client that runs a call of a handler on the server. *)
Definition runs_command c (op : M C unit) (cmd : W → option error * W) : Prop :=
  ∀ err w', cmd (sc_state (peer c)).2 = (err, w') → text_fits err →
  ∃ c', op c = (seen err, c') ∧ quiet c' ∧ sc_state (peer c') = ((sc_state (peer c)).1, w').

Lemma runs_command_intro (pk : Z → requestPacket) c (op : M C unit) cmd : quiet c →
  (∀ id, is_u32 id → is_request (pk id) ∧ request_id (pk id) = id ∧ zlen (request_MarshalBinary (pk id)) <= maxMsgLength
                     ∧ command_of (pk id) = Some cmd) →
  op c = status_request (λ id, request_MarshalBinary (pk id)) c → runs_command c op cmd.
Proof.
  intros Hq Hpk Hop err w' E Ht. rewrite Hop. destruct (Hpk (u32 (nextid c + 1)) (u32_range _)) as (? & ? & ? & ?).
  destruct (sc_state (peer c)) as [rs w] eqn:Es. by eapply client_command.
Qed.

Lemma setstat_attrs id flags path attrs : (∀ b, marshal b attrs = b ++ marshal [] attrs) →
  sshFxpSetstatPacket_MarshalBinary id flags path attrs = request_MarshalBinary (sshFxpSetstatPacket id flags path (marshal [] attrs)).
Proof. intros Ha. simpl. unfold sshFxpSetstatPacket_MarshalBinary. cbv zeta. by rewrite Ha, marshal_VBytes. Qed.

Ltac command_packet :=
  let id := fresh in let Hid := fresh in
  intros id Hid; split_and!; [try done; split; done|done| |done]; simpl;
  match goal with |- zlen ?m <= _ => let f := head_of m in unfold f, marshalIDString end; cbv zeta;
  wire_norm; cbn [app];
  rewrite zlen_cons, ?zlen_app, ?zlen_marshalUint32, ?zlen_marshalUint64, ?zlen_marshalString; unfold maxMsgLength;
  repeat match goal with |- context [slen (String ?a ?b)] =>
    let v := eval vm_compute in (slen (String a b)) in change (slen (String a b)) with v end; lia.

Lemma runs_setstat c p fl attrs : quiet c → slen p <= 100000 → is_u32 fl → (∀ b, marshal b attrs = b ++ marshal [] attrs) →
  zlen (marshal [] attrs) <= 16 →
  runs_command c (Client_setstat p fl attrs) (Filecmd (set_Attrs (set_Flags (NewRequest "Setstat" p) fl) (marshal [] attrs))).
Proof.
  intros Hq Hp Hfl Ha Hlen. apply (runs_command_intro (λ id, sshFxpSetstatPacket id fl p (marshal [] attrs))); [done| |].
  - intros id Hid. split_and!; [done|done| |done]. rewrite <- setstat_attrs by done.
    unfold sshFxpSetstatPacket_MarshalBinary. cbv zeta. rewrite Ha. wire_norm. cbn [app].
    rewrite zlen_cons, !zlen_app, !zlen_marshalUint32, zlen_marshalString. unfold maxMsgLength. lia.
  - unfold Client_setstat, status_request, mbind, M_bind. destruct (nextID c) as [[id| | |] c1]; try done.
    by rewrite setstat_attrs.
Qed.

(** C11: a command of the client is a call of the command handler of the
    server: for rename, symlink, link, remove, rmdir, mkdir, chmod, chown,
    chtimes and truncate the handler is called once with the method, the cleaned
    paths and the attributes of the call; for a posix-rename the source is
    cleaned and the target is passed on as the caller wrote it, to the handler
    for it if there is one and otherwise as a rename. The caller sees exactly
    what the handler returned (success, "does not exist", "permission denied",
    end of file, or the code and text of the error), and the table of open files
    is unchanged. Paths are up to 100000 bytes long, and the text of an error
    fits a packet. *)
Theorem client_commands_reach_handlers c p q n m : quiet c → slen p <= 100000 → slen q <= 100000 →
  runs_command c (Client_Rename p q) (Filecmd (set_Target (NewRequest "Rename" p) (cleanPath q)))
  ∧ runs_command c (Client_PosixRename p q)
      (match PosixRename with
       | Some f => f (set_Target (NewRequest "PosixRename" p) q)
       | None => Filecmd (set_Target (NewRequest "Rename" p) q)
       end)
  ∧ runs_command c (Client_Symlink p q) (Filecmd (set_Target (NewRequest "Symlink" p) (cleanPath q)))
  ∧ runs_command c (Client_Link p q) (Filecmd (set_Target (NewRequest "Link" p) (cleanPath q)))
  ∧ runs_command c (Client_removeFile p) (Filecmd (NewRequest "Remove" p))
  ∧ runs_command c (Client_RemoveDirectory p) (Filecmd (NewRequest "Rmdir" p))
  ∧ runs_command c (Client_Mkdir p) (Filecmd (NewRequest "Mkdir" p))
  ∧ runs_command c (Client_Chmod p n)
      (Filecmd (set_Attrs (set_Flags (NewRequest "Setstat" p) sshFileXferAttrPermissions) (marshalUint32 [] (u32 n))))
  ∧ runs_command c (Client_Chown p n m)
      (Filecmd (set_Attrs (set_Flags (NewRequest "Setstat" p) sshFileXferAttrUIDGID) (marshalUint32 [] (u32 n) ++ marshalUint32 [] (u32 m))))
  ∧ runs_command c (Client_Chtimes p n m)
      (Filecmd (set_Attrs (set_Flags (NewRequest "Setstat" p) sshFileXferAttrACmodTime) (marshalUint32 [] (u32 n) ++ marshalUint32 [] (u32 m))))
  ∧ runs_command c (Client_Truncate p n)
      (Filecmd (set_Attrs (set_Flags (NewRequest "Setstat" p) sshFileXferAttrSize) (marshalUint64 [] (u64 n)))).
Proof.
  intros Hq Hp Hq'. split_and!.
  - apply (runs_command_intro (λ id, sshFxpRenamePacket id p q)); [done|command_packet|done].
  - apply (runs_command_intro (λ id, sshFxpExtendedPacket id "posix-rename@openssh.com"
      (Some (sshFxpExtendedPacketPosixRename id "posix-rename@openssh.com" p q)))); [done|command_packet|done].
  - apply (runs_command_intro (λ id, sshFxpSymlinkPacket id p q)); [done|command_packet|done].
  - apply (runs_command_intro (λ id, sshFxpExtendedPacket id "hardlink@openssh.com"
      (Some (sshFxpExtendedPacketHardlink id "hardlink@openssh.com" p q)))); [done|command_packet|done].
  - apply (runs_command_intro (λ id, sshFxpRemovePacket id p)); [done|command_packet|done].
  - apply (runs_command_intro (λ id, sshFxpRmdirPacket id p)); [done|command_packet|done].
  - apply (runs_command_intro (λ id, sshFxpMkdirPacket id 0 p)); [done|command_packet|done].
  - apply runs_setstat; [done|done|done|intros b; simpl; wire_norm; done|done].
  - apply runs_setstat; [done|done|done|intros b; simpl; wire_norm; done|done].
  - apply runs_setstat; [done|done|done|intros b; simpl; wire_norm; done|done].
  - apply runs_setstat; [done|done|done|intros b; apply marshalUint64_app|done].
Qed.
End over_server.

(** A client of the demonstration handlers. *)
Definition demo_client : Client (sched (RequestServer unit (list FileInfo) * nat)) :=
  mkClient (mkSched [] (Demo.rs1, O) []) ∅ ∅ false None 0 ∅ 32768 64 false.

#[local] Instance demo_server : Server (RequestServer unit (list FileInfo) * nat) :=
  request_server Demo.errText Demo.ls supportedSFTPExtensions.

Lemma client_commands_reach_handlers_witness :
  runs_command Demo.errText demo_client (Client_Mkdir "/d") (Filecmd (NewRequest "Mkdir" "/d"))
  ∧ runs_command Demo.errText demo_client (Client_PosixRename "/d" "../e")
      (Filecmd (set_Target (NewRequest "Rename" "/d") "../e")).
Proof.
  destruct (client_commands_reach_handlers Demo.errText Demo.ls supportedSFTPExtensions demo_client "/d" "../e" 0 0)
    as (_ & Hr & _ & _ & _ & _ & H & _); [by repeat split|by vm_compute|by vm_compute|]. exact (conj H Hr).
Defined.
