(* ===== verification/ClientFiles.v ===== *)
(** * Files of the SFTP client over the request server

    The client of sftp/client.go opens a file on the request server of
    sftp/request-server.go, reads or writes it with requests in flight that the
    server may answer in any order, and closes it. What arrives is said by the
    objects the handlers return. *)
From stdpp Require Import base tactics option list strings gmap.
From Stdlib Require Import ZArith Lia.
From S2P Require Import Prelude GoOs SftpWire SftpPackets GoPath GoStrconv FileSystem RequestServer.
From S2P Require Import ClientConn ClientPeer Client ClientIO ClientUpload ClientServer.

Section files.
Context {W obj lister : Type} `{HS : HandlersSpec W obj lister}.
Context (errText : error → string) (runLs : string → FileInfo → string) (exts : list extensionPair).
Abbreviation A := (RequestServer obj lister * W)%type.
#[local] Hint Extern 0 (Server _) => exact (request_server errText runLs exts) : typeclass_instances.
Abbreviation C := (Client (sched A)).
Implicit Types (c : C) (rs : RequestServer obj lister) (w : W) (r : Request obj lister).

(** ** Answers with a value *)
Lemma value_request_spec {T} (pk : Z → requestPacket) want (read : list byte → M C T) v c x s :
  let id := u32 (nextid c + 1) in
  quiet c → is_request (pk id) → request_id (pk id) = id → zlen (request_MarshalBinary (pk id)) <= maxMsgLength →
  serve (pk id) (sc_state (peer c)) = (Ok x, s) → wf_response x → response_id x = id →
  zlen (response_body x) + 5 <= maxMsgLength → response_type x = want →
  ∃ c', value_request want read v (λ id, request_MarshalBinary (pk id)) c = read (response_body x) c'
    ∧ quiet c' ∧ sc_state (peer c') = s ∧ same_config c c' ∧ nextid c' = id.
Proof.
  intros id Hq Hp Hid Hfit Hserve Hwf Hrid Hbody Ht.
  destruct (ask errText runLs exts pk c x s Hq Hp Hid Hfit Hserve Hwf Hrid Hbody) as (c' & E & Hq' & Hs & Hc & Hn).
  exists c'. split; [|done]. unfold value_request, send, nextID, mbind, M_bind. cbv beta iota zeta. rewrite E.
  cbn [r_err r_typ r_data]. unfold mret, M_ret. cbv beta iota. rewrite Ht, Z.eqb_refl.
  unfold check_id, decode, mbind, M_bind. rewrite unmarshalUint32_marshal, u32_id by apply u32_range. by rewrite Z.eqb_refl.
Qed.

(** ** Opening *)

(** The request the server keeps for an open file, as the handler gets it. *)
Definition open_request (method path : string) (pflags : Z) (h : string) : Request obj lister :=
  set_Method (set_handle (set_Flags (NewRequest "" path) pflags) h) method.

(** The table with one more open file. *)
Definition with_open (h : string) r rs : RequestServer obj lister :=
  mkRS (<[h := r]> (openRequests rs)) (handleCount rs + 1) (rs_alloc rs).

Lemma worker_open id path pflags rs w (set : Request obj lister → option obj → Request obj lister) m o w1 :
  let h := Itoa (handleCount rs + 1) in
  let p := plain (sshFxpOpenPacket id path pflags 0) in
  0 <= handleCount rs → handleCount rs + 1 < 2 ^ 63 →
  open errText (set_handle (set_Flags (NewRequest "" path) pflags) h) p w
    = (Ok (sshFxpHandlePacket id h), set (open_request m path pflags h) (Some o), w1) →
  packetWorker errText runLs exts (sshFxpOpenPacket id path pflags 0) 0 rs w
  = (Ok (sshFxpHandlePacket id h), with_open h (set (open_request m path pflags h) (Some o)) rs, w1).
Proof.
  intros h p H0 Hlt E. unfold packetWorker, serve_packet, open_with, nextRequest, requestFromPacket. simpl.
  rewrite (i64_id (handleCount rs + 1)) by (unfold is_i64; lia). fold h. fold p. rewrite E. simpl.
  unfold storeRequest. cbn [openRequests handleCount rs_alloc]. unfold with_open. by rewrite insert_insert_eq.
Qed.

Lemma read_handle_marshal h c : slen h < 2 ^ 32 → read_handle (marshalString [] h) c = (Returns h, c).
Proof.
  intros. unfold read_handle, decode, mbind, M_bind. rewrite <- (app_nil_r (marshalString [] h)).
  by rewrite unmarshalString_marshal.
Qed.

Lemma client_open c rs w path pflags x (set : Request obj lister → option obj → Request obj lister) m o w1 :
  let h := Itoa (handleCount rs + 1) in
  quiet c → sc_state (peer c) = (rs, w) → slen path <= 100000 → is_u32 pflags →
  0 <= handleCount rs → handleCount rs + 1 < 2 ^ 63 → slen h <= 256 →
  (∀ id, open errText (set_handle (set_Flags (NewRequest "" path) pflags) h) (plain (sshFxpOpenPacket id path pflags 0)) w
         = (Ok (sshFxpHandlePacket id h), set (open_request m path pflags h) (Some o), w1)) →
  x = with_open h (set (open_request m path pflags h) (Some o)) rs →
  ∃ c', Client_open path pflags c = (Returns (Some (mkFile path h 0)), c') ∧ quiet c' ∧ sc_state (peer c') = (x, w1)
    ∧ same_config c c' ∧ nextid c' = u32 (nextid c + 1).
Proof.
  intros h Hq Hs Hpath Hfl H0 Hlt Hh Ho ->. set (id := u32 (nextid c + 1)).
  destruct (value_request_spec (λ id, sshFxpOpenPacket id path pflags 0) sshFxpHandle
    (λ data, handle ← read_handle data; mret (Some (mkFile path handle 0))) None c (sshFxpHandlePacket id h)
    (with_open h (set (open_request m path pflags h) (Some o)) rs, w1)) as (c' & E & Hrest); try done.
  - simpl. split_and!; [apply u32_range|done|done].
  - simpl. unfold sshFxpOpenPacket_MarshalBinary. cbv zeta. wire_norm. cbn [app].
    rewrite zlen_cons, ?zlen_app, ?zlen_marshalUint32, ?zlen_marshalString. unfold maxMsgLength. lia.
  - rewrite Hs. simpl. fold id. by rewrite (worker_open id path pflags rs w set m o w1 H0 Hlt (Ho id)).
  - cbn [response_body]. rewrite zlen_marshalString. unfold maxMsgLength. lia.
  - exists c'. split; [|done]. etransitivity; [exact E|]. cbn [response_body]. unfold mbind, M_bind.
    by rewrite read_handle_marshal by lia.
Qed.

(** ** Closing *)
Definition closing_error (res : option (option error)) : option error := default None res.

Lemma client_close c rs w h r o res w' :
  quiet c → sc_state (peer c) = (rs, w) → slen h <= 256 → openRequests rs !! h = Some r →
  request_close r w = (closing_error res, w') → obj_Close o w = (res, w') → text_fits errText (closing_error res) →
  ∃ c', Client_close h c = (seen errText (closing_error res), c') ∧ quiet c'
    ∧ sc_state (peer c') = (mkRS (delete h (openRequests rs)) (handleCount rs) (rs_alloc rs), w').
Proof.
  intros Hq Hs Hh Hr Hc Ho Ht.
  apply (status_request_spec errText runLs exts (λ id, sshFxpClosePacket id h)); try done.
  - apply u32_range.
  - simpl. unfold sshFxpClosePacket_MarshalBinary, marshalIDString. cbv zeta. wire_norm. cbn [app].
    rewrite zlen_cons, ?zlen_app, ?zlen_marshalUint32, ?zlen_marshalString. unfold maxMsgLength. lia.
  - rewrite Hs. simpl. unfold packetWorker, serve_packet. simpl. unfold closeRequest. by rewrite Hr, Hc.
Qed.

(** ** Reading *)

(** The object [o] reads the file [F]; a read reports the end of the file when
    it is short, and may do so when it ends there. *)
Definition file_reader (o : obj) (F : list byte) (good : W → Prop) : Prop :=
  ∀ n off w, good w → 0 <= n → 0 <= off →
    let l := take (Z.to_nat n) (drop (Z.to_nat off) F) in
    ∃ err w', ReadAt o n off w = ((l, err), w') ∧ good w' ∧ (err = Some EOF ∨ err = None ∧ zlen l = n).

Section reading.
Context (h : string) r (o : obj) (F : list byte) (good : W → Prop) (tbl : gmap string (Request obj lister)) (count : Z).
Context (Hr : tbl !! h = Some r) (Hget : Method r = "Get"%string) (Ho : readerAt r = Some o).
Context (Hreader : file_reader o F good) (Heof : text_fits errText (Some EOF)).

Definition reading (a : A) : Prop := openRequests a.1 = tbl ∧ handleCount a.1 = count ∧ good a.2.
Definition read_of (p : requestPacket) : Prop :=
  ∃ id l off, p = sshFxpReadPacket id l off h ∧ is_request p ∧ off < 2 ^ 63.

(** What a READ is answered with. *)
Definition read_answer (id l off : Z) : responsePacket :=
  let data := take (Z.to_nat (Z.min l maxTxPacket)) (drop (Z.to_nat off) F) in
  if (zlen data =? 0) && (0 <? l) then statusFromError errText id (Some EOF)
  else sshFxpDataPacket id (zlen data) data.

Lemma serve_read id l off a : reading a → is_u32 l → 0 <= off < 2 ^ 63 →
  ∃ x a', serve (sshFxpReadPacket id l off h) a = (Ok x, a') ∧ reading a'
    ∧ (0 < l → x = read_answer id l off) ∧ (l = 0 → x = sshFxpDataPacket id 0 [] ∨ x = statusFromError errText id (Some EOF)).
Proof.
  intros (Et & Ec & Hw) Hl Hoff. destruct a as [rs w]. simpl in *. unfold packetWorker, serve_packet. simpl.
  unfold getRequest. rewrite Et, Hr. unfold call_fresh, call. rewrite Hget. simpl. unfold fileget. rewrite Ho.
  cbn [packetData]. set (n := clamp l maxTxPacket).
  assert (n = Z.min l maxTxPacket) as Hn by (unfold n, clamp; destruct (Z.ltb_spec maxTxPacket l); lia).
  assert (zlen (replicate (Z.to_nat n) (byte_of_Z 0)) = n) as ->
    by (unfold zlen; rewrite length_replicate, Hn; unfold is_u32 in *; change maxTxPacket with 32768; lia).
  rewrite i64_id by (unfold is_i64; lia).
  destruct (Hreader n off w Hw) as (err & w' & E & Hw' & Herr); [rewrite Hn; unfold is_u32 in *; change maxTxPacket with 32768; lia|lia|].
  rewrite E. set (data := take (Z.to_nat n) _) in *.
  assert (zlen data <= 32768) as Hd by (unfold data, zlen; rewrite length_take, Hn; change maxTxPacket with 32768; lia).
  assert (u32 (zlen data) = zlen data) as Hu by (apply u32_id; pose proof (zlen_nonneg data); unfold is_u32; lia).
  eexists _, _. split; [reflexivity|]. split_and!; simpl.
  - split_and!; simpl; [|done|done]. rewrite Et. by apply insert_id.
  - intros Hpos. unfold read_answer. rewrite <- Hn. fold data. destruct (Z.ltb_spec 0 l); [|lia]. rewrite andb_true_r.
    destruct Herr as [->|[-> Hfull]]; [simpl; by destruct (zlen data =? 0); [|rewrite Hu]|].
    destruct (Z.eqb_spec (zlen data) 0) as [Hz|_]; [|by rewrite Hu].
    assert (n = 0) as Hn0 by lia. change maxTxPacket with 32768 in Hn; lia.
  - intros ->. assert (data = []) as -> by (unfold data; by rewrite Hn). destruct Herr as [->|[-> _]]; [by right|by left].
Qed.

Definition reading_spec : ServerSpec A.
Proof.
  refine {| serving := reading; admits := read_of |}.
  - by intros p (id & l & off & _ & Hp & _).
  - intros p a Ha (id & l & off & -> & (Hid & Hl & Hoff) & Hlt).
    destruct (serve_read id l off a Ha Hl) as (x & a' & E & Ha' & Hx & Hx0); [unfold is_u64 in Hoff; lia|].
    exists x, a'. split; [done|]. split; [done|].
    pose proof (status_fits errText id (Some EOF) Heof) as Hbody.
    assert (∀ data : list byte, zlen data <= 32768 → zlen (response_body (sshFxpDataPacket id (zlen data) data)) + 5 <= maxMsgLength) as Hdata.
    { intros data Hd. cbn [response_body]. rewrite zlen_app, zlen_marshalUint32. unfold maxMsgLength. lia. }
    destruct (decide (l = 0)) as [->|Hne].
    + destruct (Hx0 eq_refl) as [Ex|Ex]; rewrite Ex; [|done]. split_and!; [done|done|by apply (Hdata [])].
    + rewrite Hx by (unfold is_u32 in Hl; lia). unfold read_answer. case_match; [done|]. split_and!; [done|done|].
      apply Hdata. unfold zlen. rewrite length_take. change maxTxPacket with 32768. lia.
Defined.
#[local] Existing Instance reading_spec.

Lemma reading_reads_file : reads_file (P := sched A) h F reading.
Proof.
  split.
  - intros id l off Hreq Hlt. by exists id, l, off.
  - intros id l off a x a' Ha Hl Hoff ((id' & l' & off' & [= <- <- <-] & (_ & Hl32 & _) & Hlt) & _ & E).
    destruct (serve_read id l off a Ha Hl32) as (x' & a'' & E' & Ha' & Hx & _); [lia|]. rewrite E in E'. injection E' as <- <-.
    split; [done|]. rewrite (Hx ltac:(lia)). unfold read_answer. destruct (Z.leb_spec (zlen F) off) as [Hend|Hin].
    + rewrite (drop_ge F), take_nil by (unfold zlen in Hend; lia). change (zlen [] =? 0) with true.
      destruct (Z.ltb_spec 0 l); [|lia]. by eexists _, _.
    + set (data := take _ _). assert (zlen data = Z.min (Z.min l maxTxPacket) (zlen F - off)) as Hd
        by (unfold data, zlen in *; rewrite length_take, length_drop; change maxTxPacket with 32768; lia).
      destruct (Z.eqb_spec (zlen data) 0) as [Hz|_]; [change maxTxPacket with 32768 in *; lia|]. simpl. exists data. split; [done|].
      split; [change maxTxPacket with 32768 in *; lia|]. unfold data. rewrite length_take.
      destruct (Nat.le_ge_cases (Z.to_nat (Z.min l maxTxPacket)) (length (drop (Z.to_nat off) F))); [by rewrite Nat.min_l|].
      rewrite Nat.min_r by done. by rewrite !take_ge.
Qed.
End reading.

(** ** Writing *)

(** The object [o] writes to the file [file_of], or reports an error and
    remembers that it [refused]. *)
Definition file_writer (o : obj) (file_of : W → list byte) (refused good : W → Prop) : Prop :=
  ∀ d off w, good w → 0 <= off →
    ∃ n err w', WriteAt o d off w = ((n, err), w') ∧ good w' ∧ text_fits errText err ∧ (refused w → refused w')
      ∧ match err with
        | None => file_of w' = write_bytes off d (file_of w)
        | Some _ => refused w' ∧ seen_error errText err ≠ None
        end.

Section writing.
Context (h : string) r (o : obj) (file_of : W → list byte) (refused good : W → Prop).
Context (tbl : gmap string (Request obj lister)) (count : Z).
Context (Hr : tbl !! h = Some r) (Hput : Method r = "Put"%string) (Ho : writerAt r = Some o).
Context (Hwriter : file_writer o file_of refused good).

Definition write_of (p : requestPacket) : Prop :=
  ∃ id l off d, p = sshFxpWritePacket id l off h d ∧ is_request p ∧ off < 2 ^ 63.

Lemma serve_write id l off d a : reading good tbl count a → 0 <= off < 2 ^ 63 →
  ∃ err a', serve (sshFxpWritePacket id l off h d) a = (Ok (statusFromError errText id err), a') ∧ reading good tbl count a'
    ∧ text_fits errText err ∧ (refused a.2 → refused a'.2)
    ∧ match err with
      | None => file_of a'.2 = write_bytes off d (file_of a.2)
      | Some _ => refused a'.2 ∧ seen_error errText err ≠ None
      end.
Proof.
  intros (Et & Ec & Hw) Hoff. destruct a as [rs w]. simpl in *. unfold packetWorker, serve_packet. simpl.
  unfold getRequest. rewrite Et, Hr. unfold call_fresh, call. rewrite Hput. simpl. unfold fileput. rewrite Ho.
  cbn [packetData]. rewrite i64_id by (unfold is_i64; lia).
  destruct (Hwriter d off w Hw) as (n & err & w' & E & Hw' & Ht & Hm & Herr); [lia|]. rewrite E.
  eexists err, _. split; [reflexivity|]. split_and!; try done.
  split_and!; simpl; [|done|done]. rewrite Et. by apply insert_id.
Qed.

Definition writing_spec : ServerSpec A.
Proof.
  refine {| serving := reading good tbl count; admits := write_of |}.
  - by intros p (id & l & off & d & _ & Hp & _).
  - intros p a Ha (id & l & off & d & -> & (Hid & Hoff & Hl) & Hlt).
    destruct (serve_write id l off d a Ha) as (err & a' & E & Ha' & Ht & _); [unfold is_u64 in Hoff; lia|].
    destruct (statusFromError_shape errText id err Ht) as (e & Ee & _). pose proof (status_fits errText id err Ht) as Hfit.
    rewrite Ee in E, Hfit. by exists (sshFxpStatusPacket id e), a'.
Defined.
#[local] Existing Instance writing_spec.

Lemma writing_writes_file : writes_file (P := sched A) h (λ a, file_of a.2) (λ a, refused a.2).
Proof.
  split.
  - intros id l off d Hreq Hlt _. by exists id, l, off, d.
  - intros id l off d a x a' Hoff ((id' & l' & off' & d' & [= <- <- <- <-] & _ & Hlt) & Ha & E).
    destruct (serve_write id l off d a Ha) as (err & a'' & E' & Ha' & Ht & Hm & Herr); [lia|]. rewrite E in E'.
    destruct (statusFromError_shape errText id err Ht) as ([code msg lang] & Ee & Hcode & _ & _ & Hseen).
    rewrite Ee in E'. injection E' as -> <-. exists code, msg, lang. split_and!; [done|done|done|].
    destruct err as [e|].
    + destruct Herr as [Href Hns]. rewrite Hseen in Hns. simpl in Hns.
      destruct (Z.eqb_spec code sshFxOk) as [->|_]; [done|done].
    + simpl in Ee. by injection Ee as <- _ _.
Qed.
End writing.

(** ** A file from open to close *)
Definition closes_obj r (o : obj) : Prop :=
  ∀ w res w', obj_Close o w = (res, w') → request_close r w = (closing_error res, w').

Lemma client_close_opened c rs h r o good count :
  quiet c → reading good (<[h := r]> (openRequests rs)) count (sc_state (peer c)) → slen h <= 256 →
  openRequests rs !! h = None → closes_obj r o →
  (∀ w res w', good w → obj_Close o w = (res, w') → text_fits errText (closing_error res)) →
  ∃ c' w res w', (sc_state (peer c)).2 = w ∧ good w ∧ obj_Close o w = (res, w')
    ∧ Client_close h c = (seen errText (closing_error res), c') ∧ quiet c' ∧ (sc_state (peer c')).2 = w'
    ∧ openRequests (sc_state (peer c')).1 = openRequests rs.
Proof.
  intros Hq Hread Hh Hfresh Hcl Ht. destruct (sc_state (peer c)) as [rs2 w2] eqn:Es. destruct Hread as (Et & _ & Hg). simpl in Et, Hg.
  destruct (obj_Close o w2) as [res w3] eqn:Ec.
  destruct (client_close c rs2 w2 h r o res w3) as (c3 & E3 & Hq3 & Hs3);
    [done|done|done|by rewrite Et, lookup_insert_eq|by apply Hcl|done|by eapply Ht|].
  exists c3, w2, res, w3. rewrite Hs3. split_and!; try done. simpl. by rewrite Et, delete_insert_id.
Qed.

(** A file that is opened, read and closed through the client is read from the
    object the handler returned: [Open] registers one new handle, [ReadAt]
    returns the bytes of the object's file at the offset however its requests
    are split and in whatever order the server gets to them, and [Close] closes
    the object, tells the caller what that returned, and takes the handle out of
    the table again. *)
Lemma client_reads_handlers_file c rs w path b off fuel o w1 F good :
  let h := Itoa (handleCount rs + 1) in
  quiet c → sc_state (peer c) = (rs, w) → rs_inv rs → handleCount rs + 1 < 2 ^ 63 →
  Fileread (open_request "Get" path 1 h) w = (Ok o, w1) → file_reader o F good → good w1 →
  (∀ w res w', good w → obj_Close o w = (res, w') → text_fits errText (closing_error res)) →
  text_fits errText (Some EOF) → slen path <= 100000 → 1 <= maxPacket c < 2 ^ 32 → 0 <= off → off + zlen b < 2 ^ 63 →
  0 <= nextid c → nextid c + 1 + zlen b < 2 ^ 32 → zlen b <= Z.of_nat fuel →
  let n := Z.min (zlen b) (Z.max 0 (zlen F - off)) in
  ∃ f c1 c2 c3 w2 res w3,
    Client_Open path c = (Returns (Some f), c1)
    ∧ File_ReadAt fuel f b off c1
      = (Returns (take (Z.to_nat n) (drop (Z.to_nat off) F) ++ drop (Z.to_nat n) b, n,
                  if n <? zlen b then Some io_EOF else None), c2)
    ∧ good w2 ∧ obj_Close o w2 = (res, w3) ∧ File_Close f c2 = (seen errText (closing_error res), c3)
    ∧ quiet c3 ∧ (sc_state (peer c3)).2 = w3 ∧ openRequests (sc_state (peer c3)).1 = openRequests rs.
Proof.
  intros h Hq Hs Hinv Hlt Hopen Hreader Hgood Hclose Heof Hpath Hmp Hoff Hrange Hn0 Hids Hfuel n.
  pose proof Hinv as [Hcount _]. pose proof (zlen_nonneg b).
  assert (slen h <= 19) as Hh by (apply slen_Itoa; lia).
  set (r := set_readerAt (open_request "Get" path 1 h) (Some o)).
  destruct (client_open c rs w path 1 (with_open h r rs) set_readerAt "Get" o w1) as (c1 & E1 & Hq1 & Hs1 & Hc1 & Hnx1);
    [done|done|done|done|done|done|fold h; lia| |done|].
  { intros id. unfold open_request in Hopen |- *. fold h. unfold open. simpl in Hopen |- *. by rewrite Hopen. }
  pose proof Hq1 as (Ho1 & Hi1 & Hqu1).
  set (tbl := openRequests (with_open h r rs)). set (count := handleCount rs + 1).
  assert (tbl !! h = Some r) as Hr by apply lookup_insert_eq.
  pose (spec := reading_spec h r o F good tbl count Hr eq_refl eq_refl Hreader Heof).
  destruct (client_ReadAt_reads_file (mkFile path h 0) F (reading good tbl count) b off c1 fuel) as (c2 & E2 & Hidle2 & Hread2).
  1: by apply reading_reads_file.
  1: { change (reading good tbl count (sc_state (peer c1))). by rewrite Hs1. }
  1: { apply sched_idle; [done|done|done|]. change (reading good tbl count (sc_state (peer c1))). by rewrite Hs1. }
  1: simpl; lia.
  1: by destruct Hc1 as [-> _].
  1-2: done.
  1: rewrite Hnx1, u32_id by (unfold is_u32; lia); lia.
  1: rewrite Hnx1, u32_id by (unfold is_u32; lia); lia.
  1: done.
  destruct Hidle2 as (Ho2 & _ & Hi2 & Hq2).
  destruct (client_close_opened c2 rs h r o good count) as (c3 & w2 & res & w3 & _ & Hg2 & Ecl & E3 & Hq3 & Hw3 & Ht3);
    [done|done|lia|by apply fresh_handle| |done|].
  { intros w' res w'' Ecl. unfold request_close, close_obj. simpl. rewrite Ecl. by destruct res. }
  by exists (mkFile path h 0), c1, c2, c3, w2, res, w3.
Qed.

(** A file that is opened for writing, written and closed through the client
    is written to the object the handler returned: [Write] either reports all
    bytes, and the object's file is the one that was opened with the data at its
    beginning, or it reports an error and no bytes, and the handler has refused a
    write; [Close] closes the object and takes the handle out of the table. *)
Lemma client_writes_handlers_file c rs w path b fuel o w1 file_of refused good :
  let h := Itoa (handleCount rs + 1) in
  let fl := Z.lor O_WRONLY (Z.lor O_CREATE O_TRUNC) in
  quiet c → sc_state (peer c) = (rs, w) → rs_inv rs → handleCount rs + 1 < 2 ^ 63 →
  Filewrite (open_request "Put" path (flags fl) h) w = (Ok o, w1) → file_writer o file_of refused good → good w1 →
  (∀ w res w', good w → obj_Close o w = (res, w') → text_fits errText (closing_error res)) →
  slen path <= 100000 → 1 <= maxPacket c <= 2 ^ 17 → zlen b < 2 ^ 63 →
  0 <= nextid c → nextid c + 1 + zlen b < 2 ^ 32 → zlen b <= Z.of_nat fuel →
  ∃ f c1 n err c2 c3 w2 res w3,
    Client_OpenFile path fl c = (Returns (Some f), c1)
    ∧ File_Write fuel f b c1 = (Returns (set_offset f n, n, err), c2)
    ∧ good w2
    ∧ match err with
      | None => n = zlen b ∧ file_of w2 = write_bytes 0 b (file_of w1)
      | Some _ => n = 0 ∧ refused w2
      end
    ∧ obj_Close o w2 = (res, w3) ∧ File_Close f c2 = (seen errText (closing_error res), c3)
    ∧ quiet c3 ∧ (sc_state (peer c3)).2 = w3 ∧ openRequests (sc_state (peer c3)).1 = openRequests rs.
Proof.
  intros h fl Hq Hs Hinv Hlt Hopen Hwriter Hgood Hclose Hpath Hmp Hrange Hn0 Hids Hfuel.
  pose proof Hinv as [Hcount _]. pose proof (zlen_nonneg b).
  assert (slen h <= 19) as Hh by (apply slen_Itoa; lia).
  set (r := set_writerAt (open_request "Put" path (flags fl) h) (Some o)).
  destruct (client_open c rs w path (flags fl) (with_open h r rs) set_writerAt "Put" o w1) as (c1 & E1 & Hq1 & Hs1 & Hc1 & Hnx1);
    [done|done|done|done|done|done|fold h; lia| |done|].
  { intros id. unfold open_request in Hopen |- *. fold h. unfold open. simpl in Hopen |- *. by rewrite Hopen. }
  pose proof Hq1 as (Ho1 & Hi1 & Hqu1).
  set (tbl := openRequests (with_open h r rs)). set (count := handleCount rs + 1).
  assert (tbl !! h = Some r) as Hr by apply lookup_insert_eq.
  pose (spec := writing_spec h r o file_of refused good tbl count Hr eq_refl eq_refl Hwriter).
  destruct (client_Write_writes_file (mkFile path h 0) (λ a, file_of a.2) (λ a, refused a.2) b c1 fuel)
    as (n & err & c2 & E2 & Hidle2 & Hres2).
  1: by apply writing_writes_file.
  1: { apply sched_idle; [done|done|done|]. change (reading good tbl count (sc_state (peer c1))). by rewrite Hs1. }
  1: simpl; lia.
  1: by destruct Hc1 as [-> _].
  1-2: done.
  1: rewrite Hnx1, u32_id by (unfold is_u32; lia); lia.
  1: rewrite Hnx1, u32_id by (unfold is_u32; lia); lia.
  1: done.
  destruct Hidle2 as (Ho2 & [Hserving2 _] & Hi2 & Hq2).
  destruct (client_close_opened c2 rs h r o good count) as (c3 & w2 & res & w3 & Hw2 & Hg2 & Ecl & E3 & Hq3 & Hw3 & Ht3);
    [done|done|lia|by apply fresh_handle| |done|].
  { intros w' res w'' Ecl. unfold request_close, close_obj. simpl. rewrite Ecl. by destruct res. }
  exists (mkFile path h 0), c1, n, err, c2, c3, w2, res, w3. split_and!; try done.
  change (server (peer c2)) with (sc_state (peer c2)) in Hres2. change (server (peer c1)) with (sc_state (peer c1)) in Hres2.
  by rewrite Hw2, Hs1 in Hres2.
Qed.
End files.
