(* ===== verification/EndToEnd.v ===== *)
(** * A client and the server's own file handler

    The client of sftp/client.go, the request server of sftp/ and the file
    handler of serv/filehandler.go put together: what a user reads and writes
    with the client is what the operating system has in the user's home
    directory. *)
From stdpp Require Import base tactics option list strings gmap.
From Stdlib Require Import ZArith Lia.
From S2P Require Import Prelude GoOs SftpWire SftpPackets GoPath GoStrconv RequestServer DataProvider BoltProvider FileSystem Sessions FileHandler.
From S2P Require Import ClientConn ClientPeer Client ClientIO ClientUpload ClientServer ClientFiles.

Section server.
Context {F P : Type} `{FileSystemSpec F, !FileContents F, Provider P}.
Context (errText : error → string) (runLs : string → FileInfo → string) (exts : list extensionPair).
Context (conf : ServConf) (cn : Connection).
#[local] Existing Instances connection_handlers connection_handlers_spec.
Implicit Types (w : World F P).
Abbreviation A := (RequestServer nat (list FileInfo) * World F P)%type.
#[local] Hint Extern 0 (Handlers _ _ _) => exact (connection_handlers conf cn) : typeclass_instances.
#[local] Hint Extern 0 (Server _) => exact (request_server errText runLs exts) : typeclass_instances.
Implicit Types (c : Client (sched A)).

(** The transfer [id] is open on the file [fl]. *)
Definition transferring (id : nat) (fl : FileSystem.File) w : Prop :=
  (∃ t, transfers w !! id = Some t ∧ t_file t = fl) ∧ file_open fl (disk w).

(** ** Downloads *)
Lemma transfer_file_reader id fl b :
  file_reader id b (λ w, transferring id fl w ∧ file_bytes fl (disk w) = b).
Proof.
  intros n off w [[(t & Ht & Hf) Ho] Hb] Hn Hoff l.
  pose proof (ReadAt_content fl n off (disk w) Ho Hn Hoff) as E. rewrite Hb in E. fold l in E. cbv zeta in E.
  cbn [ReadAt connection_handlers]. unfold Transfer_ReadAt. rewrite Ht, Hf, E. eexists _, _. split; [reflexivity|]. split.
  - split; [|done]. split; [|done]. simpl. eexists. by rewrite lookup_insert_eq.
  - destruct (Z.ltb_spec (zlen l) n); [by left|]. right. split; [done|].
    assert (zlen l <= n) by (unfold l, zlen; rewrite length_take; lia). lia.
Qed.

Lemma Fileread_opens (r : Request nat (list FileInfo)) w p fi fl d :
  HasPerm (conn_User cn) PermDownload = true → buildPath cn (Filepath r) (disk w) = Ok p →
  os_Stat p (disk w) = Ok fi → os_Open p (disk w) = (Ok fl, d) →
  ∃ id w1, Fileread r w = (Ok id, w1) ∧ transferring id fl w1 ∧ file_bytes fl (disk w1) = file_bytes fl d.
Proof.
  intros Hperm Hp Hst Hopen. pose proof Hopen as Hcontent. unfold os_Open in Hcontent.
  apply OpenFile_content in Hcontent as (Ho & _).
  cbn [Fileread connection_handlers]. unfold Connection_Fileread. rewrite Hperm. cbn [negb].
  assert (disk (updateConnectionActivity (conn_ID cn) w) = disk w) as -> by (unfold updateConnectionActivity; by case_match).
  rewrite Hp, Hst, Hopen. simpl. eexists _, _. split; [reflexivity|]. split; [|done]. split; [|done]. simpl.
  eexists. by rewrite lookup_insert_eq.
Qed.

(** The texts of the errors that closing a transfer returns fit into a frame. *)
Definition close_texts_fit : Prop :=
  ∀ id w err w', Transfer_Close conf id w = (err, w') → text_fits errText err.

Lemma obj_Close_fits id w res w' : close_texts_fit →
  obj_Close id w = (res, w') → text_fits errText (closing_error res).
Proof.
  intros Hfit. cbn [obj_Close connection_handlers]. destruct (Transfer_Close conf id w) as [err w1] eqn:E.
  intros [= <- <-]. by eapply Hfit.
Qed.

(** C9: A user who may download gets the file: when the path of the request
    resolves to [p] in the home directory and the operating system can open it,
    [Open] and [ReadAt] of the client return the bytes the file has there, for
    every buffer, offset, packet size and order in which the server gets to the
    requests, and after [Close] the table of open files is as it was. *)
Theorem user_downloads_file c rs w path p fi fl d b off fuel :
  quiet c → sc_state (peer c) = (rs, w) → rs_inv rs → handleCount rs + 1 < 2 ^ 63 →
  HasPerm (conn_User cn) PermDownload = true → buildPath cn (cleanPath path) (disk w) = Ok p →
  os_Stat p (disk w) = Ok fi → os_Open p (disk w) = (Ok fl, d) →
  close_texts_fit → text_fits errText (Some EOF) →
  slen path <= 100000 → 1 <= maxPacket c < 2 ^ 32 → 0 <= off → off + zlen b < 2 ^ 63 →
  0 <= nextid c → nextid c + 1 + zlen b < 2 ^ 32 → zlen b <= Z.of_nat fuel →
  let bytes := file_bytes fl d in
  let n := Z.min (zlen b) (Z.max 0 (zlen bytes - off)) in
  ∃ f c1 c2 c3 err,
    Client_Open path c = (Returns (Some f), c1)
    ∧ File_ReadAt fuel f b off c1
      = (Returns (take (Z.to_nat n) (drop (Z.to_nat off) bytes) ++ drop (Z.to_nat n) b, n,
                  if n <? zlen b then Some io_EOF else None), c2)
    ∧ File_Close f c2 = (seen errText err, c3) ∧ quiet c3
    ∧ openRequests (sc_state (peer c3)).1 = openRequests rs.
Proof.
  intros Hq Hs Hinv Hlt Hperm Hp Hst Hopen Hcl Heof Hpath Hmp Hoff Hrange Hn0 Hids Hfuel bytes n.
  destruct (Fileread_opens (open_request "Get" path 1 (Itoa (handleCount rs + 1))) w p fi fl d) as (id & w1 & E & Htr & Hb); [done..|].
  destruct (client_reads_handlers_file errText runLs exts c rs w path b off fuel id w1 bytes
    (λ w, transferring id fl w ∧ file_bytes fl (disk w) = bytes))
    as (f & c1 & c2 & c3 & w2 & res & w3 & E1 & E2 & _ & _ & E3 & Hq3 & _ & Ht3); try done.
  - apply transfer_file_reader.
  - intros ? ? ? _ Ecl. by eapply obj_Close_fits.
  - by exists f, c1, c2, c3, (closing_error res).
Qed.

(** ** Uploads *)

(** The operating system takes what is written to the file. *)
Definition takes_writes (fl : FileSystem.File) : Prop :=
  ∀ data off d, file_open fl d → 0 <= off → (file_WriteAt fl data off d).1.2 = None.

Lemma transfer_file_writer id fl : takes_writes fl →
  file_writer errText id (λ w, file_bytes fl (disk w)) (λ _, False) (transferring id fl).
Proof.
  intros Htake data off w [(t & Ht & Hf) Ho] Hoff. pose proof (Htake data off (disk w) Ho Hoff) as He.
  destruct (file_WriteAt fl data off (disk w)) as [[n e] d'] eqn:E. simpl in He. subst e.
  destruct (WriteAt_content fl data off (disk w) n d' Ho Hoff E) as (-> & Ho' & Hb').
  cbn [WriteAt connection_handlers]. unfold Transfer_WriteAt. rewrite Ht, Hf, E.
  eexists _, _, _. split; [reflexivity|]. split_and!; try done. split; [|done]. simpl. eexists. by rewrite lookup_insert_eq.
Qed.

(** What the handler opens for an upload is an empty file. *)
Definition opened_upload (id : nat) w : Prop :=
  ∃ fl, transferring id fl w ∧ file_bytes fl (disk w) = [].

Lemma start_upload name osflags perm fl d w w' uid gid path ty isNew id w1 :
  os_OpenFile name osflags perm (disk w) = (Ok fl, d) → has_bits osflags O_TRUNC = true → disk w' = d →
  start_transfer cn fl path ty isNew (SetPathPermissions name uid gid w') = (id, w1) → opened_upload id w1.
Proof.
  intros E Htr Hd [= <- <-]. apply OpenFile_content in E as (Ho & _ & Hb). specialize (Hb Htr). subst d.
  destruct (Chown_content fl name uid gid (disk w') Ho) as [Ho' Hb'].
  exists fl. split; [split; [|done]|by rewrite <- Hb]. simpl. eexists. by rewrite lookup_insert_eq.
Qed.

Lemma new_file_opens requestPath filePath w id w1 :
  handleSFTPUploadToNewFile conf cn requestPath filePath w = (Ok id, w1) → opened_upload id w1.
Proof.
  unfold handleSFTPUploadToNewFile. intros E. case_hyp E; [done|]. case_hyp E; [done|].
  destruct (createMissingDirs cn requestPath w) as [[e|] w2]; [done|]. unfold os_Create in E.
  destruct (os_OpenFile filePath _ _ (disk w2)) as [[fl| |] d] eqn:Eo; [|done..].
  destruct (start_transfer _ _ _ _ _ _) as [id' w3] eqn:Es in E. injection E as -> ->.
  by refine (start_upload _ _ _ _ _ _ _ _ _ _ _ _ _ _ Eo _ _ Es).
Qed.

Lemma existing_file_opens pflags requestPath filePath size w id w1 :
  handleSFTPUploadToExistingFile conf cn pflags requestPath filePath size w = (Ok id, w1) → opened_upload id w1.
Proof.
  unfold handleSFTPUploadToExistingFile. intros E. case_hyp E; [done|]. case_hyp E; [done|].
  match type of E with (let '(_, _) := ?m in _) = _ => destruct m as [[e|] w2] end; [done|].
  destruct (os_OpenFile filePath _ _ (disk w2)) as [[fl| |] d] eqn:Eo; [|done..].
  destruct (start_transfer _ _ _ _ _ _) as [id' w3] eqn:Es in E. injection E as -> ->.
  refine (start_upload _ _ _ _ _ _ _ _ _ _ _ _ _ _ Eo _ _ Es); [|done].
  unfold has_bits. match goal with Hf : (Z.land _ O_TRUNC =? 0) = false |- _ => by rewrite Hf end.
Qed.

Lemma Filewrite_opens (r : Request nat (list FileInfo)) w id w1 :
  Filewrite r w = (Ok id, w1) → opened_upload id w1.
Proof.
  cbn [Filewrite connection_handlers]. unfold Connection_Filewrite. intros E. case_hyp E; [done|].
  destruct (buildPath _ _ _) as [p| |]; [|done..].
  match type of E with (let '(_, _) := ?m in _) = _ => destruct m as [fp w2] end.
  case_hyp E; [by eapply new_file_opens|]. destruct (os_Stat p _) as [fi| |]; [|done..].
  case_hyp E; [done|]. by eapply existing_file_opens.
Qed.

(** C10: What a user uploads arrives: when the file handler accepts the upload
    (the user has the permission and the space) and the operating system takes
    what is written, [Write] of the client reports every byte and the file that
    was opened holds exactly the data when the client closes it, for every packet
    size and order in which the server gets to the requests. *)
Theorem user_uploads_file c rs w path id w1 b fuel :
  let fl := Z.lor O_WRONLY (Z.lor O_CREATE O_TRUNC) in
  quiet c → sc_state (peer c) = (rs, w) → rs_inv rs → handleCount rs + 1 < 2 ^ 63 →
  Filewrite (open_request "Put" path (flags fl) (Itoa (handleCount rs + 1))) w = (Ok id, w1) →
  (∀ file, transferring id file w1 → takes_writes file) → close_texts_fit →
  slen path <= 100000 → 1 <= maxPacket c <= 2 ^ 17 → zlen b < 2 ^ 63 →
  0 <= nextid c → nextid c + 1 + zlen b < 2 ^ 32 → zlen b <= Z.of_nat fuel →
  ∃ f c1 c2 c3 file w2 err w3,
    Client_OpenFile path fl c = (Returns (Some f), c1)
    ∧ File_Write fuel f b c1 = (Returns (set_offset f (zlen b), zlen b, None), c2)
    ∧ transferring id file w2 ∧ file_bytes file (disk w2) = b
    ∧ Transfer_Close conf id w2 = (err, w3)
    ∧ File_Close f c2 = (seen errText err, c3) ∧ quiet c3
    ∧ sc_state (peer c3) = ((sc_state (peer c3)).1, w3) ∧ openRequests (sc_state (peer c3)).1 = openRequests rs.
Proof.
  intros fl Hq Hs Hinv Hlt Hopen Htake Hcl Hpath Hmp Hrange Hn0 Hids Hfuel.
  destruct (Filewrite_opens _ _ _ _ Hopen) as (file & Htr & Hb).
  destruct (client_writes_handlers_file errText runLs exts c rs w path b fuel id w1
    (λ w, file_bytes file (disk w)) (λ _, False) (transferring id file))
    as (f & c1 & n & err & c2 & c3 & w2 & res & w3 & E1 & E2 & Htr2 & Hres & Ecl & E3 & Hq3 & Hw3 & Ht3); try done.
  - by apply transfer_file_writer, Htake.
  - intros ? ? ? _ Ec. by eapply obj_Close_fits.
  - destruct err as [e|]; [by destruct Hres|]. destruct Hres as [-> Hb2]. rewrite Hb in Hb2.
    cbn [obj_Close connection_handlers] in Ecl. destruct (Transfer_Close conf id w2) as [err w3'] eqn:Et.
    injection Ecl as <- <-. exists f, c1, c2, c3, file, w2, err, w3'. split_and!; try done.
    + rewrite Hb2. unfold write_bytes. destruct b as [|x b]; [done|]. simpl. by rewrite app_nil_r.
    + rewrite <- Hw3. by destruct (sc_state (peer c3)).
Qed.
End server.

(** ** The demonstration server *)
Module DemoClient.
Import DemoServer.
Abbreviation state := (RequestServer nat (list FileInfo) * World MemFS.state BoltDB)%type.
#[global] Instance server : Server state :=
  @request_server _ _ _ h RequestServer.Demo.errText RequestServer.Demo.ls supportedSFTPExtensions.
(** A client that uses packets of two bytes, over a server that gets to the
    requests in the given order. *)
Definition client (order : list nat) : Client (sched state) :=
  mkClient (mkSched [] (rs0, world0) order) ∅ ∅ false None 0 ∅ 2 64 false.

Lemma demo_server_inv : rs_inv rs0.
Proof. by split. Qed.
Lemma client_quiet order : quiet (client order).
Proof. split_and!; reflexivity. Qed.
Lemma client_packets order : 1 <= maxPacket (client order) <= 2 ^ 17 ∧ 1 <= maxPacket (client order) < 2 ^ 32.
Proof. done. Qed.
Lemma error_text_fits err : text_fits RequestServer.Demo.errText err.
Proof. destruct err as [[]|]; simpl; try done. unfold fxerr_Error. repeat case_match; done. Qed.
Lemma takes_all fl : takes_writes (F := MemFS.state) fl.
Proof. intros data off d [i Hi] _. simpl. unfold MemFS.writeAt, MemFS.content. by rewrite Hi. Qed.
End DemoClient.

Lemma user_downloads_file_witness :
  let c := DemoClient.client [1; 0; 2; 1]%nat in
  ∃ f c1 c2 c3 err, Client_Open "a.txt" c = (Returns (Some f), c1)
    ∧ File_ReadAt 8 f (bytes_of_string "********") 1 c1
      = (Returns (bytes_of_string "ello****", 4, Some io_EOF), c2)
    ∧ File_Close f c2 = (seen RequestServer.Demo.errText err, c3) ∧ quiet c3
    ∧ openRequests (sc_state (peer c3)).1 = ∅.
Proof.
  intros c.
  destruct (os_Stat "/home/user/a.txt" (disk DemoServer.world0)) as [fi| |] eqn:Es; [|by vm_compute in Es..].
  destruct (os_Open "/home/user/a.txt" (disk DemoServer.world0)) as [[fl| |] d] eqn:Eo; [|by vm_compute in Eo..].
  destruct (user_downloads_file RequestServer.Demo.errText RequestServer.Demo.ls supportedSFTPExtensions DemoServer.conf DemoServer.conn
    c DemoServer.rs0 DemoServer.world0 "a.txt" "/home/user/a.txt" fi fl d (bytes_of_string "********") 1 8)
    as (f & c1 & c2 & c3 & err & E1 & E2 & E3 & Hq & Ht);
    [split_and!; reflexivity|reflexivity|apply DemoClient.demo_server_inv|reflexivity|by vm_compute|by vm_compute|exact Es|exact Eo
    |intros ? ? ? ? _; apply DemoClient.error_text_fits|apply DemoClient.error_text_fits|by lazy|apply DemoClient.client_packets|by lazy..|].
  exists f, c1, c2, c3, err. split; [exact E1|]. split; [|split; [exact E3|split; [exact Hq|exact Ht]]].
  assert (file_bytes fl d = bytes_of_string "hello") as Hb
    by (apply (f_equal (λ x, match x with (Ok fl, d) => file_bytes fl d | _ => [] end)) in Eo; by rewrite <- Eo; vm_compute).
  rewrite Hb in E2. exact E2.
Defined.

Lemma user_uploads_file_witness :
  let c := DemoClient.client [0; 0; 1]%nat in
  ∃ f c1 c2 (c3 : Client (sched DemoClient.state)) id file (w2 : World MemFS.state BoltDB),
    Client_OpenFile "b.txt" (Z.lor O_WRONLY (Z.lor O_CREATE O_TRUNC)) c = (Returns (Some f), c1)
    ∧ File_Write 5 f (bytes_of_string "hello") c1 = (Returns (set_offset f 5, 5, None), c2)
    ∧ transferring id file w2 ∧ file_bytes file (disk w2) = bytes_of_string "hello" ∧ quiet c3.
Proof.
  intros c.
  destruct (@Filewrite _ _ _ (connection_handlers DemoServer.conf DemoServer.conn)
    (open_request "Put" "b.txt" (flags (Z.lor O_WRONLY (Z.lor O_CREATE O_TRUNC))) (Itoa (handleCount DemoServer.rs0 + 1)))
    DemoServer.world0) as [[id| |] w1] eqn:E;
    [|by vm_compute in E..].
  pose proof (user_uploads_file RequestServer.Demo.errText RequestServer.Demo.ls supportedSFTPExtensions DemoServer.conf DemoServer.conn
    c DemoServer.rs0 DemoServer.world0 "b.txt" id w1 (bytes_of_string "hello") 5
    (DemoClient.client_quiet _) eq_refl DemoClient.demo_server_inv eq_refl E (λ fl _, DemoClient.takes_all fl)) as Hup.
  destruct Hup as (f & c1 & c2 & c3 & file & w2 & err & w3 & E1 & E2 & Htr & Hb & _ & _ & Hq & _);
    [intros ? ? ? ? _; apply DemoClient.error_text_fits|by lazy|apply DemoClient.client_packets|by lazy..|].
  exists f, c1, c2, c3, id, file, w2. split; [exact E1|]. split; [exact E2|]. split; [exact Htr|]. split; [exact Hb|exact Hq].
Defined.
