(* ===== verification/HdfsTransfer.v ===== *)
(** * Block streams of the HDFS client: hdfs/intrnl/transfer

    transfer.go (prefixed messages, addresses), block_write_stream.go and
    block_read_stream.go. A block travels as a sequence of packets: lengths, a
    header, one checksum for every chunk and the data. Protocol buffers are the
    class [Proto] with the contract [ProtoSpec]; a connection to a datanode is
    the class [Conn]. The packets of a block are specified by a reference
    receiver, [receive_packet], which checks what a datanode checks: sequence
    numbers, offsets, checksums and the rule on partial chunks. *)
From stdpp Require Import base tactics option list strings gmap.
From Stdlib Require Import ZArith Lia.
From S2P Require Import Prelude SftpWire GoStrconv.

(** ** hash/crc32

    [crc32.Checksum] with the reflected polynomial of a table. *)
Inductive Table := IEEETable | Castagnoli.
Definition poly (tab : Table) : Z :=
  match tab with IEEETable => 0xedb88320 | Castagnoli => 0x82f63b78 end.
Definition crc_bit (p c : Z) : Z :=
  if Z.odd c then Z.lxor (Z.shiftr c 1) p else Z.shiftr c 1.
Definition crc_byte (p c : Z) (b : byte) : Z := Nat.iter 8 (crc_bit p) (Z.lxor c (Z_of_byte b)).
Definition crc32_Checksum (b : list byte) (tab : Table) : Z :=
  Z.lxor (foldl (crc_byte (poly tab)) 0xffffffff b) 0xffffffff.

(** ** Readers

    The bytes that are still to arrive on a connection, and the error a read
    behind them returns ([EOF] when the other end has closed it). *)
Record Reader := mkReader { rd_rest : list byte; rd_fail : error }.

Definition read_upto (r : Reader) (n : Z) : list byte * Reader :=
  (take (Z.to_nat n) (rd_rest r), mkReader (drop (Z.to_nat n) (rd_rest r)) (rd_fail r)).

(** [io.ReadFull] into [n] bytes. *)
Definition ReadFull (r : Reader) (n : Z) : (list byte * option error) * Reader :=
  let '(b, r) := read_upto r n in
  if n <=? zlen b then ((b, None), r)
  else ((b, Some (if bool_decide (rd_fail r = EOF) && (0 <? zlen b) then ErrUnexpectedEOF else rd_fail r)), r).

(** [io.CopyN] into a buffer. *)
Definition CopyN (r : Reader) (n : Z) : (list byte * option error) * Reader :=
  let '(b, r) := read_upto r n in
  ((b, if n <=? zlen b then None else Some (rd_fail r)), r).

(** ** Protocol buffers

    [proto.Unmarshal] fills in the message as far as it gets. *)
Class Proto (M : Type) := {
  proto_Marshal : M → list byte * option error;
  proto_Unmarshal : list byte → M * option error
}.
(** A message whose fields are in the range of their types is encoded, and read
    back as it was. *)
Class ProtoSpec (M : Type) `{Proto M} := {
  proto_fits : M → Prop;
  proto_bytes : M → list byte;
  proto_Marshal_fits m : proto_fits m → proto_Marshal m = (proto_bytes m, None);
  proto_Unmarshal_bytes m : proto_fits m → proto_Unmarshal (proto_bytes m) = (m, None)
}.

(** ** Prefixed messages (transfer.go) *)
Definition dataTransferVersion : Z := 0x1c.
Definition writeBlockOp : Z := 0x50.
Definition readBlockOp : Z := 0x51.
Definition checksumBlockOp : Z := 0x55.
Definition errInvalidResponse : error := EMsg "invalid response from datanode".
Definition MaxVarintLen32 : Z := 5.

(** [binary.PutUvarint] into a buffer with room for [n] bytes. *)
Fixpoint PutUvarint (n : nat) (x : Z) : result (list byte) :=
  match n with
  | O => Panic
  | S n =>
      if x <? 0x80 then Ok [byte_of_Z x]
      else l ← PutUvarint n (Z.shiftr x 7); Ok (byte_of_Z (Z.lor x 0x80) :: l)
  end.
(** [binary.Uvarint] on a buffer of at most nine bytes, where it cannot overflow:
    the value and the number of bytes read, 0 when there is no end. *)
Fixpoint Uvarint_from (b : list byte) (x s i : Z) : Z * Z :=
  match b with
  | [] => (0, 0)
  | c :: b =>
      if Z_of_byte c <? 0x80 then (u64 (Z.lor x (Z.shiftl (Z_of_byte c) s)), i + 1)
      else Uvarint_from b (Z.lor x (Z.shiftl (Z.land (Z_of_byte c) 0x7f) s)) (s + 7) (i + 1)
  end.
Definition Uvarint (b : list byte) : Z * Z := Uvarint_from b 0 0 0.

Section messages.
Context {M : Type} `{Proto M}.

Definition makePrefixedMessage (msg : M) : result (list byte) :=
  match proto_Marshal msg with
  | (_, Some e) => Err e
  | (msgBytes, None) =>
      lengthBytes ← PutUvarint (Z.to_nat MaxVarintLen32) (u64 (zlen msgBytes));
      Ok (lengthBytes ++ msgBytes)
  end.

(** Five bytes are read for the length, whatever it needs; what is left of them
    begins the message. *)
Definition unexpected (e : error) : error := if bool_decide (e = EOF) then ErrUnexpectedEOF else e.
Definition readPrefixedMessage (r : Reader) : result M * Reader :=
  let '((varintBytes, err), r) := ReadFull r MaxVarintLen32 in
  match err with
  | Some e => (Err (unexpected e), r)
  | None =>
      let '(respLength, varintLength) := Uvarint varintBytes in
      if (varintLength <? 1) || (i64 (varintLength + i64 respLength) <? zlen varintBytes) then (Err errInvalidResponse, r)
      else
        let extra := take (Z.to_nat respLength) (drop (Z.to_nat varintLength) varintBytes) in
        let '((more, err), r) := ReadFull r (respLength - zlen extra) in
        match err with
        | Some e => (Err (unexpected e), r)
        | None =>
            match proto_Unmarshal (extra ++ more) with
            | (msg, None) => (Ok msg, r)
            | (_, Some e) => (Err e, r)
            end
        end
  end.
End messages.

(** ** Connections *)
Class Conn (C : Type) := {
  conn_Write : list byte → C → option error * C;
  (** everything the other end sends on the connection as it is now *)
  conn_Reader : C → Reader
}.

Definition writeBlockOpRequest {C M : Type} `{Conn C} `{Proto M} (op : Z) (msg : M) (c : C) : result (option error * C) :=
  match makePrefixedMessage msg with
  | Ok msgBytes => Ok (conn_Write ([byte_of_Z 0; byte_of_Z dataTransferVersion; byte_of_Z op] ++ msgBytes) c)
  | Err e => Ok (Some e, c)
  | Panic => Panic
  end.

Record DatanodeIDProto := { dn_IpAddr : string; dn_HostName : string; dn_XferPort : Z }.
Definition getDatanodeAddress (datanode : DatanodeIDProto) (useHostname : bool) : string :=
  let host := if useHostname then dn_HostName datanode else dn_IpAddr datanode in
  host +:+ ":" +:+ Itoa (dn_XferPort datanode).

(** ** Packets *)
Record PacketHeaderProto := mkHeader {
  OffsetInBlock : Z;
  Seqno : Z;
  LastPacketInBlock : bool;
  DataLen : Z
}.
Record PipelineAckProto := { ack_Seqno : Z; ack_Reply : list Z }.
Definition Status_SUCCESS : Z := 0.

Definition outboundPacketSize : Z := 65536.
Definition outboundChunkSize : Z := 512.
Definition heartbeatSeqno : Z := -1.

Definition i32 (z : Z) : Z := (z + 2 ^ 31) mod 2 ^ 32 - 2 ^ 31.
(** [binary.BigEndian.PutUint16] *)
Definition PutUint16 (v : Z) : list byte := [byte_of_Z (Z.shiftr v 8); byte_of_Z v].

(** [int(math.Ceil(float64(n) / float64(d)))]: lengths are far below 2^53. *)
Definition ceil_div (n d : Z) : Z := - ((- n) / d).

(** [chunk size i b] is [b[i*size : (i+1)*size]], cut at the end of [b]. *)
Definition chunk (size : Z) (i : nat) (b : list byte) : list byte :=
  take (Z.to_nat size) (drop (i * Z.to_nat size) b).

Record outboundPacket := mkPacket {
  pk_seqno : Z;
  pk_offset : Z;
  pk_last : bool;
  pk_checksums : list byte;
  pk_data : list byte
}.

(** ** Writing a block

    The packets handed to the ack loop are kept in order. The loop runs beside
    the writer but shows its result only once [acksDone] is closed, which is
    after the last packet: what it then says depends only on the packets and on
    the bytes the datanode sent, in their order. *)
Record blockWriteStream := mkWriteStream {
  ws_buf : list byte;
  ws_offset : Z;
  ws_closed : bool;
  ws_packets : list outboundPacket;
  ws_seqno : Z;
  ws_ackError : option error;
  ws_acksDone : bool
}.
Definition newBlockWriteStream (offset : Z) : blockWriteStream := mkWriteStream [] offset false [] 1 None false.

Definition ws_setBuf (b : list byte) (s : blockWriteStream) : blockWriteStream :=
  mkWriteStream b (ws_offset s) (ws_closed s) (ws_packets s) (ws_seqno s) (ws_ackError s) (ws_acksDone s).
Definition ws_close (s : blockWriteStream) : blockWriteStream :=
  mkWriteStream (ws_buf s) (ws_offset s) true (ws_packets s) (ws_seqno s) (ws_ackError s) (ws_acksDone s).
(** [s.packets <- packet] *)
Definition ws_push (p : outboundPacket) (s : blockWriteStream) : blockWriteStream :=
  mkWriteStream (ws_buf s) (ws_offset s) (ws_closed s) (ws_packets s ++ [p]) (ws_seqno s) (ws_ackError s) (ws_acksDone s).
(** [s.offset += int64(len(packet.data)); s.seqno++] *)
Definition ws_advance (n : Z) (s : blockWriteStream) : blockWriteStream :=
  mkWriteStream (ws_buf s) (i64 (ws_offset s + n)) (ws_closed s) (ws_packets s) (i64 (ws_seqno s + 1)) (ws_ackError s) (ws_acksDone s).
(** [close(s.packets); <-s.acksDone] *)
Definition ws_acked (e : option error) (s : blockWriteStream) : blockWriteStream :=
  mkWriteStream (ws_buf s) (ws_offset s) (ws_closed s) (ws_packets s) (ws_seqno s) e true.

Definition getAckError (s : blockWriteStream) : option error := if ws_acksDone s then ws_ackError s else None.

Definition packetLength (s : blockWriteStream) : Z :=
  let len := if zlen (ws_buf s) <? outboundPacketSize then zlen (ws_buf s) else outboundPacketSize in
  let alignment := Z.rem (ws_offset s) outboundChunkSize in
  if (0 <? alignment) && (outboundChunkSize - alignment <? len) then outboundChunkSize - alignment else len.

Definition checksums_of (tab : Table) (size : Z) (data : list byte) : list byte :=
  concat (map (λ i, marshalUint32 [] (crc32_Checksum (chunk size i data) tab)) (seq 0 (Z.to_nat (ceil_div (zlen data) size)))).

Definition makePacket (s : blockWriteStream) : outboundPacket * blockWriteStream :=
  let n := Z.to_nat (packetLength s) in
  let data := take n (ws_buf s) in
  (mkPacket (ws_seqno s) (ws_offset s) false (checksums_of IEEETable outboundChunkSize data) data,
   ws_setBuf (drop n (ws_buf s)) s).

Section stream.
Context {C : Type} `{Conn C} `{Proto PacketHeaderProto} `{Proto PipelineAckProto}.

Definition packet_bytes (p : outboundPacket) (infoBytes : list byte) : list byte :=
  marshalUint32 [] (zlen (pk_data p) + zlen (pk_checksums p) + 4) ++ PutUint16 (zlen infoBytes)
  ++ infoBytes ++ pk_checksums p ++ pk_data p.
Definition writePacket (p : outboundPacket) (c : C) : option error * C :=
  match proto_Marshal (mkHeader (pk_offset p) (pk_seqno p) (pk_last p) (i32 (zlen (pk_data p)))) with
  | (_, Some e) => (Some e, c)
  | (infoBytes, None) => conn_Write (packet_bytes p infoBytes) c
  end.

(** Every packet takes at least one byte of the buffer, so that its length is
    enough fuel. *)
Fixpoint flush_loop (fuel : nat) (force : bool) (s : blockWriteStream) (c : C) : option error * blockWriteStream * C :=
  match fuel with
  | O => (None, s, c)
  | S fuel =>
      if (0 <? zlen (ws_buf s)) && (force || (outboundPacketSize <=? zlen (ws_buf s))) then
        let '(packet, s) := makePacket s in
        let s := ws_advance (zlen (pk_data packet)) (ws_push packet s) in
        match writePacket packet c with
        | (Some e, c) => (Some e, s, c)
        | (None, c) => flush_loop fuel force s c
        end
      else (None, s, c)
  end.
Definition flush (force : bool) (s : blockWriteStream) (c : C) : option error * blockWriteStream * C :=
  flush_loop (length (ws_buf s)) force s c.

Definition stream_Write (b : list byte) (s : blockWriteStream) (c : C) : (Z * option error) * blockWriteStream * C :=
  if ws_closed s then ((0, Some ErrClosedPipe), s, c)
  else
    match getAckError s with
    | Some e => ((0, Some e), s, c)
    | None =>
        let '(err, s, c) := flush false (ws_setBuf (ws_buf s ++ b) s) c in
        ((zlen b, err), s, c)
    end.

(** The first reply of an ack that is not a success. *)
Fixpoint bad_reply (i : Z) (reply : list Z) : option (Z * Z) :=
  match reply with
  | [] => None
  | status :: reply => if status =? Status_SUCCESS then bad_reply (i + 1) reply else Some (i, status)
  end.
(** The ack of the next packet, after those of heartbeats. Every ack takes at
    least five bytes: their number is enough fuel. *)
Fixpoint next_ack (fuel : nat) (r : Reader) : (Z + error) * Reader :=
  match fuel with
  | O => (inr (rd_fail r), r)
  | S fuel =>
      match readPrefixedMessage (M := PipelineAckProto) r with
      | (Ok ack, r) =>
          match bad_reply 0 (ack_Reply ack) with
          | Some (i, status) => (inr (EAck i (ack_Seqno ack) status), r)
          | None => if ack_Seqno ack =? heartbeatSeqno then next_ack fuel r else (inl (ack_Seqno ack), r)
          end
      | (Err e, r) => (inr e, r)
      | (Panic, r) => (inr (rd_fail r), r)
      end
  end.
Fixpoint ackPackets (packets : list outboundPacket) (r : Reader) : option error :=
  match packets with
  | [] => None
  | p :: packets =>
      match next_ack (S (length (rd_rest r))) r with
      | (inr e, _) => Some e
      | (inl seqno, r) => if seqno =? pk_seqno p then ackPackets packets r else Some ErrInvalidSeqno
      end
  end.

Definition finish (s : blockWriteStream) (c : C) : option error * blockWriteStream * C :=
  if ws_closed s then (None, s, c)
  else
    let s := ws_close s in
    match getAckError s with
    | Some e => (Some e, s, c)
    | None =>
        match flush true s c with
        | (Some e, s, c) => (Some e, s, c)
        | (None, s, c) =>
            let lastPacket := mkPacket (ws_seqno s) (ws_offset s) true [] [] in
            let s := ws_push lastPacket s in
            match writePacket lastPacket c with
            | (Some e, c) => (Some e, s, c)
            | (None, c) =>
                let s := ws_acked (ackPackets (ws_packets s) (conn_Reader c)) s in
                (getAckError s, s, c)
            end
        end
    end.

(** One tick of [writeHeartbeats]; [init] panics when the packet cannot be
    encoded. *)
Definition heartbeatPacket : result (list byte) :=
  match proto_Marshal (mkHeader 0 heartbeatSeqno false 0) with
  | (b, None) => Ok (marshalUint32 [] 4 ++ PutUint16 (zlen b) ++ b)
  | (_, Some _) => Panic
  end.
Definition writeHeartbeat (c : C) : C :=
  match heartbeatPacket with
  | Ok b => snd (conn_Write b c)
  | _ => c
  end.
End stream.

(** ** Reading a block

    [bytes.Buffer] keeps its array when it is reset; [rs_spare] is what the array
    holds behind the checksums, which a slice expression may reach. *)
Record blockReadStream := mkReadStream {
  rs_reader : Reader;
  rs_checksumTab : Table;
  rs_chunkSize : Z;
  rs_checksums : list byte;
  rs_spare : list byte;
  rs_chunk : list byte;
  rs_packetLength : Z;
  rs_chunkIndex : Z;
  rs_numChunks : Z;
  rs_lastPacket : bool
}.
Definition newBlockReadStream (reader : Reader) (chunkSize : Z) (tab : Table) : blockReadStream :=
  mkReadStream reader tab chunkSize [] [] [] 0 0 0 false.

Definition rs_setReader (r : Reader) (s : blockReadStream) : blockReadStream :=
  mkReadStream r (rs_checksumTab s) (rs_chunkSize s) (rs_checksums s) (rs_spare s) (rs_chunk s) (rs_packetLength s)
    (rs_chunkIndex s) (rs_numChunks s) (rs_lastPacket s).
Definition rs_setChunk (b : list byte) (s : blockReadStream) : blockReadStream :=
  mkReadStream (rs_reader s) (rs_checksumTab s) (rs_chunkSize s) (rs_checksums s) (rs_spare s) b (rs_packetLength s)
    (rs_chunkIndex s) (rs_numChunks s) (rs_lastPacket s).
(** [s.chunkIndex++] *)
Definition rs_next (s : blockReadStream) : blockReadStream :=
  mkReadStream (rs_reader s) (rs_checksumTab s) (rs_chunkSize s) (rs_checksums s) (rs_spare s) (rs_chunk s) (rs_packetLength s)
    (rs_chunkIndex s + 1) (rs_numChunks s) (rs_lastPacket s).
Definition rs_setChecksums (b spare : list byte) (s : blockReadStream) : blockReadStream :=
  mkReadStream (rs_reader s) (rs_checksumTab s) (rs_chunkSize s) b spare (rs_chunk s) (rs_packetLength s)
    (rs_chunkIndex s) (rs_numChunks s) (rs_lastPacket s).
Definition rs_setPacket (len chunks : Z) (last : bool) (s : blockReadStream) : blockReadStream :=
  mkReadStream (rs_reader s) (rs_checksumTab s) (rs_chunkSize s) (rs_checksums s) (rs_spare s) (rs_chunk s) len 0 chunks last.

(** [binary.BigEndian.Uint16] *)
Definition Uint16 (b : list byte) : Z :=
  match b with hi :: lo :: _ => Z.lor (Z_of_byte lo) (Z.shiftl (Z_of_byte hi) 8) | _ => 0 end.

(** [spare old new] is what lies behind the new contents of the buffer of
    checksums: it depends on how [bytes.Buffer] grows. *)
Class BufferGrowth := spare : list byte → list byte → list byte.

Section read.
Context `{Proto PacketHeaderProto} `{BufferGrowth}.
Implicit Types (s : blockReadStream).

(** An error of [proto.Unmarshal] is not looked at. *)
Definition readPacketHeader s : result PacketHeaderProto * blockReadStream :=
  let '((lengthBytes, err), r) := ReadFull (rs_reader s) 6 in
  match err with
  | Some e => (Err e, rs_setReader r s)
  | None =>
      let '((headerBytes, err), r) := ReadFull r (Uint16 (drop 4 lengthBytes)) in
      match err with
      | Some e => (Err e, rs_setReader r s)
      | None => (Ok (fst (proto_Unmarshal headerBytes)), rs_setReader r s)
      end
  end.

(** [int(math.Ceil(x / y))]; the conversion of an infinity or of a NaN gives the
    smallest integer on amd64. [Grow] panics on a negative count. *)
Definition numChunks_of (dataLength chunkSize : Z) : Z :=
  if chunkSize =? 0 then - 2 ^ 63 else ceil_div dataLength chunkSize.
Definition startPacket s : result (option error) * blockReadStream :=
  match readPacketHeader s with
  | (Ok header, s) =>
      let numChunks := numChunks_of (DataLen header) (rs_chunkSize s) in
      let checksumsLength := i64 (numChunks * 4) in
      if checksumsLength <? 0 then (Panic, s)
      else
        let '((sums, err), r) := CopyN (rs_reader s) checksumsLength in
        let s := rs_setChecksums sums (spare (rs_checksums s) sums) (rs_setReader r s) in
        match err with
        | Some e => (Ok (Some e), s)
        | None => (Ok None, rs_setPacket (DataLen header) numChunks (LastPacketInBlock header) s)
        end
  | (Err e, s) => (Ok (Some e), s)
  | (Panic, s) => (Panic, s)
  end.

(** A slice of the buffer may reach behind its contents, but not behind its array. *)
Definition validateChecksum (b : list byte) s : result (option error) :=
  let array := rs_checksums s ++ rs_spare s in
  let off := 4 * rs_chunkIndex s in
  if (off <? 0) || (zlen array <? off + 4) then Panic
  else
    '(checksum, _) ← unmarshalUint32 (take 4 (drop (Z.to_nat off) array));
    Ok (if crc32_Checksum b (rs_checksumTab s) =? checksum then None else Some errInvalidChecksum).
(** The chunks of the [n] bytes that were just read, from the [i]th on. *)
Fixpoint validate_chunks (count i : nat) (b : list byte) s : result (option error) * blockReadStream :=
  match count with
  | O => (Ok None, s)
  | S count =>
      let chunkOff := Z.of_nat i * rs_chunkSize s in
      let chunkEnd := if zlen b <=? chunkOff + rs_chunkSize s then zlen b else chunkOff + rs_chunkSize s in
      if chunkEnd <? chunkOff then (Panic, s)
      else
        match validateChecksum (take (Z.to_nat (chunkEnd - chunkOff)) (drop (Z.to_nat chunkOff) b)) s with
        | Ok None => validate_chunks count (S i) b (rs_next s)
        | Ok (Some e) => (Ok (Some e), s)
        | _ => (Panic, s)
        end
  end.

(** Small reads go through a buffer of one chunk. When its checksum is wrong the
    error is dropped, and the chunk stays in the buffer. *)
Definition read_small (n remaining : Z) s : result (list byte * option error) * blockReadStream :=
  let chunkSize := if remaining <? rs_chunkSize s then remaining else rs_chunkSize s in
  let '((b, err), r) := CopyN (rs_reader s) chunkSize in
  let s := rs_setChunk (rs_chunk s ++ b) (rs_setReader r s) in
  match err with
  | Some e => (Ok ([], Some e), s)
  | None =>
      match validateChecksum (rs_chunk s) s with
      | Ok None =>
          let s := rs_next s in
          (Ok (take (Z.to_nat n) (rs_chunk s), None), rs_setChunk (drop (Z.to_nat n) (rs_chunk s)) s)
      | Ok (Some _) => (Ok ([], None), s)
      | _ => (Panic, s)
      end
  end.
Definition read_chunks (n chunksToRead amountToRead : Z) s : result (list byte * option error) * blockReadStream :=
  if (amountToRead <? 0) || (n <? amountToRead) then (Panic, s)
  else
    let '((b, err), r) := ReadFull (rs_reader s) amountToRead in
    let s := rs_setReader r s in
    match err with
    | Some e => (Ok (b, Some e), s)
    | None =>
        match validate_chunks (Z.to_nat chunksToRead) 0 b s with
        | (Ok None, s) =>
            (Ok (b, if (rs_chunkIndex s =? rs_numChunks s) && rs_lastPacket s then Some EOF else None), s)
        | (Ok (Some e), s) => (Ok (b, Some e), s)
        | (_, s) => (Panic, s)
        end
    end.
Definition read_packet (n : Z) s : result (list byte * option error) * blockReadStream :=
  let remaining := rs_packetLength s - rs_chunkIndex s * rs_chunkSize s in
  if 0 <? zlen (rs_chunk s) then
    (Ok (take (Z.to_nat n) (rs_chunk s), None), rs_setChunk (drop (Z.to_nat n) (rs_chunk s)) s)
  else if n <? rs_chunkSize s then read_small n remaining s
  else if remaining <? n then read_chunks n (rs_numChunks s - rs_chunkIndex s) remaining s
  else if rs_chunkSize s =? 0 then (Panic, s)
  else read_chunks n (n / rs_chunkSize s) (n / rs_chunkSize s * rs_chunkSize s) s.
(** [Read] into a buffer of [n] bytes. *)
Definition stream_Read (n : Z) s : result (list byte * option error) * blockReadStream :=
  if rs_chunkIndex s =? rs_numChunks s then
    if rs_lastPacket s then (Ok ([], Some EOF), s)
    else
      match startPacket s with
      | (Ok None, s) => read_packet n s
      | (Ok (Some e), s) => (Ok ([], Some e), s)
      | (_, s) => (Panic, s)
      end
  else read_packet n s.
End read.

(** ** The receiving side, for reference

    What a datanode expects of the packets of a block of which it has the bytes
    [old]: heartbeats change nothing, the others are numbered from 1, continue
    the block where it ends, carry a checksum for every chunk of 512 bytes, and
    do not go past the end of a chunk that they do not begin. A packet without
    data ends the block. *)
Record received := mkReceived { rv_data : list byte; rv_next : Z; rv_done : bool }.
Definition receive_packet (h : PacketHeaderProto) (sums data : list byte) (st : received) : option received :=
  if Seqno h =? heartbeatSeqno then
    if (DataLen h =? 0) && bool_decide (sums = []) && bool_decide (data = []) then Some st else None
  else
    let off := zlen (rv_data st) in
    if negb (rv_done st) && (Seqno h =? rv_next st) && (OffsetInBlock h =? off) && (DataLen h =? zlen data)
       && bool_decide (sums = checksums_of IEEETable outboundChunkSize data)
       && bool_decide (off mod outboundChunkSize = 0 ∨ zlen data <= outboundChunkSize - off mod outboundChunkSize)
       && eqb (LastPacketInBlock h) (zlen data =? 0)
    then Some (mkReceived (rv_data st ++ data) (rv_next st + 1) (LastPacketInBlock h))
    else None.

(** The packets in a stream of bytes. *)
Definition split_packet `{Proto PacketHeaderProto} (b : list byte) : option (PacketHeaderProto * list byte * list byte * list byte) :=
  match unmarshalUint32 b with
  | Ok (total, b) =>
      let '((lenBytes, err), r) := ReadFull (mkReader b EOF) 2 in
      let '((headerBytes, err'), r) := ReadFull r (Uint16 lenBytes) in
      match err, err', proto_Unmarshal headerBytes with
      | None, None, (h, None) =>
          let '((sums, err), r) := ReadFull r (total - 4 - DataLen h) in
          let '((data, err'), r) := ReadFull r (DataLen h) in
          match err, err' with
          | None, None => Some (h, sums, data, rd_rest r)
          | _, _ => None
          end
      | _, _, _ => None
      end
  | _ => None
  end.
Inductive receives `{Proto PacketHeaderProto} : list byte → received → received → Prop :=
  | receives_nothing st : receives [] st st
  | receives_packet b h sums data rest st st1 st2 :
      split_packet b = Some (h, sums, data, rest) → receive_packet h sums data st = Some st1 →
      receives rest st1 st2 → receives b st st2.

(** What a connection that works does: it keeps what it is given. *)
Class ConnSpec (C : Type) `{Conn C} := {
  conn_open : C → Prop;
  conn_sent : C → list byte;
  conn_Write_open b c : conn_open c →
    ∃ c', conn_Write b c = (None, c') ∧ conn_open c' ∧ conn_sent c' = conn_sent c ++ b
}.
(** The fields of a header have fixed width. *)
Class HeaderSpec `{ProtoSpec PacketHeaderProto} := {
  header_fits h : is_i64 (OffsetInBlock h) → is_i64 (Seqno h) → - 2 ^ 31 <= DataLen h < 2 ^ 31 → proto_fits h;
  header_length h : proto_fits h → zlen (proto_bytes h) < 2 ^ 16
}.

(** Arithmetic on lengths. *)
Ltac zlia :=
  repeat match goal with
  | |- context [zlen ?l] => lazymatch goal with _ : 0 <= zlen l |- _ => fail | _ => pose proof (zlen_nonneg l) end
  | _ : context [zlen ?l] |- _ => lazymatch goal with _ : 0 <= zlen l |- _ => fail | _ => pose proof (zlen_nonneg l) end
  end; lia.

(** ** Reads on readers *)
Lemma take_app_zlen {A} (a b : list A) : take (Z.to_nat (zlen a)) (a ++ b) = a.
Proof. unfold zlen. by rewrite Nat2Z.id, take_app_length. Qed.
Lemma drop_app_zlen {A} (a b : list A) : drop (Z.to_nat (zlen a)) (a ++ b) = b.
Proof. unfold zlen. by rewrite Nat2Z.id, drop_app_length. Qed.
Lemma ReadFull_max a b e n : zlen a = Z.max 0 n → ReadFull (mkReader (a ++ b) e) n = ((a, None), mkReader b e).
Proof.
  intros Ha. unfold ReadFull, read_upto. simpl. replace (Z.to_nat n) with (Z.to_nat (zlen a)) by lia.
  rewrite take_app_zlen, drop_app_zlen. by rewrite (proj2 (Z.leb_le _ _)) by lia.
Qed.
Lemma ReadFull_app a b e n : zlen a = n → ReadFull (mkReader (a ++ b) e) n = ((a, None), mkReader b e).
Proof. intros <-. apply ReadFull_max. pose proof (zlen_nonneg a). lia. Qed.
Lemma ReadFull_inv r n a r' : ReadFull r n = ((a, None), r') →
  rd_rest r = a ++ rd_rest r' ∧ rd_fail r' = rd_fail r ∧ zlen a = Z.max 0 n.
Proof.
  unfold ReadFull, read_upto. destruct (Z.leb_spec n (zlen (take (Z.to_nat n) (rd_rest r)))) as [Hl|]; intros E; [|done].
  injection E as <- <-. simpl. rewrite take_drop. split_and!; [done..|].
  unfold zlen in *. rewrite length_take in *. lia.
Qed.
Lemma CopyN_app a b e n : zlen a = n → CopyN (mkReader (a ++ b) e) n = ((a, None), mkReader b e).
Proof.
  intros <-. unfold CopyN, read_upto. simpl. rewrite take_app_zlen, drop_app_zlen.
  by rewrite (proj2 (Z.leb_le _ _)) by lia.
Qed.
Lemma zlen_take {A} (l : list A) n : 0 <= n <= zlen l → zlen (take (Z.to_nat n) l) = n.
Proof. unfold zlen. rewrite length_take. lia. Qed.
Lemma zlen_drop {A} (l : list A) n : 0 <= n <= zlen l → zlen (drop (Z.to_nat n) l) = zlen l - n.
Proof. unfold zlen. rewrite length_drop. lia. Qed.
Lemma zlen_nil_inv {A} (l : list A) : zlen l <= 0 → l = [].
Proof. destruct l; [done|]. rewrite zlen_cons. pose proof (zlen_nonneg l). lia. Qed.

Lemma Uint16_Put v : 0 <= v < 2 ^ 16 → Uint16 (PutUint16 v) = v.
Proof.
  intros Hv. unfold PutUint16, Uint16. rewrite !Z_of_byte_of_Z. unfold u8.
  rewrite Z.shiftr_div_pow2 by lia. rewrite (Z.mod_small (v / 2 ^ 8)).
  2: { split; [apply Z.div_pos; lia|apply Z.div_lt_upper_bound; lia]. }
  rewrite lor_shiftl_add by (try apply Z.mod_pos_bound; lia). pose proof (Z.div_mod v (2 ^ 8)). lia.
Qed.
Lemma zlen_PutUint16 v : zlen (PutUint16 v) = 2.
Proof. done. Qed.

Lemma zlen_checksums tab size data : 0 < size →
  zlen (checksums_of tab size data) = 4 * ceil_div (zlen data) size.
Proof.
  intros Hs. unfold checksums_of. pose proof (zlen_nonneg data).
  assert (0 <= ceil_div (zlen data) size) as Hc.
  { unfold ceil_div. pose proof (Z.div_le_upper_bound (- zlen data) size 0). lia. }
  rewrite <- (Z2Nat.id (ceil_div _ _)) at 2 by done. generalize (Z.to_nat (ceil_div (zlen data) size)). intros k.
  generalize 0%nat. induction k as [|k IH]; intros i; [done|].
  cbn [seq map concat]. rewrite zlen_app, IH, zlen_marshalUint32. lia.
Qed.

(** ** Packets are read back as they were written *)
Section wire.
Context `{HeaderSpec}.

Definition header_of (p : outboundPacket) : PacketHeaderProto :=
  mkHeader (pk_offset p) (pk_seqno p) (pk_last p) (i32 (zlen (pk_data p))).

Lemma i32_id z : - 2 ^ 31 <= z < 2 ^ 31 → i32 z = z.
Proof. unfold i32. intros ?. rewrite Z.mod_small; lia. Qed.

Lemma header_of_fits p : is_i64 (pk_offset p) → is_i64 (pk_seqno p) → zlen (pk_data p) < 2 ^ 31 →
  proto_fits (header_of p) ∧ DataLen (header_of p) = zlen (pk_data p).
Proof.
  intros Ho Hs Hl. pose proof (zlen_nonneg (pk_data p)). unfold header_of. simpl. rewrite i32_id by lia.
  split; [|done]. apply header_fits; simpl; [done|done|lia].
Qed.

Lemma split_packet_bytes p rest : proto_fits (header_of p) → DataLen (header_of p) = zlen (pk_data p) →
  zlen (pk_data p) + zlen (pk_checksums p) + 4 < 2 ^ 32 →
  split_packet (packet_bytes p (proto_bytes (header_of p)) ++ rest) = Some (header_of p, pk_checksums p, pk_data p, rest).
Proof.
  intros Hf Hd Hl. unfold split_packet, packet_bytes. rewrite <- !app_assoc.
  pose proof (zlen_nonneg (pk_data p)). pose proof (zlen_nonneg (pk_checksums p)).
  rewrite unmarshalUint32_marshal, u32_id by (unfold is_u32; lia).
  rewrite ReadFull_app by done. rewrite Uint16_Put.
  2: { split; [apply zlen_nonneg|by apply header_length]. }
  rewrite ReadFull_app by done. rewrite proto_Unmarshal_bytes by done.
  rewrite ReadFull_app by (rewrite Hd; lia). by rewrite ReadFull_app.
Qed.
End wire.

Lemma seqZ_snoc (n : Z) : 1 <= n → seqZ 1 (n - 1) ++ [n] = seqZ 1 n.
Proof.
  intros Hn. replace (seqZ 1 n) with (seqZ 1 (n - 1 + 1)) by (f_equal; lia).
  rewrite seqZ_app by lia. f_equal. rewrite seqZ_cons by lia. f_equal. lia.
Qed.

(** ** What a write stream sends *)
Section sending.
Context {C : Type} `{ConnSpec C} `{HeaderSpec} `{Proto PipelineAckProto}.
Implicit Types (s : blockWriteStream) (c : C).

Lemma split_packet_app b h sums data rest x : split_packet b = Some (h, sums, data, rest) →
  split_packet (b ++ x) = Some (h, sums, data, rest ++ x).
Proof.
  unfold split_packet. destruct b as [|b0 [|b1 [|b2 [|b3 b]]]]; [done..|]. cbn [app]. rewrite !unmarshalUint32_cons.
  intros E.
  destruct (ReadFull (mkReader b EOF) 2) as [[lb e1] r1] eqn:E1.
  destruct (ReadFull r1 (Uint16 lb)) as [[hb e2] r2] eqn:E2.
  destruct e1; [done|]. destruct e2; [done|]. destruct (proto_Unmarshal hb) as [h' [?|]] eqn:Eh; [done|].
  destruct (ReadFull r2 (_ - 4 - DataLen h')) as [[sb e3] r3] eqn:E3.
  destruct (ReadFull r3 (DataLen h')) as [[db e4] r4] eqn:E4.
  destruct e3; [done|]. destruct e4; [done|]. simplify_eq.
  destruct r1 as [b1' f1], r2 as [b2' f2], r3 as [b3' f3], r4 as [b4' f4].
  apply ReadFull_inv in E1 as (? & ? & L1), E2 as (? & ? & L2), E3 as (? & ? & L3), E4 as (? & ? & L4). simplify_eq/=.
  rewrite <- !app_assoc. rewrite ReadFull_max by done. rewrite ReadFull_max by done. rewrite Eh.
  rewrite ReadFull_max by done. by rewrite ReadFull_max.
Qed.

Lemma receives_app b1 b2 st1 st2 st3 : receives b1 st1 st2 → receives b2 st2 st3 → receives (b1 ++ b2) st1 st3.
Proof.
  intros R1 R2. induction R1; [done|]. eapply receives_packet; [by apply split_packet_app|done|auto].
Qed.

(** The packets of a block of which the datanode had [old], while the buffer
    still holds the rest of [total]; the connection had sent [base] before. *)
Record sending (base old total : list byte) s c (st : received) : Prop := {
  sg_open : conn_open c;
  sg_live : ws_acksDone s = false;
  sg_sent : ∃ sent, conn_sent c = base ++ sent ∧ receives sent (mkReceived old 1 false) st;
  sg_done : rv_done st = false;
  sg_data : rv_data st ++ ws_buf s = old ++ total;
  sg_offset : ws_offset s = zlen (rv_data st);
  sg_seqno : ws_seqno s = rv_next st;
  sg_next : 1 <= rv_next st <= 1 + zlen (rv_data st);
  sg_packets : map pk_seqno (ws_packets s) = seqZ 1 (rv_next st - 1)
}.

Lemma writePacket_ok p c : proto_fits (header_of p) → conn_open c →
  ∃ c', writePacket p c = (None, c') ∧ conn_open c' ∧ conn_sent c' = conn_sent c ++ packet_bytes p (proto_bytes (header_of p)).
Proof.
  intros Hf Hc. unfold writePacket. fold (header_of p). rewrite proto_Marshal_fits by done. by apply conn_Write_open.
Qed.

Lemma packetLength_spec s : 0 <= ws_offset s → 0 < zlen (ws_buf s) →
  0 < packetLength s <= zlen (ws_buf s) ∧ packetLength s <= outboundPacketSize
  ∧ (ws_offset s mod outboundChunkSize = 0 ∨ packetLength s <= outboundChunkSize - ws_offset s mod outboundChunkSize).
Proof.
  intros Ho Hb. unfold packetLength, outboundPacketSize, outboundChunkSize.
  rewrite Z.rem_mod_nonneg by lia. pose proof (Z.mod_pos_bound (ws_offset s) 512).
  destruct (Z.ltb_spec (zlen (ws_buf s)) 65536); cbv zeta;
    (destruct (Z.ltb_spec 0 (ws_offset s mod 512)); cbn [andb]; [|lia]); case_match; lia.
Qed.

Lemma receive_data p st : rv_done st = false → pk_seqno p = rv_next st → 1 <= rv_next st → pk_offset p = zlen (rv_data st) →
  DataLen (header_of p) = zlen (pk_data p) →
  pk_checksums p = checksums_of IEEETable outboundChunkSize (pk_data p) → pk_last p = (zlen (pk_data p) =? 0) →
  zlen (rv_data st) mod outboundChunkSize = 0 ∨ zlen (pk_data p) <= outboundChunkSize - zlen (rv_data st) mod outboundChunkSize →
  receive_packet (header_of p) (pk_checksums p) (pk_data p) st
    = Some (mkReceived (rv_data st ++ pk_data p) (rv_next st + 1) (pk_last p)).
Proof.
  intros Hd Hs Hn1 Ho Hl Hc Hlast Hal. unfold receive_packet. rewrite Hl, Hd. cbn [header_of Seqno OffsetInBlock LastPacketInBlock].
  rewrite Hs, Ho, Hlast. unfold heartbeatSeqno. destruct (Z.eqb_spec (rv_next st) (-1)); [lia|].
  rewrite !Z.eqb_refl, eqb_reflx, !bool_decide_true by done. done.
Qed.

(** A packet that the datanode takes moves its data from the buffer to the block. *)
Lemma send_packet base old total s c st : sending base old total s c st → zlen (old ++ total) < 2 ^ 62 → 0 < zlen (ws_buf s) →
  ∃ p s1 c1 st1, makePacket s = (p, s1) ∧ writePacket p c = (None, c1)
  ∧ sending base old total (ws_advance (zlen (pk_data p)) (ws_push p s1)) c1 st1
  ∧ (length (ws_buf s1) < length (ws_buf s))%nat.
Proof.
  intros [Hc Ha (sent & Hsent & Hr) Hd Hdata Ho Hs Hn Hp] Hb Hbuf.
  assert (zlen (rv_data st) + zlen (ws_buf s) = zlen (old ++ total)) as Hsum by by rewrite <- zlen_app, Hdata.
  pose proof (zlen_nonneg (rv_data st)).
  destruct (packetLength_spec s) as (Hlen & Hmax & Hal); [lia..|].
  destruct (makePacket s) as [p s1] eqn:Em. unfold makePacket in Em. injection Em as <- <-.
  set (p := mkPacket _ _ _ _ _). unfold outboundPacketSize in Hmax.
  assert (zlen (pk_data p) = packetLength s) as Hpl by (apply zlen_take; lia).
  destruct (header_of_fits p) as [Hf HdL]; [unfold is_i64; simpl; lia..|lia|].
  destruct (writePacket_ok p c) as (c1 & Hw & Hc1 & Hs1); [done..|].
  assert (pk_last p = (zlen (pk_data p) =? 0)) as Hlast by (rewrite Hpl; symmetry; apply Z.eqb_neq; lia).
  assert (zlen (pk_checksums p) <= 4 * zlen (pk_data p)) as Hck.
  { change (pk_checksums p) with (checksums_of IEEETable outboundChunkSize (pk_data p)). rewrite zlen_checksums, Hpl by done. unfold ceil_div, outboundChunkSize.
    pose proof (Z.div_le_lower_bound (- packetLength s) 512 (- packetLength s)). lia. }
  exists p. eexists. exists c1, (mkReceived (rv_data st ++ pk_data p) (rv_next st + 1) false). split; [done|]. split; [done|].
  split; [|simpl; rewrite length_drop; unfold zlen in *; lia].
  split; simpl; try done.
  - exists (sent ++ packet_bytes p (proto_bytes (header_of p))). rewrite Hs1, Hsent, app_assoc. split; [done|].
    eapply receives_app; [done|]. eapply receives_packet; [| |apply receives_nothing].
    + rewrite <- (app_nil_r (packet_bytes _ _)). apply split_packet_bytes; [done..|]. lia.
    + apply receive_data; try done; [lia|]. rewrite Hpl, <- Ho. done.
  - simpl. rewrite <- app_assoc, take_drop. done.
  - simpl in Hpl. rewrite zlen_app, Hpl, i64_id; [lia|]. unfold is_i64. lia.
  - rewrite i64_id; [lia|]. unfold is_i64. lia.
  - simpl in Hpl. rewrite zlen_app. lia.
  - simpl. rewrite map_app, Hp. simpl. rewrite Hs, seqZ_snoc by lia. f_equal. lia.
Qed.
Lemma flush_ok base old total fuel : zlen (old ++ total) < 2 ^ 62 → ∀ force s c st, sending base old total s c st →
  (length (ws_buf s) <= fuel)%nat →
  ∃ s' c' st', flush_loop fuel force s c = (None, s', c') ∧ sending base old total s' c' st' ∧ ws_closed s' = ws_closed s
    ∧ (if force then ws_buf s' = [] else zlen (ws_buf s') < outboundPacketSize).
Proof.
  intros Hb. induction fuel as [|fuel IH]; intros force s c st Hs Hf; cbn [flush_loop].
  { assert (ws_buf s = []) as Hnil by (destruct (ws_buf s); simpl in Hf; [done|lia]). exists s, c, st. rewrite Hnil.
    split_and!; [done..|]. by destruct force. }
  destruct (Z.ltb_spec 0 (zlen (ws_buf s))) as [H0'|H0']; cbn [andb].
  2: { apply zlen_nil_inv in H0'. exists s, c, st. rewrite H0'. split_and!; [done..|]. by destruct force. }
  destruct (force || (outboundPacketSize <=? zlen (ws_buf s))) eqn:Hg.
  - destruct (send_packet _ _ _ _ _ _ Hs Hb H0') as (p & s1 & c1 & st1 & Em & Hw & Hs1 & Hl). rewrite Em, Hw.
    destruct (IH force _ _ _ Hs1) as (s' & c' & st' & E & Hs' & Hc & Hbuf); [simpl; lia|].
    exists s', c', st'. split_and!; [done..| |done]. rewrite Hc. simpl. unfold makePacket in Em. by injection Em as <- <-.
  - exists s, c, st. split_and!; [done..|]. destruct force; simpl in Hg; [done|].
    by apply Z.leb_gt in Hg.
Qed.

(** What the client does with a stream before it finishes it, and the heartbeats
    that are sent in between. *)
Inductive stream_op := OpWrite (b : list byte) | OpFlush | OpHeartbeat.
Definition op_bytes (o : stream_op) : list byte := match o with OpWrite b => b | _ => [] end.
Definition stream_step (o : stream_op) (s : blockWriteStream) (c : C) : option error * blockWriteStream * C :=
  match o with
  | OpWrite b => let '((_, err), s, c) := stream_Write b s c in (err, s, c)
  | OpFlush => flush true s c
  | OpHeartbeat => (None, s, writeHeartbeat c)
  end.
Fixpoint stream_run (ops : list stream_op) (s : blockWriteStream) (c : C) : option error * blockWriteStream * C :=
  match ops with
  | [] => (None, s, c)
  | o :: ops =>
      match stream_step o s c with
      | (None, s, c) => stream_run ops s c
      | r => r
      end
  end.

Lemma heartbeat_received base old total s c st : sending base old total s c st → sending base old total s (writeHeartbeat c) st.
Proof.
  intros [Hc Ha (sent & Hsent & Hr) Hd Hdata Ho Hs Hn Hp].
  assert (proto_fits (mkHeader 0 heartbeatSeqno false 0)) as Hf by (apply header_fits; unfold is_i64, heartbeatSeqno; simpl; lia).
  unfold writeHeartbeat, heartbeatPacket. rewrite proto_Marshal_fits by done.
  set (hb := proto_bytes _). set (b := marshalUint32 [] 4 ++ _).
  destruct (conn_Write_open b c Hc) as (c' & -> & Hc' & Hs'). split; try done. simpl.
  exists (sent ++ b). rewrite Hs', Hsent, app_assoc. split; [done|]. eapply receives_app; [done|].
  eapply (receives_packet _ (mkHeader 0 heartbeatSeqno false 0) [] [] []); [|done|apply receives_nothing].
  assert (b = packet_bytes (mkPacket heartbeatSeqno 0 false [] []) hb ++ []) as ->
    by (unfold b, packet_bytes; cbn [pk_data pk_checksums]; by rewrite !app_nil_r).
  by apply (split_packet_bytes (mkPacket heartbeatSeqno 0 false [] [])).
Qed.

Lemma sending_write base old total s c st b : sending base old total s c st →
  sending base old (total ++ b) (ws_setBuf (ws_buf s ++ b) s) c st.
Proof. intros [Hc Ha Hr Hd Hdata Ho Hs Hn Hp]. split; try done. simpl. by rewrite !app_assoc, Hdata. Qed.

Lemma stream_run_ok base old ops : ∀ total s c st, sending base old total s c st → ws_closed s = false →
  zlen (old ++ total ++ concat (map op_bytes ops)) < 2 ^ 62 →
  ∃ s' c' st', stream_run ops s c = (None, s', c') ∧ sending base old (total ++ concat (map op_bytes ops)) s' c' st' ∧ ws_closed s' = false.
Proof.
  induction ops as [|o ops IH]; intros total s c st Hs Hc Hb; simpl.
  { exists s, c, st. by rewrite app_nil_r. }
  simpl in Hb. rewrite !zlen_app in Hb.
  destruct o as [b| |]; simpl in *.
  - unfold stream_Write. rewrite Hc. unfold getAckError. rewrite (sg_live _ _ _ _ _ _ Hs).
    destruct (flush_ok base old (total ++ b) (length (ws_buf s ++ b))) with false (ws_setBuf (ws_buf s ++ b) s) c st
      as (s1 & c1 & st1 & E & Hs1 & Hc1 & _); [rewrite !zlen_app; zlia|by apply sending_write|done|].
    unfold flush. cbn [ws_buf ws_setBuf] in *. rewrite E. rewrite app_assoc. apply IH with st1; [done|by rewrite Hc1|].
    rewrite !zlen_app. zlia.
  - destruct (flush_ok base old total (length (ws_buf s))) with true s c st as (s1 & c1 & st1 & E & Hs1 & Hc1 & _);
      [rewrite zlen_app; zlia|done|done|].
    unfold flush. rewrite E. apply IH with st1; [done|by rewrite Hc1|]. rewrite !zlen_app. zlia.
  - apply IH with st; [by apply heartbeat_received|done|]. rewrite !zlen_app. zlia.
Qed.

Lemma sending_start c old : conn_open c → zlen old < 2 ^ 62 →
  sending (conn_sent c) old [] (newBlockWriteStream (zlen old)) c (mkReceived old 1 false).
Proof.
  intros Hc Ho. pose proof (zlen_nonneg old). split; simpl; try done; [|lia].
  exists []. rewrite app_nil_r. split; [done|constructor].
Qed.

(** After the last packet the datanode has the whole block, and what [finish]
    returns is what the acks say. *)
Lemma finish_ok base old total s c st : sending base old total s c st → ws_closed s = false → zlen (old ++ total) < 2 ^ 62 →
  ∃ s' c' sent n, finish s c = (ackPackets (ws_packets s') (conn_Reader c'), s', c')
    ∧ conn_open c' ∧ conn_sent c' = base ++ sent ∧ receives sent (mkReceived old 1 false) (mkReceived (old ++ total) (n + 1) true)
    ∧ map pk_seqno (ws_packets s') = seqZ 1 n.
Proof.
  intros Hs Hc Hb. unfold finish. rewrite Hc. unfold getAckError. cbn [ws_close ws_acksDone ws_ackError]. rewrite (sg_live _ _ _ _ _ _ Hs).
  destruct (flush_ok base old total (length (ws_buf s))) with true (ws_close s) c st as (s1 & c1 & st1 & E & Hs1 & Hc1 & Hbuf);
    [done|by destruct Hs|done|].
  unfold flush. cbn [ws_buf ws_close] in *. rewrite E.
  destruct Hs1 as [Ho1 Ha1 (sent & Hsent & Hr) Hd Hdata Ho Hq Hn Hp]. rewrite Hbuf, app_nil_r in Hdata.
  set (p := mkPacket (ws_seqno s1) (ws_offset s1) true [] []). pose proof (zlen_nonneg (rv_data st1)).
  rewrite <- Hdata in Hb.
  destruct (header_of_fits p) as [Hf HdL]; [unfold is_i64; simpl; lia..|done|].
  destruct (writePacket_ok p c1 Hf Ho1) as (c2 & -> & Hc2 & Hs2). simpl.
  exists (ws_acked (ackPackets (ws_packets (ws_push p s1)) (conn_Reader c2)) (ws_push p s1)), c2, (sent ++ packet_bytes p (proto_bytes (header_of p))), (rv_next st1). split; [done|]. split; [done|].
  split; [by rewrite Hs2, Hsent, app_assoc|]. split.
  - eapply receives_app; [done|]. eapply receives_packet; [| |apply receives_nothing].
    + rewrite <- (app_nil_r (packet_bytes _ _)). by apply split_packet_bytes.
    + rewrite <- Hdata, <- (app_nil_r (rv_data st1)) at 1. apply receive_data; try done; [lia|]. right. simpl.
      pose proof (Z.mod_pos_bound (zlen (rv_data st1)) outboundChunkSize). unfold outboundChunkSize, zlen in *. simpl. lia.
  - simpl. rewrite map_app, Hp. simpl. rewrite Hq. apply seqZ_snoc. lia.
Qed.
End sending.

(** ** Prefixed messages *)
Lemma byte_high x : 0 <= x → Z_of_byte (byte_of_Z (Z.lor x 0x80)) = x mod 128 + 128.
Proof.
  intros Hx. rewrite Z_of_byte_of_Z. unfold u8.
  rewrite (Z.div_mod x 128) at 1 by lia. pose proof (Z.mod_pos_bound x 128).
  assert (Z.lor (128 * (x / 128) + x mod 128) 128 = Z.lor (x mod 128) (Z.shiftl (Z.lor (x / 128) 1) 7)) as ->.
  { rewrite Z.add_comm, Z.mul_comm. change 128 with (2 ^ 7) at 3. rewrite <- (lor_shiftl_add (x mod 128) (x / 128) 7) by lia.
    rewrite Z.shiftl_lor. change (Z.shiftl 1 7) with 128. by rewrite Z.lor_assoc. }
  rewrite lor_shiftl_add by lia.
  rewrite Z.add_mod by lia.
  assert (Z.lor (x / 128) 1 * 2 ^ 7 mod 2 ^ 8 = 128) as ->.
  { change (2 ^ 8) with (2 * 2 ^ 7). rewrite Z.mul_mod_distr_r by lia.
    assert (Z.lor (x / 128) 1 mod 2 = 1) as ->; [|done].
    rewrite <- Z.bit0_mod, Z.lor_spec. by destruct (Z.testbit (x / 128) 0). }
  rewrite (Z.mod_small (x mod 128)) by lia. apply Z.mod_small. lia.
Qed.

Lemma land_127 x : 0 <= x < 128 → Z.land (x + 128) 0x7f = x.
Proof.
  intros Hx. change 0x7f with (Z.ones 7). rewrite Z.land_ones by lia. change (2 ^ 7) with 128.
  rewrite <- (Z.mul_1_l 128) at 1. rewrite Z.mod_add by lia. apply Z.mod_small. lia.
Qed.

(** [Uvarint] reads what [PutUvarint] wrote. *)
Lemma Uvarint_Put n : ∀ x acc sh i rest, 0 <= x < 2 ^ (7 * Z.of_nat n) → 0 <= sh → 0 <= acc < 2 ^ sh → (0 < n)%nat →
  ∃ l, PutUvarint n x = Ok l ∧ Uvarint_from (l ++ rest) acc sh i = (u64 (acc + x * 2 ^ sh), i + zlen l)
    ∧ 1 <= zlen l <= Z.of_nat n.
Proof.
  induction n as [|n IH]; intros x acc sh i rest Hx Hsh Hacc Hn; [lia|]. cbn [PutUvarint].
  destruct (Z.ltb_spec x 0x80) as [Hlt|Hge].
  - eexists. split; [done|]. cbn [app Uvarint_from]. rewrite Z_of_byte_of_Z. unfold u8. rewrite Z.mod_small by lia.
    rewrite (proj2 (Z.ltb_lt _ _)) by lia. rewrite lor_shiftl_add by lia. split; [done|]. unfold zlen. simpl. lia.
  - rewrite Z.shiftr_div_pow2 by lia. change (2 ^ 7) with 128.
    assert (n ≠ 0%nat) by (intros ->; simpl in Hx; lia).
    pose proof (Z.mod_pos_bound x 128). pose proof (Z.div_mod x 128).
    assert (0 <= x / 128 < 2 ^ (7 * Z.of_nat n)) as Hq.
    { split; [apply Z.div_pos; lia|]. apply Z.div_lt_upper_bound; [lia|]. change 128 with (2 ^ 7).
      rewrite <- Z.pow_add_r by lia. replace (7 + 7 * Z.of_nat n) with (7 * Z.of_nat (S n)) by lia. lia. }
    assert (0 <= acc + x mod 128 * 2 ^ sh < 2 ^ (sh + 7)) as Ha.
    { rewrite Z.pow_add_r by lia. change (2 ^ 7) with 128. pose proof (Z.pow_pos_nonneg 2 sh). nia. }
    destruct (IH (x / 128) (acc + x mod 128 * 2 ^ sh) (sh + 7) (i + 1) rest) as (l & -> & E & Hl); [lia..|].
    eexists. split; [done|]. cbn [app Uvarint_from]. rewrite byte_high by lia.
    rewrite (proj2 (Z.ltb_ge _ _)) by lia. rewrite land_127 by lia. rewrite lor_shiftl_add by lia. rewrite E.
    split; [|rewrite zlen_cons; lia]. f_equal; [|rewrite zlen_cons; lia]. f_equal.
    rewrite Z.pow_add_r by lia. change (2 ^ 7) with 128. nia.
Qed.

Section prefixed.
Context {M : Type} `{ProtoSpec M}.

Lemma makePrefixed_ok (m : M) : proto_fits m → zlen (proto_bytes m) < 2 ^ 35 →
  ∃ l, makePrefixedMessage m = Ok (l ++ proto_bytes m) ∧ 1 <= zlen l <= 5
    ∧ ∀ rest, Uvarint (l ++ rest) = (zlen (proto_bytes m), zlen l).
Proof.
  intros Hf Hl. unfold makePrefixedMessage. rewrite proto_Marshal_fits by done.
  pose proof (zlen_nonneg (proto_bytes m)). assert (is_u64 (zlen (proto_bytes m))) as Hu by (unfold is_u64; lia).
  rewrite u64_id by done. change (Z.to_nat MaxVarintLen32) with 5%nat.
  assert (0 <= zlen (proto_bytes m) < 2 ^ (7 * Z.of_nat 5)) as Hr by (change (7 * Z.of_nat 5) with 35; lia).
  assert (∀ rest, ∃ l, PutUvarint 5 (zlen (proto_bytes m)) = Ok l ∧ Uvarint (l ++ rest) = (zlen (proto_bytes m), zlen l) ∧ 1 <= zlen l <= 5) as Hv.
  { intros rest. destruct (Uvarint_Put 5 (zlen (proto_bytes m)) 0 0 0 rest) as (l & E & Eu & Hlen); [lia..|].
    exists l. split; [done|]. split; [|lia]. unfold Uvarint. rewrite Eu. f_equal. rewrite Z.pow_0_r, Z.mul_1_r. by apply u64_id. }
  destruct (Hv []) as (l & E & _ & Hlen). exists l. rewrite E. split; [done|]. split; [done|].
  intros rest. destruct (Hv rest) as (l' & E' & Eu & _). rewrite E in E'. by injection E' as <-.
Qed.

(** A message that takes at least five bytes with its length is read back, and
    the rest of the stream is left alone. *)
Lemma readPrefixed_make (m : M) b rest e : proto_fits m → 4 <= zlen (proto_bytes m) < 2 ^ 35 → makePrefixedMessage m = Ok b →
  readPrefixedMessage (mkReader (b ++ rest) e) = (Ok m, mkReader rest e).
Proof.
  intros Hf Hl Hb. destruct (makePrefixed_ok m Hf) as (l & E & Hlen & Hu); [lia|]. rewrite E in Hb. injection Hb as <-.
  set (v := proto_bytes m) in *. unfold readPrefixedMessage. rewrite <- app_assoc.
  pose proof (take_drop (Z.to_nat (5 - zlen l)) v) as Hv. set (v1 := take _ v) in *. set (v2 := drop _ v) in *.
  assert (zlen v1 = 5 - zlen l) as Hv1 by (apply zlen_take; lia).
  rewrite <- Hv, <- !app_assoc, app_assoc. rewrite ReadFull_app by (rewrite zlen_app; unfold MaxVarintLen32; lia).
  rewrite Hu. rewrite zlen_app, Hv1. rewrite (i64_id (zlen v)) by (unfold is_i64; lia). rewrite i64_id by (unfold is_i64; lia).
  rewrite (proj2 (Z.ltb_ge _ _)) by lia. rewrite (proj2 (Z.ltb_ge _ _)) by lia. cbn [orb].
  rewrite drop_app_zlen. assert (take (Z.to_nat (zlen v)) v1 = v1) as -> by (apply take_ge; unfold zlen in *; lia).
  rewrite ReadFull_app. 2: { pose proof (f_equal zlen Hv) as Hz. rewrite zlen_app in Hz. lia. }
  rewrite Hv. unfold v. by rewrite proto_Unmarshal_bytes.
Qed.

End prefixed.

(** ** Acknowledgements *)
Section acks.
Context `{Proto PipelineAckProto}.
Implicit Types (r : Reader).

(** The acks that arrive on a connection. *)
Inductive reads : Reader → list PipelineAckProto → Reader → Prop :=
  | reads_none r : reads r [] r
  | reads_ack r ack r1 acks r2 : readPrefixedMessage r = (Ok ack, r1) → reads r1 acks r2 → reads r (ack :: acks) r2.
Definition ack_success (ack : PipelineAckProto) : Prop := Forall (λ status, status = Status_SUCCESS) (ack_Reply ack).

Lemma reads_app r1 a r2 b r3 : reads r1 a r2 → reads r2 b r3 → reads r1 (a ++ b) r3.
Proof. intros R1 R2. induction R1; [done|]. by eapply reads_ack; [|apply IHR1]. Qed.

Lemma readPrefixed_shorter r (ack : PipelineAckProto) r1 : readPrefixedMessage r = (Ok ack, r1) →
  (length (rd_rest r1) < length (rd_rest r))%nat.
Proof.
  unfold readPrefixedMessage. destruct (ReadFull r MaxVarintLen32) as [[vb [?|]] r2] eqn:E1; [done|].
  destruct (Uvarint vb) as [rl vl]. destruct (_ || _); [done|].
  destruct (ReadFull r2 _) as [[more [?|]] r3] eqn:E2; [done|]. destruct (proto_Unmarshal _) as [? [?|]]; intros E; [done|].
  injection E as _ <-. apply ReadFull_inv in E1 as (-> & _ & L1), E2 as (-> & _ & _).
  rewrite !length_app. unfold zlen, MaxVarintLen32 in L1. lia.
Qed.

Lemma bad_reply_None i l : bad_reply i l = None ↔ Forall (λ status, status = Status_SUCCESS) l.
Proof.
  revert i. induction l as [|x l IH]; intros i; simpl; [by split; constructor|].
  rewrite Forall_cons. destruct (Z.eqb_spec x Status_SUCCESS); [by rewrite IH; naive_solver|naive_solver].
Qed.

Definition is_beat (ack : PipelineAckProto) : Prop := ack_Seqno ack = heartbeatSeqno.

Lemma next_ack_sound fuel : ∀ r n r', next_ack fuel r = (inl n, r') →
  ∃ beats ack, reads r (beats ++ [ack]) r' ∧ Forall ack_success (beats ++ [ack]) ∧ Forall is_beat beats
    ∧ ack_Seqno ack = n ∧ n ≠ heartbeatSeqno.
Proof.
  induction fuel as [|fuel IH]; intros r n r' E; simpl in E; [done|].
  destruct (readPrefixedMessage r) as [[ack| |] r1] eqn:Er; [|done..].
  destruct (bad_reply 0 (ack_Reply ack)) as [[]|] eqn:Eb; [done|]. apply bad_reply_None in Eb.
  destruct (Z.eqb_spec (ack_Seqno ack) heartbeatSeqno) as [Hh|Hh].
  - destruct (IH _ _ _ E) as (beats & a & Hr & Hs & Hb & Hn). exists (ack :: beats), a.
    split_and!; [by eapply reads_ack|by constructor|by constructor|apply Hn..].
  - injection E as <- <-. exists [], ack. split_and!; [eapply reads_ack; [done|constructor]|by repeat constructor|done..].
Qed.

Lemma next_ack_complete beats : ∀ fuel r ack acks r', reads r (beats ++ ack :: acks) r' → Forall ack_success (beats ++ [ack]) →
  Forall is_beat beats → ack_Seqno ack ≠ heartbeatSeqno → (length (rd_rest r) < fuel)%nat →
  ∃ r1, next_ack fuel r = (inl (ack_Seqno ack), r1) ∧ reads r1 acks r'.
Proof.
  induction beats as [|h beats IH]; intros fuel r ack acks r' Hr Hs Hb Hn Hf; (destruct fuel as [|fuel]; [lia|]); simpl in *.
  - inversion Hr as [|? ? r1 ? ? Er Hr']; subst. rewrite Er. apply Forall_inv in Hs. rewrite (proj2 (bad_reply_None 0 _)) by done.
    destruct (Z.eqb_spec (ack_Seqno ack) heartbeatSeqno); [done|]. by exists r1.
  - inversion Hr as [|? ? r1 ? ? Er Hr']; subst. rewrite Er. apply Forall_cons in Hs as [Hs1 Hs]. apply Forall_cons in Hb as [Hb1 Hb].
    rewrite (proj2 (bad_reply_None 0 _)) by done. rewrite (proj2 (Z.eqb_eq _ _)) by done.
    apply IH; try done. apply readPrefixed_shorter in Er. lia.
Qed.

(** The numbers of the packets that a list of acks is about. *)
Definition acked_seqnos (acks : list PipelineAckProto) : list Z :=
  filter (λ n, n ≠ heartbeatSeqno) (map ack_Seqno acks).

Lemma acked_beats beats acks : Forall is_beat beats → acked_seqnos (beats ++ acks) = acked_seqnos acks.
Proof.
  induction 1 as [|h beats Hh _ IH]; [done|]. unfold acked_seqnos in *. simpl. rewrite filter_cons_False; [done|].
  rewrite Hh. naive_solver.
Qed.

(** The ack loop ends without an error exactly when every packet was
    acknowledged, in order, by every datanode of the pipeline. *)
Lemma ackPackets_spec packets : Forall (λ p, pk_seqno p ≠ heartbeatSeqno) packets → ∀ r,
  ackPackets packets r = None ↔
  ∃ acks r', reads r acks r' ∧ Forall ack_success acks ∧ acked_seqnos acks = map pk_seqno packets.
Proof.
  induction 1 as [|p packets Hp _ IH]; intros r; cbn [ackPackets map].
  { split; [|done]. intros _. exists [], r. split_and!; [constructor|constructor|done]. }
  split.
  - destruct (next_ack _ r) as [[n|e] r1] eqn:E; [|done]. destruct (Z.eqb_spec n (pk_seqno p)) as [->|]; [|done].
    intros (acks & r' & Hr & Hs & Ha)%IH. apply next_ack_sound in E as (beats & ack & Hr1 & Hs1 & Hb & Hn & Hne).
    exists ((beats ++ [ack]) ++ acks), r'. split_and!; [by eapply reads_app|by apply Forall_app|].
    rewrite <- app_assoc, acked_beats by done. unfold acked_seqnos in *. simpl. rewrite Hn, filter_cons_True by done.
    by rewrite Ha.
  - intros (acks & r' & Hr & Hs & Ha).
    assert (∃ beats ack acks', acks = beats ++ ack :: acks' ∧ Forall is_beat beats ∧ ack_Seqno ack = pk_seqno p
      ∧ acked_seqnos acks' = map pk_seqno packets) as (beats & ack & acks' & -> & Hb & Hn & Ha').
    { clear - Ha Hp. induction acks as [|a acks IHa]; [done|]. unfold acked_seqnos in *. simpl in Ha.
      destruct (decide (ack_Seqno a = heartbeatSeqno)) as [Hh|Hh].
      - rewrite filter_cons_False in Ha by naive_solver. destruct (IHa Ha) as (beats & ack & acks' & -> & ? & ? & ?).
        exists (a :: beats), ack, acks'. split_and!; [done|by constructor|done..].
      - rewrite filter_cons_True in Ha by done. simplify_eq. by exists [], a, acks. }
    destruct (next_ack_complete beats (S (length (rd_rest r))) r ack acks' r') as (r1 & -> & Hr1); try done.
    + apply Forall_app in Hs as [? Hs]. apply Forall_cons in Hs as [? _]. apply Forall_app. by repeat constructor.
    + by rewrite Hn.
    + lia.
    + rewrite Hn, Z.eqb_refl. apply IH. exists acks', r'. split_and!; [done| |done].
      apply Forall_app in Hs as [_ Hs]. by inversion Hs.
Qed.
End acks.

(** ** Checksums *)
Lemma lxor_u32 a b : is_u32 a → is_u32 b → is_u32 (Z.lxor a b).
Proof.
  intros Ha Hb. assert (Z.lxor a b = Z.lxor a b mod 2 ^ 32) as ->; [|apply Z.mod_pos_bound; lia].
  rewrite <- Z.land_ones by lia. apply Z.bits_inj'. intros i Hi. rewrite Z.land_spec, Z.lxor_spec.
  destruct (Z.lt_ge_cases i 32); [by rewrite Z.ones_spec_low, andb_true_r by lia|].
  rewrite <- (Z.mod_small a (2 ^ 32)), <- (Z.mod_small b (2 ^ 32)), !Z.mod_pow2_bits_high by (unfold is_u32 in *; lia). done.
Qed.
Lemma crc_bit_u32 p c : is_u32 p → is_u32 c → is_u32 (crc_bit p c).
Proof.
  intros Hp Hc. assert (is_u32 (Z.shiftr c 1)) as Hs.
  { unfold is_u32 in *. rewrite Z.shiftr_div_pow2 by lia. change (2 ^ 1) with 2. split; [apply Z.div_pos; lia|].
    apply Z.div_lt_upper_bound; lia. }
  unfold crc_bit. case_match; [by apply lxor_u32|done].
Qed.
Lemma crc_byte_u32 p c b : is_u32 p → is_u32 c → is_u32 (crc_byte p c b).
Proof.
  intros Hp Hc. unfold crc_byte. assert (is_u32 (Z.lxor c (Z_of_byte b))) as H0.
  { apply lxor_u32; [done|]. pose proof (Z_of_byte_range b). unfold is_u32. lia. }
  revert H0. generalize (Z.lxor c (Z_of_byte b)). intros z Hz. generalize 8%nat. intros k. induction k as [|k IH]; [done|]. by apply crc_bit_u32.
Qed.
Lemma crc32_u32 b tab : is_u32 (crc32_Checksum b tab).
Proof.
  unfold crc32_Checksum. apply lxor_u32; [|done]. assert (is_u32 (poly tab)) as Hp by by destruct tab.
  assert (is_u32 0xffffffff) as Hc by done. revert Hc. generalize 0xffffffff. induction b as [|x b IH]; intros z Hz; simpl; [done|].
  apply IH. by apply crc_byte_u32.
Qed.
Example crc32_check : crc32_Checksum (bytes_of_string "123456789") IEEETable = 0xcbf43926
  ∧ crc32_Checksum (bytes_of_string "123456789") Castagnoli = 0xe3069283.
Proof. by vm_compute. Qed.

(** The checksum of a chunk is where the reader looks for it. *)
Lemma checksum_at tab size data i : (i < Z.to_nat (ceil_div (zlen data) size))%nat →
  ∃ before after, checksums_of tab size data = before ++ marshalUint32 [] (crc32_Checksum (chunk size i data) tab) ++ after
    ∧ length before = (4 * i)%nat.
Proof.
  unfold checksums_of. set (f := λ j, marshalUint32 [] _). set (k := Z.to_nat _). intros Hi.
  replace k with (i + S (k - i - 1))%nat by lia. rewrite seq_app, map_app, concat_app. cbn [seq map concat].
  eexists _, _. split; [done|]. clear Hi.
  assert (∀ j, length (concat (map f (seq j i))) = (4 * i)%nat) as Hl; [|apply Hl]. induction i as [|i IH]; intros j; [done|].
  cbn [seq map concat]. rewrite length_app, IH. change (length (f j)) with 4%nat. lia.
Qed.

Lemma i64_u64 z : is_i64 z → i64 (u64 z) = z.
Proof.
  intros Hz. unfold i64, u64. rewrite Z.add_mod_idemp_l by lia. fold (i64 z). by apply i64_id.
Qed.
Lemma i32_u32 z : - 2 ^ 31 <= z < 2 ^ 31 → i32 (u32 z) = z.
Proof. intros Hz. unfold i32, u32. rewrite Z.add_mod_idemp_l by lia. fold (i32 z). by apply i32_id. Qed.

(** ** An encoding and a connection for examples *)
Module DemoWire.
Definition header_bytes (h : PacketHeaderProto) : list byte :=
  marshalUint64 [] (u64 (OffsetInBlock h)) ++ marshalUint64 [] (u64 (Seqno h))
  ++ marshalUint32 [] (u32 (DataLen h)) ++ [byte_of_Z (if LastPacketInBlock h then 1 else 0)].
Definition read_header (b : list byte) : result PacketHeaderProto :=
  '(off, b) ← unmarshalUint64Safe b;
  '(seqno, b) ← unmarshalUint64Safe b;
  '(len, b) ← unmarshalUint32Safe b;
  Ok (mkHeader (i64 off) (i64 seqno) (bool_decide (b = [byte_of_Z 1])) (i32 len)).
#[global] Instance header_proto : Proto PacketHeaderProto := {
  proto_Marshal h := (header_bytes h, None);
  proto_Unmarshal b :=
    match read_header b with Ok h => (h, None) | _ => (mkHeader 0 0 false 0, Some ErrUnexpectedEOF) end
}.
Lemma read_header_bytes h : is_i64 (OffsetInBlock h) → is_i64 (Seqno h) → - 2 ^ 31 <= DataLen h < 2 ^ 31 →
  read_header (header_bytes h) = Ok h.
Proof.
  intros Ho Hs Hd. unfold read_header, header_bytes.
  rewrite unmarshalUint64Safe_marshal by auto with goint. cbn [mbind result_bind].
  rewrite unmarshalUint64Safe_marshal by auto with goint. cbn [mbind result_bind].
  rewrite unmarshalUint32Safe_marshal. cbn [mbind result_bind].
  rewrite u32_id, !i64_u64, i32_u32 by auto with goint. destruct h as [o q [] d]; done.
Qed.
#[global] Instance header_proto_spec : ProtoSpec PacketHeaderProto.
Proof.
  refine {| proto_fits h := is_i64 (OffsetInBlock h) ∧ is_i64 (Seqno h) ∧ - 2 ^ 31 <= DataLen h < 2 ^ 31;
            proto_bytes := header_bytes |}; [done|].
  intros h (Ho & Hs & Hd). cbn [proto_Unmarshal header_proto]. by rewrite read_header_bytes.
Defined.
#[global] Instance header_spec : HeaderSpec.
Proof. split; simpl; [done|]. intros h _. done. Qed.

Definition ack_bytes (a : PipelineAckProto) : list byte :=
  marshalUint64 [] (u64 (ack_Seqno a)) ++ map byte_of_Z (ack_Reply a).
#[global] Instance ack_proto : Proto PipelineAckProto := {
  proto_Marshal a := (ack_bytes a, None);
  proto_Unmarshal b :=
    match unmarshalUint64Safe b with
    | Ok (seqno, b) => ({| ack_Seqno := i64 seqno; ack_Reply := map Z_of_byte b |}, None)
    | _ => ({| ack_Seqno := 0; ack_Reply := [] |}, Some ErrUnexpectedEOF)
    end
}.

#[global] Instance ack_proto_spec : ProtoSpec PipelineAckProto.
Proof.
  refine {| proto_fits a := is_i64 (ack_Seqno a) ∧ Forall (λ x, 0 <= x < 256) (ack_Reply a); proto_bytes := ack_bytes |}; [done|].
  intros [seqno reply] [Hs Hr]. cbn [proto_Unmarshal ack_proto]. unfold ack_bytes. cbn [ack_Seqno ack_Reply] in *.
  rewrite unmarshalUint64Safe_marshal by auto with goint. rewrite i64_u64 by done. do 2 f_equal.
  induction Hr as [|x l Hx _ IH]; [done|]. simpl. rewrite Z_of_byte_of_Z, IH. unfold u8. by rewrite Z.mod_small.
Defined.

(** A connection that keeps what it is sent and has the acks of the first
    packets ready. *)
Record pipe := mkPipe { sent : list byte; incoming : list byte }.
#[global] Instance pipe_conn : Conn pipe := {
  conn_Write b c := (None, mkPipe (sent c ++ b) (incoming c));
  conn_Reader c := mkReader (incoming c) EOF
}.
#[global] Instance pipe_spec : ConnSpec pipe.
Proof.
  refine {| conn_open _ := True; conn_sent := sent |}. intros b c _. by eexists.
Defined.
Definition ack_message (seqno : Z) : list byte :=
  match makePrefixedMessage {| ack_Seqno := seqno; ack_Reply := [0; 0; 0] |} with Ok b => b | _ => [] end.
End DemoWire.

(** ** Errors of datanodes

    [acksDone] is closed only after the channel of packets was, by [finish]: until
    then no write and no flush reports an ack that failed. *)
Section unseen.
Context {C : Type} `{Conn C} `{Proto PacketHeaderProto} `{Proto PipelineAckProto}.

Lemma flush_unseen fuel force : ∀ s (c : C), ws_acksDone s = false → ws_acksDone (snd (fst (flush_loop fuel force s c))) = false.
Proof.
  induction fuel as [|fuel IH]; intros s c Hs; cbn [flush_loop]; [done|]. destruct (_ && _); [|done].
  destruct (makePacket s) as [p s1] eqn:Em. unfold makePacket in Em. injection Em as <- <-.
  destruct (writePacket _ c) as [[e|] c1]; [done|]. by apply IH.
Qed.
Lemma acks_unseen ops : ∀ s (c : C), ws_acksDone s = false → getAckError (snd (fst (stream_run ops s c))) = None.
Proof.
  assert (∀ s, ws_acksDone s = false → getAckError s = None) as Hn by (intros s Hs; unfold getAckError; by rewrite Hs).
  induction ops as [|o ops IH]; intros s c Hs; simpl; [by apply Hn|].
  assert (ws_acksDone (snd (fst (stream_step o s c))) = false) as Ho.
  { destruct o as [b| |]; simpl; [|by apply flush_unseen|done]. unfold stream_Write. destruct (ws_closed s); [done|]. rewrite Hn by done.
    pose proof (flush_unseen (length (ws_buf s ++ b)) false (ws_setBuf (ws_buf s ++ b) s) c Hs) as Hf. unfold flush. simpl in *.
    by destruct (flush_loop _ _ _ _) as [[e s1] c1]. }
  destruct (stream_step o s c) as [[[e|] s1] c1]; [by apply Hn|by apply IH].
Qed.
End unseen.

(** ** A block on its way to a datanode *)

(** C16: Whatever mixture of writes, flushes and heartbeats goes through a block
    stream that continues a block with the bytes [old], it never fails on a
    connection that works, and the datanode, which checks numbers, offsets,
    checksums and partial chunks, takes every packet: when the stream is
    finished it has [old] followed by everything that was written. [finish]
    then returns nil exactly when every packet was acknowledged, in order and by
    every datanode of the pipeline. *)
Theorem block_write_received {C : Type} `{ConnSpec C} `{HeaderSpec} `{Proto PipelineAckProto} (old : list byte) ops (c : C) :
  conn_open c → zlen (old ++ concat (map op_bytes ops)) < 2 ^ 62 →
  ∃ s1 c1 s2 c2 err sent n,
    stream_run ops (newBlockWriteStream (zlen old)) c = (None, s1, c1)
    ∧ finish s1 c1 = (err, s2, c2)
    ∧ conn_sent c2 = conn_sent c ++ sent
    ∧ receives sent (mkReceived old 1 false) (mkReceived (old ++ concat (map op_bytes ops)) (n + 1) true)
    ∧ (err = None ↔ ∃ acks r, reads (conn_Reader c2) acks r ∧ Forall ack_success acks ∧ acked_seqnos acks = seqZ 1 n).
Proof.
  intros Hc Hb. assert (zlen old < 2 ^ 62) as Ho by (rewrite zlen_app in Hb; zlia).
  destruct (stream_run_ok _ _ ops [] _ _ _ (sending_start c old Hc Ho)) as (s1 & c1 & st1 & Er & Hs1 & Hc1); [done..|].
  destruct (finish_ok _ _ _ _ _ _ Hs1 Hc1 Hb) as (s2 & c2 & sent & n & Ef & _ & Hsent & Hr & Hp).
  eexists s1, c1, s2, c2, _, sent, n. split_and!; [exact Er|exact Ef|done|exact Hr|].
  rewrite ackPackets_spec, Hp; [done|]. apply Forall_forall. intros p Hin.
  assert (pk_seqno p ∈ seqZ 1 n) as Hz by (rewrite <- Hp; by apply list_elem_of_fmap_2).
  apply elem_of_seqZ in Hz. unfold heartbeatSeqno. lia.
Qed.

Lemma block_write_received_witness :
  ∃ s1 c1 s2 c2 err sent n,
    stream_run [OpWrite (bytes_of_string "hello "); OpFlush; OpHeartbeat; OpWrite (bytes_of_string "world")]
      (newBlockWriteStream 0) (DemoWire.mkPipe [] (DemoWire.ack_message 1 ++ DemoWire.ack_message 2 ++ DemoWire.ack_message 3))
      = (None, s1, c1)
    ∧ finish s1 c1 = (err, s2, c2) ∧ err = None
    ∧ receives sent (mkReceived [] 1 false) (mkReceived (bytes_of_string "hello world") (n + 1) true).
Proof.
  destruct (block_write_received (C := DemoWire.pipe) []
    [OpWrite (bytes_of_string "hello "); OpFlush; OpHeartbeat; OpWrite (bytes_of_string "world")]
    (DemoWire.mkPipe [] (DemoWire.ack_message 1 ++ DemoWire.ack_message 2 ++ DemoWire.ack_message 3)))
    as (s1 & c1 & s2 & c2 & err & sent & n & E1 & E2 & _ & Hr & _); [exact I|done|].
  exists s1, c1, s2, c2, err, sent, n. split; [exact E1|]. split; [exact E2|]. split; [|exact Hr].
  vm_compute in E1. injection E1 as <- <-. vm_compute in E2. by injection E2 as <- _ _.
Defined.
