(* ===== verification/HdfsStream.v ===== *)
(** * Reading the stream of a block

    The packets a datanode sends for a block, and what [stream_Read] of
    [HdfsTransfer] delivers of them. The connection may break at any byte. Reads
    deliver the bytes of the block in order; a stream that has seen the last
    packet reports the end of the block, even while its buffer still holds bytes
    of it ([stream_Read_ended]). *)
From stdpp Require Import base tactics option list strings gmap.
From Stdlib Require Import ZArith Lia.
From S2P Require Import Prelude SftpWire HdfsTransfer.

(** ** The stream of a block *)
Section stream.
Context `{HeaderSpec} `{BufferGrowth}.
Context (tab : Table) (size : Z) (Hsize : 0 < size).
Implicit Types (s : blockReadStream) (r : Reader) (D : list byte).

Definition wire (p : outboundPacket) : list byte := packet_bytes p (proto_bytes (header_of p)).
Definition packet_ok (p : outboundPacket) : Prop :=
  is_i64 (pk_offset p) ∧ is_i64 (pk_seqno p) ∧ zlen (pk_data p) < 2 ^ 31
  ∧ pk_checksums p = checksums_of tab size (pk_data p).
(** What a datanode sends for the bytes of a block: packets with data, and one
    without at the end. *)
Inductive block_stream : list byte → list byte → Prop :=
  | block_stream_last p rest : packet_ok p → pk_last p = true → pk_data p = [] → block_stream (wire p ++ rest) []
  | block_stream_data p raw D : packet_ok p → pk_last p = false → pk_data p ≠ [] → block_stream raw D →
      block_stream (wire p ++ raw) (pk_data p ++ D).

(** The reader has the bytes [raw] but for [missing], which never arrive: the
    connection breaks with an error other than [EOF]. A connection that is
    closed cleanly in the middle of a block is not covered: the reader takes it
    for the end of the block. *)
Definition rest_of (missing : list byte) r (raw : list byte) : Prop :=
  raw = rd_rest r ++ missing ∧ (missing = [] ∨ rd_fail r ≠ EOF).

Lemma rest_of_cut missing r a raw : rest_of missing r (a ++ raw) →
  (∃ rest, r = mkReader (a ++ rest) (rd_fail r) ∧ rest_of missing (mkReader rest (rd_fail r)) raw)
  ∨ (missing ≠ [] ∧ rd_fail r ≠ EOF ∧ zlen (rd_rest r) < zlen a ∧ rd_rest r `prefix_of` a).
Proof.
  intros [E Hm]. destruct r as [rest e]. simpl in *.
  destruct (Nat.le_gt_cases (length a) (length rest)) as [Hl|Hl].
  - left. exists (drop (length a) rest). assert (rest = a ++ drop (length a) rest) as Hr.
    { rewrite <- (take_drop (length a) rest) at 1. f_equal. apply (f_equal (take (length a))) in E.
      rewrite take_app_length, take_app_le in E by done. done. }
    rewrite <- Hr. split; [done|]. split; [|done]. simpl. rewrite Hr, <- app_assoc in E. by apply app_inv_head in E.
  - right. assert (missing ≠ []) as Hne.
    { intros ->. apply (f_equal length) in E. rewrite app_nil_r, length_app in E. lia. }
    split_and!; [done|by destruct Hm|unfold zlen; lia|].
    exists (drop (length rest) a). rewrite <- (take_drop (length rest) a) at 1. f_equal.
    apply (f_equal (take (length rest))) in E. by rewrite take_app_length, take_app_le in E by lia.
Qed.

Lemma ReadFull_cut missing r a raw n : rest_of missing r (a ++ raw) → zlen a = n →
  (∃ r', ReadFull r n = ((a, None), r') ∧ rest_of missing r' raw)
  ∨ (missing ≠ [] ∧ ∃ b e r', ReadFull r n = ((b, Some e), r') ∧ b `prefix_of` a ∧ zlen b < zlen a ∧ e ≠ EOF).
Proof.
  intros Hr Hn. destruct (rest_of_cut _ _ _ _ Hr) as [(rest & -> & Hr')|(Hm & He & Hl & Hp)].
  - left. eexists. split; [by apply ReadFull_app|done].
  - right. split; [done|]. unfold ReadFull, read_upto. rewrite take_ge by (unfold zlen in *; lia).
    destruct (Z.leb_spec n (zlen (rd_rest r))); [lia|]. rewrite bool_decide_false by done. simpl. by do 3 eexists.
Qed.
Lemma CopyN_cut missing r a raw n : rest_of missing r (a ++ raw) → zlen a = n →
  (∃ r', CopyN r n = ((a, None), r') ∧ rest_of missing r' raw)
  ∨ (missing ≠ [] ∧ ∃ b e r', CopyN r n = ((b, Some e), r') ∧ e ≠ EOF).
Proof.
  intros Hr Hn. destruct (rest_of_cut _ _ _ _ Hr) as [(rest & -> & Hr')|(Hm & He & Hl & Hp)].
  - left. eexists. split; [by apply CopyN_app|done].
  - right. split; [done|]. unfold CopyN, read_upto. rewrite take_ge by (unfold zlen in *; lia).
    destruct (Z.leb_spec n (zlen (rd_rest r))); [lia|]. by do 3 eexists.
Qed.

Lemma ceil_div_bounds n : 0 <= n → 0 <= ceil_div n size ∧ n <= ceil_div n size * size < n + size.
Proof.
  intros Hn. unfold ceil_div. pose proof (Z.div_mod (- n) size). pose proof (Z.mod_pos_bound (- n) size).
  assert (- (- n / size) * size = n + (- n) mod size) as Hm by nia. split; [|lia].
  apply Z.opp_nonneg_nonpos. apply Z.div_le_upper_bound; lia.
Qed.

(** Where a stream is: the bytes [D] are still to be read from it. *)
Record reading (missing : list byte) s D : Prop := {
  rg_tab : rs_checksumTab s = tab;
  rg_size : rs_chunkSize s = size;
  rg_at : if rs_lastPacket s then rs_chunkIndex s = rs_numChunks s ∧ D = rs_chunk s
    else ∃ data raw D', rs_checksums s = checksums_of tab size data ∧ rs_packetLength s = zlen data
      ∧ rs_numChunks s = ceil_div (zlen data) size ∧ 0 <= rs_chunkIndex s <= rs_numChunks s
      ∧ zlen data < 2 ^ 31
      ∧ rest_of missing (rs_reader s) (drop (Z.to_nat (rs_chunkIndex s * size)) data ++ raw)
      ∧ D = rs_chunk s ++ drop (Z.to_nat (rs_chunkIndex s * size)) data ++ D'
      ∧ block_stream raw D'
}.

Lemma reading_new missing r raw D : rest_of missing r raw → block_stream raw D →
  reading missing (newBlockReadStream r size tab) D.
Proof.
  intros Hr Hb. split; [done..|]. simpl. exists [], raw, D. split_and!; done.
Qed.
Lemma packet_header p : packet_ok p → proto_fits (header_of p) ∧ DataLen (header_of p) = zlen (pk_data p).
Proof. intros (Ho & Hs & Hl & _). by apply header_of_fits. Qed.

Lemma readPacketHeader_spec missing s p raw : packet_ok p → rest_of missing (rs_reader s) (wire p ++ raw) →
  (∃ r', readPacketHeader s = (Ok (header_of p), rs_setReader r' s) ∧ rest_of missing r' (pk_checksums p ++ pk_data p ++ raw))
  ∨ (missing ≠ [] ∧ ∃ e s', readPacketHeader s = (Err e, s') ∧ e ≠ EOF).
Proof.
  intros Hp Hr. destruct (packet_header p Hp) as [Hf _]. unfold readPacketHeader.
  unfold wire, packet_bytes in Hr. set (lb := marshalUint32 [] _) in Hr. set (hb := proto_bytes _) in *.
  rewrite <- !app_assoc, app_assoc in Hr.
  destruct (ReadFull_cut missing _ _ _ 6 Hr) as [(r1 & -> & Hr1)|(Hm & b & e & r1 & -> & _ & _ & He)]; [done| |by eauto 10].
  assert (Uint16 (drop 4 (lb ++ PutUint16 (zlen hb))) = zlen hb) as ->.
  { change (drop 4 (lb ++ PutUint16 (zlen hb))) with (PutUint16 (zlen hb)). apply Uint16_Put.
    split; [apply zlen_nonneg|by apply header_length]. }
  destruct (ReadFull_cut missing _ _ _ (zlen hb) Hr1) as [(r2 & -> & Hr2)|(Hm & b & e & r2 & -> & _ & _ & He)]; [done| |by eauto 10].
  left. exists r2. unfold hb. by rewrite proto_Unmarshal_bytes.
Qed.

(** A packet is started with its checksums at hand. *)
Lemma startPacket_spec missing s p raw : packet_ok p → rs_chunkSize s = size → rest_of missing (rs_reader s) (wire p ++ raw) →
  (∃ s', startPacket s = (Ok None, s') ∧ rest_of missing (rs_reader s') (pk_data p ++ raw)
    ∧ rs_checksumTab s' = rs_checksumTab s ∧ rs_chunkSize s' = size ∧ rs_chunk s' = rs_chunk s
    ∧ rs_checksums s' = checksums_of tab size (pk_data p) ∧ rs_packetLength s' = zlen (pk_data p)
    ∧ rs_numChunks s' = ceil_div (zlen (pk_data p)) size ∧ rs_chunkIndex s' = 0 ∧ rs_lastPacket s' = pk_last p)
  ∨ (missing ≠ [] ∧ ∃ e s', startPacket s = (Ok (Some e), s') ∧ e ≠ EOF).
Proof.
  intros Hp Hs Hr. unfold startPacket.
  destruct (readPacketHeader_spec missing s p raw Hp Hr) as [(r1 & -> & Hr1)|(Hm & e & s1 & -> & He)]; [|by eauto 10].
  destruct (packet_header p Hp) as [_ Hd]. destruct Hp as (_ & _ & Hl & Hc). rewrite Hd. cbn [rs_chunkSize rs_setReader]. rewrite Hs.
  unfold numChunks_of. rewrite (proj2 (Z.eqb_neq _ _)) by lia.
  destruct (ceil_div_bounds (zlen (pk_data p))) as [H0' Hb]; [apply zlen_nonneg|].
  assert (ceil_div (zlen (pk_data p)) size < 2 ^ 32) as Hlt by nia.
  rewrite i64_id by (unfold is_i64; lia). rewrite (proj2 (Z.ltb_ge _ _)) by lia. cbn [rs_reader rs_setReader].
  destruct (CopyN_cut missing r1 (pk_checksums p) (pk_data p ++ raw) (ceil_div (zlen (pk_data p)) size * 4))
    as [(r2 & -> & Hr2)|(Hm & b & e & r2 & -> & He)]; [done|rewrite Hc, zlen_checksums by done; lia| |by eauto 10].
  left. eexists. split; [done|]. simpl. by rewrite Hc.
Qed.

(** The checksum of the chunk at hand is right. *)
Lemma validate_ok s data : rs_checksums s = checksums_of tab size data → rs_checksumTab s = tab → 
  0 <= rs_chunkIndex s < ceil_div (zlen data) size →
  validateChecksum (chunk size (Z.to_nat (rs_chunkIndex s)) data) s = Ok None.
Proof.
  intros Hc Ht Hi. destruct (checksum_at tab size data (Z.to_nat (rs_chunkIndex s))) as (before & after & E & Hl); [lia|].
  unfold validateChecksum. rewrite Hc, E, Ht.
  set (ck := crc32_Checksum _ _). replace (Z.to_nat (4 * rs_chunkIndex s)) with (length before) by lia.
  rewrite <- !app_assoc, drop_app_length.
  assert (zlen before = 4 * rs_chunkIndex s) as Hz by (unfold zlen; lia).
  rewrite (proj2 (Z.ltb_ge _ _)) by lia. rewrite (proj2 (Z.ltb_ge _ _)).
  2: { rewrite !zlen_app, zlen_marshalUint32. zlia. }
  cbn [orb]. change (take 4 (marshalUint32 [] ck ++ after ++ rs_spare s)) with (marshalUint32 [] ck).
  rewrite <- (app_nil_r (marshalUint32 [] ck)), unmarshalUint32_marshal. cbn [mbind result_bind].
  rewrite u32_id by apply crc32_u32. by rewrite Z.eqb_refl.
Qed.
Lemma chunk_split (i : Z) (data : list byte) : 0 <= i →
  drop (Z.to_nat (i * size)) data = chunk size (Z.to_nat i) data ++ drop (Z.to_nat ((i + 1) * size)) data.
Proof.
  intros Hi. unfold chunk. replace (Z.to_nat i * Z.to_nat size)%nat with (Z.to_nat (i * size)) by nia.
  replace (Z.to_nat ((i + 1) * size)) with (Z.to_nat (i * size) + Z.to_nat size)%nat by nia.
  by rewrite <- drop_drop, take_drop.
Qed.
Lemma zlen_chunk (i : Z) (data : list byte) : 0 <= i → i * size <= zlen data →
  zlen (chunk size (Z.to_nat i) data) = Z.min size (zlen data - i * size).
Proof.
  intros Hi Hl. unfold chunk, zlen in *. rewrite length_take, length_drop. nia.
Qed.

(** A part of the packet that ends with a chunk or with the packet. *)
Lemma sub_chunk (ci count j : Z) data : 0 <= ci → 0 <= j < count → ci * size + j * size <= zlen data →
  let b := take (Z.to_nat (Z.min (count * size) (zlen data - ci * size))) (drop (Z.to_nat (ci * size)) data) in
  let stop := if zlen b <=? j * size + size then zlen b else j * size + size in
  j * size <= stop ∧ take (Z.to_nat (stop - j * size)) (drop (Z.to_nat (j * size)) b) = chunk size (Z.to_nat (ci + j)) data.
Proof.
  intros Hci Hj Hl b stop.
  assert (zlen b = Z.min (count * size) (zlen data - ci * size)) as Hb.
  { apply zlen_take. rewrite zlen_drop by nia. nia. }
  assert (stop = Z.min (zlen b) (j * size + size)) as -> by (unfold stop; destruct (Z.leb_spec (zlen b) (j * size + size)); lia).
  split; [nia|]. unfold b at 2, chunk. rewrite skipn_firstn_comm, take_take, drop_drop.
  replace (Z.to_nat (ci * size) + Z.to_nat (j * size))%nat with (Z.to_nat (ci + j) * Z.to_nat size)%nat by nia.
  destruct (Z.le_gt_cases (j * size + size) (zlen b)) as [Hc|Hc].
  - f_equal. nia.
  - rewrite !take_ge; [done|..]; rewrite length_drop; unfold zlen in *; nia.
Qed.

Definition rs_forward (k : Z) s : blockReadStream :=
  mkReadStream (rs_reader s) (rs_checksumTab s) (rs_chunkSize s) (rs_checksums s) (rs_spare s) (rs_chunk s) (rs_packetLength s)
    (rs_chunkIndex s + k) (rs_numChunks s) (rs_lastPacket s).

Lemma validate_chunks_ok data ci total : 0 <= ci → ci + total <= ceil_div (zlen data) size →
  ∀ count i s, rs_checksums s = checksums_of tab size data → rs_checksumTab s = tab → rs_chunkSize s = size →
  rs_chunkIndex s = ci + Z.of_nat i → Z.of_nat i + Z.of_nat count = total →
  validate_chunks count i (take (Z.to_nat (Z.min (total * size) (zlen data - ci * size))) (drop (Z.to_nat (ci * size)) data)) s
    = (Ok None, rs_forward (Z.of_nat count) s).
Proof.
  intros Hci Ht. destruct (ceil_div_bounds (zlen data)) as [_ Hcd]; [apply zlen_nonneg|].
  induction count as [|count IH]; intros i s Hc Htab Hs Hi Hn; cbn [validate_chunks].
  { unfold rs_forward. rewrite Z.add_0_r. by destruct s. }
  rewrite Hs. destruct (sub_chunk ci total (Z.of_nat i) data) as [Hle Hsub]; [lia..|nia|]. cbv zeta in Hle, Hsub.
  rewrite (proj2 (Z.ltb_ge _ _)) by lia. rewrite Hsub, <- Hi. rewrite (validate_ok s data) by (done || lia).
  rewrite IH; [| |done..|simpl; lia|lia]; [|done].
  unfold rs_forward. simpl. do 2 f_equal. lia.
Qed.
(** What a read may do: hand on the next bytes, or fail because the connection
    broke; it may then have handed on some bytes too. A read that finds no byte
    in the buffer, [fresh], does not get to the last packet; one that fills less
    than the buffer it was given leaves none behind. *)
Definition read_result (missing : list byte) (fresh : Prop) (n : Z) D (res : result (list byte * option error) * blockReadStream) : Prop :=
  ∃ b err s' D2, res = (Ok (b, err), s') ∧ D = b ++ D2 ∧ zlen b <= n
    ∧ ((err = None ∧ b ≠ [] ∧ reading missing s' D2 ∧ (fresh → rs_lastPacket s' = false) ∧ (zlen b < n → rs_chunk s' = []))
       ∨ (missing ≠ [] ∧ zlen b < n ∧ ∃ e, err = Some e ∧ e ≠ EOF)).

Lemma read_result_broken missing fresh n D b e s' : missing ≠ [] → e ≠ EOF → b `prefix_of` D → zlen b < n →
  read_result missing fresh n D (Ok (b, Some e), s').
Proof. intros Hm He [D2 ->] Hb. exists b, (Some e), s', D2. split_and!; [done..|lia|]. right. eauto. Qed.
Lemma drop_short {A} (l : list A) n : zlen (take (Z.to_nat n) l) < n → drop (Z.to_nat n) l = [].
Proof. intros Hl. apply drop_ge. unfold zlen in Hl. rewrite length_take in Hl. lia. Qed.

Lemma take_nonempty {A} (l : list A) n : 0 < n → l ≠ [] → take (Z.to_nat n) l ≠ [].
Proof. intros Hn Hl. destruct l; [done|]. by replace (Z.to_nat n) with (S (Z.to_nat n - 1)) by lia. Qed.
Lemma zlen_take_le {A} (l : list A) n : 0 <= n → zlen (take (Z.to_nat n) l) <= n.
Proof. intros Hn. unfold zlen. rewrite length_take. lia. Qed.

Section packet.
Context (missing data raw D' : list byte) s.
Hypotheses (Htab : rs_checksumTab s = tab) (Hsz : rs_chunkSize s = size) (Hlast : rs_lastPacket s = false).
Hypotheses (Hsums : rs_checksums s = checksums_of tab size data) (Hlen : rs_packetLength s = zlen data).
Hypotheses (Hnum : rs_numChunks s = ceil_div (zlen data) size) (Hci : 0 <= rs_chunkIndex s < rs_numChunks s).
Hypotheses (Hdata : zlen data < 2 ^ 31) (Hchunk : rs_chunk s = []).
Hypotheses (Hrest : rest_of missing (rs_reader s) (drop (Z.to_nat (rs_chunkIndex s * size)) data ++ raw)).
Hypothesis (Hstream : block_stream raw D').

Lemma remaining_pos : 0 < zlen data - rs_chunkIndex s * size.
Proof.
  destruct (ceil_div_bounds (zlen data)) as [_ Hb]; [apply zlen_nonneg|].
  assert ((rs_chunkIndex s + 1) * size <= ceil_div (zlen data) size * size) by (apply Z.mul_le_mono_nonneg_r; lia). lia.
Qed.

Lemma reading_later k b r' ch : 0 < k → rs_chunkIndex s + k <= rs_numChunks s →
  drop (Z.to_nat (rs_chunkIndex s * size)) data = b ++ drop (Z.to_nat ((rs_chunkIndex s + k) * size)) data →
  rest_of missing r' (drop (Z.to_nat ((rs_chunkIndex s + k) * size)) data ++ raw) →
  reading missing (rs_setChunk ch (rs_forward k (rs_setReader r' s)))
    (ch ++ drop (Z.to_nat ((rs_chunkIndex s + k) * size)) data ++ D').
Proof.
  intros Hk Hle Hb Hr. split; simpl; [done..|]. rewrite Hlast. exists data, raw, D'. split_and!; done || lia.
Qed.

Lemma read_small_spec n : 0 < n →
  read_result missing True n (drop (Z.to_nat (rs_chunkIndex s * size)) data ++ D')
    (read_small n (rs_packetLength s - rs_chunkIndex s * rs_chunkSize s) s).
Proof.
  intros Hn. pose proof remaining_pos as Hpos. unfold read_small. rewrite Hlen, Hsz.
  pose proof (chunk_split (rs_chunkIndex s) data (proj1 Hci)) as Hsplit.
  assert (zlen (chunk size (Z.to_nat (rs_chunkIndex s)) data) = Z.min size (zlen data - rs_chunkIndex s * size)) as Hzc
    by (apply zlen_chunk; lia).
  set (c := chunk size (Z.to_nat (rs_chunkIndex s)) data) in *. rewrite Hsplit in Hrest |- *. rewrite <- app_assoc in Hrest.
  replace (if _ <? size then _ else size) with (zlen c).
  2: { rewrite Hzc. destruct (Z.ltb_spec (zlen data - rs_chunkIndex s * size) size); lia. }
  destruct (CopyN_cut missing _ _ _ (zlen c) Hrest) as [(r' & -> & Hr')|(Hm & b & e & r' & -> & He)];
    [done| |apply read_result_broken; [done..|apply prefix_nil|done]].
  rewrite Hchunk. cbn [app rs_chunk rs_setChunk rs_setReader].
  pose proof (validate_ok (rs_setChunk c (rs_setReader r' s)) data Hsums Htab) as Hv. cbn [rs_chunkIndex rs_setChunk rs_setReader] in Hv.
  fold c in Hv. rewrite Hv by lia.
  assert (c ≠ []) as Hc by (intros Hnil; rewrite Hnil in Hzc; change (zlen []) with 0 in Hzc; lia).
  eexists (take (Z.to_nat n) c), None, _, (drop (Z.to_nat n) c ++ drop (Z.to_nat ((rs_chunkIndex s + 1) * size)) data ++ D').
  split; [done|]. split; [by rewrite !app_assoc, take_drop|]. split; [apply zlen_take_le; lia|].
  left. split_and!; [done|by apply take_nonempty| |done|apply drop_short].
  apply (reading_later 1 c r' (drop (Z.to_nat n) c)); [lia..|done|done].
Qed.

Lemma read_chunks_spec n count : 0 < n → 0 < count → rs_chunkIndex s + count <= rs_numChunks s →
  Z.min (count * size) (zlen data - rs_chunkIndex s * size) <= n →
  read_result missing True n (drop (Z.to_nat (rs_chunkIndex s * size)) data ++ D')
    (read_chunks n count (Z.min (count * size) (zlen data - rs_chunkIndex s * size)) s).
Proof.
  intros Hn Hc Hcn Ham. pose proof remaining_pos as Hpos. set (amount := Z.min _ _) in *.
  assert (0 < amount) as Ha by (unfold amount; nia). unfold read_chunks.
  rewrite (proj2 (Z.ltb_ge _ _)) by lia. rewrite (proj2 (Z.ltb_ge _ _)) by lia. cbn [orb].
  set (rem := drop (Z.to_nat (rs_chunkIndex s * size)) data) in *.
  assert (zlen rem = zlen data - rs_chunkIndex s * size) as Hrem by (apply zlen_drop; lia).
  assert (drop (Z.to_nat amount) rem = drop (Z.to_nat ((rs_chunkIndex s + count) * size)) data) as Hdrop.
  { unfold rem. rewrite drop_drop. unfold amount. destruct (Z.le_gt_cases (count * size) (zlen data - rs_chunkIndex s * size)).
    - f_equal. nia.
    - rewrite !drop_ge; [done|..]; unfold zlen in *; nia. }
  pose proof (take_drop (Z.to_nat amount) rem) as Hsplit. set (b := take (Z.to_nat amount) rem) in *.
  assert (zlen b = amount) as Hb by (apply zlen_take; lia).
  rewrite Hdrop in Hsplit. rewrite <- Hsplit in Hrest |- *. rewrite <- app_assoc in Hrest.
  destruct (ReadFull_cut missing _ _ _ amount Hrest) as [(r' & -> & Hr')|(Hm & b' & e & r' & -> & Hp & Hlt & He)]; [done| |].
  2: { apply read_result_broken; [done..| |].
       - rewrite <- app_assoc. by apply prefix_app_r.
       - lia. }
  pose proof (validate_chunks_ok data (rs_chunkIndex s) count) as Hv. fold amount rem b in Hv.
  rewrite Hv; [|lia|lia|done..|simpl; lia|lia]. simpl. rewrite Hlast, andb_false_r.
  eexists b, None, _, (drop (Z.to_nat ((rs_chunkIndex s + count) * size)) data ++ D').
  split; [done|]. split; [by rewrite app_assoc|]. split; [lia|]. left.
  split_and!; [done|intros Hnil; rewrite Hnil in Hb; change (zlen []) with 0 in Hb; lia| |done|done].
  pose proof (reading_later count b r' [] ) as Hlater. rewrite Z2Nat.id by lia. 
  assert (rs_setChunk [] (rs_forward count (rs_setReader r' s)) = rs_forward count (rs_setReader r' s)) as E.
  { unfold rs_setChunk, rs_forward. simpl. by rewrite Hchunk. }
  rewrite E in Hlater. apply Hlater; [lia..| |done]. by rewrite Hsplit.
Qed.

Lemma read_packet_spec n : 0 < n →
  read_result missing True n (drop (Z.to_nat (rs_chunkIndex s * size)) data ++ D') (read_packet n s).
Proof.
  intros Hn. pose proof remaining_pos as Hpos. destruct (ceil_div_bounds (zlen data)) as [_ Hb]; [apply zlen_nonneg|].
  unfold read_packet. rewrite Hchunk. cbn [zlen length Z.of_nat Z.ltb Z.compare].
  rewrite Hsz. destruct (Z.ltb_spec n size); [rewrite <- Hsz at 2; by apply read_small_spec|]. rewrite Hlen.
  destruct (Z.ltb_spec (zlen data - rs_chunkIndex s * size) n).
  - pose proof (read_chunks_spec n (rs_numChunks s - rs_chunkIndex s)) as Hs.
    rewrite Z.min_r in Hs by nia. apply Hs; lia.
  - rewrite (proj2 (Z.eqb_neq _ _)) by lia. pose proof (Z.div_mod n size). pose proof (Z.mod_pos_bound n size).
    assert (0 < n / size) by (apply Z.div_str_pos; lia).
    pose proof (read_chunks_spec n (n / size)) as Hs. rewrite Z.min_l in Hs by nia. apply Hs; try lia; nia.
Qed.
End packet.
(** Bytes that wait in the buffer are handed on first. *)
Lemma read_buffered missing n s D : 0 < n → reading missing s D → rs_chunk s ≠ [] →
  read_result missing (rs_chunk s = []) n D (read_packet n s).
Proof.
  intros Hn [Ht Hs Hat] Hc. unfold read_packet. rewrite (proj2 (Z.ltb_lt _ _)).
  2: { destruct (rs_chunk s) eqn:E; [done|]. rewrite zlen_cons. zlia. }
  assert (∃ D', D = rs_chunk s ++ D') as [D' HD].
  { destruct (rs_lastPacket s); [exists []; rewrite app_nil_r; apply Hat|]. destruct Hat as (? & ? & D' & Hat). eexists. apply Hat. }
  eexists (take (Z.to_nat n) (rs_chunk s)), None, _, (drop (Z.to_nat n) (rs_chunk s) ++ D').
  split; [done|]. split; [by rewrite app_assoc, take_drop|]. split; [apply zlen_take_le; lia|]. left.
  split_and!; [done|by apply take_nonempty| |done|apply drop_short]. split; simpl; [done..|].
  destruct (rs_lastPacket s).
  - destruct Hat as [Hi ->]. split; [done|]. rewrite <- (app_nil_r (rs_chunk s)) in HD at 1. apply app_inv_head in HD as <-.
    apply app_nil_r.
  - destruct Hat as (data & raw & D2 & H1' & H2' & H3' & H4' & H5' & H6' & E & H7'). exists data, raw, D2. split_and!; try done; try lia.
    rewrite E in HD. by apply app_inv_head in HD as <-.
Qed.

Lemma read_reading missing n s D : 0 < n → reading missing s D → rs_lastPacket s = true ∨ rs_chunkIndex s < rs_numChunks s →
  D ≠ [] → read_result missing (rs_chunk s = []) n D (read_packet n s).
Proof.
  intros Hn Hr Hl HD. destruct (decide (rs_chunk s = [])) as [Hc|Hc]; [|by apply read_buffered].
  destruct Hr as [Ht Hs Hat]. destruct (rs_lastPacket s) eqn:El; [by destruct Hat as [_ ->]|]. destruct Hl as [|Hl]; [done|].
  destruct Hat as (data & raw & D' & Hck & Hpl & Hnc & Hci & Hlen & Hrest & -> & Hstr). rewrite Hc. simpl.
  assert (read_result missing True n (drop (Z.to_nat (rs_chunkIndex s * size)) data ++ D') (read_packet n s))
    as (b & err & s' & D2 & E & HD2 & Hb & Hres) by (eapply read_packet_spec; try done; lia).
  exists b, err, s', D2. split_and!; [done..|]. destruct Hres as [(? & ? & ? & ? & ?)|]; [left|by right]. by split_and!; auto.
Qed.

(** The next packet of a stream that is between two. *)
Lemma start_reading missing s D : reading missing s D → rs_lastPacket s = false → rs_chunkIndex s = rs_numChunks s →
  (∃ s', startPacket s = (Ok None, s') ∧ reading missing s' D
    ∧ (rs_lastPacket s' = true ∨ rs_chunkIndex s' < rs_numChunks s') ∧ rs_chunk s' = rs_chunk s)
  ∨ (missing ≠ [] ∧ ∃ e s', startPacket s = (Ok (Some e), s') ∧ e ≠ EOF).
Proof.
  intros [Ht Hs Hat] Hl Hend. rewrite Hl in Hat.
  destruct Hat as (data & raw & D' & Hck & Hpl & Hnc & Hci & Hlen & Hrest & -> & Hstr).
  destruct (ceil_div_bounds (zlen data)) as [_ Hb]; [apply zlen_nonneg|].
  rewrite drop_ge in Hrest |- * by (rewrite Hend, Hnc; unfold zlen in *; lia). simpl in *.
  destruct Hstr as [p rest Hp Hlast Hnil|p raw D' Hp Hlast Hne Hstr];
    (destruct (startPacket_spec missing s p _ Hp Hs Hrest) as [(s' & E & Hr' & Ht' & Hs' & Hc' & Hck' & Hpl' & Hnc' & Hci' & Hl')|]; [|by right]);
    left; exists s'; (split; [done|]).
  - rewrite Hnil in *. change (zlen []) with 0 in *. split; [|by split; [left; congruence|]].
    split; [congruence|done|]. rewrite Hl', Hlast, app_nil_r. split; [|by rewrite Hc'].
    by rewrite Hci', Hnc'.
  - destruct (ceil_div_bounds (zlen (pk_data p))) as [H0' Hb']; [apply zlen_nonneg|].
    assert (0 < zlen (pk_data p)) by (destruct (pk_data p); [done|]; rewrite zlen_cons; zlia).
    split; [|by split; [right; rewrite Hci', Hnc'; nia|]]. split; [congruence|done|]. rewrite Hl', Hlast.
    exists (pk_data p), raw, D'. rewrite Hci'. simpl. split_and!; try done; [by rewrite Hnc'|by destruct Hp as (_ & _ & ? & _)|by rewrite Hc'].
Qed.

(** A read delivers the next bytes of the block, at least one: only when the
    stream has seen the last packet it says that the block has ended. *)
Lemma stream_Read_spec missing n s D : 0 < n → reading missing s D → rs_lastPacket s = false → D ≠ [] →
  read_result missing (rs_chunk s = []) n D (stream_Read n s).
Proof.
  intros Hn Hr Hl HD. unfold stream_Read. rewrite Hl. destruct (Z.eqb_spec (rs_chunkIndex s) (rs_numChunks s)) as [Hend|Hend].
  - destruct (start_reading missing s D Hr Hl Hend) as [(s' & -> & Hr' & Hl' & <-)|(Hm & e & s' & -> & He)].
    + by apply read_reading.
    + apply read_result_broken; [done..|apply prefix_nil|done].
  - apply read_reading; try done. right. destruct Hr as [_ _ Hat]. rewrite Hl in Hat. destruct Hat as (? & ? & ? & ? & ? & ? & ? & _). lia.
Qed.
Lemma stream_Read_ended missing n s D : reading missing s D → rs_lastPacket s = true →
  stream_Read n s = (Ok ([], Some EOF), s).
Proof. intros [_ _ Hat] Hl. unfold stream_Read. rewrite Hl in *. destruct Hat as [-> _]. by rewrite Z.eqb_refl. Qed.
End stream.

(** A message at the start of a stream that may break off. *)
Lemma readPrefixed_cut {M : Type} `{ProtoSpec M} missing (m : M) b raw r : proto_fits m → 4 <= zlen (proto_bytes m) < 2 ^ 31 →
  makePrefixedMessage m = Ok b → rest_of missing r (b ++ raw) →
  (∃ r', readPrefixedMessage r = (Ok m, r') ∧ rest_of missing r' raw)
  ∨ (missing ≠ [] ∧ ∃ e r', readPrefixedMessage r = (Err e : result M, r')).
Proof.
  intros Hf Hl Hb Hr. destruct (rest_of_cut _ _ _ _ Hr) as [(rest & -> & Hr')|(Hm & He & Hlt & Hp)].
  - left. exists (mkReader rest (rd_fail r)). split; [|done]. apply (readPrefixed_make m); [done|lia|done].
  - right. split; [done|]. destruct (makePrefixed_ok m Hf) as (l & E & Hlen & Hu); [lia|]. rewrite E in Hb. injection Hb as <-.
    unfold readPrefixedMessage. destruct (ReadFull r MaxVarintLen32) as [[vb [e|]] r1] eqn:E1; [by eauto|].
    apply ReadFull_inv in E1 as (Hrest & _ & Hvb). unfold MaxVarintLen32 in Hvb. rewrite Hrest in Hp, Hlt.
    assert (∃ vb', vb = l ++ vb') as [vb' ->].
    { destruct Hp as [x Hx]. exists (drop (length l) vb). rewrite <- (take_drop (length l) vb) at 1. f_equal.
      apply (f_equal (take (length l))) in Hx. rewrite take_app_length, <- app_assoc, take_app_le in Hx by (unfold zlen in *; lia). done. }
    rewrite Hu. destruct (_ || _); [by eauto|]. rewrite drop_app_zlen.
    rewrite zlen_app in Hvb. destruct Hp as [x Hx]. apply (f_equal zlen) in Hx. rewrite !zlen_app in Hx, Hlt.
    rewrite take_ge by (unfold zlen in *; lia).
    destruct (ReadFull r1 _) as [[more [e|]] r2] eqn:E2; [by eauto|]. apply ReadFull_inv in E2 as (Hr1 & _ & Hmore).
    rewrite Hr1, zlen_app in Hlt. zlia.
Qed.
