(* ===== verification/HdfsReader.v ===== *)
(** * Reading files of HDFS

    hdfs/intrnl/transfer/block_reader.go, datanode_failover.go and
    checksum_reader.go, and hdfs/file_reader.go, over the classes [Network] of
    connections to datanodes and [Namenode] of calls to the namenode. A reader
    that loses a datanode, or whose stream ends before the block does, starts
    again where it was: [HdfsStream] shows what a stream delivers, this file that
    the bytes of the file arrive all the same. *)
From stdpp Require Import base tactics option list strings gmap.
From Stdlib Require Import ZArith Lia.
From S2P Require Import Prelude GoOs SftpWire GoPath GoStrconv HdfsTransfer HdfsStream.

(** ** Messages *)
Record ExtendedBlockProto := mkExtendedBlock { eb_PoolId : string; eb_BlockId : Z; eb_GenerationStamp : Z; eb_NumBytes : Z }.
Record LocatedBlockProto := mkLocatedBlock {
  lb_B : ExtendedBlockProto;
  lb_Offset : Z;
  lb_Locs : list DatanodeIDProto;
  lb_BlockToken : string
}.
Record OpReadBlockProto := mkOpReadBlock {
  or_Block : ExtendedBlockProto;
  or_Token : string;
  or_ClientName : string;
  or_Offset : Z;
  or_Len : Z
}.
Record OpBlockChecksumProto := mkOpBlockChecksum { oc_Block : ExtendedBlockProto; oc_Token : string }.
(** Of the nested messages the fields that are used. *)
Record BlockOpResponseProto := {
  bo_Status : Z;
  bo_Message : string;
  bo_ChecksumType : Z;
  bo_BytesPerChecksum : Z;
  bo_ChunkOffset : Z;
  bo_Md5 : list byte
}.
Definition CHECKSUM_CRC32 : Z := 1.
Definition CHECKSUM_CRC32C : Z := 2.
(** [Status.String()], which is generated. *)
Class StatusNames := Status_String : Z → string.

(** ** The network

    Connections are numbered; [net_Reader] is everything that arrives on one,
    given what was written to it. *)
Class Network (N : Type) := {
  net_Dial : string → N → (nat + error) * N;
  net_Write : nat → list byte → N → option error * N;
  net_Reader : nat → N → Reader;
  net_SetDeadline : nat → Z → N → option error * N;
  net_Close : nat → N → N;
  net_Now : N → Z
}.
#[global] Instance net_conn {N} `{Network N} (id : nat) : Conn N := {
  conn_Write := net_Write id;
  conn_Reader := net_Reader id
}.

(** ** Failover (datanode_failover.go)

    [datanodeFailures] is a variable of the package. *)
Record Env {N : Type} := mkEnv { net : N; datanodeFailures : gmap string Z }.
Arguments Env : clear implicits.
Arguments mkEnv {N} _ _.
Definition set_net {N} (n : N) (env : Env N) : Env N := mkEnv n (datanodeFailures env).

Record datanodeFailover := mkFailover { df_datanodes : list string; df_currentDatanode : string; df_err : option error }.
Definition newDatanodeFailover (datanodes : list string) : datanodeFailover := mkFailover datanodes EmptyString None.

Definition recordFailure {N} `{Network N} (err : error) (df : datanodeFailover) (env : Env N) : datanodeFailover * Env N :=
  (mkFailover (df_datanodes df) (df_currentDatanode df) (Some err),
   mkEnv (net env) (<[df_currentDatanode df := net_Now (net env)]> (datanodeFailures env))).

(** The first datanode that never failed, or else the one that failed first. *)
Fixpoint pick (failures : gmap string Z) (i : nat) (l : list string) (picked : nat) (oldest : option Z) : nat :=
  match l with
  | [] => picked
  | address :: l =>
      match failures !! address with
      | None => i
      | Some failedAt =>
          if match oldest with None => true | Some t => failedAt <? t end
          then pick failures (S i) l i (Some failedAt)
          else pick failures (S i) l picked oldest
      end
  end.
Definition numRemaining (df : datanodeFailover) : Z := zlen (df_datanodes df).
Definition df_next {N} (env : Env N) (df : datanodeFailover) : string * datanodeFailover :=
  if numRemaining df =? 0 then (EmptyString, df)
  else
    let picked := pick (datanodeFailures env) 0 (df_datanodes df) 0 None in
    let address := default EmptyString (df_datanodes df !! picked) in
    (address, mkFailover (delete picked (df_datanodes df)) address (df_err df)).

(** ** BlockReader (block_reader.go) *)
Record BlockReader := mkBlockReader {
  br_ClientName : string;
  br_Block : LocatedBlockProto;
  br_Offset : Z;
  br_UseDatanodeHostname : bool;
  br_datanodes : option datanodeFailover;
  br_stream : option blockReadStream;
  br_conn : option nat;
  br_deadline : Z;
  br_closed : bool
}.
Definition br_setOffset (o : Z) (br : BlockReader) : BlockReader :=
  mkBlockReader (br_ClientName br) (br_Block br) o (br_UseDatanodeHostname br) (br_datanodes br) (br_stream br) (br_conn br)
    (br_deadline br) (br_closed br).
Definition br_setDatanodes (df : datanodeFailover) (br : BlockReader) : BlockReader :=
  mkBlockReader (br_ClientName br) (br_Block br) (br_Offset br) (br_UseDatanodeHostname br) (Some df) (br_stream br) (br_conn br)
    (br_deadline br) (br_closed br).
Definition br_setStream (s : option blockReadStream) (br : BlockReader) : BlockReader :=
  mkBlockReader (br_ClientName br) (br_Block br) (br_Offset br) (br_UseDatanodeHostname br) (br_datanodes br) s (br_conn br)
    (br_deadline br) (br_closed br).
Definition br_setConn (id : nat) (br : BlockReader) : BlockReader :=
  mkBlockReader (br_ClientName br) (br_Block br) (br_Offset br) (br_UseDatanodeHostname br) (br_datanodes br) (br_stream br) (Some id)
    (br_deadline br) (br_closed br).
Definition br_close (br : BlockReader) : BlockReader :=
  mkBlockReader (br_ClientName br) (br_Block br) (br_Offset br) (br_UseDatanodeHostname br) (br_datanodes br) (br_stream br) (br_conn br)
    (br_deadline br) true.
Definition br_setDeadline (t : Z) (br : BlockReader) : BlockReader :=
  mkBlockReader (br_ClientName br) (br_Block br) (br_Offset br) (br_UseDatanodeHostname br) (br_datanodes br) (br_stream br) (br_conn br)
    t (br_closed br).

Section reader.
Context {N : Type} `{Network N} `{Proto PacketHeaderProto} `{Proto OpReadBlockProto} `{Proto OpBlockChecksumProto}.
Context `{Proto BlockOpResponseProto} `{StatusNames} `{BufferGrowth}.
Implicit Types (br : BlockReader) (env : Env N).

Definition BlockReader_SetDeadline (t : Z) br env : option error * BlockReader * Env N :=
  let br := br_setDeadline t br in
  match br_conn br with
  | Some id => let '(err, n) := net_SetDeadline id t (net env) in (err, br, set_net n env)
  | None => (None, br, env)
  end.

Definition BlockReader_Close br env : BlockReader * Env N :=
  (br_close br, match br_conn br with Some id => set_net (net_Close id (net env)) env | None => env end).

Definition writeBlockReadRequest br (id : nat) env : result (option error * Env N) :=
  let needed := u64 (eb_NumBytes (lb_B (br_Block br)) - u64 (br_Offset br)) in
  let op := mkOpReadBlock (lb_B (br_Block br)) (lb_BlockToken (br_Block br)) (br_ClientName br) (u64 (br_Offset br)) needed in
  '(err, n) ← writeBlockOpRequest (H := net_conn id) readBlockOp op (net env);
  Ok (err, set_net n env).

(** [io.CopyN(ioutil.Discard, stream, n)], which reads into a buffer of 8192
    bytes. Running out of fuel stands for a loop that does not end. *)
Fixpoint discard (fuel : nat) (n : Z) (s : blockReadStream) : result (option error) * blockReadStream :=
  match fuel with
  | O => (Panic, s)
  | S fuel =>
      if n <=? 0 then (Ok None, s)
      else
        match stream_Read (Z.min n 8192) s with
        | (Ok (b, None), s) => discard fuel (n - zlen b) s
        | (Ok (b, Some e), s) => (Ok (if n - zlen b <=? 0 then None else Some e), s)
        | (_, s) => (Panic, s)
        end
  end.

(** The stream of a connection on which the request was answered. *)
Definition open_stream (resp : BlockOpResponseProto) (r : Reader) : result blockReadStream :=
  if bo_ChecksumType resp =? CHECKSUM_CRC32 then Ok (newBlockReadStream r (bo_BytesPerChecksum resp) IEEETable)
  else if bo_ChecksumType resp =? CHECKSUM_CRC32C then Ok (newBlockReadStream r (bo_BytesPerChecksum resp) Castagnoli)
  else Err (EMsg ("unsupported checksum type: " +:+ Itoa (bo_ChecksumType resp))).

Definition connectNext br (df : datanodeFailover) env : result (option error) * BlockReader * Env N :=
  let '(address, df) := df_next env df in
  let br := br_setDatanodes df br in
  match net_Dial address (net env) with
  | (inr e, n) => (Ok (Some e), br, set_net n env)
  | (inl id, n) =>
      let env := set_net n env in
      match writeBlockReadRequest br id env with
      | Ok (Some e, env) => (Ok (Some e), br, env)
      | Ok (None, env) =>
          match readPrefixedMessage (M := BlockOpResponseProto) (net_Reader id (net env)) with
          | (Err e, _) => (Ok (Some e), br, env)
          | (Panic, _) => (Panic, br, env)
          | (Ok resp, r) =>
              if negb (bo_Status resp =? Status_SUCCESS) then
                (Ok (Some (EMsg ("read failed: " +:+ Status_String (bo_Status resp) +:+ " (" +:+ bo_Message resp +:+ ")"))), br, env)
              else
                match open_stream resp r with
                | Ok stream =>
                    let amountToDiscard := i64 (br_Offset br - i64 (bo_ChunkOffset resp)) in
                    match discard (S (Z.to_nat amountToDiscard + length (rd_rest r))) amountToDiscard stream with
                    | (Ok (Some e), _) => (Ok (Some (unexpected e)), br, set_net (net_Close id (net env)) env)
                    | (Ok None, stream) =>
                        let br := br_setConn id (br_setStream (Some stream) br) in
                        let '(err, n) := net_SetDeadline id (br_deadline br) (net env) in
                        (Ok err, br, set_net n env)
                    | (_, _) => (Panic, br, env)
                    end
                | Err e => (Ok (Some e), br, env)
                | Panic => (Panic, br, env)
                end
          end
      | _ => (Panic, br, env)
      end
  end.

(** The retry loop. Every turn but the first takes a datanode, or reads from the
    one just connected. *)
Fixpoint read_retry (fuel : nat) (n : Z) br (df : datanodeFailover) env : result (list byte * option error) * BlockReader * Env N :=
  match fuel with
  | O => (Panic, br, env)
  | S fuel =>
      match br_stream br with
      | Some s =>
          match stream_Read n s with
          | (Ok (b, err), s) =>
              let br := br_setOffset (i64 (br_Offset br + zlen b)) (br_setStream (Some s) br) in
              match err with
              | None => (Ok (b, err), br, env)
              | Some e =>
                  if bool_decide (e = EOF) then (Ok (b, err), br, env)
                  else
                    let '(df, env) := recordFailure e df env in
                    let br := br_setDatanodes df (br_setStream None br) in
                    if 0 <? zlen b then (Ok (b, None), br, env) else read_retry fuel n br df env
              end
          | (_, s) => (Panic, br_setStream (Some s) br, env)
          end
      | None =>
          if 0 <? numRemaining df then
            match connectNext br df env with
            | (Ok (Some e), br, env) =>
                let '(df, env) := recordFailure e (default df (br_datanodes br)) env in
                read_retry fuel n (br_setDatanodes df br) df env
            | (Ok None, br, env) => read_retry fuel n br (default df (br_datanodes br)) env
            | (_, br, env) => (Panic, br, env)
            end
          else
            (Ok ([], Some (default (EMsg "no available datanodes") (df_err df))), br, env)
      end
  end.
Definition BlockReader_Read (n : Z) br env : result (list byte * option error) * BlockReader * Env N :=
  if br_closed br then (Ok ([], Some ErrClosedPipe), br, env)
  else if eb_NumBytes (lb_B (br_Block br)) <=? u64 (br_Offset br) then
    let '(br, env) := BlockReader_Close br env in (Ok ([], Some EOF), br, env)
  else
    let df := match br_datanodes br with
              | Some df => df
              | None => newDatanodeFailover (map (λ loc, getDatanodeAddress loc (br_UseDatanodeHostname br)) (lb_Locs (br_Block br)))
              end in
    read_retry (S (S (2 * length (df_datanodes df)))) n (br_setDatanodes df br) df env.

(** ** ChecksumReader (checksum_reader.go) *)
Record ChecksumReader := mkChecksumReader {
  cr_Block : LocatedBlockProto;
  cr_UseDatanodeHostname : bool;
  cr_deadline : Z;
  cr_datanodes : option datanodeFailover
}.
Definition writeBlockChecksumRequest (cr : ChecksumReader) (id : nat) (n : N) : result (option error * N) :=
  writeBlockOpRequest (H := net_conn id) checksumBlockOp (mkOpBlockChecksum (lb_B (cr_Block cr)) (lb_BlockToken (cr_Block cr))) n.
(** The status of the response is not looked at. *)
Definition readChecksum (cr : ChecksumReader) (address : string) (n : N) : result (list byte) * N :=
  match net_Dial address n with
  | (inl id, n) =>
      match net_SetDeadline id (cr_deadline cr) n with
      | (Some e, n) => (Err e, n)
      | (None, n) =>
          match writeBlockChecksumRequest cr id n with
          | Ok (Some e, n) => (Err e, n)
          | Ok (None, n) =>
              match fst (readPrefixedMessage (M := BlockOpResponseProto) (net_Reader id n)) with
              | Ok resp => (Ok (bo_Md5 resp), n)
              | Err e => (Err e, n)
              | Panic => (Panic, n)
              end
          | _ => (Panic, n)
          end
      end
  | (inr e, n) => (Err e, n)
  end.
Fixpoint checksum_retry (fuel : nat) (cr : ChecksumReader) (df : datanodeFailover) env : result (list byte * option error) * datanodeFailover * Env N :=
  match fuel with
  | O => (Panic, df, env)
  | S fuel =>
      if 0 <? numRemaining df then
        let '(address, df) := df_next env df in
        match readChecksum cr address (net env) with
        | (Ok checksum, n) => (Ok (checksum, None), df, set_net n env)
        | (Err e, n) => let '(df, env) := recordFailure e df (set_net n env) in checksum_retry fuel cr df env
        | (Panic, n) => (Panic, df, set_net n env)
        end
      else
        (Ok ([], match df_err df with
                 | Some _ => Some (EMsg "No available datanodes for block.")
                 | None => None
                 end), df, env)
  end.
Definition ReadChecksum (cr : ChecksumReader) env : result (list byte * option error) * ChecksumReader * Env N :=
  let df := match cr_datanodes cr with
            | Some df => df
            | None => newDatanodeFailover (map (λ loc, getDatanodeAddress loc (cr_UseDatanodeHostname cr)) (lb_Locs (cr_Block cr)))
            end in
  let '(r, df, env) := checksum_retry (S (length (df_datanodes df))) cr df env in
  (r, mkChecksumReader (cr_Block cr) (cr_UseDatanodeHostname cr) (cr_deadline cr) (Some df), env).
End reader.

(** ** The namenode

    Calls of [Execute]; [nn_wrapDatanodeDial] asks for the settings of the
    cluster and, when it encrypts, for a key. The dialer it returns is that of
    [Network]. *)
Record FileStatus := mkFileStatus {
  fs_Path : string;
  fs_Length : Z;
  fs_Perm : Z;
  fs_ModificationTime : Z;
  fs_IsDir : bool
}.
Class Namenode (N : Type) := {
  nn_getFileInfo : string → N → (option FileStatus + error) * N;
  nn_getBlockLocations : string → Z → Z → N → (list LocatedBlockProto + error) * N;
  nn_getListing : string → string → N → (option (list FileStatus * Z) + error) * N;
  nn_wrapDatanodeDial : string → N → option error * N
}.

(** [interpretException] (hdfs/error.go); [os.ErrNotExist] and the like are the
    error numbers they stand for. *)
Definition interpretException (err : error) : error :=
  match err with
  | ENamenode exception _ =>
      if String.eqb exception "java.io.FileNotFoundException" then ESyscall ENOENT
      else if String.eqb exception "org.apache.hadoop.security.AccessControlException" then ESyscall EPERM
      else if String.eqb exception "org.apache.hadoop.fs.PathIsNotEmptyDirectoryException" then ESyscall ENOTEMPTY
      else if String.eqb exception "org.apache.hadoop.fs.fileAlreadyExistsException" then ESyscall EEXIST
      else err
  | _ => err
  end.
(** [&os.PathError{op, name, err}]; of another error only the path is kept. *)
Definition path_error (name : string) (err : error) : error :=
  match err with ESyscall e => EPathError name e | _ => EMsg name end.

(** [newFileInfo] (hdfs/stat.go) *)
Definition newFileInfo (status : FileStatus) (name : string) : FileInfo :=
  {| fi_Name := Base (if String.eqb (fs_Path status) EmptyString then name else fs_Path status);
     fi_Size := i64 (fs_Length status);
     fi_Mode := if fs_IsDir status then Z.lor (fs_Perm status) ModeDir else fs_Perm status;
     fi_ModTime := i64 (i64 (fs_ModificationTime status) * 1000000);
     fi_Sys := None |}.

(** ** FileReader (hdfs/file_reader.go) *)
Record Client := mkHdfsClient { c_UseDatanodeHostname : bool; c_ClientName : string }.
Record FileReader := mkFileReader {
  fr_name : string;
  fr_info : FileInfo;
  fr_blocks : list LocatedBlockProto;
  fr_blockReader : option BlockReader;
  fr_deadline : Z;
  fr_offset : Z;
  fr_readdirLast : string;
  fr_closed : bool
}.
Definition fr_setBlocks (l : list LocatedBlockProto) (f : FileReader) : FileReader :=
  mkFileReader (fr_name f) (fr_info f) l (fr_blockReader f) (fr_deadline f) (fr_offset f) (fr_readdirLast f) (fr_closed f).
Definition fr_setReader (br : option BlockReader) (f : FileReader) : FileReader :=
  mkFileReader (fr_name f) (fr_info f) (fr_blocks f) br (fr_deadline f) (fr_offset f) (fr_readdirLast f) (fr_closed f).
Definition fr_setOffset (o : Z) (f : FileReader) : FileReader :=
  mkFileReader (fr_name f) (fr_info f) (fr_blocks f) (fr_blockReader f) (fr_deadline f) o (fr_readdirLast f) (fr_closed f).
Definition fr_setDeadline (t : Z) (f : FileReader) : FileReader :=
  mkFileReader (fr_name f) (fr_info f) (fr_blocks f) (fr_blockReader f) t (fr_offset f) (fr_readdirLast f) (fr_closed f).
Definition fr_setLast (l : string) (f : FileReader) : FileReader :=
  mkFileReader (fr_name f) (fr_info f) (fr_blocks f) (fr_blockReader f) (fr_deadline f) (fr_offset f) l (fr_closed f).
Definition fr_close (f : FileReader) : FileReader :=
  mkFileReader (fr_name f) (fr_info f) (fr_blocks f) (fr_blockReader f) (fr_deadline f) (fr_offset f) (fr_readdirLast f) true.

Section files.
Context {N : Type} `{Network N} `{Namenode N} `{Proto PacketHeaderProto} `{Proto OpReadBlockProto} `{Proto OpBlockChecksumProto}.
Context `{Proto BlockOpResponseProto} `{StatusNames} `{BufferGrowth} (client : Client).
Implicit Types (f : FileReader) (env : Env N).

Definition getFileInfo (name : string) env : (FileInfo + error) * Env N :=
  match nn_getFileInfo name (net env) with
  | (inl (Some status), n) => (inl (newFileInfo status name), set_net n env)
  | (inl None, n) => (inr (ESyscall ENOENT), set_net n env)
  | (inr e, n) => (inr e, set_net n env)
  end.
Definition client_Open (name : string) env : (FileReader + error) * Env N :=
  match getFileInfo name env with
  | (inl info, env) => (inl (mkFileReader name info [] None 0 0 EmptyString false), env)
  | (inr e, env) => (inr (path_error name (interpretException e)), env)
  end.

Definition FileReader_SetDeadline (t : Z) f env : option error * FileReader * Env N :=
  let f := fr_setDeadline t f in
  match fr_blockReader f with
  | Some br => let '(err, br, env) := BlockReader_SetDeadline t br env in (err, fr_setReader (Some br) f, env)
  | None => (None, f, env)
  end.

(** Drops the reader of the current block. *)
Definition drop_reader f env : FileReader * Env N :=
  match fr_blockReader f with
  | Some br => (fr_setReader None f, snd (BlockReader_Close br env))
  | None => (f, env)
  end.

Definition FileReader_Seek (offset whence : Z) f env : (Z * option error) * FileReader * Env N :=
  if fr_closed f then ((0, Some ErrClosedPipe), f, env)
  else if (whence <? 0) || (2 <? whence) then ((fr_offset f, Some (EMsg ("invalid whence: " +:+ Itoa whence))), f, env)
  else
    let off := if whence =? 0 then offset else if whence =? 1 then i64 (fr_offset f + offset) else i64 (fi_Size (fr_info f) + offset) in
    if (off <? 0) || (fi_Size (fr_info f) <? off) then ((fr_offset f, Some (EMsg "invalid resulting offset")), f, env)
    else if negb (fr_offset f =? off) then
      let '(f, env) := drop_reader (fr_setOffset off f) env in ((off, None), f, env)
    else ((off, None), f, env).

Definition getBlocks f env : option error * FileReader * Env N :=
  match nn_getBlockLocations (fr_name f) 0 (u64 (fi_Size (fr_info f))) (net env) with
  | (inl blocks, n) => (None, fr_setBlocks blocks f, set_net n env)
  | (inr e, n) => (Some e, f, set_net n env)
  end.

Fixpoint find_block (off : Z) (blocks : list LocatedBlockProto) : option LocatedBlockProto :=
  match blocks with
  | [] => None
  | block :: blocks =>
      if (lb_Offset block <=? off) && (off <? u64 (lb_Offset block + eb_NumBytes (lb_B block))) then Some block
      else find_block off blocks
  end.
Definition getNewBlockReader f env : option error * FileReader * Env N :=
  let off := u64 (fr_offset f) in
  match find_block off (fr_blocks f) with
  | Some block =>
      match nn_wrapDatanodeDial (lb_BlockToken block) (net env) with
      | (Some e, n) => (Some e, f, set_net n env)
      | (None, n) =>
          let br := mkBlockReader (c_ClientName client) block (i64 (u64 (off - lb_Offset block))) (c_UseDatanodeHostname client)
                      None None None 0 false in
          FileReader_SetDeadline (fr_deadline f) (fr_setReader (Some br) f) (set_net n env)
      end
  | None => (Some (EMsg "invalid offset"), f, env)
  end.

(** The loop of [Read]: a block that ends without a byte is left for the next. *)
Fixpoint read_blocks (fuel : nat) (n : Z) f env : result (list byte * option error) * FileReader * Env N :=
  match fuel with
  | O => (Panic, f, env)
  | S fuel =>
      let '(err, f, env) := match fr_blockReader f with None => getNewBlockReader f env | Some _ => (None, f, env) end in
      match err, fr_blockReader f with
      | Some e, _ => (Ok ([], Some e), f, env)
      | None, None => (Panic, f, env)
      | None, Some br =>
          match BlockReader_Read n br env with
          | (Ok (b, err), br, env) =>
              let f := fr_setOffset (i64 (fr_offset f + zlen b)) (fr_setReader (Some br) f) in
              if match err with None => false | Some e => negb (bool_decide (e = EOF)) end then
                let '(f, env) := drop_reader f env in (Ok (b, err), f, env)
              else if 0 <? zlen b then (Ok (b, None), f, env)
              else let '(f, env) := drop_reader f env in read_blocks fuel n f env
          | (_, br, env) => (Panic, fr_setReader (Some br) f, env)
          end
      end
  end.
Definition FileReader_Read (fuel : nat) (n : Z) f env : result (list byte * option error) * FileReader * Env N :=
  if fr_closed f then (Ok ([], Some ErrClosedPipe), f, env)
  else if fi_IsDir (fr_info f) then (Ok ([], Some (path_error (fr_name f) (EMsg "is a directory"))), f, env)
  else if fi_Size (fr_info f) <=? fr_offset f then (Ok ([], Some EOF), f, env)
  else if n =? 0 then (Ok ([], None), f, env)
  else
    let '(err, f, env) := if bool_decide (fr_blocks f = []) then getBlocks f env else (None, f, env) in
    match err with
    | Some e => (Ok ([], Some e), f, env)
    | None => read_blocks fuel n f env
    end.
(** [io.ReadFull(f, b)], until [n] bytes are there or a read fails. Every read
    of a file delivers a byte, so that [n] is enough fuel; [rounds] is that of
    the reads. *)
Fixpoint readFull_file (rounds fuel : nat) (n : Z) f env : result (list byte * option error) * FileReader * Env N :=
  if n <=? 0 then (Ok ([], None), f, env)
  else
    match fuel with
    | O => (Panic, f, env)
    | S fuel =>
        match FileReader_Read rounds n f env with
        | (Ok (b, Some e), f, env) => (Ok (b, if n <=? zlen b then None else Some e), f, env)
        | (Ok (b, None), f, env) =>
            match readFull_file rounds fuel (n - zlen b) f env with
            | (Ok (b', err), f, env) => (Ok (b ++ b', err), f, env)
            | r => r
            end
        | (_, f, env) => (Panic, f, env)
        end
    end.
(** [ReadFull] makes an [EOF] behind some bytes an [ErrUnexpectedEOF], which
    [ReadAt] makes an [EOF] again. *)
Definition FileReader_ReadAt (rounds : nat) (n off : Z) f env : result (list byte * option error) * FileReader * Env N :=
  if fr_closed f then (Ok ([], Some ErrClosedPipe), f, env)
  else if off <? 0 then (Ok ([], Some (path_error (fr_name f) (EMsg "negative offset"))), f, env)
  else
    match FileReader_Seek off 0 f env with
    | ((_, Some e), f, env) => (Ok ([], Some e), f, env)
    | ((_, None), f, env) =>
        match readFull_file rounds (Z.to_nat n) n f env with
        | (Ok (b, err), f, env) => (Ok (b, if bool_decide (err = Some ErrUnexpectedEOF) then Some EOF else err), f, env)
        | r => r
        end
    end.

Definition FileReader_Close f env : FileReader * Env N :=
  match fr_blockReader f with
  | Some br => let '(br, env) := BlockReader_Close br env in (fr_close (fr_setReader (Some br) f), env)
  | None => (fr_close f, env)
  end.

(** The MD5 of the checksums of the blocks, padded to a power of two; [md5] is
    the hash. *)
Fixpoint block_checksums (blocks : list LocatedBlockProto) (deadline : Z) (acc : list byte) (padded : Z) env
    : result (list byte * Z * option error) * Env N :=
  match blocks with
  | [] => (Ok (acc, padded, None), env)
  | block :: blocks =>
      match nn_wrapDatanodeDial (lb_BlockToken block) (net env) with
      | (Some e, n) => (Ok (acc, padded, Some e), set_net n env)
      | (None, n) =>
          let cr := mkChecksumReader block (c_UseDatanodeHostname client) deadline None in
          match ReadChecksum cr (set_net n env) with
          | (Ok (sum, None), _, env) =>
              let acc := acc ++ sum in
              block_checksums blocks deadline acc (if padded <? zlen acc then padded * 2 else padded) env
          | (Ok (_, Some e), _, env) => (Ok (acc, padded, Some e), env)
          | (_, _, env) => (Panic, env)
          end
      end
  end.
Definition FileReader_Checksum (md5 : list byte → list byte) f env : result (list byte * option error) * FileReader * Env N :=
  if fi_IsDir (fr_info f) then (Ok ([], Some (path_error (fr_name f) (EMsg "is a directory"))), f, env)
  else
    let '(err, f, env) := if bool_decide (fr_blocks f = []) then getBlocks f env else (None, f, env) in
    match err with
    | Some e => (Ok ([], Some e), f, env)
    | None =>
        match block_checksums (fr_blocks f) (fr_deadline f) [] 32 env with
        | (Ok (acc, padded, None), env) =>
            if padded <? zlen acc then (Panic, f, env)
            else (Ok (md5 (acc ++ replicate (Z.to_nat (padded - zlen acc)) (byte_of_Z 0)), None), f, env)
        | (Ok (_, _, Some e), env) => (Ok ([], Some e), f, env)
        | (_, env) => (Panic, f, env)
        end
    end.

(** ** Listings *)
Definition readdir f env : (list FileInfo * Z + error) * Env N :=
  match nn_getListing (fr_name f) (fr_readdirLast f) (net env) with
  | (inl (Some (l, remaining)), n) => (inl (map (λ status, newFileInfo status EmptyString) l, remaining), set_net n env)
  | (inl None, n) => (inr (ESyscall ENOENT), set_net n env)
  | (inr e, n) => (inr e, set_net n env)
  end.
Fixpoint readdir_loop (fuel : nat) (n : Z) (res : list FileInfo) f env : option (list FileInfo + error) * FileReader * Env N :=
  match fuel with
  | O => (None, f, env)
  | S fuel =>
      match readdir f env with
      | (inr e, env) => (Some (inr (path_error (fr_name f) (interpretException e))), f, env)
      | (inl (batch, remaining), env) =>
          let f := match last batch with Some fi => fr_setLast (fi_Name fi) f | None => f end in
          let res := res ++ batch in
          if (remaining =? 0) || ((0 <? n) && (n <=? zlen res)) then (Some (inl res), f, env)
          else readdir_loop fuel n res f env
      end
  end.
Definition FileReader_Readdir (fuel : nat) (n : Z) f env : option (list FileInfo + error) * FileReader * Env N :=
  if fr_closed f then (Some (inr ErrClosedPipe), f, env)
  else if negb (fi_IsDir (fr_info f)) then (Some (inr (path_error (fr_name f) (EMsg "the file is not a directory"))), f, env)
  else
    match readdir_loop fuel n [] (if n <=? 0 then fr_setLast EmptyString f else f) env with
    | (Some (inl res), f, env) =>
        if 0 <? n then
          if bool_decide (res = []) then (Some (inr EOF), f, env)
          else if n <? zlen res then
            let res := take (Z.to_nat n) res in
            (Some (inl res), match last res with Some fi => fr_setLast (fi_Name fi) f | None => f end, env)
          else (Some (inl res), f, env)
        else (Some (inl res), f, env)
    | r => r
    end.
Definition FileReader_Readdirnames (fuel : nat) (n : Z) f env : option (list string + error) * FileReader * Env N :=
  if fr_closed f then (Some (inr ErrClosedPipe), f, env)
  else
    match FileReader_Readdir fuel n f env with
    | (Some (inl fis), f, env) => (Some (inl (map fi_Name fis)), f, env)
    | (Some (inr e), f, env) => (Some (inr e), f, env)
    | (None, f, env) => (None, f, env)
    end.
(** [Client.ReadDir] (hdfs/readdir.go) *)
Definition client_ReadDir (fuel : nat) (dirname : string) env : option (list FileInfo + error) * Env N :=
  match client_Open dirname env with
  | (inl f, env) => let '(r, _, env) := FileReader_Readdir fuel 0 f env in (r, env)
  | (inr e, env) => (Some (inr e), env)
  end.
End files.

(** ** The cluster, as far as reading needs it

    [stored] are the bytes of a block. A datanode that works, [good], accepts
    connections and sends what it is asked for, from the start of a chunk on. Any
    other may refuse, or break off at any byte, but not with an [EOF]. *)
Section answer.
Context `{HeaderSpec} `{ProtoSpec BlockOpResponseProto} (stored : ExtendedBlockProto → list byte).

Definition checksum_table (resp : BlockOpResponseProto) : option Table :=
  if bo_ChecksumType resp =? CHECKSUM_CRC32 then Some IEEETable
  else if bo_ChecksumType resp =? CHECKSUM_CRC32C then Some Castagnoli else None.

(** The answer to a request for a block from an offset on. *)
Definition answers (works : bool) (block : ExtendedBlockProto) (off : Z) (r : Reader) : Prop :=
  ∃ missing resp head raw, rest_of missing r (head ++ raw) ∧ (works = true → missing = [])
    ∧ makePrefixedMessage resp = Ok head ∧ proto_fits resp ∧ 4 <= zlen (proto_bytes resp) < 2 ^ 31
    ∧ (works = true → bo_Status resp = Status_SUCCESS)
    ∧ (bo_Status resp = Status_SUCCESS → ∃ tab, checksum_table resp = Some tab
        ∧ 0 < bo_BytesPerChecksum resp <= 8192
        ∧ bo_ChunkOffset resp = off - off mod bo_BytesPerChecksum resp
        ∧ block_stream tab (bo_BytesPerChecksum resp) raw (drop (Z.to_nat (bo_ChunkOffset resp)) (stored block))).
End answer.

Class ClusterSpec (N : Type) `{Network N} `{Namenode N} `{HeaderSpec} `{ProtoSpec OpReadBlockProto} `{ProtoSpec BlockOpResponseProto} := {
  cluster_ok : N → Prop;
  stored : ExtendedBlockProto → list byte;
  good : string → bool;
  (** a request for a block with a token, by a client, can be encoded *)
  request_ok : ExtendedBlockProto → string → string → Prop;
  op_fits (op : OpReadBlockProto) : request_ok (or_Block op) (or_Token op) (or_ClientName op) →
    is_u64 (or_Offset op) → is_u64 (or_Len op) → proto_fits op ∧ zlen (proto_bytes op) < 2 ^ 31;
  Dial_ok a n : cluster_ok n → cluster_ok (snd (net_Dial a n));
  Dial_good a n : cluster_ok n → good a = true → ∃ id, fst (net_Dial a n) = inl id;
  Write_ok id b n : cluster_ok n → cluster_ok (snd (net_Write id b n));
  SetDeadline_ok id t n : cluster_ok n → cluster_ok (snd (net_SetDeadline id t n));
  Close_ok id n : cluster_ok n → cluster_ok (net_Close id n);
  wrapDial_ok token n : cluster_ok n → fst (nn_wrapDatanodeDial token n) = None ∧ cluster_ok (snd (nn_wrapDatanodeDial token n));
  Write_good a n id n' b : cluster_ok n → good a = true → net_Dial a n = (inl id, n') → fst (net_Write id b n') = None;
  Reader_answers a n id n' op b n'' : cluster_ok n → net_Dial a n = (inl id, n') →
    0 <= or_Offset op < zlen (stored (or_Block op)) → eb_NumBytes (or_Block op) = zlen (stored (or_Block op)) →
    makePrefixedMessage op = Ok b →
    net_Write id ([byte_of_Z 0; byte_of_Z dataTransferVersion; byte_of_Z readBlockOp] ++ b) n' = (None, n'') →
    answers stored (good a) (or_Block op) (or_Offset op) (net_Reader id n'')
}.

Section proofs.
Context {N : Type} `{ClusterSpec N} `{Proto OpBlockChecksumProto} `{StatusNames} `{BufferGrowth}.
Implicit Types (br : BlockReader) (env : Env N).

(** ** Failover *)
Lemma pick_lt failures l : ∀ i picked oldest, (picked < i + length l)%nat ∨ oldest = None →
  l ≠ [] ∨ (picked < i)%nat → (picked < i)%nat ∨ oldest = None →
  (pick failures i l picked oldest < i + length l)%nat.
Proof.
  induction l as [|a l IH]; intros i picked oldest H1' H2' H3'; simpl.
  { destruct H2'; [done|]. lia. }
  destruct (failures !! a) as [t|]; [|lia].
  destruct (match oldest with None => true | Some t0 => t <? t0 end) eqn:E.
  - specialize (IH (S i) i (Some t)). lia.
  - assert (picked < i)%nat by (destruct H3' as [|H3']; [done|by rewrite H3' in E]).
    specialize (IH (S i) picked oldest). lia.
Qed.
(** The next datanode is one of those that remain, and the others still do. *)
Lemma df_next_spec env df : df_datanodes df ≠ [] →
  ∃ a rest, df_next env df = (a, mkFailover rest a (df_err df)) ∧ df_datanodes df ≡ₚ a :: rest.
Proof.
  intros Hne. unfold df_next, numRemaining. rewrite (proj2 (Z.eqb_neq _ _)).
  2: { destruct (df_datanodes df); [done|]. rewrite zlen_cons. zlia. }
  assert (pick (datanodeFailures env) 0 (df_datanodes df) 0 None < length (df_datanodes df))%nat as Hlt.
  { apply (pick_lt (datanodeFailures env) (df_datanodes df) 0 0 None); auto. }
  destruct (lookup_lt_is_Some_2 _ _ Hlt) as [a Ha]. rewrite Ha. simpl.
  eexists _, _. split; [done|]. by apply delete_Permutation.
Qed.

(** ** Connecting to a datanode *)
Lemma discard_spec tab size missing : 0 < size → ∀ fuel k s D, reading tab size missing s D → rs_chunk s = [] →
  rs_lastPacket s = false → 0 <= k < zlen D → k <= 8192 → (Z.to_nat k < fuel)%nat →
  (∃ s', discard fuel k s = (Ok None, s') ∧ reading tab size missing s' (drop (Z.to_nat k) D) ∧ rs_lastPacket s' = false)
  ∨ (missing ≠ [] ∧ ∃ e s', discard fuel k s = (Ok (Some e), s')).
Proof.
  intros Hsize. induction fuel as [|fuel IH]; intros k s D Hr Hc Hl Hk Hmax Hf; [lia|]. cbn [discard].
  destruct (Z.leb_spec k 0) as [H0'|H0'].
  { left. exists s. by replace (Z.to_nat k) with 0%nat by lia. }
  rewrite Z.min_l by lia.
  assert (D ≠ []) as HD by (intros ->; change (zlen []) with 0 in Hk; lia).
  destruct (stream_Read_spec tab size Hsize missing k s D H0' Hr Hl HD) as (b & err & s' & D2 & -> & -> & Hb & Hres).
  rewrite zlen_app in Hk.
  destruct Hres as [(-> & Hne & Hr' & Hfresh & Hshort)|(Hm & Hlt & e & -> & He)].
  - assert (0 < zlen b) by (destruct b; [done|]; rewrite zlen_cons; zlia).
    destruct (Z.eq_dec (zlen b) k) as [Heq|Hneq].
    + destruct fuel as [|fuel]; [lia|]. cbn [discard]. rewrite (proj2 (Z.leb_le _ _)) by lia. left. exists s'.
      rewrite <- Heq, drop_app_zlen. auto.
    + destruct (IH (k - zlen b) s' D2) as [(s2 & E & Hr2 & Hl2)|]; [done|apply Hshort; lia|by apply Hfresh|lia..| |by right].
      left. exists s2. split_and!; [done| |done].
      replace (Z.to_nat k) with (length b + Z.to_nat (k - zlen b))%nat by (unfold zlen in *; lia).
      by rewrite <- drop_drop, drop_app_length.
  - right. split; [done|]. rewrite (proj2 (Z.leb_gt _ _)) by lia. eauto.
Qed.

(** What is known of the reader of a block while it is not closed. *)
Definition block_bytes br : list byte := stored (lb_B (br_Block br)).
Record block_ok br : Prop := {
  bk_request : request_ok (lb_B (br_Block br)) (lb_BlockToken (br_Block br)) (br_ClientName br);
  bk_size : eb_NumBytes (lb_B (br_Block br)) = zlen (block_bytes br);
  bk_small : zlen (block_bytes br) < 2 ^ 62;
  bk_offset : 0 <= br_Offset br <= zlen (block_bytes br)
}.
(** A stream that delivers what remains of the block. *)
Definition on_stream (missing : list byte) br s : Prop :=
  ∃ tab size, 0 < size ∧ reading tab size missing s (drop (Z.to_nat (br_Offset br)) (block_bytes br)).

Lemma moved_block_ok br br' : block_ok br → br_Block br' = br_Block br → br_ClientName br' = br_ClientName br →
  0 <= br_Offset br' <= zlen (block_bytes br) → block_ok br'.
Proof. intros [? ? ? ?] E1 E2 E3. split; unfold block_bytes in *; by rewrite E1, ?E2. Qed.
Lemma same_block_ok br br' : block_ok br → br_Block br' = br_Block br → br_ClientName br' = br_ClientName br →
  br_Offset br' = br_Offset br → block_ok br'.
Proof. intros Hbk E1 E3 E2. apply (moved_block_ok br); [done..|]. rewrite E2. apply Hbk. Qed.

Lemma open_stream_ok resp tab r : checksum_table resp = Some tab → open_stream resp r = Ok (newBlockReadStream r (bo_BytesPerChecksum resp) tab).
Proof. unfold checksum_table, open_stream. intros E. repeat case_match; by simplify_eq. Qed.

(** The answer of a datanode is a stream that delivers the rest of the block, or
    it is a failure, of a datanode that does not work. *)
Lemma read_answer works br r : block_ok br → br_Offset br < zlen (block_bytes br) →
  answers stored works (lb_B (br_Block br)) (br_Offset br) r →
  (works = false ∧ ∃ e r', readPrefixedMessage (M := BlockOpResponseProto) r = (Err e, r'))
  ∨ ∃ resp r', readPrefixedMessage r = (Ok resp, r')
    ∧ ((works = false ∧ bo_Status resp ≠ Status_SUCCESS)
       ∨ bo_Status resp = Status_SUCCESS ∧ ∃ stream res s, open_stream resp r' = Ok stream
         ∧ discard (S (Z.to_nat (i64 (br_Offset br - i64 (bo_ChunkOffset resp))) + length (rd_rest r')))
             (i64 (br_Offset br - i64 (bo_ChunkOffset resp))) stream = (Ok res, s)
         ∧ ((works = false ∧ is_Some res)
            ∨ ∃ missing, res = None ∧ on_stream missing br s ∧ rs_lastPacket s = false ∧ (works = true → missing = []))).
Proof.
  intros [Hrq Hsz Hsm Ho] Hlt (missing & resp & head & raw & Hr & Hgood & Hhead & Hrf & Hrl & Hok & Hsucc).
  assert (missing ≠ [] → works = false) as Hbad by (destruct works; [intros Hm; by rewrite Hgood in Hm|done]).
  destruct (readPrefixed_cut missing resp head raw _ Hrf Hrl Hhead Hr) as [(r1 & -> & Hr1)|(Hm & e & r1 & ->)]; [|left; split; [by apply Hbad|by eauto]].
  right. exists resp, r1. split; [done|].
  destruct (decide (bo_Status resp = Status_SUCCESS)) as [Hs|Hs]; [|left; split; [|done]; destruct works; [exfalso; by apply Hs, Hok|done]].
  right. split; [done|]. destruct (Hsucc Hs) as (tab & Ht & Hbpc & Hco & Hstream). rewrite (open_stream_ok _ _ _ Ht).
  pose proof (Z.mod_pos_bound (br_Offset br) (bo_BytesPerChecksum resp)) as Hmod.
  assert (0 <= bo_ChunkOffset resp <= br_Offset br) as Hcr.
  { rewrite Hco. pose proof (Z.mod_le (br_Offset br) (bo_BytesPerChecksum resp)). lia. }
  rewrite (i64_id (bo_ChunkOffset resp)) by (unfold is_i64; lia). rewrite i64_id by (unfold is_i64; lia).
  set (size := bo_BytesPerChecksum resp) in *. set (k := br_Offset br - bo_ChunkOffset resp).
  destruct (discard_spec tab size missing) with (S (Z.to_nat k + length (rd_rest r1))) k (newBlockReadStream r1 size tab)
    (drop (Z.to_nat (bo_ChunkOffset resp)) (stored (lb_B (br_Block br)))) as [(s' & E & Hrs & Hls)|(Hm & e & s' & E)];
    [lia|by eapply reading_new|done|done|fold (block_bytes br); rewrite zlen_drop by lia; lia|lia|lia| |].
  - exists (newBlockReadStream r1 size tab), None, s'. split_and!; [done..|]. right. exists missing. split_and!; try done.
    exists tab, size. split; [lia|]. rewrite drop_drop in Hrs. unfold block_bytes.
    by replace (Z.to_nat (br_Offset br)) with (Z.to_nat (bo_ChunkOffset resp) + Z.to_nat k)%nat by lia.
  - exists (newBlockReadStream r1 size tab), (Some e), s'. split_and!; [done..|]. left. split; [by apply Hbad|by eexists].
Qed.

Lemma connectNext_spec br df env : cluster_ok (net env) → block_ok br → br_Offset br < zlen (block_bytes br) →
  br_stream br = None → df_datanodes df ≠ [] →
  ∃ res br' env' a rest, connectNext br df env = (Ok res, br', env') ∧ cluster_ok (net env')
    ∧ df_datanodes df ≡ₚ a :: rest ∧ br_datanodes br' = Some (mkFailover rest a (df_err df))
    ∧ br_Block br' = br_Block br ∧ br_Offset br' = br_Offset br ∧ br_closed br' = br_closed br ∧ br_ClientName br' = br_ClientName br
    ∧ ((is_Some res ∧ br_stream br' = None ∧ good a = false)
       ∨ ∃ s missing, br_stream br' = Some s ∧ on_stream missing br s ∧ rs_lastPacket s = false ∧ (good a = true → missing = [])).
Proof.
  intros Hn [Hrq Hsz Hsm Ho] Hlt Hst Hdf. unfold connectNext. destruct (df_next_spec env df Hdf) as (a & rest & -> & Hp).
  destruct (net_Dial a (net env)) as [[id|e] n] eqn:Ed.
  2: { do 5 eexists. split; [done|]. split_and!; try done; [by pose proof (Dial_ok a _ Hn) as Hd; rewrite Ed in Hd|].
       left. split_and!; [by eexists|done|]. destruct (good a) eqn:Eg; [|done].
       destruct (Dial_good a _ Hn Eg) as [id Hid]. by rewrite Ed in Hid. }
  assert (cluster_ok n) as Hn1 by (pose proof (Dial_ok a _ Hn) as Hd; by rewrite Ed in Hd).
  unfold writeBlockReadRequest, writeBlockOpRequest. cbn [br_Block br_Offset br_ClientName br_setDatanodes].
  set (op := mkOpReadBlock _ _ _ _ _).
  destruct (op_fits op) as [Hfit Hopl]; [done|apply u64_range..|].
  destruct (makePrefixed_ok op Hfit) as (l & Em & _ & _); [lia|]. rewrite Em. cbn [mbind result_bind].
  set (reqb := _ ++ (l ++ proto_bytes op)). cbn [net set_net conn_Write net_conn].
  destruct (net_Write id reqb n) as [werr n2] eqn:Ew.
  assert (cluster_ok n2) as Hn2 by (pose proof (Write_ok id reqb _ Hn1) as Hd; by rewrite Ew in Hd).
  assert (good a = true → werr = None) as Hwg.
  { intros Eg. pose proof (Write_good a _ id n reqb Hn Eg Ed) as Hw. by rewrite Ew in Hw. }
  destruct werr as [e|].
  { do 5 eexists. split; [done|]. split_and!; try done. left. split_and!; [by eexists|done|].
    destruct (good a); [by specialize (Hwg eq_refl)|done]. }
  assert (answers stored (good a) (or_Block op) (or_Offset op) (net_Reader id n2)) as Hans.
  { eapply Reader_answers; [exact Hn|exact Ed| |done|exact Em|exact Ew]. simpl. fold (block_bytes br).
    rewrite u64_id by (unfold is_u64; lia). lia. }
  simpl in Hans. rewrite u64_id in Hans by (unfold is_u64; lia).
  cbn [net set_net].
  destruct (read_answer (good a) br _ (Build_block_ok br Hrq Hsz Hsm Ho) Hlt Hans) as [(Hg & e & r1 & ->)|(resp & r1 & -> & Hcase)].
  { do 5 eexists. split; [done|]. split_and!; try done. left. split_and!; [by eexists|done|done]. }
  destruct Hcase as [[Hg Hs]|(Hs & stream & res & s' & -> & -> & Hcase)].
  { rewrite (proj2 (Z.eqb_neq _ _)) by done. do 5 eexists. split; [done|]. split_and!; try done. left. split_and!; [by eexists|done|done]. }
  rewrite (proj2 (Z.eqb_eq _ _)) by done. cbn [negb]. destruct Hcase as [[Hg [e ->]]|(missing & -> & Hon & Hls & Hg)].
  { do 5 eexists. split; [done|]. cbn [net set_net]. split_and!; try done; [by apply Close_ok|]. left. split_and!; [by eexists|done|done]. }
  destruct (net_SetDeadline id (br_deadline br) n2) as [derr n3] eqn:Es. cbn [net set_net br_deadline br_setConn br_setStream br_setDatanodes].
  rewrite Es. do 5 eexists. split; [done|]. cbn [net set_net].
  split_and!; try done; [by pose proof (SetDeadline_ok id (br_deadline br) _ Hn2) as Hd; rewrite Es in Hd|].
  right. by exists s', missing.
Qed.
(** ** Reading a block *)
Definition avail (df : datanodeFailover) : Prop := ∃ a, a ∈ df_datanodes df ∧ good a = true.
Definition remaining_of br : datanodeFailover :=
  match br_datanodes br with
  | Some df => df
  | None => newDatanodeFailover (map (λ loc, getDatanodeAddress loc (br_UseDatanodeHostname br)) (lb_Locs (br_Block br)))
  end.
(** The reader of a block that is still open: its stream delivers the rest of the
    block, or there is a datanode left that does. *)
Record reader_ok br : Prop := {
  rk_block : block_ok br;
  rk_open : br_closed br = false;
  rk_stream : match br_stream br with
    | None => avail (remaining_of br)
    | Some s => ∃ missing, on_stream missing br s ∧ (missing = [] ∨ avail (remaining_of br))
    end
}.
(** The next [b] bytes of the block were read. *)
Definition advanced br (b : list byte) br' : Prop :=
  br_Block br' = br_Block br ∧ br_Offset br' = br_Offset br + zlen b
  ∧ drop (Z.to_nat (br_Offset br)) (block_bytes br) = b ++ drop (Z.to_nat (br_Offset br')) (block_bytes br).

Lemma advance_offset br b D2 : block_ok br → drop (Z.to_nat (br_Offset br)) (block_bytes br) = b ++ D2 →
  i64 (br_Offset br + zlen b) = br_Offset br + zlen b ∧ br_Offset br + zlen b <= zlen (block_bytes br)
  ∧ D2 = drop (Z.to_nat (br_Offset br + zlen b)) (block_bytes br).
Proof.
  intros [_ Hsz Hsm Ho] E. assert (zlen b + zlen D2 = zlen (block_bytes br) - br_Offset br) as Hl.
  { rewrite <- zlen_app, <- E. apply zlen_drop. lia. }
  split_and!; [apply i64_id; unfold is_i64; zlia|zlia|].
  replace (Z.to_nat (br_Offset br + zlen b)) with (Z.to_nat (br_Offset br) + length b)%nat by (unfold zlen in *; lia).
  by rewrite <- drop_drop, E, drop_app_length.
Qed.

Lemma drop_nonempty {A} (l : list A) n : 0 <= n < zlen l → drop (Z.to_nat n) l ≠ [].
Proof. intros Hn E. apply (f_equal length) in E. rewrite length_drop in E. unfold zlen in Hn. simpl in E. lia. Qed.

Lemma read_retry_spec n : 0 < n → ∀ fuel br df env, cluster_ok (net env) → block_ok br → br_Offset br < zlen (block_bytes br) →
  br_closed br = false → br_datanodes br = Some df →
  match br_stream br with
  | None => avail df ∧ (2 * length (df_datanodes df) < fuel)%nat
  | Some s => rs_lastPacket s = false ∧ (2 * length (df_datanodes df) + 1 < fuel)%nat
      ∧ ∃ missing, on_stream missing br s ∧ (missing = [] ∨ avail df)
  end →
  ∃ b br' env', read_retry fuel n br df env = (Ok (b, None), br', env') ∧ cluster_ok (net env')
    ∧ b ≠ [] ∧ zlen b <= n ∧ advanced br b br' ∧ reader_ok br'.
Proof.
  intros Hn. induction fuel as [|fuel IH]; intros br df env He Hbk Hlt Hcl Hdf Hst; [destruct (br_stream br); lia|].
  cbn [read_retry]. destruct (br_stream br) as [s|] eqn:Es.
  - destruct Hst as (Hl & Hf & missing & (tab & size & Hsize & Hr) & Hav). pose proof Hbk as [_ Hsz Hsm Ho].
    destruct (stream_Read_spec tab size Hsize missing n s _ Hn Hr Hl) as (b & err & s' & D2 & -> & E & Hb & Hres);
      [apply drop_nonempty; lia|].
    destruct (advance_offset br b D2 Hbk E) as (Hoff & Hle & ->). rewrite Hoff.
    destruct Hres as [(-> & Hne & Hr' & _)|(Hm & _ & e & -> & Hee)].
    + exists b. do 2 eexists. split; [done|]. split_and!; try done.
      split; [eapply moved_block_ok; [done..|simpl; zlia]|done|]. cbn [br_stream br_setOffset br_setStream]. exists missing. split; [by exists tab, size|].
      unfold remaining_of. simpl. by rewrite Hdf.
    + destruct Hav as [|Hav]; [done|].
      assert (∀ df' : datanodeFailover, df_datanodes df' = df_datanodes df → reader_ok
        (br_setDatanodes df' (br_setStream None (br_setOffset (br_Offset br + zlen b) (br_setStream (Some s') br))))) as Hrk.
      { intros df' Hd'. split; [eapply moved_block_ok; [done..|simpl; zlia]|done|]. simpl. unfold avail, remaining_of. simpl. by rewrite Hd'. }
      rewrite bool_decide_false by done. cbn [recordFailure]. destruct (Z.ltb_spec 0 (zlen b)) as [Hpos|Hpos].
      * exists b. do 2 eexists. split; [done|]. split_and!; try done; [intros ->; done|by apply Hrk].
      * apply zlen_nil_inv in Hpos as ->. change (zlen []) with 0 in *. rewrite Z.add_0_r in *.
        edestruct IH as (b' & br' & env' & -> & He' & Hne' & Hb' & Had' & Hrk'); last first.
        { exists b', br', env'. split; [done|]. by split_and!. }
        { simpl. split; [by unfold avail|]. simpl. lia. }
        all: done || (by eapply same_block_ok) || idtac.
  - destruct Hst as [Hav Hf]. assert (df_datanodes df ≠ []) as Hne by (destruct Hav as (a & Ha & _); by intros Hnil; rewrite Hnil in Ha; apply not_elem_of_nil in Ha).
    unfold numRemaining. rewrite (proj2 (Z.ltb_lt _ _)) by (destruct (df_datanodes df); [done|]; rewrite zlen_cons; zlia).
    destruct (connectNext_spec br df env He Hbk Hlt Es Hne) as (res & br1 & env1 & a & rest & -> & He1 & Hp & Hd1 & Hb1 & Ho1 & Hc1 & Hcn1 & Hcase).
    assert (length (df_datanodes df) = S (length rest)) as Hlen by by rewrite Hp.
    assert (good a = false → ∃ x, x ∈ rest ∧ good x = true) as Hrest.
    { intros Hg. destruct Hav as (x & Hx & Hgx). rewrite Hp in Hx. apply elem_of_cons in Hx as [->|Hx]; [congruence|eauto]. }
    assert (∀ df2 br2 env2, br_stream br2 = br_stream br1 → br_Block br2 = br_Block br → br_Offset br2 = br_Offset br →
      br_closed br2 = false → br_ClientName br2 = br_ClientName br → df_datanodes df2 = rest → br_datanodes br2 = Some df2 → cluster_ok (net env2) →
      ∃ b br' env', read_retry fuel n br2 df2 env2 = (Ok (b, None), br', env') ∧ cluster_ok (net env')
        ∧ b ≠ [] ∧ zlen b <= n ∧ advanced br b br' ∧ reader_ok br') as Hgo.
    { intros df2 br2 env2 Hs2 Hb2 Ho2 Hc2 Hcn2 Hdf2 Hd2 He2.
      edestruct (IH br2 df2 env2) as (b & br' & env' & E & Hx); [done|by eapply same_block_ok| |done|done| |].
      - unfold block_bytes in *. by rewrite Hb2, Ho2.
      - rewrite Hs2. unfold avail. rewrite Hdf2. destruct Hcase as [(_ & -> & Hg)|(s & missing & -> & Hon & Hl & Hg)].
        + split; [auto|lia].
        + split; [done|]. split; [lia|]. exists missing. unfold on_stream, block_bytes in *. rewrite Hb2, Ho2. split; [done|].
          destruct (good a); [left|right]; auto.
      - exists b, br', env'. split; [done|]. unfold advanced, block_bytes in *. rewrite <- Hb2, <- Ho2. done. }
    rewrite Hd1. destruct res as [e|]; simpl; apply Hgo; try done; simpl; congruence.
Qed.

(** A read of an open reader: at the end of the block, and when its stream has
    ended early, it says so; otherwise it delivers the next bytes. *)
Lemma BlockReader_Read_spec n br env : 0 < n → cluster_ok (net env) → reader_ok br →
  ∃ b err br' env', BlockReader_Read n br env = (Ok (b, err), br', env') ∧ cluster_ok (net env')
    ∧ ((err = Some EOF ∧ b = [] ∧ br_stream br ≠ None)
       ∨ (err = Some EOF ∧ b = [] ∧ br_Offset br = zlen (block_bytes br))
       ∨ (err = None ∧ b ≠ [] ∧ zlen b <= n ∧ advanced br b br' ∧ reader_ok br')).
Proof.
  intros Hn He [Hbk Hop Hst]. pose proof Hbk as [_ Hsz Hsm Ho]. unfold BlockReader_Read. rewrite Hop, Hsz.
  rewrite u64_id by (unfold is_u64; lia). destruct (Z.leb_spec (zlen (block_bytes br)) (br_Offset br)) as [Hle|Hlt].
  { unfold BlockReader_Close. do 4 eexists. split; [done|]. split; [|right; left; split_and!; [done..|lia]].
    destruct (br_conn br); simpl; [by apply Close_ok|done]. }
  fold (remaining_of br). set (df := remaining_of br) in *. set (br0 := br_setDatanodes df br).
  assert (∀ s, br_stream br = Some s → rs_lastPacket s = true → br_stream br ≠ None) as Hne by (by intros s -> _).
  destruct (br_stream br) as [s|] eqn:Es.
  - destruct (rs_lastPacket s) eqn:El.
    + destruct Hst as (missing & (tab & size & Hsize & Hr) & _). cbn [read_retry]. unfold br0. cbn [br_stream br_setDatanodes]. rewrite Es.
      rewrite (stream_Read_ended tab size missing _ _ _ Hr El), bool_decide_true by done.
      do 4 eexists. split; [done|]. split; [done|]. left. by eauto.
    + edestruct (read_retry_spec n Hn (S (S (2 * length (df_datanodes df)))) br0 df env) as (b & br' & env' & E & He' & Hx);
        [done|by apply (same_block_ok br)|done|done|done| |].
      * unfold br0. cbn [br_stream br_setDatanodes]. rewrite Es. split; [done|]. split; [lia|]. exact Hst.
      * exists b, None, br', env'. split; [done|]. split; [done|]. right. right. split; [done|]. by destruct Hx as (? & ? & ? & ?).
  - edestruct (read_retry_spec n Hn (S (S (2 * length (df_datanodes df)))) br0 df env) as (b & br' & env' & E & He' & Hx);
      [done|by apply (same_block_ok br)|done|done|done| |].
    + unfold br0. cbn [br_stream br_setDatanodes]. rewrite Es. split; [done|lia].
    + exists b, None, br', env'. split; [done|]. split; [done|]. right. right. split; [done|]. by destruct Hx as (? & ? & ? & ?).
Qed.
(** ** Reading a file *)
Context (client : Client).

(** Blocks that make up the bytes of a file, each on a datanode that works. *)
Fixpoint tiles (start : Z) (blocks : list LocatedBlockProto) (content : list byte) : Prop :=
  match blocks with
  | [] => content = []
  | block :: blocks =>
      lb_Offset block = start ∧ request_ok (lb_B block) (lb_BlockToken block) (c_ClientName client)
      ∧ eb_NumBytes (lb_B block) = zlen (stored (lb_B block))
      ∧ (∃ loc, loc ∈ lb_Locs block ∧ good (getDatanodeAddress loc (c_UseDatanodeHostname client)) = true)
      ∧ ∃ rest, content = stored (lb_B block) ++ rest ∧ tiles (start + zlen (stored (lb_B block))) blocks rest
  end.
Definition located (name : string) (content : list byte) : Prop := ∀ n : N, cluster_ok n →
  ∃ blocks n', nn_getBlockLocations name 0 (zlen content) n = (inl blocks, n') ∧ cluster_ok n' ∧ tiles 0 blocks content.

Lemma find_block_spec off : ∀ blocks start content, tiles start blocks content → 0 <= start → start <= off < start + zlen content →
  start + zlen content < 2 ^ 62 →
  ∃ block rest, find_block off blocks = Some block ∧ 0 <= lb_Offset block <= off
    ∧ off - lb_Offset block < zlen (stored (lb_B block)) < 2 ^ 62
    ∧ eb_NumBytes (lb_B block) = zlen (stored (lb_B block))
    ∧ request_ok (lb_B block) (lb_BlockToken block) (c_ClientName client)
    ∧ (∃ loc, loc ∈ lb_Locs block ∧ good (getDatanodeAddress loc (c_UseDatanodeHostname client)) = true)
    ∧ drop (Z.to_nat (off - start)) content = drop (Z.to_nat (off - lb_Offset block)) (stored (lb_B block)) ++ rest.
Proof.
  induction blocks as [|block blocks IH]; intros start content Ht Hs Ho Hb; simpl in *.
  { subst content. change (zlen []) with 0 in Ho. lia. }
  destruct Ht as (Hoff & Hrq & Hnum & Hloc & rest & -> & Ht). rewrite zlen_app in Ho, Hb.
  pose proof (zlen_nonneg (stored (lb_B block))). pose proof (zlen_nonneg rest). rewrite Hoff, Hnum, u64_id by (unfold is_u64; lia).
  rewrite (proj2 (Z.leb_le _ _)) by lia. cbn [andb].
  destruct (Z.ltb_spec off (start + zlen (stored (lb_B block)))) as [Hlt|Hge].
  - exists block, rest. rewrite Hoff. split_and!; try done; try lia. rewrite drop_app_le by (unfold zlen in *; lia). done.
  - destruct (IH (start + zlen (stored (lb_B block))) rest) as (block' & rest' & Hx & Hy & Hz & Hw & Hq & Hv & Hd); [done|lia..|].
    exists block', rest'. split_and!; try done; try lia. rewrite drop_app_ge by (unfold zlen in *; lia). rewrite <- Hd. f_equal.
    unfold zlen in *. lia.
Qed.

Record file_ok (content : list byte) (f : FileReader) : Prop := {
  fk_open : fr_closed f = false;
  fk_file : fi_IsDir (fr_info f) = false;
  fk_size : fi_Size (fr_info f) = zlen content;
  fk_small : zlen content < 2 ^ 62;
  fk_offset : 0 <= fr_offset f <= zlen content;
  fk_located : located (fr_name f) content;
  fk_blocks : fr_blocks f = [] ∨ tiles 0 (fr_blocks f) content;
  fk_reader : match fr_blockReader f with
    | None => True
    | Some br => reader_ok br ∧ ∃ rest, drop (Z.to_nat (fr_offset f)) content = drop (Z.to_nat (br_Offset br)) (block_bytes br) ++ rest
    end
}.

Lemma drop_reader_spec content f env : file_ok content f → cluster_ok (net env) →
  ∃ env', drop_reader f env = (fr_setReader None f, env') ∧ cluster_ok (net env').
Proof.
  intros Hf He. unfold drop_reader. destruct (fr_blockReader f) as [br|] eqn:Eb.
  - eexists. split; [done|]. unfold BlockReader_Close. simpl. destruct (br_conn br); simpl; [by apply Close_ok|done].
  - exists env. split; [|done]. unfold fr_setReader. destruct f. simpl in *. by subst.
Qed.
Lemma no_reader_ok content f : file_ok content f → file_ok content (fr_setReader None f).
Proof. by intros []. Qed.

(** A new reader starts in the block that holds the offset. *)
Lemma getNewBlockReader_spec content f env : file_ok content f → tiles 0 (fr_blocks f) content → fr_offset f < zlen content →
  cluster_ok (net env) → fr_blockReader f = None →
  ∃ br env', getNewBlockReader client f env = (None, fr_setReader (Some br) f, env') ∧ cluster_ok (net env')
    ∧ file_ok content (fr_setReader (Some br) f) ∧ br_Offset br < zlen (block_bytes br) ∧ br_stream br = None.
Proof.
  intros Hf Ht Hlt He Hnone. pose proof Hf as [Hop Hfile Hsize Hsmall Hoff Hloc Hbl _]. unfold getNewBlockReader.
  rewrite u64_id by (unfold is_u64; lia).
  destruct (find_block_spec (fr_offset f) _ _ _ Ht) as (block & rest & -> & Hb0 & Hb1 & Hnum & Hrq & (loc & Hl & Hg) & Hd); [lia..|].
  pose proof (wrapDial_ok (lb_BlockToken block) _ He) as [Hw1 Hw2].
  destruct (nn_wrapDatanodeDial (lb_BlockToken block) (net env)) as [err n] eqn:Ew. simpl in Hw1, Hw2. subst err.
  rewrite u64_id by (unfold is_u64; lia). rewrite i64_id by (unfold is_i64; lia).
  unfold FileReader_SetDeadline, BlockReader_SetDeadline. simpl.
  eexists _, _. split; [by unfold fr_setReader, fr_setDeadline|]. split; [done|]. split; [|split; [simpl; unfold block_bytes; simpl; lia|done]].
  split; simpl; try done. split.
  - split; [split; unfold block_bytes; simpl; done || lia|done|]. simpl. unfold avail, remaining_of. simpl.
    exists (getDatanodeAddress loc (c_UseDatanodeHostname client)). split; [|done]. apply list_elem_of_fmap. by exists loc.
  - exists rest. rewrite Z.sub_0_r in Hd. done.
Qed.
(** The bytes [b] at the offset were read. *)
Definition file_read (content : list byte) (n : Z) f (b : list byte) f' : Prop :=
  b ≠ [] ∧ zlen b <= n ∧ fr_offset f' = fr_offset f + zlen b ∧ file_ok content f'
  ∧ drop (Z.to_nat (fr_offset f)) content = b ++ drop (Z.to_nat (fr_offset f')) content.

Lemma file_advance content f br b br' : file_ok content f → fr_blockReader f = Some br → advanced br b br' → reader_ok br' →
  let f' := fr_setOffset (i64 (fr_offset f + zlen b)) (fr_setReader (Some br') f) in
  fr_offset f' = fr_offset f + zlen b ∧ file_ok content f'
  ∧ drop (Z.to_nat (fr_offset f)) content = b ++ drop (Z.to_nat (fr_offset f')) content.
Proof.
  intros [Hop Hfile Hsize Hsmall Hoff Hloc Hbl Hrd] Er (Hb & Ho & Hd) Hrk f'. rewrite Er in Hrd. destruct Hrd as [Hrk0 [rest Hrest]].
  rewrite Hd, <- app_assoc in Hrest. set (tail := drop _ (block_bytes br) ++ rest) in Hrest.
  assert (zlen b + zlen tail = zlen content - fr_offset f) as Hl by (rewrite <- zlen_app, <- Hrest; apply zlen_drop; lia).
  assert (fr_offset f' = fr_offset f + zlen b) as Hf' by (simpl; apply i64_id; unfold is_i64; zlia).
  assert (tail = drop (Z.to_nat (fr_offset f')) content) as Htail.
  { rewrite Hf'. replace (Z.to_nat (fr_offset f + zlen b)) with (Z.to_nat (fr_offset f) + length b)%nat by (unfold zlen in *; lia).
    by rewrite <- drop_drop, Hrest, drop_app_length. }
  split; [done|]. rewrite <- Htail. split; [|done]. split; try done; [rewrite Hf'; zlia|]. cbn [fr_blockReader f' fr_setOffset fr_setReader].
  split; [done|]. exists rest. change (fr_offset (fr_setOffset _ _)) with (fr_offset f'). rewrite <- Htail. unfold tail, block_bytes. by rewrite Hb.
Qed.

(** One round: the next bytes, or the reader has to be replaced. *)
Lemma block_round content n f br env rounds : 0 < n → file_ok content f → cluster_ok (net env) → fr_blockReader f = Some br →
  (∃ b f' env', read_blocks client (S rounds) n f env = (Ok (b, None), f', env') ∧ cluster_ok (net env') ∧ file_read content n f b f')
  ∨ (∃ env', read_blocks client (S rounds) n f env = read_blocks client rounds n (fr_setReader None f) env' ∧ cluster_ok (net env')
      ∧ (br_stream br ≠ None ∨ br_Offset br = zlen (block_bytes br))).
Proof.
  intros Hn Hf He Er. cbn [read_blocks]. rewrite Er.
  pose proof (fk_reader _ _ Hf) as Hrd. rewrite Er in Hrd. destruct Hrd as [Hrk _]. rewrite Er.
  destruct (BlockReader_Read_spec n br env Hn He Hrk) as (b & err & br' & env' & -> & He' & Hcase).
  assert (b = [] → err = Some EOF → ∃ env2, drop_reader (fr_setOffset (i64 (fr_offset f + zlen b)) (fr_setReader (Some br') f)) env'
      = (fr_setReader None f, env2) ∧ cluster_ok (net env2)) as Hdrop.
  { intros -> _. change (zlen []) with 0. rewrite Z.add_0_r, i64_id by (destruct Hf; unfold is_i64; lia).
    eexists. split; [unfold drop_reader, BlockReader_Close; simpl; by destruct f|]. simpl. destruct (br_conn br'); simpl; [by apply Close_ok|done]. }
  destruct Hcase as [(-> & -> & Hst)|[(-> & -> & Hend)|(-> & Hne & Hb & Had & Hrk')]].
  - right. rewrite bool_decide_true by done. destruct Hdrop as (env2 & -> & He2); [done..|]. exists env2. auto.
  - right. rewrite bool_decide_true by done. destruct Hdrop as (env2 & -> & He2); [done..|]. exists env2. auto.
  - left. rewrite (proj2 (Z.ltb_lt _ _)) by (destruct b; [done|]; rewrite zlen_cons; zlia).
    destruct (file_advance content f br b br' Hf Er Had Hrk') as (Ho' & Hok & Hd).
    do 3 eexists. split; [done|]. split; [done|]. by split_and!.
Qed.

(** A block that has ended is replaced once, so that two rounds are enough. *)
Lemma read_blocks_spec content n f env rounds : 0 < n → file_ok content f → tiles 0 (fr_blocks f) content →
  fr_offset f < zlen content → cluster_ok (net env) → (2 <= rounds)%nat →
  ∃ b f' env', read_blocks client rounds n f env = (Ok (b, None), f', env') ∧ cluster_ok (net env') ∧ file_read content n f b f'.
Proof.
  intros Hn Hf Ht Hlt He Hr.
  assert (∀ k f0 env0, file_ok content f0 → fr_blocks f0 = fr_blocks f → fr_offset f0 = fr_offset f → cluster_ok (net env0) →
    fr_blockReader f0 = None → ∃ b f' env', read_blocks client (S k) n f0 env0 = (Ok (b, None), f', env')
      ∧ cluster_ok (net env') ∧ file_read content n f0 b f') as Hfresh.
  { intros k f0 env0 Hf0 Hb0 Ho0 He0 Hnone.
    destruct (getNewBlockReader_spec content f0 env0 Hf0) as (br & env1 & E & He1 & Hf1 & Hlt1 & Hs1); [congruence|lia|done..|].
    destruct (block_round content n _ br env1 k Hn Hf1 He1 eq_refl) as [(b & f' & env' & E' & He' & Hx)|(env' & _ & _ & [Hc|Hc])];
      [|done|lia].
    exists b, f', env'. split_and!; [|done|].
    - rewrite <- E'. cbn [read_blocks]. rewrite Hnone, E. done.
    - destruct Hx as (? & ? & ? & ? & ?). by split_and!. }
  destruct rounds as [|[|k]]; [lia..|]. destruct (fr_blockReader f) as [br|] eqn:Er; [|by apply Hfresh].
  destruct (block_round content n f br env (S k) Hn Hf He Er) as [Hx|(env' & -> & He' & _)]; [done|].
  destruct (Hfresh k (fr_setReader None f) env') as (b & f' & env2 & E & He2 & Hx); [by apply no_reader_ok|done..|].
  exists b, f', env2. split_and!; done.
Qed.

Lemma FileReader_Read_spec content n f env rounds : 0 < n → file_ok content f → fr_offset f < zlen content → cluster_ok (net env) →
  (2 <= rounds)%nat →
  ∃ b f' env', FileReader_Read client rounds n f env = (Ok (b, None), f', env') ∧ cluster_ok (net env') ∧ file_read content n f b f'.
Proof.
  intros Hn Hf Hlt He Hr. pose proof Hf as [Hop Hfile Hsize Hsmall Hoff Hloc Hbl Hrd]. unfold FileReader_Read.
  rewrite Hop, Hfile, Hsize. rewrite (proj2 (Z.leb_gt _ _)) by lia. rewrite (proj2 (Z.eqb_neq _ _)) by lia.
  case_bool_decide as Hnil.
  - unfold getBlocks. rewrite Hsize, u64_id by (unfold is_u64; lia).
    destruct (Hloc (net env) He) as (blocks & n' & -> & He' & Ht).
    apply (read_blocks_spec content n (fr_setBlocks blocks f)); try done. split; try done. by right.
  - destruct Hbl as [|Ht]; [done|]. by apply read_blocks_spec.
Qed.

Lemma readFull_file_spec content rounds : (2 <= rounds)%nat → ∀ fuel n f env, (Z.to_nat n <= fuel)%nat → file_ok content f → cluster_ok (net env) →
  ∃ f' env', readFull_file client rounds fuel n f env
    = (Ok (take (Z.to_nat n) (drop (Z.to_nat (fr_offset f)) content),
           if n <=? zlen content - fr_offset f then None else Some EOF), f', env')
    ∧ cluster_ok (net env') ∧ file_ok content f'.
Proof.
  intros Hr. induction fuel as [|fuel IH]; intros n f env Hf Hok He; cbn [readFull_file]; pose proof (fk_offset _ _ Hok) as Ho;
    (destruct (Z.leb_spec n 0) as [H0'|H0'];
     [exists f, env; replace (Z.to_nat n) with 0%nat by lia; by rewrite (proj2 (Z.leb_le _ _)) by lia|]); [lia|].
  destruct (Z.lt_ge_cases (fr_offset f) (zlen content)) as [Hlt|Hge].
  - destruct (FileReader_Read_spec content n f env rounds) as (b & f1 & env1 & -> & He1 & Hne & Hb & Ho1 & Hok1 & Hd); [done..|].
    assert (0 < zlen b) by (destruct b; [done|]; rewrite zlen_cons; zlia).
    destruct (IH (n - zlen b) f1 env1) as (f' & env' & -> & He' & Hok'); [lia|done..|]. exists f', env'. split_and!; [|done..].
    rewrite Hd, Ho1, take_app, (take_ge b) by (unfold zlen in *; lia).
    replace (Z.to_nat n - length b)%nat with (Z.to_nat (n - zlen b)) by (unfold zlen; lia).
    destruct (Z.leb_spec (n - zlen b) (zlen content - (fr_offset f + zlen b))), (Z.leb_spec n (zlen content - fr_offset f)); done || lia.
  - unfold FileReader_Read. destruct Hok as [Hop Hfile Hsize Hsmall Hoff Hloc Hbl Hrd]. rewrite Hop, Hfile, Hsize.
    rewrite (proj2 (Z.leb_le _ _)) by lia. exists f, env. change (zlen []) with 0. rewrite (proj2 (Z.leb_gt n 0)) by lia.
    rewrite (proj2 (Z.leb_gt n _)) by lia. rewrite drop_ge by (unfold zlen in *; lia). rewrite take_nil. by split_and!.
Qed.
Lemma FileReader_ReadAt_spec content rounds n off f env : (2 <= rounds)%nat → 0 <= n → 0 <= off <= zlen content →
  file_ok content f → cluster_ok (net env) →
  ∃ f' env', FileReader_ReadAt client rounds n off f env
    = (Ok (take (Z.to_nat n) (drop (Z.to_nat off) content), if n <=? zlen content - off then None else Some EOF), f', env')
    ∧ cluster_ok (net env') ∧ file_ok content f'.
Proof.
  intros Hr Hn Hoff Hok He. pose proof Hok as [Hop Hfile Hsize Hsmall Ho Hloc Hbl Hrd]. unfold FileReader_ReadAt, FileReader_Seek.
  rewrite Hop, Hsize. rewrite (proj2 (Z.ltb_ge off 0)) by lia. cbn [orb Z.ltb Z.eqb Z.compare].
  rewrite (proj2 (Z.ltb_ge off 0)), (proj2 (Z.ltb_ge (zlen content) off)) by lia. cbn [orb].
  assert (∃ f1 env1, (if negb (fr_offset f =? off) then
      let '(f, env) := drop_reader (fr_setOffset off f) env in ((off, None), f, env) else ((off, None), f, env))
      = ((off, None : option error), f1, env1) ∧ cluster_ok (net env1) ∧ file_ok content f1 ∧ fr_offset f1 = off) as (f1 & env1 & -> & He1 & Hok1 & Ho1).
  { destruct (Z.eqb_spec (fr_offset f) off) as [Heq|Hneq]; cbn [negb]; [by exists f, env|].
    assert (fr_setReader None (fr_setOffset off f) = fst (drop_reader (fr_setOffset off f) env)) as Hd.
    { unfold drop_reader. simpl. destruct (fr_blockReader f) eqn:Eb; [done|]. unfold fr_setReader, fr_setOffset. simpl. by rewrite Eb. }
    destruct (drop_reader (fr_setOffset off f) env) as [f1 env1] eqn:E. simpl in Hd. subst f1. eexists _, env1. split; [done|]. split_and!; [|by split|done].
    apply (f_equal snd) in E. unfold drop_reader in E. simpl in E. destruct (fr_blockReader f) as [br|]; simpl in E; subst env1; [|done].
    destruct (br_conn br); simpl; [by apply Close_ok|done]. }
  destruct (readFull_file_spec content rounds Hr (Z.to_nat n) n f1 env1) as (f' & env' & -> & He' & Hok'); [done..|].
  exists f', env'. rewrite Ho1. split_and!; [|done..]. by destruct (n <=? zlen content - off).
Qed.

(** Reads at arbitrary offsets, one after the other. *)
Fixpoint read_all (rounds : nat) (reqs : list (Z * Z)) (f : FileReader) env : option (list (list byte * option error)) :=
  match reqs with
  | [] => Some []
  | (n, off) :: reqs =>
      match FileReader_ReadAt client rounds n off f env with
      | (Ok r, f, env) => cons r <$> read_all rounds reqs f env
      | _ => None
      end
  end.
End proofs.

(** ** A cluster for examples

    Every block holds the same few bytes. Of its three datanodes one refuses
    connections and one breaks off in the middle of a packet. *)
Module DemoCluster.
Definition text : list byte := bytes_of_string "hello, hdfs".
Definition size : Z := 16.
Definition packet (off seqno : Z) (last : bool) (data : list byte) : outboundPacket :=
  mkPacket seqno off last (checksums_of IEEETable size data) data.
Definition resp : BlockOpResponseProto := {|
  bo_Status := Status_SUCCESS; bo_Message := EmptyString; bo_ChecksumType := CHECKSUM_CRC32; bo_BytesPerChecksum := size;
  bo_ChunkOffset := 0; bo_Md5 := [] |}.
#[global] Instance resp_proto : Proto BlockOpResponseProto := {
  proto_Marshal _ := (bytes_of_string "response", None);
  proto_Unmarshal _ := (resp, None)
}.
#[global] Instance resp_spec : ProtoSpec BlockOpResponseProto.
Proof.
  refine {| proto_fits m := m = resp; proto_bytes _ := bytes_of_string "response" |}; [done|]. by intros m ->.
Defined.
Definition block : ExtendedBlockProto := mkExtendedBlock "pool" 1 1 11.
#[global] Instance op_proto : Proto OpReadBlockProto := {
  proto_Marshal op := (marshalUint64 [] (or_Offset op) ++ marshalUint64 [] (or_Len op), None);
  proto_Unmarshal b :=
    match '(off, b) ← unmarshalUint64Safe b; '(len, _) ← unmarshalUint64Safe b; Ok (off, len) with
    | Ok (off, len) => (mkOpReadBlock block EmptyString "client" off len, None)
    | _ => (mkOpReadBlock block EmptyString "client" 0 0, Some ErrUnexpectedEOF)
    end
}.
#[global] Instance op_spec : ProtoSpec OpReadBlockProto.
Proof.
  refine {| proto_fits op := is_u64 (or_Offset op) ∧ is_u64 (or_Len op) ∧ op = mkOpReadBlock block EmptyString "client" (or_Offset op) (or_Len op);
            proto_bytes op := marshalUint64 [] (or_Offset op) ++ marshalUint64 [] (or_Len op) |}; [done|].
  intros op (Ho & Hl & ->). cbn [proto_Unmarshal op_proto or_Offset or_Len].
  rewrite unmarshalUint64Safe_marshal by done. cbn [mbind result_bind].
  rewrite <- (app_nil_r (marshalUint64 [] (or_Len op))), unmarshalUint64Safe_marshal by done. done.
Defined.

Definition raw : list byte :=
  wire (packet 0 0 false (bytes_of_string "hello")) ++ wire (packet 5 1 false (bytes_of_string ", hdfs")) ++ wire (packet 11 2 true []).
Definition head : list byte := match makePrefixedMessage resp with Ok b => b | _ => [] end.
Definition works (a : string) : bool := String.eqb a "dn:1".
#[global] Instance demo_network : Network (list string) := {
  net_Dial a n := if String.eqb a "bad:1" then (inr (EMsg "connection refused"), n) else (inl (length n), n ++ [a]);
  net_Write _ _ n := (None, n);
  net_Reader id n :=
    if match n !! id with Some a => works a | None => false end then mkReader (head ++ raw) EOF
    else mkReader (take 50 (head ++ raw)) (EMsg "connection reset");
  net_SetDeadline _ _ n := (None, n);
  net_Close _ n := n;
  net_Now _ := 1
}.
#[global] Instance demo_names : StatusNames := λ _, "ERROR"%string.
#[global] Instance demo_growth : BufferGrowth := λ old new, drop (length new) old.
#[global] Instance demo_checksum : Proto OpBlockChecksumProto := {
  proto_Marshal _ := ([], None);
  proto_Unmarshal _ := (mkOpBlockChecksum block EmptyString, None)
}.
Definition env0 : Env (list string) := mkEnv [] ∅.
Definition node (host : string) : DatanodeIDProto := {| dn_IpAddr := host; dn_HostName := host; dn_XferPort := 1 |}.
Definition located_at (off : Z) : LocatedBlockProto := mkLocatedBlock block off [node "bad"; node "cut"; node "dn"] EmptyString.
#[global] Instance demo_namenode : Namenode (list string) := {
  nn_getFileInfo _ n := (inl (Some (mkFileStatus EmptyString 22 0x1a4 0 false)), n);
  nn_getBlockLocations _ _ _ n := (inl [located_at 0; located_at 11], n);
  nn_getListing _ _ n := (inl None, n);
  nn_wrapDatanodeDial _ n := (None, n)
}.
Lemma raw_stream : block_stream IEEETable size raw text.
Proof.
  assert (∀ off seqno last data, is_i64 off → is_i64 seqno → zlen data < 2 ^ 31 → packet_ok IEEETable size (packet off seqno last data)) as Hp
    by (intros; split_and!; done).
  change text with (bytes_of_string "hello" ++ bytes_of_string ", hdfs" ++ []). unfold raw.
  apply (block_stream_data IEEETable size (packet 0 0 false (bytes_of_string "hello"))); [by apply Hp|done|done|].
  apply (block_stream_data IEEETable size (packet 5 1 false (bytes_of_string ", hdfs"))); [by apply Hp|done|done|].
  rewrite <- (app_nil_r (wire _)). apply block_stream_last; [by apply Hp|done|done].
Qed.
Lemma demo_answers good b off : 0 <= off < zlen text →
  answers (λ _, text) good b off (if good then mkReader (head ++ raw) EOF else mkReader (take 50 (head ++ raw)) (EMsg "connection reset")).
Proof.
  intros Ho. change (zlen text) with 11 in Ho. exists (if good then [] else drop 50 (head ++ raw)), resp, head, raw.
  assert (bo_ChunkOffset resp = off - off mod bo_BytesPerChecksum resp) as Hc by (simpl; rewrite Z.mod_small by (unfold size; lia); lia).
  split.
  { destruct good; (split; [cbn [rd_rest]; by rewrite ?app_nil_r, ?take_drop|]); [by left|by right]. }
  split; [by intros ->|]. split; [by vm_compute|]. split; [done|]. split; [by vm_compute|]. split; [done|].
  intros _. exists IEEETable. split; [done|]. split; [by vm_compute|]. split; [exact Hc|exact raw_stream].
Qed.
#[global] Instance demo_cluster : ClusterSpec (list string).
Proof.
  refine {| cluster_ok _ := True; stored _ := text; good := works; request_ok b t c := b = block ∧ t = EmptyString ∧ c = "client" |}; try done.
  - intros [b t c o l] (E1 & E2 & E3) Ho Hl. simpl in E1, E2, E3. subst. split; [done|]. cbn [proto_bytes op_spec or_Offset or_Len].
    rewrite zlen_app. done.
  - intros a n _ Ha. exists (length n). simpl. destruct (String.eqb_spec a "bad:1") as [->|]; done.
  - intros a n id n' op b n'' _ Hd Ho Hs Hm Hw. simpl in Hd. destruct (String.eqb_spec a "bad:1"); [done|]. injection Hd as <- <-. injection Hw as <-.
    simpl. rewrite lookup_app_r, Nat.sub_diag by done. simpl.
    by apply demo_answers.
Defined.
End DemoCluster.

(** ** Files arrive *)

(** C14: A file of HDFS that is opened and read at any offsets, in any order,
    delivers exactly its bytes, and [EOF] with a read that goes past its end. The
    file is spread over blocks; of the datanodes of a block only one has to work,
    the others may refuse, answer with an error or break off at any byte of
    their answer with an error other than a clean close (a datanode that closes
    the connection is not failed over, see [clean_close_retried]), and the
    stream of a block may end before its buffer is empty. *)
Theorem hdfs_file_read {N : Type} `{ClusterSpec N} `{Proto OpBlockChecksumProto} `{StatusNames} `{BufferGrowth} (client : Client)
    (name : string) (content : list byte) (reqs : list (Z * Z)) (env : Env N) f env1 :
  cluster_ok (net env) → client_Open name env = (inl f, env1) → cluster_ok (net env1) →
  fi_IsDir (fr_info f) = false → fi_Size (fr_info f) = zlen content → zlen content < 2 ^ 62 →
  located client name content →
  Forall (λ '(n, off), 0 <= n ∧ 0 <= off <= zlen content) reqs →
  read_all client 2 reqs f env1 = Some (map (λ '(n, off),
    (take (Z.to_nat n) (drop (Z.to_nat off) content), if n <=? zlen content - off then None else Some EOF)) reqs).
Proof.
  intros He Ho He1 Hd Hs Hb Hl Hr.
  assert (file_ok client content f) as Hok.
  { unfold client_Open in Ho. destruct (getFileInfo name env) as [[info|e] e1]; [|done]. injection Ho as <- <-.
    split; simpl in *; try done; [|by left]. pose proof (zlen_nonneg content). lia. }
  clear He Ho. revert f env1 He1 Hd Hs Hok. induction Hr as [|[n off] reqs [Hn Hoff] _ IH]; intros f env1 He1 Hd Hs Hok; simpl; [done|].
  destruct (FileReader_ReadAt_spec client content 2 n off f env1) as (f' & env' & -> & He' & Hok'); [lia|done..|].
  rewrite IH; [done|done|apply Hok'|apply Hok'|done].
Qed.

Lemma hdfs_file_read_witness :
  ∃ f env1, client_Open "/f" DemoCluster.env0 = (inl f, env1)
    ∧ read_all (mkHdfsClient false "client") 2 [(22, 0); (8, 7); (5, 20)] f env1
      = Some [(bytes_of_string "hello, hdfshello, hdfs", None); (bytes_of_string "hdfshell", None); (bytes_of_string "fs", Some EOF)].
Proof.
  destruct (client_Open "/f" DemoCluster.env0) as [[f|e] env1] eqn:E; [|vm_compute in E; discriminate]. exists f, env1. split; [done|].
  pose proof (hdfs_file_read (mkHdfsClient false "client") "/f" (DemoCluster.text ++ DemoCluster.text) [(22, 0); (8, 7); (5, 20)]
    DemoCluster.env0 f env1) as H.
  rewrite H; [vm_compute; reflexivity|exact I|exact E|exact I|..];
    [vm_compute in E; injection E as <- _; reflexivity..|vm_compute; reflexivity| |].
  - intros n _. exists [DemoCluster.located_at 0; DemoCluster.located_at 11], n. split; [done|]. split; [done|].
    assert (∃ loc, loc ∈ [DemoCluster.node "bad"; DemoCluster.node "cut"; DemoCluster.node "dn"]
      ∧ DemoCluster.works (getDatanodeAddress loc false) = true) as Hloc.
    { exists (DemoCluster.node "dn"). split; [set_solver|by vm_compute]. }
    split_and!; [done..|exact Hloc|]. eexists. split; [reflexivity|]. split_and!; [done..|exact Hloc|]. exists []. done.
  - repeat constructor; vm_compute; discriminate.
Defined.

(** ** Where the code does less than it says *)
Module DemoFaults.
Import DemoCluster.
(** One packet whose checksum is wrong, and the end of the block. *)
Definition bad_packet : outboundPacket := mkPacket 0 0 false (marshalUint32 [] 1) text.
Definition bad_stream : blockReadStream :=
  newBlockReadStream (mkReader (wire bad_packet ++ wire (packet 11 1 true [])) EOF) size IEEETable.
Definition good_stream : blockReadStream :=
  newBlockReadStream (mkReader (wire (packet 0 0 false text) ++ wire (packet 11 1 true [])) EOF) size IEEETable.
(** The results of reads of the given sizes. *)
Fixpoint stream_reads (sizes : list Z) (s : blockReadStream) : list (result (list byte * option error)) :=
  match sizes with
  | [] => []
  | n :: sizes => let '(r, s) := stream_Read n s in r :: stream_reads sizes s
  end.
End DemoFaults.

(** A clean close is no failure: when the connection ends between two packets
    ([EOF]), [BlockReader.Read] reports the end of the block, whatever is left
    of it, and the datanode is not recorded among the failed ones. *)
Lemma clean_close_not_recorded {N : Type} `{Network N} `{Proto PacketHeaderProto} `{Proto OpReadBlockProto}
    `{Proto BlockOpResponseProto} `{StatusNames} `{BufferGrowth} n s s' br (env : Env N) :
  br_closed br = false → u64 (br_Offset br) < eb_NumBytes (lb_B (br_Block br)) → br_stream br = Some s →
  stream_Read n s = (Ok ([], Some EOF), s') →
  ∃ br', BlockReader_Read n br env = (Ok ([], Some EOF), br', env).
Proof.
  intros Hc Ho Hs Hr. unfold BlockReader_Read. rewrite Hc. destruct (Z.leb_spec (eb_NumBytes (lb_B (br_Block br))) (u64 (br_Offset br))); [lia|].
  cbn [read_retry br_stream br_setDatanodes]. rewrite Hs, Hr, bool_decide_eq_true_2 by done. by eexists.
Qed.

(** So a datanode that accepts the request and closes the connection without
    sending a packet is asked again and again, although another one works: the
    loop of [FileReader.Read] makes no progress. *)
Module DemoClose.
Import DemoCluster.
Definition network : Network (list string) := {|
  net_Dial a n := (inl (length n), n ++ [a]);
  net_Write _ _ n := (None, n);
  net_Reader id n :=
    if match n !! id with Some a => works a | None => false end then mkReader (head ++ raw) EOF else mkReader head EOF;
  net_SetDeadline _ _ n := (None, n);
  net_Close _ n := n;
  net_Now _ := 1
|}.
Definition attempts (rounds : nat) : result (list byte * option error) * list string :=
  match client_Open "/f" env0 with
  | (inl f, env) =>
      let '(r, _, env) := FileReader_Read (H := network) (mkHdfsClient false "client") rounds 22 f env in (r, net env)
  | _ => (Panic, [])
  end.
End DemoClose.

Example clean_close_retried :
  DemoClose.attempts 2 = (Panic, ["bad:1"; "bad:1"]%string) ∧ DemoClose.attempts 60 = (Panic, replicate 60 "bad:1"%string).
Proof. vm_compute. split; reflexivity. Qed.

(** What a stream returns together with an error other than [EOF] reaches the
    caller of [BlockReader.Read] without the error. *)
Lemma hdfs_corrupt_bytes_delivered {N : Type} `{Network N} `{Proto PacketHeaderProto} `{Proto OpReadBlockProto}
    `{Proto BlockOpResponseProto} `{StatusNames} `{BufferGrowth} n (b : list byte) e s s' br (env : Env N) :
  br_closed br = false → u64 (br_Offset br) < eb_NumBytes (lb_B (br_Block br)) → br_stream br = Some s →
  stream_Read n s = (Ok (b, Some e), s') → e ≠ EOF → b ≠ [] →
  ∃ br' env', BlockReader_Read n br env = (Ok (b, None), br', env').
Proof.
  intros Hc Ho Hs Hr He Hb. unfold BlockReader_Read. rewrite Hc. destruct (Z.leb_spec (eb_NumBytes (lb_B (br_Block br))) (u64 (br_Offset br))); [lia|].
  cbn [read_retry br_stream br_setDatanodes]. rewrite Hs, Hr, bool_decide_eq_false_2 by done.
  match goal with |- context [recordFailure ?x ?y ?z] => destruct (recordFailure x y z) as [df env'] end. destruct b as [|x b]; [done|]. rewrite (proj2 (Z.ltb_lt _ _)); [by eauto|rewrite zlen_cons; pose proof (zlen_nonneg b); lia].
Qed.

(** A wrong checksum is noticed by a read of at least a chunk. A shorter read
    drops the error and keeps the chunk in its buffer, and the next one hands it
    on: a reader that starts inside a chunk, which discards the bytes before its
    offset with such reads, delivers data whose checksum is wrong. *)
Theorem hdfs_corrupt_chunk_accepted :
  fst (stream_Read 16 DemoFaults.bad_stream) = Ok (DemoCluster.text, Some errInvalidChecksum)
  ∧ DemoFaults.stream_reads [5; 5; 6] DemoFaults.bad_stream
    = [Ok ([], None); Ok (bytes_of_string "hello", None); Ok (bytes_of_string ", hdfs", None)]
  ∧ ∃ s, discard 20 3 DemoFaults.bad_stream = (Ok None, s) ∧ fst (stream_Read 16 s) = Ok (bytes_of_string "lo, hdfs", None).
Proof. split; [|split]; [by vm_compute..|]. exists (snd (discard 20 3 DemoFaults.bad_stream)). split; by vm_compute. Qed.

(** A stream whose last bytes wait in the buffer when the last packet arrives
    reports the end of the block with bytes left: the file reader above it asks
    again. *)
Example stream_ends_early :
  DemoFaults.stream_reads [4; 4; 4] DemoFaults.good_stream
    = [Ok (bytes_of_string "hell", None); Ok (bytes_of_string "o, h", None); Ok ([], Some EOF)].
Proof. by vm_compute. Qed.

(** When no datanode is left the error of the last attempt is replaced, and where
    there was none, none is returned: a block without locations has an empty
    checksum. *)
Example checksum_without_datanodes :
  fst (fst (ReadChecksum (mkChecksumReader (mkLocatedBlock DemoCluster.block 0 [] EmptyString) false 0 None) DemoCluster.env0)) = Ok ([], None).
Proof. by vm_compute. Qed.
