(* ===== verification/HdfsWriter.v ===== *)
(** * Writing files to HDFS

    hdfs/intrnl/transfer/block_writer.go and hdfs/file_writer.go. A file is cut
    into blocks of a fixed size; each is written over a connection of its own,
    through a stream of [HdfsTransfer], and then reported to the namenode. *)
From stdpp Require Import base tactics option list strings gmap.
From Stdlib Require Import ZArith Lia.
From S2P Require Import Prelude GoOs SftpWire GoPath GoStrconv HdfsTransfer HdfsStream HdfsReader.

(** ** Messages and calls *)
Inductive Stage := PIPELINE_SETUP_APPEND | PIPELINE_SETUP_CREATE.
Record OpWriteBlockProto := mkOpWriteBlock {
  ow_Block : ExtendedBlockProto;
  ow_Token : string;
  ow_ClientName : string;
  ow_Targets : list DatanodeIDProto;
  ow_Stage : Stage;
  ow_PipelineSize : Z;
  ow_MinBytesRcvd : Z;
  ow_MaxBytesRcvd : Z;
  ow_LatestGenerationStamp : Z;
  ow_ChecksumType : Z;
  ow_BytesPerChecksum : Z
}.
(** What the namenode is asked for when a file is written. *)
Class NamenodeWrites (N : Type) := {
  nn_getServerDefaults : N → (Z * Z + error) * N;
  nn_create : string → Z → string → Z → Z → N → option error * N;
  nn_append : string → string → N → (Z * Z * option LocatedBlockProto + error) * N;
  nn_addBlock : string → string → option ExtendedBlockProto → N → (LocatedBlockProto + error) * N;
  nn_updateBlockForPipeline : ExtendedBlockProto → string → N → option error * N;
  nn_complete : string → string → option ExtendedBlockProto → N → option error * N
}.

(** A connection of which the first [skip] bytes that arrived were read. *)
#[global] Instance net_conn_after {N} `{Network N} (id skip : nat) : Conn N := {
  conn_Write := net_Write id;
  conn_Reader n := mkReader (drop skip (rd_rest (net_Reader id n))) (rd_fail (net_Reader id n))
}.

(** ** BlockWriter (block_writer.go) *)
Record BlockWriter := mkBlockWriter {
  bw_ClientName : string;
  bw_Block : LocatedBlockProto;
  bw_BlockSize : Z;
  bw_Offset : Z;
  bw_Append : bool;
  bw_UseDatanodeHostname : bool;
  bw_conn : option (nat * nat);
  bw_deadline : Z;
  bw_stream : option blockWriteStream;
  bw_closed : bool
}.
Definition bw_setOffset (o : Z) (bw : BlockWriter) : BlockWriter :=
  mkBlockWriter (bw_ClientName bw) (bw_Block bw) (bw_BlockSize bw) o (bw_Append bw) (bw_UseDatanodeHostname bw) (bw_conn bw)
    (bw_deadline bw) (bw_stream bw) (bw_closed bw).
Definition bw_setStream (s : blockWriteStream) (bw : BlockWriter) : BlockWriter :=
  mkBlockWriter (bw_ClientName bw) (bw_Block bw) (bw_BlockSize bw) (bw_Offset bw) (bw_Append bw) (bw_UseDatanodeHostname bw) (bw_conn bw)
    (bw_deadline bw) (Some s) (bw_closed bw).
Definition bw_setConn (c : nat * nat) (bw : BlockWriter) : BlockWriter :=
  mkBlockWriter (bw_ClientName bw) (bw_Block bw) (bw_BlockSize bw) (bw_Offset bw) (bw_Append bw) (bw_UseDatanodeHostname bw) (Some c)
    (bw_deadline bw) (bw_stream bw) (bw_closed bw).
Definition bw_setDeadline (t : Z) (bw : BlockWriter) : BlockWriter :=
  mkBlockWriter (bw_ClientName bw) (bw_Block bw) (bw_BlockSize bw) (bw_Offset bw) (bw_Append bw) (bw_UseDatanodeHostname bw) (bw_conn bw)
    t (bw_stream bw) (bw_closed bw).
Definition bw_setClosed (bw : BlockWriter) : BlockWriter :=
  mkBlockWriter (bw_ClientName bw) (bw_Block bw) (bw_BlockSize bw) (bw_Offset bw) (bw_Append bw) (bw_UseDatanodeHostname bw) (bw_conn bw)
    (bw_deadline bw) (bw_stream bw) true.
(** [lastBlock.NumBytes = ...], which changes the block the writer points to. *)
Definition bw_setNumBytes (n : Z) (bw : BlockWriter) : BlockWriter :=
  let b := lb_B (bw_Block bw) in
  mkBlockWriter (bw_ClientName bw)
    (mkLocatedBlock (mkExtendedBlock (eb_PoolId b) (eb_BlockId b) (eb_GenerationStamp b) n) (lb_Offset (bw_Block bw)) (lb_Locs (bw_Block bw))
       (lb_BlockToken (bw_Block bw)))
    (bw_BlockSize bw) (bw_Offset bw) (bw_Append bw) (bw_UseDatanodeHostname bw) (bw_conn bw) (bw_deadline bw) (bw_stream bw) (bw_closed bw).

Section writer.
Context {N : Type} `{Network N} `{Proto PacketHeaderProto} `{Proto PipelineAckProto} `{Proto OpWriteBlockProto}.
Context `{Proto BlockOpResponseProto} `{StatusNames}.
Implicit Types (bw : BlockWriter) (n : N).

Definition BlockWriter_SetDeadline (t : Z) bw n : option error * BlockWriter * N :=
  let bw := bw_setDeadline t bw in
  match bw_conn bw with
  | Some (id, _) => let '(err, n) := net_SetDeadline id t n in (err, bw, n)
  | None => (None, bw, n)
  end.

Definition currentPipeline bw : list DatanodeIDProto := lb_Locs (bw_Block bw).
Definition currentStage bw : Stage := if bw_Append bw then PIPELINE_SETUP_APPEND else PIPELINE_SETUP_CREATE.
Definition generationTimestamp bw : Z := if bw_Append bw then i64 (eb_GenerationStamp (lb_B (bw_Block bw))) else 0.

Definition write_op bw : OpWriteBlockProto :=
  let targets := drop 1 (currentPipeline bw) in
  mkOpWriteBlock (lb_B (bw_Block bw)) (lb_BlockToken (bw_Block bw)) (bw_ClientName bw) targets (currentStage bw) (u32 (zlen targets))
    (eb_NumBytes (lb_B (bw_Block bw))) (u64 (bw_Offset bw)) (u64 (generationTimestamp bw)) CHECKSUM_CRC32 outboundChunkSize.
Definition writeBlockWriteRequest bw (id : nat) n : result (option error * N) :=
  writeBlockOpRequest (H := net_conn id) writeBlockOp (write_op bw) n.

(** A block without locations has no first datanode. *)
Definition bw_connectNext bw n : result (option error) * BlockWriter * N :=
  match currentPipeline bw with
  | [] => (Panic, bw, n)
  | dn :: _ =>
      match net_Dial (getDatanodeAddress dn (bw_UseDatanodeHostname bw)) n with
      | (inr e, n) => (Ok (Some e), bw, n)
      | (inl id, n) =>
          match net_SetDeadline id (bw_deadline bw) n with
          | (Some e, n) => (Ok (Some e), bw, n)
          | (None, n) =>
              match writeBlockWriteRequest bw id n with
              | Ok (Some e, n) => (Ok (Some e), bw, n)
              | Ok (None, n) =>
                  match readPrefixedMessage (M := BlockOpResponseProto) (net_Reader id n) with
                  | (Ok resp, r) =>
                      if negb (bo_Status resp =? Status_SUCCESS) then
                        (Ok (Some (EMsg ("write failed: " +:+ Status_String (bo_Status resp) +:+ " (" +:+ bo_Message resp +:+ ")"))), bw, n)
                      else
                        let skip := (length (rd_rest (net_Reader id n)) - length (rd_rest r))%nat in
                        (Ok None, bw_setStream (newBlockWriteStream (bw_Offset bw)) (bw_setConn (id, skip) bw), n)
                  | (Err e, _) => (Ok (Some e), bw, n)
                  | (Panic, _) => (Panic, bw, n)
                  end
              | _ => (Panic, bw, n)
              end
          end
      end
  end.

(** [bw.stream.Write], on the connection of the stream. *)
Definition bw_streamWrite (b : list byte) bw n : result (Z * option error) * BlockWriter * N :=
  match bw_stream bw, bw_conn bw with
  | Some s, Some (id, skip) =>
      let '((k, err), s, n) := stream_Write (H := net_conn_after id skip) b s n in
      (Ok (k, err), bw_setOffset (i64 (bw_Offset bw + k)) (bw_setStream s bw), n)
  | _, _ => (Panic, bw, n)
  end.
Definition BlockWriter_Write (b : list byte) bw n : result (Z * option error) * BlockWriter * N :=
  if bw_BlockSize bw <=? bw_Offset bw then (Ok (0, Some ErrEndOfBlock), bw, n)
  else
    let blockFull := bw_BlockSize bw <? i64 (bw_Offset bw + zlen b) in
    let b := if blockFull then take (Z.to_nat (bw_BlockSize bw - bw_Offset bw)) b else b in
    let '(err, bw, n) := match bw_stream bw with None => bw_connectNext bw n | Some _ => (Ok None, bw, n) end in
    match err with
    | Ok None =>
        match bw_streamWrite b bw n with
        | (Ok (k, None), bw, n) => (Ok (k, if blockFull then Some ErrEndOfBlock else None), bw, n)
        | r => r
        end
    | Ok (Some e) => (Ok (0, Some e), bw, n)
    | _ => (Panic, bw, n)
    end.

Definition BlockWriter_Flush bw n : option error * BlockWriter * N :=
  match bw_stream bw, bw_conn bw with
  | Some s, Some (id, skip) =>
      let '(err, s, n) := flush (H := net_conn_after id skip) true s n in (err, bw_setStream s bw, n)
  | _, _ => (None, bw, n)
  end.

Definition BlockWriter_Close bw n : option error * BlockWriter * N :=
  let bw := bw_setClosed bw in
  match bw_stream bw, bw_conn bw with
  | Some s, Some (id, skip) =>
      let '(err, s, n) := finish (H := net_conn_after id skip) s n in (err, bw_setStream s bw, net_Close id n)
  | _, Some (id, _) => (None, bw, net_Close id n)
  | _, None => (None, bw, n)
  end.
End writer.

(** ** FileWriter (hdfs/file_writer.go) *)
Record FileWriter := mkFileWriter {
  fw_name : string;
  fw_replication : Z;
  fw_blockSize : Z;
  fw_blockWriter : option BlockWriter;
  fw_deadline : Z;
  fw_closed : bool
}.
Definition fw_setWriter (bw : option BlockWriter) (f : FileWriter) : FileWriter :=
  mkFileWriter (fw_name f) (fw_replication f) (fw_blockSize f) bw (fw_deadline f) (fw_closed f).
Definition fw_setDeadline (t : Z) (f : FileWriter) : FileWriter :=
  mkFileWriter (fw_name f) (fw_replication f) (fw_blockSize f) (fw_blockWriter f) t (fw_closed f).

Section files.
Context {N : Type} `{Network N} `{Namenode N} `{NamenodeWrites N} `{Proto PacketHeaderProto} `{Proto PipelineAckProto}.
Context `{Proto OpWriteBlockProto} `{Proto BlockOpResponseProto} `{StatusNames} (client : Client).
Implicit Types (f : FileWriter) (n : N).

Definition FileWriter_SetDeadline (t : Z) f n : option error * FileWriter * N :=
  let f := fw_setDeadline t f in
  match fw_blockWriter f with
  | Some bw => let '(err, bw, n) := BlockWriter_SetDeadline t bw n in (err, fw_setWriter (Some bw) f, n)
  | None => (None, f, n)
  end.

Definition CreateFile (name : string) (replication blockSize perm : Z) n : (FileWriter + error) * N :=
  match nn_create name (u32 perm) (c_ClientName client) (u32 replication) (u64 blockSize) n with
  | (Some e, n) => (inr (path_error name (interpretException e)), n)
  | (None, n) => (inl (mkFileWriter name replication blockSize None 0 false), n)
  end.
Definition client_Create (name : string) n : (FileWriter + error) * N :=
  match getFileInfo name (mkEnv n ∅) with
  | (inl _, env) => (inr (EPathError name EEXIST), net env)
  | (inr e, env) =>
      let e := interpretException e in
      if negb (os_IsNotExist (Some e)) then (inr (path_error name e), net env)
      else
        match nn_getServerDefaults (net env) with
        | (inl (replication, blockSize), n) => CreateFile name replication (i64 blockSize) 0x1a4 n
        | (inr e, n) => (inr e, n)
        end
  end.
Definition client_Append (name : string) n : (FileWriter + error) * N :=
  match getFileInfo name (mkEnv n ∅) with
  | (inr e, env) => (inr (path_error name (interpretException e)), net env)
  | (inl _, env) =>
      match nn_append name (c_ClientName client) (net env) with
      | (inr e, n) => (inr (path_error name (interpretException e)), n)
      | (inl (replication, blockSize, None), n) => (inl (mkFileWriter name replication (i64 blockSize) None 0 false), n)
      | (inl (replication, blockSize, Some block), n) =>
          match nn_wrapDatanodeDial (lb_BlockToken block) n with
          | (Some e, n) => (inr e, n)
          | (None, n) =>
              let bw := mkBlockWriter (c_ClientName client) block (i64 blockSize) (i64 (eb_NumBytes (lb_B block))) true
                          (c_UseDatanodeHostname client) None 0 None false in
              let '(err, bw, n) := BlockWriter_SetDeadline 0 bw n in
              match err with
              | Some e => (inr e, n)
              | None => (inl (mkFileWriter name replication (i64 blockSize) (Some bw) 0 false), n)
              end
          end
      end
  end.

(** The block is reported with the bytes that were written to it. *)
Definition finalizeBlock f n : option error * FileWriter * N :=
  match fw_blockWriter f with
  | None => (None, f, n)
  | Some bw =>
      match BlockWriter_Close bw n with
      | (Some e, bw, n) => (Some e, fw_setWriter (Some bw) f, n)
      | (None, bw, n) =>
          let bw := bw_setNumBytes (u64 (bw_Offset bw)) bw in
          match nn_updateBlockForPipeline (lb_B (bw_Block bw)) (c_ClientName client) n with
          | (Some e, n) => (Some e, fw_setWriter (Some bw) f, n)
          | (None, n) => (None, fw_setWriter None f, n)
          end
      end
  end.
(** The block that the call of addBlock names as the previous one is the very
    block that [finalizeBlock] gave its length. *)
Definition previous_block f : option ExtendedBlockProto :=
  (λ bw, lb_B (bw_Block (bw_setNumBytes (u64 (bw_Offset bw)) bw))) <$> fw_blockWriter f.
Definition startNewBlock f n : option error * FileWriter * N :=
  let previous := previous_block f in
  match finalizeBlock f n with
  | (Some e, f, n) => (Some e, f, n)
  | (None, f, n) =>
      match nn_addBlock (fw_name f) (c_ClientName client) previous n with
      | (inr e, n) => (Some (path_error (fw_name f) (interpretException e)), f, n)
      | (inl block, n) =>
          match nn_wrapDatanodeDial (lb_BlockToken block) n with
          | (Some e, n) => (Some e, f, n)
          | (None, n) =>
              let bw := mkBlockWriter (c_ClientName client) block (fw_blockSize f) 0 false (c_UseDatanodeHostname client) None 0 None false in
              let '(err, bw, n) := BlockWriter_SetDeadline (fw_deadline f) bw n in
              (err, fw_setWriter (Some bw) f, n)
          end
      end
  end.

(** A turn writes at least one byte, or starts a new block. *)
Fixpoint write_loop (fuel : nat) (b : list byte) (off : Z) f n : result (Z * option error) * FileWriter * N :=
  if zlen b <=? 0 then (Ok (off, None), f, n)
  else
    match fuel, fw_blockWriter f with
    | S fuel, Some bw =>
        match BlockWriter_Write b bw n with
        | (Ok (k, err), bw, n) =>
            let f := fw_setWriter (Some bw) f in
            let '(err, f, n) := if bool_decide (err = Some ErrEndOfBlock) then startNewBlock f n else (err, f, n) in
            match err with
            | Some e => (Ok (off + k, Some e), f, n)
            | None => write_loop fuel (drop (Z.to_nat k) b) (off + k) f n
            end
        | (_, bw, n) => (Panic, fw_setWriter (Some bw) f, n)
        end
    | _, _ => (Panic, f, n)
    end.
Definition FileWriter_Write (b : list byte) f n : result (Z * option error) * FileWriter * N :=
  if fw_closed f then (Ok (0, Some ErrClosedPipe), f, n)
  else
    let '(err, f, n) := match fw_blockWriter f with None => startNewBlock f n | Some _ => (None, f, n) end in
    match err with
    | Some e => (Ok (0, Some e), f, n)
    | None => write_loop (2 * length b) b 0 f n
    end.

Definition FileWriter_Flush f n : option error * FileWriter * N :=
  if fw_closed f then (Some ErrClosedPipe, f, n)
  else
    match fw_blockWriter f with
    | Some bw => let '(err, bw, n) := BlockWriter_Flush bw n in (err, fw_setWriter (Some bw) f, n)
    | None => (None, f, n)
    end.

(** [closed] is never set. *)
Definition FileWriter_Close f n : option error * FileWriter * N :=
  if fw_closed f then (Some ErrClosedPipe, f, n)
  else
    let lastBlock := previous_block f in
    match finalizeBlock f n with
    | (Some e, f, n) => (Some e, f, n)
    | (None, f, n) =>
        match nn_complete (fw_name f) (c_ClientName client) lastBlock n with
        | (Some e, n) => (Some (path_error (fw_name f) e), f, n)
        | (None, n) => (None, f, n)
        end
    end.
(** [CreateEmptyFile] *)
Definition CreateEmptyFile (name : string) n : option error * N :=
  match client_Create name n with
  | (inr e, n) => (Some e, n)
  | (inl f, n) => let '(err, _, n) := FileWriter_Close f n in (err, n)
  end.
End files.

(** ** The cluster, as far as writing needs it

    [sent] is what was written to a connection, also after it was closed; while
    it is [live] writes succeed. [reported] are the lengths of blocks the namenode
    was told. A datanode answers the request and acknowledges every packet once it
    has taken the last one. *)
Definition request_bytes `{Proto OpWriteBlockProto} (op : OpWriteBlockProto) (req : list byte) : Prop :=
  ∃ b, makePrefixedMessage op = Ok b ∧ req = [byte_of_Z 0; byte_of_Z dataTransferVersion; byte_of_Z writeBlockOp] ++ b.

Class WriteSpec (N : Type) `{Network N} `{Namenode N} `{NamenodeWrites N} `{HeaderSpec} `{Proto PipelineAckProto}
    `{ProtoSpec OpWriteBlockProto} `{ProtoSpec BlockOpResponseProto} := {
  opened : nat → N → Prop;
  live : nat → N → Prop;
  sent : nat → N → list byte;
  reported : N → list Z;
  accepts : string → Prop;
  (** a client, and its request to write a block, can be encoded *)
  client_fits : string → Prop;
  request_fits : LocatedBlockProto → string → Prop;
  response : nat → BlockOpResponseProto;
  response_ok id : proto_fits (response id) ∧ 4 <= zlen (proto_bytes (response id)) < 2 ^ 31 ∧ bo_Status (response id) = Status_SUCCESS;
  wop_fits bw : request_fits (bw_Block bw) (bw_ClientName bw) → proto_fits (write_op bw) ∧ zlen (proto_bytes (write_op bw)) < 2 ^ 31;
  wDial a n : accepts a → ∃ id n', net_Dial a n = (inl id, n') ∧ ¬ opened id n ∧ opened id n' ∧ live id n' ∧ sent id n' = []
    ∧ (∀ j, opened j n → opened j n' ∧ sent j n' = sent j n) ∧ reported n' = reported n;
  wDeadline id t n : live id n → ∃ n', net_SetDeadline id t n = (None, n') ∧ live id n'
    ∧ (∀ j, opened j n → opened j n' ∧ sent j n' = sent j n) ∧ reported n' = reported n;
  wWrite id b n : live id n → ∃ n', net_Write id b n = (None, n') ∧ live id n' ∧ sent id n' = sent id n ++ b
    ∧ (∀ j, opened j n → opened j n' ∧ (j ≠ id → sent j n' = sent j n)) ∧ reported n' = reported n;
  wClose id n : (∀ j, opened j n → opened j (net_Close id n) ∧ sent j (net_Close id n) = sent j n) ∧ reported (net_Close id n) = reported n;
  wReader id n op req pkts : live id n → request_bytes op req → sent id n = req ++ pkts →
    ∃ head acks, makePrefixedMessage (response id) = Ok head ∧ rd_rest (net_Reader id n) = head ++ acks
      ∧ ∀ data k, receives pkts (mkReceived [] 1 false) (mkReceived data (k + 1) true) →
          ∃ al r, reads (mkReader acks (rd_fail (net_Reader id n))) al r ∧ Forall ack_success al ∧ acked_seqnos al = seqZ 1 k;
  wAddBlock name client host prev n : client_fits client → ∃ block dn rest n', nn_addBlock name client prev n = (inl block, n')
    ∧ lb_Locs block = dn :: rest ∧ accepts (getDatanodeAddress dn host) ∧ request_fits block client
    ∧ (∀ j, opened j n → opened j n' ∧ sent j n' = sent j n) ∧ reported n' = reported n;
  wWrapDial token n : ∃ n', nn_wrapDatanodeDial token n = (None, n')
    ∧ (∀ j, opened j n → opened j n' ∧ sent j n' = sent j n) ∧ reported n' = reported n;
  wUpdate b client n : ∃ n', nn_updateBlockForPipeline b client n = (None, n')
    ∧ (∀ j, opened j n → opened j n' ∧ sent j n' = sent j n) ∧ reported n' = reported n ++ [eb_NumBytes b];
  wComplete name client last n : ∃ n', nn_complete name client last n = (None, n')
    ∧ (∀ j, opened j n → opened j n' ∧ sent j n' = sent j n) ∧ reported n' = reported n
}.

Section proofs.
Context {N : Type} `{WriteSpec N} `{StatusNames}.
Implicit Types (bw : BlockWriter) (n : N).

(** Nothing was written to the connections there were, but for one. *)
Definition keeps (P : nat → Prop) n n' : Prop :=
  (∀ j, opened j n → opened j n' ∧ (P j → sent j n' = sent j n)) ∧ reported n' = reported n.

Lemma keeps_trans P n1 n2 n3 : keeps P n1 n2 → keeps P n2 n3 → keeps P n1 n3.
Proof.
  intros [H12 R12] [H23 R23]. split; [|congruence]. intros j Hj. destruct (H12 j Hj) as [Hj2 E2]. destruct (H23 j Hj2) as [Hj3 E3].
  split; [done|]. intros HP. rewrite E3, E2; done.
Qed.
Lemma keeps_all P n n' : (∀ j, opened j n → opened j n' ∧ sent j n' = sent j n) → reported n' = reported n → keeps P n n'.
Proof. intros Hk Hr. split; [|done]. intros j Hj. destruct (Hk j Hj). auto. Qed.

Lemma keeps_weaken (P Q : nat → Prop) n n' : keeps P n n' → (∀ j, opened j n → Q j → P j) → keeps Q n n'.
Proof. intros [Hk Hr] HQ. split; [|done]. intros j Hj. destruct (Hk j Hj). split; auto. Qed.

(** The connection of a block, and what it leaves alone since [n0]. *)
Instance net_conn_spec (id skip : nat) n0 : @ConnSpec N (net_conn_after id skip).
Proof.
  refine (@Build_ConnSpec N (net_conn_after id skip) (λ n, live id n ∧ keeps (λ j, j ≠ id) n0 n) (sent id) _).
  intros b n [Hl Hk]. destruct (wWrite id b n Hl) as (n' & E & Hl' & Hs & Hj & Hr). exists n'. split; [done|]. split; [|done].
  split; [done|]. by eapply keeps_trans; [|split].
Defined.

Definition head_of (id : nat) : list byte := match makePrefixedMessage (response id) with Ok b => b | _ => [] end.

(** The writer of a block that was given [data]. *)
Record block_open bw (data : list byte) n : Prop := {
  bo_offset : bw_Offset bw = zlen data;
  bo_size : zlen data <= bw_BlockSize bw < 2 ^ 61;
  bo_fits : request_fits (bw_Block bw) (bw_ClientName bw);
  bo_pipeline : ∃ dn rest, lb_Locs (bw_Block bw) = dn :: rest ∧ accepts (getDatanodeAddress dn (bw_UseDatanodeHostname bw));
  bo_conn : match bw_stream bw with
    | None => data = [] ∧ bw_conn bw = None
    | Some s => ∃ id req op st, bw_conn bw = Some (id, length (head_of id)) ∧ opened id n ∧ request_bytes op req
        ∧ ws_closed s = false
        ∧ @sending N (net_conn_after id (length (head_of id))) (net_conn_spec id (length (head_of id)) n) _ req [] data s n st
    end
}.
(** A connection over which a whole block was taken by a datanode. *)
Definition block_stored n (x : nat * list byte) : Prop :=
  opened (fst x) n ∧ ∃ op req pkts k, request_bytes op req ∧ sent (fst x) n = req ++ pkts
    ∧ receives pkts (mkReceived [] 1 false) (mkReceived (snd x) (k + 1) true).
(** What an operation on the writer of a block does not change. *)
Definition same_block bw bw' : Prop :=
  bw_BlockSize bw' = bw_BlockSize bw ∧ bw_Block bw' = bw_Block bw ∧ bw_ClientName bw' = bw_ClientName bw
  ∧ bw_UseDatanodeHostname bw' = bw_UseDatanodeHostname bw.
(** The connection an open writer writes to. *)
Definition is_conn bw (j : nat) : Prop := fst <$> bw_conn bw = Some j.

Lemma bw_connect_ok bw n : block_open bw [] n → bw_stream bw = None →
  ∃ bw' n', bw_connectNext bw n = (Ok None, bw', n') ∧ block_open bw' [] n' ∧ is_Some (bw_stream bw') ∧ same_block bw bw'
    ∧ keeps (λ _, True) n n' ∧ (∀ j, is_conn bw' j → ¬ opened j n).
Proof.
  intros [Ho Hsz Hfit (dn & rest & Hl & Ha) Hc] Hs. unfold bw_connectNext, currentPipeline. rewrite Hl.
  destruct (wDial _ n Ha) as (id & n1 & -> & Hnew & Hop1 & Hl1 & Hs1 & Hk1 & Hr1).
  destruct (wDeadline id (bw_deadline bw) n1 Hl1) as (n2 & -> & Hl2 & Hk2 & Hr2).
  destruct (wop_fits bw Hfit) as [Hf Hlen]. destruct (makePrefixed_ok _ Hf) as (l & Em & _ & _); [lia|].
  unfold writeBlockWriteRequest, writeBlockOpRequest. rewrite Em. set (req := _ ++ (l ++ _)). cbn [conn_Write net_conn].
  destruct (wWrite id req n2 Hl2) as (n3 & -> & Hl3 & Hs3 & Hk3 & Hr3).
  destruct (Hk2 id Hop1) as [Hop2 Hs2]. rewrite Hs2, Hs1 in Hs3. simpl in Hs3.
  assert (request_bytes (write_op bw) req) as Hreq by by eexists.
  destruct (wReader id n3 (write_op bw) req [] Hl3 Hreq) as (head & acks & Hh & Hrd & _); [by rewrite app_nil_r|].
  destruct (response_ok id) as (Hrf & Hrl & Hst). destruct (net_Reader id n3) as [rest3 e3]. simpl in Hrd. subst rest3.
  rewrite (readPrefixed_make (response id) head) by (done || lia). rewrite Hst. cbn [negb Z.eqb rd_rest].
  assert (length (head ++ acks) - length acks = length (head_of id))%nat as Hskip by (unfold head_of; rewrite Hh, length_app; lia).
  rewrite Hskip. eexists _, n3. split; [done|].
  assert (opened id n3) as Hop3 by by apply Hk3. split; [|split; [by eexists|split; [done|split]]].
  - split; simpl; [done|done|done|by eauto|]. exists id, req, (write_op bw), (mkReceived [] 1 false). split_and!; [done..|].
    rewrite Ho, <- Hs3. 
    apply (sending_start (C := N) (H0 := net_conn_spec id (length (head_of id)) n3) n3 []); [|done]. split; [done|]. by apply keeps_all.
  - split; [|congruence]. intros j Hj. destruct (Hk1 j Hj) as [Hj1 E1]. destruct (Hk2 j Hj1) as [Hj2 E2]. destruct (Hk3 j Hj2) as [Hj3 E3].
    split; [done|]. intros _. rewrite E3, E2, E1; [done|]. by intros ->.
  - intros j [= <-]. done.
Qed.
Abbreviation sending_on id n0 := (@sending N (net_conn_after id (length (head_of id))) (net_conn_spec id (length (head_of id)) n0) _).

Lemma keeps_refl P n : keeps P n n.
Proof. by split. Qed.
Lemma sending_kept id n0 req old data s n st : sending_on id n0 req old data s n st →
  live id n ∧ keeps (λ j, j ≠ id) n0 n ∧ sending_on id n req old data s n st.
Proof.
  intros Hs. destruct (sg_open _ _ _ _ _ _ Hs) as [Hl Hk]. split; [done|]. split; [done|].
  destruct Hs as [_ Ha Hr Hd Hdata Ho Hq Hn Hp]. by split; try done.
Qed.

Lemma bw_streamWrite_ok b bw data n : block_open bw data n → is_Some (bw_stream bw) → zlen (data ++ b) <= bw_BlockSize bw →
  ∃ bw' n', bw_streamWrite b bw n = (Ok (zlen b, None), bw', n') ∧ block_open bw' (data ++ b) n' ∧ is_Some (bw_stream bw')
    ∧ same_block bw bw' ∧ bw_conn bw' = bw_conn bw ∧ keeps (λ j, ¬ is_conn bw j) n n'.
Proof.
  intros [Ho Hsz Hfit Hpipe Hc] [s Es] Hlen. unfold bw_streamWrite. rewrite Es in *.
  destruct Hc as (id & req & op & st & Ec & Hop & Hreq & Hcl & Hs). rewrite Ec.
  unfold stream_Write. rewrite Hcl. unfold getAckError. rewrite (sg_live _ _ _ _ _ _ Hs).
  destruct (flush_ok (C := N) (H0 := net_conn_spec id (length (head_of id)) n) req [] (data ++ b) (length (ws_buf s ++ b)))
    with false (ws_setBuf (ws_buf s ++ b) s) n st as (s' & n' & st' & E & Hs' & Hcl' & _); [simpl; lia|by apply sending_write|done|].
  unfold flush. cbn [ws_buf ws_setBuf] in *. rewrite E. destruct (sending_kept _ _ _ _ _ _ _ _ Hs') as (Hl' & Hk' & Hs2).
  eexists _, n'. split; [done|]. rewrite zlen_app in Hlen.
  split; [|split; [by eexists|split; [done|split; [done|]]]].
  - split; simpl; [rewrite zlen_app, Ho; apply i64_id; unfold is_i64; zlia|rewrite zlen_app; lia|done|done|].
    exists id, req, op, st'. split_and!; [done|by apply Hk'|done|by rewrite Hcl'|done].
  - destruct Hk' as [Hk' Hr']. split; [|done]. intros j Hj. destruct (Hk' j Hj) as [? Hj']. split; [done|]. intros Hnc. apply Hj'. intros ->.
    apply Hnc. unfold is_conn. by rewrite Ec.
Qed.

(** A write to a block with room: as much as fits, and the end of the block is
    reported when that is not all. *)
Lemma BlockWriter_Write_ok b bw data n : block_open bw data n → zlen data < bw_BlockSize bw → zlen b < 2 ^ 62 →
  let room := bw_BlockSize bw - zlen data in
  ∃ bw' n', BlockWriter_Write b bw n
      = (Ok (Z.min (zlen b) room, if room <? zlen b then Some ErrEndOfBlock else None), bw', n')
    ∧ block_open bw' (data ++ take (Z.to_nat room) b) n' ∧ is_Some (bw_stream bw') ∧ same_block bw bw'
    ∧ keeps (λ j, ¬ is_conn bw' j) n n' ∧ (∀ j, is_conn bw' j → is_conn bw j ∨ ¬ opened j n).
Proof.
  intros Hb Hlt Hbl room. pose proof Hb as [Ho Hsz Hfit Hpipe Hc]. unfold BlockWriter_Write. rewrite Ho.
  rewrite (proj2 (Z.leb_gt _ _)) by lia. rewrite i64_id by (unfold is_i64; zlia).
  replace (bw_BlockSize bw <? zlen data + zlen b) with (room <? zlen b)
    by (unfold room; destruct (Z.ltb_spec (bw_BlockSize bw - zlen data) (zlen b)), (Z.ltb_spec (bw_BlockSize bw) (zlen data + zlen b)); lia).
  fold room. set (b' := if room <? zlen b then _ else b).
  assert (b' = take (Z.to_nat room) b) as Hb'.
  { unfold b'. destruct (Z.ltb_spec room (zlen b)); [done|]. rewrite take_ge; [done|]. unfold zlen in *; lia. }
  assert (zlen b' = Z.min (zlen b) room) as Hlb'.
  { rewrite Hb'. unfold zlen in *. rewrite length_take. lia. }
  assert (∃ bw1 n1, match bw_stream bw with None => bw_connectNext bw n | Some _ => (Ok None, bw, n) end = (Ok None, bw1, n1)
    ∧ block_open bw1 data n1 ∧ is_Some (bw_stream bw1) ∧ same_block bw bw1 ∧ keeps (λ _, True) n n1
    ∧ (∀ j, is_conn bw1 j → is_conn bw j ∨ ¬ opened j n)) as (bw1 & n1 & -> & Hb1 & Hs1 & Hsame1 & Hk1 & Hc1).
  { destruct (bw_stream bw) as [s|] eqn:Es.
    - exists bw, n. split_and!; try done; auto.
    - destruct Hc as [-> Hnc]. destruct (bw_connect_ok bw n Hb Es) as (bw1 & n1 & -> & ? & ? & ? & ? & ?). exists bw1, n1. by split_and!; auto. }
  assert (bw_BlockSize bw1 = bw_BlockSize bw) as Hbs by apply Hsame1.
  destruct (bw_streamWrite_ok b' bw1 data n1 Hb1 Hs1) as (bw2 & n2 & -> & Hb2 & Hs2 & Hsame2 & Hcn2 & Hk2); [rewrite zlen_app, Hbs; lia|].
  exists bw2, n2. rewrite Hlb', <- Hb'. split_and!; try done.
  - destruct Hsame1 as (? & ? & ? & ?), Hsame2 as (? & ? & ? & ?). by split_and!; congruence.
  - eapply keeps_trans; [by eapply keeps_weaken|]. unfold is_conn in *. by rewrite Hcn2.
  - intros j Hj. apply Hc1. unfold is_conn in *. by rewrite <- Hcn2.
Qed.
(** Closing a block that was written to leaves it with the datanode. *)
Lemma BlockWriter_Close_ok bw data n : block_open bw data n → is_Some (bw_stream bw) →
  ∃ id bw' n', BlockWriter_Close bw n = (None, bw', n') ∧ is_conn bw id ∧ opened id n ∧ block_stored n' (id, data)
    ∧ bw_Offset bw' = bw_Offset bw ∧ keeps (λ j, j ≠ id) n n'.
Proof.
  intros [Ho Hsz Hfit Hpipe Hc] [s Es]. unfold BlockWriter_Close. cbn [bw_stream bw_conn bw_setClosed]. rewrite Es in *.
  destruct Hc as (id & req & op & st & Ec & Hop & Hreq & Hcl & Hs). rewrite Ec.
  destruct (finish_ok (C := N) (H0 := net_conn_spec id (length (head_of id)) n) req [] data s n st Hs Hcl)
    as (s' & n1 & pkts & k & Ef & [Hl1 Hk1] & Hsent & Hr & Hp); [simpl; lia|]. cbn [conn_sent net_conn_spec] in Hsent.
  destruct (wReader id n1 op req pkts Hl1 Hreq Hsent) as (head & acks & Hh & Hrd & Hacks).
  destruct (Hacks data k Hr) as (al & r & Hreads & Hsucc & Hseq).
  assert (ackPackets (ws_packets s') (conn_Reader (Conn := net_conn_after id (length (head_of id))) n1) = None) as Hack.
  { apply ackPackets_spec.
    - apply Forall_forall. intros p Hin. assert (pk_seqno p ∈ seqZ 1 k) as Hz by (rewrite <- Hp; by apply list_elem_of_fmap_2).
      apply elem_of_seqZ in Hz. unfold heartbeatSeqno. lia.
    - exists al, r. rewrite Hp. cbn [conn_Reader net_conn_after]. unfold head_of. rewrite Hh, Hrd, drop_app_length. done. }
  rewrite Ef, Hack. destruct (wClose id n1) as [Hk2 Hr2]. destruct Hk1 as [Hk1 Hr1].
  exists id. do 2 eexists. split; [done|]. split; [unfold is_conn; by rewrite Ec|]. split; [done|]. split; [|split; [done|]].
  - destruct (Hk1 id Hop) as [Hop1 _]. destruct (Hk2 id Hop1) as [Hop2 Hs2]. split; [done|]. exists op, req, pkts, k. simpl. by rewrite Hs2.
  - eapply keeps_trans; [by split|]. by apply keeps_all.
Qed.
Lemma block_stored_keeps P n n' x : keeps P n n' → P (fst x) → block_stored n x → block_stored n' x.
Proof.
  intros [Hk _] HP [Hop Hx]. destruct (Hk _ Hop) as [Hop' Hs]. split; [done|]. by rewrite Hs.
Qed.
Lemma conn_opened bw data n j : block_open bw data n → is_conn bw j → opened j n.
Proof.
  intros [_ _ _ _ Hc] Hj. unfold is_conn in Hj. destruct (bw_stream bw) as [s|].
  - destruct Hc as (id & req & op & st & Ec & Hop & _). rewrite Ec in Hj. by injection Hj as <-.
  - destruct Hc as [_ Ec]. by rewrite Ec in Hj.
Qed.

(** ** Writing a file *)
Context (client : Client) (Hclient : client_fits (c_ClientName client)).

(** The blocks [done] are finished, the current one has [data]. *)
Record writing (base : list Z) (f : FileWriter) (done : list (nat * list byte)) (data : list byte) n : Prop := {
  wr_open : fw_closed f = false;
  wr_size : 0 < fw_blockSize f < 2 ^ 61;
  wr_done : Forall (block_stored n) done;
  wr_nodup : NoDup (map fst done);
  wr_full : Forall (λ x, zlen (snd x) = fw_blockSize f) done;
  wr_reported : reported n = base ++ map (λ x, zlen (snd x)) done;
  wr_writer : match fw_blockWriter f with
    | None => done = [] ∧ data = []
    | Some bw => block_open bw data n ∧ bw_BlockSize bw = fw_blockSize f ∧ (∀ j, is_conn bw j → j ∉ map fst done)
    end
}.

Lemma finalizeBlock_ok base f done data n : writing base f done data n → data ≠ [] →
  ∃ id n', finalizeBlock client f n = (None, fw_setWriter None f, n') ∧ Forall (block_stored n') (done ++ [(id, data)])
    ∧ NoDup (map fst (done ++ [(id, data)])) ∧ reported n' = base ++ map (λ x, zlen (snd x)) (done ++ [(id, data)]).
Proof.
  intros [Hop Hsz Hd Hnd Hfull Hrep Hw] Hne. unfold finalizeBlock. destruct (fw_blockWriter f) as [bw|]; [|by destruct Hw].
  destruct Hw as (Hb & Hbs & Hfresh). pose proof Hb as [Ho Hszd _ _ Hc].
  assert (is_Some (bw_stream bw)) as Hst by (destruct (bw_stream bw); [by eexists|by destruct Hc]).
  destruct (BlockWriter_Close_ok bw data n Hb Hst) as (id & bw' & n1 & -> & Hid & Hop1 & Hstored & Ho' & Hk1).
  destruct (wUpdate (lb_B (bw_Block (bw_setNumBytes (u64 (bw_Offset bw')) bw'))) (c_ClientName client) n1) as (n2 & -> & Hk2 & Hr2).
  assert (∀ x, block_stored n1 x → block_stored n2 x) as Hst2.
  { intros x Hx. destruct Hx as [Hox Hx]. destruct (Hk2 _ Hox) as [Hox2 Hs2]. split; [done|]. by rewrite Hs2. }
  exists id, n2. split; [done|]. split_and!.
  - apply Forall_app. split; [|by repeat constructor; apply Hst2].
    apply Forall_forall. intros x Hx. apply Hst2. eapply block_stored_keeps; [done| |by eapply Forall_forall in Hd].
    simpl. intros Heq. apply (Hfresh id Hid). rewrite <- Heq. by apply list_elem_of_fmap_2.
  - rewrite map_app. apply NoDup_app. split_and!; [done| |by repeat constructor; apply not_elem_of_nil].
    intros j Hj Hj'. simpl in Hj'. apply list_elem_of_singleton in Hj' as ->. by apply (Hfresh id).
  - rewrite Hr2. destruct Hk1 as [_ Hr1]. rewrite Hr1, Hrep, map_app, <- app_assoc. simpl. do 2 f_equal.
    rewrite Ho', Ho, u64_id; [done|]. unfold is_u64. zlia.
Qed.

(** The block that is asked for next. *)
Lemma next_block_ok base f done n : fw_closed f = false → 0 < fw_blockSize f < 2 ^ 61 → Forall (block_stored n) done →
  NoDup (map fst done) → Forall (λ x, zlen (snd x) = fw_blockSize f) done → reported n = base ++ map (λ x, zlen (snd x)) done →
  ∀ prev, ∃ block n1 n2 bw, nn_addBlock (fw_name f) (c_ClientName client) prev n = (inl block, n1)
    ∧ nn_wrapDatanodeDial (lb_BlockToken block) n1 = (None, n2)
    ∧ BlockWriter_SetDeadline (fw_deadline f) (mkBlockWriter (c_ClientName client) block (fw_blockSize f) 0 false
        (c_UseDatanodeHostname client) None 0 None false) n2 = (None, bw, n2)
    ∧ writing base (fw_setWriter (Some bw) f) done [] n2.
Proof.
  intros Hop Hsz Hd Hnd Hfull Hrep prev.
  destruct (wAddBlock (fw_name f) (c_ClientName client) (c_UseDatanodeHostname client) prev n Hclient)
    as (block & dn & rest & n1 & E1 & Hl & Ha & Hfit & Hk1 & Hr1).
  destruct (wWrapDial (lb_BlockToken block) n1) as (n2 & E2 & Hk2 & Hr2).
  exists block, n1, n2. eexists. split; [done|]. split; [done|]. split; [done|]. split; simpl; try done.
  - apply Forall_forall. intros x Hx. eapply (block_stored_keeps (λ _, True)); [by apply keeps_all|done|].
    eapply (block_stored_keeps (λ _, True)); [by apply keeps_all|done|]. by eapply Forall_forall in Hd.
  - congruence.
  - split; [|done]. split; simpl; [done|change (zlen []) with 0; lia|done|by eauto|done].
Qed.

Lemma startNewBlock_ok base f done data n : writing base f done data n → data ≠ [] → zlen data = fw_blockSize f →
  ∃ id f' n', startNewBlock client f n = (None, f', n') ∧ writing base f' (done ++ [(id, data)]) [] n'
    ∧ fw_blockSize f' = fw_blockSize f ∧ is_Some (fw_blockWriter f').
Proof.
  intros Hw Hne Hlen. unfold startNewBlock.
  destruct (finalizeBlock_ok base f done data n Hw Hne) as (id & n1 & -> & Hst & Hnd & Hrep).
  destruct Hw as [Hop Hsz Hd _ Hfull _ _].
  destruct (next_block_ok base (fw_setWriter None f) (done ++ [(id, data)]) n1) with (previous_block f)
    as (block & n2 & n3 & bw & -> & -> & E & Hw'); [done|done|done|done|by apply Forall_app; split; [|repeat constructor]|done|].
  cbn [fw_deadline fw_blockSize fw_setWriter] in *. rewrite E. exists id. do 2 eexists. split; [done|]. split; [done|]. by split; [|eexists].
Qed.
Lemma startNewBlock_first base f n : writing base f [] [] n → fw_blockWriter f = None →
  ∃ f' n', startNewBlock client f n = (None, f', n') ∧ writing base f' [] [] n' ∧ fw_blockSize f' = fw_blockSize f ∧ is_Some (fw_blockWriter f').
Proof.
  intros Hw Hnone. unfold startNewBlock, finalizeBlock, previous_block. rewrite Hnone. destruct Hw as [Hop Hsz Hd Hnd Hfull Hrep _].
  destruct (next_block_ok base f [] n Hop Hsz Hd Hnd Hfull Hrep None) as (block & n2 & n3 & bw & E1 & E2 & E3 & Hw').
  cbn [fmap option_fmap option_map]. rewrite E1, E2, E3. do 2 eexists. split; [done|]. split; [done|]. by split; [|eexists].
Qed.
(** All that was written so far. *)
Definition written (done : list (nat * list byte)) (data : list byte) : list byte := concat (map snd done) ++ data.

Lemma writing_more base f bw done data n bw' data' n' : writing base f done data n → fw_blockWriter f = Some bw →
  block_open bw' data' n' → same_block bw bw' → keeps (λ j, ¬ is_conn bw' j) n n' → (∀ j, is_conn bw' j → is_conn bw j ∨ ¬ opened j n) →
  writing base (fw_setWriter (Some bw') f) done data' n'.
Proof.
  intros [Hop Hsz Hd Hnd Hfull Hrep Hw] Eb Hb' Hsame Hk Hc. rewrite Eb in Hw. destruct Hw as (Hb & Hbs & Hfresh).
  assert (∀ j, is_conn bw' j → j ∉ map fst done) as Hfresh'.
  { intros j Hj Hin. destruct (Hc j Hj) as [Hj'|Hn]; [by apply (Hfresh j)|]. apply Hn.
    apply list_elem_of_fmap in Hin as (x & -> & Hx). rewrite Forall_forall in Hd. by apply Hd in Hx as [? _]. }
  split; try done.
  - apply Forall_forall. intros x Hx. eapply block_stored_keeps; [done| |by eapply Forall_forall in Hd].
    simpl. intros Hj. apply (Hfresh' _ Hj). by apply list_elem_of_fmap_2.
  - destruct Hk as [_ ->]. done.
  - simpl. split; [done|]. split; [|done]. destruct Hsame as [-> _]. done.
Qed.

Lemma write_loop_ok base fuel : ∀ b off f done data n, writing base f done data n → is_Some (fw_blockWriter f) → zlen b < 2 ^ 62 →
  (length b + (if decide (zlen data = fw_blockSize f) then 1 else 0) <= fuel)%nat →
  ∃ f' n' done' data', write_loop client fuel b off f n = (Ok (off + zlen b, None), f', n') ∧ writing base f' done' data' n'
    ∧ is_Some (fw_blockWriter f') ∧ written done' data' = written done data ++ b ∧ (b ≠ [] → data' ≠ []) ∧ (b = [] → data' = data)
    ∧ fw_blockSize f' = fw_blockSize f.
Proof.
  induction fuel as [|fuel IH]; intros b off f done data n Hw Hbw Hlb Hf; cbn [write_loop];
    (destruct (Z.leb_spec (zlen b) 0) as [H0'|H0'];
     [apply zlen_nil_inv in H0' as ->; exists f, n, done, data; rewrite Z.add_0_r, app_nil_r; by split_and!|]).
  { unfold zlen in H0'. lia. }
  destruct Hbw as [bw Eb]. rewrite Eb. pose proof (wr_writer _ _ _ _ _ Hw) as Hwr. rewrite Eb in Hwr. destruct Hwr as (Hb & Hbs & Hfresh).
  pose proof (wr_size _ _ _ _ _ Hw) as Hsz. pose proof Hb as [Ho Hszd _ _ _].
  assert (b ≠ []) as Hbne by by intros ->.
  destruct (decide (zlen data = fw_blockSize f)) as [Hfull|Hnf].
  - unfold BlockWriter_Write. rewrite Ho, Hfull, Hbs. rewrite (proj2 (Z.leb_le _ _)) by lia. rewrite bool_decide_true by done.
    assert (fw_setWriter (Some bw) f = f) as -> by (destruct f; simpl in *; by subst).
    assert (data ≠ []) as Hdne by (intros ->; change (zlen []) with 0 in Hfull; lia).
    destruct (startNewBlock_ok base f done data n Hw Hdne Hfull) as (id & f1 & n1 & -> & Hw1 & Hs1 & Hb1). rewrite Z.add_0_r.
    destruct (IH b off f1 (done ++ [(id, data)]) [] n1 Hw1 Hb1 Hlb) as (f' & n' & done' & data' & E & Hw' & Hb' & Hwr & Hne & Hnil & Hsz').
    { rewrite decide_False by (rewrite Hs1; change (zlen []) with 0; lia). lia. }
    change (drop (Z.to_nat 0) b) with b. exists f', n', done', data'. split_and!; try done; [|congruence].
    rewrite Hwr. unfold written. rewrite map_app, concat_app. simpl. by rewrite !app_nil_r.
  - destruct (BlockWriter_Write_ok b bw data n Hb) as (bw' & n1 & -> & Hb1 & Hst1 & Hsame & Hk1 & Hc1); [lia|lia|].
    rewrite Hbs in *. set (room := fw_blockSize f - zlen data) in *.
    pose proof (writing_more base f bw done data n bw' _ n1 Hw Eb Hb1 Hsame Hk1 Hc1) as Hw1.
    destruct (Z.ltb_spec room (zlen b)) as [Hlt|Hge].
    + rewrite bool_decide_true by done. rewrite Z.min_r by lia.
      assert (zlen (take (Z.to_nat room) b) = room) as Htk by (apply zlen_take; lia).
      destruct (startNewBlock_ok base _ done _ n1 Hw1) as (id & f2 & n2 & -> & Hw2 & Hs2 & Hb2).
      { intros Hnil. apply (f_equal zlen) in Hnil. rewrite zlen_app, Htk in Hnil. change (zlen []) with 0 in Hnil. zlia. }
      { rewrite zlen_app, Htk. simpl. lia. }
      destruct (IH (drop (Z.to_nat room) b) (off + room) f2 _ [] n2 Hw2 Hb2) as (f' & n' & done' & data' & E & Hw' & Hb' & Hwr & Hne & Hnil & Hsz').
      { rewrite zlen_drop by lia. lia. }
      { rewrite decide_False by (rewrite Hs2; simpl; change (zlen []) with 0; lia). rewrite length_drop. unfold zlen in *. lia. }
      exists f', n', done', data'. rewrite E, zlen_drop by lia. split_and!; try done; [do 4 f_equal; lia| | |by rewrite Hsz', Hs2].
      * rewrite Hwr. unfold written. rewrite map_app, concat_app. simpl. rewrite !app_nil_r, <- !app_assoc. by rewrite take_drop.
      * intros _. apply Hne. intros Hd. apply (f_equal zlen) in Hd. rewrite zlen_drop in Hd by lia. change (zlen []) with 0 in Hd. lia.
    + rewrite bool_decide_false by done. rewrite Z.min_l by lia.
      assert (take (Z.to_nat room) b = b) as Htk by (apply take_ge; unfold zlen in *; lia). rewrite Htk in Hw1.
      assert (drop (Z.to_nat (zlen b)) b = []) as -> by (apply drop_ge; unfold zlen; lia).
      assert (write_loop client fuel [] (off + zlen b) (fw_setWriter (Some bw') f) n1 = (Ok (off + zlen b, None), fw_setWriter (Some bw') f, n1)) as ->
        by by destruct fuel.
      exists (fw_setWriter (Some bw') f), n1, done, (data ++ b). split_and!; try done.
      * unfold written. by rewrite app_assoc.
      * intros _ Hnil. apply app_eq_nil in Hnil as [_ Hnil]. done.
Qed.

(** One write, of any length, over as many blocks as it needs. *)
Lemma FileWriter_Write_ok base b f done data n : writing base f done data n → b ≠ [] → zlen b < 2 ^ 62 →
  ∃ f' n' done' data', FileWriter_Write client b f n = (Ok (zlen b, None), f', n') ∧ writing base f' done' data' n'
    ∧ written done' data' = written done data ++ b ∧ data' ≠ [] ∧ fw_blockSize f' = fw_blockSize f.
Proof.
  intros Hw Hb Hlb. unfold FileWriter_Write. rewrite (wr_open _ _ _ _ _ Hw).
  assert (∃ f1 n1, match fw_blockWriter f with None => startNewBlock client f n | Some _ => (None, f, n) end = (None, f1, n1)
    ∧ writing base f1 done data n1 ∧ is_Some (fw_blockWriter f1) ∧ fw_blockSize f1 = fw_blockSize f) as (f1 & n1 & -> & Hw1 & Hb1 & Hs1).
  { destruct (fw_blockWriter f) as [bw|] eqn:Eb; [by exists f, n; split_and!; rewrite ?Eb; eauto|].
    pose proof (wr_writer _ _ _ _ _ Hw) as Hwr. rewrite Eb in Hwr. destruct Hwr as [-> ->].
    destruct (startNewBlock_first base f n Hw Eb) as (f1 & n1 & -> & Hw1 & Hs1 & Hb1). by exists f1, n1. }
  destruct (write_loop_ok base (2 * length b) b 0 f1 done data n1 Hw1 Hb1 Hlb) as (f' & n' & done' & data' & -> & Hw' & _ & Hwr & Hne & _ & Hs').
  { destruct b; [done|]. case_decide; simpl; lia. }
  exists f', n', done', data'. rewrite Z.add_0_l. split_and!; auto; congruence.
Qed.

Fixpoint write_all (bs : list (list byte)) (f : FileWriter) n : option error * FileWriter * N :=
  match bs with
  | [] => (None, f, n)
  | b :: bs =>
      match FileWriter_Write client b f n with
      | (Ok (_, None), f, n) => write_all bs f n
      | (Ok (_, Some e), f, n) => (Some e, f, n)
      | (_, f, n) => (Some (EMsg "panic"), f, n)
      end
  end.
Lemma write_all_ok base bs : Forall (λ b, b ≠ [] ∧ zlen b < 2 ^ 62) bs → ∀ f done data n, writing base f done data n →
  ∃ f' n' done' data', write_all bs f n = (None, f', n') ∧ writing base f' done' data' n'
    ∧ written done' data' = written done data ++ concat bs ∧ fw_blockSize f' = fw_blockSize f
    ∧ (bs ≠ [] → data' ≠ []) ∧ (bs = [] → f' = f ∧ n' = n ∧ done' = done ∧ data' = data).
Proof.
  induction 1 as [|b bs [Hb Hlb] _ IH]; intros f done data n Hw; simpl.
  { exists f, n, done, data. rewrite app_nil_r. by split_and!. }
  destruct (FileWriter_Write_ok base b f done data n Hw Hb Hlb) as (f1 & n1 & done1 & data1 & -> & Hw1 & Hwr1 & Hne1 & Hs1).
  destruct (IH f1 done1 data1 n1 Hw1) as (f' & n' & done' & data' & -> & Hw' & Hwr & Hs' & Hne & Hnil).
  exists f', n', done', data'. split_and!; try done; [by rewrite Hwr, Hwr1, <- app_assoc|congruence|].
  intros _. destruct bs; [|by apply Hne]. by destruct Hnil as (_ & _ & _ & ->).
Qed.
End proofs.

(** The lengths of the blocks of a file: all but the last are full. *)
Fixpoint blocks_cut (size : Z) (l : list (list byte)) : Prop :=
  match l with
  | [] => True
  | [b] => 0 < zlen b <= size
  | b :: l => zlen b = size ∧ blocks_cut size l
  end.
Lemma blocks_cut_snoc size l b : Forall (λ x, zlen x = size) l → 0 < zlen b <= size → blocks_cut size (l ++ [b]).
Proof. induction 1 as [|x l Hx Hl IH]; intros Hb; [done|]. simpl. specialize (IH Hb). by destruct l. Qed.

(** ** A cluster for examples *)
Lemma split_packet_shorter `{Proto PacketHeaderProto} b h sums data rest : split_packet b = Some (h, sums, data, rest) →
  (length rest < length b)%nat.
Proof.
  unfold split_packet. destruct b as [|b0 [|b1 [|b2 [|b3 b]]]]; [done..|]. rewrite unmarshalUint32_cons.
  destruct (ReadFull (mkReader b EOF) 2) as [[lb e1] r1] eqn:E1. destruct (ReadFull r1 (Uint16 lb)) as [[hb e2] r2] eqn:E2.
  destruct e1; [done|]. destruct e2; [done|]. destruct (proto_Unmarshal hb) as [h' [?|]]; [done|].
  destruct (ReadFull r2 (_ - 4 - DataLen h')) as [[sb e3] r3] eqn:E3. destruct (ReadFull r3 (DataLen h')) as [[db e4] r4] eqn:E4.
  destruct e3; [done|]. destruct e4; [done|]. intros E. simplify_eq.
  apply ReadFull_inv in E1 as (E1 & _), E2 as (E2 & _), E3 as (E3 & _), E4 as (E4 & _). simpl in E1.
  rewrite E1, E2, E3, E4. simpl. rewrite !length_app. lia.
Qed.
(** A datanode does not take more packets than it gets bytes. *)
Lemma receives_count `{Proto PacketHeaderProto} b st st' : receives b st st' → rv_next st' <= rv_next st + Z.of_nat (length b).
Proof.
  induction 1 as [|b h sums data rest st st1 st2 Hs Hp _ IH]; [lia|]. apply split_packet_shorter in Hs.
  unfold receive_packet in Hp. repeat case_match; simplify_eq; simpl in *; lia.
Qed.

Module DemoWrites.
Record cluster := mkCluster { conns : list (list byte); lengths : list Z }.
Definition ack (seqno : Z) : PipelineAckProto := {| ack_Seqno := seqno; ack_Reply := [0; 0; 0] |}.
Definition ack_stream (k : Z) : list byte := concat (map DemoWire.ack_message (seqZ 1 k)).
(** As many acks as there can be packets. *)
Definition ack_count (l : list byte) : Z := Z.min (zlen l) (2 ^ 63 - 1).
#[global] Instance writes_network : Network cluster := {
  net_Dial a n := (inl (length (conns n)), mkCluster (conns n ++ [[]]) (lengths n));
  net_Write id b n := (None, mkCluster (alter (λ l, l ++ b) id (conns n)) (lengths n));
  net_Reader id n := mkReader (DemoCluster.head ++ ack_stream (ack_count (default [] (conns n !! id)))) EOF;
  net_SetDeadline _ _ n := (None, n);
  net_Close _ n := n;
  net_Now _ := 1
}.
Definition block : LocatedBlockProto := mkLocatedBlock DemoCluster.block 0 [DemoCluster.node "dn"] EmptyString.
#[global] Instance writes_namenode : Namenode cluster := {
  nn_getFileInfo _ n := (inl None, n);
  nn_getBlockLocations _ _ _ n := (inl [], n);
  nn_getListing _ _ n := (inl None, n);
  nn_wrapDatanodeDial _ n := (None, n)
}.
#[global] Instance demo_writes : NamenodeWrites cluster := {
  nn_getServerDefaults n := (inl (3, 134217728), n);
  nn_create _ _ _ _ _ n := (None, n);
  nn_append _ _ n := (inl (3, 134217728, None), n);
  nn_addBlock _ _ _ n := (inl block, n);
  nn_updateBlockForPipeline b _ n := (None, mkCluster (conns n) (lengths n ++ [eb_NumBytes b]));
  nn_complete _ _ _ n := (None, n)
}.
Definition op_at (off : Z) (append : bool) : OpWriteBlockProto :=
  write_op (mkBlockWriter "client" block 0 off append false None 0 None false).
#[global] Instance write_op_proto : Proto OpWriteBlockProto := {
  proto_Marshal op := (marshalUint64 [] (ow_MaxBytesRcvd op)
                       ++ [byte_of_Z (match ow_Stage op with PIPELINE_SETUP_APPEND => 1 | _ => 0 end)], None);
  proto_Unmarshal b :=
    match unmarshalUint64Safe b with
    | Ok (off, b) => (op_at off (bool_decide (b = [byte_of_Z 1])), None)
    | _ => (op_at 0 false, Some ErrUnexpectedEOF)
    end
}.
#[global] Instance write_op_spec : ProtoSpec OpWriteBlockProto.
Proof.
  refine {| proto_fits op := ∃ bw, bw_Block bw = block ∧ bw_ClientName bw = "client"%string ∧ op = write_op bw;
            proto_bytes op := fst (proto_Marshal op) |}; [done|].
  intros op (bw & Hb & Hc & ->). cbn [proto_Unmarshal proto_Marshal write_op_proto fst]. cbn [write_op ow_MaxBytesRcvd].
  rewrite unmarshalUint64Safe_marshal by auto with goint. f_equal. unfold op_at, write_op, currentPipeline, currentStage, generationTimestamp.
  rewrite Hb, Hc. simpl. destruct (bw_Append bw); simpl; by rewrite (u64_id (u64 _)) by auto with goint.
Defined.

Lemma seqno_i64 b h sums data rest : split_packet b = Some (h, sums, data, rest) → is_i64 (Seqno h).
Proof.
  unfold split_packet. destruct (unmarshalUint32 b) as [[total b']| |]; [|done..].
  destruct (ReadFull _ 2) as [[lb e1] r1]. destruct (ReadFull r1 _) as [[hb e2] r2]. destruct e1; [done|]. destruct e2; [done|].
  destruct (proto_Unmarshal hb) as [h' [?|]] eqn:Eh; [done|].
  destruct (ReadFull r2 _) as [[sb e3] r3]. destruct (ReadFull r3 _) as [[db e4] r4].
  destruct e3; [done|]. destruct e4; [done|]. intros E. simplify_eq. cbn [proto_Unmarshal DemoWire.header_proto] in Eh.
  destruct (DemoWire.read_header hb) as [h'| |] eqn:Er; simplify_eq. unfold DemoWire.read_header in Er.
  apply result_bind_ok in Er as ([o b1] & _ & Er). apply result_bind_ok in Er as ([q b2] & _ & Er).
  apply result_bind_ok in Er as ([l b3] & _ & [= <-]). apply i64_range.
Qed.
Lemma receives_bound b st st' : receives b st st' → rv_next st <= 2 ^ 63 → rv_next st' <= 2 ^ 63.
Proof.
  induction 1 as [|b h sums data rest st st1 st2 Hs Hp _ IH]; [done|]. intros Hn. apply IH. apply seqno_i64 in Hs as [_ Hs].
  unfold receive_packet in Hp. destruct (Seqno h =? heartbeatSeqno); [by case_match; simplify_eq|].
  destruct (Z.eqb_spec (Seqno h) (rv_next st)) as [Heq|]; [|by rewrite andb_false_r in Hp].
  case_match; [|done]. injection Hp as <-. simpl. lia.
Qed.

Lemma ack_stream_reads k m e : 0 <= k <= m → m < 2 ^ 63 →
  ∃ al r, reads (mkReader (ack_stream m) e) al r ∧ Forall ack_success al ∧ acked_seqnos al = seqZ 1 k.
Proof.
  intros Hk Hm. assert (∀ l rest, Forall (λ s, 1 <= s < 2 ^ 63) l →
    reads (mkReader (concat (map DemoWire.ack_message l) ++ rest) e) (map ack l) (mkReader rest e)) as Hr.
  { induction l as [|s l IH]; intros rest Hl; cbn [map concat]; [constructor|]. apply Forall_cons in Hl as [Hs Hl].
    assert (proto_fits (ack s)) as Hf by (split; [unfold is_i64; simpl; lia|by repeat constructor]).
    eapply reads_ack; [|by apply IH]. rewrite <- app_assoc. apply (readPrefixed_make (ack s)); [done|done|].
    unfold DemoWire.ack_message. fold (ack s). destruct (makePrefixed_ok (ack s) Hf) as (l' & -> & _); done. }
  exists (map ack (seqZ 1 k)). unfold ack_stream.
  replace (seqZ 1 m) with (seqZ 1 k ++ seqZ (1 + k) (m - k)) by (rewrite <- seqZ_app by lia; f_equal; lia).
  rewrite map_app, concat_app. eexists. split; [apply Hr; apply Forall_forall; intros x Hx; apply elem_of_seqZ in Hx; lia|].
  split; [apply Forall_forall; intros x Hx; apply list_elem_of_fmap in Hx as (s & -> & _); by repeat constructor|].
  unfold acked_seqnos. rewrite map_map. simpl. rewrite map_id.
  assert (Forall (λ x, x ≠ heartbeatSeqno) (seqZ 1 k)) as Hall
    by (apply Forall_forall; intros x Hx; apply elem_of_seqZ in Hx; unfold heartbeatSeqno; lia).
  induction Hall as [|x l Hx _ IH]; [done|]. by rewrite filter_cons_True, IH.
Qed.

#[global] Instance demo_spec : WriteSpec cluster.
Proof.
  refine {| opened j n := (j < length (conns n))%nat; live j n := (j < length (conns n))%nat; sent j n := default [] (conns n !! j);
            reported := lengths; accepts _ := True; client_fits c := c = "client"%string; request_fits b c := b = block ∧ c = "client"%string; response _ := DemoCluster.resp |}; simpl.
  - done.
  - intros bw [Hb Hc]. split; [by exists bw|]. done.
  - intros a n _. eexists _, _. split; [done|]. simpl. rewrite length_app. simpl.
    rewrite lookup_app_r, Nat.sub_diag by done. split_and!; [lia|lia|lia|done| |done].
    intros j Hj. split; [lia|]. by rewrite lookup_app_l.
  - intros id t n Hl. by eexists.
  - intros id b n Hl. eexists. split; [done|]. simpl. rewrite length_alter. split; [done|].
    destruct (lookup_lt_is_Some_2 _ _ Hl) as [x Hx]. rewrite list_lookup_alter_eq, Hx. simpl. split; [done|]. split; [|done].
    intros j Hj. split; [done|]. intros Hne. by rewrite list_lookup_alter_ne.
  - done.
  - intros id n op req pkts Hl (b & Hm & Hreq) Hs. exists DemoCluster.head, (ack_stream (ack_count (default [] (conns n !! id)))).
    split; [by vm_compute|]. split; [done|]. intros data k Hr. rewrite Hs.
    pose proof (receives_count _ _ _ Hr) as Hc. pose proof (receives_bound _ _ _ Hr) as Hb. simpl in Hc, Hb.
    destruct (Z.le_gt_cases 0 k) as [Hk|Hk].
    + apply ack_stream_reads; unfold ack_count; [|lia]. rewrite zlen_app. unfold zlen at 1 2. lia.
    + exists [], (mkReader (ack_stream (ack_count (req ++ pkts))) EOF). split_and!; [constructor|constructor|].
      rewrite seqZ_nil by lia. done.
  - intros name client host prev n ->. by exists block, (DemoCluster.node "dn"), [], n.
  - intros token n. by exists n.
  - intros b client n. by eexists.
  - intros name client last n. by exists n.
Defined.
Definition client : Client := mkHdfsClient false "client".
End DemoWrites.

(** ** Files are stored *)

(** C15: Whatever pieces a new file of HDFS is written in, all writes succeed on
    a cluster that works, and after [Close] the bytes of the file lie on
    datanodes: each block went over a connection of its own, was taken there
    packet by packet ([receives]) and was acknowledged; together the blocks are
    what was written, all but the last have the block size, and the namenode was
    told the length of each, in order. *)
Theorem hdfs_file_written {N : Type} `{WriteSpec N} `{StatusNames} (client : Client) (name : string) (replication size perm : Z)
    (bs : list (list byte)) (n : N) f n1 :
  client_fits (c_ClientName client) → CreateFile client name replication size perm n = (inl f, n1) → 0 < size < 2 ^ 61 →
  Forall (λ b, b ≠ [] ∧ zlen b < 2 ^ 62) bs →
  ∃ f2 n2 f3 n3 blocks,
    write_all client bs f n1 = (None, f2, n2) ∧ FileWriter_Close client f2 n2 = (None, f3, n3)
    ∧ concat (map snd blocks) = concat bs ∧ NoDup (map fst blocks) ∧ Forall (block_stored n3) blocks
    ∧ blocks_cut size (map snd blocks) ∧ reported n3 = reported n1 ++ map (λ x, zlen (snd x)) blocks.
Proof.
  intros Hfits Hc Hsize Hbs.
  assert (writing (reported n1) f [] [] n1 ∧ fw_blockSize f = size) as [Hw Hs].
  { unfold CreateFile in Hc. destruct (nn_create _ _ _ _ _ n) as [[e|] n']; [done|]. injection Hc as <- <-.
    split; [|done]. split; simpl; try done; [by constructor|by rewrite app_nil_r]. }
  destruct (write_all_ok client Hfits (reported n1) bs Hbs f [] [] n1 Hw) as (f2 & n2 & done2 & data & E & Hw2 & Hwr & Hs2 & Hne & Hnil).
  unfold written in Hwr. simpl in Hwr. unfold FileWriter_Close. destruct bs as [|b bs].
  - destruct (Hnil eq_refl) as (-> & -> & -> & ->). exists f, n1. destruct Hw2 as [Hop _ _ _ _ Hrep Hwr2].
    assert (fw_blockWriter f = None) as Hnone.
    { unfold CreateFile in Hc. destruct (nn_create _ _ _ _ _ n) as [[e|] n']; [done|]. by injection Hc as <- <-. }
    rewrite Hop. unfold finalizeBlock. rewrite Hnone.
    destruct (wComplete (fw_name f) (c_ClientName client) (previous_block f) n1) as (n3 & -> & _ & Hr3).
    exists f, n3, []. split_and!; try done; [apply NoDup_nil_2|by rewrite Hr3, app_nil_r].
  - assert (data ≠ []) as Hdne by by apply Hne.
    destruct (finalizeBlock_ok client _ f2 done2 data n2 Hw2 Hdne) as (id & n3 & Ef & Hst & Hnd & Hrep).
    destruct (wComplete (fw_name f2) (c_ClientName client) (previous_block f2) n3) as (n4 & Ec & Hk4 & Hr4).
    exists f2, n2, (fw_setWriter None f2), n4, (done2 ++ [(id, data)]). rewrite E, (wr_open _ _ _ _ _ Hw2), Ef. cbn [fw_name fw_setWriter]. rewrite Ec.
    split_and!; try done.
    + rewrite map_app, concat_app. simpl. by rewrite app_nil_r.
    + apply Forall_forall. intros x Hx. eapply (block_stored_keeps (λ _, True)); [by apply keeps_all|done|].
      rewrite Forall_forall in Hst. by apply Hst.
    + rewrite map_app. pose proof (wr_full _ _ _ _ _ Hw2) as Hfull. apply blocks_cut_snoc.
      * rewrite <- Hs, <- Hs2. by apply Forall_map.
      * pose proof (wr_writer _ _ _ _ _ Hw2) as Hb. destruct (fw_blockWriter f2) as [bw|]; [|by destruct Hb].
        destruct Hb as ([_ Hsz _ _ _] & Hbs2 & _). assert (0 < zlen data) by (destruct data; [done|]; rewrite zlen_cons; zlia). simpl. lia.
    + by rewrite Hr4.
Qed.

Lemma hdfs_file_written_witness :
  ∃ f n1 f2 n2 f3 n3 blocks,
    CreateFile DemoWrites.client "/f" 3 8 0x1a4 (DemoWrites.mkCluster [] []) = (inl f, n1)
    ∧ write_all DemoWrites.client [bytes_of_string "hello, "; bytes_of_string "world of hdfs"] f n1 = (None, f2, n2)
    ∧ FileWriter_Close DemoWrites.client f2 n2 = (None, f3, n3) ∧ concat (map snd blocks) = bytes_of_string "hello, world of hdfs"
    ∧ Forall (block_stored n3) blocks ∧ map (λ x, zlen (snd x)) blocks = [8; 8; 4].
Proof.
  destruct (CreateFile DemoWrites.client "/f" 3 8 0x1a4 (DemoWrites.mkCluster [] [])) as [[f|e] n1] eqn:E; [|vm_compute in E; discriminate].
  destruct (hdfs_file_written DemoWrites.client "/f" 3 8 0x1a4 [bytes_of_string "hello, "; bytes_of_string "world of hdfs"]
    (DemoWrites.mkCluster [] []) f n1) as (f2 & n2 & f3 & n3 & blocks & E2 & E3 & Hc & _ & Hst & _ & Hr);
    [reflexivity|exact E|lia|repeat constructor; vm_compute; discriminate|].
  exists f, n1, f2, n2, f3, n3, blocks. split; [reflexivity|]. split; [exact E2|]. split; [exact E3|]. split; [exact Hc|]. split; [exact Hst|].
  vm_compute in E. injection E as <- <-. vm_compute in E2. injection E2 as <- <-. vm_compute in E3. injection E3 as _ <-. exact (eq_sym Hr).
Defined.
