(* ===== verification/HdfsRpc.v ===== *)
(** * Calls to the namenode (hdfs/intrnl/rpc)

    rpc.go, transport.go and namenode.go: packets of prefixed messages, the plain
    transport and [NamenodeConnection] with its list of namenodes, as they are
    used without Kerberos (the server never configures it). Messages are those
    of [Proto]; the network is that of [HdfsReader]. *)
From stdpp Require Import base tactics option list strings gmap pretty.
From Stdlib Require Import ZArith Lia.
From S2P Require Import Prelude.
From S2P Require Import GoOs.
From S2P Require Import SftpWire.
From S2P Require Import HdfsTransfer.
From S2P Require Import HdfsReader.

(** ** Packets (rpc.go)

    A message of any type. *)
Inductive message : Type := | Msg (M : Type) (HP : Proto M) (m : M).
Arguments Msg {M HP} m.

Definition rpc_errInvalidResponse : error := EMsg "invalid response from namenode".

(** Ten bytes hold every length. *)
Definition rpc_makePrefixedMessage (msg : message) : result (list byte) :=
  let '@Msg M HP m := msg in
  match proto_Marshal m with
  | (_, Some e) => Err e
  | (msgBytes, None) => lengthBytes ← PutUvarint 10 (u64 (zlen msgBytes)); Ok (lengthBytes ++ msgBytes)
  end.
Fixpoint append_messages (packet : list byte) (msgs : list message) : result (list byte) :=
  match msgs with
  | [] => Ok packet
  | msg :: msgs => b ← rpc_makePrefixedMessage msg; append_messages (packet ++ b) msgs
  end.
Definition makeRPCPacket (msgs : list message) : result (list byte) :=
  packet ← append_messages [] msgs; Ok (marshalUint32 [] (u32 (zlen packet)) ++ packet).

(** [binary.Uvarint] on a buffer of any length: a value that does not fit counts
    its bytes below zero. *)
Fixpoint Uvarint64_from (b : list byte) (x s i : Z) : Z * Z :=
  match b with
  | [] => (0, 0)
  | c :: b =>
      if i =? 10 then (0, - (i + 1))
      else if Z_of_byte c <? 0x80 then
        if (i =? 9) && (1 <? Z_of_byte c) then (0, - (i + 1)) else (u64 (Z.lor x (Z.shiftl (Z_of_byte c) s)), i + 1)
      else Uvarint64_from b (Z.lor x (Z.shiftl (Z.land (Z_of_byte c) 0x7f) s)) (s + 7) (i + 1)
  end.
Definition Uvarint64 (b : list byte) : Z * Z := Uvarint64_from b 0 0 0.

(** The messages a packet is read into are filled in one after the other: [st]
    holds them, and each entry of [msgs] unmarshals into one of them. *)
Fixpoint read_messages {S : Type} (msgs : list (list byte → S → S * option error)) (packet : list byte) (st : S)
    : result (option error) * S :=
  match msgs with
  | [] => (Ok (if 0 <? zlen packet then Some rpc_errInvalidResponse else None), st)
  | unmarshal :: msgs =>
      if zlen packet =? 0 then (Ok None, st)
      else
        let '(msgLength, n) := Uvarint64 packet in
        if (n <=? 0) || (zlen packet <? msgLength) then (Ok (Some rpc_errInvalidResponse), st)
        else
          let packet := drop (Z.to_nat n) packet in
          if msgLength =? 0 then read_messages msgs packet st
          else if zlen packet <? msgLength then (Panic, st)
          else
            match unmarshal (take (Z.to_nat msgLength) packet) st with
            | (st, Some e) => (Ok (Some e), st)
            | (st, None) => read_messages msgs (drop (Z.to_nat msgLength) packet) st
            end
  end.
Definition readRPCPacket {S : Type} (msgs : list (list byte → S → S * option error)) (r : Reader) (st : S)
    : result (option error) * S * Reader :=
  let '((lengthBytes, err), r) := ReadFull r 4 in
  match err with
  | Some e => (Ok (Some e), st, r)
  | None =>
      let packetLength := match unmarshalUint32 lengthBytes with Ok (v, _) => v | _ => 0 end in
      let '((packet, err), r) := ReadFull r packetLength in
      match err with
      | Some e => (Ok (Some e), st, r)
      | None => let '(res, st) := read_messages msgs packet st in (res, st, r)
      end
  end.

(** ** The plain transport (transport.go) *)
Record RpcRequestHeaderProto := mkRpcRequestHeader { rr_CallId : Z; rr_ClientId : list byte }.
Record RequestHeaderProto := mkRequestHeader { rq_MethodName : string; rq_DeclaringClass : string; rq_ClientProtocolVersion : Z }.
Record IpcConnectionContextProto := mkConnectionContext { cc_EffectiveUser : string; cc_Protocol : string }.
(** As its getters show it. *)
Record RpcResponseHeaderProto := mkRpcResponseHeader {
  rh_CallId : Z;
  rh_Status : Z;
  rh_ExceptionClassName : string;
  rh_ErrorMsg : string
}.
Definition RpcStatus_SUCCESS : Z := 0.
Definition protocolClass : string := "org.apache.hadoop.hdfs.protocol.ClientProtocol".
Definition protocolClassVersion : Z := 1.
Definition handshakeCallID : Z := -3.
Definition standbyExceptionClass : string := "org.apache.hadoop.ipc.StandbyException".
Definition backoffDuration : Z := 5000000000.
Definition errUnexpectedSequenceNumber : error := EMsg "unexpected sequence number".

Definition newRPCRequestHeader (id : Z) (clientID : list byte) : RpcRequestHeaderProto := mkRpcRequestHeader id clientID.
Definition newRequestHeader (methodName : string) : RequestHeaderProto := mkRequestHeader methodName protocolClass protocolClassVersion.
Definition newConnectionContext (user kerberosRealm : string) : IpcConnectionContextProto :=
  mkConnectionContext (if String.eqb kerberosRealm EmptyString then user else user +:+ "@" +:+ kerberosRealm) protocolClass.

(** ** NamenodeConnection (namenode.go)

    A connection is its number on the network and the bytes already read from
    it; a time that was never set is [None]. *)
Record namenodeHost := mkHost { nh_address : string; nh_lastError : option error; nh_lastErrorAt : option Z }.
Record NamenodeConnection := mkNamenodeConnection {
  nc_ClientID : list byte;
  nc_ClientName : string;
  nc_User : string;
  nc_currentRequestID : Z;
  nc_conn : option (nat * nat);
  nc_host : option nat;
  nc_hostList : list namenodeHost
}.
Definition nc_setRequestID (i : Z) (c : NamenodeConnection) : NamenodeConnection :=
  mkNamenodeConnection (nc_ClientID c) (nc_ClientName c) (nc_User c) i (nc_conn c) (nc_host c) (nc_hostList c).
Definition nc_setConn (o : option (nat * nat)) (c : NamenodeConnection) : NamenodeConnection :=
  mkNamenodeConnection (nc_ClientID c) (nc_ClientName c) (nc_User c) (nc_currentRequestID c) o (nc_host c) (nc_hostList c).
Definition nc_setHost (i : nat) (c : NamenodeConnection) : NamenodeConnection :=
  mkNamenodeConnection (nc_ClientID c) (nc_ClientName c) (nc_User c) (nc_currentRequestID c) (nc_conn c) (Some i) (nc_hostList c).
Definition nc_setHosts (l : list namenodeHost) (c : NamenodeConnection) : NamenodeConnection :=
  mkNamenodeConnection (nc_ClientID c) (nc_ClientName c) (nc_User c) (nc_currentRequestID c) (nc_conn c) (nc_host c) l.

Section rpc.
Context {N : Type} `{Network N} `{Proto RpcRequestHeaderProto} `{Proto RequestHeaderProto} `{Proto IpcConnectionContextProto}.
Context `{Proto RpcResponseHeaderProto}.
Implicit Types (c : NamenodeConnection) (n : N).

(** [basicTransport.writeRequest] on a connection. *)
Definition writeRequest {Q : Type} `{Proto Q} (clientID : list byte) (id : nat) (method : string) (requestID : Z) (req : Q) n
    : result (option error * N) :=
  match makeRPCPacket [Msg (newRPCRequestHeader requestID clientID); Msg (newRequestHeader method); Msg req] with
  | Ok reqBytes => Ok (net_Write id reqBytes n)
  | Err e => Ok (Some e, n)
  | Panic => Panic
  end.

(** [basicTransport.readResponse]: the header starts empty, the response is that
    of the caller. *)
Definition readResponse {A : Type} `{Proto A} (method : string) (requestID : Z) (r : Reader) (resp : A)
    : result (option error) * A * Reader :=
  let '(res, (rrh, resp), r) :=
    readRPCPacket [λ b '(_, resp), let '(rrh, err) := proto_Unmarshal b in ((rrh, resp), err);
                   λ b '(rrh, _), let '(resp, err) := proto_Unmarshal b in ((rrh, resp), err)]
      r (mkRpcResponseHeader 0 RpcStatus_SUCCESS EmptyString EmptyString, resp) in
  match res with
  | Ok None =>
      (Ok (if negb (i32 (rh_CallId rrh) =? requestID) then Some errUnexpectedSequenceNumber
           else if negb (rh_Status rrh =? RpcStatus_SUCCESS) then Some (ENamenode (rh_ExceptionClassName rrh) (rh_ErrorMsg rrh))
           else None), resp, r)
  | _ => (res, resp, r)
  end.

(** The host is that of the last dial. *)
Definition markFailure (err : error) c n : NamenodeConnection * N :=
  let n := match nc_conn c with Some (id, _) => net_Close id n | None => n end in
  let c := nc_setConn None c in
  match nc_host c with
  | Some i => (nc_setHosts (alter (λ h, mkHost (nh_address h) (Some err) (Some (net_Now n))) i (nc_hostList c)) c, n)
  | None => (c, n)
  end.

Definition doNamenodeHandshake (id : nat) c n : result (option error * N) :=
  let rpcHeader := map byte_of_Z [0x68; 0x72; 0x70; 0x63; 0x09; 0x0; 0x0] in
  match net_Write id rpcHeader n with
  | (Some e, n) => Ok (Some e, n)
  | (None, n) =>
      match makeRPCPacket [Msg (newRPCRequestHeader handshakeCallID (nc_ClientID c)); Msg (newConnectionContext (nc_User c) EmptyString)] with
      | Ok packet => Ok (net_Write id packet n)
      | Err e => Ok (Some e, n)
      | Panic => Panic
      end
  end.

(** [host.lastErrorAt.After(time.Now().Add(-backoffDuration))] *)
Definition in_backoff (h : namenodeHost) (now : Z) : bool :=
  match nh_lastErrorAt h with Some t => now - backoffDuration <? t | None => false end.

(** The loop over the list of hosts, from the host [i] on. *)
Fixpoint try_hosts (hosts : list namenodeHost) (i : nat) (err : option error) c n : result (option error) * NamenodeConnection * N :=
  match hosts with
  | [] => (Ok err, c, n)
  | host :: hosts =>
      if in_backoff host (net_Now n) then try_hosts hosts (S i) err c n
      else
        let c := nc_setHost i c in
        match net_Dial (nh_address host) n with
        | (inr e, n) =>
            let '(c, n) := markFailure e (nc_setConn None c) n in try_hosts hosts (S i) (Some e) c n
        | (inl id, n) =>
            let c := nc_setConn (Some (id, 0%nat)) c in
            match doNamenodeHandshake id c n with
            | Ok (Some e, n) => let '(c, n) := markFailure e c n in try_hosts hosts (S i) (Some e) c n
            | Ok (None, n) => (Ok None, c, n)
            | _ => (Panic, c, n)
            end
        end
  end.
(** The text of the last error is left out. *)
Definition resolveConnection c n : result (option error) * NamenodeConnection * N :=
  match nc_conn c with
  | Some _ => (Ok None, c, n)
  | None =>
      let err := i ← nc_host c; h ← nc_hostList c !! i; nh_lastError h in
      match try_hosts (nc_hostList c) 0 err c n with
      | (Ok _, c, n) =>
          (Ok (match nc_conn c with None => Some (EMsg "no available namenodes") | Some _ => None end), c, n)
      | r => r
      end
  end.

Definition is_standby (err : error) : bool :=
  match err with ENamenode exception _ => String.eqb exception standbyExceptionClass | _ => false end.

(** Every turn but the last marks a host as failed; [None] is a loop that has
    not ended yet. *)
Fixpoint execute_loop {Q A : Type} `{Proto Q} `{Proto A} (fuel : nat) (method : string) (requestID : Z) (req : Q) (resp : A) c n
    : option (result (option error) * A * NamenodeConnection * N) :=
  match fuel with
  | O => None
  | S fuel =>
      match resolveConnection c n with
      | (Ok None, c, n) =>
          match nc_conn c with
          | None => Some (Panic, resp, c, n)
          | Some (id, skip) =>
              match writeRequest (nc_ClientID c) id method requestID req n with
              | Ok (Some e, n) => let '(c, n) := markFailure e c n in execute_loop fuel method requestID req resp c n
              | Ok (None, n) =>
                  let r := mkReader (drop skip (rd_rest (net_Reader id n))) (rd_fail (net_Reader id n)) in
                  let '(res, resp, r') := readResponse method requestID r resp in
                  let c := nc_setConn (Some (id, length (rd_rest (net_Reader id n)) - length (rd_rest r'))%nat) c in
                  match res with
                  | Ok (Some e) =>
                      if is_standby e then let '(c, n) := markFailure e c n in execute_loop fuel method requestID req resp c n
                      else Some (Ok (Some e), resp, c, n)
                  | _ => Some (res, resp, c, n)
                  end
              | _ => Some (Panic, resp, c, n)
              end
          end
      | (res, c, n) => Some (res, resp, c, n)
      end
  end.
Definition Execute {Q A : Type} `{Proto Q} `{Proto A} (fuel : nat) (method : string) (req : Q) (resp : A) c n
    : option (result (option error) * A * NamenodeConnection * N) :=
  let c := nc_setRequestID (i32 (nc_currentRequestID c + 1)) c in
  execute_loop fuel method (nc_currentRequestID c) req resp c n.

(** [newClientID] takes sixteen random letters and digits: an argument. *)
Definition NewNamenodeConnection (addresses : list string) (user : string) (clientId : list byte) n
    : result (NamenodeConnection + error) * N :=
  if String.eqb user EmptyString then (Ok (inr (EMsg "user not specified")), n)
  else
    let c := mkNamenodeConnection clientId ("go-hdfs-" +:+ string_of_bytes clientId) user 0 None None
      (map (λ addr, mkHost addr None None) addresses) in
    match resolveConnection c n with
    | (Ok None, c, n) => (Ok (inl c), n)
    | (Ok (Some e), _, n) => (Ok (inr e), n)
    | (_, _, n) => (Panic, n)
    end.

(** [Close] ends the renewal of leases and the connection. *)
Definition NamenodeConnection_Close c n : N :=
  match nc_conn c with Some (id, _) => net_Close id n | None => n end.
End rpc.

(** ** What is written is read back *)
Lemma PutUvarint_more n k x l : PutUvarint n x = Ok l → (n <= k)%nat → PutUvarint k x = Ok l.
Proof.
  revert k x l. induction n as [|n IH]; intros k x l E Hk; [done|]. destruct k as [|k]; [lia|]. cbn [PutUvarint] in *.
  destruct (x <? 0x80); [done|]. destruct (PutUvarint n (Z.shiftr x 7)) as [l'| |] eqn:E'; [|done..].
  by rewrite (IH k _ _ E') by lia.
Qed.
Lemma Uvarint_from_end b : ∀ x s i v k, Uvarint_from b x s i = (v, k) → k = 0 ∨ i < k.
Proof.
  induction b as [|c b IH]; intros x s i v k; cbn [Uvarint_from]; [intros [= <- <-]; by left|].
  destruct (_ <? _); [intros [= <- <-]; right; lia|]. intros E. destruct (IH _ _ _ _ _ E); [by left|right; lia].
Qed.
Lemma Uvarint64_from_short b : ∀ x s i v k, Uvarint_from b x s i = (v, k) → 0 <= i → 0 < k <= 9 → Uvarint64_from b x s i = (v, k).
Proof.
  induction b as [|c b IH]; intros x s i v k E Hi Hk; cbn [Uvarint_from Uvarint64_from] in *; [done|].
  assert (i < k) as Hik by (destruct (Uvarint_from_end (c :: b) x s i v k E); lia).
  destruct (Z.eqb_spec i 10); [lia|]. destruct (_ <? _); [|by apply IH; [|lia..]].
  destruct (Z.eqb_spec i 9); [lia|]. done.
Qed.

Section packets.
Context {S : Type}.
Implicit Types (st : S) (b rest : list byte).

(** The bytes of a message with its length. *)
Definition framed (l b : list byte) : Prop :=
  1 <= zlen l <= 9 ∧ PutUvarint 10 (u64 (zlen b)) = Ok l ∧ ∀ rest, Uvarint64 (l ++ rest) = (zlen b, zlen l).
Lemma framed_ex b : zlen b < 2 ^ 35 → ∃ l, framed l b.
Proof.
  intros Hb. pose proof (zlen_nonneg b). assert (∀ rest, ∃ l, PutUvarint 5 (zlen b) = Ok l
    ∧ Uvarint_from (l ++ rest) 0 0 0 = (zlen b, zlen l) ∧ 1 <= zlen l <= 5) as Hv.
  { intros rest. destruct (Uvarint_Put 5 (zlen b) 0 0 0 rest) as (l & E & Eu & Hlen); [change (7 * Z.of_nat 5) with 35; lia|lia..|].
    exists l. split; [done|]. split; [|lia]. rewrite Eu. f_equal. rewrite Z.pow_0_r, Z.mul_1_r. apply u64_id. unfold is_u64. lia. }
  destruct (Hv []) as (l & E & _ & Hlen). exists l. split; [lia|]. rewrite u64_id by (unfold is_u64; lia).
  split; [by apply (PutUvarint_more 5); [|lia]|]. intros rest. destruct (Hv rest) as (l' & E' & Eu & _).
  rewrite E in E'. injection E' as <-. apply Uvarint64_from_short; [done|lia..].
Qed.

Lemma read_messages_framed (u : list byte → S → S * option error) us l b rest st : framed l b →
  read_messages (u :: us) (l ++ b ++ rest) st =
    if zlen b =? 0 then read_messages us rest st
    else match u b st with (st, Some e) => (Ok (Some e), st) | (st, None) => read_messages us rest st end.
Proof.
  intros (Hl & _ & Hu). cbn [read_messages]. pose proof (zlen_nonneg b). pose proof (zlen_nonneg rest).
  rewrite (proj2 (Z.eqb_neq _ _)) by (rewrite !zlen_app; lia). rewrite Hu, !zlen_app.
  rewrite (proj2 (Z.leb_gt _ _)) by lia. rewrite (proj2 (Z.ltb_ge _ _)) by lia. cbn [orb]. rewrite drop_app_zlen.
  destruct (Z.eqb_spec (zlen b) 0) as [Hz|Hz]; [by rewrite (zlen_nil_inv b) by lia|].
  rewrite zlen_app. rewrite (proj2 (Z.ltb_ge _ _)) by lia. by rewrite take_app_zlen, drop_app_zlen.
Qed.
(** Messages that are missing at the end are left as they are. *)
Lemma read_messages_nil (us : list (list byte → S → S * option error)) st : read_messages us [] st = (Ok None, st).
Proof. by destruct us. Qed.

Lemma readRPCPacket_packet (us : list (list byte → S → S * option error)) packet rest e st : zlen packet < 2 ^ 32 →
  readRPCPacket us (mkReader ((marshalUint32 [] (u32 (zlen packet)) ++ packet) ++ rest) e) st
    = let '(res, st) := read_messages us packet st in (res, st, mkReader rest e).
Proof.
  intros Hp. pose proof (zlen_nonneg packet). unfold readRPCPacket. rewrite u32_id by (unfold is_u32; lia). rewrite <- app_assoc.
  rewrite ReadFull_app by apply zlen_marshalUint32.
  replace (marshalUint32 [] (zlen packet)) with (marshalUint32 [] (zlen packet) ++ []) by apply app_nil_r.
  rewrite unmarshalUint32_marshal, u32_id by (unfold is_u32; lia). by rewrite ReadFull_app.
Qed.
End packets.

(** ** Namenodes

    What the connection relies on. A namenode refuses connections, breaks them
    off so that a write to it fails, is a standby that answers every request with
    an exception, or is the active one that owns the state of the namespace. A
    break that shows only when the answer is read is not among these: [Execute]
    returns it to its caller. A connection [peer] knows how far its handshake
    is. *)
Inductive Role := Refuses | FailsWrites | Standby | Active.

(** A body that is encoded already. *)
#[global] Instance raw_proto : Proto (list byte) := {
  proto_Marshal b := (b, None);
  proto_Unmarshal b := (b, None)
}.

Section wire.
Context `{Proto RpcRequestHeaderProto} `{Proto RequestHeaderProto} `{Proto IpcConnectionContextProto} `{Proto RpcResponseHeaderProto}.
Definition rpcHeader_bytes : list byte := map byte_of_Z [0x68; 0x72; 0x70; 0x63; 0x09; 0x0; 0x0].
Definition context_packet (b : list byte) : Prop :=
  ∃ clientID user, makeRPCPacket [Msg (newRPCRequestHeader handshakeCallID clientID); Msg (newConnectionContext user EmptyString)] = Ok b.
(** A client has an identifier of sixteen letters; a packet has a length of 32
    bits. *)
Definition small_request (clientID : list byte) (method : string) (body : list byte) : Prop :=
  zlen clientID <= 16 ∧ slen method < 2 ^ 16 ∧ zlen body < 2 ^ 30.
Definition request_packet (call : Z) (method : string) (body b : list byte) : Prop :=
  ∃ clientID, small_request clientID method body ∧ makeRPCPacket [Msg (newRPCRequestHeader call clientID); Msg (newRequestHeader method); Msg body] = Ok b.
Definition standby_header (call : Z) (h : RpcResponseHeaderProto) : Prop :=
  rh_CallId h = call ∧ rh_Status h ≠ RpcStatus_SUCCESS ∧ rh_ExceptionClassName h = standbyExceptionClass.
Definition success_header (call : Z) : RpcResponseHeaderProto := mkRpcResponseHeader call RpcStatus_SUCCESS EmptyString EmptyString.
End wire.

Class NamenodesSpec (N St : Type) `{Network N} `{ProtoSpec RpcRequestHeaderProto} `{ProtoSpec RequestHeaderProto}
    `{ProtoSpec IpcConnectionContextProto} `{ProtoSpec RpcResponseHeaderProto} := {
  role : string → Role;
  rpc_state : N → St;
  rpc_step : string → list byte → St → St * list byte;
  peer : nat → N → option (string * nat);
  (** the longest time a step of the network takes *)
  delay : Z;
  delay_nonneg : 0 <= delay;
  rpc_headers_fit call clientID method user :
    is_i64 call → proto_fits (newRPCRequestHeader call clientID) ∧ proto_fits (newRequestHeader method) ∧ proto_fits (newConnectionContext user EmptyString);
  rpc_success_fits call : 0 <= call < 2 ^ 31 → proto_fits (success_header call) ∧ 0 < zlen (proto_bytes (success_header call)) < 2 ^ 30;
  rpc_answer_short method body st : zlen (snd (rpc_step method body st)) < 2 ^ 30;
  pDial a n : ∃ res n', net_Dial a n = (res, n') ∧ rpc_state n' = rpc_state n ∧ net_Now n <= net_Now n' <= net_Now n + delay
    ∧ match role a with
      | Refuses => ∃ e, res = inr e
      | _ => ∃ id, res = inl id ∧ peer id n' = Some (a, 0%nat) ∧ rd_rest (net_Reader id n') = []
      end;
  pClose id n : rpc_state (net_Close id n) = rpc_state n ∧ net_Now n <= net_Now (net_Close id n) <= net_Now n + delay;
  pWrite_hello id b a phase n : peer id n = Some (a, phase) →
    (phase = 0%nat ∧ b = rpcHeader_bytes) ∨ (phase = 1%nat ∧ context_packet b) →
    ∃ err n', net_Write id b n = (err, n') ∧ rpc_state n' = rpc_state n ∧ net_Now n <= net_Now n' <= net_Now n + delay
    ∧ match err with
      | Some _ => role a = FailsWrites
      | None => peer id n' = Some (a, S phase) ∧ rd_rest (net_Reader id n') = rd_rest (net_Reader id n)
      end;
  pWrite_request id b a n call method body : peer id n = Some (a, 2%nat) → request_packet call method body b → 0 <= call < 2 ^ 31 →
    ∃ err n', net_Write id b n = (err, n') ∧ net_Now n <= net_Now n' <= net_Now n + delay
    ∧ match role a with
      | Active => ∃ packet, err = None ∧ rpc_state n' = fst (rpc_step method body (rpc_state n)) ∧ peer id n' = Some (a, 2%nat)
          ∧ makeRPCPacket [Msg (success_header call); Msg (snd (rpc_step method body (rpc_state n)))] = Ok packet
          ∧ rd_rest (net_Reader id n') = rd_rest (net_Reader id n) ++ packet
      | Standby => ∃ h packet, err = None ∧ rpc_state n' = rpc_state n
          ∧ standby_header call h ∧ proto_fits h ∧ 0 < zlen (proto_bytes h) < 2 ^ 30
          ∧ makeRPCPacket [Msg h] = Ok packet ∧ rd_rest (net_Reader id n') = rd_rest (net_Reader id n) ++ packet
      | _ => err ≠ None ∧ rpc_state n' = rpc_state n
      end
}.

Definition marshals (msg : message) (b : list byte) : Prop := let '@Msg M HP m := msg in proto_Marshal m = (b, None).

Lemma append_messages_ok ms bs : Forall2 marshals ms bs → ∀ acc, ∃ tail, append_messages acc ms = Ok (acc ++ tail)
  ∧ (Forall (λ b, zlen b < 2 ^ 35) bs → ∃ ls, Forall2 framed ls bs ∧ tail = concat (zip_with app ls bs)).
Proof.
  induction 1 as [|[M HP m] b ms bs Hm _ IH]; intros acc; cbn [append_messages].
  - exists []. rewrite app_nil_r. split; [done|]. intros _. by exists [].
  - simpl in Hm. cbn [rpc_makePrefixedMessage]. rewrite Hm. cbv zeta.
    destruct (Uvarint_Put 10 (u64 (zlen b)) 0 0 0 []) as (l & E & _); [|lia..|].
    { pose proof (u64_range (zlen b)). change (7 * Z.of_nat 10) with 70. unfold is_u64 in *. lia. }
    rewrite E. cbn [mbind result_bind]. destruct (IH (acc ++ l ++ b)) as (tail & Ea & Hl). exists (l ++ b ++ tail).
    split; [unfold mbind; simpl; rewrite Ea; f_equal; by rewrite <- !app_assoc|].
    intros [Hb Hbs]%Forall_cons. destruct (Hl Hbs) as (ls & Hls & ->). destruct (framed_ex b Hb) as (l' & Hf).
    assert (l' = l) as -> by (destruct Hf as (_ & E' & _); rewrite E in E'; congruence).
    exists (l :: ls). split; [by constructor|]. simpl. by rewrite <- !app_assoc.
Qed.
Lemma makeRPCPacket_ok ms bs : Forall2 marshals ms bs → ∃ packet, makeRPCPacket ms = Ok (marshalUint32 [] (u32 (zlen packet)) ++ packet)
  ∧ (Forall (λ b, zlen b < 2 ^ 35) bs → ∃ ls, Forall2 framed ls bs ∧ packet = concat (zip_with app ls bs)).
Proof.
  intros Hm. destruct (append_messages_ok ms bs Hm []) as (tail & E & Hl). exists tail. unfold makeRPCPacket. rewrite E. done.
Qed.

Section proofs.
Context {N St : Type} `{NamenodesSpec N St}.
Implicit Types (c : NamenodeConnection) (n : N) (h : namenodeHost).

(** The value a body leaves in the response. *)
Definition answer_of {A : Type} `{Proto A} (resp : A) (body : list byte) : A :=
  if zlen body =? 0 then resp else fst (proto_Unmarshal body).

Lemma readResponse_success {A : Type} `{Proto A} method call body packet rest e (resp : A) :
  0 <= call < 2 ^ 31 → zlen body < 2 ^ 30 → (body ≠ [] → snd (proto_Unmarshal (M := A) body) = None) →
  makeRPCPacket [Msg (success_header call); Msg body] = Ok packet →
  readResponse method call (mkReader (packet ++ rest) e) resp = (Ok None, answer_of resp body, mkReader rest e).
Proof.
  intros Hc Hb Hu E. destruct (rpc_success_fits call Hc) as (Hfit & Hlen).
  destruct (makeRPCPacket_ok [Msg (success_header call); Msg body] [proto_bytes (success_header call); body]) as (p & E' & Hp).
  { apply Forall2_cons_2; [by apply proto_Marshal_fits|]. by apply Forall2_cons_2. }
  assert (packet = marshalUint32 [] (u32 (zlen p)) ++ p) as -> by congruence. clear E E'. destruct Hp as (ls & Hls & ->); [repeat constructor; lia|].
  inversion Hls as [|l1 ? ? ? Hf1 Hls']; subst. inversion Hls' as [|l2 ? ? ? Hf2 Hls'']; subst. inversion Hls''; subst.
  unfold readResponse. cbn [zip_with concat]. rewrite app_nil_r.
  rewrite readRPCPacket_packet. 2: { rewrite !zlen_app. destruct Hf1 as [? _], Hf2 as [? _]. lia. }
  rewrite <- !app_assoc. rewrite read_messages_framed by done. rewrite (proj2 (Z.eqb_neq _ _)) by lia.
  rewrite proto_Unmarshal_bytes by done. rewrite <- (app_nil_r body) at 1. rewrite read_messages_framed by done.
  unfold answer_of. destruct (Z.eqb_spec (zlen body) 0) as [Hz|Hz].
  - rewrite read_messages_nil. simpl. rewrite i32_id by lia. by rewrite Z.eqb_refl.
  - assert (body ≠ []) as Hne by (by intros ->). specialize (Hu Hne). destruct (proto_Unmarshal body) as [a o]. simpl in Hu. subst o.
    rewrite read_messages_nil. simpl. rewrite i32_id by lia. by rewrite Z.eqb_refl.
Qed.

Lemma readResponse_standby {A : Type} `{Proto A} method call hd packet rest e (resp : A) :
  0 <= call < 2 ^ 31 → standby_header call hd → proto_fits hd → 0 < zlen (proto_bytes hd) < 2 ^ 30 →
  makeRPCPacket [Msg hd] = Ok packet →
  ∃ msg, readResponse method call (mkReader (packet ++ rest) e) resp = (Ok (Some (ENamenode standbyExceptionClass msg)), resp, mkReader rest e).
Proof.
  intros Hc (Hcall & Hst & Hex) Hfit Hlen E.
  destruct (makeRPCPacket_ok [Msg hd] [proto_bytes hd]) as (p & E' & Hp).
  { apply Forall2_cons_2; [by apply proto_Marshal_fits|done]. }
  assert (packet = marshalUint32 [] (u32 (zlen p)) ++ p) as -> by congruence. clear E E'. destruct Hp as (ls & Hls & ->); [repeat constructor; lia|].
  inversion Hls as [|l1 ? ? ? Hf1 Hls']; subst. inversion Hls'; subst.
  exists (rh_ErrorMsg hd). unfold readResponse. cbn [zip_with concat].
  rewrite readRPCPacket_packet. 2: { rewrite !zlen_app. destruct Hf1 as [? _]. change (zlen (@nil byte)) with 0. lia. }
  rewrite <- !app_assoc. rewrite read_messages_framed by done. rewrite (proj2 (Z.eqb_neq _ _)) by lia.
  rewrite proto_Unmarshal_bytes by done. rewrite read_messages_nil. cbv beta iota zeta. rewrite i32_id, Z.eqb_refl by lia. cbn [negb].
  rewrite (proj2 (Z.eqb_neq _ _)) by done. cbn [negb]. by rewrite Hex.
Qed.

(** ** The connection under failover

    [T] is the time at which a call starts. A host that failed since is still in
    its backoff when the call ends, as long as the network is fast enough. *)
Definition untried (T : Z) h : bool := match nh_lastErrorAt h with Some t => t <? T | None => true end.
Definition hosts_left (T : Z) c : Z := zlen (filter (λ h, untried T h) (nc_hostList c)).

(** [slack] steps of the network were spent on the host of the connection. *)
Record in_time (T slack : Z) c n : Prop := {
  it_now : T <= net_Now n;
  it_budget : net_Now n + 5 * delay * hosts_left T c <= T + 5 * delay * zlen (nc_hostList c) + slack * delay;
  it_short : 5 * delay * zlen (nc_hostList c) < backoffDuration;
  it_past : Forall (λ h, match nh_lastErrorAt h with Some t => t <= net_Now n | None => True end) (nc_hostList c)
}.
(** An active namenode that was never marked. *)
Definition active_host (l : list namenodeHost) : Prop := Exists (λ h, role (nh_address h) = Active ∧ nh_lastErrorAt h = None) l.

(** The host of the connection, which did not fail since [T]. *)
Definition on_host (T : Z) c (a : string) : Prop :=
  ∃ i h, nc_host c = Some i ∧ nc_hostList c !! i = Some h ∧ nh_address h = a ∧ untried T h = true.
Record connected (T : Z) c n (id : nat) (a : string) : Prop := {
  cn_peer : peer id n = Some (a, 2%nat);
  cn_conn : nc_conn c = Some (id, length (rd_rest (net_Reader id n)));
  cn_role : role a ≠ Refuses;
  cn_host : on_host T c a
}.

Definition same_client c c' : Prop :=
  nc_ClientID c' = nc_ClientID c ∧ nc_User c' = nc_User c ∧ nc_currentRequestID c' = nc_currentRequestID c
  ∧ zlen (nc_hostList c') = zlen (nc_hostList c).

Lemma same_client_trans c1 c2 c3 : same_client c1 c2 → same_client c2 c3 → same_client c1 c3.
Proof. intros (?&?&?&?) (?&?&?&?). split_and!; congruence. Qed.

Lemma alter_middle {A} (f : A → A) l1 x l2 : alter f (length l1) (l1 ++ x :: l2) = l1 ++ f x :: l2.
Proof. induction l1 as [|y l1 IH]; [done|]. simpl. f_equal. exact IH. Qed.
Lemma hosts_left_middle T l1 h l2 c : nc_hostList c = l1 ++ h :: l2 →
  hosts_left T c = zlen (filter (λ h, untried T h) l1) + (if untried T h then 1 else 0) + zlen (filter (λ h, untried T h) l2).
Proof.
  intros E. unfold hosts_left. rewrite E, filter_app, zlen_app, filter_cons.
  case_decide as Hd; destruct (untried T h); try done; [rewrite zlen_cons|]; lia.
Qed.
Lemma hosts_left_bound T c : 0 <= hosts_left T c <= zlen (nc_hostList c).
Proof. unfold hosts_left. split; [apply zlen_nonneg|]. unfold zlen. pose proof (length_filter (λ h, untried T h) (nc_hostList c)). lia. Qed.

Lemma in_time_later T s k c n n' : in_time T s c n → net_Now n <= net_Now n' <= net_Now n + k * delay → in_time T (s + k) c n'.
Proof.
  intros [Hn Hb Hs Hp] Hn'. split; [lia|nia|done|]. eapply Forall_impl; [exact Hp|]. intros h. simpl. destruct (nh_lastErrorAt h); [lia|done].
Qed.
Lemma in_time_hosts T s c c' n : nc_hostList c' = nc_hostList c → in_time T s c n → in_time T s c' n.
Proof. intros E [Hn Hb Hs Hp]. split; unfold hosts_left in *; [done|by rewrite E..]. Qed.

Lemma mark_spec T s e c n l1 h l2 : nc_hostList c = l1 ++ h :: l2 → nc_host c = Some (length l1) → untried T h = true →
  in_time T s c n → s <= 4 →
  ∃ c' n' h', markFailure e c n = (c', n') ∧ rpc_state n' = rpc_state n ∧ nc_conn c' = None ∧ same_client c c'
    ∧ nc_hostList c' = l1 ++ h' :: l2 ∧ in_time T 0 c' n' ∧ hosts_left T c' = hosts_left T c - 1.
Proof.
  intros El Eh Hu Ht Hs. pose proof delay_nonneg as Hd. unfold markFailure.
  set (n1 := match nc_conn c with Some (id, _) => net_Close id n | None => n end).
  assert (rpc_state n1 = rpc_state n ∧ net_Now n <= net_Now n1 <= net_Now n + 1 * delay) as [Hst Hnow].
  { unfold n1. destruct (nc_conn c) as [[id k]|]; [|split; [done|lia]]. destruct (pClose id n). split; [done|lia]. }
  cbn [nc_setConn nc_host]. rewrite Eh. cbn [nc_hostList nc_setConn]. rewrite El, alter_middle. set (h' := mkHost _ _ _).
  eexists _, n1, h'. split; [done|].
  assert (hosts_left T (nc_setHosts (l1 ++ h' :: l2) (nc_setConn None c)) = hosts_left T c - 1) as Hleft.
  { rewrite (hosts_left_middle T l1 h' l2) by done. rewrite (hosts_left_middle T l1 h l2 c) by done. rewrite Hu.
    unfold h', untried. cbn [nh_lastErrorAt]. rewrite (proj2 (Z.ltb_ge _ _)); [lia|]. destruct Ht. lia. }
  split; [done|]. split; [done|]. split; [|split; [done|split; [|exact Hleft]]].
  { unfold same_client. cbn. rewrite El, !zlen_app, !zlen_cons. done. }
  destruct (in_time_later T s 1 c n n1 Ht Hnow) as [Ha Hb Hc Hp]. split.
  - done.
  - rewrite Hleft. cbn [nc_hostList nc_setHosts]. rewrite El, zlen_app, zlen_cons in Hb. rewrite zlen_app, zlen_cons. nia.
  - cbn [nc_hostList nc_setHosts]. rewrite El, zlen_app, zlen_cons in Hc. by rewrite zlen_app, zlen_cons.
  - cbn [nc_hostList nc_setHosts]. rewrite El in Hp. apply Forall_app in Hp as [Hp1 Hp2]. apply Forall_cons in Hp2 as [_ Hp2].
    apply Forall_app. split; [done|]. apply Forall_cons. split; [simpl; lia|done].
Qed.

Lemma handshake_spec id c n a : peer id n = Some (a, 0%nat) →
  ∃ err n', doNamenodeHandshake id c n = Ok (err, n') ∧ rpc_state n' = rpc_state n ∧ net_Now n <= net_Now n' <= net_Now n + 2 * delay
  ∧ match err with
    | Some _ => role a = FailsWrites
    | None => peer id n' = Some (a, 2%nat) ∧ rd_rest (net_Reader id n') = rd_rest (net_Reader id n)
    end.
Proof.
  intros Hp. pose proof delay_nonneg. unfold doNamenodeHandshake. fold rpcHeader_bytes.
  destruct (pWrite_hello id rpcHeader_bytes a 0 n Hp) as (err1 & n1 & -> & Hs1 & Hn1 & H1'); [by left|].
  destruct err1 as [e1|]; [by eexists _, n1; split_and!; [done..|lia|lia|]|]. destruct H1' as [Hp1 Hr1].
  destruct (rpc_headers_fit handshakeCallID (nc_ClientID c) EmptyString (nc_User c)) as (Hf1 & _ & Hf2); [done|].
  destruct (makeRPCPacket_ok [Msg (newRPCRequestHeader handshakeCallID (nc_ClientID c)); Msg (newConnectionContext (nc_User c) EmptyString)]
    [proto_bytes (newRPCRequestHeader handshakeCallID (nc_ClientID c)); proto_bytes (newConnectionContext (nc_User c) EmptyString)])
    as (p & E & _).
  { apply Forall2_cons_2; [by apply proto_Marshal_fits|]. apply Forall2_cons_2; [by apply proto_Marshal_fits|done]. }
  rewrite E. destruct (pWrite_hello id (marshalUint32 [] (u32 (zlen p)) ++ p) a 1 n1 Hp1) as (err2 & n2 & -> & Hs2 & Hn2 & H2').
  { right. split; [done|]. by eexists _, _. }
  exists err2, n2. split; [done|]. split; [congruence|]. split; [lia|]. destruct err2; [done|]. destruct H2' as [-> ->]. done.
Qed.

Lemma backoff_untried T h c n : in_time T 0 c n → h ∈ nc_hostList c → in_backoff h (net_Now n) = false → untried T h = true.
Proof.
  intros [Hn Hb Hs Hp] Hin. pose proof delay_nonneg. pose proof (hosts_left_bound T c).
  rewrite Forall_forall in Hp. specialize (Hp h Hin). unfold in_backoff, untried in *. destruct (nh_lastErrorAt h) as [t|]; [|done].
  intros Hb'. apply Z.ltb_ge in Hb'. apply Z.ltb_lt. nia.
Qed.

(** Hosts are tried in order until one takes the handshake. *)
Lemma try_hosts_ok T l2 : ∀ l1 err c n, nc_hostList c = l1 ++ l2 → nc_conn c = None → in_time T 0 c n → active_host l2 →
  ∃ c' n' id a, try_hosts l2 (length l1) err c n = (Ok None, c', n') ∧ connected T c' n' id a ∧ in_time T 3 c' n'
    ∧ rpc_state n' = rpc_state n ∧ same_client c c' ∧ hosts_left T c' <= hosts_left T c ∧ active_host (nc_hostList c').
Proof.
  induction l2 as [|h l2 IH]; intros l1 err c n El Ec Ht Ha; [by apply Exists_nil in Ha|]. pose proof delay_nonneg.
  assert (∀ err c' n', nc_hostList c' = (l1 ++ [nth (length l1) (nc_hostList c') h]) ++ l2 → nc_conn c' = None → in_time T 0 c' n' →
    active_host l2 → rpc_state n' = rpc_state n → same_client c c' → hosts_left T c' <= hosts_left T c →
    ∃ c2 n2 id a, try_hosts l2 (S (length l1)) err c' n' = (Ok None, c2, n2) ∧ connected T c2 n2 id a ∧ in_time T 3 c2 n2
    ∧ rpc_state n2 = rpc_state n ∧ same_client c c2 ∧ hosts_left T c2 <= hosts_left T c ∧ active_host (nc_hostList c2)) as Hnext.
  { intros err' c' n' El' Ec' Ht' Ha' Hs' Hc' Hl'. destruct (IH _ err' c' n' El' Ec' Ht' Ha') as (c2 & n2 & id & a & E & Hcn & Ht2 & Hs2 & Hc2 & Hl2 & Ha2).
    rewrite length_app, Nat.add_1_r in E. exists c2, n2, id, a. split_and!; try done; [congruence| |lia].
    destruct Hc' as (?&?&?&?), Hc2 as (?&?&?&?). split_and!; congruence. }
  cbn [try_hosts]. destruct (in_backoff h (net_Now n)) eqn:Eb.
  - apply Hnext; try done.
    + rewrite El, nth_middle. by rewrite <- app_assoc.
    + apply Exists_cons in Ha as [[_ Ha]|Ha]; [|done]. unfold in_backoff in Eb. by rewrite Ha in Eb.
  - assert (untried T h = true) as Hu by (apply (backoff_untried T h c n Ht); [rewrite El; set_solver|done]).
    assert (role (nh_address h) ≠ Active → active_host l2) as Hother by (intros Hr; apply Exists_cons in Ha as [[Ha _]|Ha]; done).
    set (c0 := nc_setHost (length l1) c). assert (nc_hostList c0 = l1 ++ h :: l2) as El0 by done.
    assert (∀ e c1 n1 s, nc_hostList c1 = l1 ++ h :: l2 → nc_host c1 = Some (length l1) → in_time T s c1 n1 → s <= 4 → rpc_state n1 = rpc_state n →
      same_client c c1 → hosts_left T c1 = hosts_left T c → role (nh_address h) ≠ Active →
      ∃ c2 n2 id a, (let '(c, n) := markFailure e c1 n1 in try_hosts l2 (S (length l1)) (Some e) c n) = (Ok None, c2, n2)
      ∧ connected T c2 n2 id a ∧ in_time T 3 c2 n2
      ∧ rpc_state n2 = rpc_state n ∧ same_client c c2 ∧ hosts_left T c2 <= hosts_left T c ∧ active_host (nc_hostList c2)) as Hfail.
    { intros e c1 n1 s El1 Eh1 Ht1 Hs Hst1 Hc1 Hl1 Hr. destruct (mark_spec T s e c1 n1 l1 h l2) as (c2 & n2 & h' & -> & Hst2 & Ec2 & Hc2 & El2 & Ht2 & Hl2); [done..|].
      apply Hnext; try done; [|by apply Hother|congruence| |lia].
      - rewrite El2, nth_middle. by rewrite <- app_assoc.
      - destruct Hc1 as (?&?&?&?), Hc2 as (?&?&?&?). split_and!; congruence. }
    assert (same_client c c0) as Hc0 by done.
    destruct (pDial (nh_address h) n) as (res & n1 & -> & Hs1 & Hn1 & Hres).
    assert (in_time T 1 c0 n1) as Ht1 by (apply (in_time_later T 0 1 c0 n n1); [by apply (in_time_hosts T 0 c)|lia]).
    destruct res as [id|e].
    2: { apply (Hfail e (nc_setConn None c0) n1 1); try done; [by apply (in_time_hosts T 1 c0)|]. destruct (role _); try done; by destruct Hres as (? & ? & _). }
    assert (peer id n1 = Some (nh_address h, 0%nat) ∧ rd_rest (net_Reader id n1) = [] ∧ role (nh_address h) ≠ Refuses) as (Hp1 & Hr1 & Hnr).
    { destruct (role (nh_address h)); [by destruct Hres|..]; destruct Hres as (id' & [= <-] & ? & ?); done. }
    destruct (handshake_spec id (nc_setConn (Some (id, 0%nat)) c0) n1 (nh_address h) Hp1) as (err2 & n2 & -> & Hs2 & Hn2 & H2').
    assert (in_time T 3 (nc_setConn (Some (id, 0%nat)) c0) n2) as Ht2 by (apply (in_time_later T 1 2 _ n1 n2); [by apply (in_time_hosts T 1 c0)|lia]).
    destruct err2 as [e|].
    + apply (Hfail e _ n2 3); try done; [congruence|by rewrite H2'].
    + destruct H2' as [Hp2 Hr2]. exists (nc_setConn (Some (id, 0%nat)) c0), n2, id, (nh_address h). split; [done|].
      split_and!; try done; [|congruence|].
      * split; [done|cbn; by rewrite Hr2, Hr1|done|]. exists (length l1), h. split_and!; [done| |done|done].
        cbn. rewrite El. by apply list_lookup_middle.
      * cbn. rewrite El. apply Exists_app. by right.
Qed.

(** Between calls, and between the turns of a call. *)
Definition resolvable (T : Z) c n : Prop :=
  active_host (nc_hostList c)
  ∧ ((nc_conn c = None ∧ in_time T 0 c n) ∨ ∃ id a, connected T c n id a ∧ in_time T 3 c n).

Lemma resolve_ok T c n : resolvable T c n →
  ∃ c' n' id a, resolveConnection c n = (Ok None, c', n') ∧ connected T c' n' id a ∧ in_time T 3 c' n'
    ∧ rpc_state n' = rpc_state n ∧ same_client c c' ∧ hosts_left T c' <= hosts_left T c ∧ active_host (nc_hostList c').
Proof.
  intros [Ha [[Ec Ht]|(id & a & Hc & Ht)]]; unfold resolveConnection.
  - rewrite Ec. destruct (try_hosts_ok T (nc_hostList c) [] (i ← nc_host c; h ← nc_hostList c !! i; nh_lastError h) c n)
      as (c' & n' & id & a & E & Hc & Hrest); [done..|].
    cbn [length] in E. rewrite E. rewrite (cn_conn _ _ _ _ _ Hc). by exists c', n', id, a.
  - rewrite (cn_conn _ _ _ _ _ Hc). exists c, n, id, a. split_and!; done.
Qed.

Section call.
Context {Q A : Type} `{ProtoSpec Q} `{Proto A}.

Lemma writeRequest_packet clientID method call (req : Q) : is_i64 call → proto_fits req → small_request clientID method (proto_bytes req) →
  ∃ b, request_packet call method (proto_bytes req) b
    ∧ ∀ id n, writeRequest clientID id method call req n = Ok (net_Write id b n).
Proof.
  intros Hc Hf Hsm. destruct (rpc_headers_fit call clientID method EmptyString Hc) as (Hf1 & Hf2 & _).
  destruct (makeRPCPacket_ok [Msg (newRPCRequestHeader call clientID); Msg (newRequestHeader method); Msg (proto_bytes req)]
    [proto_bytes (newRPCRequestHeader call clientID); proto_bytes (newRequestHeader method); proto_bytes req]) as (p & E & _).
  { apply Forall2_cons_2; [by apply proto_Marshal_fits|]. apply Forall2_cons_2; [by apply proto_Marshal_fits|]. by apply Forall2_cons_2. }
  eexists. split; [by exists clientID|]. intros id n. unfold writeRequest.
  assert (makeRPCPacket [Msg (newRPCRequestHeader call clientID); Msg (newRequestHeader method); Msg req]
    = makeRPCPacket [Msg (newRPCRequestHeader call clientID); Msg (newRequestHeader method); Msg (proto_bytes req)]) as ->; [|by rewrite E].
  unfold makeRPCPacket. cbn [append_messages rpc_makePrefixedMessage]. by rewrite (proto_Marshal_fits req Hf).
Qed.

(** A host that answers a request with a failure is marked, and the loop goes
    on without it. *)
Lemma mark_connected T s e c n a : on_host T c a → active_host (nc_hostList c) → role a ≠ Active → in_time T s c n → s <= 4 →
  ∃ c' n', markFailure e c n = (c', n') ∧ rpc_state n' = rpc_state n ∧ same_client c c' ∧ resolvable T c' n'
    ∧ hosts_left T c' = hosts_left T c - 1.
Proof.
  intros (i & h & Hh & Hl & Ha & Hu) Hact Hna Ht Hs.
  pose proof (take_drop_middle _ _ _ Hl) as El. assert (i = length (take i (nc_hostList c))) as Hi.
  { rewrite length_take. apply lookup_lt_Some in Hl. lia. }
  destruct (mark_spec T s e c n (take i (nc_hostList c)) h (drop (S i) (nc_hostList c))) as (c' & n' & h' & E & Hst & Hn & Hsame & El' & Ht' & Hleft);
    [done|by rewrite <- Hi|done..|].
  exists c', n'. split_and!; try done. split; [|by left]. rewrite El'. rewrite <- El in Hact.
  apply Exists_app in Hact as [Hx|Hx]; [apply Exists_app; by left|]. apply Exists_cons in Hx as [[Hx _]|Hx]; [by rewrite Ha in Hx|].
  apply Exists_app. right. apply Exists_cons. by right.
Qed.

Definition answers_decode (method : string) (req : Q) : Prop := ∀ st : St,
  let body := snd (rpc_step method (proto_bytes req) st) in body ≠ [] → snd (proto_Unmarshal (M := A) body) = None.

Lemma execute_loop_ok T method call (req : Q) (resp : A) fuel : ∀ c n, 0 <= call < 2 ^ 31 → proto_fits req → small_request (nc_ClientID c) method (proto_bytes req) →
  answers_decode method req → resolvable T c n → hosts_left T c < Z.of_nat fuel →
  ∃ c' n' id a, execute_loop fuel method call req resp c n
      = Some (Ok None, answer_of resp (snd (rpc_step method (proto_bytes req) (rpc_state n))), c', n')
    ∧ rpc_state n' = fst (rpc_step method (proto_bytes req) (rpc_state n))
    ∧ connected T c' n' id a ∧ role a = Active ∧ active_host (nc_hostList c') ∧ same_client c c' ∧ in_time T 4 c' n'.
Proof.
  induction fuel as [|fuel IH]; intros c n Hcall Hfit Hsm Hdec Hres Hleft; [pose proof (hosts_left_bound T c); lia|].
  cbn [execute_loop]. destruct (resolve_ok T c n Hres) as (c1 & n1 & id & a & -> & Hc1 & Ht1 & Hs1 & Hsame1 & Hl1 & Ha1).
  rewrite (cn_conn _ _ _ _ _ Hc1). destruct (writeRequest_packet (nc_ClientID c1) method call req) as (b & Hb & Ew);
    [unfold is_i64; lia|done|by rewrite (proj1 Hsame1)|].
  rewrite Ew. destruct (pWrite_request id b a n1 call method (proto_bytes req) (cn_peer _ _ _ _ _ Hc1) Hb Hcall) as (err & n2 & -> & Hn2 & Hrole).
  assert (in_time T 4 c1 n2) as Ht2 by (apply (in_time_later T 3 1 c1 n1 n2); [done|lia]).
  assert (∀ e c2, nc_hostList c2 = nc_hostList c1 → nc_host c2 = nc_host c1 → same_client c1 c2 → role a ≠ Active → rpc_state n2 = rpc_state n1 →
    ∃ c' n' id a, (let '(c, n) := markFailure e c2 n2 in execute_loop fuel method call req resp c n)
      = Some (Ok None, answer_of resp (snd (rpc_step method (proto_bytes req) (rpc_state n))), c', n')
    ∧ rpc_state n' = fst (rpc_step method (proto_bytes req) (rpc_state n))
    ∧ connected T c' n' id a ∧ role a = Active ∧ active_host (nc_hostList c') ∧ same_client c c' ∧ in_time T 4 c' n') as Hfail.
  { intros e c2 El2 Eh2 Hsame2 Hna Hst2.
    destruct (mark_connected T 4 e c2 n2 a) as (c3 & n3 & -> & Hs3 & Hsame3 & Hres3 & Hl3); [|by rewrite El2|done|by apply (in_time_hosts T 4 c1)|lia|].
    { destruct (cn_host _ _ _ _ _ Hc1) as (i & h & ? & ? & ? & ?). exists i, h. rewrite El2, Eh2. done. }
    assert (hosts_left T c2 = hosts_left T c1) as Hl2 by (unfold hosts_left; by rewrite El2).
    assert (same_client c c3) as Hsame by (eapply same_client_trans; [exact Hsame1|]; by eapply same_client_trans).
    destruct (IH c3 n3) as (c' & n' & id' & a' & -> & Hst' & Hc' & Hr' & Ha' & Hsame' & Ht'); [done|done|by rewrite (proj1 Hsame)|done..|lia|].
    rewrite Hs3, Hst2, Hs1 in *. exists c', n', id', a'. split_and!; try done. by eapply same_client_trans. }
  assert (∀ packet, rd_rest (net_Reader id n2) = rd_rest (net_Reader id n1) ++ packet →
    mkReader (drop (length (rd_rest (net_Reader id n1))) (rd_rest (net_Reader id n2))) (rd_fail (net_Reader id n2))
      = mkReader (packet ++ []) (rd_fail (net_Reader id n2))) as Hread.
  { intros packet ->. by rewrite drop_app_length, app_nil_r. }
  destruct (role a) eqn:Ea; [destruct Hrole as [He Hst]; destruct err as [e|]; [by apply Hfail|done]..| |].
  - destruct Hrole as (hd & packet & -> & Hst & Hhd & Hfh & Hlh & Ep & Er). rewrite (Hread packet Er).
    destruct (readResponse_standby method call hd packet [] (rd_fail (net_Reader id n2)) resp) as (msg & ->); [done..|].
    cbn [is_standby]. rewrite String.eqb_refl. by apply Hfail.
  - destruct Hrole as (packet & -> & Hst & Hp2 & Ep & Er). rewrite (Hread packet Er).
    rewrite (readResponse_success method call _ packet [] _ resp Hcall (rpc_answer_short _ _ _) (Hdec _) Ep).
    cbn [rd_rest length]. rewrite Nat.sub_0_r, <- Hs1.
    eexists _, n2, id, a. split; [reflexivity|]. split_and!; try done; [|by apply (in_time_hosts T 4 c1)].
    destruct Hc1 as [_ _ Hr Hh]. split; [done|done|by rewrite Ea|done].
Qed.

(** A new call starts the clock anew. *)
Lemma resolvable_again T s c n id a : connected T c n id a → active_host (nc_hostList c) → in_time T s c n → resolvable (net_Now n) c n.
Proof.
  intros [Hp Hc Hr (i & h & Hh & Hl & Ha & Hu)] Hact [Hn Hb Hs Hpast]. pose proof delay_nonneg. split; [done|]. right. exists id, a. split.
  - split; [done..|]. exists i, h. split_and!; try done. unfold untried in *. destruct (nh_lastErrorAt h); [|done]. apply Z.ltb_lt in Hu. apply Z.ltb_lt. lia.
  - pose proof (hosts_left_bound (net_Now n) c). split; [lia|nia|done|done].
Qed.

Lemma resolvable_id T i c n : resolvable T c n → resolvable T (nc_setRequestID i c) n.
Proof.
  intros [Ha [[Hc Ht]|(id & a & [Hp Hc Hr Hh] & Ht)]]; (split; [done|]); [left|right].
  - split; [done|by apply (in_time_hosts T 0 c)].
  - exists id, a. split; [by split|by apply (in_time_hosts T 3 c)].
Qed.

(** Calls one after the other, as long as none fails. *)
Fixpoint run_calls (fuel : nat) (calls : list (string * Q)) (resp : A) c n : option (list A * NamenodeConnection * N) :=
  match calls with
  | [] => Some ([], c, n)
  | (method, req) :: calls =>
      match Execute fuel method req resp c n with
      | Some (Ok None, x, c, n) => '(xs, c, n) ← run_calls fuel calls resp c n; Some (x :: xs, c, n)
      | _ => None
      end
  end.
(** The same calls on the namespace. *)
Fixpoint rpc_run (calls : list (string * Q)) (st : St) : list (list byte) * St :=
  match calls with
  | [] => ([], st)
  | (method, req) :: calls =>
      let '(st, body) := rpc_step method (proto_bytes req) st in
      let '(bodies, st) := rpc_run calls st in (body :: bodies, st)
  end.

Lemma run_calls_ok fuel calls (resp : A) : ∀ c n, Forall (λ '(method, req), proto_fits req ∧ small_request (nc_ClientID c) method (proto_bytes req) ∧ answers_decode method req) calls →
  resolvable (net_Now n) c n → zlen (nc_hostList c) < Z.of_nat fuel → 0 <= nc_currentRequestID c → nc_currentRequestID c + zlen calls < 2 ^ 31 →
  ∃ c' n', run_calls fuel calls resp c n = Some (map (answer_of resp) (fst (rpc_run calls (rpc_state n))), c', n')
    ∧ rpc_state n' = snd (rpc_run calls (rpc_state n)).
Proof.
  induction calls as [|[method req] calls IH]; intros c n Hc Hres Hfuel Hid0 Hid; [by exists c, n|].
  apply Forall_cons in Hc as [(Hfit & Hsm & Hdec) Hc]. rewrite zlen_cons in Hid. pose proof (zlen_nonneg calls). cbn [run_calls rpc_run]. unfold Execute.
  set (c0 := nc_setRequestID (i32 (nc_currentRequestID c + 1)) c).
  assert (nc_currentRequestID c0 = nc_currentRequestID c + 1) as Ei by (apply i32_id; lia).
  destruct (execute_loop_ok (net_Now n) method (nc_currentRequestID c0) req resp fuel c0 n)
    as (c1 & n1 & id & a & E & Hst & Hc1 & Ha & Hact & Hsame & Ht); [lia|exact Hfit|exact Hsm|exact Hdec| | |].
  { by apply resolvable_id. }
  { pose proof (hosts_left_bound (net_Now n) c). exact (Z.le_lt_trans _ _ _ (proj2 (hosts_left_bound (net_Now n) c)) Hfuel). }
  rewrite E. destruct Hsame as (Hcid & _ & Hid1 & Hlen). change (nc_ClientID c0) with (nc_ClientID c) in Hcid. rewrite <- Hcid in Hc.
  destruct (IH c1 n1 Hc) as (c' & n' & -> & Hst'); [by apply (resolvable_again _ _ _ _ _ _ Hc1 Hact Ht)|by rewrite Hlen|lia..|].
  rewrite Hst in *. destruct (rpc_step method (proto_bytes req) (rpc_state n)) as [st body]. simpl in *.
  destruct (rpc_run calls st) as [bodies st']. by exists c', n'.
Qed.
End call.
End proofs.

(** C17: Every call reaches the namespace exactly once, and its answer the caller,
    if one namenode of the list is active and each of the others either refuses
    connections, or makes a write of the client fail, in the handshake or at a
    request, or is a standby that answers every request with an exception. (A
    connection that breaks while the answer is read is not covered: the call
    returns the error.) The network is so fast that five steps of it for every
    namenode take less than the backoff, so that a namenode that failed is not
    tried again within the same call; there are fewer than 2^31 calls, each with
    a request and an answer below 2^30 bytes. No call needs more turns than there
    are namenodes and one more. *)
Theorem namenode_calls_executed {N St Q A : Type} `{NamenodesSpec N St} `{ProtoSpec Q} `{Proto A} (addresses : list string) (user : string)
    (clientID : list byte) (calls : list (string * Q)) (resp : A) (n : N) :
  user ≠ EmptyString → Exists (λ a, role a = Active) addresses → 5 * delay * zlen addresses < backoffDuration →
  Forall (λ '(method, req), proto_fits req ∧ small_request clientID method (proto_bytes req) ∧ answers_decode (A := A) method req) calls →
  zlen calls < 2 ^ 31 →
  ∃ c n1 c' n', NewNamenodeConnection addresses user clientID n = (Ok (inl c), n1)
    ∧ run_calls (S (length addresses)) calls resp c n1 = Some (map (answer_of resp) (fst (rpc_run calls (rpc_state n))), c', n')
    ∧ rpc_state n' = snd (rpc_run calls (rpc_state n)).
Proof.
  intros Hu Ha Hd Hc Hlen. unfold NewNamenodeConnection. rewrite (proj2 (String.eqb_neq _ _) Hu). cbv zeta.
  set (c0 := mkNamenodeConnection _ _ _ _ _ _ _). pose proof delay_nonneg.
  assert (zlen (nc_hostList c0) = zlen addresses) as El by (unfold zlen; simpl; by rewrite length_map).
  assert (resolvable (net_Now n) c0 n) as Hr.
  { split.
    - unfold active_host. simpl. apply Exists_exists in Ha as (a & Hin & Ha). apply Exists_exists. exists (mkHost a None None).
      split; [by apply (list_elem_of_fmap_2 (λ addr, mkHost addr None None))|done].
    - left. split; [done|]. pose proof (hosts_left_bound (net_Now n) c0). split; [lia|nia|by rewrite El|].
      apply Forall_forall. intros h Hh. simpl in Hh. apply list_elem_of_fmap in Hh as (a & -> & _). done. }
  destruct (resolve_ok (net_Now n) c0 n Hr) as (c1 & n1 & id & a & -> & Hc1 & Ht1 & Hs1 & (Hcid & _ & Hid & Hl1) & _ & Ha1).
  destruct (run_calls_ok (S (length addresses)) calls resp c1 n1) as (c' & n' & E & Hst); [by rewrite Hcid|by apply (resolvable_again _ _ _ _ _ _ Hc1 Ha1 Ht1)|..].
  - rewrite Hl1, El. unfold zlen. lia.
  - by rewrite Hid.
  - rewrite Hid. simpl. lia.
  - rewrite Hs1 in *. by exists c1, n1, c', n'.
Qed.

(** ** A cluster to try it on

    Messages have an encoding of their own; the namespace is the list of the
    methods that were called, and the answer to a call the number of calls before
    it. *)
Module DemoNamenodes.
#[global] Instance raw_spec : ProtoSpec (list byte).
Proof. refine {| proto_fits _ := True; proto_bytes b := b |}; done. Defined.

Definition tag : byte := byte_of_Z 1.
#[global] Instance rr_proto : Proto RpcRequestHeaderProto := {
  proto_Marshal m := (marshalUint64 [] (u64 (rr_CallId m)) ++ rr_ClientId m, None);
  proto_Unmarshal b := match unmarshalUint64Safe b with Ok (v, rest) => (mkRpcRequestHeader (i64 v) rest, None) | _ => (mkRpcRequestHeader 0 [], Some EOF) end
}.
#[global] Instance rr_spec : ProtoSpec RpcRequestHeaderProto.
Proof.
  refine {| proto_fits m := is_i64 (rr_CallId m); proto_bytes m := marshalUint64 [] (u64 (rr_CallId m)) ++ rr_ClientId m |}; [done|].
  intros [call cid] Hc. cbn in Hc. cbn -[marshalUint64 unmarshalUint64Safe]. rewrite unmarshalUint64Safe_marshal by apply u64_range.
  do 2 f_equal. unfold i64, u64. unfold is_i64 in Hc. rewrite Zplus_mod_idemp_l. rewrite Z.mod_small; lia.
Defined.
#[global] Instance rq_proto : Proto RequestHeaderProto := {
  proto_Marshal m := (tag :: bytes_of_string (rq_MethodName m), None);
  proto_Unmarshal b := (newRequestHeader (string_of_bytes (drop 1 b)), None)
}.
#[global] Instance rq_spec : ProtoSpec RequestHeaderProto.
Proof.
  refine {| proto_fits m := m = newRequestHeader (rq_MethodName m); proto_bytes m := tag :: bytes_of_string (rq_MethodName m) |}; [done|].
  intros [m cl v] [= -> ->]. unfold proto_Unmarshal, rq_proto. cbn [drop rq_MethodName]. by rewrite drop_0, string_of_bytes_of_string.
Defined.
#[global] Instance cc_proto : Proto IpcConnectionContextProto := {
  proto_Marshal m := (tag :: bytes_of_string (cc_EffectiveUser m), None);
  proto_Unmarshal b := (newConnectionContext (string_of_bytes (drop 1 b)) EmptyString, None)
}.
#[global] Instance cc_spec : ProtoSpec IpcConnectionContextProto.
Proof.
  refine {| proto_fits m := m = newConnectionContext (cc_EffectiveUser m) EmptyString; proto_bytes m := tag :: bytes_of_string (cc_EffectiveUser m) |}; [done|].
  intros [m cl] [= ->]. unfold proto_Unmarshal, cc_proto. cbn [drop cc_EffectiveUser]. by rewrite drop_0, string_of_bytes_of_string.
Defined.
#[global] Instance rh_proto : Proto RpcResponseHeaderProto := {
  proto_Marshal m := (marshalUint32 [] (rh_CallId m) ++ byte_of_Z (rh_Status m) :: bytes_of_string (rh_ExceptionClassName m), None);
  proto_Unmarshal b :=
    match unmarshalUint32 b with
    | Ok (v, s :: rest) => (mkRpcResponseHeader v (Z_of_byte s) (string_of_bytes rest) EmptyString, None)
    | _ => (mkRpcResponseHeader 0 0 EmptyString EmptyString, Some EOF)
    end
}.
#[global] Instance rh_spec : ProtoSpec RpcResponseHeaderProto.
Proof.
  refine {| proto_fits m := is_u32 (rh_CallId m) ∧ 0 <= rh_Status m < 256 ∧ rh_ErrorMsg m = EmptyString;
    proto_bytes m := marshalUint32 [] (rh_CallId m) ++ byte_of_Z (rh_Status m) :: bytes_of_string (rh_ExceptionClassName m) |}; [done|].
  intros [call st ex msg] (Hc & Hs & Hm). cbn in Hc, Hs, Hm. subst msg. cbn -[marshalUint32 unmarshalUint32 string_of_bytes bytes_of_string].
  rewrite unmarshalUint32_marshal, u32_id, string_of_bytes_of_string, Z_of_byte_of_Z by done. unfold u8. by rewrite Z.mod_small.
Defined.

Definition role_of (a : string) : Role :=
  if String.eqb a "active" then Active else if String.eqb a "standby" then Standby else if String.eqb a "breaks" then FailsWrites else Refuses.
(** Connections: whom they lead to, how far the handshake is, what was answered. *)
Record cluster := mkCluster { conns : list (string * nat * list byte); called : list string }.
Definition step (method : string) (body : list byte) (st : list string) : list string * list byte := (st ++ [method], [byte_of_Z (zlen st)]).
Definition standby_answer (call : Z) : RpcResponseHeaderProto := mkRpcResponseHeader call 1 standbyExceptionClass EmptyString.
Definition packet_of (msgs : list message) : list byte := match makeRPCPacket msgs with Ok b => b | _ => [] end.
Definition parse (b : list byte) : RpcRequestHeaderProto * RequestHeaderProto * list byte :=
  let '(_, st, _) := readRPCPacket [λ b '(_, rh, body), let '(rrh, err) := proto_Unmarshal b in ((rrh, rh, body), err);
      λ b '(rrh, _, body), let '(rh, err) := proto_Unmarshal b in ((rrh, rh, body), err);
      λ b '(rrh, rh, _), ((rrh, rh, b), None)]
    (mkReader b EOF) (mkRpcRequestHeader 0 [], newRequestHeader EmptyString, []) in st.
Definition serve (id : nat) (b : list byte) (n : cluster) : option error * cluster :=
  match conns n !! id with
  | Some (a, 2%nat, out) =>
      let '(rrh, rh, body) := parse b in
      match role_of a with
      | Active =>
          let '(st, res) := step (rq_MethodName rh) body (called n) in
          (None, mkCluster (<[id := (a, 2%nat, out ++ packet_of [Msg (success_header (rr_CallId rrh)); Msg res])]> (conns n)) st)
      | Standby => (None, mkCluster (<[id := (a, 2%nat, out ++ packet_of [Msg (standby_answer (rr_CallId rrh))])]> (conns n)) (called n))
      | _ => (Some EOF, n)
      end
  | Some (a, phase, out) => (None, mkCluster (<[id := (a, S phase, out)]> (conns n)) (called n))
  | None => (Some EOF, n)
  end.
#[global] Instance cluster_network : Network cluster := {
  net_Dial a n := match role_of a with
                  | Refuses => (inr (EMsg "connection refused"), n)
                  | _ => (inl (length (conns n)), mkCluster (conns n ++ [(a, 0%nat, [])]) (called n))
                  end;
  net_Write := serve;
  net_Reader id n := mkReader (match conns n !! id with Some (_, _, out) => out | None => [] end) EOF;
  net_SetDeadline _ _ n := (None, n);
  net_Close _ n := n;
  net_Now _ := 0
}.

Lemma parse_request call method body b : 0 <= call < 2 ^ 31 → request_packet call method body b →
  ∃ cid, parse b = (newRPCRequestHeader call cid, newRequestHeader method, body).
Proof.
  intros Hc (cid & (Hcid & Hm & Hb) & E). exists cid.
  assert (is_i64 call) as Hi by (unfold is_i64; lia).
  set (h1 := newRPCRequestHeader call cid) in *. set (h2 := newRequestHeader method) in *.
  assert (zlen (bytes_of_string method) = slen method) as Hms.
  { unfold zlen, slen, bytes_of_string. f_equal. clear. induction method; simpl; [done|]. by f_equal. }
  destruct (makeRPCPacket_ok [Msg h1; Msg h2; Msg body] [proto_bytes h1; proto_bytes h2; body]) as (p & E' & Hp).
  { apply Forall2_cons_2; [done|]. apply Forall2_cons_2; [done|]. by apply Forall2_cons_2. }
  assert (zlen (proto_bytes h1) = 8 + zlen cid) as L1 by (cbn; rewrite zlen_app; done).
  assert (zlen (proto_bytes h2) = 1 + slen method) as L2 by (cbn -[bytes_of_string]; rewrite zlen_cons; by rewrite Hms).
  assert (b = marshalUint32 [] (u32 (zlen p)) ++ p) as -> by congruence. clear E E'. pose proof (zlen_nonneg cid). pose proof (zlen_nonneg body).
  destruct Hp as (ls & Hls & Ep); [repeat constructor; lia|].
  unfold parse. rewrite <- (app_nil_r (marshalUint32 [] (u32 (zlen p)) ++ p)).
  inversion Hls as [|l1 ? ? ? Hf1 Hls']; subst. inversion Hls' as [|l2 ? ? ? Hf2 Hls'']; subst. inversion Hls'' as [|l3 ? ? ? Hf3 Hls3]; subst.
  inversion Hls3; subst.
  rewrite readRPCPacket_packet; cbn [zip_with concat]. 2: { rewrite !zlen_app. destruct Hf1 as [? _], Hf2 as [? _], Hf3 as [? _]. change (zlen (@nil byte)) with 0. lia. }
  rewrite <- !app_assoc. rewrite read_messages_framed by done. rewrite (proj2 (Z.eqb_neq _ _)) by lia.
  rewrite proto_Unmarshal_bytes by done. rewrite read_messages_framed by done. rewrite (proj2 (Z.eqb_neq _ _)) by (rewrite L2; unfold slen; lia).
  rewrite proto_Unmarshal_bytes by done. rewrite read_messages_framed by done.
  destruct (Z.eqb_spec (zlen body) 0) as [Hz|Hz]; rewrite read_messages_nil; [|done]. by rewrite (zlen_nil_inv body) by lia.
Qed.

Lemma packet_of_ok msgs bs : Forall2 marshals msgs bs → makeRPCPacket msgs = Ok (packet_of msgs).
Proof. intros Hm. unfold packet_of. destruct (makeRPCPacket_ok msgs bs Hm) as (p & -> & _). done. Qed.

#[global] Instance namenodes_spec : NamenodesSpec cluster (list string).
Proof.
  refine {| role := role_of; rpc_state := called; rpc_step := step; delay := 0;
    peer id n := match conns n !! id with Some (a, phase, _) => Some (a, phase) | None => None end |}; try done.
  - intros call Hc. cbn -[Z.lt Z.le]. split; [unfold is_u32; split_and!; lia || done|]. unfold zlen. simpl. lia.
  - intros a n. cbn [net_Dial cluster_network]. destruct (role_of a) eqn:Ea; eexists _, _; (split; [reflexivity|]); (split; [done|]);
      (split; [simpl; lia|]); [by eexists|..]; (eexists; split; [reflexivity|]); simpl; rewrite lookup_app_r, Nat.sub_diag by lia; done.
  - intros id b a phase n Hp Hb. cbn [net_Write cluster_network]. unfold serve.
    destruct (conns n !! id) as [[[a' phase'] out]|] eqn:El; [|done]. injection Hp as -> ->. pose proof (lookup_lt_Some _ _ _ El) as Hlt.
    destruct Hb as [[-> ->]|[-> _]]; eexists _, _; (split; [reflexivity|]); (split; [done|]); (split; [simpl; lia|]); simpl;
      rewrite list_lookup_insert_eq by done; rewrite El; done.
  - intros id b a n call method body Hp Hb Hc. cbn [net_Write cluster_network]. unfold serve.
    destruct (conns n !! id) as [[[a' phase'] out]|] eqn:El; [|done]. injection Hp as -> ->. pose proof (lookup_lt_Some _ _ _ El) as Hlt.
    destruct (parse_request call method body b Hc Hb) as (cid & ->). cbn [rq_MethodName newRequestHeader rr_CallId newRPCRequestHeader].
    destruct (role_of a) eqn:Ea; eexists _, _; (split; [reflexivity|]); (split; [simpl; lia|]).
    + done.
    + done.
    + eexists (standby_answer call), _. split; [done|]. split; [done|]. split; [done|]. split; [cbn; unfold is_u32; split_and!; lia || done|].
      split; [split; vm_compute; reflexivity|]. split; [eapply packet_of_ok; by apply Forall2_cons_2|].
      simpl. rewrite list_lookup_insert_eq by done. by rewrite El.
    + eexists. split; [done|]. split; [done|]. simpl. rewrite list_lookup_insert_eq by done. split; [done|].
      split; [eapply packet_of_ok; apply Forall2_cons_2; [done|]; by apply Forall2_cons_2|]. by rewrite El.
Defined.
End DemoNamenodes.

Lemma namenode_calls_executed_witness :
  ∃ c n1 c' n', NewNamenodeConnection ["dead"; "breaks"; "standby"; "active"]%string "hdfs" (bytes_of_string "abcdefghijklmnop") (DemoNamenodes.mkCluster [] [])
      = (Ok (inl c), n1)
    ∧ run_calls 5 [("mkdirs"%string, bytes_of_string "/a"); ("rename2"%string, bytes_of_string "/a /b")] [] c n1
      = Some ([[byte_of_Z 0]; [byte_of_Z 1]], c', n')
    ∧ DemoNamenodes.called n' = ["mkdirs"; "rename2"]%string.
Proof.
  destruct (namenode_calls_executed (N := DemoNamenodes.cluster) (Q := list byte) (A := list byte) ["dead"; "breaks"; "standby"; "active"]%string "hdfs" (bytes_of_string "abcdefghijklmnop")
    [("mkdirs"%string, bytes_of_string "/a"); ("rename2"%string, bytes_of_string "/a /b")] [] (DemoNamenodes.mkCluster [] []))
    as (c & n1 & c' & n' & E & Er & Es); [done|apply Exists_exists; exists "active"%string; split; [set_solver|done]|done| |done|].
  - repeat constructor; try done; vm_compute; try done; lia.
  - exists c, n1, c', n'. split; [exact E|]. split; [exact Er|exact Es].
Defined.

(** The check of a length looks at the packet with the length still in it: a
    packet whose message is announced longer than it is makes the slice
    expression panic. *)
Example short_packet_panics (unmarshal : list byte → unit → unit * option error) :
  fst (fst (readRPCPacket [unmarshal] (mkReader (map byte_of_Z [0; 0; 0; 2; 2; 7]) EOF) tt)) = Panic.
Proof. by vm_compute. Qed.
