(* ===== verification/HdfsMeta.v ===== *)
(** * Calls on the namespace of HDFS

    The methods of [Client] that are one or two calls to the namenode: hdfs/mkdir.go,
    perms.go, remove.go, rename.go, stat.go, stat_fs.go, content_summary.go,
    snapshot.go and xattr.go; those built on readers of files: walk.go and
    [ReadFile] of client.go; the options and caches of client.go; and the list of
    namenodes of hadoopconf/hadoopconf.go. *)
From stdpp Require Import base tactics option list strings gmap sorting.
From Stdlib Require Import Ascii ZArith Lia.
From S2P Require Import Prelude GoOs SftpWire GoPath GoStrconv HdfsTransfer HdfsStream HdfsReader.

(** ** Requests and responses

    The arguments of [Execute], one constructor per method of the namenode. *)
Record XAttrProto := mkXAttr { xa_Namespace : Z; xa_Name : string; xa_Value : string }.
Inductive meta_request :=
  | Mkdirs (src : string) (masked : Z) (createParent : bool)
  | SetPermission (src : string) (perm : Z)
  | SetOwner (src username groupname : string)
  | SetTimes (src : string) (mtime atime : Z)
  | DeleteRequest (src : string) (recursive : bool)
  | Rename2 (src dst : string) (overwriteDest : bool)
  | GetFsStats
  | GetContentSummaryRequest (path : string)
  | AllowSnapshot (root : string)
  | DisallowSnapshot (root : string)
  | CreateSnapshotRequest (root name : string)
  | DeleteSnapshotRequest (root name : string)
  | ListXAttrsRequest (src : string)
  | GetXAttrsRequest (src : string) (attrs : list XAttrProto)
  | SetXAttrRequest (src : string) (attr : XAttrProto) (flag : Z)
  | RemoveXAttrRequest (src : string) (attr : XAttrProto)
  | GetServerDefaults
  | GetDataEncryptionKey.
Record ContentSummaryProto := mkSummary {
  cs_Length : Z; cs_FileCount : Z; cs_DirectoryCount : Z; cs_Quota : Z; cs_SpaceConsumed : Z; cs_SpaceQuota : Z
}.
Record FsInfo := mkFsInfo {
  Capacity : Z; Used : Z; Remaining : Z; UnderReplicated : Z; CorruptBlocks : Z; MissingBlocks : Z; MissingReplOneBlocks : Z;
  BlocksInFuture : Z; PendingDeletionBlocks : Z
}.
(** As the getters show them; the result of a delete may be missing. *)
Record meta_response := mkResponse {
  rs_Result : option bool;
  rs_FsStats : FsInfo;
  rs_Summary : ContentSummaryProto;
  rs_SnapshotPath : string;
  rs_XAttrs : list XAttrProto;
  rs_EncryptDataTransfer : bool;
  rs_DataEncryptionKey : option string
}.
Class Metadata (N : Type) := nn_Execute : meta_request → N → (meta_response + error) * N.

(** [strings.ToLower] on ASCII letters *)
Definition lower (c : Ascii.ascii) : Ascii.ascii :=
  let n := Ascii.N_of_ascii c in if (65 <=? n)%N && (n <=? 90)%N then Ascii.ascii_of_N (n + 32) else c.
Fixpoint strings_ToLower (s : string) : string :=
  match s with EmptyString => EmptyString | String c s => String (lower c) (strings_ToLower s) end.
(** [strings.SplitN(s, sep, 2)] *)
Fixpoint strings_Cut (s : string) (sep : Ascii.ascii) : option (string * string) :=
  match s with
  | EmptyString => None
  | String c s =>
      if decide (c = sep) then Some (EmptyString, s)
      else '(a, b) ← strings_Cut s sep; Some (String c a, b)
  end.

Section calls.
Context {N : Type} `{Network N} `{Namenode N} `{Metadata N}.
Implicit Types (env : Env N).

(** A call whose response does not matter. *)
Definition execute (req : meta_request) env : (meta_response + error) * Env N :=
  let '(r, n) := nn_Execute req (net env) in (r, set_net n env).
Definition call_at (name : string) (req : meta_request) env : option error * Env N :=
  match execute req env with
  | (inr e, env) => (Some (path_error name (interpretException e)), env)
  | (inl _, env) => (None, env)
  end.

(** *** stat.go, mkdir.go, perms.go *)
Definition client_Stat (name : string) env : (FileInfo + error) * Env N :=
  match getFileInfo name env with
  | (inl fi, env) => (inl fi, env)
  | (inr e, env) => (inr (path_error name (interpretException e)), env)
  end.

Definition client_mkdir (dirname : string) (perm : Z) (createParent : bool) env : option error * Env N :=
  let dirname := Clean dirname in
  match getFileInfo dirname env with
  | (inl info, env) => (if createParent && fi_IsDir info then None else Some (path_error dirname (ESyscall EEXIST)), env)
  | (inr e, env) =>
      let e := interpretException e in
      if negb (os_IsNotExist (Some e)) then (Some (path_error dirname e), env)
      else call_at dirname (Mkdirs dirname perm createParent) env
  end.
Definition client_Mkdir (dirname : string) (perm : Z) env : option error * Env N := client_mkdir dirname perm false env.
Definition client_MkdirAll (dirname : string) (perm : Z) env : option error * Env N := client_mkdir dirname perm true env.

Definition client_Chmod (name : string) (perm : Z) env : option error * Env N := call_at name (SetPermission name perm) env.
Definition client_Chown (name user group : string) env : option error * Env N := call_at name (SetOwner name user group) env.
(** Times are seconds. *)
Definition client_Chtimes (name : string) (atime mtime : Z) env : option error * Env N :=
  call_at name (SetTimes name (u64 (u64 mtime * 1000)) (u64 (u64 atime * 1000))) env.

(** *** remove.go, rename.go *)
Definition client_delete (name : string) (recursive : bool) env : option error * Env N :=
  match getFileInfo name env with
  | (inr e, env) => (Some (path_error name e), env)
  | (inl _, env) =>
      match execute (DeleteRequest name recursive) env with
      | (inr e, env) => (Some (path_error name (interpretException e)), env)
      | (inl resp, env) =>
          (match rs_Result resp with None => Some (path_error name (EMsg "unexpected empty response")) | Some _ => None end, env)
      end
  end.
Definition client_Remove (name : string) env : option error * Env N := client_delete name false env.
Definition client_RemoveAll (name : string) env : option error * Env N :=
  let '(err, env) := client_delete name true env in (if os_IsNotExist err then None else err, env).

Definition client_Rename (oldpath newpath : string) env : option error * Env N :=
  let '(err, env) := match getFileInfo newpath env with
                     | (inl _, env) => (None, env)
                     | (inr e, env) => (Some (interpretException e), env)
                     end in
  match err with
  | Some e =>
      if negb (os_IsNotExist err) then (Some (path_error newpath e), env)
      else call_at oldpath (Rename2 oldpath newpath true) env
  | None => call_at oldpath (Rename2 oldpath newpath true) env
  end.

(** *** stat_fs.go, content_summary.go, snapshot.go *)
Definition client_StatFs env : (FsInfo + error) * Env N :=
  match execute GetFsStats env with
  | (inr e, env) => (inr e, env)
  | (inl resp, env) =>
      let s := rs_FsStats resp in
      (inl (mkFsInfo (Capacity s) (Used s) (Remaining s) (UnderReplicated s) (CorruptBlocks s) (MissingBlocks s) (MissingReplOneBlocks s)
              (BlocksInFuture s) (PendingDeletionBlocks s)), env)
  end.

Record ContentSummary := mkContentSummary { sum_name : string; sum_proto : ContentSummaryProto }.
Definition client_GetContentSummary (name : string) env : (ContentSummary + error) * Env N :=
  match execute (GetContentSummaryRequest name) env with
  | (inr e, env) => (inr (path_error name (interpretException e)), env)
  | (inl resp, env) => (inl (mkContentSummary name (rs_Summary resp)), env)
  end.
Definition Summary_Size (cs : ContentSummary) : Z := i64 (cs_Length (sum_proto cs)).
Definition Summary_SizeAfterReplication (cs : ContentSummary) : Z := i64 (cs_SpaceConsumed (sum_proto cs)).
Definition Summary_FileCount (cs : ContentSummary) : Z := i64 (cs_FileCount (sum_proto cs)).
Definition Summary_DirectoryCount (cs : ContentSummary) : Z := i64 (cs_DirectoryCount (sum_proto cs)).
Definition Summary_NameQuota (cs : ContentSummary) : Z := i64 (cs_Quota (sum_proto cs)).
Definition Summary_SpaceQuota (cs : ContentSummary) : Z := i64 (cs_SpaceQuota (sum_proto cs)).

(** The errors of snapshots carry no path. *)
Definition snapshot_call (req : meta_request) env : option error * Env N :=
  match execute req env with (inr e, env) => (Some (interpretException e), env) | (inl _, env) => (None, env) end.
Definition client_AllowSnapshots (dir : string) env : option error * Env N := snapshot_call (AllowSnapshot dir) env.
Definition client_DisallowSnapshots (dir : string) env : option error * Env N := snapshot_call (DisallowSnapshot dir) env.
Definition client_CreateSnapshot (dir name : string) env : (string + error) * Env N :=
  match execute (CreateSnapshotRequest dir name) env with
  | (inr e, env) => (inr (interpretException e), env)
  | (inl resp, env) => (inl (rs_SnapshotPath resp), env)
  end.
Definition client_DeleteSnapshot (dir name : string) env : option error * Env N := snapshot_call (DeleteSnapshotRequest dir name) env.

(** *** xattr.go

    Namespaces are the numbers of the enumeration; [String()] writes one without
    a name as its number. *)
Definition namespaces : list string := ["USER"; "TRUSTED"; "SECURITY"; "SYSTEM"; "RAW"]%string.
Definition namespace_String (ns : Z) : string :=
  match (if ns <? 0 then None else namespaces !! Z.to_nat ns) with Some s => s | None => Itoa ns end.
Definition createAndReplace : Z := 3.
Definition errXAttrKeysNotFound : error := EMsg "one or more keys not found".
Definition splitKey (key : string) : (Z * string) + error :=
  match strings_Cut key "."%char with
  | None => inr (EMsg ("invalid key: '" +:+ key +:+ "'"))
  | Some (ns, rest) =>
      let ns' := strings_ToLower ns in
      if String.eqb ns' "user" then inl (0, rest)
      else if String.eqb ns' "trusted" then inl (1, rest)
      else if String.eqb ns' "system" then inl (3, rest)
      else if String.eqb ns' "security" then inl (2, rest)
      else if String.eqb ns' "raw" then inl (4, rest)
      else inr (EMsg ("invalid key namespace: '" +:+ ns +:+ "'"))
  end.
Definition xattr_key (x : XAttrProto) : string := strings_ToLower (namespace_String (xa_Namespace x)) +:+ "." +:+ xa_Name x.
Definition xattrMap (attrs : list XAttrProto) : gmap string string :=
  foldl (λ m x, <[xattr_key x := xa_Value x]> m) ∅ attrs.
Definition isKeyNotFound (err : error) : bool :=
  match err with
  | ENamenode _ message =>
      strings_HasPrefix message "At least one of the attributes provided was not found"
      || strings_HasPrefix message "No matching attributes found for remove operation"
  | _ => false
  end.

Definition client_ListXAttrs (name : string) env : (gmap string string + error) * Env N :=
  match execute (ListXAttrsRequest name) env with
  | (inr e, env) => (inr (path_error name (interpretException e)), env)
  | (inl resp, env) => (inl (xattrMap (rs_XAttrs resp)), env)
  end.
Fixpoint split_keys (keys : list string) : list XAttrProto + error :=
  match keys with
  | [] => inl []
  | key :: keys =>
      match splitKey key with
      | inr e => inr e
      | inl (ns, rest) => match split_keys keys with inl l => inl (mkXAttr ns rest EmptyString :: l) | inr e => inr e end
      end
  end.
Definition client_GetXAttrs (name : string) (keys : list string) env : (gmap string string + error) * Env N :=
  if bool_decide (keys = []) then (inl ∅, env)
  else
    match split_keys keys with
    | inr e => (inr (path_error name e), env)
    | inl attrs =>
        match execute (GetXAttrsRequest name attrs) env with
        | (inr e, env) => (inr (path_error name (if isKeyNotFound e then errXAttrKeysNotFound else interpretException e)), env)
        | (inl resp, env) => (inl (xattrMap (rs_XAttrs resp)), env)
        end
    end.
Definition client_SetXAttr (name key value : string) env : option error * Env N :=
  match splitKey key with
  | inr e => (Some (path_error name e), env)
  | inl (ns, rest) => call_at name (SetXAttrRequest name (mkXAttr ns rest value) createAndReplace) env
  end.
Definition client_RemoveXAttr (name key : string) env : option error * Env N :=
  match splitKey key with
  | inr e => (Some (path_error name e), env)
  | inl (ns, rest) =>
      match execute (RemoveXAttrRequest name (mkXAttr ns rest EmptyString)) env with
      | (inr e, env) => (Some (path_error name (if isKeyNotFound e then errXAttrKeysNotFound else interpretException e)), env)
      | (inl _, env) => (None, env)
      end
  end.

(** *** The caches of client.go

    The settings of the cluster and the key are asked for once. *)
Record caches := mkCaches { cc_DataTransferProtection : string; cc_defaults : option bool; cc_encryptionKey : option string }.
Definition fetchDefaults (c : caches) env : (bool + error) * caches * Env N :=
  match cc_defaults c with
  | Some d => (inl d, c, env)
  | None =>
      match execute GetServerDefaults env with
      | (inr e, env) => (inr e, c, env)
      | (inl resp, env) =>
          let d := rs_EncryptDataTransfer resp in (inl d, mkCaches (cc_DataTransferProtection c) (Some d) (cc_encryptionKey c), env)
      end
  end.
Definition fetchDataEncryptionKey (c : caches) env : (option string + error) * caches * Env N :=
  match cc_encryptionKey c with
  | Some k => (inl (Some k), c, env)
  | None =>
      match execute GetDataEncryptionKey env with
      | (inr e, env) => (inr e, c, env)
      | (inl resp, env) =>
          let k := rs_DataEncryptionKey resp in (inl k, mkCaches (cc_DataTransferProtection c) (cc_defaults c) k, env)
      end
  end.
(** The dialer that is returned: the plain one, or one that negotiates with a key,
    a token and a level of protection. *)
Inductive dialer := PlainDial | SaslDial (key : option string) (token : string) (enforceQop : string).
Definition wrapDatanodeDial (token : string) (c : caches) env : (dialer + error) * caches * Env N :=
  let '(wrap, c, env) :=
    if negb (String.eqb (cc_DataTransferProtection c) EmptyString) then (inl true, c, env) else fetchDefaults c env in
  match wrap with
  | inr e => (inr e, c, env)
  | inl false => (inl PlainDial, c, env)
  | inl true =>
      match fetchDataEncryptionKey c env with
      | (inr e, c, env) => (inr e, c, env)
      | (inl key, c, env) => (inl (SaslDial key token (cc_DataTransferProtection c)), c, env)
      end
  end.
End calls.

(** ** Readers of files *)
Section files.
Context {N : Type} `{Network N} `{Namenode N} `{Proto PacketHeaderProto} `{Proto OpReadBlockProto} `{Proto OpBlockChecksumProto}.
Context `{Proto BlockOpResponseProto} `{StatusNames} `{BufferGrowth} (client : Client).
Implicit Types (f : FileReader) (env : Env N).

(** [ioutil.ReadAll]: the free space of the buffer before the [k]-th read is an
    argument. *)
Fixpoint read_to_end (fuel : nat) (space : nat → Z) (k : nat) (acc : list byte) f env
    : option (result (list byte * option error)) * FileReader * Env N :=
  match fuel with
  | O => (None, f, env)
  | S fuel =>
      match FileReader_Read client 2 (space k) f env with
      | (Ok (b, err), f, env) =>
          match err with
          | None => read_to_end fuel space (S k) (acc ++ b) f env
          | Some e => (Some (Ok (acc ++ b, if bool_decide (e = EOF) then None else Some e)), f, env)
          end
      | (Err e, f, env) => (Some (Err e), f, env)
      | (Panic, f, env) => (Some Panic, f, env)
      end
  end.
Definition client_ReadFile (fuel : nat) (space : nat → Z) (filename : string) env : option (result (list byte * option error)) * Env N :=
  match client_Open filename env with
  | (inr e, env) => (Some (Ok ([], Some e)), env)
  | (inl f, env) =>
      let '(r, f, env) := read_to_end fuel space 0 [] f env in let '(_, env) := FileReader_Close f env in (r, env)
  end.

(** *** walk.go

    The function is given a path, the file when it could be opened, and an error;
    it may keep a state of its own. [filepath.SkipDir] is an error with a name. *)
Definition SkipDir : error := EMsg "skip this directory".
Context {V : Type} (walkFn : string → option FileInfo → option error → V → option error * V).

(** The depth of the tree is enough fuel; [pages] is enough for a listing. *)
Fixpoint walk (fuel pages : nat) (path : string) (v : V) env : option (option error * V * Env N) :=
  match fuel with
  | O => None
  | S fuel =>
      let '(o, env) := client_Open path env in
      let '(info, err) := match o with inl f => (Some (fr_info f), None) | inr e => (None, Some e) end in
      let '(err, v) := walkFn path info err v in
      match err, o with
      | Some e, inl f => Some (if fi_IsDir (fr_info f) && bool_decide (e = SkipDir) then None else Some e, v, env)
      | Some e, inr _ => Some (Some e, v, env)
      | None, inr _ => Some (None, v, env)
      | None, inl f =>
          if negb (fi_IsDir (fr_info f)) then Some (None, v, env)
          else
            match FileReader_Readdirnames pages 0 f env with
            | (None, _, _) => None
            | (Some (inr e), _, env) => let '(err, v) := walkFn path info (Some e) v in Some (err, v, env)
            | (Some (inl names), _, env) =>
                (fix loop (names : list string) (v : V) env :=
                  match names with
                  | [] => Some (None, v, env)
                  | name :: names =>
                      match walk fuel pages (Join [path; name]) v env with
                      | Some (None, v, env) => loop names v env
                      | r => r
                      end
                  end) (merge_sort String.le names) v env
            end
      end
  end.
End files.

(** ** Namenodes of a Hadoop configuration (hadoopconf.go)

    [url.Parse], as far as the host goes; a value that is not a URL makes it
    return nil, whose host cannot be read. *)
Section conf.
Context (url_Host : string → option string).
Definition cluster_prefix : string := "dfs.ha.namenodes.".
Definition rpc_prefix : string := "dfs.namenode.rpc-address.".
(** The keys of a map come in any order. *)
Fixpoint collect (l : list (string * string)) (nns : gset string) (clusters : list string) : result (gset string * list string) :=
  match l with
  | [] => Ok (nns, clusters)
  | (key, value) :: l =>
      if strings_Contains key "fs.default" then
        match url_Host value with Some host => collect l ({[host]} ∪ nns) clusters | None => Panic end
      else if strings_HasPrefix key rpc_prefix then collect l ({[value]} ∪ nns) clusters
      else if strings_HasPrefix key cluster_prefix then
        collect l nns (clusters ++ [String.substring (String.length cluster_prefix) (String.length key - String.length cluster_prefix) key])
      else collect l nns clusters
  end.
Definition Namenodes (conf : list (string * string)) : result (list string) :=
  '(nns, clusters) ← collect conf ∅ [];
  Ok (merge_sort String.le (elements (nns ∖ list_to_set clusters))).

(** [ClientOptionsFromConf] (client.go). A Kerberos client is only noted. *)
Record ClientOptions := mkOptions {
  o_Addresses : list string;
  o_UseDatanodeHostname : bool;
  o_Kerberos : bool;
  o_KerberosServicePrincipleName : string;
  o_DataTransferProtection : string
}.
Definition conf_get (conf : list (string * string)) (key : string) : string :=
  default EmptyString ((list_to_map conf : gmap string string) !! key).
Definition protection (vals : list string) : string :=
  foldl (λ p val, if bool_decide (val ∈ ["privacy"; "integrity"; "authentication"]%string) then val else p) EmptyString vals.
Definition ClientOptionsFromConf (conf : list (string * string)) : result ClientOptions :=
  addresses ← Namenodes conf;
  let principal := conf_get conf "dfs.namenode.kerberos.principal" in
  let dataTransferProt := merge_sort String.le (strings_Split (strings_ToLower (conf_get conf "dfs.data.transfer.protection")) ","%char) in
  Ok (mkOptions addresses
        (String.eqb (conf_get conf "dfs.client.use.datanode.hostname") "true")
        (String.eqb (strings_ToLower (conf_get conf "hadoop.security.authentication")) "kerberos")
        (if String.eqb principal EmptyString then EmptyString else default EmptyString (head (strings_Split principal "@"%char)))
        (if String.eqb (strings_ToLower (conf_get conf "dfs.encrypt.data.transfer")) "true" then "privacy"%string
         else protection dataTransferProt)).
End conf.

(** ** The namespace, as far as listings need it

    A directory lists its entries in an order of the namenode's own, a page at
    a time: the request for the next page names the last entry seen, and the
    page goes on behind that entry. *)
Fixpoint following (last : string) (l : list FileStatus) : list FileStatus :=
  match l with
  | [] => []
  | c :: l => if String.eqb (fs_Path c) last then l else following last l
  end.
Definition startAfter (last : string) (l : list FileStatus) : list FileStatus :=
  if String.eqb last EmptyString then l else following last l.

Class ListingSpec (N : Type) `{Namenode N} := {
  ns_ok : N → Prop;
  ns_status : string → option FileStatus;
  ns_children : string → list FileStatus;
  ns_perm name st : ns_status name = Some st → 0 <= fs_Perm st < 2 ^ 31;
  ns_info name n : ns_ok n → ∃ n', nn_getFileInfo name n = (inl (ns_status name), n') ∧ ns_ok n';
  ns_distinct dir : NoDup (map fs_Path (ns_children dir));
  ns_names dir c : c ∈ ns_children dir → fs_Path c ≠ EmptyString ∧ Base (fs_Path c) = fs_Path c;
  ns_listing dir st last n : ns_status dir = Some st → fs_IsDir st = true → ns_ok n →
    last = EmptyString ∨ last ∈ map fs_Path (ns_children dir) →
    ∃ page rest n', nn_getListing dir last n = (inl (Some (page, zlen rest)), n') ∧ ns_ok n'
      ∧ startAfter last (ns_children dir) = page ++ rest ∧ (rest ≠ [] → page ≠ [])
}.

Section listing.
Context {N : Type} `{Network N} `{Namenode N} `{!ListingSpec N}.
Implicit Types (f : FileReader) (env : Env N).

Lemma startAfter_suffix last l : ∃ pre, l = pre ++ startAfter last l.
Proof.
  unfold startAfter. destruct (String.eqb last EmptyString); [by exists []|].
  induction l as [|c l [pre IH]]; [by exists []|]. simpl. destruct (String.eqb (fs_Path c) last).
  - by exists [c].
  - exists (c :: pre). by rewrite IH at 1.
Qed.

Lemma following_middle k x rest : NoDup (map fs_Path (k ++ x :: rest)) → following (fs_Path x) (k ++ x :: rest) = rest.
Proof.
  induction k as [|c k IH]; simpl; intros [Hn Hd]%NoDup_cons; [by rewrite String.eqb_refl|].
  rewrite (proj2 (String.eqb_neq _ _)); [by apply IH|]. intros E. apply Hn. rewrite E, map_app. simpl. set_solver.
Qed.

(** The next page starts behind the last entry of this one. *)
Lemma startAfter_page (L page rest : list FileStatus) a x : NoDup (map fs_Path L) → fs_Path x ≠ EmptyString →
  startAfter a L = page ++ rest → last page = Some x → startAfter (fs_Path x) L = rest.
Proof.
  intros Hd Hx E [p ->]%last_Some. destruct (startAfter_suffix a L) as [pre HL]. rewrite E in HL.
  assert (L = (pre ++ p) ++ x :: rest) as -> by (by rewrite HL, <- !app_assoc).
  unfold startAfter. rewrite (proj2 (String.eqb_neq _ _)) by done. by apply following_middle.
Qed.

Definition entry (c : FileStatus) : FileInfo := newFileInfo c EmptyString.
Lemma entry_Name dir c : c ∈ ns_children dir → fi_Name (entry c) = fs_Path c.
Proof.
  intros Hc. destruct (ns_names dir c Hc) as [Hne Hb]. unfold entry, newFileInfo. simpl. by rewrite (proj2 (String.eqb_neq _ _)).
Qed.

Lemma readdir_loop_all st fuel : ∀ res f env, ns_status (fr_name f) = Some st → fs_IsDir st = true → ns_ok (net env) →
  fr_readdirLast f = EmptyString ∨ fr_readdirLast f ∈ map fs_Path (ns_children (fr_name f)) →
  let todo := startAfter (fr_readdirLast f) (ns_children (fr_name f)) in
  (length todo < fuel)%nat →
  ∃ f' env', readdir_loop fuel 0 res f env = (Some (inl (res ++ map entry todo)), f', env') ∧ ns_ok (net env').
Proof.
  induction fuel as [|fuel IH]; intros res f env Hst Hd Hn Hlast todo Hf; [lia|]. cbn [readdir_loop]. unfold readdir.
  destruct (ns_listing (fr_name f) st (fr_readdirLast f) (net env) Hst Hd Hn Hlast) as (page & rest & n' & -> & Hn' & E & Hne).
  fold todo in E. rewrite E. rewrite map_app. fold entry. change (map (λ status, newFileInfo status EmptyString) page) with (map entry page).
  destruct (Z.eqb_spec (zlen rest) 0) as [Hz|Hz]; cbn [orb andb Z.ltb Z.compare].
  - rewrite (zlen_nil_inv rest) by lia. simpl. rewrite app_nil_r. eexists _, _. split; [reflexivity|done].
  - assert (rest ≠ []) as Hr by (by intros ->). specialize (Hne Hr). destruct (last page) as [x|] eqn:Ex; [|by apply last_None in Ex].
    assert (last (map entry page) = Some (entry x)) as -> by (pose proof (fmap_last entry page) as Hm; rewrite Ex in Hm; exact Hm).
    assert (x ∈ ns_children (fr_name f)) as Hx.
    { destruct (startAfter_suffix (fr_readdirLast f) (ns_children (fr_name f))) as [pre ->]. fold todo. rewrite E.
      apply last_Some in Ex as [p ->]. set_solver. }
    rewrite (entry_Name (fr_name f) x Hx). set (f1 := fr_setLast (fs_Path x) f).
    assert (startAfter (fr_readdirLast f1) (ns_children (fr_name f1)) = rest) as E1
      by (apply (startAfter_page _ page rest (fr_readdirLast f)); [apply ns_distinct|by apply (ns_names (fr_name f))|done..]).
    destruct (IH (res ++ map entry page) f1 (set_net n' env)) as (f' & env' & -> & Hok); [done..| | |].
    + right. by apply (list_elem_of_fmap_2 fs_Path).
    + rewrite E1. rewrite E, length_app in Hf. destruct page; [done|]. simpl in Hf. lia.
    + rewrite E1. exists f', env'. split; [|done]. by rewrite app_assoc.
Qed.

Lemma open_status name st env : ns_status name = Some st → ns_ok (net env) →
  ∃ env', client_Open name env = (inl (mkFileReader name (newFileInfo st name) [] None 0 0 EmptyString false), env') ∧ ns_ok (net env')
    ∧ fi_IsDir (newFileInfo st name) = fs_IsDir st.
Proof.
  intros Hst Hn. unfold client_Open, getFileInfo. destruct (ns_info name (net env) Hn) as (n' & -> & Hn'). rewrite Hst.
  eexists. split; [done|]. split; [done|]. unfold newFileInfo, fi_IsDir, mode_IsDir, has_bits. cbn [fi_Mode].
  pose proof (ns_perm name st Hst) as Hp. assert (Z.land (fs_Perm st) ModeDir = 0) as Hz.
  { apply Z.bits_inj'. intros k Hk. rewrite Z.land_spec, Z.bits_0. unfold ModeDir. rewrite Z.shiftl_1_l, Z.pow2_bits_eqb by lia.
    destruct (Z.eqb_spec 31 k) as [<-|]; [|by rewrite andb_false_r]. rewrite (proj2 (Z.testbit_false _ 31 ltac:(lia))); [done|]. by rewrite Z.div_small by lia. }
  destruct (fs_IsDir st); [|by rewrite Hz]. rewrite Z.land_lor_distr_l, Hz, Z.land_diag. done.
Qed.

Lemma Readdirnames_all pages name st info env : ns_status name = Some st → fs_IsDir st = true → ns_ok (net env) → fi_IsDir info = true →
  (length (ns_children name) < pages)%nat →
  ∃ f' env', FileReader_Readdirnames pages 0 (mkFileReader name info [] None 0 0 EmptyString false) env
    = (Some (inl (map fs_Path (ns_children name))), f', env') ∧ ns_ok (net env').
Proof.
  intros Hst Hd Hn Hi Hp. unfold FileReader_Readdirnames, FileReader_Readdir. cbn [fr_closed fr_info]. rewrite Hi. cbn [negb Z.leb Z.compare].
  set (f := fr_setLast _ _).
  assert (startAfter (fr_readdirLast f) (ns_children (fr_name f)) = ns_children name) as E by done.
  destruct (readdir_loop_all st pages [] f env Hst Hd Hn) as (f' & env' & -> & Hn'); [by left|by rewrite E|].
  rewrite E. exists f', env'. split; [|done]. cbn [Z.ltb Z.compare app]. do 4 f_equal. rewrite map_map. apply map_ext_in.
  intros c Hc. apply (entry_Name name). by apply list_elem_of_In.
Qed.

(** What there is to visit below a path: the files of a tree of depth [d], each
    directory before its entries and these in the order of their names, in
    whatever order the namenode lists them. *)
Inductive walked : nat → string → list (string * FileInfo) → Prop :=
  | walked_file d p st : ns_status p = Some st → fs_IsDir st = false → walked (S d) p [(p, newFileInfo st p)]
  | walked_dir d p st names l : ns_status p = Some st → fs_IsDir st = true →
      names ≡ₚ map fs_Path (ns_children p) → StronglySorted String.le names → walked_all d p names l →
      walked (S d) p ((p, newFileInfo st p) :: l)
with walked_all : nat → string → list string → list (string * FileInfo) → Prop :=
  | walked_nil d p : walked_all d p [] []
  | walked_cons d p name names l k : walked d (Join [p; name]) l → walked_all d p names k → walked_all d p (name :: names) (l ++ k).

Lemma merge_sort_names (names listed : list string) :
  names ≡ₚ listed → StronglySorted String.le names → merge_sort String.le listed = names.
Proof.
  intros Hp Hs. apply (StronglySorted_unique String.le); [apply StronglySorted_merge_sort; apply _|done|].
  by rewrite merge_sort_Permutation.
Qed.

Section visit.
Context `{Proto PacketHeaderProto} `{Proto OpReadBlockProto} `{Proto OpBlockChecksumProto} `{Proto BlockOpResponseProto} `{StatusNames} `{BufferGrowth}.
Context {V : Type} (walkFn : string → option FileInfo → option error → V → option error * V) (visit : string → FileInfo → V → V).
Context (Hvisit : ∀ p info v, walkFn p (Some info) None v = (None, visit p info v)).
Definition visits (l : list (string * FileInfo)) (v : V) : V := foldl (λ v '(p, info), visit p info v) v l.

Lemma walk_visits pages (Hpages : ∀ p, (length (ns_children p) < pages)%nat) fuel : ∀ d p l v env, walked d p l → (d <= fuel)%nat → ns_ok (net env) →
  ∃ env', walk walkFn fuel pages p v env = Some (None, visits l v, env') ∧ ns_ok (net env').
Proof.
  induction fuel as [|fuel IH]; intros d p l v env Hw Hd Hn; [inversion Hw; lia|]. cbn [walk].
  inversion Hw as [d' p' st Hst Hf|d' p' st names k Hst Hf Hperm Hsort Hall]; subst;
    destruct (open_status p st env Hst Hn) as (env1 & -> & Hn1 & Hi); cbn [fr_info]; rewrite Hvisit, Hi, Hf; cbn [negb].
  - exists env1. done.
  - destruct (Readdirnames_all pages p st (newFileInfo st p) env1) as (f2 & env2 & -> & Hn2); [done..|by rewrite Hi|done|].
    rewrite (merge_sort_names names) by done. assert (d' <= fuel)%nat as Hd' by lia. clear Hw Hst Hd Hperm Hsort.
    change (visits ((p, newFileInfo st p) :: k) v) with (visits k (visit p (newFileInfo st p) v)). generalize (visit p (newFileInfo st p) v).
    revert env2 Hn2. induction Hall as [|d0 p0 name names l k Hl _ IHall]; intros env2 Hn2 v2; [by exists env2|].
    destruct (IH d0 (Join [p0; name]) l v2 env2 Hl Hd' Hn2) as (env3 & -> & Hn3).
    unfold visits. rewrite foldl_app. by apply IHall.
Qed.
End visit.
End listing.

(** ** Whole files *)
Section whole.
Context {N : Type} `{ClusterSpec N} `{Proto OpBlockChecksumProto} `{StatusNames} `{BufferGrowth} (client : Client).

Lemma read_to_end_all content (space : nat → Z) (Hspace : ∀ k, 0 < space k) fuel : ∀ k acc f (env : Env N),
  file_ok client content f → cluster_ok (net env) → zlen content - fr_offset f < Z.of_nat fuel →
  ∃ f' env', read_to_end client fuel space k acc f env = (Some (Ok (acc ++ drop (Z.to_nat (fr_offset f)) content, None)), f', env').
Proof.
  induction fuel as [|fuel IH]; intros k acc f env Hf He Hfuel; pose proof (fk_offset _ _ _ Hf) as Ho; [lia|]. cbn [read_to_end].
  destruct (Z.lt_ge_cases (fr_offset f) (zlen content)) as [Hlt|Hge].
  - destruct (FileReader_Read_spec client content (space k) f env 2) as (b & f1 & env1 & -> & He1 & Hne & Hb & Ho1 & Hok1 & Hd); [done..|lia|].
    assert (0 < zlen b) by (destruct b; [done|]; rewrite zlen_cons; zlia).
    destruct (IH (S k) (acc ++ b) f1 env1) as (f' & env' & ->); [done..|lia|]. exists f', env'. by rewrite Hd, app_assoc.
  - unfold FileReader_Read. rewrite (fk_open _ _ _ Hf), (fk_file _ _ _ Hf), (fk_size _ _ _ Hf). rewrite (proj2 (Z.leb_le _ _)) by lia.
    rewrite bool_decide_true by done. exists f, env. rewrite drop_ge by (unfold zlen in *; lia). done.
Qed.

(** [ReadFile] returns the bytes of the file, whatever space the buffer has for
    each read. *)
Lemma ReadFile_content name content space (env : Env N) f env1 : (∀ k, 0 < space k) →
  client_Open name env = (inl f, env1) → cluster_ok (net env1) → fi_IsDir (fr_info f) = false → fi_Size (fr_info f) = zlen content →
  zlen content < 2 ^ 62 → located client name content →
  ∃ env', client_ReadFile client (S (length content)) space name env = (Some (Ok (content, None)), env').
Proof.
  intros Hsp Ho He Hd Hs Hb Hl. unfold client_ReadFile. rewrite Ho.
  assert (file_ok client content f ∧ fr_offset f = 0) as [Hok H0'].
  { unfold client_Open in Ho. destruct (getFileInfo name env) as [[info|e] e1]; [|done]. injection Ho as <- <-.
    split; [|done]. split; simpl in *; try done; [|by left]. pose proof (zlen_nonneg content). lia. }
  destruct (read_to_end_all content space Hsp (S (length content)) 0 [] f env1) as (f' & env' & ->); [done..|rewrite H0'; unfold zlen; lia|].
  destruct (FileReader_Close f' env') as [f2 env2]. exists env2. rewrite H0'. done.
Qed.
End whole.

(** ** Extended attributes: a key that is shown can be asked for *)
Lemma strings_Cut_app a b c : no_char c a → strings_Cut (a +:+ String c b) c = Some (a, b).
Proof.
  induction a as [|x a IH]; simpl; [by rewrite decide_True|]. intros [Hx Ha]. rewrite decide_False by done. by rewrite IH.
Qed.
Lemma xattr_key_roundtrip x : 0 <= xa_Namespace x < 5 → splitKey (xattr_key x) = inl (xa_Namespace x, xa_Name x).
Proof.
  intros Hn. unfold splitKey, xattr_key. set (ns := xa_Namespace x) in *.
  assert (ns = 0 ∨ ns = 1 ∨ ns = 2 ∨ ns = 3 ∨ ns = 4) as Hc by lia. change ("." +:+ xa_Name x) with (String "." (xa_Name x)).
  destruct Hc as [->|[->|[->|[->| ->]]]]; (rewrite strings_Cut_app; [done|vm_compute; repeat split; discriminate]).
Qed.

(** A delete that the namenode did not do is reported as done: only a missing
    result is an error. *)
Lemma delete_refused_reported {N : Type} `{Network N} `{Namenode N} `{Metadata N} name recursive (env : Env N) info env1 resp n :
  getFileInfo name env = (inl info, env1) → nn_Execute (DeleteRequest name recursive) (net env1) = (inl resp, n) → rs_Result resp = Some false →
  fst (client_delete name recursive env) = None.
Proof. intros Hi He Hr. unfold client_delete, execute. rewrite Hi, He, Hr. done. Qed.

(** ** The namenodes of a configuration *)
Section confs.
Context (url_Host : string → option string).
Definition named (conf : list (string * string)) (a : string) : Prop := ∃ key value, (key, value) ∈ conf
  ∧ (if strings_Contains key "fs.default" then url_Host value = Some a else strings_HasPrefix key rpc_prefix = true ∧ value = a).
Definition is_cluster (conf : list (string * string)) (a : string) : Prop := ∃ key value, (key, value) ∈ conf
  ∧ strings_Contains key "fs.default" = false ∧ strings_HasPrefix key rpc_prefix = false ∧ key = cluster_prefix +:+ a.

Lemma collect_spec conf : ∀ nns clusters, Forall (λ '(key, value), strings_Contains key "fs.default" = true → is_Some (url_Host value)) conf →
  ∃ nns' clusters', collect url_Host conf nns clusters = Ok (nns', clusters')
    ∧ (∀ a, a ∈ nns' ↔ a ∈ nns ∨ named conf a) ∧ (∀ a, a ∈ clusters' ↔ a ∈ clusters ∨ is_cluster conf a).
Proof.
  induction conf as [|[key value] conf IH]; intros nns clusters Hu.
  { exists nns, clusters. split; [done|]. split; intros a; split; [by left|intros [|(? & ? & ? & _)]; [done|set_solver]|by left|intros [|(? & ? & ? & _)]; [done|set_solver]]. }
  apply Forall_cons in Hu as [Hkv Hu]. cbn [collect].
  assert (∀ a, named ((key, value) :: conf) a ↔ (if strings_Contains key "fs.default" then url_Host value = Some a
    else strings_HasPrefix key rpc_prefix = true ∧ value = a) ∨ named conf a) as Hnamed.
  { intros a. unfold named. split; [intros (k & v & [[= -> ->]|Hin]%elem_of_cons & Hx); [by left|right; eauto]|].
    intros [Hx|(k & v & Hin & Hx)]; [exists key, value|exists k, v]; (split; [set_solver|done]). }
  assert (∀ a, is_cluster ((key, value) :: conf) a ↔ (strings_Contains key "fs.default" = false ∧ strings_HasPrefix key rpc_prefix = false
    ∧ key = cluster_prefix +:+ a) ∨ is_cluster conf a) as Hclus.
  { intros a. unfold is_cluster. split; [intros (k & v & [[= -> ->]|Hin]%elem_of_cons & Hx); [by left|right; eauto]|].
    intros [Hx|(k & v & Hin & Hx)]; [exists key, value|exists k, v]; (split; [set_solver|done]). }
  destruct (strings_Contains key "fs.default") eqn:Ec.
  { destruct (Hkv eq_refl) as [host Eh]. rewrite Eh. destruct (IH ({[host]} ∪ nns) clusters Hu) as (n' & c' & -> & Hn & Hc). exists n', c'. split; [done|].
    split; intros a; [rewrite Hn, Hnamed, Eh|rewrite Hc, Hclus; naive_solver]. rewrite elem_of_union, elem_of_singleton. naive_solver. }
  destruct (strings_HasPrefix key rpc_prefix) eqn:Er.
  { destruct (IH ({[value]} ∪ nns) clusters Hu) as (n' & c' & -> & Hn & Hc). exists n', c'. split; [done|].
    split; intros a; [rewrite Hn, Hnamed|rewrite Hc, Hclus; naive_solver]. rewrite elem_of_union, elem_of_singleton. naive_solver. }
  destruct (strings_HasPrefix key cluster_prefix) eqn:Ep.
  - destruct (IH nns (clusters ++ [String.substring (String.length cluster_prefix) (String.length key - String.length cluster_prefix) key]) Hu)
      as (n' & c' & -> & Hn & Hc). exists n', c'. split; [done|].
    split; intros a; [rewrite Hn, Hnamed; naive_solver|]. rewrite Hc, Hclus, elem_of_app, list_elem_of_singleton.
    apply prefix_rest in Ep. split; [intros [[?| ->]|?]; naive_solver|]. intros [?|[(_ & _ & ->)|?]]; [by left; left| |by right].
    left. right. symmetry. apply prefix_substring.
  - destruct (IH nns clusters Hu) as (n' & c' & -> & Hn & Hc). exists n', c'. split; [done|].
    split; intros a; [rewrite Hn, Hnamed; naive_solver|]. rewrite Hc, Hclus. split; [naive_solver|]. intros [?|[(_ & _ & ->)|?]]; [by left| |by right].
    unfold strings_HasPrefix in Ep. by rewrite prefix_app in Ep.
Qed.

(** The addresses are sorted, appear once, and are those the configuration names
    that are not names of clusters, in whatever order the map is visited. *)
Lemma Namenodes_spec conf : Forall (λ '(key, value), strings_Contains key "fs.default" = true → is_Some (url_Host value)) conf →
  ∃ l, Namenodes url_Host conf = Ok l ∧ StronglySorted String.le l ∧ NoDup l ∧ ∀ a, a ∈ l ↔ named conf a ∧ ¬ is_cluster conf a.
Proof.
  intros Hu. unfold Namenodes. destruct (collect_spec conf ∅ [] Hu) as (nns & cs & -> & Hn & Hc). eexists. split; [reflexivity|].
  split; [apply StronglySorted_merge_sort; apply _|]. rewrite merge_sort_Permutation. split; [apply NoDup_elements|].
  intros a. rewrite merge_sort_Permutation, elem_of_elements, elem_of_difference, elem_of_list_to_set, Hn, Hc. set_solver.
Qed.
Lemma Namenodes_order conf conf' : Forall (λ '(key, value), strings_Contains key "fs.default" = true → is_Some (url_Host value)) conf →
  conf ≡ₚ conf' → Namenodes url_Host conf = Namenodes url_Host conf'.
Proof.
  intros Hu Hp. destruct (Namenodes_spec conf Hu) as (l & -> & Hs & Hd & Hl).
  destruct (Namenodes_spec conf') as (l' & -> & Hs' & Hd' & Hl'); [by rewrite <- Hp|]. f_equal.
  apply (StronglySorted_unique String.le); [done..|]. apply NoDup_Permutation; [done..|]. intros a. rewrite Hl, Hl'.
  unfold named, is_cluster. setoid_rewrite Hp. done.
Qed.
End confs.

(** A setting whose name happens to contain fs.default counts as an address: with
    dfs.default.chunk.view.size in the configuration the empty address is the
    first namenode that is tried. *)
Example chunk_size_is_a_namenode (url_Host : string → option string) : url_Host "32768" = Some EmptyString → url_Host "hdfs://nn:9000" = Some "nn:9000"%string →
  Namenodes url_Host [("fs.defaultFS", "hdfs://nn:9000"); ("dfs.default.chunk.view.size", "32768")]%string = Ok [EmptyString; "nn:9000"%string].
Proof. intros H1 H2. unfold Namenodes. cbn [collect strings_Contains strings_HasPrefix String.prefix]. simpl. rewrite H1, H2. by vm_compute. Qed.

(** ** A namespace to walk through

    The directories / and /a; listings come one entry at a time, in reverse
    order. *)
Module DemoNamespace.
Definition file (name : string) : FileStatus := mkFileStatus name 3 0x1a4 0 false.
Definition dir (name : string) : FileStatus := mkFileStatus name 0 0x1ed 0 true.
Definition children (p : string) : list FileStatus :=
  if String.eqb p "/" then [file "b"; dir "a"] else if String.eqb p "/a" then [file "y"; file "x"] else [].
Definition status (p : string) : option FileStatus :=
  if String.eqb p "/" then Some (dir EmptyString) else if String.eqb p "/a" then Some (dir EmptyString)
  else if bool_decide (p ∈ ["/b"; "/a/x"; "/a/y"]%string) then Some (file EmptyString) else None.
#[global] Instance namespace_namenode : Namenode nat := {
  nn_getFileInfo name n := (inl (status name), S n);
  nn_getBlockLocations _ _ _ n := (inl [], S n);
  nn_getListing name last n :=
    (match status name with
     | Some _ => let l := startAfter last (children name) in inl (Some (take 1 l, zlen (drop 1 l)))
     | None => inl None
     end, S n);
  nn_wrapDatanodeDial _ n := (None, S n)
}.
Lemma children_ok p : NoDup (map fs_Path (children p))
  ∧ ∀ c, c ∈ children p → fs_Path c ≠ EmptyString ∧ Base (fs_Path c) = fs_Path c.
Proof.
  unfold children. destruct (String.eqb p "/"), (String.eqb p "/a"); (split; [|intros c Hc]);
    try (apply (bool_decide_unpack _); vm_compute; exact I); try (by apply not_elem_of_nil in Hc);
    (apply elem_of_cons in Hc as [->|Hc]; [split; [done|by vm_compute]|]; apply list_elem_of_singleton in Hc as ->; split; [done|by vm_compute]).
Qed.
#[global] Instance namespace_spec : ListingSpec nat.
Proof.
  refine {| ns_ok _ := True; ns_status := status; ns_children := children |}.
  - intros name st. unfold status. repeat case_match; intros [= <-]; simpl; lia.
  - intros name n _. by exists (S n).
  - apply children_ok.
  - intros p c Hc. by apply (proj2 (children_ok p)).
  - intros p st last n Hst _ _ _. cbn [nn_getListing namespace_namenode]. rewrite Hst. set (l := startAfter _ _).
    exists (take 1 l), (drop 1 l), (S n). split; [done|]. split; [done|]. split; [by rewrite take_drop|]. by destruct l.
Defined.
#[global] Instance namespace_network : Network nat := {
  net_Dial _ n := (inr EOF, n);
  net_Write _ _ n := (Some EOF, n);
  net_Reader _ _ := mkReader [] EOF;
  net_SetDeadline _ _ n := (None, n);
  net_Close _ n := n;
  net_Now _ := 0
}.
(** Notes the paths it is given. *)
Definition note (p : string) (_ : option FileInfo) (_ : option error) (v : list string) : option error * list string := (None, v ++ [p]).
Definition visited : list (string * FileInfo) :=
  [("/", newFileInfo (dir EmptyString) "/"); ("/a", newFileInfo (dir EmptyString) "/a");
  ("/a/x", newFileInfo (file EmptyString) "/a/x"); ("/a/y", newFileInfo (file EmptyString) "/a/y"); ("/b", newFileInfo (file EmptyString) "/b")]%string.
Lemma tree : walked 3 "/" visited.
Proof.
  unfold visited.
  apply (walked_dir _ _ _ ["a"; "b"]%string); [by vm_compute|done|apply (bool_decide_unpack _); by vm_compute| |].
  { repeat constructor; by vm_compute. }
  apply (walked_cons _ _ "a" ["b"%string] [_; _; _] [_]).
  - change (Join ["/"; "a"]%string) with "/a"%string.
    apply (walked_dir _ _ _ ["x"; "y"]%string); [by vm_compute|done|apply (bool_decide_unpack _); by vm_compute| |].
    { repeat constructor; by vm_compute. }
    apply (walked_cons _ _ "x" ["y"%string] [_] [_]).
    + change (Join ["/a"; "x"]%string) with "/a/x"%string. apply walked_file; by vm_compute.
    + apply (walked_cons _ _ "y" [] [_] []); [|constructor]. change (Join ["/a"; "y"]%string) with "/a/y"%string. apply walked_file; by vm_compute.
  - apply (walked_cons _ _ "b" [] [_] []); [|constructor]. change (Join ["/"; "b"]%string) with "/b"%string. apply walked_file; by vm_compute.
Qed.
End DemoNamespace.

(** C33: [Walk] ends and visits every file and directory below its root exactly
    once, directories before what is in them and the entries of a directory in
    the order of their names, although listings arrive in pages of any size and
    in any order, as long as a page goes on behind the entry it is asked for and
    the names of a directory are distinct. The
    depth of the tree bounds the recursion. The function that is called may do
    anything, as long as it lets the walk go on. *)
Theorem hdfs_walk_visits_tree {N V : Type} `{Network N} `{Namenode N} `{!ListingSpec N}
    (walkFn : string → option FileInfo → option error → V → option error * V) (visit : string → FileInfo → V → V)
    (pages d : nat) (root : string) (l : list (string * FileInfo)) (v : V) (env : Env N) :
  (∀ p info v, walkFn p (Some info) None v = (None, visit p info v)) → (∀ p, (length (ns_children p) < pages)%nat) →
  walked d root l → ns_ok (net env) →
  ∃ env', walk walkFn d pages root v env = Some (None, foldl (λ v '(p, info), visit p info v) v l, env') ∧ ns_ok (net env').
Proof. intros Hv Hp Hw Hn. exact (walk_visits walkFn visit Hv pages Hp d d root l v env Hw (le_n d) Hn). Qed.

Lemma hdfs_walk_visits_tree_witness :
  ∃ env', walk DemoNamespace.note 3 3 "/" [] (mkEnv 0%nat ∅) = Some (None, ["/"; "/a"; "/a/x"; "/a/y"; "/b"]%string, env').
Proof.
  destruct (hdfs_walk_visits_tree DemoNamespace.note (λ p _ v, v ++ [p]) 3 3 "/" DemoNamespace.visited [] (mkEnv 0%nat ∅)) as (env' & E & _).
  - intros p info v. reflexivity.
  - intros p. cbn. unfold DemoNamespace.children. destruct (String.eqb p "/"), (String.eqb p "/a"); simpl; lia.
  - exact DemoNamespace.tree.
  - exact I.
  - exists env'. exact E.
Defined.
