(* ===== verification/MemHandler.v ===== *)
(** * The in-memory handlers of the SFTP package

    sftp/request-example.go: a flat map from names to files, shared with every
    handle that is open on them. A [*memFile] is an index into [heap], so that hard
    links and open handles see each other's changes. A run-time panic in a call
    whose signature has no place for it is noted in [crashed]. *)
From stdpp Require Import base tactics option list strings gmap sorting.
From Stdlib Require Import ZArith Lia.
From S2P Require Import Prelude GoOs SftpWire SftpPackets GoPath GoStrconv FileSystem RequestServer.

Record memFile := mkMem {
  mf_name : string;
  mf_modtime : Z;
  mf_symlink : string;
  mf_isdir : bool;
  mf_content : list byte;
  mf_err : option error
}.
(** [now] is what [time.Now] returns. *)
Record root := mkRoot {
  heap : list memFile;
  rootFile : nat;
  mockErr : option error;
  files : gmap string nat;
  now : Z;
  crashed : bool
}.
(** The order in which the runtime visits the keys of a map. *)
Class MapOrder := range_keys : gmap string nat → list string.
Class MapOrderSpec `{MapOrder} := range_keys_spec m : range_keys m ≡ₚ elements (dom m).

Definition maxSymlinkFollows : nat := 5.
Definition errTooManySymlinks : error := EMsg "too many symbolic links".
Definition ErrNotExist : error := ESyscall ENOENT.
Definition ErrExist : error := ESyscall EEXIST.
Definition ErrInvalid : error := ESyscall EINVAL.

Definition InMemHandler (t : Z) : root := mkRoot [mkMem "/" t EmptyString true [] None] 0 None ∅ t false.

(** Pointers are never dangling. *)
Definition file_at (p : nat) (w : root) : memFile := default (mkMem EmptyString 0 EmptyString false [] None) (heap w !! p).
Definition set_heap (h : list memFile) (w : root) : root := mkRoot h (rootFile w) (mockErr w) (files w) (now w) (crashed w).
Definition set_files (m : gmap string nat) (w : root) : root := mkRoot (heap w) (rootFile w) (mockErr w) m (now w) (crashed w).
Definition crash (w : root) : root := mkRoot (heap w) (rootFile w) (mockErr w) (files w) (now w) true.
Definition update (p : nat) (g : memFile → memFile) (w : root) : root := set_heap (alter g p (heap w)) w.
(** [&memFile{...}] *)
Definition alloc (f : memFile) (w : root) : nat * root := (length (heap w), set_heap (heap w ++ [f]) w).
Definition mf_setName (n : string) (f : memFile) : memFile := mkMem n (mf_modtime f) (mf_symlink f) (mf_isdir f) (mf_content f) (mf_err f).
Definition mf_setContent (c : list byte) (f : memFile) : memFile := mkMem (mf_name f) (mf_modtime f) (mf_symlink f) (mf_isdir f) c (mf_err f).
Definition mf_setErr (e : option error) (f : memFile) : memFile := mkMem (mf_name f) (mf_modtime f) (mf_symlink f) (mf_isdir f) (mf_content f) e.
Definition returnErr (err : option error) (w : root) : root := mkRoot (heap w) (rootFile w) err (files w) (now w) (crashed w).

(** ** Files *)
Definition mf_Mode (f : memFile) : Z :=
  if mf_isdir f then Z.lor 0x1ed ModeDir else if String.eqb (mf_symlink f) EmptyString then 0x1a4 else Z.lor 0x1ff ModeSymlink.
(** A file as an [os.FileInfo]; [fakeFileInfoSys] names nobody as the owner. *)
Definition mem_info (f : memFile) : FileInfo :=
  {| fi_Name := Base (mf_name f); fi_Size := zlen (mf_content f); fi_Mode := mf_Mode f; fi_ModTime := mf_modtime f; fi_Sys := Some (65534, 65534) |}.

(** The most a slice can be made to hold. *)
Definition maxAlloc : Z := 2 ^ 48.
Definition grow (n : Z) (c : list byte) : result (list byte) :=
  if maxAlloc <? n then Panic else Ok (c ++ replicate (Z.to_nat n) (byte_of_Z 0)).

Definition mem_ReadAt (p : nat) (n off : Z) (w : root) : list byte * option error :=
  let f := file_at p w in
  match mf_err f with
  | Some e => ([], Some e)
  | None =>
      if off <? 0 then ([], Some (EMsg "memFile.ReadAt: negative offset"))
      else if zlen (mf_content f) <=? off then ([], Some EOF)
      else let b := take (Z.to_nat n) (drop (Z.to_nat off) (mf_content f)) in (b, if zlen b <? n then Some EOF else None)
  end.
Definition mem_WriteAt (p : nat) (b : list byte) (off : Z) (w : root) : (Z * option error) * root :=
  let f := file_at p w in
  match mf_err f with
  | Some e => ((0, Some e), w)
  | None =>
      let g := i64 (i64 (zlen b + off) - zlen (mf_content f)) in
      match (if 0 <? g then grow g (mf_content f) else Ok (mf_content f)) with
      | Ok c =>
          if (off <? 0) || (zlen c <? off) then ((0, None), crash w)
          else
            let d := take (length c - Z.to_nat off) b in
            ((zlen d, None), update p (mf_setContent (take (Z.to_nat off) c ++ d ++ drop (Z.to_nat off + length d) c)) w)
      | _ => ((0, None), crash w)
      end
  end.
Definition mem_Truncate (p : nat) (size : Z) (w : root) : option error * root :=
  let f := file_at p w in
  match mf_err f with
  | Some e => (Some e, w)
  | None =>
      let g := i64 (size - zlen (mf_content f)) in
      if g <=? 0 then if size <? 0 then (None, crash w) else (None, update p (mf_setContent (take (Z.to_nat size) (mf_content f))) w)
      else match grow g (mf_content f) with Ok c => (None, update p (mf_setContent c) w) | _ => (None, crash w) end
  end.
(** The error stays with the file. *)
Definition mem_TransferError (p : nat) (err : error) (w : root) : root := update p (mf_setErr (Some err)) w.

(** ** Names *)
(** No entry of the map is nil. *)
Definition lfetch (path : string) (w : root) : result nat :=
  if String.eqb path "/" then Ok (rootFile w)
  else match files w !! path with Some p => Ok p | None => Err ErrNotExist end.
Fixpoint follow (count : nat) (p : nat) (w : root) : result nat :=
  let link := mf_symlink (file_at p w) in
  if String.eqb link EmptyString then Ok p
  else match count with
       | O => Err errTooManySymlinks
       | S count => q ← lfetch link w; follow count q w
       end.
Definition fetch (path : string) (w : root) : result nat := p ← lfetch path w; follow maxSymlinkFollows p w.
Definition canonName (pathname : string) (w : root) : result string :=
  dir ← fetch (Dir pathname) w;
  if negb (mf_isdir (file_at dir w)) then Err (ESyscall ENOTDIR) else Ok (Join [mf_name (file_at dir w); Base pathname]).
Definition exists_name (path : string) (w : root) : bool :=
  match canonName path w with
  | Ok path => match lfetch path w with Err _ => false | _ => true end
  | _ => false
  end.
Definition putfile (pathname : string) (p : nat) (w : root) : option error * root :=
  match canonName pathname w with
  | Ok pathname =>
      if negb (strings_HasPrefix pathname "/") then (Some ErrInvalid, w)
      else
        match lfetch pathname w with
        | Err _ => (None, set_files (<[pathname := p]> (files w)) (update p (mf_setName pathname) w))
        | _ => (Some ErrExist, w)
        end
  | Err e => (Some e, w)
  | Panic => (None, crash w)
  end.

(** ** Operations *)

(** The name that a dangling symbolic link stands for. *)
Fixpoint create_name (count : nat) (excl : bool) (pathname : string) (w : root) : result string :=
  match lfetch pathname w with
  | Ok p =>
      let link := mf_symlink (file_at p w) in
      if String.eqb link EmptyString then Ok pathname
      else if excl then Err ErrInvalid
      else match count with O => Err errTooManySymlinks | S count => create_name count excl link w end
  | _ => Ok pathname
  end.
Definition openfile (pathname : string) (flags : Z) (w : root) : result nat * root :=
  let pflags := newFileOpenFlags flags in
  match fetch pathname w with
  | Err e =>
      if bool_decide (e = ErrNotExist) then
        if negb (Creat pflags) then (Err ErrNotExist, w)
        else
          match create_name maxSymlinkFollows (Excl pflags) pathname w with
          | Ok pathname =>
              let '(p, w) := alloc (mkMem EmptyString (now w) EmptyString false [] None) w in
              match putfile pathname p w with (Some e, w) => (Err e, w) | (None, w) => (Ok p, w) end
          | Err e => (Err e, w)
          | Panic => (Panic, w)
          end
      else (Err e, w)
  | Ok p =>
      if Creat pflags && Excl pflags then (Err ErrExist, w)
      else if mf_isdir (file_at p w) then (Err ErrInvalid, w)
      else if Trunc pflags then match mem_Truncate p 0 w with (Some e, w) => (Err e, w) | (None, w) => (Ok p, w) end
      else (Ok p, w)
  | Panic => (Panic, w)
  end.

Definition mem_mkdir (pathname : string) (w : root) : option error * root :=
  let '(p, w) := alloc (mkMem EmptyString (now w) EmptyString true [] None) w in putfile pathname p w.
Definition mem_symlink (target linkpath : string) (w : root) : option error * root :=
  let '(p, w) := alloc (mkMem EmptyString (now w) target false [] None) w in putfile linkpath p w.
Definition mem_link (oldpath newpath : string) (w : root) : option error * root :=
  match lfetch oldpath w with
  | Ok p => if mf_isdir (file_at p w) then (Some (EMsg "hard link not allowed for directory"), w) else putfile newpath p w
  | Err e => (Some e, w)
  | Panic => (None, crash w)
  end.
Definition mem_unlink (pathname : string) (w : root) : option error * root :=
  match lfetch pathname w with
  | Ok p => if mf_isdir (file_at p w) then (Some ErrInvalid, w) else (None, set_files (delete pathname (files w)) w)
  | Err e => (Some e, w)
  | Panic => (None, crash w)
  end.
Definition has_entries (dir : string) (m : gmap string nat) : bool := bool_decide (Exists (λ name, Dir name = dir) (elements (dom m))).
Definition mem_rmdir (pathname : string) (w : root) : option error * root :=
  match lfetch pathname w with
  | Ok p =>
      if negb (mf_isdir (file_at p w)) then (Some (ESyscall ENOTDIR), w)
      else
        let pathname := mf_name (file_at p w) in
        if has_entries pathname (files w) then (Some (EMsg "directory not empty"), w)
        else (None, set_files (delete pathname (files w)) w)
  | Err e => (Some e, w)
  | Panic => (None, crash w)
  end.
Definition mem_readlink (pathname : string) (w : root) : result string :=
  p ← lfetch pathname w;
  let link := mf_symlink (file_at p w) in if String.eqb link EmptyString then Err ErrInvalid else Ok link.

(** [strings.TrimPrefix] of a prefix that is there *)
Definition TrimPrefix (s pre : string) : string := String.substring (String.length pre) (String.length s - String.length pre) s.
(** The loop over the map, for the keys [names] in the order they are visited. The
    runtime may visit a key that the loop adds or leave it out; here it is left out.
    Such a key has the prefix only when a directory is moved below itself. *)
Fixpoint move_entries (names : list string) (dirprefix newpath : string) (w : root) : root :=
  match names with
  | [] => w
  | name :: names =>
      let w :=
        if strings_HasPrefix name dirprefix then
          match files w !! name with
          | Some p =>
              let newname := Join [newpath; TrimPrefix name dirprefix] in
              let w := update p (mf_setName newname) (set_files (<[newname := p]> (files w)) w) in
              set_files (delete name (files w)) w
          | None => w
          end
        else w in
      move_entries names dirprefix newpath w
  end.
Section handlers.
Context `{MapOrder}.

Definition mem_rename (oldpath newpath : string) (w : root) : option error * root :=
  match lfetch oldpath w with
  | Ok p =>
      let f := file_at p w in
      match canonName newpath w with
      | Ok newpath =>
          if negb (strings_HasPrefix newpath "/") then (Some ErrInvalid, w)
          else
            let finish w :=
              let w := set_files (<[newpath := p]> (files w)) w in
              let w := if mf_isdir f then move_entries (range_keys (files w)) (mf_name f +:+ "/") newpath w else w in
              let w := update p (mf_setName newpath) w in
              (None, set_files (delete oldpath (files w)) w) in
            match lfetch newpath w with
            | Ok target =>
                if bool_decide (target = p) then (None, w)
                else if mf_isdir f then match mem_rmdir newpath w with (Some e, w) => (Some e, w) | (None, w) => finish w end
                else if mf_isdir (file_at target w) then (Some (ESyscall EISDIR), w)
                else finish w
            | _ => finish w
            end
      | Err e => (Some e, w)
      | Panic => (None, crash w)
      end
  | Err e => (Some e, w)
  | Panic => (None, crash w)
  end.
Definition mem_readdir (pathname : string) (w : root) : result (list FileInfo) :=
  dir ← fetch pathname w;
  if negb (mf_isdir (file_at dir w)) then Err (ESyscall ENOTDIR)
  else
    let names := filter (λ name, Dir name = mf_name (file_at dir w)) (range_keys (files w)) in
    Ok (merge_sort (λ a b, String.le (fi_Name a) (fi_Name b))
          (omap (λ name, (λ p, mem_info (file_at p w)) <$> files w !! name) names)).

(** ** The handlers *)
Implicit Types (r : Request nat (list FileInfo)) (w : root).
Definition root_OpenFile r w : result nat * root :=
  match mockErr w with Some e => (Err e, w) | None => openfile (Filepath r) (Flags r) w end.
Definition root_Fileread r w : result nat * root := if negb (Read (Pflags r)) then (Err ErrInvalid, w) else root_OpenFile r w.
Definition root_Filewrite r w : result nat * root := if negb (Write (Pflags r)) then (Err ErrInvalid, w) else root_OpenFile r w.
Definition sshFxfWrite : Z := 0x2.
Definition root_Filecmd r w : option error * root :=
  match mockErr w with
  | Some e => (Some e, w)
  | None =>
      let m := Method r in
      if bool_decide (m = "Setstat"%string) then
        match openfile (Filepath r) sshFxfWrite w with
        | (Ok p, w) =>
            if af_Size (AttrFlags r) then
              match Attributes r with Ok st => mem_Truncate p (i64 (fs_Size st)) w | _ => (None, crash w) end
            else (None, w)
        | (Err e, w) => (Some e, w)
        | (Panic, w) => (None, crash w)
        end
      else if bool_decide (m = "Rename"%string) then
        if exists_name (Target r) w then (Some ErrExist, w) else mem_rename (Filepath r) (Target r) w
      else if bool_decide (m = "Rmdir"%string) then mem_rmdir (Filepath r) w
      else if bool_decide (m = "Remove"%string) then mem_unlink (Filepath r) w
      else if bool_decide (m = "Mkdir"%string) then mem_mkdir (Filepath r) w
      else if bool_decide (m = "Link"%string) then mem_link (Filepath r) (Target r) w
      else if bool_decide (m = "Symlink"%string) then mem_symlink (Filepath r) (Target r) w
      else (Some (EMsg "unsupported"), w)
  end.
Definition root_PosixRename r w : option error * root :=
  match mockErr w with Some e => (Some e, w) | None => mem_rename (Filepath r) (Target r) w end.
(** A lister holds the files as they are when it is made. *)
Definition root_Filelist r w : result (list FileInfo) * root :=
  match mockErr w with
  | Some e => (Err e, w)
  | None =>
      let m := Method r in
      (if bool_decide (m = "List"%string) then mem_readdir (Filepath r) w
       else if bool_decide (m = "Stat"%string) then p ← fetch (Filepath r) w; Ok [mem_info (file_at p w)]
       else if bool_decide (m = "Readlink"%string) then
         link ← mem_readlink (Filepath r) w; Ok [mem_info (mkMem link 0 EmptyString false [] (Some ErrNotExist))]
       else Err (EMsg "unsupported"), w)
  end.
Definition root_Lstat r w : result (list FileInfo) * root :=
  match mockErr w with
  | Some e => (Err e, w)
  | None => (p ← lfetch (Filepath r) w; Ok [mem_info (file_at p w)], w)
  end.
Definition listerat_ListAt (l : list FileInfo) (n off : Z) : list FileInfo * option error :=
  if zlen l <=? off then ([], Some EOF)
  else let k := take (Z.to_nat n) (drop (Z.to_nat off) l) in (k, if zlen k <? n then Some EOF else None).

#[global] Instance mem_handlers : Handlers root nat (list FileInfo) := {
  Fileread := root_Fileread;
  Filewrite := root_Filewrite;
  OpenFile := Some root_OpenFile;
  Filecmd := root_Filecmd;
  PosixRename := Some root_PosixRename;
  Filelist := root_Filelist;
  Lstat := Some root_Lstat;
  ReadAt p n off w := (mem_ReadAt p n off w, w);
  WriteAt := mem_WriteAt;
  obj_Close _ w := (None, w);
  TransferError := mem_TransferError;
  ListAt := listerat_ListAt
}.
(** The contract of the request server. *)
#[global] Instance mem_handlers_spec : HandlersSpec root nat (list FileInfo).
Proof.
  refine {| entries l := l |}.
  - intros p n off w data err w' Hn E. cbn in E. unfold mem_ReadAt in E. injection E as E _. repeat case_match; simplify_eq;
      unfold zlen; rewrite ?length_take; simpl; lia.
  - intros l n off Hn Ho. cbn. unfold listerat_ListAt. destruct (Z.leb_spec (zlen l) off); [|done].
    rewrite drop_ge by (unfold zlen in *; lia). rewrite take_nil. change (zlen []) with 0. by rewrite (proj2 (Z.ltb_lt _ _)) by lia.
Defined.
End handlers.
