(* ===== verification/MemTree.v ===== *)
(** * The in-memory file system is a tree

    The flat map of sftp/request-example.go keeps the shape of a file system: each
    name is clean and lies in a directory, and the name a directory carries is the
    one it is found under, as the comment of [rmdir] says. The handlers rely on it
    wherever they go from a directory to its entries. *)
From stdpp Require Import base tactics option list strings gmap sorting.
From Stdlib Require Import ZArith Lia.
From S2P Require Import Prelude GoOs SftpWire SftpPackets GoPath GoStrconv FileSystem RequestServer MemHandler.

(** ** Names *)
Lemma abs_path_inj l k : Forall normal l → Forall normal k → abs_path l = abs_path k → l = k.
Proof. intros Hl Hk E. rewrite <- (Split_abs_path l Hl), E. by apply Split_abs_path. Qed.
(** The prefix that [rename] looks for. *)
Definition under (d : list string) : string := abs_path d +:+ "/".
Lemma abs_path_under d r : d ≠ [] → r ≠ [] → abs_path (d ++ r) = under d +:+ strings_Join r slash.
Proof. intros Hd Hr. rewrite abs_path_app by done. unfold under. by rewrite <- string_app_assoc. Qed.
Lemma Split_abs_cons l : l ≠ [] → Forall normal l → strings_Split (abs_path l) slash = EmptyString :: l.
Proof. intros Hl Hn. unfold abs_path. simpl. by rewrite strings_Split_Join by (done || by apply normal_no_slash). Qed.
Lemma HasPrefix_under l d : Forall normal l → Forall normal d → d ≠ [] →
  strings_HasPrefix (abs_path l) (under d) = true ↔ ∃ r, r ≠ [] ∧ l = d ++ r.
Proof.
  intros Hl Hd Hne. split.
  - intros Es%prefix_rest. set (s := String.substring _ _ _) in Es. unfold under in Es. rewrite <- string_app_assoc in Es.
    apply (f_equal (λ s, strings_Split s slash)) in Es. change ("/" +:+ s) with (String slash s) in Es. rewrite strings_Split_app in Es.
    rewrite (Split_abs_cons d) in Es by done. pose proof (strings_Split_nonempty s slash).
    destruct l as [|x l]; [|rewrite Split_abs_cons in Es by done; injection Es as Es; by exists (strings_Split s slash)].
    destruct d as [|y d]; [done|]. simpl in Es. injection Es as _ Es. destruct d; [|done]. by destruct (strings_Split s slash).
  - intros (r & Hr & ->). rewrite abs_path_under by done. apply prefix_app.
Qed.
Lemma newname_under n d r : Forall normal n → Forall normal r → d ≠ [] → r ≠ [] →
  Join [abs_path n; TrimPrefix (abs_path (d ++ r)) (under d)] = abs_path (n ++ r).
Proof.
  intros Hn Hr Hd Hne. rewrite abs_path_under by done. unfold TrimPrefix. rewrite prefix_substring, Join_home by done.
  rewrite strings_Split_Join by (done || by apply normal_no_slash). rewrite foldl_clean_id by done.
  by rewrite <- rev_app_distr, rev_involutive.
Qed.

(** ** The invariant *)
Definition dir_at (k : string) (w : root) : Prop := ∃ q g, lfetch k w = Ok q ∧ heap w !! q = Some g ∧ mf_isdir g = true.
Record entry_ok (w : root) (k : string) (p : nat) : Prop := {
  eo_path : ∃ l c, k = abs_path (l ++ [c]) ∧ Forall normal (l ++ [c]) ∧ dir_at (abs_path l) w;
  eo_file : ∃ f, heap w !! p = Some f ∧ (mf_isdir f = true → mf_name f = k);
  eo_root : p ≠ rootFile w
}.
Record mem_tree (w : root) : Prop := {
  mt_root : ∃ f, heap w !! rootFile w = Some f ∧ mf_isdir f = true ∧ mf_name f = "/"%string;
  mt_entries k p : files w !! k = Some p → entry_ok w k p
}.

(** Files only change in what the tree does not depend on. *)
Definition heap_le (w w' : root) : Prop := ∀ q f, heap w !! q = Some f →
  ∃ f', heap w' !! q = Some f' ∧ mf_isdir f' = mf_isdir f ∧ (mf_isdir f = true → mf_name f' = mf_name f).

Lemma lfetch_root w : lfetch (abs_path []) w = Ok (rootFile w).
Proof. done. Qed.
Lemma abs_path_root l : abs_path l = "/"%string → Forall normal l → l = [].
Proof. intros E Hl. apply (abs_path_inj l [] Hl (Forall_nil_2 _) E). Qed.
Lemma lfetch_key k p w : mem_tree w → files w !! k = Some p → lfetch k w = Ok p.
Proof.
  intros Ht Hk. destruct (mt_entries w Ht k p Hk) as [(l & c & -> & Hn & _) _ _]. unfold lfetch. destruct (String.eqb_spec (abs_path (l ++ [c])) "/") as [E|_]; [|by rewrite Hk].
  apply abs_path_root in E; [by destruct l|done].
Qed.
Lemma lfetch_Ok k p w : lfetch k w = Ok p → k = "/"%string ∧ p = rootFile w ∨ files w !! k = Some p.
Proof. unfold lfetch. destruct (String.eqb_spec k "/") as [->|]; [intros [= <-]; by left|]. case_match; [intros [= <-]; by right|done]. Qed.
Lemma lfetch_no_panic k w : lfetch k w ≠ Panic.
Proof. unfold lfetch. by repeat case_match. Qed.
Lemma lfetch_heap k w p : mem_tree w → lfetch k w = Ok p → ∃ f, heap w !! p = Some f ∧ (mf_isdir f = true → mf_name f = k).
Proof.
  intros Ht [[-> ->]|Hk]%lfetch_Ok; [destruct (mt_root w Ht) as (f & Hf & _ & Hn); by exists f|].
  by destruct (mt_entries w Ht k p Hk) as [_ ? _].
Qed.
Lemma file_at_heap p f w : heap w !! p = Some f → file_at p w = f.
Proof. unfold file_at. by intros ->. Qed.

Lemma dir_at_le k w w' : dir_at k w → rootFile w' = rootFile w → (∀ p, files w !! k = Some p → files w' !! k = Some p) → heap_le w w' → dir_at k w'.
Proof.
  intros (q & g & Hq & Hg & Hd) Hr Hf Hle. destruct (Hle q g Hg) as (g' & Hg' & Ed & _). exists q, g'. split_and!; [|done|by rewrite Ed].
  unfold lfetch in *. case_match; [by rewrite Hr|]. destruct (files w !! k) eqn:E; [|done]. by rewrite (Hf _ eq_refl).
Qed.
Lemma entry_ok_le w w' k p : entry_ok w k p → rootFile w' = rootFile w →
  (∀ q, files w !! Dir k = Some q → files w' !! Dir k = Some q) → heap_le w w' → entry_ok w' k p.
Proof.
  intros [(l & c & -> & Hn & Hd) (f & Hf & Hname) Hne] Hr Hfiles Hle. pose proof (proj1 (Forall_app _ _ _) Hn) as [Hl Hc].
  rewrite Dir_abs_path in Hfiles by (done || by inv Hc). split; [|destruct (Hle p f Hf) as (f' & Hf' & Ed & En)|by rewrite Hr].
  - exists l, c. split_and!; [done|done|]. by apply (dir_at_le _ w).
  - exists f'. split; [done|]. rewrite Ed. intros Hd'. rewrite (En Hd'). by apply Hname.
Qed.
Lemma tree_le w w' : mem_tree w → files w' = files w → rootFile w' = rootFile w → heap_le w w' → mem_tree w'.
Proof.
  intros [(f & Hf & Hd & Hn) Ht] Ef Er Hle. split.
  - destruct (Hle _ _ Hf) as (f' & Hf' & Ed & En). exists f'. rewrite Er, Ed, (En Hd). done.
  - intros k p Hk. rewrite Ef in Hk. apply (entry_ok_le w); [by apply Ht|done|by rewrite Ef|done].
Qed.
Lemma heap_le_refl w w' : heap w' = heap w → heap_le w w'.
Proof. intros E q f Hf. exists f. by rewrite E. Qed.
Lemma heap_le_update p g w : (∀ f, heap w !! p = Some f → mf_isdir (g f) = mf_isdir f ∧ (mf_isdir f = true → mf_name (g f) = mf_name f)) →
  heap_le w (update p g w).
Proof.
  intros Hg q f Hf. unfold update, set_heap. simpl. destruct (decide (q = p)) as [->|Hne].
  - exists (g f). rewrite list_lookup_alter_eq, Hf. by destruct (Hg f Hf).
  - exists f. by rewrite list_lookup_alter_ne.
Qed.
Lemma heap_le_alloc f w : heap_le w (alloc f w).2.
Proof. intros q g Hg. exists g. simpl. split; [by apply lookup_app_l_Some|done]. Qed.
Lemma tree_crash w : mem_tree w → mem_tree (crash w).
Proof. intros Ht. by apply (tree_le w); [..|apply heap_le_refl]. Qed.
Lemma tree_update p g w : (∀ f, mf_isdir (g f) = mf_isdir f ∧ mf_name (g f) = mf_name f) → mem_tree w → mem_tree (update p g w).
Proof. intros Hg Ht. apply (tree_le w); [done..|]. apply heap_le_update. intros f _. by destruct (Hg f). Qed.
#[local] Hint Resolve tree_crash tree_update : core.

Lemma mem_WriteAt_tree p b off w : mem_tree w → mem_tree (mem_WriteAt p b off w).2.
Proof. intros Ht. unfold mem_WriteAt. repeat case_match; simpl; auto. Qed.
Lemma mem_Truncate_tree p size w : mem_tree w → mem_tree (mem_Truncate p size w).2.
Proof. intros Ht. unfold mem_Truncate. repeat case_match; simpl; auto. Qed.
Lemma mem_TransferError_tree p e w : mem_tree w → mem_tree (mem_TransferError p e w).
Proof. unfold mem_TransferError. auto. Qed.

(** ** Changes of the map *)
Lemma delete_tree k w : mem_tree w → (∀ k' p', files w !! k' = Some p' → Dir k' ≠ k) → mem_tree (set_files (delete k (files w)) w).
Proof.
  intros Ht Hk. split; [apply (mt_root w Ht)|]. intros k' p' Hk'. simpl in Hk'. apply lookup_delete_Some in Hk' as [Hne Hk']. apply (entry_ok_le w); [by apply (mt_entries w Ht)|done| |by apply heap_le_refl].
  intros q Hq. simpl. apply lookup_delete_Some. split; [|done]. intros E. by apply (Hk k' p' Hk').
Qed.
Definition parent_ok (l : list string) (w : root) : Prop := l = [] ∨ ∃ l' c, l = l' ++ [c] ∧ dir_at (abs_path l') w.
Lemma parent_tree k p w : mem_tree w → lfetch k w = Ok p → ∃ l, k = abs_path l ∧ Forall normal l ∧ parent_ok l w.
Proof.
  intros Ht [[-> ->]|Hk]%lfetch_Ok; [exists []; split_and!; [done|done|by left]|].
  destruct (mt_entries w Ht k p Hk) as [(l & c & -> & Hn & Hd) _ _]. exists (l ++ [c]). split_and!; [done|done|]. right. by exists l, c.
Qed.
(** An entry can be put in place of a file or under a new name. *)
Lemma insert_tree k p f l c w : mem_tree w → k = abs_path (l ++ [c]) → Forall normal (l ++ [c]) → dir_at (abs_path l) w →
  heap w !! p = Some f → p ≠ rootFile w → (mf_isdir f = true → ∀ k, files w !! k ≠ Some p) →
  (∀ q g, files w !! k = Some q → heap w !! q = Some g → mf_isdir g = false) →
  mem_tree (set_files (<[k := p]> (files w)) (update p (mf_setName k) w)).
Proof.
  intros Ht -> Hn Hdir Hp Hroot Hnew Hover. set (k := abs_path (l ++ [c])). set (w' := set_files _ _).
  assert (∀ q g, heap w !! q = Some g → q ≠ p → heap w' !! q = Some g) as Hother by (intros q g Hg Hne; simpl; by rewrite list_lookup_alter_ne).
  assert (heap w' !! p = Some (mf_setName k f)) as Hp' by (simpl; by rewrite list_lookup_alter_eq, Hp).
  assert (∀ k', dir_at k' w → dir_at k' w') as Hkeep.
  { intros k' (q & g & Hq & Hg & Hd). assert (lfetch k' w' = Ok q) as Hq'.
    { apply lfetch_Ok in Hq as [[-> ->]|Hq]; [done|]. pose proof (lfetch_key _ _ _ Ht Hq) as Hl. unfold lfetch in *. case_match; [done|]. simpl.
      rewrite lookup_insert_ne; [by rewrite Hq|]. intros <-. by rewrite (Hover q g Hq Hg) in Hd. }
    destruct (decide (q = p)) as [->|Hne]; [|exists q, g; split_and!; auto]. rewrite Hp in Hg. injection Hg as <-. by exists p, (mf_setName k f). }
  split.
  - destruct (mt_root w Ht) as (g & Hg & ? & ?). exists g. split_and!; [|done|done]. by apply Hother.
  - intros k' p' Hk'. simpl in Hk'. apply lookup_insert_Some in Hk' as [[<- <-]|[Hne Hk']].
    { split; [exists l, c; split_and!; auto|by exists (mf_setName k f)|done]. }
    destruct (mt_entries w Ht k' p' Hk') as [(l' & c' & E & Hn' & Hd') (g & Hg & Hname) Hr]. split; [exists l', c'; auto| |done].
    destruct (decide (p' = p)) as [->|Hnp]; [|exists g; auto]. rewrite Hp in Hg. injection Hg as <-. exists (mf_setName k f).
    split; [done|]. intros Hd. by destruct (Hnew Hd k').
Qed.

Lemma follow_lfetch n k p q w : lfetch k w = Ok p → follow n p w = Ok q → ∃ k', lfetch k' w = Ok q.
Proof.
  revert k p. induction n as [|n IH]; intros k p Hp; simpl; (case_match; [intros [= <-]; by exists k|]); [done|].
  destruct (lfetch (mf_symlink (file_at p w)) w) as [p'| |] eqn:E; [by apply (IH _ _ E)|done|done].
Qed.
Lemma fetch_lfetch k q w : fetch k w = Ok q → ∃ k', lfetch k' w = Ok q.
Proof. unfold fetch. destruct (lfetch k w) as [p| |] eqn:E; [|done|done]. by apply follow_lfetch with k. Qed.
Lemma Base_shape p : Base p = "/"%string ∨ no_char slash (Base p) ∧ Base p ≠ EmptyString.
Proof.
  unfold Base. case_bool_decide; [by right|]. pose proof (strings_Split_no_char p slash) as Hn.
  destruct (rev (filter (λ c, c ≠ EmptyString) (strings_Split p slash))) as [|s l] eqn:E; [by left|right].
  assert (s ∈ filter (λ c, c ≠ EmptyString) (strings_Split p slash)) as Hs by (rewrite <- rev_involutive, E; apply elem_of_app; simpl; set_solver).
  apply list_elem_of_filter in Hs as [Hs1 Hs2]. split; [|done]. rewrite Forall_forall in Hn. by apply Hn.
Qed.
Lemma canonName_spec path n w : mem_tree w → canonName path w = Ok n → ∃ l, n = abs_path l ∧ Forall normal l ∧ parent_ok l w.
Proof.
  intros Ht E. unfold canonName in E. destruct (fetch (Dir path) w) as [d| |] eqn:Ed; [|done|done]. simpl in E.
  destruct (fetch_lfetch _ _ _ Ed) as (k & Hk). destruct (lfetch_heap k w d Ht Hk) as (f & Hf & Hname). rewrite (file_at_heap d f w Hf) in E.
  destruct (mf_isdir f) eqn:Hdir; [|done]. simpl in E. rewrite (Hname eq_refl) in E. injection E as <-.
  destruct (parent_tree k d w Ht Hk) as (l & -> & Hl & Hpar). rewrite Join_home by done.
  destruct (Base_shape path) as [->|[Hc Hne]]; [exists l; split_and!; [f_equal; apply rev_involutive|done|done]|].
  rewrite strings_Split_single by done. simpl. unfold clean_step. rewrite (bool_decide_false (Base path = EmptyString)) by done. simpl.
  case_bool_decide; [exists l; split_and!; [f_equal; apply rev_involutive|done|done]|]. case_bool_decide as Hup.
  - destruct Hpar as [->|(l' & c & -> & q & g & Hq & _)]; [exists []; split_and!; [done|done|by left]|].
    apply Forall_app in Hl as [Hl' Hc']. rewrite rev_app_distr. simpl. apply Forall_singleton in Hc' as (_ & _ & Hc' & _). rewrite bool_decide_false by done.
    rewrite rev_involutive. exists l'. split_and!; [done|done|]. destruct (parent_tree _ _ _ Ht Hq) as (l2 & E2 & Hl2 & Hp2).
    by rewrite (abs_path_inj l' l2) by done.
  - simpl. rewrite rev_involutive. exists (l ++ [Base path]). split_and!; [done|by apply Forall_app; repeat constructor|].
    right. exists l, (Base path). split; [done|]. by exists d, f.
Qed.
Lemma HasPrefix_abs l : strings_HasPrefix (abs_path l) "/" = true.
Proof. by apply (prefix_app "/"). Qed.

Lemma putfile_tree path p f w : mem_tree w → heap w !! p = Some f → p ≠ rootFile w → (mf_isdir f = true → ∀ k, files w !! k ≠ Some p) →
  mem_tree (putfile path p w).2.
Proof.
  intros Ht Hp Hr Hnew. unfold putfile. destruct (canonName path w) as [n|e|] eqn:E; simpl; [|done|auto].
  destruct (canonName_spec path n w Ht E) as (l & -> & Hl & Hpar). rewrite HasPrefix_abs. simpl.
  destruct (lfetch (abs_path l) w) as [q|e|] eqn:El; simpl; [done| |done].
  destruct Hpar as [->|(l' & c & -> & Hd)]; [by rewrite lfetch_root in El|]. apply (insert_tree _ p f l' c); try done.
  intros q g Hq. by rewrite (lfetch_key _ _ _ Ht Hq) in El.
Qed.
Lemma put_new_tree path f w : mem_tree w → mem_tree (putfile path (alloc f w).1 (alloc f w).2).2.
Proof.
  intros Ht. assert (∀ k, files w !! k ≠ Some (length (heap w))) as Hnew.
  { intros k Hk. destruct (mt_entries w Ht k _ Hk) as [_ (g & Hg & _) _]. apply lookup_lt_Some in Hg. lia. }
  assert (rootFile w < length (heap w))%nat as Hr by (destruct (mt_root w Ht) as (g & Hg & _); by apply lookup_lt_Some in Hg).
  apply (putfile_tree path _ f); [|simpl; by rewrite lookup_app_r, Nat.sub_diag by lia|simpl; lia|done].
  apply (tree_le w); [done..|apply heap_le_alloc].
Qed.
Lemma mem_mkdir_tree path w : mem_tree w → mem_tree (mem_mkdir path w).2.
Proof. apply put_new_tree. Qed.
Lemma mem_symlink_tree target path w : mem_tree w → mem_tree (mem_symlink target path w).2.
Proof. apply put_new_tree. Qed.
Lemma mem_link_tree old new w : mem_tree w → mem_tree (mem_link old new w).2.
Proof.
  intros Ht. unfold mem_link. destruct (lfetch old w) as [p| |] eqn:E; simpl; [|done|auto].
  destruct (lfetch_heap old w p Ht E) as (f & Hf & _). rewrite (file_at_heap p f w Hf). destruct (mf_isdir f) eqn:Hd; [done|].
  apply (putfile_tree new p f); [done|done| |by rewrite Hd]. intros ->. destruct (mt_root w Ht) as (g & Hg & Hgd & _). congruence.
Qed.
Lemma delete_leaf k p f w : mem_tree w → lfetch k w = Ok p → heap w !! p = Some f → mf_isdir f = false → mem_tree (set_files (delete k (files w)) w).
Proof.
  intros Ht E Hf Hd. apply delete_tree; [done|]. intros k' p' Hk' <-.
  destruct (mt_entries w Ht k' p' Hk') as [(l & c & -> & Hn & q & g & Hq & Hg & Hgd) _ _].
  apply Forall_app in Hn as [Hl Hc]. rewrite Dir_abs_path in E by (done || by inv Hc). congruence.
Qed.
Lemma mem_unlink_tree path w : mem_tree w → mem_tree (mem_unlink path w).2.
Proof.
  intros Ht. unfold mem_unlink. destruct (lfetch path w) as [p| |] eqn:E; simpl; [|done|auto].
  destruct (lfetch_heap path w p Ht E) as (f & Hf & _). rewrite (file_at_heap p f w Hf). destruct (mf_isdir f) eqn:Hd; [done|].
  by apply (delete_leaf path p f).
Qed.
Lemma has_entries_false d m : has_entries d m = false → ∀ k (p : nat), m !! k = Some p → Dir k ≠ d.
Proof.
  unfold has_entries. intros Hno%bool_decide_eq_false k p Hk Hd. apply Hno. apply Exists_exists. exists k.
  split; [|done]. apply elem_of_elements, elem_of_dom. by exists p.
Qed.
Lemma mem_rmdir_spec path w : mem_tree w →
  (mem_rmdir path w).1 = None → dir_at path w ∧ (∀ k p, files w !! k = Some p → Dir k ≠ path) ∧ (mem_rmdir path w).2 = set_files (delete path (files w)) w.
Proof.
  intros Ht. unfold mem_rmdir. destruct (lfetch path w) as [p|e|] eqn:E; simpl; [|done|by destruct (lfetch_no_panic path w)].
  destruct (lfetch_heap path w p Ht E) as (f & Hf & Hname). rewrite (file_at_heap p f w Hf). destruct (mf_isdir f) eqn:Hd; simpl; [|done].
  rewrite Hname by done. destruct (has_entries path (files w)) eqn:He; [done|]. intros _. split_and!; [by exists p, f| |done]. by apply has_entries_false.
Qed.
Lemma mem_rmdir_tree path w : mem_tree w → mem_tree (mem_rmdir path w).2.
Proof.
  intros Ht. destruct (mem_rmdir path w) as [[e|] w'] eqn:E.
  - unfold mem_rmdir in E. simpl. repeat case_match; simplify_eq; auto.
  - destruct (mem_rmdir_spec path w Ht) as (_ & Hno & Ew); [by rewrite E|]. rewrite E in Ew. simpl in *. rewrite Ew. by apply delete_tree.
Qed.
Lemma openfile_tree path fl w : mem_tree w → mem_tree (openfile path fl w).2.
Proof.
  intros Ht. unfold openfile. destruct (fetch path w) as [p|e|]; [|case_bool_decide; [|done]; case_match; [done|]|done].
  - repeat case_match; try done. 1-2: pose proof (mem_Truncate_tree p 0 w Ht) as Ht'; by rewrite H2 in Ht'.
  - destruct (create_name _ _ path w) as [n| |]; [|done|done]. pose proof (put_new_tree n (mkMem EmptyString (now w) EmptyString false [] None) w Ht) as Ht'.
    simpl. simpl in Ht'. by destruct (putfile n _ _) as [[e'|] w'].
Qed.

(** ** Renaming a directory *)
Section move.
Context (pre newpath : string).
Definition moves (k : string) : bool := strings_HasPrefix k pre.
Definition newname (k : string) : string := Join [newpath; TrimPrefix k pre].

(** What the loop has done for the keys it has visited: an entry below the
    directory is under its new name, and a file in no other place carries it. *)
Record moved (names : list string) (w w' : root) : Prop := {
  mv_new k q : k ∈ names → moves k = true → files w !! k = Some q → files w' !! newname k = Some q;
  mv_old k : k ∈ names → moves k = true → files w' !! k = None;
  mv_rest k : (k ∉ names ∨ moves k = false) → (∀ k', k' ∈ names → moves k' = true → newname k' = k → files w !! k' = None) → files w' !! k = files w !! k;
  mv_heap q f : heap w !! q = Some f → ∃ n, heap w' !! q = Some (mf_setName n f)
    ∧ ((∀ k, k ∈ names → moves k = true → files w !! k ≠ Some q) → n = mf_name f)
    ∧ (∀ k, k ∈ names → moves k = true → files w !! k = Some q →
         (∀ k', k' ∈ names → moves k' = true → files w !! k' = Some q → k' = k) → n = newname k);
  mv_root : rootFile w' = rootFile w
}.
Lemma mf_setName_id f : mf_setName (mf_name f) f = f.
Proof. by destruct f. Qed.

Lemma move_entries_moved names w : NoDup names →
  (∀ k, k ∈ names → moves k = true → moves (newname k) = false) →
  (∀ k k', k ∈ names → k' ∈ names → moves k = true → moves k' = true → newname k = newname k' → k = k') →
  (∀ k, k ∈ names → moves k = true → is_Some (files w !! k)) →
  moved names w (move_entries names pre newpath w).
Proof.
  revert w. induction names as [|x names IH]; intros w Hnd Hout Hinj Hin.
  { split; try done; [by intros k q ?%elem_of_nil|by intros k ?%elem_of_nil|]. intros q f Hf. exists (mf_name f). rewrite mf_setName_id.
    split_and!; [done|done|by intros k ?%elem_of_nil]. }
  apply NoDup_cons in Hnd as [Hx Hnd]. pose proof (list_elem_of_here x names) as Hx0.
  assert (∀ k, k ∈ names → k ∈ x :: names) as Hsub by (intros k; by apply list_elem_of_further).
  cbn [move_entries]. destruct (strings_HasPrefix x pre) eqn:Ex; fold (moves x) in Ex.
  - destruct (Hin x) as [p Hp]; [done|done|]. rewrite Hp. fold (newname x). pose proof (Hout x Hx0 Ex) as Hox.
    set (w1 := set_files (delete x _) _). assert (files w1 = delete x (<[newname x := p]> (files w))) as Ef by done.
    assert (heap w1 = alter (mf_setName (newname x)) p (heap w)) as Eh by done.
    assert (∀ k, k ∈ names → moves k = true → files w1 !! k = files w !! k) as Hsame.
    { intros k Hk Hm. rewrite Ef, lookup_delete_ne, lookup_insert_ne; [done|congruence|congruence]. }
    destruct (IH w1) as [I1 I2 I3 I4 I5]; [done|auto|auto|intros k Hk Hm; rewrite Hsame by done; auto|].
    split.
    + intros k q [->|Hk]%elem_of_cons Hm Hq; [|apply I1; [done|done|by rewrite Hsame]].
      rewrite I3; [rewrite Ef, lookup_delete_ne, lookup_insert_eq by congruence; congruence|by right|].
      intros k' Hk' Hm' En. destruct Hx. by rewrite <- (Hinj k' x) by auto.
    + intros k [->|Hk]%elem_of_cons Hm; [|by apply I2]. rewrite I3; [by rewrite Ef, lookup_delete_eq|by left|].
      intros k' Hk' Hm' En. specialize (Hout k'). rewrite En in Hout. rewrite Hout in Hm by auto. done.
    + intros k Hk Himg. assert (k ≠ x) as Hkx by (intros ->; destruct Hk; [done|congruence]).
      assert (k ≠ newname x) as Hkn by (intros ->; by rewrite (Himg x) in Hp).
      rewrite I3; [by rewrite Ef, lookup_delete_ne, lookup_insert_ne|destruct Hk; auto|].
      intros k' Hk' Hm' En. rewrite Hsame by done. auto.
    + intros q f Hf. destruct (decide (q = p)) as [->|Hne].
      * destruct (I4 p (mf_setName (newname x) f)) as (n & Hn & Hn1 & Hn2); [by rewrite Eh, list_lookup_alter_eq, Hf|].
        exists n. split_and!; [done|intros Hno; by destruct (Hno x)|]. intros k Hk Hm Hq Hu.
        rewrite <- (Hu x) by done. apply Hn1. intros k' Hk' Hm'. rewrite Hsame by done. intros Hq'.
        destruct Hx. rewrite (Hu x), <- (Hu k') by auto. done.
      * destruct (I4 q f) as (n & Hn & Hn1 & Hn2); [by rewrite Eh, list_lookup_alter_ne by done|].
        exists n. split_and!; [done|intros Hno; apply Hn1; intros k Hk Hm; rewrite Hsame by done; auto|].
        intros k Hk Hm Hq Hu. apply elem_of_cons in Hk as [->|Hk]; [congruence|]. apply Hn2; [done|done|by rewrite Hsame|].
        intros k' Hk' Hm'. rewrite Hsame by done. auto.
    + done.
  - destruct (IH w) as [I1 I2 I3 I4 I5]; [done|auto..|]. split.
    + intros k q [->|Hk]%elem_of_cons Hm; [congruence|by apply I1].
    + intros k [->|Hk]%elem_of_cons Hm; [congruence|by apply I2].
    + intros k Hk Himg. apply I3; [destruct Hk; auto|auto].
    + intros q f Hf. destruct (I4 q f Hf) as (n & Hn & Hn1 & Hn2). exists n. split_and!; [done|auto|].
      intros k [->|Hk]%elem_of_cons Hm Hq Hu; [congruence|]. apply Hn2; auto.
    + done.
Qed.
End move.

(** What a rename of the directory [o] to [n] does: each entry at or below [o] is
    where its name below [n] says, nothing else has moved, and the directories
    among them carry their new names. *)
Definition at_or_below (o l : list string) : Prop := ∃ r, l = o ++ r.
Record renamed (o n : list string) (w w' : root) : Prop := {
  rn_new r q : Forall normal r → files w !! abs_path (o ++ r) = Some q → files w' !! abs_path (n ++ r) = Some q;
  rn_rest l q : Forall normal l → ¬ at_or_below o l → files w !! abs_path l = Some q → files w' !! abs_path l = Some q;
  rn_only k q : files w' !! k = Some q →
    (∃ r, Forall normal r ∧ k = abs_path (n ++ r) ∧ files w !! abs_path (o ++ r) = Some q)
    ∨ (∃ l, Forall normal l ∧ ¬ at_or_below o l ∧ k = abs_path l ∧ files w !! k = Some q);
  rn_heap q f : heap w !! q = Some f → ∃ m, heap w' !! q = Some (mf_setName m f)
    ∧ (mf_isdir f = true → (∀ r, Forall normal r → files w !! abs_path (o ++ r) = Some q → m = abs_path (n ++ r))
        ∧ ((∀ r, Forall normal r → files w !! abs_path (o ++ r) ≠ Some q) → m = mf_name f));
  rn_root : rootFile w' = rootFile w
}.

Lemma key_normal k p w : mem_tree w → files w !! k = Some p → ∃ l, l ≠ [] ∧ Forall normal l ∧ k = abs_path l.
Proof. intros Ht Hk. destruct (mt_entries w Ht k p Hk) as [(l & c & -> & Hn & _) _ _]. exists (l ++ [c]). split_and!; [by destruct l|done|done]. Qed.
Lemma dir_key k p f w : mem_tree w → files w !! k = Some p → heap w !! p = Some f → mf_isdir f = true → mf_name f = k.
Proof. intros Ht Hk Hf Hd. destruct (mt_entries w Ht k p Hk) as [_ (f' & Hf' & Hn) _]. rewrite Hf in Hf'. injection Hf' as <-. by apply Hn. Qed.
Lemma ancestor_dir n x q w : mem_tree w → Forall normal (n ++ x) → x ≠ [] → files w !! abs_path (n ++ x) = Some q → dir_at (abs_path n) w.
Proof.
  intros Ht. revert q. induction x as [|c x IH] using rev_ind; intros q Hn Hx Hq; [done|].
  destruct (mt_entries w Ht _ q Hq) as [(l & c' & E & Hn' & Hd) _ _]. rewrite app_assoc in E, Hn. apply abs_path_inj in E; [|done|done].
  apply app_inj_tail in E as [<- <-]. destruct x as [|y x]; [by rewrite app_nil_r in Hd|].
  destruct Hd as (p & g & [[Er _]|Hp]%lfetch_Ok & _); [|apply (IH p); [by apply Forall_app in Hn as [? _]|done|done]].
  apply abs_path_root in Er; [by destruct n|by apply Forall_app in Hn as [? _]].
Qed.

Section rename_dir.
Context `{MapOrderSpec} (o n : list string) (p : nat) (f : memFile) (w : root).
Context (Ht : mem_tree w) (Ho : Forall normal o) (Hn : Forall normal n) (Hne : n ≠ []).
Context (Hp : files w !! abs_path o = Some p) (Hf : heap w !! p = Some f) (Hd : mf_isdir f = true).
Context (Hfree : files w !! abs_path n = None) (Hapart : ¬ at_or_below o n).

Let w1 := set_files (<[abs_path n := p]> (files w)) w.
Let w2 := move_entries (range_keys (files w1)) (under o) (abs_path n) w1.
Let w3 := update p (mf_setName (abs_path n)) w2.
Let w4 := set_files (delete (abs_path o) (files w3)) w3.

Lemma rd_o : o ≠ [].
Proof. intros ->. destruct (key_normal _ _ _ Ht Hp) as (l & Hl & Hnl & E). by apply (abs_path_inj []) in E as <-. Qed.
Lemma rd_below_free r : Forall normal r → files w !! abs_path (n ++ r) = None.
Proof.
  intros Hr. destruct r as [|c r]; [by rewrite app_nil_r|]. destruct (files w !! abs_path (n ++ c :: r)) as [q|] eqn:E; [|done].
  destruct (ancestor_dir n (c :: r) q w) as (d & g & [[Er _]|Hq]%lfetch_Ok & _); [done|by apply Forall_app|done|done| |congruence].
  by apply abs_path_root in Er.
Qed.
Lemma rd_disjoint l r : l = n ++ r → Forall normal l → ¬ at_or_below o l.
Proof.
  intros -> Hl (r' & E). apply Forall_app in Hl as [_ Hr]. apply app_eq_inv in E as [(k & -> & _)|(k & E & ->)]; [by destruct Hapart; exists k|].
  assert (Forall normal k) as Hk by (rewrite E in Ho; by apply Forall_app in Ho as [_ ?]). pose proof (rd_below_free k Hk) as Hz. rewrite <- E in Hz. congruence.
Qed.
Lemma rd_keys k q : files w1 !! k = Some q → ∃ l, l ≠ [] ∧ Forall normal l ∧ k = abs_path l.
Proof. simpl. intros [[<- <-]|[_ Hk]]%lookup_insert_Some; [by exists n|by apply (key_normal k q w)]. Qed.
Lemma rd_moves l : Forall normal l → moves (under o) (abs_path l) = true ↔ ∃ r, r ≠ [] ∧ l = o ++ r.
Proof. intros Hl. apply HasPrefix_under; [done|done|apply rd_o]. Qed.
Lemma rd_elem k : k ∈ range_keys (files w1) ↔ is_Some (files w1 !! k).
Proof. by rewrite (range_keys_spec (files w1)), elem_of_elements, elem_of_dom. Qed.
(** The keys that move, and where to. *)
Lemma rd_moving k : k ∈ range_keys (files w1) → moves (under o) k = true →
  ∃ r, r ≠ [] ∧ Forall normal r ∧ k = abs_path (o ++ r) ∧ newname (under o) (abs_path n) k = abs_path (n ++ r) ∧ files w1 !! k = files w !! k.
Proof.
  intros [q Hq]%rd_elem Hm. destruct (rd_keys k q Hq) as (l & _ & Hl & ->). apply rd_moves in Hm as (r & Hr & ->); [|done].
  pose proof (proj1 (Forall_app _ _ _) Hl) as [_ Hr']. exists r. split_and!; [done|done|done|apply newname_under; [done|done|apply rd_o|done]|].
  simpl. apply lookup_insert_ne. intros E. apply abs_path_inj in E; [|done|done]. by destruct Hapart; exists r.
Qed.
Lemma rd_moved : moved (under o) (abs_path n) (range_keys (files w1)) w1 w2.
Proof.
  apply move_entries_moved.
  - rewrite (range_keys_spec (files w1)). apply NoDup_elements.
  - intros k Hk Hm. destruct (rd_moving k Hk Hm) as (r & Hr & Hrn & _ & -> & _). apply not_true_is_false. intros Hm'.
    assert (Forall normal (n ++ r)) as Hnr by by apply Forall_app. apply rd_moves in Hm' as (r' & _ & E); [|done].
    apply (rd_disjoint (n ++ r) r); [done|done|by exists r'].
  - intros k k' Hk Hk' Hm Hm'. destruct (rd_moving k Hk Hm) as (r & _ & Hr & -> & -> & _). destruct (rd_moving k' Hk' Hm') as (r' & _ & Hr' & -> & -> & _).
    intros E. apply abs_path_inj in E; [|by apply Forall_app..]. by apply app_inv_head in E as <-.
  - intros k Hk _. by apply rd_elem.
Qed.
Lemma rd_at_new : files w2 !! abs_path n = Some p.
Proof.
  rewrite (mv_rest _ _ _ _ _ rd_moved); [by simpl; rewrite lookup_insert_eq| |].
  - right. apply not_true_is_false. intros (r & _ & E)%rd_moves; [|done]. by destruct Hapart; exists r.
  - intros k Hk Hm E. destruct (rd_moving k Hk Hm) as (r & Hr & Hrn & -> & En & _). rewrite E in En.
    apply abs_path_inj in En; [|done|by apply Forall_app]. by destruct Hr; apply (app_inv_head n); rewrite app_nil_r.
Qed.
Lemma rd_new r q : Forall normal r → files w !! abs_path (o ++ r) = Some q → files w4 !! abs_path (n ++ r) = Some q.
Proof.
  intros Hr Hq. simpl. assert (Forall normal (n ++ r)) as Hnr by by apply Forall_app.
  rewrite lookup_delete_ne by (intros E; apply abs_path_inj in E; [|done|done]; destruct (rd_disjoint _ r eq_refl Hnr); exists []; by rewrite app_nil_r).
  destruct (decide (r = [])) as [->|Hne']; [rewrite app_nil_r in *; rewrite Hp in Hq; injection Hq as <-; apply rd_at_new|].
  assert (Forall normal (o ++ r)) as Hor by by apply Forall_app.
  assert (files w1 !! abs_path (o ++ r) = Some q) as Hq1.
  { simpl. rewrite lookup_insert_ne; [done|]. intros E. apply abs_path_inj in E; [|done|done]. by destruct Hapart; exists r. }
  rewrite <- (newname_under n o r Hn Hr rd_o Hne'). apply (mv_new _ _ _ _ _ rd_moved); [by apply rd_elem; exists q| |done]. apply rd_moves; [done|by exists r].
Qed.
Lemma rd_rest l q : Forall normal l → ¬ at_or_below o l → files w !! abs_path l = Some q → files w4 !! abs_path l = Some q.
Proof.
  intros Hl Hno Hq. simpl. rewrite lookup_delete_ne by (intros E; apply abs_path_inj in E; [|done|done]; subst l; apply Hno; exists []; by rewrite app_nil_r).
  change (files w2 !! abs_path l = Some q). rewrite (mv_rest _ _ _ _ _ rd_moved).
  - simpl. rewrite lookup_insert_ne by congruence. done.
  - right. apply not_true_is_false. intros (r & _ & E)%rd_moves; [|done]. by apply Hno; exists r.
  - intros k Hk Hm E. destruct (rd_moving k Hk Hm) as (r & _ & Hr & _ & En & _). rewrite E in En. by rewrite En, rd_below_free in Hq.
Qed.
Lemma rd_only k q : files w4 !! k = Some q →
  (∃ r, Forall normal r ∧ k = abs_path (n ++ r) ∧ files w !! abs_path (o ++ r) = Some q)
  ∨ (∃ l, Forall normal l ∧ ¬ at_or_below o l ∧ k = abs_path l ∧ files w !! k = Some q).
Proof.
  simpl. intros [Hko Hk]%lookup_delete_Some. change (files w2 !! k = Some q) in Hk.
  destruct (decide (Exists (λ k', moves (under o) k' = true ∧ newname (under o) (abs_path n) k' = k) (range_keys (files w1)))) as [Hex|Hex].
  - apply Exists_exists in Hex as (k' & Hk' & Hm & En). destruct (rd_moving k' Hk' Hm) as (r & _ & Hr & -> & En' & E1).
    left. exists r. split_and!; [done|congruence|]. apply rd_elem in Hk' as Hs. destruct Hs as [q' Hq'].
    pose proof (mv_new _ _ _ _ _ rd_moved _ _ Hk' Hm Hq') as Hq2. congruence.
  - assert (∀ k', k' ∈ range_keys (files w1) → moves (under o) k' = true → newname (under o) (abs_path n) k' = k → files w1 !! k' = None) as Himg
      by (intros k' Hk' Hm En; destruct Hex; apply Exists_exists; by exists k').
    destruct (decide (k ∈ range_keys (files w1))) as [Hin|Hout]; [destruct (moves (under o) k) eqn:Hm|].
    + by rewrite (mv_old _ _ _ _ _ rd_moved) in Hk.
    + rewrite (mv_rest _ _ _ _ _ rd_moved) in Hk by auto. destruct (rd_keys k q Hk) as (l & _ & Hl & ->).
      simpl in Hk. apply lookup_insert_Some in Hk as [[E <-]|[_ Hk]]; [left; exists []; rewrite !app_nil_r; done|].
      right. exists l. split_and!; [done| |done|done]. intros ([|c r] & ->); [by rewrite app_nil_r in Hko|].
      by rewrite (proj2 (rd_moves (o ++ c :: r) Hl)) in Hm by by exists (c :: r).
    + rewrite (mv_rest _ _ _ _ _ rd_moved) in Hk by auto. destruct Hout. apply rd_elem. by exists q.
Qed.
Lemma rd_heap q g : heap w !! q = Some g → ∃ m, heap w4 !! q = Some (mf_setName m g)
  ∧ (mf_isdir g = true → (∀ r, Forall normal r → files w !! abs_path (o ++ r) = Some q → m = abs_path (n ++ r))
      ∧ ((∀ r, Forall normal r → files w !! abs_path (o ++ r) ≠ Some q) → m = mf_name g)).
Proof.
  intros Hg. destruct (mv_heap _ _ _ _ _ rd_moved q g Hg) as (m & Hm & Hm1 & Hm2). change (heap w4) with (alter (mf_setName (abs_path n)) p (heap w2)).
  destruct (decide (q = p)) as [->|Hqp].
  - exists (abs_path n). rewrite list_lookup_alter_eq, Hm. split; [done|]. intros Hgd. split.
    + intros r Hr Hq. rewrite Hf in Hg. injection Hg as <-. pose proof (dir_key _ _ _ _ Ht Hp Hf Hd) as E1. rewrite (dir_key _ _ _ _ Ht Hq Hf Hd) in E1.
      apply abs_path_inj in E1; [|by apply Forall_app|done]. replace r with (@nil string) by (apply (app_inv_head o); by rewrite app_nil_r). by rewrite app_nil_r.
    + intros Hno. destruct (Hno []); [done|by rewrite app_nil_r].
  - exists m. rewrite list_lookup_alter_ne by done. split; [done|]. intros Hgd. split.
    + intros r Hr Hq. assert (r ≠ []) as Hrn by (intros ->; rewrite app_nil_r in Hq; congruence). rewrite <- (newname_under n o r Hn Hr rd_o Hrn).
      assert (abs_path (o ++ r) ∈ range_keys (files w1)) as Hin.
      { apply rd_elem. exists q. simpl. rewrite lookup_insert_ne; [done|]. congruence. }
      assert (moves (under o) (abs_path (o ++ r)) = true) as Hmr by (apply rd_moves; [by apply Forall_app|by exists r]).
      apply Hm2; [done|done|by destruct (rd_moving _ Hin Hmr) as (? & _ & _ & _ & _ & ->)|].
      intros k' Hk' Hmk'. destruct (rd_moving k' Hk' Hmk') as (r' & _ & _ & _ & _ & ->). intros Hq'.
      rewrite <- (dir_key _ _ _ _ Ht Hq Hg Hgd). by rewrite (dir_key _ _ _ _ Ht Hq' Hg Hgd).
    + intros Hno. apply Hm1. intros k' Hk' Hmk'. destruct (rd_moving k' Hk' Hmk') as (r' & _ & Hr' & -> & _ & ->). by apply Hno.
Qed.
Lemma rd_renamed : renamed o n w w4.
Proof.
  split; [apply rd_new|apply rd_rest|apply rd_only|apply rd_heap|]. exact (mv_root _ _ _ _ _ rd_moved).
Qed.
End rename_dir.

Lemma renamed_tree o n n' c p w w' : mem_tree w → Forall normal o → Forall normal n → n = n' ++ [c] → dir_at (abs_path n') w → ¬ at_or_below o n →
  files w !! abs_path o = Some p → renamed o n w w' → mem_tree w'.
Proof.
  intros Ht Ho Hn -> Hdir Hapart Hp [Rnew Rrest Ronly Rheap Rroot].
  assert (∀ l, Forall normal l → ¬ at_or_below o l → dir_at (abs_path l) w → dir_at (abs_path l) w') as Hkeep.
  { intros l Hl Hno (q & g & Hq & Hg & Hd). destruct (Rheap q g Hg) as (m & Hm & _). exists q, (mf_setName m g). split_and!; [|done|done].
    apply lfetch_Ok in Hq as [[E ->]|Hq]; [by rewrite (abs_path_root l E Hl), lfetch_root, Rroot|]. unfold lfetch.
    rewrite (Rrest l q Hl Hno Hq). case_match eqn:E; [|done]. apply String.eqb_eq in E. destruct (key_normal _ _ _ Ht Hq) as (k & Hk & Hkn & Ek).
    rewrite E in Ek. symmetry in Ek. by apply abs_path_root in Ek. }
  assert (∀ q f, heap w !! q = Some f → mf_isdir f = true → ∀ k, files w !! k = Some q → ∀ r, files w !! abs_path (o ++ r) = Some q → abs_path (o ++ r) = k) as Huniq.
  { intros q f Hf Hd k Hk r Hr. rewrite <- (dir_key _ _ _ _ Ht Hk Hf Hd). by rewrite (dir_key _ _ _ _ Ht Hr Hf Hd). }
  split.
  - destruct (mt_root w Ht) as (f & Hf & Hd & Hname). destruct (Rheap _ f Hf) as (m & Hm & Hdm). exists (mf_setName m f). rewrite Rroot.
    split_and!; [done|done|]. simpl. destruct (Hdm Hd) as [_ ->]; [done|]. intros r _ Hr. by destruct (mt_entries w Ht _ _ Hr) as [_ _ ?].
  - intros k q Hk. destruct (Ronly k q Hk) as [(r & Hr & -> & Hq)|(l & Hl & Hno & -> & Hq)].
    + destruct (mt_entries w Ht _ _ Hq) as [(l & c' & E & Hln & Hld) (g & Hg & Hname) Hroot]. destruct (Rheap q g Hg) as (m & Hm & Hdm).
      split; [|exists (mf_setName m g); split; [done|intros Hgd; by apply (Hdm Hgd)]|by rewrite Rroot].
      destruct r as [|c2 r _] using rev_ind.
      { rewrite app_nil_r. exists n', c. split_and!; [done|done|]. pose proof (proj1 (Forall_app _ _ _) Hn) as [Hn' _]. apply Hkeep; [done| |done].
        intros (x & ->). destruct Hapart. exists (x ++ [c]). by rewrite app_assoc. }
      exists ((n' ++ [c]) ++ r), c2. rewrite app_assoc. pose proof Hr as [Hr' Hc2]%Forall_app.
      split_and!; [done|by apply Forall_app_2; [apply Forall_app_2|]|]. rewrite app_assoc in E. apply abs_path_inj in E; [|by apply Forall_app_2; [apply Forall_app_2|]|done].
      apply app_inj_tail in E as [<- <-]. destruct Hld as (d & g' & [[Er _]|Hd]%lfetch_Ok & Hg' & Hgd').
      * apply abs_path_root in Er; [|by apply Forall_app]. destruct o; [|done]. destruct (key_normal _ _ _ Ht Hp) as (k & Hk1 & Hk2 & Ek).
        symmetry in Ek. by apply abs_path_root in Ek.
      * destruct (Rheap d g' Hg') as (m' & Hm' & _). exists d, (mf_setName m' g'). split_and!; [|done|done]. unfold lfetch. rewrite (Rnew r d Hr' Hd).
        case_match eqn:E; [|done]. apply String.eqb_eq, abs_path_root in E; [by destruct n'|by apply Forall_app].
    + destruct (mt_entries w Ht _ _ Hq) as [(l' & c' & E & Hln & Hld) (g & Hg & Hname) Hroot]. destruct (Rheap q g Hg) as (m & Hm & Hdm).
      split; [|exists (mf_setName m g); split; [done|]|by rewrite Rroot].
      * exists l', c'. split_and!; [done|done|]. pose proof (proj1 (Forall_app _ _ _) Hln) as [Hl' _]. apply Hkeep; [done| |done].
        intros (x & ->). destruct Hno. exists (x ++ [c']). rewrite app_assoc. by apply abs_path_inj.
      * intros Hgd. simpl. destruct (Hdm Hgd) as [_ ->]; [by apply Hname|]. intros r Hr Hq'. destruct Hno. exists r.
        symmetry. apply abs_path_inj; [by apply Forall_app|done|]. by apply (Huniq q g Hg Hgd).
Qed.

(** The renames the tree survives: not of the root, and not of a directory to a
    place below itself. *)
Definition rename_safe (old new : string) (w : root) : Prop :=
  old ≠ "/"%string ∧ ∀ n, canonName new w = Ok n → strings_HasPrefix n (old +:+ "/") = false.

Section operations.
Context `{MapOrderSpec}.

Lemma rmdir_root_fails k p w : mem_tree w → files w !! k = Some p → (mem_rmdir "/" w).1 ≠ None.
Proof.
  intros Ht Hk Hr. destruct (mem_rmdir_spec "/" w Ht Hr) as (_ & Hno & _). destruct (key_normal k p w Ht Hk) as (l & Hl & Hn & ->).
  destruct l as [|c l]; [done|]. pose proof (proj1 (Forall_cons _ _ _) Hn) as [Hc Hn']. pose proof (Dir_abs_path [] c (Forall_nil_2 _) Hc) as Hdir. simpl in Hdir.
  destruct l as [|c' l]; [by apply (Hno _ _ Hk)|].
  destruct (ancestor_dir [c] (c' :: l) p w Ht Hn) as (q & g & [[E _]|Hq]%lfetch_Ok & _); [done|done| |by apply (Hno _ _ Hq)].
  apply abs_path_root in E; [done|by constructor].
Qed.
Lemma rename_file_tree old l c p f w : mem_tree w → lfetch old w = Ok p → heap w !! p = Some f → mf_isdir f = false → old ≠ abs_path (l ++ [c]) →
  Forall normal (l ++ [c]) → dir_at (abs_path l) w → (∀ q g, files w !! abs_path (l ++ [c]) = Some q → heap w !! q = Some g → mf_isdir g = false) →
  let w1 := update p (mf_setName (abs_path (l ++ [c]))) (set_files (<[abs_path (l ++ [c]) := p]> (files w)) w) in
  mem_tree (set_files (delete old (files w1)) w1).
Proof.
  intros Ht Hp Hf Hd Hne Hn Hdir Hover w1. assert (p ≠ rootFile w) as Hroot.
  { intros ->. destruct (mt_root w Ht) as (g & Hg & Hgd & _). congruence. }
  assert (mem_tree w1) as Ht1 by exact (insert_tree _ p f l c w Ht eq_refl Hn Hdir Hf Hroot ltac:(congruence) Hover).
  apply (delete_leaf old p (mf_setName (abs_path (l ++ [c])) f)); [done| |simpl; by rewrite list_lookup_alter_eq, Hf|done].
  unfold lfetch in *. case_match; [done|]. simpl. by rewrite lookup_insert_ne.
Qed.
Lemma rename_dir_tree o l c p f w : mem_tree w → Forall normal o → files w !! abs_path o = Some p → heap w !! p = Some f → mf_isdir f = true →
  Forall normal (l ++ [c]) → dir_at (abs_path l) w → files w !! abs_path (l ++ [c]) = None → ¬ at_or_below o (l ++ [c]) →
  let w1 := set_files (<[abs_path (l ++ [c]) := p]> (files w)) w in
  let w2 := move_entries (range_keys (files w1)) (mf_name f +:+ "/") (abs_path (l ++ [c])) w1 in
  let w3 := update p (mf_setName (abs_path (l ++ [c]))) w2 in
  mem_tree (set_files (delete (abs_path o) (files w3)) w3).
Proof.
  intros Ht Ho Hp Hf Hd Hn Hdir Hfree Hapart w1 w2 w3. apply (renamed_tree o (l ++ [c]) l c p w); try done.
  unfold w3, w2. rewrite (dir_key _ _ _ _ Ht Hp Hf Hd). apply (rd_renamed o (l ++ [c]) p f w); try done. by destruct l.
Qed.

Lemma mem_rename_tree old new w : mem_tree w → rename_safe old new w → mem_tree (mem_rename old new w).2.
Proof.
  intros Ht [Hroot Hsafe]. unfold mem_rename. destruct (lfetch old w) as [p| |] eqn:Ep; simpl; [|done|auto].
  pose proof Ep as [[-> _]|Hk]%lfetch_Ok; [done|]. destruct (key_normal old p w Ht Hk) as (o & Hone & Ho & ->).
  destruct (lfetch_heap _ w p Ht Ep) as (f & Hf & Hname). rewrite (file_at_heap p f w Hf).
  destruct (canonName new w) as [n| |] eqn:En; simpl; [|done|auto]. specialize (Hsafe n eq_refl).
  destruct (canonName_spec new n w Ht En) as (l & -> & Hl & Hpar). rewrite HasPrefix_abs. simpl.
  assert (∀ t, lfetch (abs_path l) w = t → t ≠ Ok p → ¬ at_or_below o l) as Hapart.
  { intros t <- Hne ([|x r] & ->); [by rewrite app_nil_r in Hne|]. unfold strings_HasPrefix in Hsafe.
    pose proof (proj2 (HasPrefix_under (o ++ x :: r) o Hl Ho Hone) ltac:(by exists (x :: r))) as E. unfold strings_HasPrefix, under in E. congruence. }
  destruct (lfetch (abs_path l) w) as [t|e|] eqn:El; [|destruct Hpar as [->|(l' & c & -> & Hdir)]; [done|]|by destruct (lfetch_no_panic (abs_path l) w)].
  - case_bool_decide as Htp; [done|]. specialize (Hapart _ eq_refl ltac:(congruence)). destruct (mf_isdir f) eqn:Hd.
    + pose proof (mem_rmdir_tree (abs_path l) w Ht) as Ht'. destruct (mem_rmdir (abs_path l) w) as [[e|] w'] eqn:Erm; [done|].
      destruct (mem_rmdir_spec (abs_path l) w Ht) as (_ & Hno & Ew); [by rewrite Erm|]. rewrite Erm in Ew. simpl in Ew, Ht'.
      destruct Hpar as [->|(l' & c & -> & Hdir)]; [destruct (rmdir_root_fails _ p w Ht Hk); exact (f_equal fst Erm)|].
      assert (abs_path o ≠ abs_path (l' ++ [c])) as Hne by (intros E; rewrite <- E in El; congruence). pose proof (proj1 (Forall_app _ _ _) Hl) as [Hl' _].
      simpl. apply (rename_dir_tree o l' c p f w'); try done; rewrite Ew; simpl; [by rewrite lookup_delete_ne|done| |by rewrite lookup_delete_eq].
      apply (dir_at_le _ w); [done|done| |by apply heap_le_refl]. intros q Hq. simpl. rewrite lookup_delete_ne; [done|].
      intros E. apply abs_path_inj in E; [|done|done]. apply (f_equal length) in E. rewrite length_app in E. simpl in E. lia.
    + destruct (lfetch_heap _ w t Ht El) as (g & Hg & _). rewrite (file_at_heap t g w Hg). destruct (mf_isdir g) eqn:Hgd; [done|].
      destruct Hpar as [->|(l' & c & -> & Hdir)].
      { rewrite lfetch_root in El. injection El as <-. destruct (mt_root w Ht) as (g' & Hg' & Hgd' & _). congruence. }
      simpl. apply (rename_file_tree _ l' c p f); try done; [intros E; rewrite <- E in El; congruence|].
      intros q g' Hq Hg'. rewrite (lfetch_key _ _ _ Ht Hq) in El. injection El as ->. congruence.
  - specialize (Hapart _ eq_refl ltac:(done)). assert (files w !! abs_path (l' ++ [c]) = None) as Hfree.
    { destruct (files w !! abs_path (l' ++ [c])) as [q|] eqn:Eq; [|done]. by rewrite (lfetch_key _ _ _ Ht Eq) in El. }
    destruct (mf_isdir f) eqn:Hd; simpl; [by apply (rename_dir_tree o l' c p f)|].
    apply (rename_file_tree _ l' c p f); try done; [intros E; rewrite <- E in El; congruence|]. intros q g Hq. congruence.
Qed.
End operations.

(** Directories are not symbolic links. *)
Definition plain_dirs (w : root) : Prop := ∀ q f, heap w !! q = Some f → mf_isdir f = true → mf_symlink f = EmptyString.
Lemma plain_update p g w : (∀ f, mf_isdir (g f) = mf_isdir f ∧ mf_symlink (g f) = mf_symlink f) → plain_dirs w → plain_dirs (update p g w).
Proof.
  intros Hg Hw q f Hf. simpl in Hf. destruct (decide (p = q)) as [->|Hne]; [|rewrite list_lookup_alter_ne in Hf by done; by apply (Hw q)].
  rewrite list_lookup_alter_eq in Hf. apply fmap_Some in Hf as (f' & Hf' & ->). destruct (Hg f') as [-> ->]. by apply (Hw q).
Qed.
Lemma plain_set_files m w : plain_dirs w → plain_dirs (set_files m w).
Proof. done. Qed.
Lemma plain_crash w : plain_dirs w → plain_dirs (crash w).
Proof. done. Qed.
Lemma plain_alloc f w : (mf_isdir f = true → mf_symlink f = EmptyString) → plain_dirs w → plain_dirs (set_heap (heap w ++ [f]) w).
Proof. intros Hf Hw q g Hg. simpl in Hg. apply lookup_app_Some in Hg as [Hg|[_ Hg]]; [by apply (Hw q)|]. by apply list_lookup_singleton_Some in Hg as [_ <-]. Qed.
#[local] Hint Resolve plain_update plain_set_files plain_crash plain_alloc : plain.
Lemma plain_putfile path p w : plain_dirs w → plain_dirs (putfile path p w).2.
Proof. intros Hw. unfold putfile. repeat case_match; simpl; auto with plain. Qed.
Lemma plain_Truncate p size w : plain_dirs w → plain_dirs (mem_Truncate p size w).2.
Proof. intros Hw. unfold mem_Truncate. repeat case_match; simpl; auto with plain. Qed.
Lemma plain_WriteAt p b off w : plain_dirs w → plain_dirs (mem_WriteAt p b off w).2.
Proof. intros Hw. unfold mem_WriteAt. repeat case_match; simpl; auto with plain. Qed.
Lemma plain_openfile path fl w : plain_dirs w → plain_dirs (openfile path fl w).2.
Proof.
  intros Hw. unfold openfile. destruct (fetch path w) as [p|e|]; [|case_bool_decide; [|done]; case_match; [done|]|done].
  - pose proof (plain_Truncate p 0 w Hw) as Ht. by repeat case_match; simplify_eq.
  - destruct (create_name _ _ path w) as [n| |]; [|done|done]. cbn [alloc]. set (w1 := set_heap _ w).
    assert (plain_dirs w1) as Hw1 by by apply plain_alloc. pose proof (plain_putfile n (length (heap w)) w1 Hw1). by repeat case_match; simplify_eq.
Qed.
Lemma plain_move names pre new w : plain_dirs w → plain_dirs (move_entries names pre new w).
Proof. revert w. induction names as [|x names IH]; intros w Hw; simpl; [done|]. apply IH. repeat case_match; auto with plain. Qed.
Lemma plain_rmdir path w : plain_dirs w → plain_dirs (mem_rmdir path w).2.
Proof. intros Hw. unfold mem_rmdir. repeat case_match; simpl; auto with plain. Qed.
#[local] Hint Resolve plain_move plain_putfile plain_Truncate plain_WriteAt plain_openfile plain_rmdir : plain.

Section handler_steps.
Context `{MapOrderSpec}.
Lemma plain_rename old new w : plain_dirs w → plain_dirs (mem_rename old new w).2.
Proof.
  intros Hw. unfold mem_rename. pose proof (plain_rmdir) as Hrm. destruct (lfetch old w) as [p| |]; [|done|done]. destruct (canonName new w) as [n| |]; [|done|done].
  specialize (Hrm n w Hw). repeat case_match; simplify_eq; simpl in *; eauto 10 with plain.
Qed.
Lemma plain_Filecmd r w : plain_dirs w → plain_dirs (root_Filecmd r w).2.
Proof.
  intros Hw. unfold root_Filecmd. destruct (mockErr w); [done|]. pose proof (plain_openfile (Filepath r) sshFxfWrite w Hw) as Ho.
  repeat case_bool_decide; [|case_match; [done|by apply plain_rename]|..].
  - repeat case_match; simplify_eq; simpl in *; auto with plain.
  - auto with plain.
  - unfold mem_unlink. repeat case_match; simpl; auto with plain.
  - apply plain_putfile. by apply plain_alloc.
  - unfold mem_link. repeat case_match; simpl; auto with plain.
  - apply plain_putfile. by apply plain_alloc.
  - done.
Qed.
Lemma Filecmd_tree r w : mem_tree w → (Method r = "Rename"%string → rename_safe (Filepath r) (Target r) w) → mem_tree (root_Filecmd r w).2.
Proof.
  intros Ht Hs. unfold root_Filecmd. destruct (mockErr w); [done|]. pose proof (openfile_tree (Filepath r) sshFxfWrite w Ht) as Ho.
  repeat case_bool_decide; [|case_match; [done|by apply mem_rename_tree; [|apply Hs]]|by apply mem_rmdir_tree|by apply mem_unlink_tree|by apply mem_mkdir_tree|by apply mem_link_tree|by apply mem_symlink_tree|done].
  destruct (openfile _ _ w) as [[p|e|] w']; simpl in Ho |- *; [|done|auto]. case_match; [|done]. case_match; [by apply mem_Truncate_tree|simpl; auto..].
Qed.

(** The calls the request server makes, on any handle and in any order. *)
Implicit Types (r : Request nat (list FileInfo)).
Inductive mem_step : root → root → Prop :=
  | ms_Fileread r w : mem_step w (Fileread r w).2
  | ms_Filewrite r w : mem_step w (Filewrite r w).2
  | ms_OpenFile r w : mem_step w (root_OpenFile r w).2
  | ms_Filecmd r w : (Method r = "Rename"%string → rename_safe (Filepath r) (Target r) w) → mem_step w (Filecmd r w).2
  | ms_PosixRename r w : rename_safe (Filepath r) (Target r) w → mem_step w (root_PosixRename r w).2
  | ms_Filelist r w : mem_step w (Filelist r w).2
  | ms_Lstat r w : mem_step w (root_Lstat r w).2
  | ms_ReadAt p n off w : mem_step w (ReadAt p n off w).2
  | ms_WriteAt p b off w : mem_step w (WriteAt p b off w).2
  | ms_TransferError p e w : mem_step w (TransferError p e w)
  | ms_Close p w : mem_step w (obj_Close p w).2
  | ms_returnErr e w : mem_step w (returnErr e w)
  | ms_now t w : mem_step w (mkRoot (heap w) (rootFile w) (mockErr w) (files w) t (crashed w)).

Lemma OpenFile_tree r w : mem_tree w ∧ plain_dirs w → mem_tree (root_OpenFile r w).2 ∧ plain_dirs (root_OpenFile r w).2.
Proof. intros [Ht Hw]. unfold root_OpenFile. case_match; [done|]. split; [by apply openfile_tree|auto with plain]. Qed.
Lemma mem_step_tree w w' : mem_step w w' → mem_tree w ∧ plain_dirs w → mem_tree w' ∧ plain_dirs w'.
Proof.
  intros [r w1|r w1|r w1|r w1 Hs|r w1 Hs|r w1|r w1|p n off w1|p b off w1|p e w1|p w1|e w1|t w1] [Ht Hw]; cbn [Fileread Filewrite Filecmd Filelist ReadAt WriteAt TransferError obj_Close mem_handlers].
  - unfold root_Fileread. case_match; [done|by apply OpenFile_tree].
  - unfold root_Filewrite. case_match; [done|by apply OpenFile_tree].
  - by apply OpenFile_tree.
  - split; [by apply Filecmd_tree|by apply plain_Filecmd].
  - unfold root_PosixRename. case_match; [done|]. split; [by apply mem_rename_tree|by apply plain_rename].
  - unfold root_Filelist. by case_match.
  - unfold root_Lstat. by case_match.
  - done.
  - split; [by apply mem_WriteAt_tree|auto with plain].
  - split; [by apply mem_TransferError_tree|]. by apply plain_update.
  - done.
  - split; [|done]. by apply (tree_le w1); [..|apply heap_le_refl].
  - split; [|done]. by apply (tree_le w1); [..|apply heap_le_refl].
Qed.
Lemma InMemHandler_tree t : mem_tree (InMemHandler t) ∧ plain_dirs (InMemHandler t).
Proof.
  split; [split; [by eexists|intros k p Hk; simpl in Hk; by rewrite lookup_empty in Hk]|].
  intros [|q] f Hf; simpl in Hf; [by injection Hf as <-|by rewrite lookup_nil in Hf].
Qed.
Lemma readdir_lists w k p : mem_tree w → plain_dirs w → files w !! k = Some p →
  ∃ infos, mem_readdir (Dir k) w = Ok infos ∧ mem_info (file_at p w) ∈ infos.
Proof.
  intros Ht Hw Hk. destruct (mt_entries w Ht k p Hk) as [(l & c & E & Hn & d & g & Hd & Hg & Hgd) _ _].
  apply Forall_app in Hn as [Hl Hc]. assert (Dir k = abs_path l) as Ek by (rewrite E; apply Dir_abs_path; [done|by inv Hc]). rewrite Ek.
  assert (fetch (abs_path l) w = Ok d) as Ef.
  { unfold fetch. rewrite Hd. simpl. by rewrite (file_at_heap d g w Hg), (Hw d g Hg Hgd). }
  destruct (lfetch_heap _ w d Ht Hd) as (g' & Hg' & Hname). rewrite Hg in Hg'. injection Hg' as <-.
  unfold mem_readdir. rewrite Ef. simpl. rewrite (file_at_heap d g w Hg), Hgd, (Hname Hgd). simpl. eexists. split; [done|].
  rewrite merge_sort_Permutation. apply list_elem_of_omap. exists k. split; [|by rewrite Hk].
  apply list_elem_of_filter. split; [done|].
  rewrite (range_keys_spec (files w)), elem_of_elements, elem_of_dom. by exists p.
Qed.

(** C34: However the handlers are called, the in-memory file system stays a tree, as
    long as no rename is of the root or of a directory to a place below itself:
    every name is clean and lies in a directory, the name a directory carries is
    the one it is found under, and the listing of that directory shows the file.
    Renames of whole directories are included, in whatever order the runtime
    visits the map while it is changed. *)
Theorem mem_tree_kept t w : rtc mem_step (InMemHandler t) w →
  mem_tree w ∧ ∀ k p, files w !! k = Some p → ∃ infos, mem_readdir (Dir k) w = Ok infos ∧ mem_info (file_at p w) ∈ infos.
Proof.
  intros Hrun. assert (mem_tree w ∧ plain_dirs w) as [Ht Hw].
  { pose proof (InMemHandler_tree t) as H1. induction Hrun as [|w1 w2 w3 Hstep _ IH]; [done|]. apply IH. by apply (mem_step_tree w1). }
  split; [done|]. intros k p. by apply readdir_lists.
Qed.
End handler_steps.

(** ** Concrete runs *)
Module DemoMem.
#[global] Instance key_order : MapOrder := λ m, elements (dom m).
#[global] Instance key_order_spec : MapOrderSpec.
Proof. by intros m. Qed.

Definition req (method path target : string) (fl : Z) : Request nat (list FileInfo) := mkRequest _ _ method path fl [] target "1" None None None None 0.
Definition cmd (method path target : string) (w : root) : root := (root_Filecmd (req method path target 0) w).2.
Definition create (path : string) (w : root) : root := (root_Filewrite (req "Put" path "" 0x1a) w).2.
(** Two directories, a file in the inner one, and the outer one renamed. *)
Definition built : root := create "/a/b/f" (cmd "Mkdir" "/a/b" "" (cmd "Mkdir" "/a" "" (InMemHandler 7))).
Definition after : root := cmd "Rename" "/a" "/c" built.
Example after_files : files after = list_to_map [("/c"%string, 1%nat); ("/c/b"%string, 2%nat); ("/c/b/f"%string, 3%nat)].
Proof. vm_compute. reflexivity. Qed.
Example after_names : mf_name <$> heap after = ["/"; "/c"; "/c/b"; "/c/b/f"]%string.
Proof. vm_compute. reflexivity. Qed.

(** The root renamed: what is created afterwards is not found under its name. *)
Example rename_root_breaks :
  let w := cmd "Mkdir" "/y" "" (cmd "Rename" "/" "/x" (InMemHandler 7)) in
  lfetch "/y" w = Err ErrNotExist ∧ files w !! "/x/y"%string = Some 1%nat.
Proof. vm_compute. split; reflexivity. Qed.
(** A directory renamed into itself is in no directory any more. *)
Example rename_into_itself_loses :
  let w := cmd "Rename" "/a" "/a/b" (cmd "Mkdir" "/a" "" (InMemHandler 7)) in
  files w = list_to_map [("/a/b/b"%string, 1%nat)] ∧ mem_readdir "/" w = Ok [].
Proof. vm_compute. split; reflexivity. Qed.
(** READLINK answers with the last element of the target only. *)
Example readlink_base_only :
  (l ← (root_Filelist (req "Readlink" "/l" "" 0) (cmd "Symlink" "/dir/target" "/l" (InMemHandler 7))).1; Ok (map fi_Name l)) = Ok ["target"%string].
Proof. vm_compute. reflexivity. Qed.
(** A file that has a second link is listed twice under the second name. *)
Example link_renames_original :
  (l ← mem_readdir "/" (cmd "Link" "/f" "/g" (create "/f" (InMemHandler 7))); Ok (map fi_Name l)) = Ok ["g"; "g"]%string.
Proof. vm_compute. reflexivity. Qed.
(** A file made in a directory reached through a symbolic link is not found by
    the path it was made with. *)
Example linked_directory_opaque :
  let w := create "/l/f" (cmd "Symlink" "/d" "/l" (cmd "Mkdir" "/d" "" (InMemHandler 7))) in
  fetch "/d/f" w = Ok 3%nat ∧ fetch "/l/f" w = Err ErrNotExist.
Proof. vm_compute. split; reflexivity. Qed.
(** A file whose size a client sets beyond the signed range ends the server, and
    so does a write far beyond its end. *)
Example truncate_panics : crashed (mem_Truncate 1 (i64 (2 ^ 63)) (create "/f" (InMemHandler 7))).2 = true.
Proof. vm_compute. reflexivity. Qed.
Example write_panics : crashed (mem_WriteAt 1 [byte_of_Z 1] (2 ^ 62) (create "/f" (InMemHandler 7))).2 = true.
Proof. vm_compute. reflexivity. Qed.
(** After a broken transfer the file can be used by nobody. *)
Lemma transfer_error_stays p e n off b f w : heap w !! p = Some f →
  (mem_ReadAt p n off (mem_TransferError p e w)).2 = Some e ∧ (mem_WriteAt p b off (mem_TransferError p e w)).1.2 = Some e.
Proof. intros Hf. unfold mem_ReadAt, mem_WriteAt, file_at, mem_TransferError, update, set_heap. simpl. by rewrite list_lookup_alter_eq, Hf. Qed.
End DemoMem.
Import DemoMem.

Lemma mem_tree_kept_witness :
  mem_tree after ∧ ∀ k p, files after !! k = Some p → ∃ infos, mem_readdir (Dir k) after = Ok infos ∧ mem_info (file_at p after) ∈ infos.
Proof.
  apply (mem_tree_kept 7). unfold after, built, create, cmd.
  eapply rtc_l; [apply (ms_Filecmd (req "Mkdir" "/a" "" 0)); discriminate|].
  eapply rtc_l; [apply (ms_Filecmd (req "Mkdir" "/a/b" "" 0)); discriminate|].
  eapply rtc_l; [apply (ms_Filewrite (req "Put" "/a/b/f" "" 0x1a))|].
  eapply rtc_l; [apply (ms_Filecmd (req "Rename" "/a" "/c" 0))|].
  - intros _. split; [discriminate|]. intros n E. vm_compute in E. injection E as <-. reflexivity.
  - apply rtc_refl.
Defined.
