(* ===== verification/ClientGlob.v ===== *)
(** * Globbing by the SFTP client

    sftp/match.go: patterns, the search for names that match one, and the client
    calls it is made of. Patterns and names are byte values. [Match] is
    [path.Match], the standard library's; the helpers it is made of have copies in
    this file, which nothing else uses. *)
From Stdlib Require Import Ascii.
From stdpp Require Import base tactics option list strings.
From Stdlib Require Import ZArith Lia.
From S2P Require Import Prelude GoOs GoPath GoStrconv GoJson SftpWire SftpPackets ClientConn Client.

(** ** package utf8 *)
Definition RuneError : Z := 0xfffd.
Definition rune_value (l : list Z) : Z :=
  match rune_size l, l with
  | 1%nat, b :: _ => b
  | 2%nat, b :: b1 :: _ => Z.lor (Z.shiftl (Z.land b 0x1f) 6) (Z.land b1 0x3f)
  | 3%nat, b :: b1 :: b2 :: _ => Z.lor (Z.lor (Z.shiftl (Z.land b 0xf) 12) (Z.shiftl (Z.land b1 0x3f) 6)) (Z.land b2 0x3f)
  | 4%nat, b :: b1 :: b2 :: b3 :: _ =>
      Z.lor (Z.lor (Z.lor (Z.shiftl (Z.land b 0x7) 18) (Z.shiftl (Z.land b1 0x3f) 12)) (Z.shiftl (Z.land b2 0x3f) 6)) (Z.land b3 0x3f)
  | _, _ => RuneError
  end.
Definition DecodeRuneInString (l : list Z) : Z * nat :=
  match l with
  | [] => (RuneError, O)
  | _ => match rune_size l with O => (RuneError, 1%nat) | n => (rune_value l, n) end
  end.

(** ** Patterns *)
Definition ErrBadPattern : error := EMsg "syntax error in pattern".
Definition c_star : Z := 42.
Definition c_quest : Z := 63.
Definition c_open : Z := 91.
Definition c_close : Z := 93.
Definition c_esc : Z := 92.
Definition c_caret : Z := 94.
Definition c_dash : Z := 45.
Definition c_slash : Z := 47.
Definition isPathSeparator (c : Z) : bool := c =? c_slash.

Fixpoint skip_stars (pattern : list Z) : bool * list Z :=
  match pattern with
  | c :: pattern' => if c =? c_star then (true, (skip_stars pattern').2) else (false, pattern)
  | [] => (false, [])
  end.
(** The loop over the bytes of the segment: what it has passed and what is left. *)
Fixpoint scan (inrange : bool) (pattern : list Z) : list Z * list Z :=
  match pattern with
  | [] => ([], [])
  | c :: p =>
      if c =? c_esc then
        match p with
        | d :: p => let '(chunk, rest) := scan inrange p in (c :: d :: chunk, rest)
        | [] => ([c], [])
        end
      else if (c =? c_star) && negb inrange then ([], pattern)
      else
        let inrange := if c =? c_open then true else if c =? c_close then false else inrange in
        let '(chunk, rest) := scan inrange p in (c :: chunk, rest)
  end.
Definition scanChunk (pattern : list Z) : bool * list Z * list Z :=
  let '(star, pattern) := skip_stars pattern in
  let '(chunk, rest) := scan false pattern in (star, chunk, rest).

(** The character itself; something has to follow it. *)
Definition esc_rune (chunk : list Z) : result (Z * list Z) :=
  let '(r, n) := DecodeRuneInString chunk in
  if (r =? RuneError) && (n =? 1)%nat then Err ErrBadPattern
  else match drop n chunk with [] => Err ErrBadPattern | nchunk => Ok (r, nchunk) end.
Definition getEsc (chunk : list Z) : result (Z * list Z) :=
  match chunk with
  | [] => Err ErrBadPattern
  | c :: p =>
      if (c =? c_dash) || (c =? c_close) then Err ErrBadPattern
      else if c =? c_esc then match p with [] => Err ErrBadPattern | _ => esc_rune p end
      else esc_rune chunk
  end.
(** The ranges of a character class; a turn takes at least one byte. *)
Fixpoint class_loop (fuel : nat) (r : Z) (match_ : bool) (nrange : nat) (chunk : list Z) : result (bool * list Z) :=
  match fuel with
  | O => Panic
  | S fuel =>
      let more :=
        '(lo, chunk) ← getEsc chunk;
        '(hi, chunk) ← (match chunk with
                        | c :: p => if c =? c_dash then getEsc p else Ok (lo, chunk)
                        | [] => Panic
                        end);
        class_loop fuel r (match_ || ((lo <=? r) && (r <=? hi))) (S nrange) chunk in
      match chunk with
      | c :: p => if (c =? c_close) && (0 <? nrange)%nat then Ok (match_, p) else more
      | [] => more
      end
  end.
(** [Some rest] when the segment matches the beginning of [s]. *)
Fixpoint matchChunk_loop (fuel : nat) (chunk s : list Z) : result (option (list Z)) :=
  match fuel with
  | O => Panic
  | S fuel =>
      match chunk, s with
      | [], _ => Ok (Some s)
      | _, [] => Ok None
      | c :: chunk, b :: s' =>
          if c =? c_open then
            let '(r, n) := DecodeRuneInString s in
            match chunk with
            | [] => Err ErrBadPattern
            | d :: p =>
                let negated := d =? c_caret in
                '(m, chunk) ← class_loop (S (length chunk)) r false 0 (if negated then p else chunk);
                if Bool.eqb m negated then Ok None else matchChunk_loop fuel chunk (drop n s)
            end
          else if c =? c_quest then
            if isPathSeparator b then Ok None else matchChunk_loop fuel chunk (drop (DecodeRuneInString s).2 s)
          else
            let literal d chunk := if d =? b then matchChunk_loop fuel chunk s' else Ok None in
            if c =? c_esc then match chunk with [] => Err ErrBadPattern | d :: chunk => literal d chunk end
            else literal c chunk
      end
  end.
Definition matchChunk (chunk s : list Z) : result (option (list Z)) := matchChunk_loop (S (length chunk)) chunk s.

(** [path.Match]: the turn for a star, which skips [s] byte by byte. *)
Fixpoint skip_match (chunk : list Z) (last : bool) (s : list Z) : result (option (list Z)) :=
  match s with
  | [] => Ok None
  | b :: s =>
      if isPathSeparator b then Ok None
      else
        t ← matchChunk chunk s;
        match t with
        | Some t => if last && negb (bool_decide (t = [])) then skip_match chunk last s else Ok (Some t)
        | None => skip_match chunk last s
        end
  end.
Fixpoint Match_loop (fuel : nat) (pattern name : list Z) : result bool :=
  match fuel with
  | O => Panic
  | S fuel =>
      match pattern with
      | [] => Ok (bool_decide (name = []))
      | _ =>
          let '(star, chunk, pattern) := scanChunk pattern in
          if star && bool_decide (chunk = []) then Ok (negb (bool_decide (c_slash ∈ name)))
          else
            let last := bool_decide (pattern = []) in
            let next t := Match_loop fuel pattern t in
            let otherwise :=
              if star then t ← skip_match chunk last name; match t with Some t => next t | None => Ok false end else Ok false in
            t ← matchChunk chunk name;
            match t with
            | Some t => if bool_decide (t = []) || negb last then next t else otherwise
            | None => otherwise
            end
      end
  end.
Definition Match (pattern name : string) : result bool := Match_loop (S (String.length pattern)) (codes pattern) (codes name).

(** ** Paths of patterns *)
Fixpoint Split (path : string) : string * string :=
  match path with
  | EmptyString => (EmptyString, EmptyString)
  | String c s =>
      let '(dir, file) := Split s in
      if bool_decide (dir = EmptyString) && negb (bool_decide (c = slash)) then (EmptyString, String c file) else (String c dir, file)
  end.
Definition cleanGlobPath (path : string) : string :=
  if bool_decide (path = EmptyString) then "."%string
  else if bool_decide (path = "/"%string) then path
  else String.substring 0 (String.length path - 1) path.
Definition hasMeta (path : string) : bool := existsb (λ c, (c =? c_star) || (c =? c_quest) || (c =? c_open)) (codes path).

(** ** The search *)
Section glob.
Context {P : Type} `{Peer P}.

(** The names that match, up to a name for which the pattern is malformed. *)
Fixpoint glob_names (dir pattern : string) (names : list FileInfo) (m : list string) : result (list string * option error) :=
  match names with
  | [] => Ok (m, None)
  | n :: names =>
      match Match pattern (fi_Name n) with
      | Ok matched => glob_names dir pattern names (if matched then m ++ [Join [dir; fi_Name n]] else m)
      | Err e => Ok (m, Some e)
      | Panic => Panic
      end
  end.
Definition of_result {S A} (r : result A) : M S A :=
  match r with Ok a => mret a | Err e => fails (EOther e) | Panic => panics end.
(** [fuel] bounds the requests of one listing. *)
Definition Client_glob (fuel : nat) (dir pattern : string) (matches : list string) : M (Client P) (list string * option error) :=
  fi ← attempt (Client_Stat dir);
  match fi with
  | inr _ => mret (matches, None)
  | inl None => panics
  | inl (Some fi) =>
      if negb (fi_IsDir fi) then mret (matches, None)
      else
        names ← attempt (Client_ReadDir fuel dir);
        match names with
        | inl (names, None) => of_result (glob_names dir pattern names matches)
        | _ => mret (matches, None)
        end
  end.
Fixpoint glob_dirs (fuel : nat) (dirs : list string) (file : string) (matches : list string) : M (Client P) (list string * option error) :=
  match dirs with
  | [] => mret (matches, None)
  | d :: dirs =>
      '(matches, err) ← Client_glob fuel d file matches;
      match err with Some e => mret (matches, Some e) | None => glob_dirs fuel dirs file matches end
  end.
(** A turn of the recursion takes a directory off the pattern. *)
Fixpoint Client_Glob_loop (depth fuel : nat) (pattern : string) : M (Client P) (list string * option error) :=
  match depth with
  | O => blocks
  | S depth =>
      if negb (hasMeta pattern) then
        file ← attempt (Client_Lstat pattern);
        match file with
        | inr _ => mret ([], None)
        | inl None => panics
        | inl (Some file) => mret ([Join [cleanGlobPath (Split pattern).1; fi_Name file]], None)
        end
      else
        let '(dir, file) := Split pattern in
        let dir := cleanGlobPath dir in
        if negb (hasMeta dir) then Client_glob fuel dir file []
        else if bool_decide (dir = pattern) then mret ([], Some ErrBadPattern)
        else
          '(m, err) ← Client_Glob_loop depth fuel dir;
          match err with Some e => mret ([], Some e) | None => glob_dirs fuel m file [] end
  end.
Definition Client_Glob (fuel : nat) (pattern : string) : M (Client P) (list string * option error) :=
  Client_Glob_loop (S (String.length pattern)) fuel pattern.
End glob.

(** ** The grammar of patterns *)

(** A character of a class or of the text, with a backslash before it or without. *)
Record item := Item { escaped : bool; char : Z }.
Inductive range := Single (lo : item) | Range (lo hi : item).
Inductive term := Star | Any | Class (negated : bool) (first : range) (more : list range) | Lit (c : item).
#[global] Instance term_eq_Star (t : term) : Decision (t = Star).
Proof. destruct t; [by left|by right..]. Defined.

Definition print_item (i : item) : list Z := if escaped i then [c_esc; char i] else [char i].
Definition print_range (r : range) : list Z :=
  match r with Single lo => print_item lo | Range lo hi => print_item lo ++ c_dash :: print_item hi end.
Definition print_ranges (rs : list range) : list Z := mjoin (print_range <$> rs).
Definition print_term (t : term) : list Z :=
  match t with
  | Star => [c_star]
  | Any => [c_quest]
  | Class negated first more => c_open :: (if negated then [c_caret] else []) ++ print_ranges (first :: more) ++ [c_close]
  | Lit c => print_item c
  end.
Definition print (ts : list term) : list Z := mjoin (print_term <$> ts).

Definition item_ok (i : item) : Prop := 0 <= char i < 128 ∧ (escaped i = false → char i ≠ c_esc ∧ char i ≠ c_dash ∧ char i ≠ c_close).
Definition range_ok (r : range) : Prop := match r with Single lo => item_ok lo | Range lo hi => item_ok lo ∧ item_ok hi end.
Definition range_first (r : range) : item := match r with Single lo | Range lo _ => lo end.
Definition term_ok (t : term) : Prop :=
  match t with
  | Star | Any => True
  | Class negated first more =>
      Forall range_ok (first :: more) ∧ (negated = false → range_first first ≠ Item false c_caret)
  | Lit c => 0 <= char c < 256 ∧ (escaped c = false → char c ≠ c_esc ∧ char c ≠ c_star ∧ char c ≠ c_quest ∧ char c ≠ c_open)
  end.

Definition in_class (r : range) (b : Z) : bool :=
  match r with Single lo => (char lo <=? b) && (b <=? char lo) | Range lo hi => (char lo <=? b) && (b <=? char hi) end.
(** What one term matches. *)
Definition accepts_byte (t : term) (b : Z) : bool :=
  match t with
  | Star => false
  | Any => negb (isPathSeparator b)
  | Class negated first more => xorb negated (existsb (λ r, in_class r b) (first :: more))
  | Lit c => char c =? b
  end.
Inductive matches : list term → list Z → Prop :=
  | matches_nil : matches [] []
  | matches_star ts s s' : Forall (λ b, b ≠ c_slash) s → matches ts s' → matches (Star :: ts) (s ++ s')
  | matches_one t ts b s : accepts_byte t b = true → matches ts s → matches (t :: ts) (b :: s).
(** The names of a directory that are ASCII. *)
Definition plain (b : Z) : Prop := 0 <= b < 128 ∧ b ≠ c_slash.

(** ** Reading a printed pattern *)
Lemma decode_ascii b l : 0 <= b < 128 → DecodeRuneInString (b :: l) = (b, 1%nat).
Proof.
  intros Hb. unfold DecodeRuneInString, rune_value, rune_size, in_range.
  by rewrite (proj2 (Z.leb_le 0 b)), (proj2 (Z.leb_le b 0x7f)) by lia.
Qed.
#[local] Arguments DecodeRuneInString : simpl never.
Lemma esc_rune_ascii c l : 0 <= c < 128 → l ≠ [] → esc_rune (c :: l) = Ok (c, l).
Proof.
  intros Hc Hl. unfold esc_rune. rewrite decode_ascii by done. rewrite (proj2 (Z.eqb_neq c RuneError)) by (unfold RuneError; lia). simpl. by destruct l.
Qed.
Lemma getEsc_item i l : item_ok i → l ≠ [] → getEsc (print_item i ++ l) = Ok (char i, l).
Proof.
  destruct i as [[] c]; intros [Hc He] Hl; unfold print_item, getEsc; simpl in *; [by apply esc_rune_ascii|].
  destruct (He eq_refl) as (H1 & H2 & H3). rewrite (proj2 (Z.eqb_neq c c_dash) H2), (proj2 (Z.eqb_neq c c_close) H3), (proj2 (Z.eqb_neq c c_esc) H1).
  by apply esc_rune_ascii.
Qed.
Lemma print_item_head i : item_ok i → ∃ c l, print_item i = c :: l ∧ c ≠ c_close ∧ c ≠ c_dash ∧ (c = c_caret → i = Item false c_caret).
Proof.
  destruct i as [[] c]; intros [_ Hi]; [by exists c_esc, [c]|]. destruct (Hi eq_refl) as (? & ? & ?). exists c, []. split_and!; try done. by intros ->.
Qed.
Lemma print_range_head r : range_ok r → ∃ c l, print_range r = c :: l ∧ c ≠ c_close ∧ c ≠ c_dash ∧ (c = c_caret → range_first r = Item false c_caret).
Proof.
  destruct r as [lo|lo hi]; simpl; [apply print_item_head|]. intros [Hlo _]. destruct (print_item_head lo Hlo) as (c & l & -> & Hc).
  by exists c, (l ++ c_dash :: print_item hi).
Qed.
(** The rest of a class begins with a bracket or a range, not with a dash. *)
Lemma ranges_head rs p : Forall range_ok rs → ∃ c l, print_ranges rs ++ c_close :: p = c :: l ∧ c ≠ c_dash.
Proof.
  intros [|r rs' Hr _]; [by exists c_close, p|]. destruct (print_range_head r Hr) as (c & l & E & _ & Hd & _).
  unfold print_ranges. simpl. rewrite E. simpl. by eexists _, _.
Qed.
Lemma class_loop_print rs : ∀ fuel r m n p, Forall range_ok rs → (rs = [] → n ≠ O) → (length rs < fuel)%nat →
  class_loop fuel r m n (print_ranges rs ++ c_close :: p) = Ok (m || existsb (λ x, in_class x r) rs, p).
Proof.
  induction rs as [|x rs IH]; intros fuel r m n p Hrs Hn Hf; (destruct fuel as [|fuel]; [simpl in Hf; lia|]).
  { specialize (Hn eq_refl). simpl. rewrite orb_false_r. by destruct n. }
  apply Forall_cons in Hrs as [Hx Hrs]. change (print_ranges (x :: rs)) with (print_range x ++ print_ranges rs). rewrite <- app_assoc.
  destruct (print_range_head x Hx) as (c & l & E & Hc & _). cbn [class_loop]. rewrite E. cbn [app]. rewrite (proj2 (Z.eqb_neq c c_close) Hc). simpl andb. cbv iota.
  rewrite app_comm_cons, <- E. destruct (ranges_head rs p Hrs) as (d & k & Ed & Hd).
  assert (∀ lo hi, class_loop fuel r (m || ((lo <=? r) && (r <=? hi))) (S n) (print_ranges rs ++ c_close :: p)
    = Ok ((m || ((lo <=? r) && (r <=? hi))) || existsb (λ x, in_class x r) rs, p)) as Hnext by (intros lo hi; apply IH; [done|done|simpl in Hf; lia]).
  destruct x as [lo|lo hi]; simpl print_range; simpl in Hx.
  - rewrite getEsc_item by (done || by rewrite Ed). simpl. rewrite Ed. simpl. rewrite (proj2 (Z.eqb_neq d c_dash) Hd). simpl. rewrite <- Ed, Hnext.
    simpl. by rewrite orb_assoc.
  - destruct Hx as [Hlo Hhi]. rewrite <- app_assoc. simpl. rewrite getEsc_item by done. simpl. rewrite getEsc_item by (done || by rewrite Ed). simpl.
    rewrite Hnext. simpl. by rewrite orb_assoc.
Qed.
Lemma length_print_ranges rs : Forall range_ok rs → (length rs ≤ length (print_ranges rs))%nat.
Proof.
  induction 1 as [|r rs Hr _ IH]; [done|]. destruct (print_range_head r Hr) as (c & l & E & _). change (print_ranges (r :: rs)) with (print_range r ++ print_ranges rs).
  rewrite E, length_app. simpl. lia.
Qed.

(** ** A segment *)
Fixpoint chunk_match (ts : list term) (s : list Z) : option (list Z) :=
  match ts, s with
  | [], _ => Some s
  | _, [] => None
  | t :: ts, b :: s => if accepts_byte t b then chunk_match ts s else None
  end.
Lemma print_term_head t : term_ok t → t ≠ Star → ∃ c l, print_term t = c :: l ∧ c ≠ c_star.
Proof.
  destruct t as [| |neg f more|[[] c]]; intros Ht Hne; try done; [by exists c_quest, []|simpl; by eexists _, _|by exists c_esc, [c]|].
  destruct Ht as [_ Ht]. exists c, []. split; [done|]. by destruct (Ht eq_refl) as (_ & ? & _).
Qed.
Lemma matchChunk_print ts : ∀ fuel s, Forall term_ok ts → Forall (λ t, t ≠ Star) ts → Forall plain s → (length (print ts) < fuel)%nat →
  matchChunk_loop fuel (print ts) s = Ok (chunk_match ts s).
Proof.
  induction ts as [|t ts IH]; intros fuel s Hok Hns Hs Hf; (destruct fuel as [|fuel]; [simpl in Hf; lia|]); [done|].
  apply Forall_cons in Hok as [Ht Hok]. apply Forall_cons in Hns as [Hnt Hns]. change (print (t :: ts)) with (print_term t ++ print ts) in *.
  rewrite length_app in Hf. destruct s as [|b s]; [destruct (print_term_head t Ht Hnt) as (c & l & -> & _); done|].
  apply Forall_cons in Hs as [[Hb Hslash] Hs]. cbn [chunk_match]. destruct t as [| |neg first more|[e c]]; [done| | |].
  - simpl in *. unfold isPathSeparator. rewrite (proj2 (Z.eqb_neq b c_slash) Hslash). simpl.
    change (matchChunk_loop fuel (print ts) (drop (DecodeRuneInString (b :: s)).2 (b :: s)) = Ok (chunk_match ts s)). rewrite decode_ascii by done. simpl. apply IH; [done..|]. lia.
  - destruct Ht as [Hr Hcaret]. cbn [print_term app] in *. change (c_open =? c_open) with true in *. cbn [matchChunk_loop].
    change (c_open =? c_open) with true. cbv iota. rewrite decode_ascii by done.
    pose proof (length_print_ranges _ Hr) as Hlen. pose proof (proj1 (Forall_cons _ _ _) Hr) as [Hfirst _].
    set (rs := first :: more) in *. rewrite <- !app_assoc. simpl ([c_close] ++ print ts).
    assert (∃ d p, (if neg then [c_caret] else []) ++ print_ranges rs ++ c_close :: print ts = d :: p
      ∧ (if d =? c_caret then p else d :: p) = print_ranges rs ++ c_close :: print ts ∧ (d =? c_caret) = neg) as (d & p & E & Ep & Ed).
    { destruct neg; [by exists c_caret, (print_ranges rs ++ c_close :: print ts)|]. unfold rs, print_ranges. simpl.
      destruct (print_range_head first Hfirst) as (c & l & Ec & _ & _ & Hc). rewrite Ec. simpl. eexists c, _. split; [done|].
      destruct (Z.eqb_spec c c_caret) as [->|]; [by destruct (Hcaret eq_refl); auto|done]. }
    rewrite E. rewrite Ep, Ed.
    rewrite class_loop_print; [|done|done|].
    + change (accepts_byte (Class neg first more) b) with (xorb neg (existsb (λ r, in_class r b) rs)).
      destruct (existsb (λ r, in_class r b) rs), neg; simpl; try done; (apply IH; [done..|]); cbn [length] in Hf; lia.
    + rewrite <- E, !length_app. lia.
  - unfold print_item in *. simpl escaped in *. simpl char in *. destruct Ht as [Hc He]. simpl accepts_byte. destruct e; simpl in *.
    + change (c_esc =? c_open) with false. change (c_esc =? c_quest) with false. change (c_esc =? c_esc) with true. cbv iota.
      destruct (c =? b); [|done]. apply IH; [done..|]. lia.
    + destruct (He eq_refl) as (H1 & H2 & H3 & H4). rewrite (proj2 (Z.eqb_neq c c_open) H4), (proj2 (Z.eqb_neq c c_quest) H3), (proj2 (Z.eqb_neq c c_esc) H1).
      destruct (c =? b); [|done]. apply IH; [done..|]. lia.
Qed.

(** ** Segments of a printed pattern *)
Definition passed (a : list Z) (x : list Z * list Z) : list Z * list Z := (a ++ x.1, x.2).
Lemma passed_app a b x : passed (a ++ b) x = passed a (passed b x).
Proof. unfold passed. simpl. by rewrite app_assoc. Qed.
Lemma scan_pass inr c l : c ≠ c_esc → (c = c_star → inr = true) → c ≠ c_open → c ≠ c_close → scan inr (c :: l) = passed [c] (scan inr l).
Proof.
  intros H1 H2 H3 H4. cbn [scan]. rewrite (proj2 (Z.eqb_neq c c_esc) H1), (proj2 (Z.eqb_neq c c_open) H3), (proj2 (Z.eqb_neq c c_close) H4).
  destruct (Z.eqb_spec c c_star) as [->|_]; [rewrite (H2 eq_refl)|]; simpl; by destruct (scan _ l).
Qed.
Lemma scan_esc inr c l : scan inr (c_esc :: c :: l) = passed [c_esc; c] (scan inr l).
Proof. simpl. by destruct (scan inr l). Qed.
Lemma scan_item i l : item_ok i → scan true (print_item i ++ l) = passed (print_item i) (scan true l).
Proof.
  destruct i as [[] c]; intros [_ Hi]; [apply scan_esc|]. destruct (Hi eq_refl) as (H1 & _ & H3). unfold print_item. simpl app. simpl char in *.
  destruct (decide (c = c_open)) as [->|Ho]; [simpl; by destruct (scan true l)|]. by apply scan_pass.
Qed.
Lemma scan_range r l : range_ok r → scan true (print_range r ++ l) = passed (print_range r) (scan true l).
Proof.
  destruct r as [lo|lo hi]; simpl; [apply scan_item|]. intros [Hlo Hhi]. rewrite <- app_assoc. simpl.
  rewrite scan_item, scan_pass, scan_item by done. by rewrite passed_app.
Qed.
Lemma scan_ranges rs l : Forall range_ok rs → scan true (print_ranges rs ++ l) = passed (print_ranges rs) (scan true l).
Proof.
  induction 1 as [|r rs Hr _ IH]; [simpl; by destruct (scan true l)|]. change (print_ranges (r :: rs)) with (print_range r ++ print_ranges rs).
  by rewrite <- app_assoc, scan_range, IH, passed_app by done.
Qed.
Lemma scan_term t l : term_ok t → t ≠ Star → scan false (print_term t ++ l) = passed (print_term t) (scan false l).
Proof.
  destruct t as [| |neg f more|[[] c]]; intros Ht Hne; try done; [by apply scan_pass| |apply scan_esc|].
  - destruct Ht as [Hr _]. simpl print_term.
    change (scan false ((c_open :: (if neg then [c_caret] else []) ++ print_ranges (f :: more) ++ [c_close]) ++ l))
      with (let '(chunk, rest) := scan true (((if neg then [c_caret] else []) ++ print_ranges (f :: more) ++ [c_close]) ++ l) in (c_open :: chunk, rest)).
    rewrite <- !app_assoc. assert (∀ k, scan true ((if neg then [c_caret] else []) ++ k) = passed (if neg then [c_caret] else []) (scan true k)) as ->.
    { intros k. destruct neg; [by apply scan_pass|simpl; by destruct (scan true k)]. }
    rewrite scan_ranges by done. simpl ([c_close] ++ l). cbn [scan]. change (c_close =? c_esc) with false. change (c_close =? c_star) with false.
    change (c_close =? c_open) with false. change (c_close =? c_close) with true. cbv iota. simpl andb. cbv iota. destruct (scan false l) as [x y].
    unfold passed. simpl. by rewrite <- !app_assoc.
  - destruct Ht as [_ Ht]. destruct (Ht eq_refl) as (H1 & H2 & H3 & H4). simpl in *. unfold print_item. simpl.
    destruct (decide (c = c_close)) as [->|Hc]; [simpl; by destruct (scan false l)|]. by apply scan_pass.
Qed.
Definition stops (ts : list term) : Prop := ts = [] ∨ ∃ ts', ts = Star :: ts'.
Lemma scan_chunk chunk rest : Forall term_ok chunk → Forall (λ t, t ≠ Star) chunk → stops rest →
  scan false (print chunk ++ print rest) = (print chunk, print rest).
Proof.
  intros Hok. induction Hok as [|t chunk Ht _ IH]; intros Hns Hrest; [by destruct Hrest as [->|(ts' & ->)]|].
  apply Forall_cons in Hns as [Hnt Hns]. change (print (t :: chunk)) with (print_term t ++ print chunk).
  rewrite <- app_assoc, scan_term, IH by done. done.
Qed.
Lemma print_app a b : print (a ++ b) = print a ++ print b.
Proof. unfold print. by rewrite fmap_app, join_app. Qed.
(** Stars, a segment without stars, and a rest that is empty or begins with one. *)
Lemma segments ts : ∃ k chunk rest, ts = replicate k Star ++ chunk ++ rest ∧ Forall (λ t, t ≠ Star) chunk ∧ stops rest ∧ (chunk = [] → rest = []).
Proof.
  induction ts as [|t ts (k & chunk & rest & -> & Hns & Hrest & Hne)]; [exists O, [], []; split_and!; try done; by left|].
  destruct (decide (t = Star)) as [->|Ht]; [by exists (S k), chunk, rest|]. destruct k as [|k].
  - exists O, (t :: chunk), rest. split_and!; [done|by constructor|done|done].
  - exists O, [t], (replicate (S k) Star ++ chunk ++ rest). split_and!; [done|by constructor|by right; eexists|done].
Qed.
Lemma scanChunk_print k chunk rest : Forall term_ok (chunk ++ rest) → Forall (λ t, t ≠ Star) chunk → stops rest → (chunk = [] → rest = []) →
  scanChunk (print (replicate k Star ++ chunk ++ rest)) = ((0 <? k)%nat, print chunk, print rest).
Proof.
  intros Hok Hns Hrest Hne. unfold scanChunk. apply Forall_app in Hok as [Hchunk _].
  assert (skip_stars (print (replicate k Star ++ chunk ++ rest)) = ((0 <? k)%nat, print (chunk ++ rest))) as ->.
  { induction k as [|k IH].
    - simpl replicate. simpl app. destruct chunk as [|t chunk]; [by rewrite (Hne eq_refl)|]. apply Forall_cons in Hchunk as [Ht _]. apply Forall_cons in Hns as [Hnt _].
      destruct (print_term_head t Ht Hnt) as (c & l & E & Hc). change (print ((t :: chunk) ++ rest)) with (print_term t ++ print (chunk ++ rest)). rewrite E. simpl.
      by rewrite (proj2 (Z.eqb_neq c c_star) Hc).
    - change (print (replicate (S k) Star ++ chunk ++ rest)) with (c_star :: print (replicate k Star ++ chunk ++ rest)).
      cbn [skip_stars]. change (c_star =? c_star) with true. cbv iota. by rewrite IH. }
  by rewrite print_app, scan_chunk.
Qed.

(** ** What the grammar says *)
Lemma chunk_match_drop chunk s t : chunk_match chunk s = Some t → t = drop (length chunk) s.
Proof. revert s. induction chunk as [|x chunk IH]; intros [|b s] E; simpl in *; try congruence. case_match; [by apply IH|done]. Qed.
Lemma matches_chunk chunk rest s : Forall (λ t, t ≠ Star) chunk → matches (chunk ++ rest) s ↔ ∃ t, chunk_match chunk s = Some t ∧ matches rest t.
Proof.
  intros Hns. revert s. induction Hns as [|x chunk Hx _ IH]; intros s; [simpl; naive_solver|]. destruct s as [|b s]; simpl.
  - split; [|by intros (t & ? & _)]. intros E. by inv E.
  - split; [intros E|case_match; [|by intros (t & ? & _)]].
    + inversion E as [|? ? ? _ _|? ? ? ? Hb Hm]; subst; [done|]. rewrite Hb. by apply IH.
    + intros Ht. constructor; [done|by apply IH].
Qed.
Lemma plain_no_slash s : Forall plain s → Forall (λ b, b ≠ c_slash) s.
Proof. intros Hs. eapply Forall_impl; [exact Hs|]. by intros b [_ ?]. Qed.
Lemma matches_Star ts s : Forall plain s → matches (Star :: ts) s ↔ ∃ j, (j ≤ length s)%nat ∧ matches ts (drop j s).
Proof.
  intros Hs. split.
  - intros E. inversion E as [|? u v Hu Hm|? ? ? ? Hb Hm]; subst; [|done]. exists (length u). rewrite length_app, drop_app_length. split; [lia|done].
  - intros (j & Hj & E). rewrite <- (take_drop j s). constructor; [|done]. by apply Forall_take, plain_no_slash.
Qed.
Lemma matches_Stars k ts s : Forall plain s → matches (replicate (S k) Star ++ ts) s ↔ matches (Star :: ts) s.
Proof.
  intros Hs. induction k as [|k IH]; [done|]. change (replicate (S (S k)) Star ++ ts) with (Star :: replicate (S k) Star ++ ts).
  rewrite matches_Star by done. split.
  - intros (j & Hj & E). apply matches_Star; [done|]. clear IH. revert s Hs j Hj E. induction k as [|k IHk]; intros s Hs j Hj E.
    + apply matches_Star in E as (j' & Hj' & E); [|by apply Forall_drop]. rewrite length_drop in Hj'. rewrite drop_drop in E. exists (j + j')%nat. split; [lia|done].
    + apply matches_Star in E as (j' & Hj' & E); [|by apply Forall_drop]. rewrite length_drop in Hj'. rewrite drop_drop in E. apply (IHk s Hs (j + j')%nat); [lia|done].
  - intros E. exists O. split; [lia|]. by apply IH.
Qed.
Lemma matches_Star_drop j ts s : Forall plain s → (j ≤ length s)%nat → matches (Star :: ts) (drop j s) → matches (Star :: ts) s.
Proof.
  intros Hs Hj (j' & Hj' & E)%matches_Star; [|by apply Forall_drop]. apply matches_Star; [done|]. rewrite length_drop in Hj'. rewrite drop_drop in E.
  exists (j + j')%nat. split; [lia|done].
Qed.

(** A place where the segment matches and the search may go on from. *)
Definition place (chunk : list term) (last : bool) (s : list Z) (j : nat) (t : list Z) : Prop :=
  (j ≤ length s)%nat ∧ chunk_match chunk (drop j s) = Some t ∧ (last = true → t = []).
(** The first place is as good as any. *)
Lemma first_place chunk rest s i t : Forall (λ t, t ≠ Star) chunk → Forall plain s → stops rest →
  place chunk (bool_decide (rest = [])) s i t → (∀ j t', (j < i)%nat → ¬ place chunk (bool_decide (rest = [])) s j t') →
  matches (Star :: chunk ++ rest) s ↔ matches rest t.
Proof.
  intros Hns Hs Hrest (Hi & Ht & Hlast) Hfirst. rewrite matches_Star by done. split.
  - intros (j & Hj & (t' & Ht' & E)%matches_chunk); [|done]. destruct Hrest as [->|(r & ->)].
    + rewrite (Hlast eq_refl). constructor.
    + assert (i ≤ j)%nat as Hij by (apply Nat.nlt_ge; intros Hlt; by apply (Hfirst j t' Hlt)).
      apply chunk_match_drop in Ht as ->, Ht' as ->. rewrite drop_drop in E |- *.
      replace (j + length chunk)%nat with ((i + length chunk) + (j - i))%nat in E by lia. rewrite <- drop_drop in E.
      destruct (decide (j - i ≤ length (drop (i + length chunk) s))%nat) as [Hle|Hgt].
      * by apply (matches_Star_drop (j - i)); [apply Forall_drop| |].
      * apply matches_Star; [by apply Forall_drop|]. exists (length (drop (i + length chunk) s)). split; [done|].
        rewrite drop_ge in E by lia. apply matches_Star in E as (j' & Hj' & E); [|constructor]. rewrite drop_nil in E. by rewrite drop_ge.
  - intros E. exists i. split; [done|]. apply matches_chunk; [done|]. by exists t.
Qed.
Lemma no_place chunk rest s : Forall (λ t, t ≠ Star) chunk → Forall plain s → (∀ j t, ¬ place chunk (bool_decide (rest = [])) s j t) → ¬ matches (Star :: chunk ++ rest) s.
Proof.
  intros Hns Hs Hno (j & Hj & (t & Ht & E)%matches_chunk)%matches_Star; [|done|done]. apply (Hno j t). split_and!; [done|done|].
  intros ->%bool_decide_eq_true. by inv E.
Qed.

Lemma place_S chunk last b s j t : place chunk last (b :: s) (S j) t ↔ place chunk last s j t.
Proof. unfold place. simpl. split; intros (? & ? & ?); split_and!; try done; lia. Qed.
(** The search of a star finds the first place after the present one. *)
Lemma skip_match_spec chunk last s : Forall term_ok chunk → Forall (λ t, t ≠ Star) chunk → Forall plain s →
  ∃ res, skip_match (print chunk) last s = Ok res
  ∧ match res with
    | Some t => ∃ i, place chunk last s (S i) t ∧ ∀ j t', (j < i)%nat → ¬ place chunk last s (S j) t'
    | None => ∀ j t, ¬ place chunk last s (S j) t
    end.
Proof.
  intros Hok Hns Hs. induction Hs as [|b s [Hb Hsl] Hs IH]; [exists None; split; [done|]; intros j t (Hj & _); simpl in Hj; lia|].
  cbn [skip_match]. unfold isPathSeparator. rewrite (proj2 (Z.eqb_neq b c_slash) Hsl). unfold matchChunk.
  rewrite matchChunk_print by (done || lia). simpl.
  assert (∀ t, place chunk last s 0 t ↔ chunk_match chunk s = Some t ∧ (last = true → t = [])) as H0.
  { intros t. unfold place. rewrite drop_0. intuition lia. }
  assert ((∀ t, ¬ place chunk last s 0 t) → ∃ res, skip_match (print chunk) last s = Ok res ∧
    match res with
    | Some t => ∃ i, place chunk last (b :: s) (S i) t ∧ ∀ j t', (j < i)%nat → ¬ place chunk last (b :: s) (S j) t'
    | None => ∀ j t, ¬ place chunk last (b :: s) (S j) t
    end) as Hlater.
  { intros Hno. destruct IH as ([t|] & -> & Hres); eexists; (split; [done|]); simpl.
    - destruct Hres as (i & Hi & Hfirst). exists (S i). split; [by apply place_S|]. intros [|j] t' Hj; rewrite place_S; [apply Hno|apply Hfirst; lia].
    - intros [|j] t; rewrite place_S; auto. }
  destruct (chunk_match chunk s) as [t|] eqn:E; [|apply Hlater; intros t; rewrite H0; naive_solver].
  destruct last; simpl; [case_bool_decide as Ht; simpl|].
  - exists (Some t). split; [done|]. exists O. rewrite place_S, H0. split; [done|lia].
  - apply Hlater. intros t'. rewrite H0. intros [[= <-] Ht']. auto.
  - exists (Some t). split; [done|]. exists O. rewrite place_S, H0. split; [done|lia].
Qed.

Lemma print_nil ts : Forall term_ok ts → print ts = [] ↔ ts = [].
Proof.
  intros Hok. split; [|by intros ->]. destruct ts as [|t ts]; [done|]. apply Forall_cons in Hok as [Ht _].
  change (print (t :: ts)) with (print_term t ++ print ts). destruct (decide (t = Star)) as [->|Hn]; [done|].
  by destruct (print_term_head t Ht Hn) as (c & l & -> & _).
Qed.
Lemma print_pos ts : Forall term_ok ts → ts ≠ [] → (0 < length (print ts))%nat.
Proof. intros Hok Hne. destruct (print ts) eqn:E; [by apply print_nil in E|simpl; lia]. Qed.

Section segment.
Context (chunk rest : list term) (next : list Z → result bool).
Context (Hok : Forall term_ok (chunk ++ rest)) (Hns : Forall (λ t, t ≠ Star) chunk) (Hrest : stops rest).
Context (Hnext : ∀ t, Forall plain t → ∃ b, next t = Ok b ∧ (b = true ↔ matches rest t)).

(** One turn of [Match], with and without a star before the segment. *)
Definition turn (star : bool) (name : list Z) : result bool :=
  let last := bool_decide (print rest = []) in
  let otherwise :=
    if star then t ← skip_match (print chunk) last name; match t with Some t => next t | None => Ok false end else Ok false in
  t ← matchChunk (print chunk) name;
  match t with
  | Some t => if bool_decide (t = []) || negb last then next t else otherwise
  | None => otherwise
  end.
Lemma turn_last : bool_decide (print rest = []) = bool_decide (rest = []).
Proof. apply bool_decide_ext, print_nil. by apply Forall_app in Hok as [_ ?]. Qed.
Lemma place_plain last s j t : Forall plain s → place chunk last s j t → Forall plain t.
Proof. intros Hs (_ & E & _). apply chunk_match_drop in E as ->. by apply Forall_drop, Forall_drop. Qed.
Lemma place_now last s t : place chunk last s 0 t ↔ chunk_match chunk s = Some t ∧ (last = true → t = []).
Proof. unfold place. rewrite drop_0. intuition lia. Qed.

Lemma turn_spec star s : Forall plain s →
  ∃ b, turn star s = Ok b ∧ (b = true ↔ matches (if star then Star :: chunk ++ rest else chunk ++ rest) s).
Proof.
  intros Hs. pose proof (proj1 (Forall_app _ _ _) Hok) as [Hchunk _]. unfold turn. rewrite turn_last. set (last := bool_decide (rest = [])).
  unfold matchChunk. rewrite matchChunk_print by (done || lia). simpl.
  assert ((∀ t, ¬ place chunk last s 0 t) → ∃ b, (if star then t ← skip_match (print chunk) last s; match t with Some t => next t | None => Ok false end
    else Ok false) = Ok b ∧ (b = true ↔ matches (if star then Star :: chunk ++ rest else chunk ++ rest) s)) as Hother.
  { intros Hno. destruct star.
    - destruct (skip_match_spec chunk last s Hchunk Hns Hs) as ([t|] & -> & Hres); simpl.
      + destruct Hres as (i & Hi & Hfirst). destruct (Hnext t) as (b & -> & Hb); [by eapply place_plain|]. exists b. split; [done|]. rewrite Hb. symmetry.
        apply (first_place chunk rest s (S i)); [done..|]. intros [|j] t' Hj; [apply Hno|apply Hfirst; lia].
      + exists false. split; [done|]. split; [done|]. intros E. exfalso. revert E. apply no_place; [done|done|]. intros [|j] t; [apply Hno|apply Hres].
    - exists false. split; [done|]. split; [done|]. intros (t & Ht & E)%matches_chunk; [|done]. destruct (Hno t). apply place_now. split; [done|].
      intros ->%bool_decide_eq_true. by inv E. }
  destruct (chunk_match chunk s) as [t|] eqn:Et; [|apply Hother; intros t (E & _)%place_now; congruence].
  destruct (bool_decide (t = []) || negb last) eqn:Ego; [|apply Hother; intros t' (E & Hl)%place_now].
  - assert (place chunk last s 0 t) as Hpl by (apply place_now; split; [done|]; intros Hl; rewrite Hl, orb_false_r in Ego; by apply bool_decide_eq_true in Ego).
    destruct (Hnext t) as (b & -> & Hb); [by eapply place_plain|]. exists b. split; [done|]. rewrite Hb. destruct star.
    + symmetry. apply (first_place chunk rest s 0); [done..|]. intros j t' Hj. lia.
    + rewrite matches_chunk by done. split; [by exists t|]. intros (t' & E & Hm). by simplify_eq.
  - rewrite Et in E. injection E as <-. apply orb_false_iff in Ego as [Ht Hl']. apply bool_decide_eq_false in Ht. destruct last; [by auto|done].
Qed.
End segment.

Lemma Match_loop_print fuel ts s : Forall term_ok ts → Forall plain s → (length (print ts) < fuel)%nat →
  ∃ b, Match_loop fuel (print ts) s = Ok b ∧ (b = true ↔ matches ts s).
Proof.
  revert ts s. induction fuel as [|fuel IH]; intros ts s Hok Hs Hf; [lia|].
  destruct (decide (ts = [])) as [->|Hts].
  { eexists. split; [done|]. rewrite bool_decide_eq_true. split; [intros ->; constructor|intros E; by inv E]. }
  destruct (segments ts) as (k & chunk & rest & -> & Hns & Hrest & Hne).
  pose proof (proj1 (Forall_app _ _ _) Hok) as [Hk Hcr]. pose proof (proj1 (Forall_app _ _ _) Hcr) as [Hchunk Hr].
  assert (∀ t, Forall plain t → ∃ b, Match_loop fuel (print rest) t = Ok b ∧ (b = true ↔ matches rest t)) as Hnext.
  { intros t Ht. apply IH; [done|done|]. rewrite !print_app, !length_app in Hf. destruct k as [|k].
    - assert (chunk ≠ []) as Hc by (intros ->; by rewrite (Hne eq_refl) in Hts). pose proof (print_pos chunk Hchunk Hc). lia.
    - pose proof (print_pos (replicate (S k) Star) Hk ltac:(done)). lia. }
  cbn [Match_loop]. destruct (print (replicate k Star ++ chunk ++ rest)) as [|c0 l0] eqn:Ep; [by apply print_nil in Ep|]. rewrite <- Ep.
  rewrite scanChunk_print by done. destruct (turn_spec chunk rest _ Hcr Hns Hrest Hnext (0 <? k)%nat s Hs) as (b & Eb & Hb).
  destruct k as [|k]; [exists b; split; [exact Eb|done]|]. setoid_rewrite (matches_Stars k (chunk ++ rest) s Hs).
  change (0 <? S k)%nat with true in *. simpl andb. case_bool_decide as Hc; [|exists b; split; [exact Eb|done]].
  apply print_nil in Hc; [|done]. rewrite Hc, (Hne Hc). eexists. split; [done|].
  rewrite bool_decide_false; [|intros Hin; pose proof (plain_no_slash s Hs) as Hpl; rewrite Forall_forall in Hpl; by apply (Hpl c_slash Hin)].
  split; [|done]. intros _. apply matches_Star; [done|]. exists (length s). rewrite drop_all. split; [lia|constructor].
Qed.

(** ** Every pattern: the loops end *)
Lemma decode_size l : l ≠ [] → (0 < (DecodeRuneInString l).2)%nat.
Proof. destruct l as [|b l]; [done|]. intros _. unfold DecodeRuneInString. destruct (rune_size (b :: l)); simpl; lia. Qed.
Lemma esc_rune_spec l : l ≠ [] → match esc_rune l with Ok (_, k) => k ≠ [] ∧ (length k < length l)%nat | Err _ => True | Panic => False end.
Proof.
  intros Hne. unfold esc_rune. pose proof (decode_size l Hne) as Hn. destruct (DecodeRuneInString l) as [r n]. simpl in Hn.
  destruct ((r =? RuneError) && (n =? 1)%nat); [done|]. destruct (drop n l) as [|x k] eqn:E; [done|]. split; [done|]. rewrite <- E, length_drop.
  destruct l; [done|]. simpl. lia.
Qed.
Lemma getEsc_spec chunk : match getEsc chunk with Ok (_, l) => l ≠ [] ∧ (length l < length chunk)%nat | Err _ => True | Panic => False end.
Proof.
  unfold getEsc. destruct chunk as [|c p]; [done|]. destruct ((c =? c_dash) || (c =? c_close)); [done|].
  destruct (c =? c_esc); [|by apply esc_rune_spec]. destruct p as [|d p]; [done|]. pose proof (esc_rune_spec (d :: p) ltac:(done)) as Hl.
  destruct (esc_rune (d :: p)) as [[r l]| |]; [|done|done]. simpl in *. split; [apply Hl|lia].
Qed.
Lemma class_loop_spec fuel : ∀ r m n chunk, (length chunk < fuel)%nat →
  match class_loop fuel r m n chunk with Ok (_, l) => (length l < length chunk)%nat | Err _ => True | Panic => False end.
Proof.
  induction fuel as [|fuel IH]; intros r m n chunk Hf; [lia|]. cbn [class_loop]. set (more := mbind _ _).
  assert (match more with Ok (_, l) => (length l < length chunk)%nat | Err _ => True | Panic => False end) as Hmore.
  { unfold more. pose proof (getEsc_spec chunk) as H1. destruct (getEsc chunk) as [[lo l1]| |]; [|done|done]. simpl. destruct H1 as [Hne H1].
    destruct l1 as [|c p]; [done|]. destruct (c =? c_dash).
    - pose proof (getEsc_spec p) as H2. destruct (getEsc p) as [[hi l2]| |]; [|done|done]. simpl. simpl in H1.
      specialize (IH r (m || ((lo <=? r) && (r <=? hi))) (S n) l2 ltac:(lia)). destruct (class_loop fuel _ _ _ _) as [[x k]| |]; simpl in *; [lia|done|done].
    - simpl. specialize (IH r (m || ((lo <=? r) && (r <=? lo))) (S n) (c :: p) ltac:(lia)). destruct (class_loop fuel _ _ _ _) as [[x k]| |]; simpl in *; [lia|done|done]. }
  destruct chunk as [|c p]; [done|]. destruct ((c =? c_close) && (0 <? n)%nat); [simpl; lia|done].
Qed.
Lemma matchChunk_no_panic fuel : ∀ chunk s, (length chunk < fuel)%nat → matchChunk_loop fuel chunk s ≠ Panic.
Proof.
  induction fuel as [|fuel IH]; intros chunk s Hf; [lia|]. cbn [matchChunk_loop]. destruct chunk as [|c chunk]; [done|]. destruct s as [|b s]; [done|].
  simpl in Hf. destruct (c =? c_open); [|destruct (c =? c_quest); [case_match; [done|apply IH; lia]|]].
  - destruct (DecodeRuneInString (b :: s)) as [r n]. destruct chunk as [|d p]; [done|].
    set (l := if d =? c_caret then p else d :: p). assert (length l ≤ length (d :: p))%nat as Hl by (unfold l; case_match; simpl; lia).
    pose proof (class_loop_spec (S (length (d :: p))) r false 0 l ltac:(simpl in *; lia)) as Hc. destruct (class_loop _ r false 0 l) as [[m k]| |]; [|done|done].
    simpl. case_match; [done|]. apply IH. simpl in *. lia.
  - destruct (c =? c_esc); [destruct chunk as [|d chunk]; [done|]|]; (case_match; [|done]); apply IH; simpl in *; lia.
Qed.
Lemma skip_match_no_panic chunk last s : skip_match chunk last s ≠ Panic.
Proof.
  induction s as [|b s IH]; [done|]. cbn [skip_match]. case_match; [done|]. pose proof (matchChunk_no_panic (S (length chunk)) chunk s ltac:(lia)) as Hm.
  unfold matchChunk. destruct (matchChunk_loop _ chunk s) as [[t|]| |]; simpl; [case_match|..]; done.
Qed.
Lemma scan_length inr p : (length (scan inr p).1 + length (scan inr p).2 = length p)%nat.
Proof.
  remember (length p) as n eqn:En. revert inr p En. induction (lt_wf n) as [n _ IH]; intros inr p En. destruct p as [|c p]; [done|]. simpl in En. cbn [scan].
  case_match; [destruct p as [|d p]; [simpl in *; lia|]|case_match; [simpl; lia|]]; simpl in En.
  - specialize (IH (length p) ltac:(lia) inr p eq_refl). destruct (scan inr p). simpl in *. lia.
  - set (inr' := if c =? c_open then _ else _). specialize (IH (length p) ltac:(lia) inr' p eq_refl). destruct (scan inr' p). simpl in *. lia.
Qed.
Lemma scanChunk_length p : p ≠ [] → (length (scanChunk p).2 < length p)%nat.
Proof.
  intros Hne. unfold scanChunk. assert (∃ l, skip_stars p = (true, l) ∧ (length l < length p)%nat ∨ skip_stars p = (false, p) ∧ ∀ c p', p = c :: p' → c ≠ c_star) as (l & Hl).
  { destruct p as [|c p]; [done|]. simpl. destruct (Z.eqb_spec c c_star) as [->|Hc].
    - exists (skip_stars p).2. left. split; [done|]. clear Hne. induction p as [|d p IH]; simpl; [lia|]. case_match; simpl in *; lia.
    - exists []. right. split; [done|]. by intros d p' [= <- <-]. }
  destruct Hl as [[-> Hl]|[-> Hc]].
  - pose proof (scan_length false l). destruct (scan false l). simpl in *. lia.
  - destruct p as [|c p]; [done|]. specialize (Hc c p eq_refl). cbn [scan]. rewrite (proj2 (Z.eqb_neq c c_star) Hc).
    destruct (c =? c_esc); [destruct p as [|d p]; [simpl; lia|]|simpl andb; cbv iota; set (inr' := if c =? c_open then _ else _)].
    + pose proof (scan_length false p). destruct (scan false p). simpl in *. lia.
    + pose proof (scan_length inr' p). destruct (scan inr' p). simpl in *. lia.
Qed.
Lemma Match_loop_no_panic fuel : ∀ p s, (length p < fuel)%nat → Match_loop fuel p s ≠ Panic.
Proof.
  induction fuel as [|fuel IH]; intros p s Hf; [lia|]. cbn [Match_loop]. destruct p as [|c p]; [done|]. pose proof (scanChunk_length (c :: p) ltac:(done)) as Hl.
  destruct (scanChunk (c :: p)) as [[star chunk] rest]. simpl in Hl. case_match; [done|].
  assert (∀ t, Match_loop fuel rest t ≠ Panic) as Hnext by (intros t; apply IH; simpl in *; lia).
  assert ((if star then t ← skip_match chunk (bool_decide (rest = [])) s; match t with Some t => Match_loop fuel rest t | None => Ok false end else Ok false) ≠ Panic) as Ho.
  { destruct star; [|done]. pose proof (skip_match_no_panic chunk (bool_decide (rest = [])) s) as Hs. destruct (skip_match _ _ s) as [[t|]| |]; simpl; auto. }
  pose proof (matchChunk_no_panic (S (length chunk)) chunk s ltac:(lia)) as Hm. unfold matchChunk. destruct (matchChunk_loop _ chunk s) as [[t|]| |]; [|exact Ho|done|done].
  simpl. destruct (bool_decide (t = []) || negb (bool_decide (rest = []))); [apply Hnext|exact Ho].
Qed.
Lemma length_codes s : length (codes s) = String.length s.
Proof. unfold codes. rewrite length_map. induction s as [|c s IH]; [done|]. exact (f_equal S IH). Qed.
Lemma Match_no_panic pattern name : Match pattern name ≠ Panic.
Proof. apply Match_loop_no_panic. rewrite length_codes. lia. Qed.

(** ** Patterns and names as text *)
Lemma print_item_bytes i : 0 <= char i < 256 → Forall (λ b, 0 <= b < 256) (print_item i).
Proof. intros Hi. unfold print_item. destruct (escaped i); repeat constructor; unfold c_esc; lia. Qed.
Lemma print_bytes ts : Forall term_ok ts → Forall (λ b, 0 <= b < 256) (print ts).
Proof.
  assert (∀ i, item_ok i → Forall (λ b, 0 <= b < 256) (print_item i)) as Hi by (intros i [? _]; apply print_item_bytes; lia).
  induction 1 as [|t ts Ht _ IH]; [constructor|]. change (print (t :: ts)) with (print_term t ++ print ts). apply Forall_app_2; [|done].
  destruct t as [| |neg f more|c]; simpl in *; [apply Forall_singleton; unfold c_star; lia|apply Forall_singleton; unfold c_quest; lia| |by apply print_item_bytes; destruct Ht].
  destruct Ht as [Hr _]. constructor; [unfold c_open; lia|]. apply Forall_app_2; [destruct neg; repeat constructor; unfold c_caret; lia|].
  apply Forall_app_2; [|repeat constructor; unfold c_close; lia]. change (Forall (λ b, 0 <= b < 256) (print_ranges (f :: more))).
  induction Hr as [|r rs Hr _ IHr]; [constructor|]. change (print_ranges (r :: rs)) with (print_range r ++ print_ranges rs). apply Forall_app_2; [|done].
  destruct r as [lo|lo hi]; simpl in *; [by apply Hi|]. destruct Hr. apply Forall_app_2; [by apply Hi|]. constructor; [unfold c_dash; lia|by apply Hi].
Qed.
Lemma Match_print ts name : Forall term_ok ts → Forall plain (codes name) →
  ∃ b, Match (of_codes (print ts)) name = Ok b ∧ (b = true ↔ matches ts (codes name)).
Proof.
  intros Hok Hname. unfold Match. rewrite codes_of_codes by by apply print_bytes. apply Match_loop_print; [done|done|].
  rewrite <- length_codes, codes_of_codes by by apply print_bytes. lia.
Qed.

(** The search of one directory returns the names that match, in the order of the
    listing. *)
Lemma glob_names_print dir ts names m : Forall term_ok ts → Forall (λ n, Forall plain (codes (fi_Name n))) names →
  ∃ sel, glob_names dir (of_codes (print ts)) names m = Ok (m ++ ((λ n, Join [dir; fi_Name n]) <$> sel), None)
    ∧ sel `sublist_of` names ∧ ∀ n, n ∈ names → n ∈ sel ↔ matches ts (codes (fi_Name n)).
Proof.
  intros Hok Hnames. revert m. induction Hnames as [|n names Hn _ IH]; intros m; simpl; [exists []; rewrite app_nil_r; split_and!; [done|done|by intros n ?%elem_of_nil]|].
  destruct (Match_print ts (fi_Name n) Hok Hn) as (b & -> & Hb). destruct (IH (if b then m ++ [Join [dir; fi_Name n]] else m)) as (sel & -> & Hsub & Hsel).
  destruct b.
  - exists (n :: sel). split_and!; [by rewrite <- app_assoc|by constructor|]. intros x [->|Hx]%elem_of_cons; [split; [intros _; by apply Hb|constructor]|].
    rewrite elem_of_cons, <- Hsel by done. split; [|by right]. intros [->|]; [|done]. apply Hsel; [done|by apply Hb].
  - exists sel. split_and!; [done|by constructor|]. intros x [->|Hx]%elem_of_cons; [|by apply Hsel]. split; [|intros Hm; by apply Hb in Hm].
    intros Hx. apply Hsel; [|done]. eapply elem_of_submseteq; [done|by apply sublist_submseteq].
Qed.
Lemma client_glob_lists {P} `{Peer P} fuel dir ts m (c c1 c2 : Client P) fi names : Forall term_ok ts → Forall (λ n, Forall plain (codes (fi_Name n))) names →
  Client_Stat dir c = (Returns (Some fi), c1) → fi_IsDir fi = true → Client_ReadDir fuel dir c1 = (Returns (names, None), c2) →
  ∃ sel, Client_glob fuel dir (of_codes (print ts)) m c = (Returns (m ++ ((λ n, Join [dir; fi_Name n]) <$> sel), None), c2)
    ∧ sel `sublist_of` names ∧ ∀ n, n ∈ names → n ∈ sel ↔ matches ts (codes (fi_Name n)).
Proof.
  intros Hok Hnames Es Hd El. destruct (glob_names_print dir ts names m Hok Hnames) as (sel & E & Hsel). exists sel. split; [|done].
  unfold Client_glob, mbind, M_bind, attempt. rewrite Es, Hd. simpl. rewrite El, E. done.
Qed.

(** C35: A pattern written by the grammar of the documentation, matched against the
    name of a directory entry in ASCII, is decided as the grammar says: the search
    that settles each star at the first place never misses a match. Whatever the
    pattern and the name are, the loops end. *)
Theorem Match_meets_grammar ts name : Forall term_ok ts → Forall plain (codes name) →
  (∃ b, Match (of_codes (print ts)) name = Ok b ∧ (b = true ↔ matches ts (codes name)))
  ∧ ∀ pattern other, Match pattern other ≠ Panic.
Proof. intros Hok Hname. split; [by apply Match_print|]. intros pattern other. apply Match_no_panic. Qed.
(** *.[ch0-9]? against "main.cc". *)
Definition demo_pattern : list term := [Star; Lit (Item false 46); Class false (Single (Item false 99)) [Single (Item false 104); Range (Item false 48) (Item false 57)]; Any].
Lemma Match_meets_grammar_witness :
  (∃ b, Match (of_codes (print demo_pattern)) "main.cc" = Ok b ∧ (b = true ↔ matches demo_pattern (codes "main.cc")))
  ∧ ∀ pattern other, Match pattern other ≠ Panic.
Proof.
  apply Match_meets_grammar.
  - repeat constructor; try discriminate; simpl; lia.
  - repeat constructor; try discriminate; simpl; lia.
Defined.
Example demo_text : of_codes (print demo_pattern) = "*.[ch0-9]?"%string ∧ Match "*.[ch0-9]?" "main.cc" = Ok true ∧ Match "*.[ch0-9]?" "main.go" = Ok false.
Proof. vm_compute. split_and!; reflexivity. Qed.
(** With a separator in the name the first place can be the wrong one: a class
    takes separators, and a star does not skip one. *)
Example separator_misses_match :
  Match "*[^a]*y" "x/y" = Ok false ∧ matches [Star; Class true (Single (Item false 97)) []; Star; Lit (Item false 121)] (codes "x/y").
Proof.
  split; [vm_compute; reflexivity|]. apply (matches_star _ [120]); [by repeat constructor|]. apply matches_one; [done|]. apply (matches_star _ []); [constructor|].
  apply matches_one; [done|constructor].
Qed.
(** A malformed pattern is seen only when the search gets to it. *)
Example bad_pattern_unseen : Match "a[" "b" = Ok false ∧ Match "a[" "ab" = Err ErrBadPattern.
Proof. vm_compute. split; reflexivity. Qed.
