(* ===== verification/GoCrypto.v ===== *)
(** * Hashes and stream ciphers of the standard library

    crypto/md5, crypto/hmac with it, crypto/rc4 and encoding/hex, as the SASL code
    of the HDFS client uses them. All are executable and tested on the vectors of
    their RFCs. *)
From Stdlib Require Import Ascii.
From stdpp Require Import base tactics option list strings.
From Stdlib Require Import ZArith Lia.
From S2P Require Import Prelude.

(** ** encoding/hex *)
Definition hex_digit (n : Z) : Ascii.ascii := default "0"%char (String.list_ascii_of_string "0123456789abcdef" !! Z.to_nat n).
Fixpoint hex_EncodeToString (b : list byte) : string :=
  match b with
  | [] => EmptyString
  | c :: b => String (hex_digit (Z.shiftr (Z_of_byte c) 4)) (String (hex_digit (Z.land (Z_of_byte c) 15)) (hex_EncodeToString b))
  end.

(** ** crypto/md5 *)
Definition md5_size : nat := 16.
Definition md5_blockSize : nat := 64.
(** The sines of the step numbers. *)
Definition md5_table : list Z :=
  [
   0xd76aa478; 0xe8c7b756; 0x242070db; 0xc1bdceee; 0xf57c0faf; 0x4787c62a; 0xa8304613; 0xfd469501;
   0x698098d8; 0x8b44f7af; 0xffff5bb1; 0x895cd7be; 0x6b901122; 0xfd987193; 0xa679438e; 0x49b40821;
   0xf61e2562; 0xc040b340; 0x265e5a51; 0xe9b6c7aa; 0xd62f105d; 0x02441453; 0xd8a1e681; 0xe7d3fbc8;
   0x21e1cde6; 0xc33707d6; 0xf4d50d87; 0x455a14ed; 0xa9e3e905; 0xfcefa3f8; 0x676f02d9; 0x8d2a4c8a;
   0xfffa3942; 0x8771f681; 0x6d9d6122; 0xfde5380c; 0xa4beea44; 0x4bdecfa9; 0xf6bb4b60; 0xbebfbc70;
   0x289b7ec6; 0xeaa127fa; 0xd4ef3085; 0x04881d05; 0xd9d4d039; 0xe6db99e5; 0x1fa27cf8; 0xc4ac5665;
   0xf4292244; 0x432aff97; 0xab9423a7; 0xfc93a039; 0x655b59c3; 0x8f0ccc92; 0xffeff47d; 0x85845dd1;
   0x6fa87e4f; 0xfe2ce6e0; 0xa3014314; 0x4e0811a1; 0xf7537e82; 0xbd3af235; 0x2ad7d2bb; 0xeb86d391].
Definition md5_shifts : list Z := mjoin (replicate 4 [7; 12; 17; 22] ++ replicate 4 [5; 9; 14; 20] ++ replicate 4 [4; 11; 16; 23] ++ replicate 4 [6; 10; 15; 21]).
Definition rotl32 (x n : Z) : Z := u32 (Z.lor (Z.shiftl x n) (Z.shiftr x (32 - n))).
Definition not32 (x : Z) : Z := Z.lxor x 0xffffffff.

(** Little-endian words. *)
Definition word_of (b : list byte) : Z := foldr (λ c n, Z_of_byte c + 256 * n) 0 b.
Fixpoint bytes_le (n : nat) (x : Z) : list byte := match n with O => [] | S n => byte_of_Z x :: bytes_le n (x / 256) end.
Fixpoint split_every (n fuel : nat) (b : list byte) : list (list byte) :=
  match fuel, b with
  | O, _ | _, [] => []
  | S fuel, _ => take n b :: split_every n fuel (drop n b)
  end.

Definition md5_mix (i b c d : Z) : Z * Z :=
  if i <? 16 then (Z.lor (Z.land b c) (Z.land (not32 b) d), i)
  else if i <? 32 then (Z.lor (Z.land d b) (Z.land (not32 d) c), (5 * i + 1) mod 16)
  else if i <? 48 then (Z.lxor (Z.lxor b c) d, (3 * i + 5) mod 16)
  else (Z.lxor c (Z.lor b (not32 d)), (7 * i) mod 16).
Definition md5_step (w : list Z) (s : Z * Z * Z * Z) (i : nat) : Z * Z * Z * Z :=
  let '(a, b, c, d) := s in
  let '(f, g) := md5_mix (Z.of_nat i) b c d in
  let x := u32 (a + f + default 0 (md5_table !! i) + default 0 (w !! Z.to_nat g)) in
  (d, u32 (b + rotl32 x (default 0 (md5_shifts !! i))), b, c).
Definition md5_block (s : Z * Z * Z * Z) (block : list byte) : Z * Z * Z * Z :=
  let w := word_of <$> split_every 4 16 block in
  let '(a, b, c, d) := s in
  let '(a', b', c', d') := foldl (md5_step w) s (seq 0 64) in
  (u32 (a + a'), u32 (b + b'), u32 (c + c'), u32 (d + d')).
Definition md5_pad (b : list byte) : list byte :=
  b ++ byte_of_Z 0x80 :: replicate (Z.to_nat ((55 - zlen b) mod 64)) (byte_of_Z 0) ++ bytes_le 8 (8 * zlen b).
Definition md5_Sum (b : list byte) : list byte :=
  let p := md5_pad b in
  let '(a, b, c, d) := foldl md5_block (0x67452301, 0xefcdab89, 0x98badcfe, 0x10325476) (split_every md5_blockSize (length p) p) in
  bytes_le 4 a ++ bytes_le 4 b ++ bytes_le 4 c ++ bytes_le 4 d.

Lemma length_bytes_le n x : length (bytes_le n x) = n.
Proof. revert x. induction n as [|n IH]; intros x; simpl; [done|]. by rewrite IH. Qed.
Lemma length_md5 b : length (md5_Sum b) = md5_size.
Proof. unfold md5_Sum. destruct (foldl _ _ _) as [[[x y] z] t]. by rewrite !length_app, !length_bytes_le. Qed.

Example md5_empty : hex_EncodeToString (md5_Sum []) = "d41d8cd98f00b204e9800998ecf8427e"%string.
Proof. vm_compute. reflexivity. Qed.
Example md5_digits :
  hex_EncodeToString (md5_Sum (bytes_of_string "12345678901234567890123456789012345678901234567890123456789012345678901234567890"))
  = "57edf4a22be3c955ac49da2e2107b67a"%string.
Proof. vm_compute. reflexivity. Qed.

(** ** crypto/hmac over md5 *)
Definition hmac_key (key : list byte) : list byte :=
  let k := if Z.of_nat md5_blockSize <? zlen key then md5_Sum key else key in k ++ replicate (md5_blockSize - length k) (byte_of_Z 0).
Definition xor_byte (x : Z) (b : byte) : byte := byte_of_Z (Z.lxor (Z_of_byte b) x).
Definition hmac_md5 (key msg : list byte) : list byte :=
  let k := hmac_key key in md5_Sum ((xor_byte 0x5c <$> k) ++ md5_Sum ((xor_byte 0x36 <$> k) ++ msg)).
Lemma length_hmac key msg : length (hmac_md5 key msg) = md5_size.
Proof. apply length_md5. Qed.
Example hmac_rfc2202 : hex_EncodeToString (hmac_md5 (bytes_of_string "Jefe") (bytes_of_string "what do ya want for nothing?")) = "750c783e6ab0b503eaa86e310a5db738"%string.
Proof. vm_compute. reflexivity. Qed.

(** ** crypto/rc4 *)
Record rc4_Cipher := mkRc4 { rc4_s : list Z; rc4_i : Z; rc4_j : Z }.
Definition rc4_at (s : list Z) (i : Z) : Z := default 0 (s !! Z.to_nat i).
Definition rc4_swap (s : list Z) (i j : Z) : list Z := <[Z.to_nat j := rc4_at s i]> (<[Z.to_nat i := rc4_at s j]> s).
Definition rc4_schedule (key : list byte) (x : list Z * Z) (i : nat) : list Z * Z :=
  let '(s, j) := x in
  let j := u8 (j + rc4_at s (Z.of_nat i) + default 0 (Z_of_byte <$> key !! (i mod length key)%nat)) in (rc4_swap s (Z.of_nat i) j, j).
Definition rc4_NewCipher (key : list byte) : option rc4_Cipher :=
  if (zlen key <? 1) || (256 <? zlen key) then None
  else Some (mkRc4 (foldl (rc4_schedule key) (Z.of_nat <$> seq 0 256, 0) (seq 0 256)).1 0 0).
Definition rc4_next (c : rc4_Cipher) : Z * rc4_Cipher :=
  let i := u8 (rc4_i c + 1) in
  let j := u8 (rc4_j c + rc4_at (rc4_s c) i) in
  let s := rc4_swap (rc4_s c) i j in
  (u8 (rc4_at s (u8 (rc4_at s i + rc4_at s j))), mkRc4 s i j).
Fixpoint XORKeyStream (c : rc4_Cipher) (src : list byte) : list byte * rc4_Cipher :=
  match src with
  | [] => ([], c)
  | b :: src =>
      let '(k, c) := rc4_next c in
      let '(dst, c) := XORKeyStream c src in (xor_byte k b :: dst, c)
  end.
Example rc4_vector :
  (λ c, hex_EncodeToString (XORKeyStream c (bytes_of_string "Plaintext")).1) <$> rc4_NewCipher (bytes_of_string "Key") = Some "bbf316e8d940af0ad3"%string.
Proof. vm_compute. reflexivity. Qed.

Lemma xor_byte_involutive k b : 0 <= k < 256 → xor_byte k (xor_byte k b) = b.
Proof.
  intros Hk. unfold xor_byte. pose proof (Z_of_byte_range b) as Hb. rewrite Z_of_byte_of_Z. unfold u8. rewrite Z.mod_small.
  - by rewrite Z.lxor_assoc, Z.lxor_nilpotent, Z.lxor_0_r, byte_of_Z_of_byte.
  - assert (0 <= Z.lxor (Z_of_byte b) k) as Hp by (apply Z.lxor_nonneg; lia). split; [done|].
    destruct (Z.eq_dec (Z.lxor (Z_of_byte b) k) 0) as [->|Hne]; [lia|]. change (2 ^ 8) with 256.
    assert (∀ x, 0 <= x < 256 → Z.log2 x < 8) as Hlog by (intros x Hx; destruct (Z.eq_dec x 0) as [->|]; [done|apply Z.log2_lt_pow2; lia]).
    apply (Z.log2_lt_pow2 _ 8); [lia|]. eapply Z.le_lt_trans; [apply Z.log2_lxor; lia|]. apply Z.max_lub_lt; apply Hlog; lia.
Qed.
Lemma rc4_next_range c : 0 <= (rc4_next c).1 < 256.
Proof. unfold rc4_next. simpl. apply Z.mod_pos_bound. lia. Qed.
#[global] Arguments rc4_next : simpl never.
(** Deciphering with the same state gives the text back and leaves the same state. *)
Lemma XORKeyStream_involutive c src dst c' : XORKeyStream c src = (dst, c') → XORKeyStream c dst = (src, c').
Proof.
  revert c dst. induction src as [|b src IH]; intros c dst E; cbn [XORKeyStream] in E; [by injection E as <- <-|].
  pose proof (rc4_next_range c) as Hk. destruct (rc4_next c) as [k c1] eqn:En. destruct (XORKeyStream c1 src) as [dst1 c2] eqn:E1. injection E as <- <-.
  cbn [XORKeyStream]. rewrite En, (IH _ _ E1), xor_byte_involutive by done. done.
Qed.
Lemma length_XORKeyStream c src : length (XORKeyStream c src).1 = length src.
Proof.
  revert c. induction src as [|b src IH]; intros c; cbn [XORKeyStream]; [done|]. destruct (rc4_next c) as [k c1]. specialize (IH c1).
  destruct (XORKeyStream c1 src). simpl in *. by rewrite IH.
Qed.
