(* ===== verification/HdfsSasl.v ===== *)
(** * Protected connections to datanodes: hdfs/intrnl/transfer, hdfs/intrnl/sasl

    challenge.go (the challenge of the server), digest_md5.go (the digests of RFC
    2831), digest_md5_integrity.go and digest_md5_privacy.go (connections that sign
    or encipher what passes over them), sasl_dialer.go (the handshake) and the keys
    of aes_conn.go. The bytes that [Read] leaves in the buffer of its caller are
    part of its result, next to the count it returns. *)
From Stdlib Require Import Ascii.
From stdpp Require Import base tactics option list strings.
From Stdlib Require Import ZArith Lia.
From S2P Require Import Prelude SftpWire GoPath GoStrconv GoCrypto HdfsTransfer.

(** ** sasl/challenge.go *)
Definition QopAuthentication : string := "auth".
Definition QopIntegrity : string := "auth-int".
Definition QopPrivacy : string := "auth-conf".
Record Challenge := mkChallenge {
  Realm : string;
  Nonce : string;
  Qop : list string;
  Charset : string;
  Cipher : list string;
  Algorithm : string
}.

Definition is_alnum (c : ascii) : bool :=
  let n := Z.of_N (N_of_ascii c) in
  ((48 <=? n) && (n <=? 57)) || ((65 <=? n) && (n <=? 90)) || ((97 <=? n) && (n <=? 122)).
Definition dquote : ascii := "034"%char.
Definition comma : ascii := ","%char.
(** The longest prefix of characters that satisfy [f], and what follows it. *)
Fixpoint span (f : ascii → bool) (s : string) : string * string :=
  match s with
  | EmptyString => (EmptyString, EmptyString)
  | String c s' => if f c then let '(a, b) := span f s' in (String c a, b) else (EmptyString, s)
  end.
Definition skip_comma (s : string) : string :=
  match s with String c s' => if bool_decide (c = comma) then s' else s | EmptyString => s end.
(** The expression at the beginning of a text: the key, the value in quotes (the
    third group, empty for a value without quotes) and the rest. A key or value is
    followed by a character that is not part of it, so that the longest one is the
    only one. *)
Definition match_pair (s : string) : option (string * string * string) :=
  let '(key, s) := span is_alnum (skip_comma s) in
  match s with
  | String "=" s =>
      if bool_decide (key = EmptyString) then None
      else
        let bare :=
          let '(v, rest) := span (λ c, negb (bool_decide (c = comma))) s in
          if bool_decide (v = EmptyString) then None else Some (key, EmptyString, skip_comma rest) in
        match s with
        | String q s' =>
            if bool_decide (q = dquote) then
              let '(v, rest) := span (λ c, negb (bool_decide (c = dquote))) s' in
              match rest with
              | String _ rest => if bool_decide (v = EmptyString) then bare else Some (key, v, skip_comma rest)
              | EmptyString => bare
              end
            else bare
        | EmptyString => None
        end
  | _ => None
  end.
(** [FindAllSubmatch]; every match takes at least two bytes. *)
Fixpoint find_pairs (fuel : nat) (s : string) : list (string * string) :=
  match fuel with
  | O => []
  | S fuel =>
      match match_pair s with
      | Some (key, v, rest) => (key, v) :: find_pairs fuel rest
      | None => match s with String _ s => find_pairs fuel s | EmptyString => [] end
      end
  end.
Definition set_field (ch : Challenge) (m : string * string) : Challenge :=
  let '(key, v) := m in
  if bool_decide (key = "realm"%string) then mkChallenge v (Nonce ch) (Qop ch) (Charset ch) (Cipher ch) (Algorithm ch)
  else if bool_decide (key = "nonce"%string) then mkChallenge (Realm ch) v (Qop ch) (Charset ch) (Cipher ch) (Algorithm ch)
  else if bool_decide (key = "qop"%string) then mkChallenge (Realm ch) (Nonce ch) (strings_Split v comma) (Charset ch) (Cipher ch) (Algorithm ch)
  else if bool_decide (key = "charset"%string) then mkChallenge (Realm ch) (Nonce ch) (Qop ch) v (Cipher ch) (Algorithm ch)
  else if bool_decide (key = "cipher"%string) then mkChallenge (Realm ch) (Nonce ch) (Qop ch) (Charset ch) (strings_Split v comma) (Algorithm ch)
  else if bool_decide (key = "algorithm"%string) then mkChallenge (Realm ch) (Nonce ch) (Qop ch) (Charset ch) (Cipher ch) v
  else ch.
Definition ParseChallenge (challenge : list byte) : result Challenge :=
  let s := string_of_bytes challenge in
  match find_pairs (S (String.length s)) s with
  | [] => Err (EMsg ("invalid token challenge: " +:+ s))
  | matched =>
      let ch := foldl set_field (mkChallenge EmptyString EmptyString [] EmptyString [] EmptyString) matched in
      match Qop ch with [] => Err (EMsg "invalid token challenge: no selected QOP") | _ => Ok ch end
  end.

(** ** digest_md5.go *)
Record digestMD5Handshake := mkHandshake {
  authID : list byte;
  passwd : string;
  hostname : string;
  service : string;
  token : Challenge;
  cnonce : string;
  dg_cipher : string
}.
Definition colon : ascii := ":"%char.
(** [ParseChallenge] never returns an empty list. *)
Definition qop0 (d : digestMD5Handshake) : string := default EmptyString (head (Qop (token d))).

Definition h (s : string) : list byte := md5_Sum (bytes_of_string s).
Definition kd (k s : string) : list byte := h (k +:+ ":" +:+ s).
Definition a1 (d : digestMD5Handshake) : string :=
  let x := h (strings_Join [string_of_bytes (authID d); Realm (token d); passwd d] colon) in
  strings_Join [string_of_bytes x; Nonce (token d); cnonce d] colon.
Definition a2 (initial : bool) (d : digestMD5Handshake) : string :=
  let digestURI := service d +:+ "/" +:+ hostname d in
  let a2 := if initial then strings_Join ["AUTHENTICATE"%string; digestURI] colon else ":" +:+ digestURI in
  if bool_decide (qop0 d = QopPrivacy) || bool_decide (qop0 d = QopIntegrity) then a2 +:+ ":00000000000000000000000000000000" else a2.
Definition compute (initial : bool) (d : digestMD5Handshake) : string :=
  let x := hex_EncodeToString (h (a1 d)) in
  let y := strings_Join [Nonce (token d); "00000001"%string; cnonce d; qop0 d; hex_EncodeToString (h (a2 initial d))] colon in
  hex_EncodeToString (kd x y).
Definition chooseCipher (options : list string) : string :=
  if bool_decide ("rc4"%string ∈ options) then "rc4"
  else if bool_decide ("rc4-56"%string ∈ options) then "rc4-56"
  else if bool_decide ("rc4-40"%string ∈ options) then "rc4-40"
  else "".
Definition quoted (s : string) : string := String dquote (s +:+ String dquote EmptyString).
(** [genCnonce] is what [genCnonce()] returns. *)
Definition challengeStep1 (genCnonce : result string) (challenge : list byte) (d : digestMD5Handshake) : result (list byte * digestMD5Handshake) :=
  token ← ParseChallenge challenge;
  cnonce ← genCnonce;
  let d := mkHandshake (authID d) (passwd d) (hostname d) (service d) token cnonce (chooseCipher (Cipher token)) in
  let rspdigest := compute true d in
  let ret := "username=" +:+ quoted (string_of_bytes (authID d)) +:+ ", realm=" +:+ quoted (Realm token) +:+ ", nonce=" +:+ quoted (Nonce token)
    +:+ ", cnonce=" +:+ quoted cnonce +:+ ", nc=00000001, qop=" +:+ qop0 d
    +:+ ", digest-uri=" +:+ quoted (service d +:+ "/" +:+ hostname d) +:+ ", response=" +:+ rspdigest +:+ ", charset=utf-8" in
  let ret := if bool_decide (dg_cipher d = EmptyString) then ret else ret +:+ ", cipher=" +:+ dg_cipher d in
  Ok (bytes_of_string ret, d).
Definition challengeStep2 (challenge : list byte) (d : digestMD5Handshake) : result unit :=
  match strings_Split (string_of_bytes challenge) "="%char with
  | rsp0 :: rest =>
      if negb (bool_decide (rsp0 = "rspauth"%string)) then Err (EMsg ("rspauth not in '" +:+ string_of_bytes challenge +:+ "'"))
      else match rest with
           | rsp1 :: _ => if bool_decide (rsp1 = compute false d) then Ok tt else Err (EMsg "rspauth did not match digest")
           | [] => Panic
           end
  | [] => Panic
  end.
Definition generateIntegrityKeys (a1 : string) : list byte * list byte :=
  let sum := h a1 in
  (md5_Sum (sum ++ bytes_of_string "Digest session key to client-to-server signing key magic constant"),
   md5_Sum (sum ++ bytes_of_string "Digest session key to server-to-client signing key magic constant")).
Definition generatePrivacyKeys (a1 cipher : string) : list byte * list byte :=
  let sum := h a1 in
  let n := if bool_decide (cipher = "rc4-40"%string) then 5%nat else if bool_decide (cipher = "rc4-56"%string) then 7%nat else md5_size in
  (md5_Sum (take n sum ++ bytes_of_string "Digest H(A1) to client-to-server sealing key magic constant"),
   md5_Sum (take n sum ++ bytes_of_string "Digest H(A1) to server-to-client sealing key magic constant")).
Definition lenEncodeBytes (seqnum : Z) : list byte :=
  [byte_of_Z (Z.land (Z.shiftr seqnum 24) 0xff); byte_of_Z (Z.land (Z.shiftr seqnum 16) 0xff);
   byte_of_Z (Z.land (Z.shiftr seqnum 8) 0xff); byte_of_Z (Z.land seqnum 0xff)].

(** ** Connections *)

(** What is still to arrive on a connection, and the connection when only a rest
    of it is left; a write returns the number of bytes that went out. *)
Class NetConn (C : Type) := {
  net_Write : list byte → C → (Z * option error) * C;
  net_in : C → Reader;
  net_rest : Reader → C → C
}.
(** [binary.Write] of an [int32] in big-endian order. *)
Definition int32_bytes (z : Z) : list byte := marshalUint32 [] (u32 z).
Definition saslIntegrityPrefixLength : Z := 4.
Definition macDataLen : Z := 4.
Definition macHMACLen : Z := 10.
Definition macMsgTypeLen : Z := 2.
Definition macSeqNumLen : Z := 4.
Definition macMsgType : list byte := [byte_of_Z 0; byte_of_Z 1].
Definition ETIMEDOUT : error := EMsg "connection timed out".
Definition msgHMAC (key seq msg : list byte) : list byte := take 10 (hmac_md5 key (seq ++ msg)).
(** [input[a:b]] *)
Definition slice (input : list byte) (a b : Z) : result (list byte) :=
  if (a <? 0) || (b <? a) || (zlen input <? b) then Panic else Ok (take (Z.to_nat (b - a)) (drop (Z.to_nat a) input)).

(** [Read] of a [bytes.Buffer] into [n] bytes. *)
Definition buffer_Read (n : Z) (buf : list byte) : list byte * option error * list byte :=
  match buf with
  | [] => ([], if n =? 0 then None else Some EOF, [])
  | _ => (take (Z.to_nat n) buf, None, drop (Z.to_nat n) buf)
  end.

Section conns.
Context {C : Type} `{NetConn C}.

(** *** digest_md5_integrity.go; the keys stand for the two hash states. *)
Record digestMD5IntegrityConn := mkIntegrity {
  ic_conn : C;
  ic_readDeadline : option Z;
  ic_readBuf : list byte;
  ic_sendSeqNum : Z;
  ic_readSeqNum : Z;
  ic_encodeMAC : list byte;
  ic_decodeMAC : list byte
}.
Definition newDigestMD5IntegrityConn (conn : C) (kic kis : list byte) : digestMD5IntegrityConn := mkIntegrity conn None [] 0 0 kic kis.
Definition integrity_SetDeadline (t : option Z) (d : digestMD5IntegrityConn) : digestMD5IntegrityConn :=
  mkIntegrity (ic_conn d) t (ic_readBuf d) (ic_sendSeqNum d) (ic_readSeqNum d) (ic_encodeMAC d) (ic_decodeMAC d).
Definition integrity_frame (key : list byte) (seq : Z) (b : list byte) : list byte :=
  int32_bytes (zlen b + macHMACLen + macMsgTypeLen + macSeqNumLen) ++ b ++ msgHMAC key (lenEncodeBytes seq) b ++ macMsgType ++ int32_bytes seq.
Definition integrity_Write (b : list byte) (d : digestMD5IntegrityConn) : (Z * option error) * digestMD5IntegrityConn :=
  let '(r, c) := net_Write (integrity_frame (ic_encodeMAC d) (ic_sendSeqNum d) b) (ic_conn d) in
  (r, mkIntegrity c (ic_readDeadline d) (ic_readBuf d) (i64 (ic_sendSeqNum d + 1)) (ic_readSeqNum d) (ic_encodeMAC d) (ic_decodeMAC d)).
Definition integrity_check (key : list byte) (readSeqNum : Z) (input : list byte) : result (list byte) :=
  let inputLen := zlen input in
  if inputLen <? saslIntegrityPrefixLength then Err (EMsg "Input length smaller than the integrity prefix")
  else
    let seqBuf := lenEncodeBytes readSeqNum in
    data ← slice input 0 (inputLen - macHMACLen - macMsgTypeLen - macSeqNumLen);
    let hmac := msgHMAC key seqBuf data in
    let seqNumStart := inputLen - macSeqNumLen in
    let msgTypeStart := seqNumStart - macMsgTypeLen in
    let origHashStart := msgTypeStart - macHMACLen in
    orig ← slice input origHashStart (origHashStart + macHMACLen);
    msgType ← slice input msgTypeStart (msgTypeStart + macMsgTypeLen);
    seqNum ← slice input seqNumStart (seqNumStart + macSeqNumLen);
    if negb (bool_decide (hmac = orig)) || negb (bool_decide (macMsgType = msgType)) || negb (bool_decide (seqBuf = seqNum))
    then Err (EMsg "HMAC Integrity Check failed")
    else Ok data.
(** The buffer the input is in stays as it is. *)
Definition integrity_decode (input : list byte) (d : digestMD5IntegrityConn) : result (list byte) * list byte * digestMD5IntegrityConn :=
  match integrity_check (ic_decodeMAC d) (ic_readSeqNum d) input with
  | Ok data => (Ok data, input, mkIntegrity (ic_conn d) (ic_readDeadline d) (ic_readBuf d) (ic_sendSeqNum d) (i64 (ic_readSeqNum d + 1)) (ic_encodeMAC d) (ic_decodeMAC d))
  | r => (r, input, d)
  end.

(** *** digest_md5_privacy.go; the state has the two ciphers besides. *)
Record digestMD5PrivacyConn := mkPrivacy {
  pc_plain : digestMD5IntegrityConn;
  pc_decryptor : rc4_Cipher;
  pc_encryptor : rc4_Cipher
}.
(** A cipher is nil, and its use panics, when the key has no length it accepts. *)
Definition newDigestMD5PrivacyConn (conn : C) (kic kis kcc kcs : list byte) : result digestMD5PrivacyConn :=
  match rc4_NewCipher kcs, rc4_NewCipher kcc with
  | Some dec, Some enc => Ok (mkPrivacy (newDigestMD5IntegrityConn conn kic kis) dec enc)
  | _, _ => Panic
  end.
Definition privacy_frame (key : list byte) (c : rc4_Cipher) (seq : Z) (b : list byte) : list byte * rc4_Cipher :=
  let '(toEncrypt, c) := XORKeyStream c (b ++ msgHMAC key (lenEncodeBytes seq) b) in
  (int32_bytes (zlen b + macHMACLen + macMsgTypeLen + macSeqNumLen) ++ toEncrypt ++ macMsgType ++ int32_bytes seq, c).
Definition privacy_Write (b : list byte) (d : digestMD5PrivacyConn) : (Z * option error) * digestMD5PrivacyConn :=
  let p := pc_plain d in
  let '(frame, enc) := privacy_frame (ic_encodeMAC p) (pc_encryptor d) (ic_sendSeqNum p) b in
  let '(r, c) := net_Write frame (ic_conn p) in
  (r, mkPrivacy (mkIntegrity c (ic_readDeadline p) (ic_readBuf p) (i64 (ic_sendSeqNum p + 1)) (ic_readSeqNum p) (ic_encodeMAC p) (ic_decodeMAC p)) (pc_decryptor d) enc).
(** The check of the deciphered input [input], whose last six bytes were sent as
    they are. *)
Definition privacy_check (key : list byte) (readSeqNum : Z) (input : list byte) : result (list byte) :=
  let inputLen := zlen input in
  let encryptedLen := inputLen - macMsgTypeLen - macSeqNumLen in
  origHash ← slice input (encryptedLen - macHMACLen) encryptedLen;
  data ← slice input 0 (encryptedLen - macHMACLen);
  let seqBuf := lenEncodeBytes readSeqNum in
  let hmac := msgHMAC key seqBuf data in
  let seqNumStart := inputLen - macSeqNumLen in
  msgType ← slice input (seqNumStart - macMsgTypeLen) seqNumStart;
  seqNum ← slice input seqNumStart inputLen;
  if negb (bool_decide (hmac = origHash)) || negb (bool_decide (macMsgType = msgType)) || negb (bool_decide (seqNum = seqBuf))
  then Err (EMsg "invalid response from datanode: HMAC check failed")
  else Ok data.
(** The input is deciphered in place. *)
Definition privacy_decode (input : list byte) (d : digestMD5PrivacyConn) : result (list byte) * list byte * digestMD5PrivacyConn :=
  if zlen input <? saslIntegrityPrefixLength then (Err (EMsg "invalid response from datanode: bad response length"), input, d)
  else
    let encryptedLen := zlen input - macMsgTypeLen - macSeqNumLen in
    match slice input 0 encryptedLen with
    | Ok sealed =>
        let '(plain, dec) := XORKeyStream (pc_decryptor d) sealed in
        let input := plain ++ drop (Z.to_nat encryptedLen) input in
        let p := pc_plain d in
        match privacy_check (ic_decodeMAC p) (ic_readSeqNum p) input with
        | Ok data =>
            (Ok data, input, mkPrivacy (mkIntegrity (ic_conn p) (ic_readDeadline p) (ic_readBuf p) (ic_sendSeqNum p) (i64 (ic_readSeqNum p + 1)) (ic_encodeMAC p) (ic_decodeMAC p)) dec (pc_encryptor d))
        | r => (r, input, mkPrivacy p dec (pc_encryptor d))
        end
    | _ => (Panic, input, d)
    end.

(** *** The two [Read] methods, which differ in [decode] and in the count they
    return with an error of the length. [None] as the outcome is a panic. *)
Record read_result := mkRead { rr_bytes : list byte; rr_n : Z; rr_err : option error }.
Definition ic_set (c : C) (buf : list byte) (d : digestMD5IntegrityConn) : digestMD5IntegrityConn :=
  mkIntegrity c (ic_readDeadline d) buf (ic_sendSeqNum d) (ic_readSeqNum d) (ic_encodeMAC d) (ic_decodeMAC d).
Section read.
Context {D : Type} (plain : D → digestMD5IntegrityConn) (set_plain : digestMD5IntegrityConn → D → D).
Context (decode : list byte → D → result (list byte) * list byte * D) (count_on_error : Z → Z).
Definition conn_Read (now n : Z) (d : D) : option read_result * D :=
  let p := plain d in
  if match ic_readDeadline p with Some t => t <? now | None => false end then (Some (mkRead [] 0 (Some ETIMEDOUT)), d)
  else
    let '(x, err, buf) := buffer_Read n (ic_readBuf p) in
    let d := set_plain (ic_set (ic_conn p) buf p) d in
    if (zlen x =? n) || negb (bool_decide (err = None) || bool_decide (err = Some EOF)) then (Some (mkRead x (zlen x) err), d)
    else
      let '((b4, err), r) := ReadFull (net_in (ic_conn p)) 4 in
      let c := net_rest r (ic_conn p) in
      match err with
      | Some e => (Some (mkRead x (count_on_error (zlen x)) (Some e)), set_plain (ic_set c buf (plain d)) d)
      | None =>
          match unmarshalUint32 b4 with
          | Ok (sz, _) =>
              let sz := i32 sz in
              if sz <? 0 then (None, set_plain (ic_set c [] (plain d)) d)
              else
                let '((input, err), r) := CopyN r sz in
                let d := set_plain (ic_set (net_rest r c) input (plain d)) d in
                match err with
                | Some e => (Some (mkRead x (zlen x) (Some e)), d)
                | None =>
                    match decode input d with
                    | (Ok decoded, _, d) =>
                        let '(y, err, buf) := buffer_Read (n - zlen x) decoded in
                        (Some (mkRead (x ++ y) (zlen y) err), set_plain (ic_set (ic_conn (plain d)) buf (plain d)) d)
                    | (Err e, input, d) =>
                        (Some (mkRead x (zlen x) (Some e)), set_plain (ic_set (ic_conn (plain d)) input (plain d)) d)
                    | (Panic, input, d) => (None, d)
                    end
                end
          | _ => (None, d)
          end
      end.
End read.
Definition integrity_Read : Z → Z → digestMD5IntegrityConn → option read_result * digestMD5IntegrityConn :=
  conn_Read (λ d, d) (λ p _, p) integrity_decode (λ n, n).
Definition privacy_Read : Z → Z → digestMD5PrivacyConn → option read_result * digestMD5PrivacyConn :=
  conn_Read pc_plain (λ p d, mkPrivacy p (pc_decryptor d) (pc_encryptor d)) privacy_decode (λ _, 0).
End conns.
Arguments digestMD5IntegrityConn : clear implicits.
Arguments digestMD5PrivacyConn : clear implicits.

(** ** sasl_dialer.go *)
Record CipherOptionProto := mkCipherOption { co_Suite : Z; co_InKey : list byte; co_InIv : list byte; co_OutKey : list byte; co_OutIv : list byte }.
Record DataTransferEncryptorMessageProto := mkEncryptorMessage { em_Status : Z; em_Payload : list byte; em_CipherOption : list CipherOptionProto }.
Record DataEncryptionKeyProto := mkEncryptionKey { dk_KeyId : Z; dk_BlockPoolId : string; dk_Nonce : list byte; dk_EncryptionKey : list byte }.
Record TokenProto := mkToken { tk_Identifier : list byte; tk_Password : list byte }.
Record SaslDialer := mkDialer { sd_Key : option DataEncryptionKeyProto; sd_Token : TokenProto; sd_EnforceQop : string }.
Definition authServer : string := "0".
Definition authProtocol : string := "hdfs".
Definition SUCCESS : Z := 0.
Definition AES_CTR_NOPADDING : Z := 2.

(** What the dialer returns: the connection itself, or one of the wrappers. *)
Inductive dnConn (C : Type) :=
  | Bare (c : C)
  | Integrity (d : digestMD5IntegrityConn C)
  | Privacy (d : digestMD5PrivacyConn C)
  | Aes (c : C) (inKey outKey inIv outIv : list byte).
Arguments Bare {C}.
Arguments Integrity {C}.
Arguments Privacy {C}.
Arguments Aes {C}.

Section dialer.
Context {C : Type} `{NetConn C} `{Proto DataTransferEncryptorMessageProto}.

(** aes_conn.go: [NewCipher] accepts three sizes of keys, and [NewCTR] panics
    unless the vector has the size of a block. *)
Definition aes_key (key : list byte) : result unit :=
  if bool_decide (zlen key ∈ [16; 24; 32]) then Ok tt else Err (EMsg ("crypto/aes: invalid key size " +:+ Itoa (zlen key))).
Definition newAesConn (conn : C) (inKey outKey inIv outIv : list byte) : result (dnConn C) :=
  _ ← aes_key inKey;
  _ ← aes_key outKey;
  if negb (bool_decide (zlen inIv = 16)) || negb (bool_decide (zlen outIv = 16)) then Panic
  else Ok (Aes conn inKey outKey inIv outIv).

Definition net_read_message (c : C) : result DataTransferEncryptorMessageProto * C :=
  let '(m, r) := readPrefixedMessage (net_in c) in (m, net_rest r c).
Definition net_send (b : list byte) (c : C) : option error * C := let '((_, err), c) := net_Write b c in (err, c).
(** The name and password the token or the key stand for. *)
Definition credentials (d : SaslDialer) : list byte * string :=
  match sd_Key d with
  | Some key =>
      if 0 <? zlen (dk_Nonce key) then
        (bytes_of_string (Itoa (i32 (dk_KeyId key)) +:+ " " +:+ dk_BlockPoolId key +:+ " " +:+ base64_Encode (dk_Nonce key)),
         base64_Encode (dk_EncryptionKey key))
      else (bytes_of_string (base64_Encode (tk_Identifier (sd_Token d))), base64_Encode (tk_Password (sd_Token d)))
  | None => (bytes_of_string (base64_Encode (tk_Identifier (sd_Token d))), base64_Encode (tk_Password (sd_Token d)))
  end.
(** Which protection the server chose, and whether the configuration accepts it. *)
Definition fmt_list (l : list string) : string := "[" +:+ strings_Join l " "%char +:+ "]".
Definition select_qop (enforce : string) (dgst : digestMD5Handshake) : result (bool * bool) :=
  let qop := qop0 dgst in
  if bool_decide (qop = QopPrivacy) then Ok (true, true)
  else if bool_decide (qop = QopIntegrity) then
    if bool_decide (enforce = "privacy"%string) then Err (EMsg "negotiating data protection: invalid qop: 'integrity'") else Ok (false, true)
  else if bool_decide (enforce = "privacy"%string) || bool_decide (enforce = "integrity"%string) then
    Err (EMsg ("negotiating data protection: invalid qop: " +:+ fmt_list (Qop (token dgst))))
  else Ok (false, false).
(** The end of the handshake: keys, and the wrapper. *)
Definition decode_keys {D} (decode : list byte → D → result (list byte) * list byte * D) (opt : CipherOptionProto) (c : C) (d : D) : result (dnConn C) :=
  let '(inKey, _, d) := decode (co_InKey opt) d in
  inKey ← inKey;
  let '(outKey, _, d) := decode (co_OutKey opt) d in
  outKey ← outKey;
  newAesConn c inKey outKey (co_InIv opt) (co_OutIv opt).
Definition protect (privacy : bool) (dgst : digestMD5Handshake) (resp : DataTransferEncryptorMessageProto) (c : C) : result (dnConn C) :=
  let '(kic, kis) := generateIntegrityKeys (a1 dgst) in
  if privacy then
    if bool_decide (dg_cipher dgst = EmptyString) then Err (EMsg ("no available cipher among choices: " +:+ fmt_list (Cipher (token dgst))))
    else
      let '(kcc, kcs) := generatePrivacyKeys (a1 dgst) (dg_cipher dgst) in
      wrapped ← newDigestMD5PrivacyConn c kic kis kcc kcs;
      match em_CipherOption resp with
      | opt :: _ => decode_keys privacy_decode opt c wrapped
      | [] => Ok (Privacy wrapped)
      end
  else
    let wrapped := newDigestMD5IntegrityConn c kic kis in
    match em_CipherOption resp with
    | opt :: _ => decode_keys integrity_decode opt c wrapped
    | [] => Ok (Integrity wrapped)
    end.
Definition wrapDatanodeConn (genCnonce : result string) (d : SaslDialer) (c : C) : result (dnConn C) * C :=
  let '(ident, password) := credentials d in
  let dgst := mkHandshake ident password authServer authProtocol (mkChallenge EmptyString EmptyString [] EmptyString [] EmptyString) EmptyString EmptyString in
  match makePrefixedMessage (mkEncryptorMessage SUCCESS [] []) with
  | Ok data =>
      let '(err, c) := net_send (byte_of_Z 0xde :: byte_of_Z 0xad :: byte_of_Z 0xbe :: byte_of_Z 0xef :: data) c in
      match err with
      | Some e => (Err e, c)
      | None =>
          let '(msg, c) := net_read_message c in
          match (msg ← msg; '(response, dgst) ← challengeStep1 genCnonce (em_Payload msg) dgst;
                 '(privacy, integrity) ← select_qop (sd_EnforceQop d) dgst;
                 data ← makePrefixedMessage (mkEncryptorMessage SUCCESS response (if (privacy : bool) then [mkCipherOption AES_CTR_NOPADDING [] [] [] []] else []));
                 Ok (data, dgst, privacy, integrity)) with
          | Ok (data, dgst, privacy, integrity) =>
              let '(err, c) := net_send data c in
              match err with
              | Some e => (Err e, c)
              | None =>
                  let '(resp, c) := net_read_message c in
                  ((resp ← resp; _ ← challengeStep2 (em_Payload resp) dgst;
                    if negb privacy && negb integrity then Ok (Bare c) else protect privacy dgst resp c), c)
              end
          | Err e => (Err e, c)
          | Panic => (Panic, c)
          end
      end
  | Err e => (Err e, c)
  | Panic => (Panic, c)
  end.
(** [dial] is the [DialFunc] of the dialer, or the one of the net package. *)
Definition DialContext {E : Type} (dial : string → E → result C * E) (genCnonce : result string) (addr : string) (d : SaslDialer) (env : E) : result (dnConn C) * E :=
  match dial addr env with
  | (Ok c, env) => ((wrapDatanodeConn genCnonce d c).1, env)
  | (Err e, env) => (Err e, env)
  | (Panic, env) => (Panic, env)
  end.
End dialer.

(** ** The examples of RFC 2831 and of a recorded connection *)
Module DemoSasl.
Definition field (key v : string) : string := key +:+ "=" +:+ quoted v.
Definition rfc : digestMD5Handshake :=
  mkHandshake (bytes_of_string "chris") "secret" "elwood.innosoft.com" "imap" (mkChallenge EmptyString EmptyString [] EmptyString [] EmptyString) EmptyString EmptyString.
Definition rfc_challenge : string :=
  field "realm" "elwood.innosoft.com" +:+ ", " +:+ field "nonce" "OA6MG9tEQGm2hh" +:+ ", " +:+ field "qop" "auth"
  +:+ ", algorithm=md5-sess, charset=utf-8, " +:+ field "cipher" "rc4".
Example rfc_step1 :
  match challengeStep1 (Ok "OA6MHXh6VqTrRk"%string) (bytes_of_string rfc_challenge) rfc with
  | Ok (ret, d) =>
      string_of_bytes ret = field "username" "chris" +:+ ", " +:+ field "realm" "elwood.innosoft.com" +:+ ", " +:+ field "nonce" "OA6MG9tEQGm2hh"
        +:+ ", " +:+ field "cnonce" "OA6MHXh6VqTrRk" +:+ ", nc=00000001, qop=auth, " +:+ field "digest-uri" "imap/elwood.innosoft.com"
        +:+ ", response=d388dad90d4bbd760a152321f2143af7, charset=utf-8, cipher=rc4"
      ∧ challengeStep2 (bytes_of_string "rspauth=ea40f60335c427b5527b84dbabcdfffd") d = Ok tt
  | _ => False
  end.
Proof. vm_compute. split; reflexivity. Qed.

Definition key : DataEncryptionKeyProto :=
  mkEncryptionKey 388373981 "BP-529865118-10.129.176.136-1582635112897" (byte_of_Z <$> [0x79; 0x0c; 0xc3; 0xa6; 0x31; 0x7f; 0x5b; 0xd7])
    (byte_of_Z <$> [0x4d; 0xed; 0xaa; 0xd4; 0xf0; 0xf8; 0xec; 0x7d; 0xfd; 0xf7; 0x76; 0xaf; 0xbc; 0x93; 0xba; 0x8e; 0xd1; 0xc3; 0xb3; 0xb7]).
Definition dialer : SaslDialer := mkDialer (Some key) (mkToken [] []) "privacy".
Definition payload1 : string :=
  field "username" "388373981 BP-529865118-10.129.176.136-1582635112897 eQzDpjF/W9c=" +:+ ", " +:+ field "realm" "0" +:+ ", "
  +:+ field "nonce" "8iQSCAmYohP0K4dBX4Z2cxYC4CFJjfVp3aATEHNN" +:+ ", " +:+ field "qop" "auth-conf" +:+ ", " +:+ field "cipher" "rc4".
Definition inKey : list byte := byte_of_Z <$> [0xbb; 0x5e; 0xcf; 0x32; 0x55; 0xe7; 0x59; 0x5b; 0xe5; 0xf9; 0xd7; 0xd2; 0x1e; 0x29; 0xb8; 0xeb;
  0x04; 0x93; 0x8b; 0x74; 0x58; 0xbd; 0x77; 0x79; 0x8f; 0xfd; 0xf2; 0xe3; 0xb9; 0xbd; 0x70; 0xa7; 0x3b; 0xbc; 0xf4; 0xa2; 0xf3; 0xa1; 0x8a; 0x51;
  0x83; 0x3e; 0x00; 0x01; 0x00; 0x00; 0x00; 0x00].
Definition outKey : list byte := byte_of_Z <$> [0x63; 0x50; 0x62; 0xfe; 0x18; 0xed; 0xb9; 0xf6; 0x27; 0x92; 0x45; 0x6f; 0xa6; 0xdc; 0x9c; 0x6e;
  0x71; 0x5e; 0x4a; 0xcb; 0x92; 0x97; 0xa4; 0xcb; 0xa1; 0x56; 0xe3; 0x4f; 0x25; 0x5d; 0xfb; 0xd1; 0x65; 0x81; 0x12; 0xe5; 0xd9; 0xe0; 0x12; 0x33;
  0x53; 0xef; 0x00; 0x01; 0x00; 0x00; 0x00; 0x01].
Definition iv : list byte := replicate 16 (byte_of_Z 7).

(** Messages as a tag, the payload and at most one cipher; a connection that has
    the answers ready and keeps what it is sent. *)
#[global] Instance demo_proto : Proto DataTransferEncryptorMessageProto := {
  proto_Marshal m := (byte_of_Z (zlen (em_CipherOption m)) :: em_Payload m, None);
  proto_Unmarshal b :=
    match b with
    | n :: p => (mkEncryptorMessage 0 p (if Z_of_byte n =? 0 then [] else [mkCipherOption 2 inKey iv outKey iv]), None)
    | [] => (mkEncryptorMessage 0 [] [], Some ErrUnexpectedEOF)
    end
}.
Record wire := mkWire { w_sent : list byte; w_in : Reader }.
#[global] Instance wire_conn : NetConn wire := {
  net_Write b c := ((zlen b, None), mkWire (w_sent c ++ b) (w_in c));
  net_in := w_in;
  net_rest r c := mkWire (w_sent c) r
}.
Definition message (n : nat) (p : string) : list byte :=
  match makePrefixedMessage (mkEncryptorMessage 0 (bytes_of_string p) (replicate n (mkCipherOption 0 [] [] [] []))) with Ok b => b | _ => [] end.
Definition recorded : wire := mkWire [] (mkReader (message 0 payload1 ++ message 1 "rspauth=830abc648a95a91e9ff1d594cdbca222") EOF).
Definition key_of (l : list Z) : list byte := byte_of_Z <$> l.
Example recorded_handshake :
  match wrapDatanodeConn (Ok "dqNZ/hGooPsuK3iWPeDFeQ=="%string) dialer recorded with
  | (Ok (Aes _ i o _ _), c) =>
      i = key_of [0x7b; 0x91; 0xb6; 0x66; 0x60; 0xab; 0xff; 0x8c; 0x80; 0x48; 0xe2; 0x0c; 0xef; 0x24; 0x0c; 0xc9;
                  0x0b; 0xc5; 0xd7; 0x92; 0x14; 0x9c; 0x6f; 0xea; 0xb9; 0x12; 0x1a; 0x48; 0xc4; 0x85; 0x5f; 0x43]
      ∧ o = key_of [0xe6; 0xfb; 0x59; 0xb1; 0x7e; 0xd7; 0xdf; 0x11; 0x3a; 0xf3; 0xac; 0x62; 0xef; 0xc0; 0x86; 0x3d;
                  0x92; 0x74; 0x7d; 0xd9; 0x3f; 0xae; 0xbc; 0x62; 0xf2; 0xb5; 0x68; 0x7b; 0x10; 0x6f; 0xa3; 0x53]
  | _ => False
  end.
Proof. vm_compute. split; reflexivity. Qed.
End DemoSasl.

(** ** Sequence numbers and lengths *)
Lemma byte_of_Z_u8 a b : u8 a = u8 b → byte_of_Z a = byte_of_Z b.
Proof. unfold byte_of_Z. by intros ->. Qed.
Lemma u8_shift_u32 z k : 0 <= k <= 24 → u8 (Z.land (Z.shiftr z k) 0xff) = u8 (Z.shiftr (u32 z) k).
Proof.
  intros Hk. unfold u8, u32. apply Z.bits_inj'. intros n Hn. destruct (Z.lt_ge_cases n 8) as [Hlt|Hge].
  - rewrite !Z.mod_pow2_bits_low by lia. change 0xff with (Z.ones 8). rewrite Z.land_spec, Z.ones_spec_low, andb_true_r by lia.
    rewrite !Z.shiftr_spec by lia. by rewrite Z.mod_pow2_bits_low by lia.
  - by rewrite !Z.mod_pow2_bits_high by lia.
Qed.
Lemma lenEncodeBytes_int32 s : lenEncodeBytes s = int32_bytes s.
Proof.
  unfold lenEncodeBytes, int32_bytes, marshalUint32. simpl.
  pose proof (u8_shift_u32 s 0 ltac:(lia)) as H0. rewrite !Z.shiftr_0_r in H0.
  rewrite (byte_of_Z_u8 _ _ (u8_shift_u32 s 24 ltac:(lia))), (byte_of_Z_u8 _ _ (u8_shift_u32 s 16 ltac:(lia))), (byte_of_Z_u8 _ _ (u8_shift_u32 s 8 ltac:(lia))).
  by rewrite (byte_of_Z_u8 _ _ H0).
Qed.
Lemma length_int32 z : length (int32_bytes z) = 4%nat.
Proof. done. Qed.
Lemma int32_bytes_inj x y : int32_bytes x = int32_bytes y → u32 x = u32 y.
Proof.
  intros E. pose proof (unmarshalUint32_marshal (u32 x) []) as Hx. pose proof (unmarshalUint32_marshal (u32 y) []) as Hy.
  unfold int32_bytes in E. rewrite E, Hy in Hx. injection Hx as Hx. by rewrite !(u32_id (u32 _)) in Hx by auto with goint.
Qed.
Lemma length_msgHMAC key seq msg : length (msgHMAC key seq msg) = 10%nat.
Proof. unfold msgHMAC. rewrite length_take, length_hmac. done. Qed.

(** ** Messages *)
Lemma slice_app (a b c : list byte) : slice (a ++ b ++ c) (zlen a) (zlen a + zlen b) = Ok b.
Proof.
  unfold slice. pose proof (zlen_nonneg a). pose proof (zlen_nonneg b). pose proof (zlen_nonneg c). rewrite !zlen_app.
  rewrite (proj2 (Z.ltb_ge (zlen a) 0)), (proj2 (Z.ltb_ge (zlen a + zlen b) (zlen a))), (proj2 (Z.ltb_ge (zlen a + (zlen b + zlen c)) (zlen a + zlen b))) by lia. simpl. f_equal.
  replace (Z.to_nat (zlen a)) with (length a) by (unfold zlen; lia). rewrite drop_app_length.
  replace (Z.to_nat (zlen a + zlen b - zlen a)) with (length b) by (unfold zlen; lia). by rewrite take_app_length.
Qed.
(** The parts of a message. *)
Lemma slices_of (data mac typ seq : list byte) : zlen mac = 10 → zlen typ = 2 → zlen seq = 4 →
  let m := data ++ mac ++ typ ++ seq in
  zlen m = zlen data + 16 ∧ slice m 0 (zlen data) = Ok data ∧ slice m (zlen data) (zlen data + 10) = Ok mac
  ∧ slice m (zlen data + 10) (zlen data + 12) = Ok typ ∧ slice m (zlen data + 12) (zlen data + 16) = Ok seq.
Proof.
  intros Hm Ht Hs m. pose proof (slice_app [] data (mac ++ typ ++ seq)) as H0. pose proof (slice_app data mac (typ ++ seq)) as H1.
  pose proof (slice_app (data ++ mac) typ seq) as H2. pose proof (slice_app (data ++ mac ++ typ) seq []) as H3. unfold m.
  rewrite !zlen_app in *. rewrite Hm, Ht, Hs, ?app_nil_r in *. rewrite <- !app_assoc in *. split_and!; [lia|exact H0|exact H1|..].
  - by replace (zlen data + 12) with (zlen data + 10 + 2) by lia.
  - replace (zlen data + 12) with (zlen data + (10 + 2)) by lia. by replace (zlen data + 16) with (zlen data + (10 + 2) + 4) by lia.
Qed.
Definition signed (key : list byte) (seq : Z) (b : list byte) : list byte := b ++ msgHMAC key (lenEncodeBytes seq) b ++ macMsgType ++ int32_bytes seq.
Lemma zlen_msgHMAC key seq msg : zlen (msgHMAC key seq msg) = 10.
Proof. unfold zlen. by rewrite length_msgHMAC. Qed.
(** What the checks compare, for any message that is long enough. *)
Lemma integrity_check_parts key j (data mac typ seq : list byte) : zlen mac = 10 → zlen typ = 2 → zlen seq = 4 →
  integrity_check key j (data ++ mac ++ typ ++ seq) =
  if bool_decide (msgHMAC key (lenEncodeBytes j) data = mac ∧ macMsgType = typ ∧ lenEncodeBytes j = seq) then Ok data else Err (EMsg "HMAC Integrity Check failed").
Proof.
  intros Hm Ht Hs. unfold integrity_check. destruct (slices_of data mac typ seq Hm Ht Hs) as (-> & S1 & S2 & S3 & S4). pose proof (zlen_nonneg data) as Hb.
  unfold saslIntegrityPrefixLength, macHMACLen, macMsgTypeLen, macSeqNumLen. rewrite (proj2 (Z.ltb_ge (zlen data + 16) 4)) by lia.
  replace (zlen data + 16 - 10 - 2 - 4) with (zlen data) by lia. rewrite S1. cbn [mbind result_bind].
  replace (zlen data + 16 - 4 - 2 - 10) with (zlen data) by lia. rewrite S2. cbn [mbind result_bind]. replace (zlen data + 16 - 4 - 2) with (zlen data + 10) by lia.
  replace (zlen data + 10 + 2) with (zlen data + 12) by lia. rewrite S3. cbn [mbind result_bind]. replace (zlen data + 16 - 4) with (zlen data + 12) by lia.
  replace (zlen data + 12 + 4) with (zlen data + 16) by lia. rewrite S4. cbn [mbind result_bind]. repeat case_bool_decide; simpl; naive_solver.
Qed.
Lemma privacy_check_parts key j (data mac typ seq : list byte) : zlen mac = 10 → zlen typ = 2 → zlen seq = 4 →
  privacy_check key j (data ++ mac ++ typ ++ seq) =
  if bool_decide (msgHMAC key (lenEncodeBytes j) data = mac ∧ macMsgType = typ ∧ lenEncodeBytes j = seq) then Ok data
  else Err (EMsg "invalid response from datanode: HMAC check failed").
Proof.
  intros Hm Ht Hs. unfold privacy_check. destruct (slices_of data mac typ seq Hm Ht Hs) as (-> & S1 & S2 & S3 & S4). pose proof (zlen_nonneg data) as Hb.
  unfold macHMACLen, macMsgTypeLen, macSeqNumLen. replace (zlen data + 16 - 2 - 4) with (zlen data + 10) by lia. replace (zlen data + 10 - 10) with (zlen data) by lia.
  rewrite S2. cbn [mbind result_bind]. rewrite S1. cbn [mbind result_bind]. replace (zlen data + 16 - 4 - 2) with (zlen data + 10) by lia.
  replace (zlen data + 16 - 4) with (zlen data + 12) by lia. rewrite S3. cbn [mbind result_bind]. rewrite S4. cbn [mbind result_bind].
  repeat case_bool_decide; simpl; naive_solver.
Qed.
Lemma signed_accepted key i b : msgHMAC key (lenEncodeBytes i) b = msgHMAC key (lenEncodeBytes i) b ∧ macMsgType = macMsgType ∧ lenEncodeBytes i = int32_bytes i.
Proof. split_and!; [done|done|apply lenEncodeBytes_int32]. Qed.
Lemma integrity_check_signed key i b : integrity_check key i (signed key i b) = Ok b.
Proof. unfold signed. rewrite integrity_check_parts by (done || apply zlen_msgHMAC). rewrite bool_decide_true; [done|apply signed_accepted]. Qed.
(** A message is accepted in its place only. *)
Lemma integrity_check_replay key i j b : u32 i ≠ u32 j → integrity_check key j (signed key i b) = Err (EMsg "HMAC Integrity Check failed").
Proof.
  intros Hne. unfold signed. rewrite integrity_check_parts by (done || apply zlen_msgHMAC). case_bool_decide as E; [|done].
  destruct E as (_ & _ & E). rewrite lenEncodeBytes_int32 in E. apply int32_bytes_inj in E. congruence.
Qed.

(** ** Reading *)
Class NetSpec (C : Type) `{NetConn C} := {
  net_sent : C → list byte;
  net_Write_sent b c : ∃ n c', net_Write b c = ((n, None), c') ∧ net_sent c' = net_sent c ++ b;
  net_in_rest r c : net_in (net_rest r c) = r
}.

Section reading.
Context {C : Type} `{NetSpec C} {D : Type} (plain : D → digestMD5IntegrityConn C) (set_plain : digestMD5IntegrityConn C → D → D).
Context (decode : list byte → D → result (list byte) * list byte * D) (count_on_error : Z → Z).
Notation read := (conn_Read plain set_plain decode count_on_error).
(** The frames [raw] carry the messages for a receiver in the state [d]; where it
    reads from and what it has buffered does not matter. *)
Context (expects : D → list (list byte) → list byte → Prop).
Context (plain_set : ∀ p d, plain (set_plain p d) = p).
Context (expects_set : ∀ c buf d ms raw, expects d ms raw → expects (set_plain (ic_set c buf (plain d)) d) ms raw).
Context (expects_next : ∀ d m ms raw, expects d (m :: ms) raw → m ≠ [] ∧
  ∃ body raw', raw = int32_bytes (zlen body) ++ body ++ raw' ∧ zlen body < 2 ^ 31
    ∧ ∃ inp d2, decode body d = (Ok m, inp, d2) ∧ expects d2 ms raw' ∧ ic_conn (plain d2) = ic_conn (plain d) ∧ ic_readDeadline (plain d2) = ic_readDeadline (plain d)).

Record receiving (now : Z) (d : D) (rest : list byte) (ms : list (list byte)) : Prop := {
  rv_timely : match ic_readDeadline (plain d) with Some t => (t <? now) = false | None => True end;
  rv_buf : ic_readBuf (plain d) = rest;
  rv_raw : ∃ raw more e, net_in (ic_conn (plain d)) = mkReader (raw ++ more) e ∧ expects d ms raw
}.
(** What is left after a read: of the message at hand, or of the next one. *)
Definition step_left (n : Z) (rest : list byte) (ms : list (list byte)) : list byte * list (list byte) :=
  match rest, ms with
  | [], m :: ms => (drop (Z.to_nat n) m, ms)
  | _, _ => (drop (Z.to_nat n) rest, ms)
  end.
Definition step_fits (n : Z) (rest : list byte) (ms : list (list byte)) : Prop :=
  0 < n ∧ match rest with [] => ms ≠ [] | _ => n <= zlen rest end.

Lemma not_late now d : match ic_readDeadline (plain d) with Some t => (t <? now) = false | None => True end →
  match ic_readDeadline (plain d) with Some t => t <? now | None => false end = false.
Proof. by destruct (ic_readDeadline (plain d)). Qed.
Lemma conn_Read_buffered now n d rest ms : receiving now d rest ms → rest ≠ [] → 0 < n <= zlen rest →
  ∃ d', read now n d = (Some (mkRead (take (Z.to_nat n) rest) n None), d') ∧ receiving now d' (drop (Z.to_nat n) rest) ms.
Proof.
  intros [Hl Hb (raw & more & e & Hin & Hexp)] Hne Hn. eexists. unfold conn_Read. rewrite (not_late now d Hl), Hb. destruct rest as [|x rest]; [done|].
  unfold buffer_Read. assert (zlen (take (Z.to_nat n) (x :: rest)) = n) as En by (unfold zlen in *; rewrite length_take; lia). rewrite En, Z.eqb_refl. simpl orb.
  split; [done|]. split; [by rewrite plain_set|by rewrite plain_set|]. exists raw, more, e. rewrite plain_set. split; [done|]. by apply expects_set.
Qed.
Lemma conn_Read_next now n d m ms : receiving now d [] (m :: ms) → 0 < n →
  ∃ d', read now n d = (Some (mkRead (take (Z.to_nat n) m) (Z.min n (zlen m)) None), d') ∧ receiving now d' (drop (Z.to_nat n) m) ms.
Proof.
  intros [Hl Hb (raw & more & e & Hin & Hexp)] Hn. unfold conn_Read. rewrite (not_late now d Hl), Hb.
  assert (buffer_Read n [] = ([], Some EOF, [])) as -> by (unfold buffer_Read; by rewrite (proj2 (Z.eqb_neq n 0)) by lia).
  change (zlen []) with 0. rewrite (proj2 (Z.eqb_neq 0 n)) by lia. rewrite (bool_decide_true (Some EOF = Some EOF)) by done. rewrite orb_true_r. cbn [orb negb]. cbv iota.
  set (d0 := set_plain (ic_set (ic_conn (plain d)) [] (plain d)) d). assert (plain d0 = ic_set (ic_conn (plain d)) [] (plain d)) as Hp0 by apply plain_set.
  destruct (expects_next d m ms raw Hexp) as (Hm & body & raw' & -> & Hlen & _). rewrite Hin. rewrite <- !app_assoc.
  assert (ReadFull (mkReader (int32_bytes (zlen body) ++ body ++ raw' ++ more) e) 4 = ((int32_bytes (zlen body), None), mkReader (body ++ raw' ++ more) e)) as ->.
  { unfold ReadFull, read_upto. cbn [rd_rest rd_fail]. change (Z.to_nat 4) with (length (int32_bytes (zlen body))). rewrite take_app_length, drop_app_length. done. }
  unfold int32_bytes at 1. rewrite <- (app_nil_r (marshalUint32 [] (u32 (zlen body)))), unmarshalUint32_marshal, u32_id by auto with goint.
  pose proof (zlen_nonneg body). rewrite i32_u32 by lia. rewrite (proj2 (Z.ltb_ge (zlen body) 0)) by lia.
  assert (CopyN (mkReader (body ++ raw' ++ more) e) (zlen body) = ((body, None), mkReader (raw' ++ more) e)) as ->.
  { unfold CopyN, read_upto. cbn [rd_rest rd_fail]. replace (Z.to_nat (zlen body)) with (length body) by (unfold zlen; lia). rewrite take_app_length, drop_app_length.
    by rewrite Z.leb_refl. }
  rewrite Hp0. set (p1 := ic_set _ body _). set (d1 := set_plain p1 d0).
  assert (expects d1 (m :: ms) (int32_bytes (zlen body) ++ body ++ raw')) as Hexp1.
  { assert (p1 = ic_set (net_rest (mkReader (raw' ++ more) e) (net_rest (mkReader (body ++ raw' ++ more) e) (ic_conn (plain d)))) body (plain d0)) as Hp1 by by rewrite Hp0.
    unfold d1. rewrite Hp1. by apply expects_set, expects_set. }
  destruct (expects_next d1 m ms _ Hexp1) as (_ & body' & raw2 & Eraw & Hlen' & inp & d2 & Edec & Hexp2 & Hconn & Hdl).
  assert (body' = body ∧ raw2 = raw') as [-> ->].
  { assert (int32_bytes (zlen body) = int32_bytes (zlen body') ∧ body ++ raw' = body' ++ raw2) as [E4 Eb] by (by apply app_inj_1 in Eraw).
    apply int32_bytes_inj in E4. pose proof (zlen_nonneg body'). rewrite !u32_id in E4 by (unfold is_u32; lia).
    apply app_inj_1 in Eb as [-> ->]; [done|]. unfold zlen in E4. lia. }
  rewrite Edec. rewrite Z.sub_0_r. unfold buffer_Read. destruct m as [|x m]; [done|]. set (m' := x :: m) in *.
  assert (zlen (take (Z.to_nat n) m') = Z.min n (zlen m')) as Et by (unfold zlen; rewrite length_take; lia). simpl app. rewrite Et.
  eexists. split; [done|]. split; rewrite plain_set; [simpl; rewrite Hdl; unfold d1; by rewrite plain_set|done|].
  exists raw', more, e. simpl. rewrite Hconn. unfold d1. rewrite plain_set. simpl. rewrite net_in_rest. split; [done|]. by apply expects_set.
Qed.

(** A sequence of reads as a caller sees it; [None] when one of them fails. *)
Fixpoint read_all (now : Z) (sizes : list Z) (d : D) : option (list byte * D) :=
  match sizes with
  | [] => Some ([], d)
  | n :: sizes =>
      match read now n d with
      | (Some (mkRead b k None), d) => '(more, d) ← read_all now sizes d; Some (take (Z.to_nat k) b ++ more, d)
      | _ => None
      end
  end.
Fixpoint fits (sizes : list Z) (rest : list byte) (ms : list (list byte)) : Prop :=
  match sizes with
  | [] => True
  | n :: sizes => step_fits n rest ms ∧ let '(rest, ms) := step_left n rest ms in fits sizes rest ms
  end.
Lemma read_all_delivers now sizes : ∀ d rest ms, receiving now d rest ms → fits sizes rest ms →
  ∃ got d', read_all now sizes d = Some (got, d') ∧ got `prefix_of` rest ++ mjoin ms ∧ (length sizes ≤ length got)%nat.
Proof.
  induction sizes as [|n sizes IH]; intros d rest ms Hr Hf; [exists [], d; split_and!; [done|apply prefix_nil|done]|]. destruct Hf as [[Hn Hfit] Hf]. cbn [read_all].
  assert (∃ x d', read now n d = (Some (mkRead x (zlen x) None), d') ∧ x ≠ [] ∧ ∃ rest' ms', step_left n rest ms = (rest', ms') ∧ receiving now d' rest' ms'
    ∧ rest ++ mjoin ms = x ++ rest' ++ mjoin ms') as (x & d' & E & Hx & rest' & ms' & Es & Hr' & Ej).
  { destruct rest as [|y rest].
    - destruct ms as [|m ms]; [done|]. destruct (conn_Read_next now n d m ms Hr Hn) as (d' & E & Hr'). exists (take (Z.to_nat n) m), d'.
      destruct Hr as [_ _ (raw & more & e & _ & Hexp)]. destruct (expects_next d m ms raw Hexp) as [Hm _].
      split_and!; [rewrite E; do 3 f_equal; unfold zlen; rewrite length_take; lia|destruct m, (Z.to_nat n) eqn:?; simpl; try done; lia|].
      exists (drop (Z.to_nat n) m), ms. split_and!; [done|done|]. simpl. by rewrite app_assoc, take_drop.
    - destruct (conn_Read_buffered now n d (y :: rest) ms Hr ltac:(done) ltac:(lia)) as (d' & E & Hr'). exists (take (Z.to_nat n) (y :: rest)), d'.
      split_and!; [rewrite E; do 3 f_equal; unfold zlen in *; rewrite length_take; lia|destruct (Z.to_nat n) eqn:?; simpl; try done; lia|].
      exists (drop (Z.to_nat n) (y :: rest)), ms. split_and!; [done|done|]. by rewrite app_assoc, take_drop. }
  rewrite E. rewrite Es in Hf. destruct (IH d' rest' ms' Hr' Hf) as (got & d2 & -> & [k Ek] & Hlen). simpl.
  exists (x ++ got), d2. replace (Z.to_nat (zlen x)) with (length x) by (unfold zlen; lia). rewrite firstn_all, Ej, Ek. split_and!; [done|exists k; by rewrite app_assoc|].
  rewrite length_app. destruct x; [done|]. simpl. lia.
Qed.
End reading.

(** ** The two connections *)
Fixpoint integrity_frames (key : list byte) (seq : Z) (ms : list (list byte)) : list byte :=
  match ms with [] => [] | m :: ms => integrity_frame key seq m ++ integrity_frames key (i64 (seq + 1)) ms end.
Fixpoint privacy_frames (key : list byte) (c : rc4_Cipher) (seq : Z) (ms : list (list byte)) : list byte :=
  match ms with [] => [] | m :: ms => let '(f, c) := privacy_frame key c seq m in f ++ privacy_frames key c (i64 (seq + 1)) ms end.
(** Messages that are not empty and whose length fits the frame. *)
Definition sendable (m : list byte) : Prop := m ≠ [] ∧ zlen m + 16 < 2 ^ 31.

Section protected.
Context {C : Type} `{NetSpec C}.
Fixpoint write_all {D} (write : list byte → D → (Z * option error) * D) (ms : list (list byte)) (d : D) : option D :=
  match ms with
  | [] => Some d
  | m :: ms => match write m d with ((_, None), d) => write_all write ms d | _ => None end
  end.
Lemma integrity_writes ms : ∀ d : digestMD5IntegrityConn C, ∃ d', write_all integrity_Write ms d = Some d'
  ∧ net_sent (ic_conn d') = net_sent (ic_conn d) ++ integrity_frames (ic_encodeMAC d) (ic_sendSeqNum d) ms.
Proof.
  induction ms as [|m ms IH]; intros d; cbn [write_all integrity_frames]; [exists d; by rewrite app_nil_r|].
  destruct (net_Write_sent (integrity_frame (ic_encodeMAC d) (ic_sendSeqNum d) m) (ic_conn d)) as (n & c & E & Hc).
  set (d1 := mkIntegrity c (ic_readDeadline d) (ic_readBuf d) (i64 (ic_sendSeqNum d + 1)) (ic_readSeqNum d) (ic_encodeMAC d) (ic_decodeMAC d)).
  assert (integrity_Write m d = ((n, None), d1)) as -> by (unfold integrity_Write; by rewrite E). destruct (IH d1) as (d' & -> & Hd').
  exists d'. split; [done|]. simpl in Hd'. by rewrite Hd', Hc, app_assoc.
Qed.
Lemma privacy_writes ms : ∀ d : digestMD5PrivacyConn C, ∃ d', write_all privacy_Write ms d = Some d'
  ∧ net_sent (ic_conn (pc_plain d')) = net_sent (ic_conn (pc_plain d)) ++ privacy_frames (ic_encodeMAC (pc_plain d)) (pc_encryptor d) (ic_sendSeqNum (pc_plain d)) ms.
Proof.
  induction ms as [|m ms IH]; intros [p dec enc]; cbn [write_all privacy_frames pc_plain pc_encryptor]; [eexists; split; [done|]; by rewrite app_nil_r|].
  destruct (privacy_frame (ic_encodeMAC p) enc (ic_sendSeqNum p) m) as [f enc'] eqn:Ef. destruct (net_Write_sent f (ic_conn p)) as (n & c & E & Hc).
  set (d1 := mkPrivacy (mkIntegrity c (ic_readDeadline p) (ic_readBuf p) (i64 (ic_sendSeqNum p + 1)) (ic_readSeqNum p) (ic_encodeMAC p) (ic_decodeMAC p)) dec enc').
  assert (privacy_Write m (mkPrivacy p dec enc) = ((n, None), d1)) as -> by (unfold privacy_Write; cbn [pc_plain pc_encryptor]; by rewrite Ef, E).
  destruct (IH d1) as (d' & -> & Hd'). exists d'. split; [done|]. simpl in Hd'. by rewrite Hd', Hc, app_assoc.
Qed.

Definition integrity_expects (d : digestMD5IntegrityConn C) (ms : list (list byte)) (raw : list byte) : Prop :=
  Forall sendable ms ∧ raw = integrity_frames (ic_decodeMAC d) (ic_readSeqNum d) ms.
Definition privacy_expects (d : digestMD5PrivacyConn C) (ms : list (list byte)) (raw : list byte) : Prop :=
  Forall sendable ms ∧ raw = privacy_frames (ic_decodeMAC (pc_plain d)) (pc_decryptor d) (ic_readSeqNum (pc_plain d)) ms.
Lemma integrity_frame_signed key seq m : integrity_frame key seq m = int32_bytes (zlen (signed key seq m)) ++ signed key seq m.
Proof.
  unfold integrity_frame, signed. rewrite !zlen_app, zlen_msgHMAC. f_equal. f_equal. change (zlen macMsgType) with 2. change (zlen (int32_bytes seq)) with 4.
  unfold macHMACLen, macMsgTypeLen, macSeqNumLen. lia.
Qed.
Lemma zlen_signed key seq m : zlen (signed key seq m) = zlen m + 16.
Proof. unfold signed. rewrite !zlen_app, zlen_msgHMAC. change (zlen macMsgType) with 2. change (zlen (int32_bytes seq)) with 4. lia. Qed.
Lemma integrity_expects_next (d : digestMD5IntegrityConn C) m ms raw : integrity_expects d (m :: ms) raw → m ≠ [] ∧
  ∃ body raw', raw = int32_bytes (zlen body) ++ body ++ raw' ∧ zlen body < 2 ^ 31
    ∧ ∃ inp d2, integrity_decode body d = (Ok m, inp, d2) ∧ integrity_expects d2 ms raw' ∧ ic_conn d2 = ic_conn d ∧ ic_readDeadline d2 = ic_readDeadline d.
Proof.
  intros [[[Hne Hlen] Hms]%Forall_cons ->]. split; [done|]. cbn [integrity_frames]. rewrite integrity_frame_signed, <- app_assoc.
  exists (signed (ic_decodeMAC d) (ic_readSeqNum d) m), (integrity_frames (ic_decodeMAC d) (i64 (ic_readSeqNum d + 1)) ms).
  split_and!; [done|by rewrite zlen_signed|]. unfold integrity_decode. rewrite integrity_check_signed. eexists _, _. split; [done|]. by split_and!.
Qed.
Lemma privacy_expects_next (d : digestMD5PrivacyConn C) m ms raw : privacy_expects d (m :: ms) raw → m ≠ [] ∧
  ∃ body raw', raw = int32_bytes (zlen body) ++ body ++ raw' ∧ zlen body < 2 ^ 31
    ∧ ∃ inp d2, privacy_decode body d = (Ok m, inp, d2) ∧ privacy_expects d2 ms raw' ∧ ic_conn (pc_plain d2) = ic_conn (pc_plain d)
        ∧ ic_readDeadline (pc_plain d2) = ic_readDeadline (pc_plain d).
Proof.
  intros [[[Hne Hlen] Hms]%Forall_cons ->]. split; [done|]. destruct d as [p dec enc]. cbn [privacy_frames pc_plain pc_decryptor]. unfold privacy_frame. set (seq := ic_readSeqNum p). set (key := ic_decodeMAC p).
  pose proof (length_XORKeyStream dec (m ++ msgHMAC key (lenEncodeBytes seq) m)) as Hl.
  destruct (XORKeyStream dec (m ++ msgHMAC key (lenEncodeBytes seq) m)) as [sealed dec'] eqn:Ex. simpl in Hl. rewrite length_app, length_msgHMAC in Hl.
  assert (zlen sealed = zlen m + 10) as Hs by (unfold zlen; lia). set (tail := macMsgType ++ int32_bytes seq). assert (zlen tail = 6) as Ht by done.
  exists (sealed ++ tail), (privacy_frames key dec' (i64 (seq + 1)) ms). split_and!.
  - rewrite <- !app_assoc. f_equal. f_equal. rewrite zlen_app, Hs, Ht. unfold macHMACLen, macMsgTypeLen, macSeqNumLen. lia.
  - rewrite zlen_app, Hs, Ht. lia.
  - unfold privacy_decode. rewrite zlen_app, Hs, Ht. pose proof (zlen_nonneg m). unfold saslIntegrityPrefixLength, macMsgTypeLen, macSeqNumLen.
    rewrite (proj2 (Z.ltb_ge (zlen m + 10 + 6) 4)) by lia. replace (zlen m + 10 + 6 - 2 - 4) with (zlen sealed) by lia.
    pose proof (slice_app [] sealed tail) as Hsl. simpl in Hsl. change (zlen []) with 0 in Hsl. rewrite Z.add_0_l in Hsl. rewrite Hsl.
    change (pc_decryptor (mkPrivacy p dec enc)) with dec. rewrite (XORKeyStream_involutive _ _ _ _ Ex).
    replace (Z.to_nat (zlen sealed)) with (length sealed) by (unfold zlen; lia). rewrite drop_app_length, <- app_assoc.
    change (pc_plain (mkPrivacy p dec enc)) with p. fold seq key. unfold tail. rewrite privacy_check_parts by (done || apply zlen_msgHMAC).
    rewrite bool_decide_true by apply signed_accepted. eexists _, _. split; [done|]. by split_and!.
Qed.

Lemma integrity_expects_set c buf (d : digestMD5IntegrityConn C) ms raw : integrity_expects d ms raw → integrity_expects (ic_set c buf d) ms raw.
Proof. done. Qed.
Lemma privacy_expects_set c buf (d : digestMD5PrivacyConn C) ms raw :
  privacy_expects d ms raw → privacy_expects (mkPrivacy (ic_set c buf (pc_plain d)) (pc_decryptor d) (pc_encryptor d)) ms raw.
Proof. done. Qed.

(** What [s] writes arrives at [r]: the writes succeed, and whenever what they sent
    comes in at [r], reads return the messages from their beginning, each of them
    at least one byte. *)
Definition delivers {D} (write : list byte → D → (Z * option error) * D) (reads : list Z → D → option (list byte * D)) (conn : D → C)
  (ms : list (list byte)) (sizes : list Z) (s r : D) : Prop :=
  ∃ s' W, write_all write ms s = Some s' ∧ net_sent (conn s') = net_sent (conn s) ++ W ∧
    ∀ more e, net_in (conn r) = mkReader (W ++ more) e → ∃ got r', reads sizes r = Some (got, r') ∧ got `prefix_of` mjoin ms ∧ (length sizes ≤ length got)%nat.
(** The keys and numbers of the two ends agree, and the receiver is idle. *)
Definition linked (now : Z) (s r : digestMD5IntegrityConn C) : Prop :=
  ic_encodeMAC s = ic_decodeMAC r ∧ ic_sendSeqNum s = ic_readSeqNum r ∧ ic_readBuf r = []
  ∧ match ic_readDeadline r with Some t => (t <? now) = false | None => True end.
Definition integrity_reads (now : Z) := read_all (λ d : digestMD5IntegrityConn C, d) (λ p _, p) integrity_decode (λ n, n) now.
Definition privacy_reads (now : Z) :=
  read_all pc_plain (λ p (d : digestMD5PrivacyConn C), mkPrivacy p (pc_decryptor d) (pc_encryptor d)) privacy_decode (λ _, 0) now.
Lemma integrity_delivers now ms sizes s r : Forall sendable ms → fits sizes [] ms → linked now s r →
  delivers integrity_Write (integrity_reads now) ic_conn ms sizes s r.
Proof.
  intros Hms Hf (Hk & Hs & Hb & Hd). destruct (integrity_writes ms s) as (s' & E & Hsent). exists s', (integrity_frames (ic_encodeMAC s) (ic_sendSeqNum s) ms).
  split_and!; [done|done|]. intros more e Hin.
  destruct (read_all_delivers (λ d : digestMD5IntegrityConn C, d) (λ p _, p) integrity_decode (λ n, n) integrity_expects (λ p d, eq_refl) integrity_expects_set integrity_expects_next now sizes r [] ms)
    as (got & r' & Eg & Hgot); [|done|by exists got, r'].
  split; [done|done|]. exists (integrity_frames (ic_encodeMAC s) (ic_sendSeqNum s) ms), more, e. split; [done|]. split; [done|]. by rewrite Hk, Hs.
Qed.
Lemma privacy_delivers now ms sizes s r : Forall sendable ms → fits sizes [] ms → linked now (pc_plain s) (pc_plain r) → pc_encryptor s = pc_decryptor r →
  delivers privacy_Write (privacy_reads now) (λ d, ic_conn (pc_plain d)) ms sizes s r.
Proof.
  intros Hms Hf (Hk & Hs & Hb & Hd) Hc. destruct (privacy_writes ms s) as (s' & E & Hsent).
  exists s', (privacy_frames (ic_encodeMAC (pc_plain s)) (pc_encryptor s) (ic_sendSeqNum (pc_plain s)) ms). split_and!; [done|done|]. intros more e Hin.
  destruct (read_all_delivers pc_plain (λ p (d : digestMD5PrivacyConn C), mkPrivacy p (pc_decryptor d) (pc_encryptor d)) privacy_decode (λ _, 0) privacy_expects
    (λ p d, eq_refl) privacy_expects_set privacy_expects_next now sizes r [] ms) as (got & r' & Eg & Hgot); [|done|by exists got, r'].
  split; [done|done|]. eexists _, more, e. split; [done|]. split; [done|]. by rewrite Hk, Hs, Hc.
Qed.

(** A message whose number is not the one the receiver waits for makes the read
    that meets it fail. *)
Lemma integrity_Read_replay now n (r : digestMD5IntegrityConn C) i m more e :
  ic_readBuf r = [] → match ic_readDeadline r with Some t => (t <? now) = false | None => True end →
  0 < n → zlen m + 16 < 2 ^ 31 → u32 i ≠ u32 (ic_readSeqNum r) →
  net_in (ic_conn r) = mkReader (integrity_frame (ic_decodeMAC r) i m ++ more) e →
  (integrity_Read now n r).1 = Some (mkRead [] 0 (Some (EMsg "HMAC Integrity Check failed"))).
Proof.
  intros Hb Hl Hn Hlen Hne Hin. unfold integrity_Read, conn_Read. rewrite (not_late (λ d, d) now r Hl), Hb.
  assert (buffer_Read n [] = ([], Some EOF, [])) as -> by (unfold buffer_Read; by rewrite (proj2 (Z.eqb_neq n 0)) by lia).
  change (zlen []) with 0. rewrite (proj2 (Z.eqb_neq 0 n)) by lia. rewrite (bool_decide_true (Some EOF = Some EOF)) by done. rewrite orb_true_r. cbn [orb negb]. cbv iota.
  rewrite Hin, integrity_frame_signed, <- app_assoc. set (body := signed (ic_decodeMAC r) i m).
  assert (zlen body = zlen m + 16) as Hbody by apply zlen_signed. pose proof (zlen_nonneg m).
  assert (ReadFull (mkReader (int32_bytes (zlen body) ++ body ++ more) e) 4 = ((int32_bytes (zlen body), None), mkReader (body ++ more) e)) as ->.
  { unfold ReadFull, read_upto. cbn [rd_rest rd_fail]. change (Z.to_nat 4) with (length (int32_bytes (zlen body))). rewrite take_app_length, drop_app_length. done. }
  unfold int32_bytes at 1. rewrite <- (app_nil_r (marshalUint32 [] (u32 (zlen body)))), unmarshalUint32_marshal, u32_id by auto with goint.
  rewrite i32_u32 by lia. rewrite (proj2 (Z.ltb_ge (zlen body) 0)) by lia.
  assert (CopyN (mkReader (body ++ more) e) (zlen body) = ((body, None), mkReader more e)) as ->.
  { unfold CopyN, read_upto. cbn [rd_rest rd_fail]. replace (Z.to_nat (zlen body)) with (length body) by (unfold zlen; lia). rewrite take_app_length, drop_app_length.
    by rewrite Z.leb_refl. }
  unfold integrity_decode. cbn [ic_decodeMAC ic_readSeqNum ic_set]. unfold body. by rewrite integrity_check_replay.
Qed.

(** C19: Over a connection that signs or enciphers, what one end writes in any number
    of non-empty messages (of less than 2^31 - 16 bytes) the other end reads from the
    beginning, in order and unchanged, in reads of any sizes that do not ask for more
    than is left of a message; every such read returns something. On a connection
    that signs, a message that is repeated, or comes out of order, is refused: the
    read that meets it delivers nothing and reports that the check failed. (A caller
    that goes on reading after that error is handed the refused bytes, see
    [failed_check_hands_out_data].) *)
Theorem protected_stream_delivers now ms sizes : Forall sendable ms → fits sizes [] ms →
  (∀ s r, linked now s r → delivers integrity_Write (integrity_reads now) ic_conn ms sizes s r)
  ∧ (∀ s r, linked now (pc_plain s) (pc_plain r) → pc_encryptor s = pc_decryptor r →
       delivers privacy_Write (privacy_reads now) (λ d, ic_conn (pc_plain d)) ms sizes s r)
  ∧ ∀ (s r : digestMD5IntegrityConn C) n i m more e, linked now s r → 0 < n → sendable m → u32 i ≠ u32 (ic_readSeqNum r) →
      net_in (ic_conn r) = mkReader (integrity_frame (ic_encodeMAC s) i m ++ more) e →
      (integrity_Read now n r).1 = Some (mkRead [] 0 (Some (EMsg "HMAC Integrity Check failed"))).
Proof.
  intros Hms Hf. split_and!; [intros s r; by apply integrity_delivers|intros s r; by apply privacy_delivers|].
  intros s r n i m more e (Hk & _ & Hb & Hd) Hn [_ Hm] Hne. rewrite Hk. by apply integrity_Read_replay.
Qed.
End protected.

Section negotiation.
Context {C : Type} `{NetConn C} `{Proto DataTransferEncryptorMessageProto}.
Implicit Types (c : C).
(** What a connection protects: the wrappers of the digest sign every message,
    the privacy wrapper and AES encipher; AES in counter mode has no
    signature. *)
Definition signs (x : dnConn C) : Prop := match x with Integrity _ | Privacy _ => True | _ => False end.
Definition encrypted (x : dnConn C) : Prop := match x with Privacy _ | Aes _ _ _ _ _ => True | _ => False end.
Definition is_aes (x : dnConn C) : Prop := match x with Aes _ _ _ _ _ => True | _ => False end.
Lemma decode_keys_aes {D} (dec : list byte → D → result (list byte) * list byte * D) opt c d x : decode_keys dec opt c d = Ok x → is_aes x.
Proof.
  unfold decode_keys. destruct (dec (co_InKey opt) d) as [[[k| |] ?] d1]; [|done|done]. simpl. destruct (dec (co_OutKey opt) d1) as [[[k'| |] ?] d2]; [|done|done]. simpl.
  unfold newAesConn. destruct (aes_key k); [|done|done]. simpl. destruct (aes_key k'); [|done|done]. simpl. case_match; [done|]. by intros [= <-].
Qed.
Lemma protect_spec privacy dgst resp c x : protect privacy dgst resp c = Ok x →
  (em_CipherOption resp = [] → signs x ∧ (privacy = true → encrypted x)) ∧ (em_CipherOption resp ≠ [] → is_aes x).
Proof.
  unfold protect. destruct (generateIntegrityKeys (a1 dgst)) as [kic kis]. destruct privacy.
  - case_bool_decide; [done|]. destruct (generatePrivacyKeys _ _) as [kcc kcs]. destruct (newDigestMD5PrivacyConn c kic kis kcc kcs) as [w| |]; [|done|done]. simpl.
    destruct (em_CipherOption resp) as [|opt l]; [by intros [= <-]|]. by intros E%decode_keys_aes.
  - destruct (em_CipherOption resp) as [|opt l]; [by intros [= <-]|]. by intros E%decode_keys_aes.
Qed.
Lemma select_qop_spec enforce dgst p i : select_qop enforce dgst = Ok (p, i) →
  (enforce = "privacy"%string → p = true) ∧ (enforce = "integrity"%string → p || i = true).
Proof.
  unfold select_qop. repeat case_bool_decide; simpl; try (intros [= <- <-]; done); try done; intros [= <- <-]; by split; intros ->.
Qed.
Lemma challengeStep1_spec g b d ret d' : challengeStep1 g b d = Ok (ret, d') → g = Ok (cnonce d') ∧ authID d' = authID d ∧ passwd d' = passwd d.
Proof.
  unfold challengeStep1. destruct (ParseChallenge b) as [t| |]; [|done|done]. simpl. destruct g as [n| |]; [|done|done]. simpl. by intros [= _ <-].
Qed.
Lemma challengeStep2_spec b d u : challengeStep2 b d = Ok u → ∃ rest, strings_Split (string_of_bytes b) "="%char = "rspauth"%string :: compute false d :: rest.
Proof.
  unfold challengeStep2. destruct (strings_Split _ _) as [|r0 rest]; [done|]. case_bool_decide as E0; simpl; [|done]. destruct rest as [|r1 rest]; [done|].
  case_bool_decide as E1; [|done]. intros _. exists rest. by rewrite E0, E1.
Qed.

(** C18: A connection the dialer returns has the protection the configuration asks
    for, whatever level the datanode offers. Before it is returned the datanode
    has answered with the digest of the credentials and of the nonce made for this
    connection. With privacy configured the connection enciphers; with privacy or
    integrity configured it is never bare: it signs every message, unless that
    last answer of the datanode names a cipher, in which case it is AES in counter
    mode, which enciphers but does not sign. *)
Theorem sasl_qop_enforced g d c x c' : wrapDatanodeConn g d c = (Ok x, c') →
  ∃ dgst resp rest c1 r, g = Ok (cnonce dgst) ∧ (authID dgst, passwd dgst) = credentials d
    ∧ readPrefixedMessage (net_in c1) = (Ok resp, r) ∧ c' = net_rest r c1
    ∧ strings_Split (string_of_bytes (em_Payload resp)) "="%char = "rspauth"%string :: compute false dgst :: rest
    ∧ (sd_EnforceQop d = "privacy"%string → encrypted x)
    ∧ (sd_EnforceQop d = "privacy"%string ∨ sd_EnforceQop d = "integrity"%string →
         (em_CipherOption resp = [] → signs x) ∧ (em_CipherOption resp ≠ [] → is_aes x)).
Proof.
  unfold wrapDatanodeConn. destruct (credentials d) as [ident pass]. destruct (makePrefixedMessage _) as [data| |]; [|done|done].
  destruct (net_send _ c) as [[e|] c1]; [done|]. destruct (net_read_message c1) as [msg c2]. set (dgst0 := mkHandshake _ _ _ _ _ _ _).
  destruct msg as [msg| |]; [|done|done]. cbn [mbind result_bind].
  destruct (challengeStep1 g (em_Payload msg) dgst0) as [[response dgst]| |] eqn:E1; [|done|done]. cbn [mbind result_bind].
  destruct (select_qop (sd_EnforceQop d) dgst) as [[privacy integrity]| |] eqn:Eq; [|done|done]. cbn [mbind result_bind].
  destruct (makePrefixedMessage _) as [data2| |]; [|done|done]. cbn [mbind result_bind]. destruct (net_send data2 c2) as [[e|] c3]; [done|].
  unfold net_read_message. destruct (readPrefixedMessage (net_in c3)) as [resp r] eqn:Er. destruct resp as [resp| |]; [|done|done]. cbn [mbind result_bind].
  destruct (challengeStep2 (em_Payload resp) dgst) as [u| |] eqn:E2; [|done|done]. cbn [mbind result_bind]. intros [= Ex <-].
  destruct (select_qop_spec _ _ _ _ Eq) as [Hp Hi]. destruct (challengeStep1_spec _ _ _ _ _ E1) as (Hg & Hid & Hpw). destruct (challengeStep2_spec _ _ _ E2) as [rest Hrest].
  exists dgst, resp, rest, c3, r. rewrite Hid, Hpw.
  assert (privacy || integrity = true → protect privacy dgst resp (net_rest r c3) = Ok x) as Hprot
    by (destruct privacy, integrity; simpl in Ex; done).
  split_and!; try done.
  - intros Hq. rewrite (Hp Hq) in Hprot. destruct (protect_spec _ _ _ _ _ (Hprot eq_refl)) as [H1 H2].
    destruct (em_CipherOption resp) as [|opt l]; [by apply H1|]. specialize (H2 ltac:(done)). by destruct x.
  - intros Hq. assert (privacy || integrity = true) as Hpi by (destruct Hq as [Hq|Hq]; [by rewrite (Hp Hq)|by apply Hi]).
    destruct (protect_spec _ _ _ _ _ (Hprot Hpi)) as [H1 H2]. split; [by intros; apply H1|done].
Qed.
End negotiation.

(** ** Concrete connections *)
Module DemoStream.
Import DemoSasl.
#[global] Instance wire_spec : NetSpec wire.
Proof. refine {| net_sent := w_sent |}; [|done]. intros b c. by eexists _, _. Defined.
Definition k1 : list byte := bytes_of_string "sixteen byte key".
Definition quiet (l : list byte) : wire := mkWire [] (mkReader l EOF).
Definition end1 (l : list byte) : digestMD5IntegrityConn wire := newDigestMD5IntegrityConn (quiet l) k1 k1.
Definition text (s : string) : list byte := bytes_of_string s.
Definition two : list byte := integrity_frames k1 0 [text "abc"; text "defgh"].

(** A read that asks for more than is left of a message fills the buffer and
    returns the count of its second part only. *)
Example spanning_read_miscounts : (integrity_Read 0 6 (integrity_Read 0 2 (end1 two)).2).1 = Some (mkRead (text "cdefgh") 5 None).
Proof. vm_compute. reflexivity. Qed.
(** An empty message ends the stream. *)
Example empty_message_ends : (integrity_Read 0 4 (end1 (integrity_frames k1 0 [[]; text "abc"]))).1 = Some (mkRead [] 0 (Some EOF)).
Proof. vm_compute. reflexivity. Qed.
(** A message that fails the check stays in the buffer, and the next read hands it
    out without an error. *)
Example failed_check_hands_out_data :
  let d := end1 (int32_bytes 20 ++ text "forged! 567890123456") in
  (integrity_Read 0 7 d).1 = Some (mkRead [] 0 (Some (EMsg "HMAC Integrity Check failed")))
  ∧ (integrity_Read 0 7 (integrity_Read 0 7 d).2).1 = Some (mkRead (text "forged!") 7 None).
Proof. vm_compute. split; reflexivity. Qed.
(** Messages too short for a digest, and negative lengths, panic. *)
Example short_message_panics : (integrity_Read 0 4 (end1 (int32_bytes 8 ++ text "12345678"))).1 = None.
Proof. vm_compute. reflexivity. Qed.
Example negative_length_panics : (integrity_Read 0 4 (end1 (replicate 4 (byte_of_Z 0xff)))).1 = None.
Proof. vm_compute. reflexivity. Qed.
(** [Write] counts the bytes of the frame, not those of its argument. *)
Example write_counts_frame : (integrity_Write (text "abc") (end1 [])).1 = (23, None).
Proof. vm_compute. reflexivity. Qed.
(** A value without quotes is read as empty. *)
Example unquoted_value_lost : Qop <$> match ParseChallenge (text "qop=auth-conf") with Ok ch => Some ch | _ => None end = Some [EmptyString].
Proof. vm_compute. reflexivity. Qed.
(** An answer without an equals sign panics. *)
Example rspauth_alone_panics : challengeStep2 (text "rspauth") rfc = Panic.
Proof. vm_compute. reflexivity. Qed.
End DemoStream.
Import DemoSasl DemoStream.

Lemma protected_stream_delivers_witness :
  delivers integrity_Write (integrity_reads 0) ic_conn [text "abc"; text "defgh"] [2; 1; 9] (end1 []) (end1 two)
  ∧ delivers privacy_Write (privacy_reads 0) (λ d, ic_conn (pc_plain d)) [text "abc"; text "defgh"] [2; 1; 9]
      (mkPrivacy (end1 []) (mkRc4 [] 0 0) (mkRc4 [1; 2] 0 0)) (mkPrivacy (end1 []) (mkRc4 [1; 2] 0 0) (mkRc4 [] 0 0))
  ∧ (integrity_Read 0 3 (end1 (integrity_frame k1 7 (text "abc")))).1 = Some (mkRead [] 0 (Some (EMsg "HMAC Integrity Check failed"))).
Proof.
  assert (Forall sendable [text "abc"; text "defgh"]) as Hms by (repeat constructor; vm_compute; congruence).
  assert (fits [2; 1; 9] [] [text "abc"; text "defgh"]) as Hf by (vm_compute; repeat split; congruence).
  destruct (protected_stream_delivers (C := wire) 0 _ _ Hms Hf) as (H1 & H2 & H3).
  split; [|split].
  - apply H1. vm_compute. repeat split.
  - apply H2; [|reflexivity]. vm_compute. repeat split.
  - apply (H3 (end1 []) (end1 (integrity_frame k1 7 (text "abc"))) 3 7 (text "abc") [] EOF).
    + vm_compute. repeat split.
    + reflexivity.
    + vm_compute. split; congruence.
    + vm_compute. discriminate.
    + rewrite app_nil_r. reflexivity.
Defined.
Lemma sasl_qop_enforced_witness : ∃ x c', wrapDatanodeConn (Ok "dqNZ/hGooPsuK3iWPeDFeQ=="%string) dialer recorded = (Ok x, c') ∧ encrypted x.
Proof.
  assert (match (wrapDatanodeConn (Ok "dqNZ/hGooPsuK3iWPeDFeQ=="%string) dialer recorded).1 with Ok _ => true | _ => false end = true) as Hok
    by (vm_compute; reflexivity).
  destruct (wrapDatanodeConn (Ok "dqNZ/hGooPsuK3iWPeDFeQ=="%string) dialer recorded) as [[x| |] c'] eqn:E; [|discriminate Hok..].
  exists x, c'. split; [reflexivity|].
  destruct (sasl_qop_enforced _ _ _ _ _ E) as (? & ? & ? & ? & ? & ? & ? & ? & ? & ? & He & ?). exact (He eq_refl).
Defined.
